(* ===== verification/_CoqProject ===== *)
-Q . S2P
Prelude.v
Floats.v
BTree.v
JitterBuffer.v
JitterBufferProps.v
Statistics.v
PacketBuffer.v
PacketBufferProps.v
Histogram.v
DelayManager.v
TimeStretch.v
BufferLevelFilter.v
NetEq.v
NetEqProps.v
Validation.v
Protocol.v
TokenValidator.v
DemoWire.v
SessionLogic.v
SessionLogicProps.v
ChatServer.v
ChatServerProps.v
Transport.v
TransportProps.v
Relay.v
RelayProps.v
RelayLife.v
RelayDelivery.v
OrderedMap.v
Media.v
VideoWorker.v
PeerDecode.v
DemoMedia.v
PeerDecodeProps.v
AdaptiveQuality.v
BitrateController.v
BitrateProps.v
Diagnostics.v
Connection.v
ConnectionManager.v
ConnectionManagerProps.v
Client.v
ClientProps.v
ConnectionMetrics.v
ConnectionMetricsProps.v
HealthMetrics.v
HealthMetricsProps.v
HealthReporter.v
HealthReporterProps.v
Microphone.v
MicrophoneProps.v
VideoEncoders.v
VideoEncoderProps.v
ScreenShareProps.v
Devices.v
DevicesProps.v
Attendants.v
AttendantsProps.v
AudioReceiver.v
AudioProps.v
AudioLinkProps.v
AudioOrder.v
MeetingDb.v
MeetingApi.v
DemoMeeting.v
MeetingApiProps.v
MeetingFlows.v
Login.v
LoginProps.v
JoinPage.v
JoinPageProps.v
