(* ===== verification/Prelude.v ===== *)
(** * A verification library for videocall-rs

    videocall-rs is a video conferencing system.  Browser clients log in and join
    meetings through an HTTP service, the meeting API, which hands out room tokens;
    with a token they send audio and video packets over WebSocket or WebTransport to
    an actix server, which relays them between the participants of a room through
    NATS; receivers reorder and play them through a video jitter buffer and through
    NetEq, an audio jitter buffer after WebRTC's.  This library models the relay, the
    client, the two receive paths and the meeting API, and proves what makes them
    correct.

    ** Parts and their interaction

    Media server (src/actix-api/src).  A connection is accepted with the identity of its
    room token.  Its transport actor, WebSocket or WebTransport, owns one [SessionLogic];
    it connects to the [ChatServer] actor, joins a room, classifies every inbound packet
    ([handle_inbound]), forwards the accepted ones as [ClientMessage]s, and reports
    outbound drops to its congestion tracker.  The chat server keeps sessions, members
    and pending departures, publishes to NATS and starts timers; what the subscription of
    a session receives goes to its transport actor and from there to the client.

    Client (src/videocall-client/src).  [VideoCallClient] owns a connection manager,
    which probes all servers, elects the best connection, re-elects and reconnects, and
    a peer decode manager, which keeps one peer per remote session, opens its packets
    and feeds its decoders.  Receivers report frame rates; the sender's diagnostics turn
    the reports into input of the bitrate controller and of the quality tiers, which the
    loops of the camera and screen encoders follow.  The host component of the page starts
    and stops the encoders and gives them their devices; the page around it joins the
    meeting over the API, waits for the host, and shows peers and notices.  What the parts measure goes over
    a bus to the health reporter.

    Audio (src/neteq/src).  [NetEq::insert_packet] feeds the delay manager, whose
    histogram of relative delays gives a target delay, and stores the packet in the
    packet buffer.  [NetEq::get_audio] filters the buffer level, decides on an
    operation and runs it: plain decoding, acceleration, preemptive expansion,
    concealment.  All of them report to the statistics.  The microphone encoder of the
    client sends numbered frames; the audio decoder of a peer posts them to a worker, which
    runs the engine and posts back a frame every 10 ms.

    Video (src/videocall-codecs/src).  A worker feeds frames to the jitter buffer, which
    estimates jitter, adapts the playout delay and moves the frames that are ready to
    the browser's decoder.

    Meeting API (src/meeting-api/src).  A user logs in with an identity provider and gets
    a session cookie; handlers authenticated by it create, join, moderate and end
    meetings in a PostgreSQL database, issue room tokens and publish notifications that
    the media server forwards.

    Metrics (src/actix-api/src/bin).  The media server reports connections and their
    traffic, and forwards the health packets of clients, through NATS to two services
    that keep them as gauges and drop what has fallen silent.

    ** Files

    - [Prelude]: machine integers, clocks, results, runs of step functions, record
      update, shared list lemmas and tactics, hint databases.
    - [Floats]: IEEE 754 binary32 and binary64 with Rust's casts, [clamp], [max] and
      [round]; [BTree]: the [BTreeMap] operations the jitter buffer uses.
    - [JitterBuffer], [JitterBufferProps]: frame.rs, jitter_estimator.rs,
      jitter_buffer.rs.  An operation returns the new buffer and the frames it handed
      to the decoder.
    - [Statistics]: statistics.rs.  [PacketBuffer], [PacketBufferProps]: packet.rs,
      error.rs, buffer.rs.  [Histogram]: histogram.rs.  [DelayManager]:
      delay_manager.rs.  [TimeStretch]: signal.rs, time_stretch.rs, expand.rs.
      [BufferLevelFilter]: buffer_level_filter.rs.
    - [NetEq], [NetEqProps]: neteq.rs.  The engine is generic in its decoders (class
      [AudioDecoder], the trait of codec.rs) and in its two stretchers (class
      [TimeStretcher], the trait of time_stretch.rs); [TimeStretcherSpec] says what the
      engine needs of a stretcher and [TimeStretch] discharges it for both.
    - [Validation]: validation.rs, display names and meeting identifiers.
    - [Protocol]: session_manager.rs, models/mod.rs, user_id.rs; the packets the
      server builds and the subjects it uses.  [DemoWire]: a concrete instance of the
      protobuf interface, for the witnesses.
    - [TokenValidator]: token_validator.rs and the claims of token.rs.
    - [SessionLogic], [SessionLogicProps]: packet_handler.rs, session_logic.rs.
    - [ChatServer], [ChatServerProps]: chat_server.rs, messages/server/mod.rs.
    - [Transport], [TransportProps]: lobby.rs, webtransport/mod.rs (who is let in) and the
      two actors of actors/transports/.  [Relay]: sessions, the chat server's mailbox and
      timers, subscriptions and NATS as one transition system, one event at a time, in any
      order; [RelayProps], [RelayLife], [RelayDelivery]: what holds of all its runs.
    - [OrderedMap]: hash_map_with_ordered_keys.rs.  [Media]: encode/transform.rs,
      crypto/aes.rs and the media packets; the cipher is the class [Cipher].
      [VideoWorker]: bin/worker_decoder.rs and decoder/wasm.rs.
    - [PeerDecode], [PeerDecodeProps]: decode/peer_decode_manager.rs and
      peer_decoder.rs.  [DemoMedia]: concrete encodings and a cipher.
    - [AdaptiveQuality]: adaptive_quality_manager.rs.  [BitrateController],
      [BitrateProps]: encoder_bitrate_controller.rs and the control tasks of the
      encoders.  [Diagnostics]: diagnostics_manager.rs.
    - [Connection]: connection.rs.  [ConnectionManager], [ConnectionManagerProps]:
      connection_manager.rs and connection_controller.rs.
    - [Client], [ClientProps]: client/video_call_client.rs and crypto/rsa.rs.
    - [ConnectionMetrics], [ConnectionMetricsProps]: server_diagnostics.rs and
      bin/metrics_server_snapshot.rs.  [HealthMetrics], [HealthMetricsProps]:
      client_diagnostics.rs, metrics.rs and bin/metrics_server.rs.  [HealthReporter],
      [HealthReporterProps]: videocall-diagnostics, the events published on it, and
      health_reporter.rs.
    - [Microphone], [MicrophoneProps]: encode/microphone_encoder.rs, encoder_state.rs and
      audio_constants.rs.  [AudioReceiver]: decode/neteq_audio_decoder.rs, neteq/src/web.rs
      and bin/neteq_worker.rs, with the two threads and their ports as one system;
      [AudioProps], [AudioLinkProps], [AudioOrder]: redundancy, the threads together, and
      the order in which audio is played.
    - [VideoEncoders]: encode/camera_encoder.rs and encode/screen_encoder.rs, the tasks
      with their loops; [VideoEncoderProps], [ScreenShareProps].  [Devices],
      [DevicesProps]: media_device_list.rs, and components/host.rs of dioxus-ui, which
      connects the lists with the three encoders.  [Attendants], [AttendantsProps]:
      media_device_access.rs and components/attendants.rs, the meeting page.
    - [MeetingDb]: db/meetings.rs and db/participants.rs, a query being a value of
      [query] with its meaning [exec].  [MeetingApi]: error.rs, token.rs, auth.rs,
      nats_events.rs and the handlers of routes/, as programs.  [MeetingApiProps],
      [MeetingFlows]: invariants over all interleavings, and protocols of several
      requests.  [DemoMeeting]: a concrete server.
    - [JoinPage], [JoinPageProps]: videocall-meeting-client/src, and of dioxus-ui
      pages/meeting.rs and components/waiting_room.rs: joining, with the API behind it.
    - [Login], [LoginProps]: oauth.rs, routes/oauth.rs, db/oauth.rs.

    ** What the theorems show

    - Chat server (C1 to C4): an active participant's departure is announced exactly
      once, unless the same user joins again, leaves or loses another connection before
      the timer, and then never; a reconnection within the grace period is silent; a
      connection that is never activated and an observer are never announced.  The first
      two hold whatever messages of other sessions, the same user's included, come in
      between, the others over all runs.
    - Session logic (C5, C6): what a session forwards and the rate of keyframe requests;
      also [congestion_spacing].
    - The media server as a whole (C7 to C10), over all interleavings of clients, timers,
      the mailbox, NATS and other processes: packets stay in their room, every session
      keeps to the protocol with the chat server, nothing is left of a session that is
      gone, and from any reachable state on a participant's packet can be published and
      delivered to the other sessions of the room, whatever else goes on.  The matching of NATS subjects is the class [NatsLaws].
    - Connection manager (C11, C12, C36, C37): the election picks the best server and
      always ends; an invariant of all runs; reconnection gives up with a report.  Also
      [disconnect_is_final]: nothing happens after the user has left.
    - Peers and client (C13, C22 to C25, C35): the lifetime of a silent peer, the key
      exchange, when keyframes are requested, frames from encoder to decoder, the order in
      which the worker decodes, and the ordered map as a refinement of a map.  Also
      [announced_once] of the notifications.
    - Meeting API (C14 to C19): room tokens are earned, the tables stay consistent under
      concurrency, only the host moderates, the waiting room works up to the guest's page, and
      the media server understands the tokens ([decode_room_token] of [TokenValidator]).
      Also [page_enters_with_issued_token], [page_asks_once] and [refresh_follows_the_api].
    - Login (C20, C21): a session needs a login of its own and redirections stay on
      configured origins; also [session_cookie_round_trip].
    - Metrics (C26, C34): the connection gauge is the set of connections heard of in the
      last ten seconds, and what a client's health report says is what the gauges show; also
      [traffic_is_accounted], [stale_session_is_cleaned] and [elected_server_is_reported].
    - Audio path (C27 to C29), over all interleavings of the two threads: what the decoder
      asks for reaches an engine that is ready, in order and once, and the worker keeps the
      pace of 100 frames a second; isolated losses are made good when redundancy is on.
    - Encoders, host and page (C30 to C33): what the user switches off is off, through the host
      and its timeouts and devices (also [disabled_microphone_is_off] and
      [stopped_camera_is_off], with the tracks that are released); the microphone is on
      only after a click and the browser's consent; a keyframe that a
      receiver requests is encoded; peers and page know whether a screen is shared.  Also
      [screen_encoder_follows_settings] and [change_keeps_selections_valid]; of the page,
      [refreshes_are_bounded], [gives_up_after_ten], [previous_screen_comes_back],
      [layout_follows_sharing], [grid_holds_the_tiles] and [grid_has_the_largest_tiles].
    - Bitrate and quality (C38): tiers stay in their table; also
      [camera_bitrate_in_tier], [tier_change_is_sustained] and [transitions_spaced].
    - NetEq engine: [decode_normal_fifo], a refinement of a FIFO of samples, and
      [get_audio_always_a_frame].  Jitter buffer: [poll_terminates_and_exhausts] and
      [jb_decode_order].  Further theorems: [insert_packet_invariant] of the packet buffer, [hist_add_preserves_mass] of the
      histogram, [accepted_room_subjects] of the tokens.
    - Behaviours that contradict what the code means to do: C39 and C40, and further
      theorems of the files that are not numbered ([second_rejoin_is_announced],
      [keyframe_reopens_gap], [reelection_loses_media],
      [congestion_signal_is_dropped], [screen_controller_panics], [restart_readmits],
      [unsafe_room_locks_out], [email_users_not_counted], [departed_peer_leaks],
      [any_stream_is_seen], [recovered_frames_jump_the_queue],
      [toggled_request_sends_twice], [tier_change_loses_bitrate],
      [bitrate_change_undoes_tier], [late_screen_stays_announced],
      [screen_timeout_restarts], [unplugged_microphone_is_requested_again],
      [departures_are_never_shown], [permission_is_never_remembered],
      [accepted_warning_is_not_noted], [missed_start_waits_for_ever],
      [end_is_not_noticed], [restarted_wait_is_an_error], [typed_name_is_sent],
      [feedback_goes_astray]).

    ** Conventions

    - A w-bit integer is a [Z] with [+], [-] and [*] wrapping as in a release build,
      and [saturating_sub] and casts written out; [usize] has 64 bits (32 for the
      tier indices, which live in the browser: [usize_dec]).  Lengths and indices of
      vectors are [nat].
    - [None] of an operation's [option] result is a panic (index out of range,
      division by zero); [debug_assert]s are not part of a release build.
      A [Result] is the type [result] with [Ok] and [Err].
    - A clock read is the argument [now]: nanoseconds for [Instant], binary64
      milliseconds for the browser's clock, microseconds for SQL's [NOW()] and for
      [Utc::now]; one read per operation, [Instant::duration_since] saturating at zero.
    - Log lines, counters kept only for logs and [println!] are left out.  Messages, timers, NATS
      publications and spawned tasks are effects, listed in the order the code issues
      them; a task that [JoinRoom] or [leave_rooms] spawns is represented by what it
      does, in place.
    - Asynchronous code stops at its awaits.  The reconnection loop has one state per
      await; a handler of the meeting API is a program that stops at each query,
      publication and clock read, and requests interleave between any two of these.  A
      query may be served or lost with its connection before or after it took effect.
    - The order in which a [HashMap] is iterated or a table is scanned is a parameter,
      with the hypothesis that it visits the entries.
    - Code outside the repository is a parameter.  The generated protobuf code is the
      class [Wire] (and [MediaWire]), with laws (what is written parses back) and
      totality (writing succeeds), and for metrics [ConnectionWire] and [HealthWire], of
      which only C34 assumes that a packet parses back; the JWT and password libraries are [jwt_decode] and
      the class [Crypto]; ciphers, decoders, the PID library, the URL parser and the
      identity provider are parameters too.  The Demo files instantiate them.
    - Fuel: the polling loop of the jitter buffer removes one frame per turn, and gets
      one turn more than there are frames ([poll_terminates_and_exhausts] proves it enough); the binary search of
      the packet buffer gets the length of the buffer; every other loop is structural.

    ** Not modelled

    What user interfaces draw, browser and codec bindings, vendored and generated code, the command
    line client and the bot, process start-up and configuration from the environment
    have no logic of their own that the kernel could check.  Left out too: the QUIC
    endpoint and the reader and writer tasks of webtransport/bridge.rs (what they hand to
    the actor are events of [Transport]), the comfort noise generator (which the engine does not
    call), OIDC discovery, and the [Display] texts of errors that are not part of a
    response. *)
From Stdlib Require Export ZArith Lia.
From stdpp Require Export base sorting gmap strings sets numbers list.

#[global] Open Scope Z_scope.

(** ** Machine integers

    A w-bit integer is a [Z]; the operations below are the ones of a Rust
    release build, where [+], [-] and [*] wrap around. *)

Declare Scope mach_scope.
Delimit Scope mach_scope with mach.

Definition wrap_u (w x : Z) : Z := x mod 2 ^ w.

Definition wrap_i (w x : Z) : Z := (x + 2 ^ (w - 1)) mod 2 ^ w - 2 ^ (w - 1).

Definition u_in (w x : Z) : Prop := 0 <= x < 2 ^ w.

Definition i_in (w x : Z) : Prop := - 2 ^ (w - 1) <= x < 2 ^ (w - 1).

Definition u_max (w : Z) : Z := 2 ^ w - 1.

(** [saturating_add] and [saturating_sub] of an unsigned w-bit integer. *)
Definition sat_add (w x y : Z) : Z := Z.min (u_max w) (x + y).

Definition sat_sub (x y : Z) : Z := Z.max 0 (x - y).

Notation "x +u32 y" := (wrap_u 32 (x + y)) (at level 50, left associativity) : mach_scope.
Notation "x -u32 y" := (wrap_u 32 (x - y)) (at level 50, left associativity) : mach_scope.
Notation "x *u32 y" := (wrap_u 32 (x * y)) (at level 40, left associativity) : mach_scope.
Notation "x +u64 y" := (wrap_u 64 (x + y)) (at level 50, left associativity) : mach_scope.
Notation "x -u64 y" := (wrap_u 64 (x - y)) (at level 50, left associativity) : mach_scope.
Notation "x *u64 y" := (wrap_u 64 (x * y)) (at level 40, left associativity) : mach_scope.
Notation "x -u128 y" := (wrap_u 128 (x - y)) (at level 50, left associativity) : mach_scope.
Notation "x +i32 y" := (wrap_i 32 (x + y)) (at level 50, left associativity) : mach_scope.
Notation "x -i32 y" := (wrap_i 32 (x - y)) (at level 50, left associativity) : mach_scope.

#[global] Open Scope mach_scope.

#[global] Arguments Nat.div : simpl never.
#[global] Arguments Nat.modulo : simpl never.
#[global] Arguments wrap_u : simpl never.
#[global] Arguments wrap_i : simpl never.

(** ** Hint databases and tactics of the development *)

Create HintDb vc discriminated.
Create HintDb vc_simpl.

(** Case analysis on the tests of the goal or of a hypothesis, with the
    arithmetic facts [lia] needs kept in the context. *)
Ltac break_if :=
  match goal with
  | |- context [if ?b then _ else _] => destruct b eqn:?
  | H : context [if ?b then _ else _] |- _ => destruct b eqn:?
  end.

Ltac break_match :=
  match goal with
  | |- context [match ?x with _ => _ end] => destruct x eqn:?
  | H : context [match ?x with _ => _ end] |- _ => destruct x eqn:?
  end.


(** Split the record equalities and the tests of a definition, then close what
    arithmetic and congruence can close. *)
Ltac crush := repeat (first [break_if | break_match | progress simplify_eq/=]);
  try done; try lia; eauto with vc.

Lemma wrap_u_small (w x : Z) : u_in w x -> wrap_u w x = x.
Proof. intros H. apply Z.mod_small, H. Qed.

Lemma wrap_u_range (w x : Z) : 0 <= w -> u_in w (wrap_u w x).
Proof. intros Hw. apply Z.mod_pos_bound, Z.pow_pos_nonneg; lia. Qed.

Lemma wrap_i_small (w x : Z) : 0 < w -> i_in w x -> wrap_i w x = x.
Proof.
  intros Hw [Hl Hh]. unfold wrap_i. rewrite Z.mod_small; [lia |].
  replace (2 ^ w) with (2 ^ (w - 1) + 2 ^ (w - 1)); [lia |].
  rewrite Z.add_diag, <- Z.pow_succ_r by lia. f_equal; lia.
Qed.

Lemma wrap_i_range (w x : Z) : 0 < w -> i_in w (wrap_i w x).
Proof.
  intros Hw. unfold wrap_i, i_in.
  pose proof (Z.mod_pos_bound (x + 2 ^ (w - 1)) (2 ^ w)) as H.
  assert (2 ^ w = 2 ^ (w - 1) + 2 ^ (w - 1)) as E.
  { rewrite Z.add_diag, <- Z.pow_succ_r by lia. f_equal; lia. }
  assert (0 < 2 ^ w) by (apply Z.pow_pos_nonneg; lia). lia.
Qed.

Lemma sat_add_range (w x y : Z) : 0 <= x -> 0 <= y -> 0 <= w -> u_in w (sat_add w x y).
Proof.
  intros. unfold sat_add, u_in, u_max.
  assert (0 < 2 ^ w) by (apply Z.pow_pos_nonneg; lia). lia.
Qed.

#[export] Hint Resolve wrap_u_range wrap_i_range : vc.

(** ** Field update

    [r <| f := v |>] is the record [r] with field [f] set to [v], the model of
    an assignment [r.f = v]. A record type supports it once it has an [Eta]
    instance that lists its fields. *)

Class Eta (R : Type) : Type := eta_of : R -> R.

Class FieldUpdate {R E : Type} (f : R -> E) : Type := upd : E -> R -> R.
Arguments upd {R E} f {_} _ _ /.

Ltac solve_field_update :=
  match goal with
  | |- @FieldUpdate ?R ?E ?f =>
      let v := fresh "v" in
      let r := fresh "r" in
      refine (fun (v : E) (r : R) => _);
      let b := eval hnf in (eta_of r) in
      match b with
      | context C [f r] => let b' := context C [v] in exact b'
      end
  end.

#[export] Hint Extern 1 (FieldUpdate _) => solve_field_update : typeclass_instances.

Notation "r <| f := v |>" := (upd f v r)
  (at level 1, left associativity, f at level 0, v at level 99,
   format "r <| f  :=  v |>") : mach_scope.

(** An assignment under a condition: [if b { x = f(x) }]. *)
Definition when {T : Type} (b : bool) (f : T -> T) (x : T) : T := if b then f x else x.

(** ** Results

    [Result<T, E>] of the source. *)

Inductive result (A E : Type) : Type :=
| Ok (a : A)
| Err (e : E).
Arguments Ok {A E} a.
Arguments Err {A E} e.

Definition result_bind {A B E : Type} (r : result A E) (k : A -> result B E) : result B E :=
  match r with
  | Ok a => k a
  | Err e => Err e
  end.

Notation "x <-? c ;; k" := (result_bind c (fun x => k))
  (at level 100, c at next level, right associativity) : mach_scope.

Definition is_ok {A E : Type} (r : result A E) : bool :=
  match r with Ok _ => true | Err _ => false end.

(** ** Time

    An [Instant] is a number of nanoseconds on the monotonic clock; the code
    reads the clock with [Instant::now()], so an operation that does takes the
    reading as an argument [now]. [duration_since] and [elapsed] saturate. *)

Definition NS_PER_MS : Z := 1000000.
Definition NS_PER_SEC : Z := 1000000000.

Definition duration_since (later earlier : Z) : Z := Z.max 0 (later - earlier).

Definition from_millis (ms : Z) : Z := ms * NS_PER_MS.
Definition from_secs (s : Z) : Z := s * NS_PER_SEC.
Definition as_millis (d : Z) : Z := d / NS_PER_MS.

(** ** Sequences of steps

    Executions are sequences of labelled steps of a function that threads the
    state and returns what each step emits. *)

Section Runs.
Context {S I O : Type} (step : S -> I -> S * list O).

Fixpoint run (s : S) (es : list I) : S * list O :=
  match es with
  | [] => (s, [])
  | i :: es' =>
      let '(s1, o1) := step s i in
      let '(s2, o2) := run s1 es' in
      (s2, o1 ++ o2)
  end.

Lemma run_app (s : S) (es fs : list I) :
  run s (es ++ fs) =
    let '(s1, o1) := run s es in
    let '(s2, o2) := run s1 fs in
    (s2, o1 ++ o2).
Proof.
  revert s. induction es as [|i es IH]; intros s; simpl.
  - by destruct (run s fs).
  - destruct (step s i) as [s1 o1]. rewrite IH.
    destruct (run s1 es) as [s2 o2]. destruct (run s2 fs) as [s3 o3].
    by rewrite app_assoc.
Qed.

(** The induction principle of every invariant of the development: a
    property of the start state that every step preserves holds of the end
    state, and what each step emits satisfies its own predicate. *)
Lemma run_invariant (Inv : S -> Prop) (Out : O -> Prop) :
  (forall s i, Inv s -> let '(s', o) := step s i in Inv s' /\ Forall Out o) ->
  forall es s, Inv s -> Inv (fst (run s es)) /\ Forall Out (snd (run s es)).
Proof.
  intros Hstep es. induction es as [|i es IH]; intros s Hs; simpl; [done |].
  specialize (Hstep s i Hs). destruct (step s i) as [s1 o1].
  destruct Hstep as [Hs1 Ho1]. specialize (IH s1 Hs1).
  destruct (run s1 es) as [s2 o2]; simpl in *. destruct IH.
  split; [done | by apply Forall_app].
Qed.

(** The same for the sequences whose steps all satisfy [Adm]. *)
Lemma run_invariant_on (Adm : I -> Prop) (Inv : S -> Prop) (Out : O -> Prop) :
  (forall s i, Adm i -> Inv s -> let '(s', o) := step s i in Inv s' /\ Forall Out o) ->
  forall es s, Forall Adm es -> Inv s -> Inv (fst (run s es)) /\ Forall Out (snd (run s es)).
Proof.
  intros Hstep es s Hadm. revert s. induction Hadm as [|i es Hi _ IH]; intros s Hs; simpl; [done |].
  specialize (Hstep s i Hi Hs). destruct (step s i) as [s1 o1].
  destruct Hstep as [Hs1 Ho1]. specialize (IH s1 Hs1).
  destruct (run s1 es) as [s2 o2]; simpl in *. destruct IH.
  split; [done | by apply Forall_app].
Qed.

(** An invariant of the state and of everything emitted so far. *)
Lemma run_log_invariant (Inv : S -> list O -> Prop) :
  (forall s log i, Inv s log -> let '(s', o) := step s i in Inv s' (log ++ o)) ->
  forall es s log, Inv s log -> Inv (run s es).1 (log ++ (run s es).2).
Proof.
  intros Hstep es. induction es as [|i es IH]; intros s log Hs; simpl; [by rewrite app_nil_r |].
  specialize (Hstep s log i Hs). destruct (step s i) as [s1 o1].
  specialize (IH s1 _ Hstep). destruct (run s1 es) as [s2 o2]; simpl in *. by rewrite app_assoc.
Qed.
End Runs.

(** ** Lists *)

Definition sumZ (l : list Z) : Z := foldr Z.add 0 l.

Lemma sumZ_cons (x : Z) (l : list Z) : sumZ (x :: l) = x + sumZ l.
Proof. done. Qed.

Lemma sumZ_app (l k : list Z) : sumZ (l ++ k) = sumZ l + sumZ k.
Proof. induction l as [|x l IH]; simpl; [done |]. rewrite IH. lia. Qed.

Lemma sumZ_nonneg (l : list Z) : Forall (fun x => 0 <= x) l -> 0 <= sumZ l.
Proof. induction 1; simpl; lia. Qed.

Lemma sumZ_perm (l k : list Z) : l ≡ₚ k -> sumZ l = sumZ k.
Proof. induction 1; simpl; lia. Qed.

Lemma Forall_elem {A : Type} (P : A -> Prop) (l : list A) (x : A) :
  Forall P l -> x ∈ l -> P x.
Proof. rewrite Forall_forall. auto. Qed.

(** In a sorted list an earlier element is related to every later one. *)
Lemma StronglySorted_lookup {A : Type} (R : A -> A -> Prop) (l : list A) (i j : nat) (x y : A) :
  StronglySorted R l -> l !! i = Some x -> l !! j = Some y -> (i < j)%nat -> R x y.
Proof.
  intros Hs. revert i j. induction Hs as [|a l Hs IH Hf]; intros i j; [done |].
  destruct i as [|i], j as [|j]; simpl; intros Hi Hj Hij; simplify_eq; try lia.
  - exact (Forall_elem _ _ _ Hf (list_elem_of_lookup_2 _ _ _ Hj)).
  - eapply IH; eauto. lia.
Qed.

Lemma Forall_take {A : Type} (P : A -> Prop) (n : nat) (l : list A) :
  Forall P l -> Forall P (take n l).
Proof. revert n. induction l; intros [|n]; inversion 1; constructor; auto. Qed.

Lemma filter_keep_all {A : Type} (P : A -> Prop) `{!forall x, Decision (P x)} (l : list A) :
  Forall P l -> filter P l = l.
Proof. induction 1; [done |]. rewrite filter_cons_True by done. by f_equal. Qed.

Lemma filter_keep_none {A : Type} (P : A -> Prop) `{!forall x, Decision (P x)} (l : list A) :
  Forall (fun x => ~ P x) l -> filter P l = [].
Proof. induction 1; [done |]. by rewrite filter_cons_False. Qed.

Lemma Forall_filter_sub {A : Type} (P Q : A -> Prop) `{!forall x, Decision (P x)} (l : list A) :
  Forall Q l -> Forall Q (filter P l).
Proof.
  rewrite !Forall_forall. intros HQ x Hx. apply HQ. by apply list_elem_of_filter in Hx as [].
Qed.

(** Two filters that agree on the elements of a list. *)
Lemma filter_ext_on {A : Type} (P Q : A -> Prop)
    `{!forall x, Decision (P x)} `{!forall x, Decision (Q x)} (l : list A) :
  Forall (fun x => P x <-> Q x) l -> filter P l = filter Q l.
Proof.
  induction 1 as [|x l HPQ _ IH]; [done |]. rewrite !filter_cons.
  destruct (decide (P x)), (decide (Q x)); rewrite ?IH; tauto.
Qed.

(** A filter and its complement split the length. *)
Lemma length_filter_split {A : Type} (P Q : A -> Prop)
    `{!forall x, Decision (P x)} `{!forall x, Decision (Q x)} (l : list A) :
  (forall x, P x <-> ~ Q x) ->
  (length (filter P l) + length (filter Q l) = length l)%nat.
Proof.
  intros HPQ. induction l as [|x l IH]; [done |]. rewrite !filter_cons.
  destruct (decide (P x)) as [HP|HP], (decide (Q x)) as [HQ|HQ]; simpl; try lia; exfalso.
  - by apply HPQ in HP.
  - by apply HP, HPQ.
Qed.

#[export] Hint Resolve Forall_take Forall_filter_sub sumZ_nonneg : vc.
