(* ===== verification/Floats.v ===== *)
(** * IEEE 754 arithmetic of the source

    [f64] and [f32] are the executable binary floats of the Standard Library's
    [SpecFloat] (a sign, a mantissa and an exponent, with the zeros, the
    infinities and one NaN), at the two formats of Rust. The operations round
    to nearest, ties to even, as the hardware does; the casts truncate and
    saturate, as [as] does. *)
From Stdlib Require Import SpecFloat.
From S2P Require Import Prelude.

Abbreviation float := spec_float.

Module F64.

Definition prec : Z := 53.
Definition emax : Z := 1024.

Definition add (x y : float) : float := SFadd prec emax x y.
Definition sub (x y : float) : float := SFsub prec emax x y.
Definition mul (x y : float) : float := SFmul prec emax x y.
Definition div (x y : float) : float := SFdiv prec emax x y.

(** [n as f64]: the nearest float to an integer. *)
Definition of_Z (n : Z) : float := binary_normalize prec emax n 0 false.

(** A decimal literal: the quotient of two exactly represented integers is
    correctly rounded, hence the nearest float to the literal. *)
Definition lit (n d : Z) : float := div (of_Z n) (of_Z d).

(** [x as f64] of an [f32]: exact, renormalized. *)
Definition of_f32 (x : float) : float :=
  match x with
  | S754_finite s m e => binary_normalize prec emax (if s then Z.neg m else Z.pos m) e s
  | _ => x
  end.

End F64.

Module F32.

Definition prec : Z := 24.
Definition emax : Z := 128.

Definition add (x y : float) : float := SFadd prec emax x y.
Definition sub (x y : float) : float := SFsub prec emax x y.
Definition mul (x y : float) : float := SFmul prec emax x y.
Definition div (x y : float) : float := SFdiv prec emax x y.
Definition of_Z (n : Z) : float := binary_normalize prec emax n 0 false.
Definition lit (n d : Z) : float := div (of_Z n) (of_Z d).

(** [f32::sqrt]. *)
Definition sqrt (x : float) : float := SFsqrt prec emax x.

(** [x as f32] of an [f64]: rounded. *)
Definition of_f64 (x : float) : float :=
  match x with
  | S754_finite s m e => binary_normalize prec emax (if s then Z.neg m else Z.pos m) e s
  | _ => x
  end.

End F32.

(** ** Operations that do not depend on the format *)

Definition is_nan (x : float) : bool :=
  match x with S754_nan => true | _ => false end.

Definition flt (x y : float) : bool := SFltb x y.
Definition fle (x y : float) : bool := SFleb x y.

Definition fabs (x : float) : float := SFabs x.

(** [f64::max]: the other argument when one is NaN. *)
Definition fmax (x y : float) : float :=
  if is_nan x then y else if is_nan y then x else if flt x y then y else x.

Definition fmin (x y : float) : float :=
  if is_nan x then y else if is_nan y then x else if flt y x then y else x.

(** [f64::clamp]. *)
Definition fclamp (x lo hi : float) : float :=
  if flt x lo then lo else if flt hi x then hi else x.

(** The integer part, towards zero, of a finite float. *)
Definition ftrunc (x : float) : Z :=
  match x with
  | S754_finite s m e =>
      let n := if 0 <=? e then Z.pos m * 2 ^ e else Z.pos m / 2 ^ (- e) in
      if s then - n else n
  | _ => 0
  end.

(** The nearest integer, halves away from zero ([f64::round]). *)
Definition fround (x : float) : Z :=
  match x with
  | S754_finite s m e =>
      let n := if 0 <=? e then Z.pos m * 2 ^ e
               else (Z.pos m + 2 ^ (- e - 1)) / 2 ^ (- e) in
      if s then - n else n
  | _ => 0
  end.

(** [x as uN] and [x as iN]: truncate, saturate at the bounds, NaN to 0. *)
Definition clampZ (lo hi n : Z) : Z := Z.max lo (Z.min hi n).

Definition cast_Z (lo hi : Z) (x : float) : Z :=
  match x with
  | S754_nan => 0
  | S754_infinity s => if s then lo else hi
  | _ => clampZ lo hi (ftrunc x)
  end.

Definition as_u (w : Z) (x : float) : Z := cast_Z 0 (u_max w) x.

Definition as_i (w : Z) (x : float) : Z := cast_Z (- 2 ^ (w - 1)) (2 ^ (w - 1) - 1) x.

(** [x.round() as iN]. *)
Definition round_as_i (w : Z) (x : float) : Z :=
  match x with
  | S754_nan => 0
  | S754_infinity s => if s then - 2 ^ (w - 1) else 2 ^ (w - 1) - 1
  | _ => clampZ (- 2 ^ (w - 1)) (2 ^ (w - 1) - 1) (fround x)
  end.

(** [x.ceil() as uN]. *)
Definition fceil (x : float) : Z :=
  match x with
  | S754_finite s m e =>
      let n := if s then Z.neg m else Z.pos m in
      if 0 <=? e then n * 2 ^ e else - (- n / 2 ^ (- e))
  | _ => 0
  end.

Definition ceil_as_u (w : Z) (x : float) : Z :=
  match x with
  | S754_nan => 0
  | S754_infinity s => if s then 0 else u_max w
  | _ => clampZ 0 (u_max w) (fceil x)
  end.

(** [f32::from_le_bytes] of the four bytes, as one number. *)
Definition f32_of_bits (bits : Z) : float :=
  let s := Z.testbit bits 31 in
  let e := Z.land (Z.shiftr bits 23) 255 in
  let m := Z.land bits (2 ^ 23 - 1) in
  if e =? 255 then (if m =? 0 then S754_infinity s else S754_nan)
  else if e =? 0 then (match m with Z.pos p => S754_finite s p (-149) | _ => S754_zero s end)
  else match m + 2 ^ 23 with Z.pos p => S754_finite s p (e - 150) | _ => S754_nan end.

(** ** Facts used by the components *)

Lemma SFcompare_refl (x : float) : is_nan x = false -> SFcompare x x = Some Eq.
Proof.
  destruct x as [b|b| |b m e]; simpl; try done; try (by destruct b).
  intros _. rewrite Z.compare_refl.
  change (Pos.compare_cont Eq m m) with (Pos.compare m m). rewrite Pos.compare_refl.
  by destruct b.
Qed.

Lemma flt_nan (x y : float) : is_nan x || is_nan y = true -> flt x y = false.
Proof. unfold flt, SFltb. destruct x, y; simpl; done. Qed.

(** Two floats that are not NaN are comparable. *)
Lemma fle_total (x y : float) :
  is_nan x = false -> is_nan y = false -> flt x y = false -> fle y x = true.
Proof.
  unfold flt, fle, SFltb, SFleb.
  destruct x as [b|b| |b m e], y as [b'|b'| |b' m' e']; simpl; try done;
    try (by destruct b); try (by destruct b'); try (by destruct b, b').
  intros _ _. rewrite (Z.compare_antisym e e').
  change (Pos.compare_cont Eq m' m) with (Pos.compare m' m).
  change (Pos.compare_cont Eq m m') with (Pos.compare m m').
  rewrite (Pos.compare_antisym m m').
  destruct b, b', (e ?= e'), (Pos.compare m m'); simpl; done.
Qed.

Lemma flt_fle (x y : float) : flt x y = true -> fle x y = true.
Proof. unfold flt, fle, SFltb, SFleb. by destruct (SFcompare x y) as [[]|]. Qed.

Lemma fle_refl (x : float) : is_nan x = false -> fle x x = true.
Proof. intros H. unfold fle, SFleb. by rewrite SFcompare_refl. Qed.

(** [max] with a number is at least that number, whatever the other side. *)
Lemma fmax_ge_r (x y : float) : is_nan y = false -> fle y (fmax x y) = true.
Proof.
  intros Hy. unfold fmax. rewrite Hy.
  destruct (is_nan x) eqn:Hx; [by apply fle_refl |].
  destruct (flt x y) eqn:E; [by apply fle_refl | by apply fle_total].
Qed.

Lemma fmax_not_nan (x y : float) : is_nan y = false -> is_nan (fmax x y) = false.
Proof. intros Hy. unfold fmax. rewrite Hy. repeat break_if; congruence. Qed.

(** [clamp] of a number lies between its bounds. *)
Lemma fclamp_bounds (x lo hi : float) :
  is_nan x = false -> is_nan lo = false -> is_nan hi = false -> fle lo hi = true ->
  fle lo (fclamp x lo hi) = true /\ fle (fclamp x lo hi) hi = true.
Proof.
  intros Hx Hlo Hhi Hb. unfold fclamp.
  destruct (flt x lo) eqn:E1; [split; auto using fle_refl |].
  destruct (flt hi x) eqn:E2; split; auto using fle_refl, fle_total.
Qed.

Lemma cast_Z_range (lo hi : Z) (x : float) :
  lo <= 0 <= hi -> lo <= cast_Z lo hi x <= hi.
Proof. intros H. unfold cast_Z, clampZ. destruct x as [|[]| |]; lia. Qed.

Lemma as_u_range (w : Z) (x : float) : 0 <= w -> u_in w (as_u w x).
Proof.
  intros Hw. unfold as_u, u_in, u_max.
  assert (0 < 2 ^ w) by (apply Z.pow_pos_nonneg; lia).
  pose proof (cast_Z_range 0 (2 ^ w - 1) x). lia.
Qed.

Lemma shr_1_nonneg (r : shr_record) : 0 <= shr_m r -> 0 <= shr_m (shr_1 r).
Proof. destruct r as [[|[p|p|]|p] r' s]; simpl; lia. Qed.

Lemma iter_shr_nonneg (p : positive) (r : shr_record) :
  0 <= shr_m r -> 0 <= shr_m (SpecFloat.iter_pos shr_1 p r).
Proof.
  revert r. induction p as [p IH|p IH|]; intros r Hr; simpl; auto using shr_1_nonneg.
Qed.

Lemma shr_fexp_nonneg (prec emax m e : Z) (l : location) :
  0 <= m -> 0 <= shr_m (shr_fexp prec emax m e l).1.
Proof.
  intros Hm. unfold shr_fexp, shr.
  assert (0 <= shr_m (shr_record_of_loc m l)) by (by destruct l as [|[]]).
  destruct (_ - e); simpl; auto using iter_shr_nonneg.
Qed.

Lemma round_nearest_even_nonneg (m : Z) (l : location) : 0 <= m -> 0 <= round_nearest_even m l.
Proof. intros Hm. destruct l as [|[]]; simpl; try destruct (Z.even m); lia. Qed.

(** Rounding keeps the sign and makes no NaN. *)
Lemma binary_round_pos (prec emax : Z) (mx : positive) (ex : Z) :
  is_nan (binary_round prec emax false mx ex) = false /\
  fle (S754_zero false) (binary_round prec emax false mx ex) = true.
Proof.
  unfold binary_round, binary_round_aux. destruct (shl_align _ _ _) as [mz ez].
  pose proof (shr_fexp_nonneg prec emax (Z.pos mz) ez loc_Exact ltac:(lia)) as H1.
  destruct (shr_fexp prec emax (Z.pos mz) ez loc_Exact) as [r e']. simpl in H1.
  pose proof (shr_fexp_nonneg prec emax _ e' loc_Exact
    (round_nearest_even_nonneg _ (loc_of_shr_record r) H1)) as H2.
  destruct (shr_fexp _ _ _ e' _) as [r'' e'']. simpl in H2.
  destruct (shr_m r''); [done | by destruct (e'' <=? emax - prec) | lia].
Qed.

(** An unsigned integer becomes a float that is a number and not negative. *)
Lemma of_Z_nonneg (n : Z) : 0 <= n ->
  is_nan (F64.of_Z n) = false /\ fle (F64.of_Z 0) (F64.of_Z n) = true.
Proof.
  intros Hn. destruct n as [|p|p]; [done | | lia].
  exact (binary_round_pos F64.prec F64.emax p 0).
Qed.

(** The order of the floats that are not NaN, as a lexicographic order: the class (a
    sign, zero or an infinity), then the exponent, then the mantissa. *)
Definition fkey (x : float) : Z * Z * Z :=
  match x with
  | S754_infinity s => (if s then -2 else 2, 0, 0)
  | S754_finite s m e => if s then (-1, - e, Z.neg m) else (1, e, Z.pos m)
  | _ => (0, 0, 0)
  end.

Definition key_le (a b : Z * Z * Z) : Prop :=
  let '(a1, a2, a3) := a in
  let '(b1, b2, b3) := b in
  a1 < b1 \/ (a1 = b1 /\ (a2 < b2 \/ (a2 = b2 /\ a3 <= b3))).

Lemma fle_key (x y : float) :
  fle x y = true <-> is_nan x = false /\ is_nan y = false /\ key_le (fkey x) (fkey y).
Proof.
  unfold fle, SFleb.
  destruct x as [b|b| |b m e], y as [b'|b'| |b' m' e']; simpl;
    try destruct b; try destruct b'; simpl; try (split; [done | lia]); try (split; [lia | done]);
    try (split; [intros _; split_and!; done || lia | done]).
  all: change (Pos.compare_cont Eq m m') with (Pos.compare m m').
  all: destruct (Z.compare_spec e e'), (Pos.compare_spec m m'); subst; simpl;
    (split; [intros H1; split_and!; done || lia | intros (_ & _ & ?); done || lia]).
Qed.

Lemma key_le_trans (a b c : Z * Z * Z) : key_le a b -> key_le b c -> key_le a c.
Proof. destruct a as [[]], b as [[]], c as [[]]. simpl. lia. Qed.

Lemma fle_trans (x y z : float) : fle x y = true -> fle y z = true -> fle x z = true.
Proof.
  rewrite !fle_key. intros (Hx & Hy & H1) (_ & Hz & H2). split_and!; [done | done |].
  by eapply key_le_trans.
Qed.

#[export] Hint Resolve as_u_range fle_refl : vc.
