(* ===== verification/BTree.v ===== *)
(** * [BTreeMap] with integer keys

    The jitter buffer stores its frames in a [BTreeMap<u64, _>] and relies on
    iteration in key order, so the model is an association list in strictly
    increasing key order. The operations are the ones the code calls; the
    lemmas are the contract of the Rust container. *)
From S2P Require Import Prelude.

Section BTree.

Context {V : Type}.
Implicit Types (m : list (Z * V)) (k : Z) (v : V).

Fixpoint bt_get (k : Z) (m : list (Z * V)) : option V :=
  match m with
  | [] => None
  | (k', v) :: m' => if k =? k' then Some v else bt_get k m'
  end.

Definition bt_contains (k : Z) (m : list (Z * V)) : bool :=
  match bt_get k m with Some _ => true | None => false end.

Fixpoint bt_insert (k : Z) (v : V) (m : list (Z * V)) : list (Z * V) :=
  match m with
  | [] => [(k, v)]
  | (k', v') :: m' =>
      if k <? k' then (k, v) :: (k', v') :: m'
      else if k =? k' then (k, v) :: m'
      else (k', v') :: bt_insert k v m'
  end.

Fixpoint bt_remove (k : Z) (m : list (Z * V)) : list (Z * V) :=
  match m with
  | [] => []
  | (k', v') :: m' => if k =? k' then m' else (k', v') :: bt_remove k m'
  end.

(** [iter().find(p)]: the entry of least key that satisfies [p]. *)
Fixpoint bt_find (p : Z -> V -> bool) (m : list (Z * V)) : option (Z * V) :=
  match m with
  | [] => None
  | (k, v) :: m' => if p k v then Some (k, v) else bt_find p m'
  end.

Definition bt_keys (m : list (Z * V)) : list Z := m.*1.

(** Strictly increasing keys: the representation invariant. *)
Definition bt_sorted (m : list (Z * V)) : Prop := StronglySorted Z.lt (bt_keys m).

Lemma bt_sorted_cons k v m :
  bt_sorted ((k, v) :: m) <-> bt_sorted m /\ Forall (fun e => k < e.1) m.
Proof.
  unfold bt_sorted, bt_keys. simpl. split.
  - intros H. apply StronglySorted_inv in H as [H1 H2]. by rewrite Forall_fmap in H2.
  - intros [H1 H2]. constructor; [done |]. by rewrite Forall_fmap.
Qed.

Lemma bt_get_Some_elem k v m : bt_get k m = Some v -> (k, v) ∈ m.
Proof.
  induction m as [|[k' v'] m IH]; simpl; [done |].
  destruct (Z.eqb_spec k k') as [->|]; intros; simplify_eq; set_solver.
Qed.

Lemma bt_get_lt k m : Forall (fun e => k < e.1) m -> bt_get k m = None.
Proof.
  induction 1 as [|[k' v'] m H _ IH]; simpl in *; [done |].
  destruct (Z.eqb_spec k k'); [lia | done].
Qed.

Lemma bt_elem_get k v m : bt_sorted m -> (k, v) ∈ m -> bt_get k m = Some v.
Proof.
  induction m as [|[k' v'] m IH]; [set_solver |].
  rewrite bt_sorted_cons, elem_of_cons. intros [Hs Hf] [?|Hin]; simplify_eq/=.
  - by rewrite Z.eqb_refl.
  - rewrite Forall_forall in Hf. specialize (Hf _ Hin); simpl in Hf.
    destruct (Z.eqb_spec k k'); [lia | auto].
Qed.

Lemma bt_insert_elem k v m e :
  e ∈ bt_insert k v m -> e = (k, v) \/ e ∈ m.
Proof.
  induction m as [|[k' v'] m IH]; simpl; [set_solver |].
  destruct (k <? k'), (k =? k'); rewrite ?elem_of_cons; set_solver.
Qed.

Lemma bt_insert_sorted k v m : bt_sorted m -> bt_sorted (bt_insert k v m).
Proof.
  induction m as [|[k' v'] m IH]; simpl; intros Hs.
  - apply bt_sorted_cons. split; [constructor | constructor].
  - pose proof Hs as Hs0. apply bt_sorted_cons in Hs as [Hs Hf].
    destruct (Z.ltb_spec k k'); [|destruct (Z.eqb_spec k k') as [->|]].
    + apply bt_sorted_cons. split; [done |]. constructor; [done |].
      eapply Forall_impl; [exact Hf |]. simpl; intros; lia.
    + by apply bt_sorted_cons.
    + apply bt_sorted_cons. split; [auto |]. apply Forall_forall.
      intros e [->|He]%bt_insert_elem; simpl; [lia |]. by eapply Forall_forall in Hf.
Qed.

Lemma bt_get_insert_eq k v m : bt_sorted m -> bt_get k (bt_insert k v m) = Some v.
Proof.
  induction m as [|[k' v'] m IH]; simpl; [by rewrite Z.eqb_refl |].
  rewrite bt_sorted_cons. intros [Hs Hf].
  destruct (Z.ltb_spec k k'); simpl; [by rewrite Z.eqb_refl |].
  destruct (Z.eqb_spec k k') as [->|]; simpl; [by rewrite Z.eqb_refl |].
  destruct (Z.eqb_spec k k'); [done | auto].
Qed.

Lemma bt_get_insert_ne k k0 v m : k0 <> k -> bt_get k0 (bt_insert k v m) = bt_get k0 m.
Proof.
  intros Hne. induction m as [|[k' v'] m IH]; simpl.
  - by destruct (Z.eqb_spec k0 k).
  - destruct (Z.ltb_spec k k'); simpl; [by destruct (Z.eqb_spec k0 k) |].
    destruct (Z.eqb_spec k k') as [->|]; simpl; [by destruct (Z.eqb_spec k0 k') |].
    by rewrite IH.
Qed.

Lemma bt_remove_subseteq k m e : e ∈ bt_remove k m -> e ∈ m.
Proof.
  induction m as [|[k' v'] m IH]; simpl; [done |].
  destruct (k =? k'); rewrite ?elem_of_cons; set_solver.
Qed.

Lemma bt_remove_sorted k m : bt_sorted m -> bt_sorted (bt_remove k m).
Proof.
  induction m as [|[k' v'] m IH]; simpl; [done |].
  rewrite bt_sorted_cons. intros [Hs Hf].
  destruct (Z.eqb_spec k k'); [done |]. apply bt_sorted_cons. split; [auto |].
  rewrite Forall_forall in Hf |- *. eauto using bt_remove_subseteq.
Qed.

(** Removing a key of the map removes its entry and no other. *)
Lemma bt_remove_filter k m :
  bt_sorted m -> bt_remove k m = filter (fun e => e.1 <> k) m.
Proof.
  induction m as [|[k' v'] m IH]; simpl; [done |].
  rewrite bt_sorted_cons. intros [Hs Hf]. rewrite filter_cons; simpl.
  destruct (Z.eqb_spec k k') as [->|]; case_decide; try done.
  - symmetry. apply filter_keep_all. eapply Forall_impl; [exact Hf |]. simpl; lia.
  - by rewrite IH.
Qed.

Lemma bt_remove_length k v m :
  bt_get k m = Some v -> length m = S (length (bt_remove k m)).
Proof.
  induction m as [|[k' v'] m IH]; simpl; [done |].
  destruct (Z.eqb_spec k k'); intros; simpl; [done |]. by rewrite <- IH.
Qed.

Lemma bt_insert_length k v m :
  (length (bt_insert k v m) <= S (length m))%nat.
Proof. induction m as [|[k' v'] m IH]; simpl; repeat case_match; simpl; lia. Qed.

(** [find] returns the least entry that satisfies the predicate. *)
Lemma bt_find_Some (p : Z -> V -> bool) m k v :
  bt_sorted m -> bt_find p m = Some (k, v) ->
  bt_get k m = Some v /\ p k v = true /\
  forall k' v', bt_get k' m = Some v' -> k' < k -> p k' v' = false.
Proof.
  induction m as [|[k0 v0] m IH]; simpl; [done |].
  rewrite bt_sorted_cons. intros [Hs Hf].
  destruct (p k0 v0) eqn:Hp; intros Hfind; simplify_eq.
  - rewrite Z.eqb_refl. split_and!; [done | done |]. intros k' v' Hg Hlt.
    destruct (Z.eqb_spec k' k); [lia |]. apply bt_get_Some_elem in Hg.
    eapply Forall_forall in Hf; [|exact Hg]; simpl in *; lia.
  - destruct (IH Hs Hfind) as (Hg & Hpk & Hmin).
    pose proof Hg as Hin. apply bt_get_Some_elem in Hin.
    eapply Forall_forall in Hf; [|exact Hin]; simpl in Hf.
    destruct (Z.eqb_spec k k0); [lia |]. split_and!; [done | done |].
    intros k' v' Hg' Hlt. destruct (Z.eqb_spec k' k0) as [->|]; simplify_eq; eauto.
Qed.

Lemma bt_find_None (p : Z -> V -> bool) m :
  bt_find p m = None -> forall k v, (k, v) ∈ m -> p k v = false.
Proof.
  induction m as [|[k0 v0] m IH]; simpl; [set_solver |].
  destruct (p k0 v0) eqn:Hp; [done |].
  intros Hn k v [?|?]%elem_of_cons; simplify_eq; eauto.
Qed.

(** Removing every key below a bound, one by one, keeps exactly the others. *)
Lemma bt_remove_below (n : Z) (m : list (Z * V)) :
  bt_sorted m ->
  foldl (fun acc k => bt_remove k acc) m (filter (fun k => k < n) (bt_keys m)) =
  filter (fun e => n <= e.1) m.
Proof.
  induction m as [|[k v] m IH]; simpl; [done |].
  rewrite bt_sorted_cons. intros [Hs Hf]. rewrite !filter_cons; simpl.
  destruct (decide (k < n)); case_decide; try lia; simpl.
  - rewrite Z.eqb_refl. by apply IH.
  - assert (filter (fun k0 => k0 < n) (bt_keys m) = []) as ->.
    { apply filter_keep_none. unfold bt_keys. rewrite Forall_fmap.
      eapply Forall_impl; [exact Hf |]. simpl; lia. }
    simpl. f_equal. symmetry. apply filter_keep_all.
    eapply Forall_impl; [exact Hf |]. simpl; lia.
Qed.

Lemma bt_sorted_filter (P : Z * V -> Prop) `{!forall e, Decision (P e)} m :
  bt_sorted m -> bt_sorted (filter P m).
Proof.
  induction m as [|[k v] m IH]; [done |].
  rewrite bt_sorted_cons. intros [Hs Hf]. rewrite filter_cons.
  case_decide; [|auto]. apply bt_sorted_cons. split; [auto |].
  rewrite Forall_forall in Hf |- *. intros e [? ?]%list_elem_of_filter. auto.
Qed.

End BTree.

#[export] Hint Resolve bt_insert_sorted bt_remove_sorted bt_sorted_filter : vc.
