(* ===== verification/JitterBuffer.v ===== *)
(** * The video jitter buffer (videocall-codecs)

    [frame.rs], [jitter_estimator.rs] and [jitter_buffer.rs]: the frames of a
    stream are stored by sequence number, held for an adaptive playout delay
    and handed to the decoder in decodable order. The decoder is the trait
    object the buffer owns; a call of its [decode] is an element of the list of
    frames an operation returns. *)
From S2P Require Import Prelude Floats BTree.

(** ** frame.rs *)

Inductive FrameType : Type := KeyFrame | DeltaFrame.

#[export] Instance FrameType_eq_dec : EqDecision FrameType.
Proof. solve_decision. Defined.

Inductive FrameCodec : Type := Unspecified | Vp8 | Vp9Profile0Level10Bit8.

Definition as_webcodecs_str (c : FrameCodec) : option string :=
  match c with
  | Unspecified => None
  | Vp8 => Some "vp8"%string
  | Vp9Profile0Level10Bit8 => Some "vp09.00.10.08"%string
  end.

Definition is_known (c : FrameCodec) : bool :=
  match c with Unspecified => false | _ => true end.

Record VideoFrame : Type := mkVideoFrame {
  vf_sequence_number : Z;
  vf_frame_type : FrameType;
  vf_codec : FrameCodec;
  vf_data : list Z;
  vf_timestamp : float;
}.

Record FrameBuffer : Type := mkFrameBuffer {
  fb_frame : VideoFrame;
  fb_arrival_time_ms : Z;
}.

Definition fb_new (frame : VideoFrame) (arrival_time_ms : Z) : FrameBuffer :=
  {| fb_frame := frame; fb_arrival_time_ms := arrival_time_ms |}.

Definition fb_sequence_number (fb : FrameBuffer) : Z := vf_sequence_number (fb_frame fb).

Definition is_keyframe (fb : FrameBuffer) : bool :=
  bool_decide (vf_frame_type (fb_frame fb) = KeyFrame).

(** ** jitter_estimator.rs *)

Definition VIDEO_FRAME_RATE : Z := 30.
Definition FRAME_PERIOD_MS : float := F64.div (F64.of_Z 1000) (F64.of_Z VIDEO_FRAME_RATE).

Record JitterEstimator : Type := mkJitterEstimator {
  je_jitter : float;
  je_last_arrival_time_ms : Z;
  je_last_sequence_number : Z;
  je_is_first_frame : bool;
}.

Definition je_new : JitterEstimator :=
  {| je_jitter := F64.of_Z 0; je_last_arrival_time_ms := 0;
     je_last_sequence_number := 0; je_is_first_frame := true |}.

Definition update_estimate (je : JitterEstimator) (sequence_number arrival_time_ms : Z)
    : JitterEstimator :=
  if je_is_first_frame je then
    {| je_jitter := je_jitter je; je_last_arrival_time_ms := arrival_time_ms;
       je_last_sequence_number := sequence_number; je_is_first_frame := false |}
  else if je_last_sequence_number je <? sequence_number then
    let arrival_diff := arrival_time_ms -u128 je_last_arrival_time_ms je in
    let seq_diff := sequence_number -u64 je_last_sequence_number je in
    let timestamp_diff := F64.mul (F64.of_Z seq_diff) FRAME_PERIOD_MS in
    let transit_diff := F64.sub (F64.of_Z arrival_diff) timestamp_diff in
    {| je_jitter := F64.add (je_jitter je)
         (F64.div (F64.sub (fabs transit_diff) (je_jitter je)) (F64.of_Z 16));
       je_last_arrival_time_ms := arrival_time_ms;
       je_last_sequence_number := sequence_number;
       je_is_first_frame := false |}
  else je.

Definition je_get_jitter_estimate_ms (je : JitterEstimator) : float := je_jitter je.

(** ** jitter_buffer.rs: constants and state *)

Definition MIN_PLAYOUT_DELAY_MS : float := F64.of_Z 10.
Definition MAX_PLAYOUT_DELAY_MS : float := F64.of_Z 500.
Definition JITTER_MULTIPLIER : float := F64.of_Z 3.
Definition DELAY_SMOOTHING_FACTOR : float := F64.lit 99 100.
Definition MAX_BUFFER_SIZE : Z := 200.
Definition MAX_CONSECUTIVE_OLD_FRAMES : Z := 300.
Definition STREAM_RESTART_BACKTRACK_THRESHOLD : Z := 30.

Record JitterBuffer : Type := mkJitterBuffer {
  buffered_frames : list (Z * FrameBuffer);
  last_decoded_sequence_number : option Z;
  jitter_estimator : JitterEstimator;
  target_playout_delay_ms : float;
  dropped_frames_count : Z;
  num_consecutive_old_frames : Z;
}.

Definition jb_new : JitterBuffer :=
  {| buffered_frames := []; last_decoded_sequence_number := None;
     jitter_estimator := je_new; target_playout_delay_ms := MIN_PLAYOUT_DELAY_MS;
     dropped_frames_count := 0; num_consecutive_old_frames := 0 |}.

Definition buffered_frames_len (jb : JitterBuffer) : Z := Z.of_nat (length (buffered_frames jb)).

#[export] Instance eta_JitterBuffer : Eta JitterBuffer := fun r =>
  mkJitterBuffer (buffered_frames r) (last_decoded_sequence_number r) (jitter_estimator r)
    (target_playout_delay_ms r) (dropped_frames_count r) (num_consecutive_old_frames r).

(** Assignments to the fields of the buffer. *)
Definition set_buffered (m : list (Z * FrameBuffer)) (jb : JitterBuffer) : JitterBuffer :=
  jb <| buffered_frames := m |>.
Definition set_last_decoded (o : option Z) (jb : JitterBuffer) : JitterBuffer :=
  jb <| last_decoded_sequence_number := o |>.
Definition set_estimator (je : JitterEstimator) (jb : JitterBuffer) : JitterBuffer :=
  jb <| jitter_estimator := je |>.
Definition set_target (d : float) (jb : JitterBuffer) : JitterBuffer :=
  jb <| target_playout_delay_ms := d |>.
Definition set_dropped (n : Z) (jb : JitterBuffer) : JitterBuffer :=
  jb <| dropped_frames_count := n |>.
Definition set_num_old (n : Z) (jb : JitterBuffer) : JitterBuffer :=
  jb <| num_consecutive_old_frames := n |>.

(** ** jitter_buffer.rs: operations *)

Definition drop_frames_before (sequence_number : Z) (jb : JitterBuffer) : JitterBuffer :=
  let keys_to_drop := filter (fun k => k < sequence_number) (bt_keys (buffered_frames jb)) in
  set_buffered (foldl (fun acc k => bt_remove k acc) (buffered_frames jb) keys_to_drop)
    (set_dropped (dropped_frames_count jb +u64 Z.of_nat (length keys_to_drop)) jb).

Definition drop_all_frames (jb : JitterBuffer) : JitterBuffer :=
  let num_dropped := buffered_frames_len jb in
  set_dropped (dropped_frames_count jb +u64 num_dropped) (set_buffered [] jb).

Definition flush (jb : JitterBuffer) : JitterBuffer :=
  set_estimator je_new (set_num_old 0 (set_last_decoded None (drop_all_frames jb))).

Definition update_target_playout_delay (jb : JitterBuffer) : JitterBuffer :=
  let jitter_estimate := je_get_jitter_estimate_ms (jitter_estimator jb) in
  let raw_target := F64.mul jitter_estimate JITTER_MULTIPLIER in
  let clamped_target := fclamp raw_target MIN_PLAYOUT_DELAY_MS MAX_PLAYOUT_DELAY_MS in
  set_target
    (F64.add (F64.mul (target_playout_delay_ms jb) DELAY_SMOOTHING_FACTOR)
       (F64.mul clamped_target (F64.sub (F64.of_Z 1) DELAY_SMOOTHING_FACTOR))) jb.

(** The candidate the loop of [find_and_move_continuous_frames] looks for. *)
Definition next_decodable_key (jb : JitterBuffer) : option Z :=
  match last_decoded_sequence_number jb with
  | Some last_seq =>
      let next_continuous_seq := last_seq +u64 1 in
      if bt_contains next_continuous_seq (buffered_frames jb) then Some next_continuous_seq
      else fst <$> bt_find (fun s f => (next_continuous_seq <? s) && is_keyframe f)
                     (buffered_frames jb)
  | None => fst <$> bt_find (fun _ f => is_keyframe f) (buffered_frames jb)
  end.

Definition is_ready (current_time_ms : Z) (frame : FrameBuffer) (jb : JitterBuffer) : bool :=
  let time_in_buffer_ms := F64.of_Z (current_time_ms -u128 fb_arrival_time_ms frame) in
  fle (target_playout_delay_ms jb) time_in_buffer_ms.

(** One turn of the loop: the frame moved to the decoder, if one is. *)
Definition poll_turn (current_time_ms : Z) (jb : JitterBuffer)
    : option (JitterBuffer * FrameBuffer) :=
  match next_decodable_key jb with
  | None => None
  | Some key =>
      match bt_get key (buffered_frames jb) with
      | None => None
      | Some frame =>
          if is_ready current_time_ms frame jb then
            let jb1 := set_buffered (bt_remove key (buffered_frames jb)) jb in
            let is_first_frame :=
              match last_decoded_sequence_number jb1 with None => true | Some _ => false end in
            let is_gap_recovery :=
              match last_decoded_sequence_number jb1 with
              | Some last_seq => last_seq +u64 1 <? key
              | None => false
              end in
            let jb2 := if is_keyframe frame && (is_first_frame || is_gap_recovery)
                       then drop_frames_before key jb1 else jb1 in
            Some (set_last_decoded (Some key) jb2, frame)
          else None
      end
  end.

(** The loop, [None] when the fuel runs out (see [poll_loop_terminates]). *)
Fixpoint poll_loop (fuel : nat) (current_time_ms : Z) (jb : JitterBuffer)
    : option (JitterBuffer * list FrameBuffer) :=
  match fuel with
  | O => None
  | S fuel' =>
      match poll_turn current_time_ms jb with
      | None => Some (jb, [])
      | Some (jb', frame) =>
          match poll_loop fuel' current_time_ms jb' with
          | None => None
          | Some (jb'', frames) => Some (jb'', frame :: frames)
          end
      end
  end.

(** Every turn removes a frame, so one turn more than the frames is enough. *)
Definition poll_fuel (jb : JitterBuffer) : nat := S (length (buffered_frames jb)).

Definition find_and_move_continuous_frames (current_time_ms : Z) (jb : JitterBuffer)
    : JitterBuffer * list FrameBuffer :=
  match poll_loop (poll_fuel jb) current_time_ms jb with
  | Some r => r
  | None => (jb, [])
  end.

(** The test for a frame at or behind the last decoded one, and its effect. *)
Definition handle_old_frame (frame : VideoFrame) (last_decoded : Z) (jb : JitterBuffer)
    : JitterBuffer :=
  let seq := vf_sequence_number frame in
  if bool_decide (vf_frame_type frame = KeyFrame)
     && (STREAM_RESTART_BACKTRACK_THRESHOLD <? sat_sub last_decoded seq)
  then flush jb
  else
    let jb1 := set_num_old (num_consecutive_old_frames jb +u64 1) jb in
    if MAX_CONSECUTIVE_OLD_FRAMES <? num_consecutive_old_frames jb1 then flush jb1 else jb1.

(** What follows the checks of [insert_frame]. *)
Definition admit_frame (frame : VideoFrame) (arrival_time_ms : Z) (jb : JitterBuffer)
    : JitterBuffer * list FrameBuffer :=
  let seq := vf_sequence_number frame in
  let jb1 := set_estimator (update_estimate (jitter_estimator jb) seq arrival_time_ms) jb in
  let jb2 := update_target_playout_delay jb1 in
  let fb := fb_new frame arrival_time_ms in
  let jb3 := set_buffered (bt_insert seq fb (buffered_frames jb2)) jb2 in
  find_and_move_continuous_frames arrival_time_ms jb3.

Definition insert_frame (frame : VideoFrame) (arrival_time_ms : Z) (jb : JitterBuffer)
    : JitterBuffer * list FrameBuffer :=
  let seq := vf_sequence_number frame in
  let too_old :=
    match last_decoded_sequence_number jb with
    | Some last_decoded => if seq <=? last_decoded then Some last_decoded else None
    | None => None
    end in
  match too_old with
  | Some last_decoded => (handle_old_frame frame last_decoded jb, [])
  | None =>
      let jb1 := set_num_old 0 jb in
      if MAX_BUFFER_SIZE <=? buffered_frames_len jb1 then
        if bool_decide (vf_frame_type frame = KeyFrame)
        then admit_frame frame arrival_time_ms (drop_all_frames jb1)
        else (jb1, [])
      else admit_frame frame arrival_time_ms jb1
  end.

Definition is_waiting_for_keyframe (jb : JitterBuffer) : bool :=
  match last_decoded_sequence_number jb with None => true | Some _ => false end.

Definition get_jitter_estimate_ms (jb : JitterBuffer) : float :=
  je_get_jitter_estimate_ms (jitter_estimator jb).
Definition get_target_playout_delay_ms (jb : JitterBuffer) : float := target_playout_delay_ms jb.
Definition get_dropped_frames_count (jb : JitterBuffer) : Z := dropped_frames_count jb.

(** The public operations, as labels of a run. *)
Inductive jb_op : Type :=
| OpInsert (frame : VideoFrame) (arrival_time_ms : Z)
| OpPoll (current_time_ms : Z)
| OpDropAll
| OpFlush.

Definition jb_step (jb : JitterBuffer) (op : jb_op) : JitterBuffer * list FrameBuffer :=
  match op with
  | OpInsert frame t => insert_frame frame t jb
  | OpPoll t => find_and_move_continuous_frames t jb
  | OpDropAll => (drop_all_frames jb, [])
  | OpFlush => (flush jb, [])
  end.

(** Operations the type [u64] of sequence numbers allows. *)
Definition jb_op_ok (op : jb_op) : Prop :=
  match op with OpInsert frame _ => u_in 64 (vf_sequence_number frame) | _ => True end.
