(* ===== verification/JitterBufferProps.v ===== *)
(** * Correctness of the video jitter buffer

    The representation invariant, the decoding order, the termination and the
    exhaustiveness of the polling loop, the accounting of dropped frames and
    the handling of old frames. *)
From S2P Require Import Prelude Floats BTree JitterBuffer.

(** The representation invariant: frames stored under their own sequence
    number, all ahead of the last decoded one, at most [MAX_BUFFER_SIZE]. *)
Record jb_wf (jb : JitterBuffer) : Prop := mk_jb_wf {
  wf_sorted : bt_sorted (buffered_frames jb);
  wf_keys : Forall (fun e => e.1 = fb_sequence_number e.2 /\ u_in 64 e.1) (buffered_frames jb);
  wf_ahead : forall l, last_decoded_sequence_number jb = Some l ->
    u_in 64 l /\ Forall (fun e => l < e.1) (buffered_frames jb);
  wf_size : buffered_frames_len jb <= MAX_BUFFER_SIZE;
  wf_old : 0 <= num_consecutive_old_frames jb <= MAX_CONSECUTIVE_OLD_FRAMES;
  wf_dropped : u_in 64 (dropped_frames_count jb);
}.

(** [decode_ok prev log]: every delta frame of [log] comes right after the
    frame that carries the preceding sequence number ([prev] being the one
    before the log). *)
Fixpoint decode_ok (prev : option Z) (log : list FrameBuffer) : Prop :=
  match log with
  | [] => True
  | f :: log' =>
      (is_keyframe f = true \/ prev = Some (fb_sequence_number f - 1)) /\
      decode_ok (Some (fb_sequence_number f)) log'
  end.

(** The same within one polling pass, where numbers moreover only go up. *)
Fixpoint decode_chain (prev : option Z) (log : list FrameBuffer) : Prop :=
  match log with
  | [] => True
  | f :: log' =>
      match prev with
      | None => is_keyframe f = true
      | Some l => fb_sequence_number f = l + 1 \/
                  (l + 1 < fb_sequence_number f /\ is_keyframe f = true)
      end /\ decode_chain (Some (fb_sequence_number f)) log'
  end.

(** Sequence number of the last frame of a log. *)
Definition log_last (prev : option Z) (log : list FrameBuffer) : option Z :=
  match last log with Some f => Some (fb_sequence_number f) | None => prev end.

(** ** One turn of the loop *)

(** Removing a key and everything below it. *)
Lemma remove_then_below (k : Z) (m : list (Z * FrameBuffer)) :
  bt_sorted m ->
  filter (fun e => k <= e.1) (bt_remove k m) = filter (fun e => k < e.1) m.
Proof.
  intros Hs. rewrite bt_remove_filter, list_filter_filter by done.
  apply list_filter_iff. intros e. lia.
Qed.

Lemma remove_above (k : Z) (m : list (Z * FrameBuffer)) :
  bt_sorted m -> Forall (fun e => k <= e.1) m ->
  bt_remove k m = filter (fun e => k < e.1) m.
Proof.
  intros Hs Hf. rewrite bt_remove_filter by done. apply filter_ext_on.
  eapply Forall_impl; [exact Hf |]. simpl; lia.
Qed.

(** Dropping below a bound, with the count that goes to the statistics. *)
Lemma drop_frames_before_spec (k : Z) (jb : JitterBuffer) :
  bt_sorted (buffered_frames jb) ->
  let kept := filter (fun e => k <= e.1) (buffered_frames jb) in
  drop_frames_before k jb =
    set_buffered kept
      (set_dropped (dropped_frames_count jb +u64
                      Z.of_nat (length (buffered_frames jb) - length kept)) jb).
Proof.
  intros Hs kept. unfold drop_frames_before. rewrite bt_remove_below by done.
  do 4 f_equal. unfold bt_keys.
  pose proof (length_filter_split (fun e : Z * FrameBuffer => k <= e.1)
                (fun e => e.1 < k) (buffered_frames jb)) as H.
  rewrite <- H by (intros; lia). unfold kept.
  enough (length (filter (fun e : Z * FrameBuffer => e.1 < k) (buffered_frames jb)) =
          length (filter (fun k0 => k0 < k) (buffered_frames jb).*1)) as -> by lia.
  clear. induction (buffered_frames jb) as [|e m IH]; [done |]. simpl.
  rewrite !filter_cons. destruct (decide (e.1 < k)); simpl; by rewrite IH.
Qed.

(** What one turn does: the frame moved is the next continuous one or a later
    keyframe, everything up to it leaves the buffer, and what is neither kept
    nor moved is counted as dropped. *)
Record turn_spec (t : Z) (jb jb' : JitterBuffer) (f : FrameBuffer) : Prop := mk_turn_spec {
  turn_get : bt_get (fb_sequence_number f) (buffered_frames jb) = Some f;
  turn_ready : is_ready t f jb = true;
  turn_order : match last_decoded_sequence_number jb with
    | None => is_keyframe f = true
    | Some l => fb_sequence_number f = l + 1 \/
        (l + 1 < fb_sequence_number f /\ is_keyframe f = true /\
         bt_get (l + 1) (buffered_frames jb) = None)
    end;
  turn_last : last_decoded_sequence_number jb' = Some (fb_sequence_number f);
  turn_buffer : buffered_frames jb' =
    filter (fun e => fb_sequence_number f < e.1) (buffered_frames jb);
  turn_dropped : dropped_frames_count jb' = dropped_frames_count jb +u64
    (buffered_frames_len jb - 1 - buffered_frames_len jb');
  turn_frame : jitter_estimator jb' = jitter_estimator jb /\
    target_playout_delay_ms jb' = target_playout_delay_ms jb /\
    num_consecutive_old_frames jb' = num_consecutive_old_frames jb;
}.

(** A successor that lies ahead did not wrap around. *)
Lemma succ_u64_ahead (l : Z) : u_in 64 l -> l < l +u64 1 -> l +u64 1 = l + 1.
Proof.
  unfold u_in, wrap_u. intros Hl Hlt. destruct (Z.eq_dec (l + 1) (2 ^ 64)) as [E|].
  - rewrite E, Z.mod_same in Hlt by lia. lia.
  - apply Z.mod_small. lia.
Qed.

(** The candidate is in the buffer under its own number and in decodable order. *)
Lemma next_key_spec (jb : JitterBuffer) (k : Z) :
  jb_wf jb -> next_decodable_key jb = Some k ->
  exists f, bt_get k (buffered_frames jb) = Some f /\ fb_sequence_number f = k /\
    match last_decoded_sequence_number jb with
    | None => is_keyframe f = true
    | Some l => l +u64 1 = l + 1 /\ (k = l + 1 \/
        (l + 1 < k /\ is_keyframe f = true /\ bt_get (l + 1) (buffered_frames jb) = None))
    end.
Proof.
  intros [Hs Hk Ha _ _ _]. unfold next_decodable_key.
  assert (forall k0 f, bt_get k0 (buffered_frames jb) = Some f ->
            k0 = fb_sequence_number f /\ u_in 64 k0) as Hown.
  { intros k0 f Hg%bt_get_Some_elem. exact (Forall_elem _ _ _ Hk Hg). }
  destruct (last_decoded_sequence_number jb) as [l|] eqn:Hl.
  - destruct (Ha l eq_refl) as [Hlu Hlt].
    assert (forall k0 f, bt_get k0 (buffered_frames jb) = Some f -> l < k0) as Hahead.
    { intros k0 f Hg%bt_get_Some_elem. exact (Forall_elem _ _ _ Hlt Hg). }
    unfold bt_contains. destruct (bt_get (l +u64 1) (buffered_frames jb)) as [f|] eqn:Hg.
    + intros [= <-]. exists f. destruct (Hown _ _ Hg) as [E Hu]. pose proof (Hahead _ _ Hg).
      split; [done |]. split; [done |]. assert (l +u64 1 = l + 1) as ->; [|auto].
      by apply succ_u64_ahead.
    + intros ([k1 f] & Hfind & ->)%fmap_Some; simpl.
      apply bt_find_Some in Hfind as (Hgk & [Hlt2 Hkey]%andb_true_iff & _); [|done].
      destruct (Hown _ _ Hgk) as [E Hu]. pose proof (Hahead _ _ Hgk).
      exists f. split; [done |]. split; [done |]. apply Z.ltb_lt in Hlt2.
      assert (l +u64 1 = l + 1) as Hw.
      { apply wrap_u_small. unfold u_in in *. lia. }
      rewrite Hw in *. auto 6.
  - intros ([k1 f] & Hfind & ->)%fmap_Some; simpl.
    apply bt_find_Some in Hfind as (Hgk & Hkey & _); [|done].
    exists f. destruct (Hown _ _ Hgk). auto.
Qed.

Lemma poll_turn_spec (t : Z) (jb jb' : JitterBuffer) (f : FrameBuffer) :
  jb_wf jb -> poll_turn t jb = Some (jb', f) -> turn_spec t jb jb' f.
Proof.
  intros Hwf. unfold poll_turn.
  destruct (next_decodable_key jb) as [k|] eqn:Hn; [|done].
  destruct (next_key_spec jb k Hwf Hn) as (f0 & Hg & Hseq & Hord). rewrite Hg.
  destruct (is_ready t f0 jb) eqn:Hr; [|done]. simpl.
  destruct Hwf as [Hs Hk Ha _ _ Hd].
  pose proof (bt_remove_length k f0 (buffered_frames jb) Hg) as Hlen.
  pose proof (bt_remove_sorted k (buffered_frames jb) Hs) as Hs1.
  set (jb1 := set_buffered (bt_remove k (buffered_frames jb)) jb).
  intros E. simplify_eq.
  set (cond := is_keyframe f && _).
  assert (cond = false -> Forall (fun e => fb_sequence_number f <= e.1) (buffered_frames jb))
    as Hcond.
  { intros Hc. destruct (last_decoded_sequence_number jb) as [l|] eqn:Hl.
    - destruct Hord as [Hw [Heq|(Hgt & Hkey & _)]].
      + destruct (Ha l eq_refl) as [_ Hf]. eapply Forall_impl; [exact Hf |]. simpl; lia.
      + unfold cond in Hc. rewrite Hkey, Hw in Hc. simpl in Hc. lia.
    - unfold cond in Hc. by rewrite Hord in Hc. }
  assert (exists kept, (if cond then drop_frames_before (fb_sequence_number f) jb1 else jb1) =
      set_buffered kept (set_dropped (dropped_frames_count jb +u64
         (buffered_frames_len jb - 1 - Z.of_nat (length kept))) jb) /\
      kept = filter (fun e => fb_sequence_number f < e.1) (buffered_frames jb)) as (kept & -> & Hkept).
  { destruct cond.
    - rewrite drop_frames_before_spec by done. simpl.
      rewrite remove_then_below by done. eexists; split; [|reflexivity].
      pose proof (length_filter (fun e : Z * FrameBuffer => fb_sequence_number f < e.1)
        (buffered_frames jb)) as HL.
      rewrite <- remove_then_below in HL |- * by done.
      unfold set_buffered, set_dropped, buffered_frames_len; simpl. do 2 f_equal.
      pose proof (length_filter (fun e : Z * FrameBuffer => fb_sequence_number f <= e.1)
        (bt_remove (fb_sequence_number f) (buffered_frames jb))). lia.
    - eexists; split; [|reflexivity]. rewrite <- remove_above by auto.
      unfold jb1, set_buffered, set_dropped, buffered_frames_len; simpl. f_equal.
      rewrite Hlen, wrap_u_small; [lia |]. unfold u_in in *; lia. }
  split; simpl; rewrite ?Hkept; auto.
  destruct (last_decoded_sequence_number jb); tauto.
Qed.

Lemma decode_chain_ok (prev : option Z) (log : list FrameBuffer) :
  decode_chain prev log -> decode_ok prev log.
Proof.
  revert prev. induction log as [|f log IH]; intros prev; simpl; [done |].
  intros [H1 H2]. split; [|auto]. destruct prev as [l|]; [|auto].
  destruct H1 as [E|[_ ?]]; [right; f_equal; lia | auto].
Qed.

Lemma decode_ok_app (prev : option Z) (log1 log2 : list FrameBuffer) :
  decode_ok prev log1 -> decode_ok (log_last prev log1) log2 -> decode_ok prev (log1 ++ log2).
Proof.
  revert prev. induction log1 as [|f log1 IH]; intros prev; simpl; [done |].
  intros [H1 H2] H3. split; [done |]. apply IH; [done |].
  unfold log_last in *. rewrite last_cons in H3. by destruct (last log1).
Qed.

(** A log that starts afresh needs no predecessor. *)
Lemma decode_ok_None (prev : option Z) (log : list FrameBuffer) :
  decode_ok None log -> decode_ok prev log.
Proof. destruct log as [|f log]; simpl; [done |]. intros [[?|?] ?]; [auto | done]. Qed.

Lemma poll_turn_wf (t : Z) (jb jb' : JitterBuffer) (f : FrameBuffer) :
  jb_wf jb -> poll_turn t jb = Some (jb', f) -> jb_wf jb'.
Proof.
  intros Hwf Ht. pose proof (poll_turn_spec _ _ _ _ Hwf Ht) as Hsp.
  destruct Hsp as [Hg _ _ Hl Hb Hd (_ & _ & Hold)], Hwf as [Hs Hk _ Hsz Ho _].
  pose proof (Forall_elem _ _ _ Hk (bt_get_Some_elem _ _ _ Hg)) as [_ Hu].
  pose proof (length_filter (fun e : Z * FrameBuffer => fb_sequence_number f < e.1)
    (buffered_frames jb)).
  split; rewrite ?Hb, ?Hd, ?Hold; auto with vc.
  - rewrite Hl. intros ? [= <-]. split; [done |].
    apply Forall_forall. by intros e [? ?]%list_elem_of_filter.
  - unfold buffered_frames_len in *. rewrite Hb. lia.
  - apply wrap_u_range. lia.
Qed.

Lemma poll_turn_shrinks (t : Z) (jb jb' : JitterBuffer) (f : FrameBuffer) :
  jb_wf jb -> poll_turn t jb = Some (jb', f) ->
  (length (buffered_frames jb') < length (buffered_frames jb))%nat.
Proof.
  intros Hwf Ht. destruct (poll_turn_spec _ _ _ _ Hwf Ht) as [Hg _ _ _ Hb _ _].
  rewrite Hb. eapply length_filter_lt; [by eapply bt_get_Some_elem |]. simpl; lia.
Qed.

(** The whole loop, from the specification of its turns. *)
Record poll_spec (t : Z) (jb jb' : JitterBuffer) (fs : list FrameBuffer) : Prop := mk_poll_spec {
  poll_wf : jb_wf jb';
  poll_chain : decode_chain (last_decoded_sequence_number jb) fs;
  poll_last : last_decoded_sequence_number jb' =
    log_last (last_decoded_sequence_number jb) fs;
  poll_done : poll_turn t jb' = None;
  poll_all_ready : Forall (fun f => is_ready t f jb = true) fs;
  poll_count : dropped_frames_count jb' = dropped_frames_count jb +u64
    (buffered_frames_len jb - Z.of_nat (length fs) - buffered_frames_len jb');
}.

Lemma is_ready_target (t : Z) (f : FrameBuffer) (jb jb' : JitterBuffer) :
  target_playout_delay_ms jb' = target_playout_delay_ms jb ->
  is_ready t f jb' = is_ready t f jb.
Proof. unfold is_ready. by intros ->. Qed.

Lemma wrap_u64_add (a b c : Z) : (a +u64 b) +u64 c = a +u64 (b + c).
Proof. unfold wrap_u. rewrite Z.add_mod_idemp_l by lia. f_equal; lia. Qed.

Lemma poll_loop_spec (fuel : nat) (t : Z) (jb : JitterBuffer) :
  jb_wf jb -> (length (buffered_frames jb) < fuel)%nat ->
  exists jb' fs, poll_loop fuel t jb = Some (jb', fs) /\ poll_spec t jb jb' fs.
Proof.
  revert jb. induction fuel as [|fuel IH]; intros jb Hwf Hlt; [lia |]. simpl.
  destruct (poll_turn t jb) as [[jb1 f]|] eqn:Ht.
  - pose proof (poll_turn_shrinks _ _ _ _ Hwf Ht).
    destruct (IH jb1) as (jb' & fs & -> & [Hw Hc Hl Hd Hr Hn]);
      [by eapply poll_turn_wf | lia |].
    destruct (poll_turn_spec _ _ _ _ Hwf Ht) as [_ Hrd Hord Hl1 _ Hd1 (_ & Htgt & _)].
    exists jb', (f :: fs). split; [done |]. split; [done | | | done | |].
    + simpl. rewrite <- Hl1. split; [|done].
      destruct (last_decoded_sequence_number jb); tauto.
    + rewrite Hl, Hl1. unfold log_last. rewrite last_cons. by destruct (last fs).
    + constructor; [done |]. eapply Forall_impl; [exact Hr |]. intros g; simpl.
      by rewrite (is_ready_target _ _ _ _ Htgt).
    + rewrite Hn, Hd1, wrap_u64_add. f_equal. simpl length. lia.
  - exists jb, []. split; [done |]. split; try done.
    destruct Hwf. rewrite wrap_u_small; simpl; [lia | unfold u_in in *; lia].
Qed.

(** ** The operations keep the invariant *)

Lemma jb_new_wf : jb_wf jb_new.
Proof.
  split; simpl; [constructor | constructor | done | | |]; unfold u_in, MAX_BUFFER_SIZE,
    MAX_CONSECUTIVE_OLD_FRAMES, buffered_frames_len; simpl; lia.
Qed.

(** A state that differs in the estimator, the target or the old-frame count. *)
Lemma jb_wf_same (jb jb' : JitterBuffer) :
  jb_wf jb ->
  buffered_frames jb' = buffered_frames jb ->
  last_decoded_sequence_number jb' = last_decoded_sequence_number jb ->
  dropped_frames_count jb' = dropped_frames_count jb ->
  0 <= num_consecutive_old_frames jb' <= MAX_CONSECUTIVE_OLD_FRAMES -> jb_wf jb'.
Proof.
  intros [? ? ? ? ? ?] Hb Hl Hd Ho.
  split; unfold buffered_frames_len in *; rewrite ?Hb, ?Hl, ?Hd; auto.
Qed.

Lemma drop_all_wf (jb : JitterBuffer) : jb_wf jb -> jb_wf (drop_all_frames jb).
Proof.
  intros [_ _ Ha _ Ho _]. split; simpl; try done; try (by constructor).
  - intros l Hl. split; [by apply Ha | constructor].
  - by apply wrap_u_range.
Qed.

Lemma flush_wf (jb : JitterBuffer) :
  jb_wf (flush jb).
Proof. split; simpl; try done; try (by constructor). by apply wrap_u_range. Qed.

Lemma find_and_move_spec (t : Z) (jb : JitterBuffer) :
  jb_wf jb ->
  poll_spec t jb (find_and_move_continuous_frames t jb).1 (find_and_move_continuous_frames t jb).2.
Proof.
  intros Hwf. unfold find_and_move_continuous_frames.
  destruct (poll_loop_spec (poll_fuel jb) t jb Hwf) as (jb' & fs & -> & H); [unfold poll_fuel; lia |].
  done.
Qed.

Lemma handle_old_wf (frame : VideoFrame) (l : Z) (jb : JitterBuffer) :
  jb_wf jb -> jb_wf (handle_old_frame frame l jb).
Proof.
  intros Hwf. unfold handle_old_frame. destruct (_ && _); [apply flush_wf |].
  destruct (Z.ltb_spec MAX_CONSECUTIVE_OLD_FRAMES
    (num_consecutive_old_frames (set_num_old (num_consecutive_old_frames jb +u64 1) jb)))
    as [|Hle]; [apply flush_wf |].
  eapply jb_wf_same; [exact Hwf | done | done | done |]. simpl in *.
  pose proof (wrap_u_range 64 (num_consecutive_old_frames jb + 1)). unfold u_in in *. lia.
Qed.

(** A frame ahead of the last decoded one, stored where there is room. *)
Definition stored (frame : VideoFrame) (t : Z) (jb : JitterBuffer) : JitterBuffer :=
  let jb1 := update_target_playout_delay
    (set_estimator (update_estimate (jitter_estimator jb) (vf_sequence_number frame) t) jb) in
  set_buffered (bt_insert (vf_sequence_number frame) (fb_new frame t) (buffered_frames jb1)) jb1.

Lemma stored_wf (frame : VideoFrame) (t : Z) (jb : JitterBuffer) :
  jb_wf jb -> u_in 64 (vf_sequence_number frame) ->
  (forall l, last_decoded_sequence_number jb = Some l -> l < vf_sequence_number frame) ->
  buffered_frames_len jb < MAX_BUFFER_SIZE -> jb_wf (stored frame t jb).
Proof.
  intros [Hs Hk Ha Hsz Ho Hd] Hu Hl Hroom.
  pose proof (bt_insert_length (vf_sequence_number frame) (fb_new frame t) (buffered_frames jb)).
  split; simpl; auto with vc.
  - apply Forall_forall. intros e [->|He]%bt_insert_elem; simpl; [done |].
    exact (Forall_elem _ _ _ Hk He).
  - intros l Hll. destruct (Ha l Hll) as [Hlu Hf]. split; [done |].
    apply Forall_forall. intros e [->|He]%bt_insert_elem; simpl; [auto |].
    exact (Forall_elem _ _ _ Hf He).
  - unfold buffered_frames_len in *. simpl. lia.
Qed.

(** [insert_frame], case by case. *)
Inductive insert_case (frame : VideoFrame) (t : Z) (jb : JitterBuffer)
    : JitterBuffer * list FrameBuffer -> Prop :=
| insert_old l :
    last_decoded_sequence_number jb = Some l -> vf_sequence_number frame <= l ->
    insert_case frame t jb (handle_old_frame frame l jb, [])
| insert_rejected :
    MAX_BUFFER_SIZE <= buffered_frames_len jb -> vf_frame_type frame = DeltaFrame ->
    insert_case frame t jb (set_num_old 0 jb, [])
| insert_admitted jb1 :
    jb1 = set_num_old 0 jb \/ jb1 = drop_all_frames (set_num_old 0 jb) ->
    buffered_frames_len jb1 < MAX_BUFFER_SIZE ->
    (forall l, last_decoded_sequence_number jb = Some l -> l < vf_sequence_number frame) ->
    insert_case frame t jb (find_and_move_continuous_frames t (stored frame t jb1)).

Lemma insert_frame_cases (frame : VideoFrame) (t : Z) (jb : JitterBuffer) :
  insert_case frame t jb (insert_frame frame t jb).
Proof.
  unfold insert_frame.
  destruct (match last_decoded_sequence_number jb with
            | Some last_decoded => _ | None => _ end) as [l0|] eqn:E.
  - destruct (last_decoded_sequence_number jb) as [l|] eqn:Hl; [|done].
    destruct (Z.leb_spec (vf_sequence_number frame) l); simplify_eq. by apply insert_old.
  - assert (forall l, last_decoded_sequence_number jb = Some l -> l < vf_sequence_number frame).
    { intros l Hl. rewrite Hl in E. destruct (Z.leb_spec (vf_sequence_number frame) l); [done | lia]. }
    destruct (Z.leb_spec MAX_BUFFER_SIZE (buffered_frames_len (set_num_old 0 jb))).
    + case_bool_decide as Hty.
      * apply insert_admitted; [by right | done | done].
      * apply insert_rejected; [done |]. by destruct (vf_frame_type frame).
    + apply insert_admitted; [by left | done | done].
Qed.

(** Storing a frame leaves the last decoded number alone. *)
Lemma stored_last (frame : VideoFrame) (t : Z) (jb : JitterBuffer) :
  last_decoded_sequence_number (stored frame t jb) = last_decoded_sequence_number jb.
Proof. done. Qed.

(** One operation: it keeps the invariant; what it decodes follows on from the
    last decoded frame; and the new last decoded frame is the end of what it
    decoded, or the buffer was flushed and waits for a keyframe. *)
Lemma jb_step_spec (jb : JitterBuffer) (op : jb_op) :
  jb_wf jb -> jb_op_ok op ->
  let '(jb', fs) := jb_step jb op in
  jb_wf jb' /\ decode_chain (last_decoded_sequence_number jb) fs /\
  (last_decoded_sequence_number jb' = log_last (last_decoded_sequence_number jb) fs \/
   (last_decoded_sequence_number jb' = None /\ fs = [])).
Proof.
  intros Hwf Hok. destruct op as [frame t|t| |]; simpl in *.
  - destruct (insert_frame_cases frame t jb) as [l Hl Hle|Hfull Hd|jb1 Hjb1 Hroom Hl].
    + split_and!; [by apply handle_old_wf | done |]. unfold handle_old_frame.
      destruct (_ && _); [auto |]. destruct (_ <? _); auto.
    + split_and!; [|done|auto]. by eapply jb_wf_same.
    + assert (jb_wf (set_num_old 0 jb)) as Hwf0.
      { by eapply jb_wf_same. }
      assert (jb_wf jb1 /\ last_decoded_sequence_number jb1 = last_decoded_sequence_number jb)
        as [Hwf1 Hl1] by (destruct Hjb1 as [-> | ->]; auto using drop_all_wf).
      assert (jb_wf (stored frame t jb1)) as Hwf2.
      { apply stored_wf; auto. by rewrite Hl1. }
      pose proof (find_and_move_spec t _ Hwf2) as [Hw Hc Hlast _ _ _].
      rewrite stored_last, Hl1 in Hc, Hlast.
      destruct (find_and_move_continuous_frames t (stored frame t jb1)). auto.
  - pose proof (find_and_move_spec t _ Hwf) as [Hw Hc Hlast _ _ _].
    destruct (find_and_move_continuous_frames t jb). auto.
  - split_and!; auto using drop_all_wf.
  - split_and!; auto using flush_wf.
Qed.

Lemma jb_run_spec (ops : list jb_op) (jb : JitterBuffer) :
  jb_wf jb -> Forall jb_op_ok ops ->
  let '(jb', log) := run jb_step jb ops in
  jb_wf jb' /\ decode_ok (last_decoded_sequence_number jb) log.
Proof.
  revert jb. induction ops as [|op ops IH]; intros jb Hwf Hok; simpl; [done |].
  apply Forall_cons in Hok as [Hop Hops].
  pose proof (jb_step_spec jb op Hwf Hop) as Hstep.
  destruct (jb_step jb op) as [jb1 fs]. destruct Hstep as (Hwf1 & Hc & Hl).
  specialize (IH jb1 Hwf1 Hops). destruct (run jb_step jb1 ops) as [jb2 log].
  destruct IH as [Hwf2 Hlog]. split; [done |].
  apply decode_ok_app; [by apply decode_chain_ok |].
  destruct Hl as [Hl | [Hl _]]; rewrite Hl in Hlog; auto using decode_ok_None.
Qed.

(** ** Properties *)

(** Every run of the public operations on a fresh jitter buffer keeps the
    representation invariant: the frames are sorted and stored under their own
    sequence numbers, all of them ahead of the last decoded frame, there are
    never more than [MAX_BUFFER_SIZE] of them, and the old-frame counter never
    passes [MAX_CONSECUTIVE_OLD_FRAMES]. *)
Theorem jb_invariant (ops : list jb_op) :
  Forall jb_op_ok ops -> jb_wf (run jb_step jb_new ops).1.
Proof.
  intros Hok. pose proof (jb_run_spec ops jb_new jb_new_wf Hok) as H.
  by destruct (run jb_step jb_new ops), H.
Qed.

(** Over any run, through gaps, reordering, overflows and flushes, a delta
    frame reaches the decoder only right after the frame with the preceding
    sequence number; anything else handed to the decoder is a keyframe. *)
Theorem jb_decode_order (ops : list jb_op) :
  Forall jb_op_ok ops -> decode_ok None (run jb_step jb_new ops).2.
Proof.
  intros Hok. pose proof (jb_run_spec ops jb_new jb_new_wf Hok) as H.
  by destruct (run jb_step jb_new ops), H.
Qed.

(** The polling loop terminates within one turn more than the buffered
    frames, decodes only frames that have waited for the playout delay, in
    strictly increasing order, and stops only when no candidate is ready. *)
Theorem poll_terminates_and_exhausts (t : Z) (jb : JitterBuffer) :
  jb_wf jb ->
  exists jb' fs, poll_loop (poll_fuel jb) t jb = Some (jb', fs) /\
    find_and_move_continuous_frames t jb = (jb', fs) /\
    decode_chain (last_decoded_sequence_number jb) fs /\
    Forall (fun f => is_ready t f jb = true) fs /\
    poll_turn t jb' = None.
Proof.
  intros Hwf. destruct (poll_loop_spec (poll_fuel jb) t jb Hwf) as (jb' & fs & E & H);
    [unfold poll_fuel; lia |].
  exists jb', fs. unfold find_and_move_continuous_frames. rewrite E. by destruct H.
Qed.

(** Polling loses nothing silently: the frames that leave the buffer are
    the ones decoded and the ones added to the dropped counter. *)
Theorem poll_accounting (t : Z) (jb : JitterBuffer) :
  jb_wf jb ->
  let '(jb', fs) := find_and_move_continuous_frames t jb in
  dropped_frames_count jb' = dropped_frames_count jb +u64
    (buffered_frames_len jb - Z.of_nat (length fs) - buffered_frames_len jb').
Proof.
  intros Hwf. pose proof (find_and_move_spec t jb Hwf) as [_ _ _ _ _ H].
  by destruct (find_and_move_continuous_frames t jb).
Qed.

(** A keyframe more than [STREAM_RESTART_BACKTRACK_THRESHOLD] numbers behind
    the last decoded frame flushes the buffer but is itself discarded: nothing
    is decoded, nothing is buffered, and decoding waits for another keyframe. *)
Theorem restart_keyframe_discarded (frame : VideoFrame) (t l : Z) (jb : JitterBuffer) :
  last_decoded_sequence_number jb = Some l ->
  vf_frame_type frame = KeyFrame ->
  vf_sequence_number frame + STREAM_RESTART_BACKTRACK_THRESHOLD < l ->
  insert_frame frame t jb = (flush jb, []) /\
  buffered_frames (flush jb) = [] /\ is_waiting_for_keyframe (flush jb) = true.
Proof.
  intros Hl Hty Hback. split_and!; [|done|done]. unfold insert_frame. rewrite Hl.
  unfold STREAM_RESTART_BACKTRACK_THRESHOLD in *.
  destruct (Z.leb_spec (vf_sequence_number frame) l); [|lia].
  unfold handle_old_frame. rewrite bool_decide_true by done. simpl.
  unfold STREAM_RESTART_BACKTRACK_THRESHOLD, sat_sub.
  destruct (Z.ltb_spec 30 (Z.max 0 (l - vf_sequence_number frame))); [done | lia].
Qed.

(** ** Witnesses *)

Definition frame_at (n : Z) (ty : FrameType) : VideoFrame :=
  mkVideoFrame n ty Vp8 [] (F64.of_Z 0).

(** A keyframe, a reordered pair of delta frames, a gap recovered at a keyframe. *)
Definition sample_ops : list jb_op :=
  [OpInsert (frame_at 1 KeyFrame) 1000; OpPoll 1100; OpInsert (frame_at 3 DeltaFrame) 1110;
   OpInsert (frame_at 2 DeltaFrame) 1120; OpPoll 1200; OpInsert (frame_at 7 DeltaFrame) 1210;
   OpInsert (frame_at 8 KeyFrame) 1220; OpPoll 1300].

Lemma sample_ops_ok : Forall jb_op_ok sample_ops.
Proof. repeat constructor; simpl; unfold u_in; lia. Qed.

Example sample_run_decodes :
  fb_sequence_number <$> (run jb_step jb_new sample_ops).2 = [1; 2; 3; 8] /\
  dropped_frames_count (run jb_step jb_new sample_ops).1 = 1.
Proof. vm_compute. done. Qed.

Lemma jb_invariant_witness : jb_wf (run jb_step jb_new sample_ops).1.
Proof. apply jb_invariant. exact sample_ops_ok. Defined.

Lemma jb_decode_order_witness : decode_ok None (run jb_step jb_new sample_ops).2.
Proof. apply jb_decode_order. exact sample_ops_ok. Defined.

(** The state before the last poll: frames 7 and 8 wait, 3 was the last decoded. *)
Definition sample_state : JitterBuffer := (run jb_step jb_new (take 7 sample_ops)).1.

Lemma sample_state_wf : jb_wf sample_state.
Proof.
  pose proof (jb_run_spec (take 7 sample_ops) jb_new jb_new_wf) as H. unfold sample_state.
  destruct (run jb_step jb_new (take 7 sample_ops)). apply H, Forall_take, sample_ops_ok.
Qed.

Lemma poll_terminates_witness :
  exists jb' fs, poll_loop (poll_fuel sample_state) 1300 sample_state = Some (jb', fs) /\
    find_and_move_continuous_frames 1300 sample_state = (jb', fs) /\
    decode_chain (last_decoded_sequence_number sample_state) fs /\
    Forall (fun f => is_ready 1300 f sample_state = true) fs /\
    poll_turn 1300 jb' = None.
Proof. apply poll_terminates_and_exhausts. exact sample_state_wf. Defined.

Lemma poll_accounting_witness :
  let '(jb', fs) := find_and_move_continuous_frames 1300 sample_state in
  dropped_frames_count jb' = dropped_frames_count sample_state +u64
    (buffered_frames_len sample_state - Z.of_nat (length fs) - buffered_frames_len jb').
Proof. apply poll_accounting. exact sample_state_wf. Defined.

Lemma restart_keyframe_witness :
  let jb := (run jb_step jb_new
    [OpInsert (frame_at 100 KeyFrame) 1000; OpPoll 1100]).1 in
  insert_frame (frame_at 5 KeyFrame) 1200 jb = (flush jb, []) /\
  buffered_frames (flush jb) = [] /\ is_waiting_for_keyframe (flush jb) = true.
Proof.
  apply (restart_keyframe_discarded _ _ 100);
    [vm_compute; reflexivity | reflexivity | vm_compute; reflexivity].
Defined.
