(* ===== verification/Statistics.v ===== *)
(** * NetEQ statistics (neteq/src/statistics.rs)

    The counters of the audio jitter buffer, their Q14 rates and the window of
    packet waiting times. Reads of the clock are arguments. *)
From S2P Require Import Prelude Floats.

(** ** The Q14 fixed-point helpers *)

Module Q14.

Definition SCALE : float := F64.of_Z 16384.
Definition SCALE_F32 : float := F32.of_Z 16384.

Definition to_float (q14_value : Z) : float := F64.div (F64.of_Z q14_value) SCALE.

Definition to_per_mille (q14_value : Z) : float :=
  F32.div (F32.of_Z q14_value) (F32.div SCALE_F32 (F32.of_Z 1000)).

Definition from_float (ratio : float) : Z :=
  as_u 16 (fclamp (F64.mul ratio SCALE) (F64.of_Z 0) SCALE).

Definition from_per_mille (per_mille : float) : Z :=
  from_float (F64.of_f32 (F32.div per_mille (F32.of_Z 1000))).

End Q14.

(** ** neteq.rs: the operations a decision can select *)

Inductive Operation : Type :=
| Normal | Merge | Expand | ExpandStart | ExpandEnd | Accelerate | FastAccelerate
| PreemptiveExpand | TimeStretchBuffer | ComfortNoise | Dtmf | Undefined.

#[export] Instance Operation_eq_dec : EqDecision Operation.
Proof. solve_decision. Defined.

Inductive TimeStretchOperation : Type := TsAccelerate | TsPreemptiveExpand | TsExpand.

(** ** State *)

Record OperationCounters : Type := mkOperationCounters {
  normal_per_sec : float; expand_per_sec : float; accelerate_per_sec : float;
  fast_accelerate_per_sec : float; preemptive_expand_per_sec : float; merge_per_sec : float;
  comfort_noise_per_sec : float; dtmf_per_sec : float; undefined_per_sec : float;
}.

Record NetworkStatistics : Type := mkNetworkStatistics {
  current_buffer_size_ms : Z; preferred_buffer_size_ms : Z; jitter_peaks_found : Z;
  expand_rate : Z; speech_expand_rate : Z; preemptive_rate : Z; accelerate_rate : Z;
  mean_waiting_time_ms : Z; median_waiting_time_ms : Z;
  min_waiting_time_ms : Z; max_waiting_time_ms : Z;
  reordered_packets : Z; total_packets_received : Z;
  reorder_rate_permyriad : Z; max_reorder_distance : Z;
  operation_counters : OperationCounters;
}.

Record LifetimeStatistics : Type := mkLifetimeStatistics {
  total_samples_received : Z; concealed_samples : Z; concealment_events : Z;
  jitter_buffer_delay_ms : Z; jitter_buffer_emitted_count : Z; jitter_buffer_target_delay_ms : Z;
  inserted_samples_for_deceleration : Z; removed_samples_for_acceleration : Z;
  silent_concealed_samples : Z; relative_packet_arrival_delay_ms : Z;
  jitter_buffer_packets_received : Z; buffer_flushes : Z; late_packets_discarded : Z;
}.

Record OperationStatistics : Type := mkOperationStatistics {
  preemptive_samples : Z; accelerate_samples : Z; packet_buffer_flushes : Z;
  discarded_primary_packets : Z; last_waiting_time_ms : Z; op_current_buffer_size_ms : Z;
  current_frame_size_ms : Z; next_packet_available : bool;
}.

Record StatisticsCalculator : Type := mkStatisticsCalculator {
  network_stats : NetworkStatistics;
  lifetime_stats : LifetimeStatistics;
  operation_stats : OperationStatistics;
  start_time : Z;
  waiting_times : list Z;
  last_update : Z;
  total_output_samples : Z;
  total_expanded_samples : Z;
  operation_counts : list Z;
  last_operation_update : Z;
  operation_window_duration : Z;
}.

#[export] Instance eta_OperationCounters : Eta OperationCounters := fun r =>
  mkOperationCounters (normal_per_sec r) (expand_per_sec r) (accelerate_per_sec r)
    (fast_accelerate_per_sec r) (preemptive_expand_per_sec r) (merge_per_sec r)
    (comfort_noise_per_sec r) (dtmf_per_sec r) (undefined_per_sec r).

#[export] Instance eta_NetworkStatistics : Eta NetworkStatistics := fun r =>
  mkNetworkStatistics (current_buffer_size_ms r) (preferred_buffer_size_ms r)
    (jitter_peaks_found r) (expand_rate r) (speech_expand_rate r) (preemptive_rate r)
    (accelerate_rate r) (mean_waiting_time_ms r) (median_waiting_time_ms r)
    (min_waiting_time_ms r) (max_waiting_time_ms r) (reordered_packets r)
    (total_packets_received r) (reorder_rate_permyriad r) (max_reorder_distance r)
    (operation_counters r).

#[export] Instance eta_LifetimeStatistics : Eta LifetimeStatistics := fun r =>
  mkLifetimeStatistics (total_samples_received r) (concealed_samples r) (concealment_events r)
    (jitter_buffer_delay_ms r) (jitter_buffer_emitted_count r) (jitter_buffer_target_delay_ms r)
    (inserted_samples_for_deceleration r) (removed_samples_for_acceleration r)
    (silent_concealed_samples r) (relative_packet_arrival_delay_ms r)
    (jitter_buffer_packets_received r) (buffer_flushes r) (late_packets_discarded r).

#[export] Instance eta_OperationStatistics : Eta OperationStatistics := fun r =>
  mkOperationStatistics (preemptive_samples r) (accelerate_samples r) (packet_buffer_flushes r)
    (discarded_primary_packets r) (last_waiting_time_ms r) (op_current_buffer_size_ms r)
    (current_frame_size_ms r) (next_packet_available r).

#[export] Instance eta_StatisticsCalculator : Eta StatisticsCalculator := fun r =>
  mkStatisticsCalculator (network_stats r) (lifetime_stats r) (operation_stats r) (start_time r)
    (waiting_times r) (last_update r) (total_output_samples r) (total_expanded_samples r)
    (operation_counts r) (last_operation_update r) (operation_window_duration r).

Definition zero32 : float := F32.of_Z 0.

Definition counters_default : OperationCounters :=
  mkOperationCounters zero32 zero32 zero32 zero32 zero32 zero32 zero32 zero32 zero32.

Definition network_default : NetworkStatistics :=
  mkNetworkStatistics 0 0 0 0 0 0 0 0 0 0 0 0 0 0 0 counters_default.

Definition lifetime_default : LifetimeStatistics := mkLifetimeStatistics 0 0 0 0 0 0 0 0 0 0 0 0 0.

Definition operation_default : OperationStatistics := mkOperationStatistics 0 0 0 0 0 0 0 false.

Definition stats_new (now : Z) : StatisticsCalculator :=
  mkStatisticsCalculator network_default lifetime_default operation_default now [] now 0 0
    (replicate 9 0) now (from_secs 1).

(** ** Operations *)

Definition update_buffer_size (current_ms preferred_ms : Z) (s : StatisticsCalculator)
    : StatisticsCalculator :=
  s <| network_stats := (network_stats s) <| current_buffer_size_ms := current_ms |>
                                          <| preferred_buffer_size_ms := preferred_ms |> |>
    <| operation_stats := (operation_stats s) <| op_current_buffer_size_ms := current_ms |> |>.

(** [sort_unstable] on integers. *)
Definition sortZ (l : list Z) : list Z := merge_sort Z.le l.

Definition update_waiting_time_stats (s : StatisticsCalculator) : StatisticsCalculator :=
  match waiting_times s with
  | [] => s
  | w :: _ =>
      let sorted_times := sortZ (waiting_times s) in
      let n := length sorted_times in
      let sum := wrap_i 32 (sumZ sorted_times) in
      s <| network_stats := (network_stats s)
             <| min_waiting_time_ms := default 0 (head sorted_times) |>
             <| max_waiting_time_ms := default 0 (last sorted_times) |>
             <| mean_waiting_time_ms := Z.quot sum (wrap_i 32 (Z.of_nat n)) |>
             <| median_waiting_time_ms := default 0 (sorted_times !! (n / 2)%nat) |> |>
        <| operation_stats := (operation_stats s)
             <| last_waiting_time_ms := wrap_u 64 (default 0 (last (waiting_times s))) |> |>
  end.

Definition packet_arrived (arrival_delay_ms : Z) (s : StatisticsCalculator)
    : StatisticsCalculator :=
  let s1 := s <| lifetime_stats := (lifetime_stats s)
                   <| jitter_buffer_packets_received :=
                        jitter_buffer_packets_received (lifetime_stats s) +u64 1 |> |>
              <| waiting_times := waiting_times s ++ [arrival_delay_ms] |> in
  let s2 := if bool_decide (100 < length (waiting_times s1))%nat
            then s1 <| waiting_times := tail (waiting_times s1) |> else s1 in
  update_waiting_time_stats s2.

Definition jitter_buffer_delay (delay_ms emitted_samples : Z) (s : StatisticsCalculator)
    : StatisticsCalculator :=
  s <| lifetime_stats := (lifetime_stats s)
         <| jitter_buffer_delay_ms := jitter_buffer_delay_ms (lifetime_stats s) +u64 delay_ms |>
         <| jitter_buffer_emitted_count :=
              jitter_buffer_emitted_count (lifetime_stats s) +u64 emitted_samples |> |>.

Definition concealment_event (concealed : Z) (is_silent : bool) (s : StatisticsCalculator)
    : StatisticsCalculator :=
  let l := (lifetime_stats s)
    <| concealment_events := concealment_events (lifetime_stats s) +u64 1 |>
    <| concealed_samples := concealed_samples (lifetime_stats s) +u64 concealed |> in
  let l' := if is_silent
            then l <| silent_concealed_samples := silent_concealed_samples l +u64 concealed |>
            else l in
  s <| lifetime_stats := l' |>.

(** A cumulative ratio in Q14. *)
Definition q14_ratio (num total : Z) : Z := Q14.from_float (F64.div (F64.of_Z num) (F64.of_Z total)).

Definition time_stretch_operation (operation : TimeStretchOperation) (samples : Z)
    (s0 : StatisticsCalculator) : StatisticsCalculator :=
  let s := s0 <| total_output_samples := total_output_samples s0 +u64 samples |> in
  let total := total_output_samples s in
  match operation with
  | TsAccelerate =>
      let removed := removed_samples_for_acceleration (lifetime_stats s) +u64 samples in
      let s1 := s <| lifetime_stats := (lifetime_stats s)
                       <| removed_samples_for_acceleration := removed |> |>
                  <| operation_stats := (operation_stats s)
                       <| accelerate_samples := accelerate_samples (operation_stats s) +u64 samples |> |> in
      if 0 <? total
      then s1 <| network_stats := (network_stats s1) <| accelerate_rate := q14_ratio removed total |> |>
      else s1
  | TsPreemptiveExpand =>
      let inserted := inserted_samples_for_deceleration (lifetime_stats s) +u64 samples in
      let s1 := s <| lifetime_stats := (lifetime_stats s)
                       <| inserted_samples_for_deceleration := inserted |> |>
                  <| operation_stats := (operation_stats s)
                       <| preemptive_samples := preemptive_samples (operation_stats s) +u64 samples |> |> in
      if 0 <? total
      then s1 <| network_stats := (network_stats s1) <| preemptive_rate := q14_ratio inserted total |> |>
      else s1
  | TsExpand =>
      let expanded := total_expanded_samples s +u64 samples in
      let s1 := s <| total_expanded_samples := expanded |> in
      if 0 <? total
      then s1 <| network_stats := (network_stats s1) <| expand_rate := q14_ratio expanded total |> |>
      else s1
  end.

(** The index [record_decode_operation] uses for an operation. *)
Definition operation_index (operation : Operation) : nat :=
  match operation with
  | Normal => 0 | Merge => 1 | Expand => 2 | ExpandStart => 3 | ExpandEnd => 4
  | Accelerate => 5 | FastAccelerate => 6 | PreemptiveExpand => 7 | TimeStretchBuffer => 8
  | ComfortNoise => 9 | Dtmf => 10 | Undefined => 11
  end.

(** [Duration::as_secs_f32]. *)
Definition as_secs_f32 (d : Z) : float :=
  F32.add (F32.of_Z (d / NS_PER_SEC))
    (F32.div (F32.of_Z (d mod NS_PER_SEC)) (F32.of_Z NS_PER_SEC)).

Definition update_operation_rates (now : Z) (s : StatisticsCalculator) : StatisticsCalculator :=
  let elapsed_secs := as_secs_f32 (duration_since now (last_operation_update s)) in
  let rate (i : nat) := F32.div (F32.of_Z (default 0 (operation_counts s !! i))) elapsed_secs in
  if flt (F32.of_Z 0) elapsed_secs then
    s <| network_stats := (network_stats s)
           <| operation_counters := (operation_counters (network_stats s))
                <| normal_per_sec := rate 0%nat |> <| merge_per_sec := rate 1%nat |>
                <| expand_per_sec := rate 2%nat |> <| accelerate_per_sec := rate 3%nat |>
                <| fast_accelerate_per_sec := rate 4%nat |>
                <| preemptive_expand_per_sec := rate 5%nat |>
                <| comfort_noise_per_sec := rate 6%nat |> <| dtmf_per_sec := rate 7%nat |>
                <| undefined_per_sec := rate 8%nat |> |> |>
      <| operation_counts := replicate 9 0 |>
      <| last_operation_update := now |>
  else s.

(** [None]: the array access of [operation_counts] is out of bounds and panics. *)
Definition record_decode_operation (operation : Operation) (now : Z) (s : StatisticsCalculator)
    : option StatisticsCalculator :=
  let index := operation_index operation in
  match operation_counts s !! index with
  | None => None
  | Some c =>
      let s1 := s <| operation_counts := <[index := c +u32 1]> (operation_counts s) |> in
      Some (if operation_window_duration s1 <=? duration_since now (last_operation_update s1)
            then update_operation_rates now s1 else s1)
  end.

Definition buffer_flush (s : StatisticsCalculator) : StatisticsCalculator :=
  s <| lifetime_stats := (lifetime_stats s)
         <| buffer_flushes := buffer_flushes (lifetime_stats s) +u64 1 |> |>
    <| operation_stats := (operation_stats s)
         <| packet_buffer_flushes := packet_buffer_flushes (operation_stats s) +u64 1 |> |>.

Definition packet_discarded (is_late : bool) (s : StatisticsCalculator) : StatisticsCalculator :=
  let s1 := if is_late
    then s <| lifetime_stats := (lifetime_stats s)
                <| late_packets_discarded := late_packets_discarded (lifetime_stats s) +u64 1 |> |>
    else s in
  s1 <| operation_stats := (operation_stats s1)
          <| discarded_primary_packets := discarded_primary_packets (operation_stats s1) +u64 1 |> |>.

Definition permyriad (reordered total : Z) : Z :=
  as_u 16 (F64.mul (F64.div (F64.of_Z reordered) (F64.of_Z total)) (F64.of_Z 10000)).

Definition packet_reordered (sequence_distance : Z) (s : StatisticsCalculator)
    : StatisticsCalculator :=
  let n := network_stats s in
  let n1 := n <| reordered_packets := reordered_packets n +u32 1 |>
              <| total_packets_received := total_packets_received n +u32 1 |> in
  let n2 := if max_reorder_distance n1 <? sequence_distance
            then n1 <| max_reorder_distance := sequence_distance |> else n1 in
  s <| network_stats := n2 <| reorder_rate_permyriad :=
         permyriad (reordered_packets n2) (total_packets_received n2) |> |>.

Definition packet_in_order (s : StatisticsCalculator) : StatisticsCalculator :=
  let n := network_stats s in
  let n1 := n <| total_packets_received := total_packets_received n +u32 1 |> in
  s <| network_stats := n1 <| reorder_rate_permyriad :=
         permyriad (reordered_packets n1) (total_packets_received n1) |> |>.

Definition uptime (now : Z) (s : StatisticsCalculator) : Z := duration_since now (start_time s).

Definition stats_reset (now : Z) (s : StatisticsCalculator) : StatisticsCalculator := stats_new now.

(** ** Properties *)

Lemma sortZ_perm (l : list Z) : sortZ l ≡ₚ l.
Proof. apply merge_sort_Permutation. Qed.

#[export] Instance Zle_total : Total Z.le.
Proof. intros x y. lia. Qed.

Lemma sortZ_sorted (l : list Z) : StronglySorted Z.le (sortZ l).
Proof. apply StronglySorted_merge_sort; [intros x y z; lia | apply _]. Qed.

Lemma StronglySorted_lookup_le (l : list Z) (i j : nat) (x y : Z) :
  StronglySorted Z.le l -> l !! i = Some x -> l !! j = Some y -> (i <= j)%nat -> x <= y.
Proof.
  intros Hs Hi Hj Hij. destruct (decide (i = j)) as [->|]; [simplify_eq; lia |].
  eapply (StronglySorted_lookup Z.le); eauto. lia.
Qed.

(** The window of waiting times holds the last hundred. *)
Definition stats_wf (s : StatisticsCalculator) : Prop :=
  (length (waiting_times s) <= 100)%nat /\ length (operation_counts s) = 9%nat.

Lemma packet_arrived_window (d : Z) (s : StatisticsCalculator) :
  waiting_times (packet_arrived d s) =
    (if bool_decide (100 <= length (waiting_times s))%nat
     then tail (waiting_times s ++ [d]) else waiting_times s ++ [d]).
Proof.
  unfold packet_arrived, update_waiting_time_stats. simpl. rewrite length_app; simpl.
  repeat case_bool_decide; try lia; simpl; by destruct (waiting_times s) as [|? [|]].
Qed.

Lemma update_waiting_times (s : StatisticsCalculator) :
  waiting_times (update_waiting_time_stats s) = waiting_times s.
Proof. unfold update_waiting_time_stats. by destruct (waiting_times s) eqn:E. Qed.

(** The summary written after a packet arrives describes the new window. *)
Lemma waiting_stats_lookup (s : StatisticsCalculator) :
  waiting_times s <> [] ->
  let s' := update_waiting_time_stats s in
  let sorted := sortZ (waiting_times s) in
  sorted !! 0%nat = Some (min_waiting_time_ms (network_stats s')) /\
  sorted !! (length sorted - 1)%nat = Some (max_waiting_time_ms (network_stats s')) /\
  sorted !! (length sorted / 2)%nat = Some (median_waiting_time_ms (network_stats s')).
Proof.
  intros Hne. unfold update_waiting_time_stats.
  destruct (waiting_times s) as [|w l] eqn:Hw; [done |]. rewrite <- Hw in *. simpl.
  set (sorted := sortZ (waiting_times s)).
  assert (length sorted = S (length l)) as Hlen.
  { unfold sorted. rewrite (sortZ_perm (waiting_times s)). by rewrite Hw. }
  split_and!.
  - rewrite <- head_lookup. destruct sorted; [done | reflexivity].
  - rewrite Nat.sub_1_r, <- last_lookup. destruct (last sorted) eqn:E; [done |].
    apply last_None in E. by rewrite E in Hlen.
  - destruct (lookup_lt_is_Some_2 sorted (length sorted / 2)) as [m Hm]; [|by rewrite Hm].
    apply Nat.div_lt; lia.
Qed.

(** After every packet arrival the window holds the arrival last and at most
    the hundred latest waiting times, and the published minimum, median and
    maximum are elements of the window in that order, with every waiting time
    of the window between the minimum and the maximum. *)
Theorem packet_arrived_statistics (d : Z) (s : StatisticsCalculator) :
  (length (waiting_times s) <= 100)%nat ->
  let s' := packet_arrived d s in
  let n := network_stats s' in
  (length (waiting_times s') <= 100)%nat /\ last (waiting_times s') = Some d /\
  min_waiting_time_ms n <= median_waiting_time_ms n <= max_waiting_time_ms n /\
  median_waiting_time_ms n ∈ waiting_times s' /\
  Forall (fun w => min_waiting_time_ms n <= w <= max_waiting_time_ms n) (waiting_times s').
Proof.
  intros Hlen s' n.
  assert (last (waiting_times s') = Some d /\ (length (waiting_times s') <= 100)%nat)
    as [Hlast Hbound].
  { unfold s'. rewrite packet_arrived_window. case_bool_decide as Hb.
    - destruct (waiting_times s) as [|w l]; [simpl in Hb; lia |]. simpl in *.
      rewrite last_snoc, length_app. simpl. split; [done | lia].
    - rewrite last_snoc, length_app. simpl. split; [done | lia]. }
  assert (waiting_times s' <> []) as Hne by (intros E; by rewrite E in Hlast).
  assert (exists s2, s' = update_waiting_time_stats s2 /\ waiting_times s2 = waiting_times s')
    as (s2 & Es & Ew).
  { eexists. split; [reflexivity |]. unfold s', packet_arrived.
    by rewrite update_waiting_times. }
  rewrite <- Ew in Hne. pose proof (waiting_stats_lookup s2 Hne) as (Hmin & Hmax & Hmed).
  rewrite <- Es in Hmin, Hmax, Hmed. fold n in Hmin, Hmax, Hmed. rewrite Ew in *.
  set (sorted := sortZ (waiting_times s')) in *.
  pose proof (sortZ_sorted (waiting_times s')) as Hs. fold sorted in Hs.
  assert (0 < length sorted)%nat by (by apply lookup_lt_Some in Hmin).
  split_and!; [done | done | | | |].
  - eapply (StronglySorted_lookup_le sorted 0); eauto. lia.
  - eapply (StronglySorted_lookup_le sorted); eauto.
    pose proof (Nat.Div0.div_lt_upper_bound (length sorted) 2 (length sorted)). lia.
  - rewrite <- (sortZ_perm (waiting_times s')). by eapply list_elem_of_lookup_2.
  - apply Forall_forall. intros w Hw. rewrite <- (sortZ_perm (waiting_times s')) in Hw.
    apply list_elem_of_lookup in Hw as [i Hi]. change (sorted !! i = Some w) in Hi.
    pose proof (lookup_lt_Some _ _ _ Hi).
    split; eapply (StronglySorted_lookup_le sorted); eauto; lia.
Qed.

Lemma packet_arrived_statistics_witness :
  let s := packet_arrived 40 (packet_arrived 10 (stats_new 0)) in
  let s' := packet_arrived 20 s in
  let n := network_stats s' in
  (length (waiting_times s') <= 100)%nat /\ last (waiting_times s') = Some 20 /\
  min_waiting_time_ms n <= median_waiting_time_ms n <= max_waiting_time_ms n /\
  median_waiting_time_ms n ∈ waiting_times s' /\
  Forall (fun w => min_waiting_time_ms n <= w <= max_waiting_time_ms n) (waiting_times s').
Proof. apply packet_arrived_statistics. vm_compute. lia. Defined.

(** [record_decode_operation] indexes an array of nine counters with one of
    twelve operations: it panics exactly for comfort noise, DTMF and undefined
    operations. *)
Theorem record_decode_operation_panics (op : Operation) (now : Z) (s : StatisticsCalculator) :
  length (operation_counts s) = 9%nat ->
  record_decode_operation op now s = None <-> op ∈ [ComfortNoise; Dtmf; Undefined].
Proof.
  intros Hlen. unfold record_decode_operation.
  destruct (operation_counts s !! operation_index op) eqn:E.
  - apply lookup_lt_Some in E. rewrite Hlen in E. split; [done |].
    rewrite !elem_of_cons. intros [->|[->|[->|[]%elem_of_nil]]]; simpl in E; lia.
  - apply lookup_ge_None in E. rewrite Hlen in E. split; [|done]. intros _.
    destruct op; simpl in E; try lia; set_solver.
Qed.

Lemma record_decode_operation_witness :
  record_decode_operation Dtmf 0 (stats_new 0) = None <-> Dtmf ∈ [ComfortNoise; Dtmf; Undefined].
Proof. apply record_decode_operation_panics. reflexivity. Defined.

(** The published rates are shifted against the counters: the accelerate rate
    is the count of expand starts, the pre-emptive rate the one of accelerates,
    and the comfort-noise, DTMF and undefined rates the ones of fast
    accelerates, pre-emptive expands and time-stretch buffer reads. *)
Lemma operation_rates_shifted (now : Z) (s : StatisticsCalculator) :
  let elapsed := as_secs_f32 (duration_since now (last_operation_update s)) in
  let count op := F32.of_Z (default 0 (operation_counts s !! operation_index op)) in
  let c := operation_counters (network_stats (update_operation_rates now s)) in
  flt (F32.of_Z 0) elapsed = true ->
  accelerate_per_sec c = F32.div (count ExpandStart) elapsed /\
  preemptive_expand_per_sec c = F32.div (count Accelerate) elapsed /\
  comfort_noise_per_sec c = F32.div (count FastAccelerate) elapsed /\
  dtmf_per_sec c = F32.div (count PreemptiveExpand) elapsed /\
  undefined_per_sec c = F32.div (count TimeStretchBuffer) elapsed.
Proof. intros elapsed count c H. unfold c, update_operation_rates. fold elapsed. by rewrite H. Qed.

(** Reordered packets never outnumber the received ones before the 32-bit
    counters wrap. *)
Definition reorder_wf (s : StatisticsCalculator) : Prop :=
  0 <= reordered_packets (network_stats s) <= total_packets_received (network_stats s) /\
  total_packets_received (network_stats s) < 2 ^ 32.

Lemma reorder_wf_step (s : StatisticsCalculator) (d : Z) :
  reorder_wf s -> total_packets_received (network_stats s) + 1 < 2 ^ 32 ->
  reorder_wf (packet_reordered d s) /\ reorder_wf (packet_in_order s).
Proof.
  unfold reorder_wf, packet_reordered, packet_in_order. intros [H1 H2] H3.
  split; simpl; [break_if; simpl|]; rewrite ?wrap_u_small by (unfold u_in; lia); lia.
Qed.
