(* ===== verification/PacketBuffer.v ===== *)
(** * The audio packet buffer (neteq/src/packet.rs, error.rs, buffer.rs)

    RTP packets ordered by timestamp in a [VecDeque], with duplicate
    suppression, stale-packet removal and smart flushing. All the reads of the
    clock within one operation are one argument [now]; [None] stands for a
    panic (a division by a zero sample rate or an index out of range). *)
From S2P Require Import Prelude Floats Statistics.

(** ** error.rs *)

Inductive NetEqError : Type :=
| InvalidConfig (s : string)
| BufferFull
| ErrBufferEmpty
| ErrInvalidPacket (s : string)
| InvalidTimestamp
| DecoderError (s : string)
| TimeStretchError (s : string)
| InvalidSampleRate (hz : Z)
| InvalidChannelCount (n : Z)
| AudioFormatMismatch.

(** ** packet.rs *)

Record RtpHeader : Type := mkRtpHeader {
  sequence_number : Z;
  timestamp : Z;
  ssrc : Z;
  payload_type : Z;
  marker : bool;
}.

Definition is_sequence_newer (h : RtpHeader) (other_seq : Z) : bool :=
  wrap_u 16 (sequence_number h - other_seq) <? 0x8000.

Definition is_timestamp_newer (h : RtpHeader) (other_timestamp : Z) : bool :=
  (timestamp h -u32 other_timestamp) <? 0x80000000.

Record AudioPacket : Type := mkAudioPacket {
  header : RtpHeader;
  payload : list Z;
  arrival_time : Z;
  sample_rate : Z;
  channels : Z;
  duration_ms : Z;
}.

(** [AudioPacket::new] with the clock reading it takes. *)
Definition packet_new (h : RtpHeader) (data : list Z) (rate chans dur now : Z) : AudioPacket :=
  mkAudioPacket h data now rate chans dur.

Definition payload_size (p : AudioPacket) : Z := Z.of_nat (length (payload p)).

Definition age (now : Z) (p : AudioPacket) : Z := duration_since now (arrival_time p).

Definition is_older_than (now : Z) (p : AudioPacket) (max_age : Z) : bool := max_age <? age now p.

Definition expected_samples (p : AudioPacket) : Z :=
  wrap_u 64 ((sample_rate p *u64 duration_ms p) / 1000 * channels p).

(** ** buffer.rs: configuration and state *)

Record SmartFlushConfig : Type := mkSmartFlushConfig {
  target_level_threshold_ms : Z;
  target_level_multiplier : Z;
}.

Definition smart_flush_default : SmartFlushConfig := mkSmartFlushConfig 500 3.

Inductive BufferReturnCode : Type :=
| RcOk | RcFlushed | RcPartialFlush | RcNotFound | RcBufferEmpty | RcInvalidPacket.

Record PacketBuffer : Type := mkPacketBuffer {
  max_packets : nat;
  buffer : list AudioPacket;
  smart_flush_config : SmartFlushConfig;
  max_packet_age : Z;
}.

#[export] Instance eta_PacketBuffer : Eta PacketBuffer := fun r =>
  mkPacketBuffer (max_packets r) (buffer r) (smart_flush_config r) (max_packet_age r).

Definition pb_with_config (max : nat) (cfg : SmartFlushConfig) : PacketBuffer :=
  mkPacketBuffer max [] cfg (from_secs 2).

Definition pb_new (max : nat) : PacketBuffer := pb_with_config max smart_flush_default.

Definition set_max_packet_age (max_age : Z) (pb : PacketBuffer) : PacketBuffer :=
  pb <| max_packet_age := max_age |>.

Definition pb_is_empty (pb : PacketBuffer) : bool :=
  match buffer pb with [] => true | _ => false end.

Definition pb_len (pb : PacketBuffer) : nat := length (buffer pb).

Definition utilization (pb : PacketBuffer) : float :=
  F32.mul (F32.div (F32.of_Z (Z.of_nat (pb_len pb))) (F32.of_Z (Z.of_nat (max_packets pb))))
    (F32.of_Z 100).

(** ** buffer.rs: operations *)

Definition pb_flush (pb : PacketBuffer) (stats : StatisticsCalculator)
    : PacketBuffer * StatisticsCalculator :=
  let flushed_count := pb_len pb in
  (pb <| buffer := [] |>,
   if bool_decide (0 < flushed_count)%nat then buffer_flush stats else stats).

(** The loop of [partial_flush] that counts the packets to keep, newest first. *)
Fixpoint keep_loop (target_duration current_duration : Z) (newest_first : list AudioPacket) : nat :=
  match newest_first with
  | [] => 0%nat
  | p :: rest =>
      let current := current_duration + from_millis (duration_ms p) in
      if target_duration <=? current then 1%nat
      else S (keep_loop target_duration current rest)
  end.

(** Popping packets off the front, each one recorded as discarded. *)
Definition discard_all (now max_age : Z) (ps : list AudioPacket) (stats : StatisticsCalculator)
    : StatisticsCalculator :=
  foldl (fun s p => packet_discarded (is_older_than now p max_age) s) stats ps.

Definition partial_flush (now target_level_ms : Z) (pb : PacketBuffer)
    (stats : StatisticsCalculator)
    : PacketBuffer * StatisticsCalculator * result BufferReturnCode NetEqError :=
  if pb_is_empty pb then (pb, stats, Ok RcBufferEmpty)
  else
    let keep_count := keep_loop (from_millis target_level_ms) 0 (reverse (buffer pb)) in
    let remove_count := (pb_len pb - keep_count)%nat in
    if bool_decide (0 < remove_count)%nat then
      (pb <| buffer := drop remove_count (buffer pb) |>,
       discard_all now (max_packet_age pb) (take remove_count (buffer pb)) stats,
       Ok RcPartialFlush)
    else (pb, stats, Ok RcOk).

Definition discard_old_packets (now : Z) (pb : PacketBuffer) (stats : StatisticsCalculator)
    : PacketBuffer * StatisticsCalculator :=
  let keep p := is_older_than now p (max_packet_age pb) = false in
  (pb <| buffer := filter keep (buffer pb) |>,
   foldl (fun s p => if is_older_than now p (max_packet_age pb)
                     then packet_discarded true s else s) stats (buffer pb)).

Definition discard_old_packets_by_timestamp (timestamp_limit : Z) (pb : PacketBuffer)
    (stats : StatisticsCalculator) : PacketBuffer * StatisticsCalculator :=
  (pb <| buffer := filter (fun p => timestamp_limit <= timestamp (header p)) (buffer pb) |>,
   foldl (fun s p => if timestamp_limit <=? timestamp (header p)
                     then s else packet_discarded true s) stats (buffer pb)).

(** The span of the timestamps in milliseconds, in 32-bit arithmetic. *)
Definition get_span_duration_ms (pb : PacketBuffer) : option Z :=
  match head (buffer pb), last (buffer pb) with
  | Some oldest, Some newest =>
      let oldest_ts := timestamp (header oldest) in
      let newest_ts := timestamp (header newest) in
      let span_samples :=
        if oldest_ts <=? newest_ts then newest_ts - oldest_ts
        else ((u_max 32 - oldest_ts) +u32 newest_ts) +u32 1 in
      if sample_rate oldest =? 0 then None
      else Some ((span_samples *u32 1000) / sample_rate oldest)
  | _, _ => Some 0
  end.

Definition get_total_content_duration_ms (pb : PacketBuffer) : Z :=
  wrap_u 32 (sumZ (duration_ms <$> buffer pb)).

Definition num_samples_in_buffer (pb : PacketBuffer) : Z :=
  wrap_u 64 (sumZ (expected_samples <$> buffer pb)).

Definition should_smart_flush (target_level_ms : Z) (pb : PacketBuffer) : option bool :=
  if pb_is_empty pb then Some false
  else
    match get_span_duration_ms pb with
    | None => None
    | Some current_span_ms =>
        let cfg := smart_flush_config pb in
        let flush_threshold :=
          Z.max (target_level_threshold_ms cfg) target_level_ms *u32 target_level_multiplier cfg in
        Some (flush_threshold <? current_span_ms)
    end.

(** The binary search of [find_insert_position]; [None] when the fuel runs out
    or an index is out of range (see [find_insert_position_upper_bound]). *)
Fixpoint bsearch (fuel : nat) (buf : list AudioPacket) (ts : Z) (low high : nat) : option nat :=
  if bool_decide (low < high)%nat then
    match fuel with
    | O => None
    | S fuel' =>
        let mid := ((low + high) / 2)%nat in
        match buf !! mid with
        | None => None
        | Some p => if timestamp (header p) <=? ts
                    then bsearch fuel' buf ts (mid + 1)%nat high
                    else bsearch fuel' buf ts low mid
        end
    end
  else Some low.

Definition find_insert_position (packet : AudioPacket) (pb : PacketBuffer) : option nat :=
  bsearch (pb_len pb) (buffer pb) (timestamp (header packet)) 0 (pb_len pb).

(** The three header fields that identify a packet. *)
Definition same_packet (p q : AudioPacket) : bool :=
  (timestamp (header p) =? timestamp (header q)) &&
  (sequence_number (header p) =? sequence_number (header q)) &&
  (ssrc (header p) =? ssrc (header q)).

Definition is_duplicate (packet : AudioPacket) (insert_pos : nat) (pb : PacketBuffer) : bool :=
  let check_positions :=
    [(insert_pos - 1)%nat; insert_pos; Nat.min (insert_pos + 1) (pb_len pb - 1)] in
  existsb (fun pos => match buffer pb !! pos with
                      | Some existing => same_packet existing packet
                      | None => false
                      end) check_positions.

Definition calculate_arrival_delay (insert_pos : nat) : Z :=
  if bool_decide (insert_pos = 0%nat) then 0
  else wrap_i 32 (wrap_i 32 (Z.of_nat insert_pos) * 10).

(** The first half of [insert_packet]: stale packets, smart flush, overflow. *)
Definition make_room (now target_level_ms : Z) (pb : PacketBuffer) (stats : StatisticsCalculator)
    : option (PacketBuffer * StatisticsCalculator) :=
  let '(pb1, stats1) := discard_old_packets now pb stats in
  match should_smart_flush target_level_ms pb1 with
  | None => None
  | Some smart =>
      let '(pb2, stats2) :=
        if smart then fst (partial_flush now target_level_ms pb1 stats1) else (pb1, stats1) in
      if bool_decide (max_packets pb2 <= pb_len pb2)%nat then
        let '(pb3, stats3) := fst (partial_flush now target_level_ms pb2 stats2) in
        if bool_decide (max_packets pb3 <= pb_len pb3)%nat then
          let '(pb4, stats4) := pb_flush pb3 stats3 in Some (pb4, buffer_flush stats4)
        else Some (pb3, stats3)
      else Some (pb2, stats2)
  end.

(** The second half: position, duplicate check, reorder statistics, insertion. *)
Definition place_packet (packet : AudioPacket) (pb : PacketBuffer) (stats : StatisticsCalculator)
    : option (PacketBuffer * StatisticsCalculator) :=
  match find_insert_position packet pb with
  | None => None
  | Some insert_pos =>
      if is_duplicate packet insert_pos pb then Some (pb, packet_discarded false stats)
      else
        let stats1 := if bool_decide (insert_pos < pb_len pb)%nat
          then packet_reordered (wrap_u 16 (Z.of_nat (pb_len pb - insert_pos))) stats
          else packet_in_order stats in
        let pb1 := pb <| buffer := take insert_pos (buffer pb) ++ packet ::
                                   drop insert_pos (buffer pb) |> in
        Some (pb1, packet_arrived (calculate_arrival_delay insert_pos) stats1)
  end.

Definition insert_packet (now : Z) (packet : AudioPacket) (target_level_ms : Z)
    (pb : PacketBuffer) (stats : StatisticsCalculator)
    : option (PacketBuffer * StatisticsCalculator * result BufferReturnCode NetEqError) :=
  match make_room now target_level_ms pb stats with
  | None => None
  | Some (pb1, stats1) =>
      match place_packet packet pb1 stats1 with
      | None => None
      | Some (pb2, stats2) => Some (pb2, stats2, Ok RcOk)
      end
  end.

Definition peek_next_timestamp (pb : PacketBuffer) : option Z :=
  (fun p => timestamp (header p)) <$> head (buffer pb).

Definition peek_next_packet_from_timestamp (ts : Z) (pb : PacketBuffer) : option AudioPacket :=
  head (filter (fun p => ts <= timestamp (header p)) (buffer pb)).

Definition get_next_packet (pb : PacketBuffer) : PacketBuffer * option AudioPacket :=
  (pb <| buffer := tail (buffer pb) |>, head (buffer pb)).

Definition discard_next_packet (now : Z) (pb : PacketBuffer) (stats : StatisticsCalculator)
    : PacketBuffer * StatisticsCalculator * result BufferReturnCode NetEqError :=
  match buffer pb with
  | p :: rest =>
      (pb <| buffer := rest |>,
       packet_discarded (is_older_than now p (max_packet_age pb)) stats, Ok RcOk)
  | [] => (pb, stats, Ok RcBufferEmpty)
  end.
