(* ===== verification/PacketBufferProps.v ===== *)
(** * Correctness of the audio packet buffer

    The binary search against its specification, the ordering and capacity
    invariant of [insert_packet], what an insertion may lose, the partial flush
    as a shortest suffix, duplicate suppression, and the behaviour at the
    wrap-around of RTP timestamps. *)
From S2P Require Import Prelude Floats Statistics PacketBuffer.

Definition ts (p : AudioPacket) : Z := timestamp (header p).

Definition ts_le (p q : AudioPacket) : Prop := ts p <= ts q.

(** Packets in timestamp order. *)
Definition ordered (buf : list AudioPacket) : Prop := StronglySorted ts_le buf.

(** The invariant of the buffer: ordered, within capacity, every packet with a
    sample rate. *)
Record pb_wf (pb : PacketBuffer) : Prop := mk_pb_wf {
  pbw_ordered : ordered (buffer pb);
  pbw_cap : (pb_len pb <= max_packets pb)%nat;
  pbw_rate : Forall (fun p => 0 < sample_rate p) (buffer pb);
}.

(** The number of packets at or before a timestamp: where a new one goes. *)
Definition upper_bound (t : Z) (buf : list AudioPacket) : nat :=
  length (filter (fun p => ts p <= t) buf).

(** ** Ordered buffers *)

Lemma ordered_cons (p : AudioPacket) (buf : list AudioPacket) :
  ordered (p :: buf) <-> ordered buf /\ Forall (ts_le p) buf.
Proof.
  split; [by intros H; apply StronglySorted_inv in H |]. intros []. by constructor.
Qed.

Lemma ordered_filter (P : AudioPacket -> Prop) `{!forall p, Decision (P p)}
    (buf : list AudioPacket) : ordered buf -> ordered (filter P buf).
Proof.
  induction buf as [|p buf IH]; [done |]. rewrite ordered_cons. intros [Ho Hf].
  rewrite filter_cons. case_decide; [|auto]. apply ordered_cons. auto with vc.
Qed.

Lemma ordered_drop (n : nat) (buf : list AudioPacket) : ordered buf -> ordered (drop n buf).
Proof.
  revert n. induction buf as [|p buf IH]; intros [|n]; try done.
  rewrite ordered_cons. intros []. simpl. auto.
Qed.

(** In an ordered buffer the packets up to [t] are exactly a prefix. *)
Lemma upper_bound_lookup (t : Z) (buf : list AudioPacket) (i : nat) (p : AudioPacket) :
  ordered buf -> buf !! i = Some p -> ts p <= t <-> (i < upper_bound t buf)%nat.
Proof.
  unfold upper_bound. revert i. induction buf as [|q buf IH]; intros i; [done |].
  rewrite ordered_cons. intros [Ho Hf]. rewrite filter_cons.
  destruct i as [|i]; simpl; intros Hi; simplify_eq.
  - case_decide as Hd; simpl; [lia |]. rewrite filter_keep_none; [simpl; lia |].
    eapply Forall_impl; [exact Hf |]. unfold ts_le. simpl; lia.
  - pose proof (Forall_elem _ _ _ Hf (list_elem_of_lookup_2 _ _ _ Hi)). unfold ts_le in *.
    case_decide as Hd; simpl; [rewrite IH by done; lia |].
    rewrite filter_keep_none; [simpl; lia |].
    eapply Forall_impl; [exact Hf |]. unfold ts_le. simpl; lia.
Qed.

Lemma upper_bound_le (t : Z) (buf : list AudioPacket) : (upper_bound t buf <= length buf)%nat.
Proof. apply length_filter. Qed.

Lemma ordered_insert (p : AudioPacket) (buf : list AudioPacket) :
  ordered buf ->
  ordered (take (upper_bound (ts p) buf) buf ++ p :: drop (upper_bound (ts p) buf) buf).
Proof.
  intros Ho. pose proof Ho as Ho'. set (n := upper_bound (ts p) buf).
  rewrite <- (take_drop n buf) in Ho'. apply StronglySorted_app in Ho' as (H1 & H2 & H3).
  assert (forall x, x ∈ take n buf -> ts x <= ts p) as Htake.
  { intros x [i Hi]%list_elem_of_lookup. apply lookup_take_Some in Hi as [Hi Hlt].
    pose proof (upper_bound_lookup (ts p) buf _ _ Ho Hi). unfold n in *. lia. }
  assert (forall x, x ∈ drop n buf -> ts p < ts x) as Hdrop.
  { intros x [i Hi]%list_elem_of_lookup. rewrite lookup_drop in Hi.
    pose proof (upper_bound_lookup (ts p) buf _ _ Ho Hi). unfold n in *. lia. }
  apply StronglySorted_app. split_and!; [|done|].
  - intros x1 x2 Hx1 [->|Hx2]%elem_of_cons; [by apply Htake | auto].
  - constructor; [done |]. apply Forall_forall. intros x Hx. apply Hdrop in Hx.
    unfold ts_le. lia.
Qed.

(** ** The binary search *)

Lemma bsearch_upper_bound (fuel : nat) (buf : list AudioPacket) (t : Z) (low high : nat) :
  ordered buf ->
  (low <= upper_bound t buf <= high)%nat -> (high <= length buf)%nat -> (high - low <= fuel)%nat ->
  bsearch fuel buf t low high = Some (upper_bound t buf).
Proof.
  intros Ho. revert low high. induction fuel as [|fuel IH]; intros low high Hb Hh Hf; cbn [bsearch].
  - rewrite bool_decide_false by lia. f_equal; lia.
  - case_bool_decide as Hlt; [|f_equal; lia].
    assert (low <= (low + high) / 2 < high)%nat as Hmid.
    { split; [apply Nat.div_le_lower_bound; lia | apply Nat.Div0.div_lt_upper_bound; lia]. }
    destruct (lookup_lt_is_Some_2 buf ((low + high) / 2)%nat) as [p Hp]; [lia |].
    rewrite Hp. pose proof (upper_bound_lookup t buf _ _ Ho Hp) as Hub. unfold ts in Hub.
    destruct (Z.leb_spec (timestamp (header p)) t); apply IH; lia.
Qed.

Lemma find_insert_position_spec (p : AudioPacket) (pb : PacketBuffer) :
  ordered (buffer pb) -> find_insert_position p pb = Some (upper_bound (ts p) (buffer pb)).
Proof.
  intros Ho. pose proof (upper_bound_le (ts p) (buffer pb)).
  apply bsearch_upper_bound; unfold pb_len; auto; lia.
Qed.

(** ** Flushing *)

Lemma keep_loop_le (target cur : Z) (l : list AudioPacket) :
  (keep_loop target cur l <= length l)%nat.
Proof.
  revert cur. induction l as [|p l IH]; intros cur; simpl; [lia |].
  destruct (_ <=? _); [lia |]. specialize (IH (cur + from_millis (duration_ms p))). lia.
Qed.

Lemma keep_loop_pos (target cur : Z) (l : list AudioPacket) :
  l <> [] -> (1 <= keep_loop target cur l)%nat.
Proof. destruct l; [done |]. simpl. destruct (_ <=? _); lia. Qed.

(** Milliseconds of audio in a list of packets. *)
Definition content_ms (l : list AudioPacket) : Z := sumZ (duration_ms <$> l).

Lemma content_ms_app (l k : list AudioPacket) : content_ms (l ++ k) = content_ms l + content_ms k.
Proof. unfold content_ms. by rewrite fmap_app, sumZ_app. Qed.

Lemma content_ms_cons (p : AudioPacket) (l : list AudioPacket) :
  content_ms (p :: l) = duration_ms p + content_ms l.
Proof. done. Qed.

(** The loop counts the shortest run of newest packets that reaches the target. *)
Lemma keep_loop_spec (target cur : Z) (l : list AudioPacket) :
  let n := keep_loop (from_millis target) (from_millis cur) l in
  (target <= cur + content_ms (take n l) \/ n = length l) /\
  (forall m, (0 < m < n)%nat -> cur + content_ms (take m l) < target).
Proof.
  revert cur. induction l as [|p l IH]; intros cur; simpl; [split; [auto | lia] |].
  assert (from_millis cur + from_millis (duration_ms p) = from_millis (cur + duration_ms p)) as ->
    by (unfold from_millis; lia).
  destruct (Z.leb_spec (from_millis target) (from_millis (cur + duration_ms p))) as [Hle|Hgt];
    unfold from_millis, NS_PER_MS in Hle || unfold from_millis, NS_PER_MS in Hgt.
  - split; [left; rewrite firstn_cons, content_ms_cons; unfold content_ms; simpl; lia | lia].
  - destruct (IH (cur + duration_ms p)) as [H1 H2]. split.
    + destruct H1 as [H1 | ->]; [left | auto]. rewrite firstn_cons, content_ms_cons. lia.
    + intros [|m] Hm; [lia |]. rewrite firstn_cons, content_ms_cons.
      destruct m as [|m]; [unfold content_ms; simpl; lia |]. specialize (H2 (S m)). lia.
Qed.

Lemma discard_all_count (now age : Z) (ps : list AudioPacket) (s : StatisticsCalculator) :
  u_in 64 (discarded_primary_packets (operation_stats s)) ->
  discarded_primary_packets (operation_stats (discard_all now age ps s)) =
    discarded_primary_packets (operation_stats s) +u64 Z.of_nat (length ps).
Proof.
  unfold discard_all. revert s. induction ps as [|p ps IH]; intros s Hs; simpl.
  - rewrite Z.add_0_r, wrap_u_small; done.
  - assert (discarded_primary_packets (operation_stats
        (packet_discarded (is_older_than now p age) s)) =
      discarded_primary_packets (operation_stats s) +u64 1) as E
      by (unfold packet_discarded; by destruct (is_older_than now p age)).
    rewrite IH; rewrite E; [|by apply wrap_u_range].
    unfold wrap_u. rewrite Z.add_mod_idemp_l by lia. f_equal. lia.
Qed.

(** What a flush step leaves: a sublist of the packets, in the same buffer. *)
Definition shrinks (pb pb' : PacketBuffer) : Prop :=
  buffer pb' `sublist_of` buffer pb /\ max_packets pb' = max_packets pb.

Lemma shrinks_refl (pb : PacketBuffer) : shrinks pb pb.
Proof. by split. Qed.

Lemma shrinks_trans (a b c : PacketBuffer) : shrinks a b -> shrinks b c -> shrinks a c.
Proof. intros [] []. split; [by etrans | congruence]. Qed.

Lemma ordered_sublist (l k : list AudioPacket) : l `sublist_of` k -> ordered k -> ordered l.
Proof.
  induction 1 as [|p l k Hs IH|p l k Hs IH]; [done | |]; rewrite ordered_cons; intros [Ho Hf]; auto.
  apply ordered_cons. split; [auto |]. apply Forall_forall. intros q Hq.
  exact (Forall_elem _ _ _ Hf (elem_of_sublist _ _ _ Hq Hs)).
Qed.

Lemma shrinks_wf (pb pb' : PacketBuffer) : shrinks pb pb' -> pb_wf pb -> pb_wf pb'.
Proof.
  intros [Hs Hm] [Ho Hc Hr]. split; [by eapply ordered_sublist | |].
  - unfold pb_len in *. rewrite Hm. apply sublist_length in Hs. lia.
  - rewrite Forall_forall in Hr |- *. intros q Hq. apply Hr.
    by eapply elem_of_sublist.
Qed.

Lemma discard_old_shrinks (now : Z) (pb : PacketBuffer) (s : StatisticsCalculator) :
  shrinks pb (discard_old_packets now pb s).1.
Proof. split; [apply sublist_filter | done]. Qed.

Lemma partial_flush_shrinks (now t : Z) (pb : PacketBuffer) (s : StatisticsCalculator) :
  shrinks pb (partial_flush now t pb s).1.1.
Proof.
  unfold partial_flush. destruct (pb_is_empty pb); [apply shrinks_refl |].
  case_bool_decide; [|apply shrinks_refl]. split; [apply sublist_drop | done].
Qed.

Lemma should_smart_flush_total (t : Z) (pb : PacketBuffer) :
  Forall (fun p => 0 < sample_rate p) (buffer pb) -> exists b, should_smart_flush t pb = Some b.
Proof.
  intros Hr. unfold should_smart_flush, get_span_duration_ms, pb_is_empty.
  destruct (buffer pb) as [|p l]; [eauto |]. apply Forall_cons in Hr as [Hp _]. simpl.
  destruct (last (p :: l)) as [q|]; [|eauto].
  destruct (Z.eqb_spec (sample_rate p) 0); [lia | eauto].
Qed.

(** Making room never fails, only removes packets, and leaves a free place. *)
Lemma make_room_spec (now t : Z) (pb : PacketBuffer) (s : StatisticsCalculator) :
  pb_wf pb -> (1 <= max_packets pb)%nat ->
  exists pb' s', make_room now t pb s = Some (pb', s') /\ shrinks pb pb' /\
    (pb_len pb' < max_packets pb')%nat.
Proof.
  intros Hwf Hmax. unfold make_room.
  pose proof (discard_old_shrinks now pb s) as H1.
  destruct (discard_old_packets now pb s) as [pb1 s1]; simpl in H1.
  destruct (should_smart_flush_total t pb1) as [b ->]; [by destruct (shrinks_wf _ _ H1 Hwf) |].
  assert (exists pb2 s2, (if b then (partial_flush now t pb1 s1).1 else (pb1, s1)) = (pb2, s2) /\
            shrinks pb1 pb2) as (pb2 & s2 & -> & H2).
  { destruct b; [|eauto using shrinks_refl]. pose proof (partial_flush_shrinks now t pb1 s1).
    destruct (partial_flush now t pb1 s1) as [[pb2 s2] r]; eauto. }
  pose proof (shrinks_trans _ _ _ H1 H2) as H12.
  case_bool_decide; [|eexists _, _; split_and!; eauto; lia].
  pose proof (partial_flush_shrinks now t pb2 s2) as H3.
  destruct (partial_flush now t pb2 s2) as [[pb3 s3] r]; simpl in H3 |- *.
  pose proof (shrinks_trans _ _ _ H12 H3) as [H13 Hm].
  case_bool_decide; [|eexists _, _; split_and!; eauto; [by split | lia]].
  eexists _, _; split_and!; eauto; simpl; [split; [apply sublist_nil_l | done] |].
  unfold pb_len; simpl. lia.
Qed.

(** Placing a packet: a duplicate leaves the buffer alone, anything else goes
    to its place in the order. *)
Lemma place_packet_spec (p : AudioPacket) (pb : PacketBuffer) (s : StatisticsCalculator) :
  ordered (buffer pb) ->
  let n := upper_bound (ts p) (buffer pb) in
  exists pb' s', place_packet p pb s = Some (pb', s') /\
    pb' = if is_duplicate p n pb then pb
          else pb <| buffer := take n (buffer pb) ++ p :: drop n (buffer pb) |>.
Proof.
  intros Ho n. unfold place_packet. rewrite find_insert_position_spec by done.
  fold n. destruct (is_duplicate p n pb); eauto.
Qed.

Lemma is_duplicate_elem (p : AudioPacket) (n : nat) (pb : PacketBuffer) :
  is_duplicate p n pb = true -> exists q, q ∈ buffer pb /\ same_packet q p = true.
Proof.
  unfold is_duplicate. rewrite existsb_exists. intros (i & _ & Hi).
  destruct (buffer pb !! i) as [q|] eqn:E; [|done]. eauto using list_elem_of_lookup_2.
Qed.

(** An insertion, end to end. *)
Lemma insert_packet_spec (now t : Z) (p : AudioPacket) (pb : PacketBuffer)
    (s : StatisticsCalculator) :
  pb_wf pb -> (1 <= max_packets pb)%nat -> 0 < sample_rate p ->
  exists pb' s' kept, insert_packet now p t pb s = Some (pb', s', Ok RcOk) /\ pb_wf pb' /\
    max_packets pb' = max_packets pb /\
    kept `sublist_of` buffer pb /\
    ((buffer pb' = kept /\ exists q, q ∈ kept /\ same_packet q p = true) \/
     buffer pb' ≡ₚ p :: kept).
Proof.
  intros Hwf Hmax Hrate. unfold insert_packet.
  destruct (make_room_spec now t pb s Hwf Hmax) as (pb1 & s1 & -> & Hsh & Hroom).
  pose proof (shrinks_wf _ _ Hsh Hwf) as [Ho Hc Hr]. destruct Hsh as [Hsub Hm].
  destruct (place_packet_spec p pb1 s1 Ho) as (pb2 & s2 & -> & ->).
  set (n := upper_bound (ts p) (buffer pb1)).
  eexists _, _, (buffer pb1). split; [reflexivity |].
  destruct (is_duplicate p n pb1) eqn:Hdup.
  - split_and!; [done | done | done |]. left. eauto using is_duplicate_elem.
  - assert (take n (buffer pb1) ++ p :: drop n (buffer pb1) ≡ₚ p :: buffer pb1) as Hperm.
    { rewrite <- Permutation_middle. by rewrite take_drop. }
    split_and!; simpl; [|done|done|by right]. split; simpl.
    + by apply ordered_insert.
    + unfold pb_len in *. simpl. rewrite Hperm. simpl. lia.
    + rewrite Hperm. by constructor.
Qed.

(** ** Duplicates *)

(** With no timestamp shared by several buffered packets, looking at the
    neighbours of the insertion point finds every duplicate. *)
Lemma is_duplicate_complete (p q : AudioPacket) (pb : PacketBuffer) :
  ordered (buffer pb) -> NoDup (ts <$> buffer pb) ->
  q ∈ buffer pb -> same_packet q p = true ->
  is_duplicate p (upper_bound (ts p) (buffer pb)) pb = true.
Proof.
  intros Ho Hnd [i Hi]%list_elem_of_lookup Hsame.
  pose proof Hsame as [[Hts _]%andb_true_iff _]%andb_true_iff. apply Z.eqb_eq in Hts.
  pose proof (upper_bound_lookup (ts p) _ _ _ Ho Hi) as Hub.
  pose proof (upper_bound_le (ts p) (buffer pb)) as Hlen.
  set (n := upper_bound (ts p) (buffer pb)) in *.
  assert (i = n - 1)%nat as ->.
  { assert (i < n)%nat by (apply Hub; unfold ts; lia).
    destruct (lookup_lt_is_Some_2 (buffer pb) (n - 1)) as [r Hr]; [lia |].
    assert (ts r <= ts p) by (eapply upper_bound_lookup; [exact Ho | exact Hr | lia]).
    assert (ts q <= ts r).
    { destruct (decide (i = n - 1)%nat) as [->|]; [simplify_eq; lia |].
      apply (StronglySorted_lookup ts_le _ i (n - 1) q r Ho Hi Hr). lia. }
    eapply NoDup_lookup; [exact Hnd | |].
    - rewrite list_lookup_fmap, Hi. reflexivity.
    - rewrite list_lookup_fmap, Hr. simpl. f_equal. unfold ts in *. lia. }
  unfold is_duplicate. simpl. fold n. rewrite Hi, Hsame. done.
Qed.

(** ** Properties *)

(** The binary search of [find_insert_position] terminates, never indexes
    out of range, and on an ordered buffer returns the number of packets whose
    timestamp is at most the new packet's: the position after all of them. *)
Theorem find_insert_position_upper_bound (p : AudioPacket) (pb : PacketBuffer) :
  ordered (buffer pb) -> find_insert_position p pb = Some (upper_bound (ts p) (buffer pb)).
Proof. apply find_insert_position_spec. Qed.

(** [insert_packet] never fails or panics on packets with a sample rate: it
    returns [Ok] and leaves the buffer in timestamp order and within its
    capacity, however full, stale or out of order the input. *)
Theorem insert_packet_invariant (now t : Z) (p : AudioPacket) (pb : PacketBuffer)
    (s : StatisticsCalculator) :
  pb_wf pb -> (1 <= max_packets pb)%nat -> 0 < sample_rate p ->
  exists pb' s', insert_packet now p t pb s = Some (pb', s', Ok RcOk) /\ pb_wf pb'.
Proof.
  intros Hwf Hmax Hr.
  destruct (insert_packet_spec now t p pb s Hwf Hmax Hr) as (pb' & s' & k & E & H & _). eauto.
Qed.

(** An insertion invents nothing and always accounts for the new packet:
    afterwards the buffer holds a subsequence of the old packets and either the
    new packet besides, or a packet with the same timestamp, sequence number
    and source already among them. *)
Theorem insert_packet_contents (now t : Z) (p : AudioPacket) (pb : PacketBuffer)
    (s : StatisticsCalculator) :
  pb_wf pb -> (1 <= max_packets pb)%nat -> 0 < sample_rate p ->
  exists pb' s' kept, insert_packet now p t pb s = Some (pb', s', Ok RcOk) /\
    kept `sublist_of` buffer pb /\
    ((buffer pb' = kept /\ exists q, q ∈ kept /\ same_packet q p = true) \/
     buffer pb' ≡ₚ p :: kept).
Proof.
  intros Hwf Hmax Hr.
  destruct (insert_packet_spec now t p pb s Hwf Hmax Hr) as (pb' & s' & k & E & _ & _ & ? & ?).
  eauto 6.
Qed.

Lemma content_ms_reverse (l : list AudioPacket) : content_ms (reverse l) = content_ms l.
Proof.
  unfold content_ms. rewrite fmap_reverse. apply sumZ_perm, reverse_Permutation.
Qed.

(** The newest packets as a suffix of the buffer. *)
Lemma take_newest (m : nat) (l : list AudioPacket) :
  content_ms (take m (reverse l)) = content_ms (drop (length l - m) l).
Proof. by rewrite take_reverse, content_ms_reverse. Qed.

(** A partial flush removes a prefix of the buffer and nothing else. What
    stays is the shortest run of newest packets that carries the target
    duration (everything, when the whole buffer does not reach it), at least
    one packet stays, and every packet removed is counted as discarded. *)
Theorem partial_flush_shortest_suffix (now target : Z) (pb : PacketBuffer)
    (s : StatisticsCalculator) :
  buffer pb <> [] -> u_in 64 (discarded_primary_packets (operation_stats s)) ->
  let '(pb', s', r) := partial_flush now target pb s in
  exists removed, buffer pb = removed ++ buffer pb' /\ buffer pb' <> [] /\
    (target <= content_ms (buffer pb') \/ removed = []) /\
    (removed <> [] -> forall p rest, buffer pb' = p :: rest -> rest <> [] ->
       content_ms rest < target) /\
    discarded_primary_packets (operation_stats s') =
      discarded_primary_packets (operation_stats s) +u64 Z.of_nat (length removed) /\
    r = Ok (match removed with [] => RcOk | _ => RcPartialFlush end).
Proof.
  intros Hne Hd. unfold partial_flush, pb_is_empty, pb_len.
  destruct (buffer pb) as [|p0 l0] eqn:Hb; [done |]. rewrite <- Hb.
  set (l := buffer pb) in *. set (n := keep_loop (from_millis target) 0 (reverse l)).
  pose proof (keep_loop_spec target 0 (reverse l)) as [Hreach Hmin].
  change (from_millis 0) with 0 in *. fold n in Hreach, Hmin.
  pose proof (keep_loop_le (from_millis target) 0 (reverse l)) as Hle. fold n in Hle.
  rewrite length_reverse in *.
  assert (1 <= n)%nat as Hpos.
  { apply keep_loop_pos. rewrite Hb. rewrite reverse_cons. by destruct (reverse l0). }
  case_bool_decide as Hrem; simpl.
  - exists (take (length l - n) l). rewrite take_drop.
    split_and!; [done | | | | |].
    + intros E%(f_equal length). rewrite length_drop in E. simpl in E. lia.
    + left. destruct Hreach as [Hr | Hr]; [rewrite take_newest in Hr; lia | lia].
    + intros _ p rest Hp Hrest. destruct (decide (n = 1%nat)) as [E|E].
      { exfalso. apply Hrest. apply (f_equal length) in Hp. rewrite length_drop in Hp.
        destruct rest; [done |]. simpl in Hp. lia. }
      specialize (Hmin (n - 1)%nat). rewrite take_newest in Hmin.
      assert (rest = drop (length l - (n - 1)) l) as ->; [|lia].
      replace (length l - (n - 1))%nat with (S (length l - n)) by lia.
      by rewrite <- Nat.add_1_r, <- drop_drop, Hp.
    + rewrite discard_all_count, length_take by done. by do 2 f_equal.
    + destruct (take (length l - n) l) eqn:E; [|done].
      apply (f_equal length) in E. rewrite length_take in E. simpl in E. lia.
  - exists []. split_and!; [done | change (l <> []); by rewrite Hb | auto | done | | done].
    simpl. rewrite Z.add_0_r, wrap_u_small; done.
Qed.

(** As long as buffered timestamps are pairwise distinct, a packet already
    in the buffer is recognised wherever it sits: placing its duplicate leaves
    the buffer unchanged and only counts a discarded packet. *)
Theorem duplicate_is_discarded (p q : AudioPacket) (pb : PacketBuffer) (s : StatisticsCalculator) :
  ordered (buffer pb) -> NoDup (ts <$> buffer pb) ->
  q ∈ buffer pb -> same_packet q p = true ->
  place_packet p pb s = Some (pb, packet_discarded false s).
Proof.
  intros Ho Hnd Hq Hs. unfold place_packet. rewrite find_insert_position_spec by done.
  by rewrite (is_duplicate_complete p q pb).
Qed.

(** ** Witnesses and the wrap-around of timestamps *)

Definition pkt (seq t src : Z) : AudioPacket :=
  mkAudioPacket (mkRtpHeader seq t src 111 false) [] 0 48000 1 20.

Definition sample_buffer : PacketBuffer :=
  (pb_new 3) <| buffer := [pkt 1 960 7; pkt 2 1920 7; pkt 4 3840 7] |>.

Lemma sample_buffer_wf : pb_wf sample_buffer.
Proof. split; simpl; [|unfold pb_len; simpl; lia|]; repeat constructor; unfold ts_le, ts; simpl; lia. Qed.

Lemma find_insert_position_witness :
  find_insert_position (pkt 3 2880 7) sample_buffer =
    Some (upper_bound 2880 (buffer sample_buffer)) /\
  upper_bound 2880 (buffer sample_buffer) = 2%nat.
Proof.
  split; [|reflexivity]. apply (find_insert_position_upper_bound (pkt 3 2880 7)).
  exact (pbw_ordered _ sample_buffer_wf).
Defined.

Lemma insert_packet_invariant_witness :
  exists pb' s', insert_packet 0 (pkt 3 2880 7) 80 sample_buffer (stats_new 0) =
    Some (pb', s', Ok RcOk) /\ pb_wf pb'.
Proof. apply insert_packet_invariant; [exact sample_buffer_wf | simpl; lia | simpl; lia]. Defined.

Lemma insert_packet_contents_witness :
  exists pb' s' kept, insert_packet 0 (pkt 3 2880 7) 80 sample_buffer (stats_new 0) =
      Some (pb', s', Ok RcOk) /\
    kept `sublist_of` buffer sample_buffer /\
    ((buffer pb' = kept /\ exists q, q ∈ kept /\ same_packet q (pkt 3 2880 7) = true) \/
     buffer pb' ≡ₚ pkt 3 2880 7 :: kept).
Proof. apply insert_packet_contents; [exact sample_buffer_wf | simpl; lia | simpl; lia]. Defined.

Lemma partial_flush_witness :
  let '(pb', s', r) := partial_flush 0 30 sample_buffer (stats_new 0) in
  exists removed, buffer sample_buffer = removed ++ buffer pb' /\ buffer pb' <> [] /\
    (30 <= content_ms (buffer pb') \/ removed = []) /\
    (removed <> [] -> forall p rest, buffer pb' = p :: rest -> rest <> [] ->
       content_ms rest < 30) /\
    discarded_primary_packets (operation_stats s') =
      discarded_primary_packets (operation_stats (stats_new 0)) +u64 Z.of_nat (length removed) /\
    r = Ok (match removed with [] => RcOk | _ => RcPartialFlush end).
Proof.
  apply (partial_flush_shortest_suffix 0 30 sample_buffer (stats_new 0));
    [discriminate | vm_compute; split; congruence].
Defined.

Lemma duplicate_is_discarded_witness :
  place_packet (pkt 2 1920 7) sample_buffer (stats_new 0) =
    Some (sample_buffer, packet_discarded false (stats_new 0)).
Proof.
  apply (duplicate_is_discarded _ (pkt 2 1920 7));
    [exact (pbw_ordered _ sample_buffer_wf) | | by right; left | reflexivity].
  by apply (bool_decide_unpack _).
Defined.

(** The order is the one of the raw 32-bit timestamps, not the wrap-around
    order of [is_timestamp_newer]: a packet that follows the wrap of the RTP
    clock is newer than the buffered one, yet is stored, and so played, first. *)
Theorem wraparound_is_misordered :
  let old := pkt 1 4294966816 7 in
  let new := pkt 2 480 7 in
  is_timestamp_newer (header new) (timestamp (header old)) = true /\
  exists s', insert_packet 0 new 80 ((pb_new 200) <| buffer := [old] |>) (stats_new 0) =
    Some ((pb_new 200) <| buffer := [new; old] |>, s', Ok RcOk).
Proof. split; [reflexivity |]. eexists. vm_compute. reflexivity. Qed.
