(* ===== verification/Histogram.v ===== *)
(** * The inter-arrival histogram (neteq/src/histogram.rs)

    Bucket probabilities in Q30 fixed point, forgotten exponentially with a
    factor in Q15. The intermediate [i64] arithmetic cannot overflow and is
    exact; stores back into a bucket are [as i32] casts. *)
From S2P Require Import Prelude Floats.

(** ** Model *)

Record Histogram : Type := mkHistogram {
  buckets : list Z;
  forget_factor : Z;
  base_forget_factor : Z;
  add_count : Z;
  start_forget_weight : option float;
}.

#[export] Instance eta_Histogram : Eta Histogram := fun r =>
  mkHistogram (buckets r) (forget_factor r) (base_forget_factor r) (add_count r)
    (start_forget_weight r).

Definition f64_to_q (v : float) (q : Z) : Z := round_as_i 64 (F64.mul v (F64.of_Z (2 ^ q))).

Definition hist_new (num_buckets : nat) (base_forget : float) (start_weight : option float)
    : Histogram :=
  mkHistogram (replicate num_buckets 0) 0 (wrap_i 32 (f64_to_q base_forget 15)) 0 start_weight.

(** One bucket multiplied by the forget factor. *)
Definition forget (ff b : Z) : Z := Z.shiftr (b * ff) 15.

(** The loop that spreads the rounding error over the first buckets. *)
Fixpoint correct_loop (flip_sign vector_sum : Z) (bs : list Z) : list Z * Z :=
  match bs with
  | [] => ([], vector_sum)
  | b :: rest =>
      let correction := flip_sign * Z.max (Z.min (Z.abs vector_sum) (Z.shiftr b 4)) 0 in
      let b' := wrap_i 32 (b + correction) in
      let vector_sum' := vector_sum + correction in
      if vector_sum' =? 0 then (b' :: rest, vector_sum')
      else let '(rest', v) := correct_loop flip_sign vector_sum' rest in (b' :: rest', v)
  end.

(** The forget factor after an observation. *)
Definition next_forget_factor (h : Histogram) : Z :=
  match start_forget_weight h with
  | Some start_weight =>
      if forget_factor h =? base_forget_factor h then forget_factor h
      else
        let forget_f := F64.mul (F64.of_Z 32768)
          (F64.sub (F64.of_Z 1)
             (F64.div start_weight (F64.add (F64.of_Z (add_count h)) (F64.of_Z 1)))) in
        Z.max 0 (Z.min (base_forget_factor h) (round_as_i 32 forget_f))
  | None => forget_factor h +i32 Z.shiftr (base_forget_factor h - forget_factor h + 3) 2
  end.

(** [add]: [None] is the panic of an index out of range. *)
Definition hist_add (value : nat) (h : Histogram) : option Histogram :=
  let tmps := forget (forget_factor h) <$> buckets h in
  let bs := wrap_i 32 <$> tmps in
  let vector_sum := sumZ tmps in
  let add_amount := Z.shiftl (2 ^ 15 - forget_factor h) 15 in
  match bs !! value with
  | None => None
  | Some b =>
      let bs1 := <[value := wrap_i 32 (b + add_amount)]> bs in
      let vector_sum1 := vector_sum + add_amount - 2 ^ 30 in
      let bs2 := if vector_sum1 =? 0 then bs1
                 else fst (correct_loop (if 0 <? vector_sum1 then -1 else 1) vector_sum1 bs1) in
      let h1 := h <| buckets := bs2 |> <| add_count := sat_add 32 (add_count h) 1 |> in
      Some (h1 <| forget_factor := next_forget_factor h1 |>)
  end.

(** The loop of [quantile] over the buckets after the first. *)
Fixpoint quantile_loop (inverse_probability sum : Z) (index : nat) (rest : list Z) : nat :=
  match rest with
  | [] => index
  | b :: rest' =>
      if inverse_probability <? sum
      then quantile_loop inverse_probability (sum - b) (S index) rest'
      else index
  end.

Definition quantile (probability : float) (h : Histogram) : option nat :=
  let total_q30 := 2 ^ 30 in
  let inverse_probability := total_q30 - f64_to_q probability 30 in
  match buckets h with
  | [] => None
  | b0 :: rest => Some (quantile_loop inverse_probability (total_q30 - b0) 0 rest)
  end.

(** The decaying start distribution of [reset]. *)
Fixpoint reset_buckets (temp_prob : Z) (bs : list Z) : list Z :=
  match bs with
  | [] => []
  | _ :: rest =>
      let t := Z.shiftr temp_prob 1 in
      wrap_i 32 (wrap_u 32 (Z.shiftl t 16)) :: reset_buckets t rest
  end.

Definition hist_reset (h : Histogram) : Histogram :=
  h <| buckets := reset_buckets 0x4002 (buckets h) |>
    <| forget_factor := 0 |> <| add_count := 0 |>.

Definition num_buckets (h : Histogram) : nat := length (buckets h).

(** ** Invariant

    Buckets are non-negative and never exceed one in Q30; the factor stays in
    Q15; and unless the factor is zero (a fresh or reset histogram, whose next
    observation starts from scratch) the buckets sum to exactly one. *)
Record hist_wf (h : Histogram) : Prop := mk_hist_wf {
  hw_len : 1 <= Z.of_nat (length (buckets h)) <= 1000000;
  hw_range : Forall (fun b => 0 <= b <= 2 ^ 30) (buckets h);
  hw_factor : 0 <= forget_factor h <= 2 ^ 15;
  hw_base : 0 <= base_forget_factor h <= 2 ^ 15;
  hw_sum : forget_factor h = 0 \/ sumZ (buckets h) = 2 ^ 30;
}.

(** ** The mass after forgetting *)

Lemma forget_bounds (ff b : Z) : 0 <= ff <= 2 ^ 15 -> 0 <= b -> 0 <= forget ff b <= b.
Proof.
  intros Hf Hb. unfold forget. rewrite Z.shiftr_div_pow2 by lia. split.
  - apply Z.div_pos; [|lia]. apply Z.mul_nonneg_nonneg; lia.
  - apply Z.div_le_upper_bound; [lia |]. nia.
Qed.

(** Every bucket loses less than one unit to rounding. *)
Lemma forget_mass (ff : Z) (bs : list Z) :
  0 <= sumZ bs * ff - 2 ^ 15 * sumZ (forget ff <$> bs) <= 2 ^ 15 * Z.of_nat (length bs).
Proof.
  induction bs as [|b bs IH]; [simpl; lia |].
  assert (0 <= b * ff - 2 ^ 15 * forget ff b < 2 ^ 15) as Hb.
  { unfold forget. rewrite Z.shiftr_div_pow2 by lia.
    pose proof (Z.div_mod (b * ff) (2 ^ 15)). pose proof (Z.mod_pos_bound (b * ff) (2 ^ 15)). lia. }
  rewrite fmap_cons, !sumZ_cons. cbn [length]. lia.
Qed.

(** Sum and range after a store into one bucket. *)
Lemma sumZ_insert (bs : list Z) (i : nat) (b x : Z) :
  bs !! i = Some b -> sumZ (<[i := x]> bs) = sumZ bs - b + x.
Proof.
  revert i. induction bs as [|b0 bs IH]; intros [|i] Hi; simplify_eq/=; [lia |].
  rewrite IH by done. lia.
Qed.

Lemma sumZ_elem_le (bs : list Z) (b : Z) :
  Forall (fun x => 0 <= x) bs -> b ∈ bs -> b <= sumZ bs.
Proof.
  induction 1 as [|x bs Hx Hbs IH]; [by rewrite elem_of_nil |].
  pose proof (sumZ_nonneg bs Hbs). rewrite elem_of_cons. intros [->|Hin]; simpl; [lia |].
  specialize (IH Hin). lia.
Qed.

Lemma range_of_sum (bs : list Z) :
  Forall (fun x => 0 <= x) bs -> sumZ bs <= 2 ^ 30 -> Forall (fun x => 0 <= x <= 2 ^ 30) bs.
Proof.
  intros Hnn Hs. apply Forall_forall. intros x Hx.
  pose proof (sumZ_elem_le _ _ Hnn Hx). pose proof (Forall_elem _ _ _ Hnn Hx). simpl in *. lia.
Qed.

(** What the correction loop can add: a sixteenth of every bucket. *)
Definition headroom (bs : list Z) : Z := sumZ ((fun b => Z.shiftr b 4) <$> bs).

Lemma headroom_cons (b : Z) (bs : list Z) : headroom (b :: bs) = Z.shiftr b 4 + headroom bs.
Proof. done. Qed.

Lemma headroom_bound (bs : list Z) :
  sumZ bs - 15 * Z.of_nat (length bs) <= 16 * headroom bs.
Proof.
  induction bs as [|b bs IH]; [unfold headroom; simpl; lia |].
  rewrite headroom_cons, sumZ_cons. cbn [length]. rewrite Z.shiftr_div_pow2 by lia. pose proof (Z.div_mod b (2 ^ 4)).
  pose proof (Z.mod_pos_bound b (2 ^ 4)). lia.
Qed.

(** A missing mass within the headroom is put back exactly. *)
Lemma correct_loop_fills (d : Z) (bs : list Z) :
  0 < d -> Forall (fun b => 0 <= b) bs -> sumZ bs + d <= 2 ^ 30 -> d <= headroom bs ->
  let '(bs', v) := correct_loop 1 (- d) bs in
  v = 0 /\ sumZ bs' = sumZ bs + d /\ length bs' = length bs /\ Forall (fun b => 0 <= b) bs'.
Proof.
  revert d. induction bs as [|b bs IH]; intros d Hd Hnn Hsum Hroom.
  { unfold headroom in Hroom. simpl in Hroom. lia. }
  apply Forall_cons in Hnn as [Hb Hnn]. pose proof (sumZ_nonneg bs Hnn).
  rewrite sumZ_cons in Hsum. rewrite headroom_cons in Hroom.
  assert (0 <= Z.shiftr b 4 <= b) as Hs.
  { rewrite Z.shiftr_div_pow2 by lia. split; [apply Z.div_pos; lia |].
    apply Z.div_le_upper_bound; lia. }
  cbn [correct_loop]. set (c := 1 * Z.max (Z.min (Z.abs (- d)) (Z.shiftr b 4)) 0).
  assert (c = Z.min d (Z.shiftr b 4)) as Hc by lia. clearbody c.
  assert (wrap_i 32 (b + c) = b + c) as -> by (apply wrap_i_small; [lia | unfold i_in; lia]).
  destruct (Z.eqb_spec (- d + c) 0) as [E|E].
  - rewrite !sumZ_cons. split_and!; [done | lia | done | constructor; [lia | done]].
  - specialize (IH (d - c)). replace (- (d - c)) with (- d + c) in IH by lia.
    destruct (correct_loop 1 (- d + c) bs) as [bs' v].
    destruct IH as (-> & Hs' & Hl & Hnn'); [lia | done | lia | lia |].
    rewrite !sumZ_cons. cbn [length]. split_and!; [done | lia | lia | constructor; [lia | done]].
Qed.

Lemma wrap_fmap_id (bs : list Z) :
  Forall (fun b => 0 <= b <= 2 ^ 30) bs -> wrap_i 32 <$> bs = bs.
Proof.
  induction 1 as [|b bs Hb _ IH]; [done |]. rewrite fmap_cons, IH. f_equal.
  apply wrap_i_small; [lia | unfold i_in; lia].
Qed.

Lemma forget_range (ff : Z) (bs : list Z) :
  0 <= ff <= 2 ^ 15 -> Forall (fun b => 0 <= b <= 2 ^ 30) bs ->
  Forall (fun b => 0 <= b <= 2 ^ 30) (forget ff <$> bs).
Proof.
  intros Hf Hr. rewrite Forall_fmap. eapply Forall_impl; [exact Hr |]. intros b Hb. simpl in *.
  pose proof (forget_bounds ff b Hf). lia.
Qed.

Lemma forget_zero (bs : list Z) : sumZ (forget 0 <$> bs) = 0.
Proof.
  induction bs as [|b bs IH]; [done |]. rewrite fmap_cons, sumZ_cons, IH. unfold forget.
  by rewrite Z.mul_0_r, Z.shiftr_0_l.
Qed.

(** The deficit before the correction is a rounding error of at most one unit
    per bucket. *)
Lemma add_deficit (h : Histogram) :
  hist_wf h ->
  let d := 2 ^ 30 - (sumZ (forget (forget_factor h) <$> buckets h)
                     + Z.shiftl (2 ^ 15 - forget_factor h) 15) in
  0 <= d <= Z.of_nat (length (buckets h)).
Proof.
  intros [_ _ Hf _ Hs] d. unfold d. rewrite Z.shiftl_mul_pow2 by lia.
  destruct Hs as [-> | Hs].
  - rewrite forget_zero. lia.
  - pose proof (forget_mass (forget_factor h) (buckets h)) as H. rewrite Hs in H. lia.
Qed.

Lemma next_factor_range (h : Histogram) :
  0 <= forget_factor h <= 2 ^ 15 -> 0 <= base_forget_factor h <= 2 ^ 15 ->
  0 <= next_forget_factor h <= 2 ^ 15.
Proof.
  intros Hf Hb. unfold next_forget_factor. destruct (start_forget_weight h) as [w|].
  - destruct (_ =? _); lia.
  - rewrite Z.shiftr_div_pow2 by lia.
    pose proof (Z.div_mod (base_forget_factor h - forget_factor h + 3) (2 ^ 2)).
    pose proof (Z.mod_pos_bound (base_forget_factor h - forget_factor h + 3) (2 ^ 2)).
    rewrite wrap_i_small; [lia | lia | unfold i_in; lia].
Qed.

Lemma hist_add_spec (value : nat) (h : Histogram) :
  hist_wf h -> (value < num_buckets h)%nat ->
  exists h', hist_add value h = Some h' /\ sumZ (buckets h') = 2 ^ 30 /\
    length (buckets h') = length (buckets h) /\ hist_wf h'.
Proof.
  intros Hwf Hv. pose proof (add_deficit h Hwf) as Hd. cbv zeta in Hd.
  destruct Hwf as [Hlen Hr Hf Hb _]. unfold hist_add.
  pose proof (forget_range _ _ Hf Hr) as Hr1. rewrite wrap_fmap_id by done.
  set (tmps := forget (forget_factor h) <$> buckets h) in *.
  assert (length tmps = length (buckets h)) as Hl by apply length_fmap.
  destruct (lookup_lt_is_Some_2 tmps value) as [b Hbv]; [rewrite Hl; exact Hv |]. rewrite Hbv.
  set (amount := Z.shiftl (2 ^ 15 - forget_factor h) 15) in *.
  assert (0 <= amount) by (unfold amount; rewrite Z.shiftl_mul_pow2 by lia; lia).
  assert (Forall (fun x => 0 <= x) tmps) as Hnn
    by (eapply Forall_impl; [exact Hr1 | simpl; lia]).
  pose proof (sumZ_elem_le _ _ Hnn (list_elem_of_lookup_2 _ _ _ Hbv)) as Hble.
  pose proof (Forall_elem _ _ _ Hnn (list_elem_of_lookup_2 _ _ _ Hbv)) as Hb0. simpl in Hb0.
  rewrite (wrap_i_small 32 (b + amount)) by (unfold i_in; lia).
  set (bs1 := <[value := b + amount]> tmps).
  assert (sumZ bs1 = sumZ tmps + amount) as Hs1 by (unfold bs1; rewrite (sumZ_insert _ _ b) by done; lia).
  assert (Forall (fun x => 0 <= x) bs1) as Hnn1.
  { apply Forall_insert; [done | lia]. }
  assert (length bs1 = length (buckets h)) as Hl1 by (unfold bs1; by rewrite length_insert).
  assert (exists bs2, (if sumZ tmps + amount - 2 ^ 30 =? 0 then bs1
     else (correct_loop (if 0 <? sumZ tmps + amount - 2 ^ 30 then -1 else 1)
             (sumZ tmps + amount - 2 ^ 30) bs1).1) = bs2 /\
     sumZ bs2 = 2 ^ 30 /\ length bs2 = length (buckets h) /\ Forall (fun x => 0 <= x) bs2)
    as (bs2 & -> & Hs2 & Hl2 & Hnn2).
  { destruct (Z.eqb_spec (sumZ tmps + amount - 2 ^ 30) 0); [eexists; split_and!; eauto; lia |].
    destruct (Z.ltb_spec 0 (sumZ tmps + amount - 2 ^ 30)); [lia |].
    pose proof (correct_loop_fills (2 ^ 30 - sumZ bs1) bs1) as Hc.
    replace (- (2 ^ 30 - sumZ bs1)) with (sumZ tmps + amount - 2 ^ 30) in Hc by lia.
    pose proof (headroom_bound bs1). rewrite Hl1 in *.
    destruct (correct_loop 1 (sumZ tmps + amount - 2 ^ 30) bs1) as [bs2 v].
    destruct Hc as (_ & ? & ? & ?); [lia | done | lia | lia |].
    exists bs2; split_and!; [reflexivity | lia | congruence | done]. }
  eexists. split; [reflexivity |]. simpl. split_and!; [done | done |].
  split; simpl; rewrite ?Hl2; auto.
  - apply range_of_sum; [done | lia].
  - by apply next_factor_range.
Qed.

(** ** Quantiles *)

Lemma quantile_loop_spec (p : Z) (pre rest : list Z) (b0 : Z) :
  let index := length pre in
  let n := quantile_loop (2 ^ 30 - p) (2 ^ 30 - sumZ (pre ++ [b0])) index rest in
  (index <= n <= index + length rest)%nat /\
  (p <= sumZ (take (S n) (pre ++ b0 :: rest)) \/ n = (index + length rest)%nat) /\
  (forall j, (index <= j < n)%nat -> sumZ (take (S j) (pre ++ b0 :: rest)) < p).
Proof.
  revert pre b0. induction rest as [|b rest IH]; intros pre b0; simpl quantile_loop.
  - split_and!; try (simpl; lia).
  - assert (take (S (length pre)) (pre ++ b0 :: b :: rest) = pre ++ [b0]) as Etake.
    { rewrite take_app_ge by lia. f_equal. by replace (S (length pre) - length pre)%nat with 1%nat by lia. }
    destruct (Z.ltb_spec (2 ^ 30 - p) (2 ^ 30 - sumZ (pre ++ [b0]))) as [Hlt|Hge].
    + specialize (IH (pre ++ [b0]) b). cbv zeta in IH.
      rewrite length_app in IH. cbn [length] in IH. rewrite Nat.add_1_r in IH.
      replace (2 ^ 30 - sumZ (pre ++ [b0]) - b) with (2 ^ 30 - sumZ ((pre ++ [b0]) ++ [b]))
        by (rewrite (sumZ_app (pre ++ [b0])); simpl; lia).
      rewrite <- (app_assoc pre [b0] (b :: rest)) in IH. cbn [app] in IH.
      destruct IH as (H1 & H2 & H3). cbn [length]. split_and!; [lia | lia | |].
      * destruct H2 as [H2 | H2]; [by left | right; lia].
      * intros j Hj. destruct (decide (j = length pre)) as [->|]; [rewrite Etake; lia |].
        apply H3. lia.
    + split_and!; [simpl; lia | simpl; lia | | lia]. left. rewrite Etake. lia.
Qed.

Lemma quantile_spec (probability : float) (h : Histogram) :
  (1 <= num_buckets h)%nat ->
  exists n, quantile probability h = Some n /\ (n < num_buckets h)%nat /\
    (f64_to_q probability 30 <= sumZ (take (S n) (buckets h)) \/ n = (num_buckets h - 1)%nat) /\
    (forall j, (j < n)%nat -> sumZ (take (S j) (buckets h)) < f64_to_q probability 30).
Proof.
  unfold quantile, num_buckets. intros Hlen. destruct (buckets h) as [|b0 rest]; [simpl in Hlen; lia |].
  pose proof (quantile_loop_spec (f64_to_q probability 30) [] rest b0) as H.
  cbv zeta in H. cbn [app length] in H. rewrite sumZ_cons, Z.add_0_r in H.
  eexists. split; [reflexivity |]. destruct H as (H1 & H2 & H3). cbn [length].
  split_and!; [lia | |]; [destruct H2 as [H2 | H2]; [by left | right; lia] |].
  intros j Hj. apply H3. lia.
Qed.

Lemma hist_new_wf (n : nat) (base : float) (w : option float) :
  1 <= Z.of_nat n <= 1000000 -> 0 <= wrap_i 32 (f64_to_q base 15) <= 2 ^ 15 ->
  hist_wf (hist_new n base w).
Proof.
  intros Hn Hb. split; simpl; [rewrite length_replicate; lia | | lia | done | by left].
  apply Forall_replicate. lia.
Qed.

Lemma reset_buckets_range (t : Z) (bs : list Z) :
  0 <= t <= 0x4002 -> Forall (fun b => 0 <= b <= 2 ^ 30) (reset_buckets t bs).
Proof.
  revert t. induction bs as [|b bs IH]; intros t Ht; cbn [reset_buckets]; [constructor |].
  assert (0 <= Z.shiftr t 1 <= 0x2001) as Hs.
  { rewrite Z.shiftr_div_pow2 by lia. change (2 ^ 1) with 2.
    pose proof (Z.div_mod t 2). pose proof (Z.mod_pos_bound t 2). lia. }
  constructor; [|apply IH; lia]. rewrite Z.shiftl_mul_pow2 by lia.
  rewrite wrap_u_small by (unfold u_in; lia).
  rewrite wrap_i_small; [lia | lia | unfold i_in; lia].
Qed.

Lemma hist_reset_wf (h : Histogram) : hist_wf h -> hist_wf (hist_reset h).
Proof.
  intros [Hl _ _ Hb _]. split; simpl; [| | lia | done | by left].
  - assert (forall t bs, length (reset_buckets t bs) = length bs) as ->; [|done].
    intros t bs. revert t. induction bs; intros t; simpl; auto.
  - apply reset_buckets_range. lia.
Qed.

(** ** Properties *)

(** Adding an observation to a histogram restores its probability mass
    exactly: whatever the forget factor, the rounding errors are put back by
    the correction loop, the buckets sum to one in Q30, none is negative or
    overflows its 32 bits, and the forget factor stays a Q15 fraction. *)
Theorem hist_add_preserves_mass (value : nat) (h : Histogram) :
  hist_wf h -> (value < num_buckets h)%nat ->
  exists h', hist_add value h = Some h' /\ hist_wf h' /\ sumZ (buckets h') = 2 ^ 30.
Proof.
  intros Hwf Hv. destruct (hist_add_spec value h Hwf Hv) as (h' & E & Hs & _ & Hwf'). eauto.
Qed.

(** On a histogram with full mass, [quantile] returns the least bucket index
    whose cumulative probability reaches the requested probability. *)
Theorem quantile_is_least (probability : float) (h : Histogram) :
  (1 <= num_buckets h)%nat -> sumZ (buckets h) = 2 ^ 30 -> f64_to_q probability 30 <= 2 ^ 30 ->
  exists n, quantile probability h = Some n /\ (n < num_buckets h)%nat /\
    f64_to_q probability 30 <= sumZ (take (S n) (buckets h)) /\
    (forall j, (j < n)%nat -> sumZ (take (S j) (buckets h)) < f64_to_q probability 30).
Proof.
  intros Hlen Hsum Hp. destruct (quantile_spec probability h Hlen) as (n & E & Hn & Hr & Hmin).
  exists n. split_and!; auto. destruct Hr as [Hr | ->]; [done |].
  rewrite take_ge by (unfold num_buckets in *; lia). lia.
Qed.

(** ** Witnesses *)

Definition sample_histogram : Histogram := hist_new 100 (F64.lit 9993 10000) (Some (F64.of_Z 2)).

Lemma sample_histogram_wf : hist_wf sample_histogram.
Proof. apply hist_new_wf; [simpl; lia | vm_compute; split; congruence]. Qed.

Lemma hist_add_preserves_mass_witness :
  exists h', hist_add 4 sample_histogram = Some h' /\ hist_wf h' /\ sumZ (buckets h') = 2 ^ 30.
Proof.
  apply hist_add_preserves_mass; [exact sample_histogram_wf | vm_compute; lia].
Defined.

(** Three observations, at 80, 80 and 40 milliseconds. *)
Definition observed_histogram : Histogram :=
  default sample_histogram (h1 ← hist_add 4 sample_histogram; h2 ← hist_add 4 h1; hist_add 2 h2).

Lemma quantile_is_least_witness :
  exists n, quantile (F64.lit 97 100) observed_histogram = Some n /\
    (n < num_buckets observed_histogram)%nat /\
    f64_to_q (F64.lit 97 100) 30 <= sumZ (take (S n) (buckets observed_histogram)) /\
    (forall j, (j < n)%nat ->
       sumZ (take (S j) (buckets observed_histogram)) < f64_to_q (F64.lit 97 100) 30).
Proof.
  apply quantile_is_least;
    [vm_compute; lia | vm_compute; reflexivity | vm_compute; discriminate].
Defined.

Example observed_quantile : quantile (F64.lit 97 100) observed_histogram = Some 4%nat.
Proof. vm_compute. reflexivity. Qed.
