(* ===== verification/DelayManager.v ===== *)
(** * The audio delay manager (neteq/src/delay_manager.rs)

    Relative arrival delays, resampled into the histogram, give the target
    delay; external minimum and maximum delays bound it. The clock reading of
    an operation is its argument [now]; [None] stands for a panic (a division
    by zero or an index out of range). *)
From S2P Require Import Prelude Floats Statistics PacketBuffer Histogram.

Definition K_START_DELAY_MS : Z := 80.
Definition K_DELAY_BUCKETS : nat := 100.
Definition K_BUCKET_SIZE_MS : Z := 20.

Record DelayConfig : Type := mkDelayConfig {
  cfg_quantile : float;
  cfg_forget_factor : float;
  cfg_start_forget_weight : option float;
  resample_interval_ms : option Z;
  max_history_ms : Z;
  base_minimum_delay_ms : Z;
  base_maximum_delay_ms : Z;
  additional_delay_ms : Z;
  use_reorder_optimizer : bool;
  reorder_forget_factor : float;
  ms_per_loss_percent : Z;
}.

#[export] Instance eta_DelayConfig : Eta DelayConfig := fun r =>
  mkDelayConfig (cfg_quantile r) (cfg_forget_factor r) (cfg_start_forget_weight r)
    (resample_interval_ms r) (max_history_ms r) (base_minimum_delay_ms r)
    (base_maximum_delay_ms r) (additional_delay_ms r) (use_reorder_optimizer r)
    (reorder_forget_factor r) (ms_per_loss_percent r).

Definition delay_config_default : DelayConfig :=
  {| cfg_quantile := F64.lit 97 100; cfg_forget_factor := F64.lit 9993 10000;
     cfg_start_forget_weight := Some (F64.of_Z 2); resample_interval_ms := Some 500;
     max_history_ms := 2000; base_minimum_delay_ms := 0; base_maximum_delay_ms := 2000;
     additional_delay_ms := 0; use_reorder_optimizer := true;
     reorder_forget_factor := F64.lit 9993 10000; ms_per_loss_percent := 20 |}.

(** ** Relative arrival delays *)

Record PacketDelay : Type := mkPacketDelay {
  iat_delay_ms : Z;
  pd_timestamp : Z;
  pd_arrival_time : Z;
}.

Record RelativeArrivalDelayTracker : Type := mkTracker {
  tr_config : DelayConfig;
  delay_history : list PacketDelay;
  newest_timestamp : option Z;
  last_timestamp : option Z;
  last_packet_time : option Z;
}.

#[export] Instance eta_Tracker : Eta RelativeArrivalDelayTracker := fun r =>
  mkTracker (tr_config r) (delay_history r) (newest_timestamp r) (last_timestamp r)
    (last_packet_time r).

Definition tracker_new (config : DelayConfig) : RelativeArrivalDelayTracker :=
  mkTracker config [] None None None.

Definition tracker_reset (tr : RelativeArrivalDelayTracker) : RelativeArrivalDelayTracker :=
  tr <| delay_history := [] |> <| newest_timestamp := None |> <| last_timestamp := None |>
     <| last_packet_time := None |>.

Definition update_delay_history (iat ts now : Z) (tr : RelativeArrivalDelayTracker)
    : RelativeArrivalDelayTracker :=
  let history := delay_history tr ++ [mkPacketDelay iat ts now] in
  let max_age := from_millis (max_history_ms (tr_config tr)) in
  tr <| delay_history :=
          filter (fun d => duration_since now (pd_arrival_time d) <= max_age) history |>.

Definition calculate_relative_packet_arrival_delay (tr : RelativeArrivalDelayTracker) : option Z :=
  match delay_history tr with
  | [] => Some 0
  | _ =>
      let positive_delays := sortZ ((fun d => Z.max (iat_delay_ms d) 0) <$> delay_history tr) in
      let index := as_u 64 (F64.mul (F64.of_Z (Z.of_nat (length positive_delays - 1)))
                              (cfg_quantile (tr_config tr))) in
      positive_delays !! Z.to_nat index
  end.

(** The expected time since the last packet, in 32-bit arithmetic. *)
Definition expected_iat_ms (ts rate : Z) (tr : RelativeArrivalDelayTracker) : option Z :=
  match last_timestamp tr with
  | Some last_ts => if rate =? 0 then None else Some ((sat_sub ts last_ts *u32 1000) / rate)
  | None => Some 0
  end.

Definition tracker_update (ts rate now : Z) (tr : RelativeArrivalDelayTracker)
    : option (RelativeArrivalDelayTracker * Z) :=
  match expected_iat_ms ts rate tr with
  | None => None
  | Some expected =>
      let actual := match last_packet_time tr with
                    | Some last_time => wrap_i 32 (as_millis (duration_since now last_time))
                    | None => 0
                    end in
      let iat := actual -i32 wrap_i 32 expected in
      let tr1 := update_delay_history iat ts now (tr <| last_packet_time := Some now |>) in
      match calculate_relative_packet_arrival_delay tr1 with
      | None => None
      | Some relative_delay =>
          Some (tr1 <| newest_timestamp := Some ts |> <| last_timestamp := Some ts |>,
                relative_delay)
      end
  end.

(** ** The delay manager *)

Record DelayManager : Type := mkDelayManager {
  dm_config : DelayConfig;
  arrival_delay_tracker : RelativeArrivalDelayTracker;
  target_level_ms : Z;
  minimum_delay_ms : Z;
  effective_minimum_delay_ms : Z;
  maximum_delay_ms : Z;
  effective_maximum_delay_ms : Z;
  resampled_relative_delay : Z;
  last_resample_time : option Z;
  dm_histogram : Histogram;
}.

#[export] Instance eta_DelayManager : Eta DelayManager := fun r =>
  mkDelayManager (dm_config r) (arrival_delay_tracker r) (target_level_ms r)
    (minimum_delay_ms r) (effective_minimum_delay_ms r) (maximum_delay_ms r)
    (effective_maximum_delay_ms r) (resampled_relative_delay r) (last_resample_time r)
    (dm_histogram r).

Definition dm_new (config : DelayConfig) : DelayManager :=
  {| target_level_ms := Z.max K_START_DELAY_MS (base_minimum_delay_ms config);
     minimum_delay_ms := 0;
     effective_minimum_delay_ms := base_minimum_delay_ms config;
     maximum_delay_ms := 0;
     effective_maximum_delay_ms := base_maximum_delay_ms config;
     resampled_relative_delay := 0;
     last_resample_time := None;
     arrival_delay_tracker := tracker_new config;
     dm_histogram := hist_new K_DELAY_BUCKETS (cfg_forget_factor config)
                       (cfg_start_forget_weight config);
     dm_config := config |}.

Definition dm_reset (dm : DelayManager) : DelayManager :=
  dm <| arrival_delay_tracker := tracker_reset (arrival_delay_tracker dm) |>
     <| target_level_ms := Z.max K_START_DELAY_MS (base_minimum_delay_ms (dm_config dm)) |>
     <| resampled_relative_delay := 0 |>
     <| last_resample_time := None |>.

Definition target_delay_ms (dm : DelayManager) : Z :=
  Z.min (Z.max (target_level_ms dm +u32 additional_delay_ms (dm_config dm))
           (effective_minimum_delay_ms dm)) (effective_maximum_delay_ms dm).

Definition update_effective_delay_bounds (dm : DelayManager) : DelayManager :=
  let upper_bound := base_maximum_delay_ms (dm_config dm) in
  let lower_bound := Z.min (base_minimum_delay_ms (dm_config dm)) upper_bound in
  let eff_min := if 0 <? minimum_delay_ms dm
                 then Z.min (Z.max (minimum_delay_ms dm) lower_bound) upper_bound
                 else lower_bound in
  let eff_max := if 0 <? maximum_delay_ms dm
                 then Z.min (Z.max (maximum_delay_ms dm) eff_min) upper_bound
                 else upper_bound in
  dm <| effective_minimum_delay_ms := eff_min |> <| effective_maximum_delay_ms := eff_max |>.

Definition set_minimum_delay (delay_ms : Z) (dm : DelayManager) : DelayManager * Z :=
  let dm' := update_effective_delay_bounds (dm <| minimum_delay_ms := delay_ms |>) in
  (dm', effective_minimum_delay_ms dm').

Definition set_maximum_delay (delay_ms : Z) (dm : DelayManager) : DelayManager * Z :=
  let dm' := update_effective_delay_bounds (dm <| maximum_delay_ms := delay_ms |>) in
  (dm', effective_maximum_delay_ms dm').

Definition set_base_minimum_delay (delay_ms : Z) (dm : DelayManager) : DelayManager :=
  update_effective_delay_bounds
    (dm <| dm_config := (dm_config dm) <| base_minimum_delay_ms := delay_ms |> |>).

Definition set_base_maximum_delay (delay_ms : Z) (dm : DelayManager) : DelayManager :=
  update_effective_delay_bounds
    (dm <| dm_config := (dm_config dm) <| base_maximum_delay_ms := delay_ms |> |>).

Definition get_base_minimum_delay (dm : DelayManager) : Z := base_minimum_delay_ms (dm_config dm).
Definition get_base_maximum_delay (dm : DelayManager) : Z := base_maximum_delay_ms (dm_config dm).

(** [relative_delay / 20] truncates towards zero; a negative quotient becomes a
    huge index and is not registered. *)
Definition register_relative_delay (relative_delay : Z) (dm : DelayManager) : option DelayManager :=
  let index := wrap_u 64 (Z.quot relative_delay K_BUCKET_SIZE_MS) in
  if index <? Z.of_nat (num_buckets (dm_histogram dm)) then
    h ← hist_add (Z.to_nat index) (dm_histogram dm); Some (dm <| dm_histogram := h |>)
  else Some dm.

Definition update_target_delay (dm : DelayManager) : option DelayManager :=
  bucket_index ← quantile (cfg_quantile (dm_config dm)) (dm_histogram dm);
  let level := (1 +u32 Z.of_nat bucket_index) *u32 K_BUCKET_SIZE_MS in
  Some (dm <| target_level_ms :=
          Z.min (Z.max level (effective_minimum_delay_ms dm)) (effective_maximum_delay_ms dm) |>).

(** The resampling step of [update]: the maximum over an interval is registered
    once the interval has elapsed. *)
Definition resample (interval relative_delay now : Z) (dm : DelayManager) : option DelayManager :=
  dm1 ← match last_resample_time dm with
        | Some last =>
            let elapsed_ms := wrap_u 32 (as_millis (duration_since now last)) in
            if interval <=? elapsed_ms then
              if interval =? 0 then None
              else
                dm1 ← register_relative_delay (resampled_relative_delay dm) dm;
                Some (dm1 <| resampled_relative_delay := 0 |>
                          <| last_resample_time :=
                               Some (last + from_millis ((elapsed_ms / interval) *u32 interval)) |>)
            else Some dm
        | None => Some (dm <| last_resample_time := Some now |>)
        end;
  Some (dm1 <| resampled_relative_delay := Z.max (resampled_relative_delay dm1) relative_delay |>).

Definition dm_update (ts rate : Z) (reset : bool) (now : Z) (dm : DelayManager)
    : option (DelayManager * result unit NetEqError) :=
  let dm0 := if reset then dm_reset dm else dm in
  '(tr, relative_delay) ← tracker_update ts rate now (arrival_delay_tracker dm0);
  let dm1 := dm0 <| arrival_delay_tracker := tr |> in
  dm2 ← match resample_interval_ms (dm_config dm1) with
        | Some interval => resample interval relative_delay now dm1
        | None => register_relative_delay relative_delay dm1
        end;
  dm3 ← update_target_delay dm2;
  Some (dm3, Ok tt).

(** ** Invariant *)

Record dm_wf (dm : DelayManager) : Prop := mk_dm_wf {
  dw_min : 0 <= effective_minimum_delay_ms dm <= effective_maximum_delay_ms dm;
  dw_max : effective_maximum_delay_ms dm <= base_maximum_delay_ms (dm_config dm);
  dw_hist : hist_wf (dm_histogram dm);
  dw_buckets : num_buckets (dm_histogram dm) = K_DELAY_BUCKETS;
}.

(** The percentile index stays inside histories shorter than [N]. *)
Definition percentile_in_range (N : nat) (q : float) : Prop :=
  forall n, (n < N)%nat -> as_u 64 (F64.mul (F64.of_Z (Z.of_nat n)) q) <= Z.of_nat n.

(** What the setters may be given. *)
Inductive dm_setting : Type :=
| SetMinimum (d : Z) | SetMaximum (d : Z) | SetBaseMinimum (d : Z) | SetBaseMaximum (d : Z).

Definition apply_setting (dm : DelayManager) (st : dm_setting) : DelayManager :=
  match st with
  | SetMinimum d => (set_minimum_delay d dm).1
  | SetMaximum d => (set_maximum_delay d dm).1
  | SetBaseMinimum d => set_base_minimum_delay d dm
  | SetBaseMaximum d => set_base_maximum_delay d dm
  end.

Definition setting_ok (st : dm_setting) : Prop :=
  match st with
  | SetMinimum d | SetMaximum d | SetBaseMinimum d | SetBaseMaximum d => u_in 32 d
  end.

Definition base_nonneg (dm : DelayManager) : Prop :=
  0 <= base_minimum_delay_ms (dm_config dm) /\ 0 <= base_maximum_delay_ms (dm_config dm).

Lemma effective_bounds_wf (dm : DelayManager) :
  hist_wf (dm_histogram dm) -> num_buckets (dm_histogram dm) = K_DELAY_BUCKETS ->
  base_nonneg dm -> dm_wf (update_effective_delay_bounds dm).
Proof.
  intros Hh Hn [Hb1 Hb2]. split; simpl; auto;
    destruct (Z.ltb_spec 0 (minimum_delay_ms dm)), (Z.ltb_spec 0 (maximum_delay_ms dm)); lia.
Qed.

Lemma apply_setting_wf (dm : DelayManager) (st : dm_setting) :
  dm_wf dm -> base_nonneg dm -> setting_ok st ->
  dm_wf (apply_setting dm st) /\ base_nonneg (apply_setting dm st).
Proof.
  intros [_ _ Hh Hn] [Hb1 Hb2] Hok. unfold u_in in *.
  destruct st; simpl in *; unfold u_in in Hok;
    (split; [apply effective_bounds_wf; [done | done | split; simpl; lia] | split; simpl; lia]).
Qed.

Lemma register_wf (d : Z) (dm : DelayManager) :
  dm_wf dm -> exists h, register_relative_delay d dm = Some (dm <| dm_histogram := h |>) /\
    hist_wf h /\ num_buckets h = K_DELAY_BUCKETS.
Proof.
  intros [_ _ Hh Hn]. unfold register_relative_delay. set (index := wrap_u 64 _).
  assert (u_in 64 index) by (apply wrap_u_range; lia). unfold u_in in *.
  destruct (Z.ltb_spec index (Z.of_nat (num_buckets (dm_histogram dm)))).
  - destruct (hist_add_spec (Z.to_nat index) (dm_histogram dm) Hh) as (h & -> & _ & Hl & Hwf); [lia |].
    exists h. simpl. split_and!; [done | done |]. unfold num_buckets in *. congruence.
  - exists (dm_histogram dm). by destruct dm.
Qed.

(** A new histogram or a new resampling state keeps the rest of the manager. *)
Lemma dm_wf_hist (dm : DelayManager) (h : Histogram) (r : Z) (t : option Z) :
  dm_wf dm -> hist_wf h -> num_buckets h = K_DELAY_BUCKETS ->
  dm_wf (dm <| dm_histogram := h |> <| resampled_relative_delay := r |> <| last_resample_time := t |>).
Proof. intros [? ? _ _] ? ?. by split. Qed.

Lemma resample_wf (interval d now : Z) (dm : DelayManager) :
  dm_wf dm -> interval <> 0 -> exists dm', resample interval d now dm = Some dm' /\ dm_wf dm'.
Proof.
  intros Hwf Hi. unfold resample. pose proof Hwf as [H1 H2 Hh Hn].
  destruct (last_resample_time dm) as [last|].
  - destruct (_ <=? _).
    + destruct (Z.eqb_spec interval 0); [done |].
      destruct (register_wf (resampled_relative_delay dm) dm Hwf) as (h & -> & Hh' & Hn').
      simpl. eexists. split; [reflexivity |]. by split.
    + simpl. eexists. split; [reflexivity |]. by split.
  - simpl. eexists. split; [reflexivity |]. by split.
Qed.

Lemma update_target_wf (dm : DelayManager) :
  dm_wf dm -> exists dm', update_target_delay dm = Some dm' /\ dm_wf dm' /\
    effective_minimum_delay_ms dm' <= target_level_ms dm' <= effective_maximum_delay_ms dm'.
Proof.
  intros [H1 H2 Hh Hn]. unfold update_target_delay.
  destruct (quantile_spec (cfg_quantile (dm_config dm)) (dm_histogram dm)) as (n & -> & _);
    [rewrite Hn; unfold K_DELAY_BUCKETS; lia |].
  simpl. eexists. split_and!; [reflexivity | by split | simpl; lia | simpl; lia].
Qed.

Lemma percentile_total (N : nat) (tr : RelativeArrivalDelayTracker) :
  percentile_in_range N (cfg_quantile (tr_config tr)) ->
  (length (delay_history tr) <= N)%nat ->
  exists d, calculate_relative_packet_arrival_delay tr = Some d /\ 0 <= d.
Proof.
  intros Hq Hlen. unfold calculate_relative_packet_arrival_delay.
  destruct (delay_history tr) as [|d0 ds] eqn:E; [eauto with lia |]. rewrite <- E.
  set (l := sortZ _).
  assert (l ≡ₚ (fun d => Z.max (iat_delay_ms d) 0) <$> delay_history tr) as Hp by apply sortZ_perm.
  assert (length l = S (length ds)) as Hl.
  { rewrite Hp, length_fmap. by rewrite E. }
  set (index := as_u 64 _).
  assert (index <= Z.of_nat (length l - 1)) as Hi.
  { apply Hq. rewrite ?E in Hlen. simpl in Hlen. lia. }
  pose proof (as_u_range 64 (F64.mul (F64.of_Z (Z.of_nat (length l - 1)))
                (cfg_quantile (tr_config tr)))) as Hu. fold index in Hu. unfold u_in in Hu.
  destruct (lookup_lt_is_Some_2 l (Z.to_nat index)) as [d Hd]; [lia |].
  exists d. split; [done |]. apply list_elem_of_lookup_2 in Hd. rewrite Hp in Hd.
  apply list_elem_of_fmap in Hd as (x & -> & _). lia.
Qed.

Lemma tracker_update_total (N : nat) (ts rate now : Z) (tr : RelativeArrivalDelayTracker) :
  percentile_in_range N (cfg_quantile (tr_config tr)) -> rate <> 0 ->
  (length (delay_history tr) < N)%nat ->
  exists tr' d, tracker_update ts rate now tr = Some (tr', d) /\ 0 <= d /\
    tr_config tr' = tr_config tr.
Proof.
  intros Hq Hr Hlen. unfold tracker_update.
  assert (exists e, expected_iat_ms ts rate tr = Some e) as [e ->].
  { unfold expected_iat_ms. destruct (last_timestamp tr); [|eauto].
    destruct (Z.eqb_spec rate 0); [done | eauto]. }
  set (tr1 := update_delay_history _ _ _ _).
  destruct (percentile_total N tr1) as (d & -> & Hd).
  - exact Hq.
  - unfold tr1, update_delay_history. simpl.
    etrans; [apply length_filter |]. rewrite length_app. simpl. lia.
  - eexists _, d. split_and!; [reflexivity | done | done].
Qed.

(** ** Properties *)

(** An update with a packet that has a sample rate always succeeds: no
    index is out of range, the histogram keeps its mass, and the new target
    level lies between the effective minimum and maximum delays. *)
Theorem dm_update_total (N : nat) (ts rate now : Z) (reset : bool) (dm : DelayManager) :
  dm_wf dm -> rate <> 0 -> resample_interval_ms (dm_config dm) <> Some 0 ->
  percentile_in_range N (cfg_quantile (tr_config (arrival_delay_tracker dm))) ->
  (length (delay_history (arrival_delay_tracker dm)) < N)%nat ->
  exists dm', dm_update ts rate reset now dm = Some (dm', Ok tt) /\ dm_wf dm' /\
    effective_minimum_delay_ms dm' <= target_level_ms dm' <= effective_maximum_delay_ms dm'.
Proof.
  intros Hwf Hr Hint Hq Hlen. unfold dm_update. set (dm0 := if reset then dm_reset dm else dm).
  assert (dm_wf dm0 /\ dm_config dm0 = dm_config dm /\
    cfg_quantile (tr_config (arrival_delay_tracker dm0)) =
      cfg_quantile (tr_config (arrival_delay_tracker dm)) /\
    (length (delay_history (arrival_delay_tracker dm0)) < N)%nat) as (Hwf0 & Hc & Hq0 & Hl0).
  { unfold dm0. destruct reset; [|done]. destruct Hwf. split_and!; [by split | done | done |].
    simpl. lia. }
  destruct (tracker_update_total N ts rate now (arrival_delay_tracker dm0))
    as (tr' & d & -> & Hd & _); [by rewrite Hq0 | done | done |]. simpl.
  set (dm1 := dm0 <| arrival_delay_tracker := tr' |>).
  assert (dm_wf dm1) as Hwf1 by (destruct Hwf0; by split).
  assert (exists dm2, match resample_interval_ms (dm_config dm0) with
     | Some interval => resample interval d now dm1
     | None => register_relative_delay d dm1 end = Some dm2 /\ dm_wf dm2) as (dm2 & E2 & Hwf2).
  { rewrite Hc. destruct (resample_interval_ms (dm_config dm)) as [i|].
    - apply resample_wf; congruence.
    - destruct (register_wf d dm1 Hwf1) as (h & E & Hh & Hn). eexists. split; [exact E |].
      destruct Hwf1. by split. }
  unfold dm1 in E2. simpl in E2. rewrite E2. simpl.
  destruct (update_target_wf dm2 Hwf2) as (dm3 & -> & ? & ?). simpl. eauto.
Qed.

(** Whatever minimum, maximum and base delays are set, in any order, the
    effective bounds stay consistent (minimum at most maximum, maximum at most
    the base maximum given by the buffer size) and the target delay the buffer
    works with, external delay included, lies between them. *)
Theorem dm_bounds_consistent (dm : DelayManager) (sts : list dm_setting) :
  dm_wf dm -> base_nonneg dm -> Forall setting_ok sts ->
  let dm' := foldl apply_setting dm sts in
  effective_minimum_delay_ms dm' <= target_delay_ms dm' <= effective_maximum_delay_ms dm' /\
  0 <= effective_minimum_delay_ms dm' /\
  effective_maximum_delay_ms dm' <= base_maximum_delay_ms (dm_config dm').
Proof.
  intros Hwf Hb Hok. assert (dm_wf (foldl apply_setting dm sts)) as [H1 H2 _ _].
  { revert dm Hwf Hb. induction Hok as [|st sts Hst _ IH]; intros dm Hwf Hb; simpl; [done |].
    destruct (apply_setting_wf dm st Hwf Hb Hst). by apply IH. }
  simpl. unfold target_delay_ms. lia.
Qed.

Lemma dm_new_wf (cfg : DelayConfig) :
  0 <= base_minimum_delay_ms cfg <= base_maximum_delay_ms cfg ->
  0 <= wrap_i 32 (f64_to_q (cfg_forget_factor cfg) 15) <= 2 ^ 15 -> dm_wf (dm_new cfg).
Proof.
  intros H1 H2. split; simpl; [lia | lia | | done].
  apply hist_new_wf; [unfold K_DELAY_BUCKETS; lia | done].
Qed.

(** ** Witnesses: the default configuration *)

Lemma default_dm_wf : dm_wf (dm_new delay_config_default).
Proof. apply dm_new_wf; [simpl; lia | vm_compute; split; congruence]. Qed.

(** Two thousand packets in the two seconds of history: twenty times the rate
    of 10 ms audio packets. *)
Lemma default_percentile : percentile_in_range 2000 (cfg_quantile delay_config_default).
Proof.
  intros n Hn.
  assert (forallb (fun n => as_u 64 (F64.mul (F64.of_Z (Z.of_nat n))
            (cfg_quantile delay_config_default)) <=? Z.of_nat n) (seq 0 2000) = true) as H
    by (vm_compute; reflexivity).
  rewrite forallb_forall in H. apply Z.leb_le, H, in_seq. lia.
Qed.

Lemma dm_update_total_witness :
  exists dm', dm_update 960 48000 false 20000000 (dm_new delay_config_default) = Some (dm', Ok tt) /\
    dm_wf dm' /\
    effective_minimum_delay_ms dm' <= target_level_ms dm' <= effective_maximum_delay_ms dm'.
Proof.
  apply (dm_update_total 2000);
    [exact default_dm_wf | lia | discriminate | exact default_percentile | simpl; lia].
Defined.

Lemma dm_bounds_consistent_witness :
  let dm' := foldl apply_setting (dm_new delay_config_default)
    [SetMinimum 5000; SetMaximum 10; SetBaseMaximum 300; SetBaseMinimum 400] in
  effective_minimum_delay_ms dm' <= target_delay_ms dm' <= effective_maximum_delay_ms dm' /\
  0 <= effective_minimum_delay_ms dm' /\
  effective_maximum_delay_ms dm' <= base_maximum_delay_ms (dm_config dm').
Proof.
  apply dm_bounds_consistent;
    [exact default_dm_wf | split; simpl; lia | repeat constructor; simpl; unfold u_in; lia].
Defined.
