(* ===== verification/TimeStretch.v ===== *)
(** * Time stretching of audio (neteq/src/signal.rs, time_stretch.rs, expand.rs)

    Samples are [f32] values, a slice is the list of its samples, lengths and
    indices ([usize]) are [nat]. An [&mut] slice that an operation writes is an
    argument and comes back with the results. [None] stands for a panic: a slice
    range or an index out of bounds, or the subtraction of two lengths below
    zero. The class [TimeStretcher] is the trait of the same name, and
    [TimeStretcherSpec] is what the audio engine relies on. *)
From Stdlib Require Import SpecFloat.
From S2P Require Import Prelude Floats.

(** ** Slices *)

(** [&l[a..b]]. *)
Definition slice {A : Type} (a b : nat) (l : list A) : option (list A) :=
  if bool_decide (a <= b)%nat && bool_decide (b <= length l)%nat
  then Some (take (b - a) (drop a l)) else None.

(** [out[a..b].copy_from_slice(src)]. *)
Definition copy_into {A : Type} (a b : nat) (src out : list A) : option (list A) :=
  if bool_decide (a <= b)%nat && bool_decide (b <= length out)%nat &&
     bool_decide (length src = b - a)%nat
  then Some (take a out ++ src ++ drop b out) else None.

(** [a - b] on lengths. *)
Definition checked_sub (a b : nat) : option nat :=
  if bool_decide (b <= a)%nat then Some (a - b)%nat else None.

Lemma slice_ok {A : Type} (a b : nat) (l : list A) :
  (a <= b)%nat -> (b <= length l)%nat ->
  exists k, slice a b l = Some k /\ length k = (b - a)%nat.
Proof.
  intros. unfold slice. rewrite !bool_decide_true by done. simpl.
  eexists. split; [done |]. rewrite length_take, length_drop. lia.
Qed.

Lemma slice_Some {A : Type} (a b : nat) (l k : list A) :
  slice a b l = Some k -> (a <= b)%nat /\ (b <= length l)%nat /\ length k = (b - a)%nat.
Proof.
  unfold slice. intros H. repeat case_bool_decide; simplify_eq/=.
  rewrite length_take, length_drop. lia.
Qed.

Lemma copy_into_ok {A : Type} (a b : nat) (src out : list A) :
  (a <= b)%nat -> (b <= length out)%nat -> length src = (b - a)%nat ->
  exists out', copy_into a b src out = Some out' /\ length out' = length out.
Proof.
  intros. unfold copy_into. rewrite !bool_decide_true by done. simpl.
  eexists. split; [done |]. rewrite !length_app, length_take, length_drop. lia.
Qed.

(** ** signal.rs *)

(** The loop of [best_normalized_correlation], at index [i]. *)
Fixpoint correlation_loop (n i : nat) (a b : list float) (len : nat)
    (corr energy : float) (best_pos : nat) (best_corr : float) : option (nat * float) :=
  match n with
  | O => Some (best_pos, best_corr)
  | S n' =>
      x ← a !! i; y ← b !! i;
      let corr := F32.add corr (F32.mul x y) in
      let energy := F32.add energy (fmax (F32.mul x x) (F32.mul y y)) in
      if bool_decide (len <= i + 1)%nat then
        let normalized_corr :=
          if SFeqb energy (F32.of_Z 0) then F32.of_Z 1 else F32.div corr energy in
        let i_start := (i + 1 - len)%nat in
        if fle (F32.of_Z 1) normalized_corr then Some (i_start, F32.of_Z 1)
        else
          let '(best_pos, best_corr) :=
            if flt best_corr normalized_corr then (i_start, normalized_corr)
            else (best_pos, best_corr) in
          old_x ← a !! i_start; old_y ← b !! i_start;
          correlation_loop n' (i + 1) a b len
            (F32.sub corr (F32.mul old_x old_y))
            (F32.sub energy (fmax (F32.mul old_x old_x) (F32.mul old_y old_y)))
            best_pos best_corr
      else correlation_loop n' (i + 1) a b len corr energy best_pos best_corr
  end.

Definition best_normalized_correlation (a b : list float) (len : nat) : option (nat * float) :=
  correlation_loop (length a) 0 a b len (F32.of_Z 0) (F32.of_Z 0) 0 (F32.of_Z (-1)).

(** One cross-faded sample. *)
Definition fade_sample (fade_len i : nat) (p n : float) : float :=
  let fade_out := F32.sub (F32.of_Z 1)
    (F32.div (F32.of_Z (Z.of_nat i)) (F32.of_Z (Z.of_nat fade_len))) in
  let fade_in := F32.sub (F32.of_Z 1) fade_out in
  F32.add (F32.mul p fade_out) (F32.mul n fade_in).

Definition crossfade (prev next : list float) (fade_len : nat) (out : list float)
    : option (list float) :=
  fade_start ← checked_sub (length prev) fade_len;
  if bool_decide (length prev <= length out)%nat && bool_decide (fade_len <= length next)%nat then
    Some (take fade_start prev ++
          imap (fun i pn => fade_sample fade_len i pn.1 pn.2)
            (zip (drop fade_start prev) (take fade_len next)) ++
          drop (fade_start + fade_len) out)
  else None.

(** [(rate as f32 * 0.003) as usize], at least 32 samples. *)
Definition calculate_overlap_length (rate : Z) : nat :=
  Nat.max (Z.to_nat (as_u 64 (F32.mul (F32.of_Z rate) (F32.lit 3 1000)))) 32.

(** [samples.iter().map(|x| x * x).sum() / samples.len() as f32]. *)
Definition calculate_energy (samples : list float) : float :=
  F32.div (foldl (fun acc x => F32.add acc (F32.mul x x)) (F32.of_Z 0) samples)
    (F32.of_Z (Z.of_nat (length samples))).

(** ** time_stretch.rs: the trait *)

Inductive TimeStretchResult : Type := TsSuccess | TsSuccessLowEnergy | TsNoStretch | TsError.

Class TimeStretcher (T : Type) : Type := {
  process : list float -> list float -> bool -> T -> option (T * list float * TimeStretchResult);
  get_used_input_samples : T -> nat;
  ts_reset : T -> T;
}.

(** What the engine relies on: on inputs long enough, processing does not panic,
    fills the output slice, reports no more input as used than there was, and
    leaves a stretcher that works as well. *)
Class TimeStretcherSpec (T : Type) `{!TimeStretcher T} (Inv : T -> Prop)
    (fits : nat -> nat -> Prop) : Prop :=
  process_spec : forall (t : T) (input output : list float) (fast : bool),
    Inv t -> fits (length input) (length output) ->
    exists t' output' r, process input output fast t = Some (t', output', r) /\
      length output' = length output /\ Inv t' /\
      (get_used_input_samples t' <= length input)%nat.

(** ** time_stretch.rs: acceleration *)

Record Accelerator : Type := mkAccelerator {
  acc_sample_rate : Z;
  acc_channels : Z;
  acc_used_input_samples : nat;
  acc_overlap_length : nat;
  max_change_rate : float;
  low_energy_threshold : float;
}.

#[export] Instance eta_Accelerator : Eta Accelerator := fun r =>
  mkAccelerator (acc_sample_rate r) (acc_channels r) (acc_used_input_samples r)
    (acc_overlap_length r) (max_change_rate r) (low_energy_threshold r).

Definition accelerate_new (rate chans : Z) : Accelerator :=
  mkAccelerator rate chans 0 (calculate_overlap_length rate) (F32.lit 1 4) (F32.lit 1 10000).

Definition ENERGY_THRESHOLD_DECREASE_FACTOR : float := F32.lit 995 1000.
Definition ENERGY_THRESHOLD_INCREASE_FACTOR : float := F32.lit 1002 1000.

Definition max_samples_to_remove (n_in n_out : nat) (acceleration_factor : float) (a : Accelerator)
    : option nat :=
  let max_remove := Z.to_nat (as_u 64 (F32.mul (F32.of_Z (Z.of_nat n_out)) acceleration_factor)) in
  let max_remove := Nat.min max_remove (n_out / 2) in
  spare ← checked_sub n_in n_out;
  Some (Nat.max (Nat.min max_remove spare) (acc_overlap_length a)).

(** The rolling sum of the energy deviation from the threshold. *)
Fixpoint rolling_sum (threshold last : float) (input : list float) : list float :=
  last :: match input with
          | [] => []
          | x :: input' =>
              rolling_sum threshold (F32.sub (F32.add last (F32.mul x x)) threshold) input'
          end.

(** An index of [energy_deviation_rolling_sum]; the loops below only use
    indices below its length (see [peaks_in_range]). *)
Definition sum_at (sums : list float) (i : nat) : float := default (F32.of_Z 0) (sums !! i).

(** The stack of increasing peaks, its top first. *)
Fixpoint peaks (sums : list float) (i : nat) (vals : list float) (stack : list nat) : list nat :=
  match vals with
  | [] => stack
  | val :: vals' =>
      let stack := match stack with
                   | [] => [i]
                   | top :: _ => if flt (sum_at sums top) val then i :: stack else stack
                   end in
      peaks sums (i + 1) vals' stack
  end.

(** The inner [while si > 0] loop: [todo] is the part of the stack below [si].
    Returns the stack (truncated at the last improvement) and the best
    (start, length). *)
Fixpoint scan_stack (validate : nat -> nat -> bool) (sums : list float) (j : nat)
    (todo stack : list nat) (best : nat * nat) : list nat * (nat * nat) :=
  match todo with
  | [] => (stack, best)
  | i :: todo' =>
      if fle (sum_at sums j) (sum_at sums i) then
        let len := (j - i)%nat in
        if bool_decide (best.2 < len)%nat && validate i len
        then scan_stack validate sums j todo' todo' (i, len)
        else scan_stack validate sums j todo' stack best
      else (stack, best)
  end.

(** [while !stack.is_empty() && stack.last() >= j { stack.pop() }]. *)
Fixpoint pop_from (j : nat) (stack : list nat) : list nat :=
  match stack with
  | top :: stack' => if bool_decide (j <= top)%nat then pop_from j stack' else stack
  | [] => []
  end.

(** The reverse scan, for [j] from [n - 1] down to 0. *)
Fixpoint reverse_scan (validate : nat -> nat -> bool) (sums : list float) (n : nat)
    (stack : list nat) (best : nat * nat) : nat * nat :=
  match n with
  | O => best
  | S j =>
      match pop_from j stack with
      | [] => best
      | stack => let '(stack, best) := scan_stack validate sums j stack stack best in
                 reverse_scan validate sums j stack best
      end
  end.

Definition longest_low_energy_region (input : list float) (threshold : float)
    (validate : nat -> nat -> bool) : nat * nat :=
  let sums := rolling_sum threshold (F32.of_Z 0) input in
  reverse_scan validate sums (length sums) (peaks sums 0 sums []) (0%nat, 0%nat).

Definition find_low_energy_to_remove (input : list float) (n_out max_remove : nat) (a : Accelerator)
    : option (Accelerator * (nat * nat)) :=
  usable_input ← slice 0 (n_out + max_remove) input;
  let validate i len :=
    bool_decide (i + Nat.min (len - acc_overlap_length a) max_remove <= n_out)%nat in
  let '(best_pos, best_len) :=
    longest_low_energy_region usable_input (low_energy_threshold a) validate in
  let a' :=
    if bool_decide (max_remove < best_len)%nat then
      a <| low_energy_threshold :=
             F32.mul (low_energy_threshold a) ENERGY_THRESHOLD_DECREASE_FACTOR |>
    else if bool_decide (best_len < max_remove / 2)%nat then
      a <| low_energy_threshold :=
             F32.mul (low_energy_threshold a) ENERGY_THRESHOLD_INCREASE_FACTOR |>
    else a in
  let samples_to_remove := Nat.min (best_len - acc_overlap_length a) max_remove in
  if bool_decide (samples_to_remove < acc_overlap_length a)%nat then Some (a', (0%nat, 0%nat))
  else Some (a', (best_pos, samples_to_remove)).

Definition F32_MAX : float := S754_finite false (2 ^ 24 - 1) 104.

(** [(a..b).step_by(k)], for a positive [k]. *)
Definition step_by (a b k : nat) : list nat :=
  (fun i => a + i * k)%nat <$> seq 0 ((b - a + k - 1) / k).

Definition removal_step (input : list float) (removal_length : nat) (st : option (nat * float))
    (pos : nat) : option (nat * float) :=
  '(best_position, lowest_energy) ← st;
  region ← slice pos (Nat.min (pos + removal_length) (length input)) input;
  let region_energy := calculate_energy region in
  Some (if flt region_energy lowest_energy then (pos, region_energy)
        else (best_position, lowest_energy)).

Definition find_best_removal_point (input : list float) (removal_length : nat) (a : Accelerator)
    : option nat :=
  let n := length input in
  let ov := acc_overlap_length a in
  if bool_decide (ov / 2 = 0)%nat then None
  else
    fst <$> foldl (removal_step input removal_length) (Some ((n / 3)%nat, F32_MAX))
              (step_by ov (n - (removal_length + ov)) (ov / 2)).

(** The copy branches: the output is the beginning of the input. *)
Definition acc_copy (n : nat) (input output : list float) (a : Accelerator)
    : option (Accelerator * list float * TimeStretchResult) :=
  src ← slice 0 n input;
  out ← copy_into 0 n src output;
  Some (a <| acc_used_input_samples := n |>, out, TsNoStretch).

(** The removal itself: [rem] samples at [pos] are cut out with a cross-fade. *)
Definition acc_remove (input output : list float) (pos rem : nat) (low : bool) (a : Accelerator)
    : option (Accelerator * list float * TimeStretchResult) :=
  let ov := acc_overlap_length a in
  usable_input ← slice 0 (length output + rem) input;
  head ← slice 0 pos usable_input;
  out1 ← copy_into 0 pos head output;
  prev ← slice pos (pos + ov) usable_input;
  next ← slice (pos + rem) (pos + rem + ov) usable_input;
  dst ← slice pos (pos + ov) out1;
  faded ← crossfade prev next ov dst;
  out2 ← copy_into pos (pos + ov) faded out1;
  rest ← slice (pos + rem + ov) (length usable_input) usable_input;
  out3 ← copy_into (pos + ov) (length out2) rest out2;
  Some (a <| acc_used_input_samples := length usable_input |>, out3,
        if low then TsSuccessLowEnergy else TsSuccess).

Definition accelerate_internal (input output : list float) (fast_mode : bool) (a : Accelerator)
    : option (Accelerator * list float * TimeStretchResult) :=
  let n_in := length input in
  let n_out := length output in
  if bool_decide (n_in <= n_out)%nat then acc_copy n_in input output a
  else if bool_decide (n_out < acc_overlap_length a * 2)%nat then acc_copy n_out input output a
  else
    max_low ← max_samples_to_remove n_in n_out (if fast_mode then F32.lit 4 10 else F32.lit 2 10) a;
    max_high ← (if fast_mode then max_samples_to_remove n_in n_out (F32.lit 1 4) a
                else Some 0%nat);
    '(a1, (best_pos, rem)) ← find_low_energy_to_remove input n_out max_low a;
    if negb fast_mode then
      if bool_decide (rem = 0)%nat then acc_copy n_out input output a1
      else acc_remove input output best_pos rem true a1
    else if bool_decide (rem < max_high)%nat then
      window ← slice 0 (n_out + max_high) input;
      pos ← find_best_removal_point window max_high a1;
      acc_remove input output pos max_high false a1
    else acc_remove input output best_pos rem true a1.

#[export] Instance Accelerator_stretcher : TimeStretcher Accelerator := {
  process := accelerate_internal;
  get_used_input_samples := acc_used_input_samples;
  ts_reset := fun a => a <| acc_used_input_samples := 0%nat |>;
}.

(** ** time_stretch.rs: preemptive expansion *)

Record PreemptiveExpander : Type := mkPreemptiveExpander {
  pre_sample_rate : Z;
  pre_channels : Z;
  pre_used_input_samples : nat;
  pre_overlap_length : nat;
  corr_threshold : float;
}.

#[export] Instance eta_PreemptiveExpander : Eta PreemptiveExpander := fun r =>
  mkPreemptiveExpander (pre_sample_rate r) (pre_channels r) (pre_used_input_samples r)
    (pre_overlap_length r) (corr_threshold r).

Definition preemptive_new (rate chans : Z) : PreemptiveExpander :=
  mkPreemptiveExpander rate chans 0 (calculate_overlap_length rate) (F32.lit 99 100).

Definition pre_copy (n : nat) (input output : list float) (p : PreemptiveExpander)
    : option (PreemptiveExpander * list float * TimeStretchResult) :=
  src ← slice 0 n input;
  out ← copy_into 0 n src output;
  Some (p <| pre_used_input_samples := n |>, out, TsNoStretch).

(** The search over the lags: the best (correlation, position, lag). *)
Definition lag_step (input : list float) (n_out ov : nat) (st : option (float * nat * nat))
    (add_len : nat) : option (float * nat * nat) :=
  '(best_corr, best_pos, best_add_len) ← st;
  correlation_len ← checked_sub n_out (add_len * 2);
  x ← slice add_len (correlation_len + add_len) input;
  y ← slice 0 correlation_len input;
  '(pos, corr) ← best_normalized_correlation x y ov;
  Some (if flt best_corr corr then (corr, pos, add_len)
        else (best_corr, best_pos, best_add_len)).

Definition best_lag (input : list float) (n_out ov : nat) (lags : list nat)
    : option (float * nat * nat) :=
  foldl (lag_step input n_out ov) (Some (F32.of_Z (-1), 0%nat, 0%nat)) lags.

(** The duplication of [add_len] samples at [pos] with a cross-fade. *)
Definition pre_insert (input output : list float) (pos add_len : nat) (low : bool)
    (p : PreemptiveExpander) : option (PreemptiveExpander * list float * TimeStretchResult) :=
  let ov := pre_overlap_length p in
  used ← checked_sub (length output) add_len;
  usable_input ← slice 0 used input;
  head ← slice 0 (add_len + pos) usable_input;
  out1 ← copy_into 0 (add_len + pos) head output;
  prev ← slice (add_len + pos) (add_len + pos + ov) usable_input;
  next ← slice pos (pos + ov) usable_input;
  dst ← slice (add_len + pos) (add_len + pos + ov) out1;
  faded ← crossfade prev next ov dst;
  out2 ← copy_into (add_len + pos) (add_len + pos + ov) faded out1;
  rest ← slice (pos + ov) (length usable_input) usable_input;
  out3 ← copy_into (add_len + pos + ov) (length out2) rest out2;
  Some (p <| pre_used_input_samples := length usable_input |>, out3,
        if low then TsSuccessLowEnergy else TsSuccess).

Definition expand_internal (input output : list float) (fast_mode : bool) (p : PreemptiveExpander)
    : option (PreemptiveExpander * list float * TimeStretchResult) :=
  let n_in := length input in
  let n_out := length output in
  let ov := pre_overlap_length p in
  if bool_decide (n_in < n_out)%nat then pre_copy n_in input output p
  else
    let is_low_energy := flt (calculate_energy input) (F32.lit 1 100) in
    room ← checked_sub n_out ov;
    let max_add := (room / 2)%nat in
    if bool_decide (max_add < ov)%nat then pre_copy n_out input output p
    else
      '(best_corr, best_pos, best_add_len) ← best_lag input n_out ov (seq ov (max_add - ov));
      if flt best_corr (corr_threshold p) then
        pre_copy n_out input output
          (p <| corr_threshold := F32.mul (corr_threshold p) (F32.lit 98 100) |>)
      else
        pre_insert input output best_pos best_add_len is_low_energy
          (p <| corr_threshold := fmax (corr_threshold p) (F32.mul best_corr (F32.lit 95 100)) |>).

#[export] Instance PreemptiveExpander_stretcher : TimeStretcher PreemptiveExpander := {
  process := expand_internal;
  get_used_input_samples := pre_used_input_samples;
  ts_reset := fun p => p <| pre_used_input_samples := 0%nat |>;
}.

(** ** expand.rs: concealment *)

Inductive ExpandPhase : Type := PhExpand | PhExpandStart | PhExpandEnd.

Inductive ExpandResult : Type := ExSuccess | ExNoExpand.

Record Expander : Type := mkExpander {
  exp_used_input_samples : nat;
  exp_overlap_length : nat;
  rng_state : Z;
}.

#[export] Instance eta_Expander : Eta Expander := fun r =>
  mkExpander (exp_used_input_samples r) (exp_overlap_length r) (rng_state r).

Definition expander_new (rate : Z) : Expander := mkExpander 0 (calculate_overlap_length rate) 1.

Definition samples_required (phase : ExpandPhase) (e : Expander) : nat :=
  match phase with PhExpand => 0 | _ => exp_overlap_length e end.

(** The xorshift step on 64 bits, and the [f32] made of its bits 16..32. *)
Definition xorshift (x : Z) : Z :=
  let x := Z.lxor x (wrap_u 64 (Z.shiftl x 13)) in
  let x := Z.lxor x (Z.shiftr x 7) in
  Z.lxor x (wrap_u 64 (Z.shiftl x 17)).

Definition random_of_state (x : Z) : float :=
  F32.div (F32.of_Z (Z.shiftr (wrap_u 32 x) 16)) (F32.of_Z 65536).

(** [n] samples of noise from the generator. *)
Fixpoint noise (scale : float) (n : nat) (state : Z) : Z * list float :=
  match n with
  | O => (state, [])
  | S n' =>
      let state := xorshift state in
      let '(state', l) := noise scale n' state in
      (state', F32.mul (F32.sub (random_of_state state) (F32.lit 1 2)) scale :: l)
  end.

Definition expander_process (input output : list float) (phase : ExpandPhase) (e : Expander)
    : option (Expander * list float * ExpandResult) :=
  let required := samples_required phase e in
  let ov := exp_overlap_length e in
  if bool_decide (length input < required)%nat || bool_decide (length output < required)%nat then
    let samples := Nat.min (length input) (length output) in
    src ← slice 0 samples input;
    out ← copy_into 0 samples src output;
    Some (e <| exp_used_input_samples := samples |>, out, ExNoExpand)
  else
    let '(state, out) := noise (F32.lit 1 10000) (length output) (rng_state e) in
    let e1 := e <| rng_state := state |> <| exp_used_input_samples := required |> in
    match phase with
    | PhExpand => Some (e1, out, ExSuccess)
    | PhExpandStart =>
        start_of_frame ← slice 0 ov out;
        prev ← slice 0 ov input;
        faded ← crossfade prev start_of_frame ov start_of_frame;
        out' ← copy_into 0 ov faded out;
        Some (e1, out', ExSuccess)
    | PhExpandEnd =>
        start ← checked_sub (length out) ov;
        end_of_frame ← slice start (length out) out;
        next ← slice 0 ov input;
        faded ← crossfade end_of_frame next ov end_of_frame;
        out' ← copy_into start (length out) faded out;
        Some (e1, out', ExSuccess)
    end.

(** ** Lengths *)

Lemma crossfade_ok (prev next out : list float) (n : nat) :
  length prev = n -> length next = n -> length out = n ->
  exists k, crossfade prev next n out = Some k /\ length k = n.
Proof.
  intros Hp Hn Ho. unfold crossfade, checked_sub. rewrite !Hp, !Hn, !Ho.
  rewrite !bool_decide_true by lia. simpl. eexists. split; [done |].
  rewrite !length_app, length_take, length_imap, length_zip, !length_drop, length_take. lia.
Qed.

(** One step through the next slice, copy or cross-fade of a goal. *)
Ltac slice_step :=
  match goal with
  | |- context [slice ?a ?b ?l] =>
      let k := fresh "s" in let E := fresh "Es" in let H := fresh "Hs" in
      destruct (slice_ok a b l) as (k & E & H); [lia | lia |]; rewrite E; cbn [mbind option_bind]
  | |- context [copy_into ?a ?b ?src ?out] =>
      let k := fresh "o" in let E := fresh "Eo" in let H := fresh "Ho" in
      destruct (copy_into_ok a b src out) as (k & E & H); [lia | lia | lia |];
      rewrite E; cbn [mbind option_bind]
  | |- context [crossfade ?p ?n ?l ?out] =>
      let k := fresh "f" in let E := fresh "Ef" in let H := fresh "Hf" in
      destruct (crossfade_ok p n out l) as (k & E & H); [lia | lia | lia |];
      rewrite E; cbn [mbind option_bind]
  end.

Lemma checked_sub_ok (a b : nat) : (b <= a)%nat -> checked_sub a b = Some (a - b)%nat.
Proof. intros. unfold checked_sub. by rewrite bool_decide_true. Qed.

Lemma acc_copy_ok (n : nat) (input output : list float) (a : Accelerator) :
  (n <= length input)%nat -> (n <= length output)%nat ->
  exists output', acc_copy n input output a =
      Some (a <| acc_used_input_samples := n |>, output', TsNoStretch) /\
    length output' = length output.
Proof. intros. unfold acc_copy. repeat slice_step. eauto. Qed.

Lemma acc_remove_ok (input output : list float) (pos rem : nat) (low : bool) (a : Accelerator) :
  (pos + acc_overlap_length a <= length output)%nat -> (length output + rem <= length input)%nat ->
  exists output' r, acc_remove input output pos rem low a =
      Some (a <| acc_used_input_samples := (length output + rem)%nat |>, output', r) /\
    length output' = length output.
Proof.
  intros. unfold acc_remove. repeat slice_step.
  rewrite Nat.sub_0_r in Hs. rewrite Hs. do 2 eexists. split; [reflexivity | lia].
Qed.

Lemma pre_copy_ok (n : nat) (input output : list float) (p : PreemptiveExpander) :
  (n <= length input)%nat -> (n <= length output)%nat ->
  exists output', pre_copy n input output p =
      Some (p <| pre_used_input_samples := n |>, output', TsNoStretch) /\
    length output' = length output.
Proof. intros. unfold pre_copy. repeat slice_step. eauto. Qed.

Lemma pre_insert_ok (input output : list float) (pos add_len : nat) (low : bool)
    (p : PreemptiveExpander) :
  (pos + pre_overlap_length p + 2 * add_len <= length output)%nat ->
  (length output <= length input)%nat ->
  exists output' r, pre_insert input output pos add_len low p =
      Some (p <| pre_used_input_samples := (length output - add_len)%nat |>, output', r) /\
    length output' = length output.
Proof.
  intros. unfold pre_insert. rewrite checked_sub_ok by lia. cbn [mbind option_bind].
  repeat slice_step. rewrite Nat.sub_0_r in Hs. rewrite Hs.
  do 2 eexists. split; [reflexivity | lia].
Qed.

(** ** The low-energy search *)

Definition region_ok (validate : nat -> nat -> bool) (n : nat) (best : nat * nat) : Prop :=
  best = (0%nat, 0%nat) \/ validate best.1 best.2 = true /\ (best.1 + best.2 <= n)%nat.

Lemma scan_stack_ok validate sums j todo stack best n :
  (j <= n)%nat -> region_ok validate n best ->
  region_ok validate n (scan_stack validate sums j todo stack best).2.
Proof.
  intros Hj. revert stack best. induction todo as [|i todo IH]; intros stack best Hb; simpl; [done |].
  destruct (fle _ _); [|done].
  destruct (bool_decide (best.2 < j - i)%nat) eqn:Hl; simpl; [|by apply IH].
  apply bool_decide_eq_true in Hl.
  destruct (validate i (j - i)%nat) eqn:Hv; [|by apply IH].
  apply IH. right. simpl. split; [done | lia].
Qed.

Lemma reverse_scan_ok validate sums m n stack best :
  (m <= n + 1)%nat -> region_ok validate n best ->
  region_ok validate n (reverse_scan validate sums m stack best).
Proof.
  revert stack best. induction m as [|j IH]; intros stack best Hm Hb; cbn [reverse_scan]; [done |].
  destruct (pop_from j stack) as [|t st]; [done |].
  pose proof (scan_stack_ok validate sums j (t :: st) (t :: st) best n ltac:(lia) Hb) as Hs.
  destruct (scan_stack _ _ _ _ _ _) as [st' b']. apply IH; [lia | done].
Qed.

Lemma length_rolling_sum thr x input : length (rolling_sum thr x input) = S (length input).
Proof. revert x. induction input as [|y l IH]; intros x; simpl; [done |]. by rewrite IH. Qed.

(** The region found satisfies the caller's constraint and lies in the input. *)
Lemma longest_region_ok input thr validate :
  region_ok validate (length input) (longest_low_energy_region input thr validate).
Proof.
  unfold longest_low_energy_region. apply reverse_scan_ok; [|by left].
  rewrite length_rolling_sum. lia.
Qed.

(** The stack only holds indices of the rolling sum. *)
Lemma peaks_in_range sums i vals stack :
  Forall (fun k => k < i)%nat stack ->
  Forall (fun k => k < i + length vals)%nat (peaks sums i vals stack).
Proof.
  revert i stack. induction vals as [|v vals IH]; intros i stack Hs; simpl.
  - by rewrite Nat.add_0_r.
  - replace (i + S (length vals))%nat with ((i + 1) + length vals)%nat by lia. apply IH.
    assert (Forall (fun k => (k < i + 1)%nat) stack) as Hs' by (eapply Forall_impl; [exact Hs | simpl; lia]).
    destruct stack as [|top st]; [repeat constructor; lia |].
    destruct (flt _ _); [constructor; [lia | done] | done].
Qed.

Lemma find_low_energy_ok (input : list float) (n_out max_remove : nat) (a : Accelerator) :
  (n_out + max_remove <= length input)%nat ->
  exists a' pos rem, find_low_energy_to_remove input n_out max_remove a = Some (a', (pos, rem)) /\
    acc_overlap_length a' = acc_overlap_length a /\ (rem <= max_remove)%nat /\
    (rem <> 0%nat -> acc_overlap_length a <= rem /\ pos + rem <= n_out)%nat.
Proof.
  intros H. unfold find_low_energy_to_remove. slice_step.
  set (validate := fun i len => _).
  pose proof (longest_region_ok s (low_energy_threshold a) validate) as Hr.
  destruct (longest_low_energy_region _ _ _) as [pos len].
  set (a' := if bool_decide (max_remove < len)%nat then _ else _).
  assert (acc_overlap_length a' = acc_overlap_length a) as Ha'.
  { unfold a'. by repeat case_bool_decide. }
  case_bool_decide as Hs2.
  - exists a', 0%nat, 0%nat. split_and!; [done | done | lia | done].
  - eexists a', pos, _. split_and!; [done | done | lia |]. intros Hne.
    destruct Hr as [[= -> ->] | [Hv _]]; [simpl in *; lia |].
    apply bool_decide_eq_true in Hv. simpl in Hv. lia.
Qed.

(** ** The removal point of fast mode *)

Lemma step_by_bounds (a b k x : nat) : (0 < k)%nat -> x ∈ step_by a b k -> (a <= x < b)%nat.
Proof.
  intros Hk Hx. apply list_elem_of_fmap in Hx as (i & -> & Hi). apply elem_of_seq in Hi.
  split; [lia |]. destruct Hi as [_ Hi].
  pose proof (Nat.div_mod (b - a + k - 1) k ltac:(lia)).
  pose proof (Nat.mod_upper_bound (b - a + k - 1) k ltac:(lia)). nia.
Qed.

Lemma find_best_ok (input : list float) (rem : nat) (a : Accelerator) :
  (2 <= acc_overlap_length a)%nat ->
  exists pos, find_best_removal_point input rem a = Some pos /\
    (pos = (length input / 3)%nat \/ pos + rem + acc_overlap_length a <= length input)%nat.
Proof.
  intros Hov. unfold find_best_removal_point. set (ov := acc_overlap_length a).
  assert (0 < ov / 2)%nat as Hk by (apply Nat.div_str_pos; lia).
  rewrite bool_decide_false by lia. set (n := length input).
  set (ok := fun pos => pos = (n / 3)%nat \/ (pos + rem + ov <= n)%nat).
  assert (forall l st, Forall (fun x => x + rem + ov <= n)%nat l -> ok st.1 ->
    exists r, foldl (removal_step input rem) (Some st) l = Some r /\ ok r.1) as Hloop.
  { induction l as [|x l IH]; intros [b lo] Hl Hst; simpl; [eauto |].
    inversion Hl; subst. fold n. slice_step. apply IH; [done |]. destruct (flt _ _); simpl; [by right | done]. }
  destruct (Hloop (step_by ov (n - (rem + ov)) (ov / 2)) ((n / 3)%nat, F32_MAX)) as (r & -> & Hr).
  - apply Forall_forall. intros x Hx. apply step_by_bounds in Hx; lia.
  - by left.
  - exists r.1. split; [done | exact Hr].
Qed.

(** ** The correlation search *)

Lemma correlation_ok (n i : nat) (a b : list float) (len : nat) corr energy bp bc :
  (n + i = length a)%nat -> length b = length a -> (1 <= len)%nat ->
  (bp + len <= length a)%nat ->
  exists pos c, correlation_loop n i a b len corr energy bp bc = Some (pos, c) /\
    (pos + len <= length a)%nat.
Proof.
  revert i corr energy bp bc. induction n as [|n IH]; intros i corr energy bp bc Hn Hb Hl Hbp;
    simpl; [eauto |].
  destruct (lookup_lt_is_Some_2 a i) as [x ->]; [lia |].
  destruct (lookup_lt_is_Some_2 b i) as [y ->]; [lia |]. simpl.
  case_bool_decide; [|by apply IH; lia].
  destruct (fle _ _); [eexists _, _; split; [done | lia] |].
  set (nc := if SFeqb _ _ then _ else _).
  destruct (lookup_lt_is_Some_2 a (i + 1 - len)) as [ox ->]; [lia |].
  destruct (lookup_lt_is_Some_2 b (i + 1 - len)) as [oy ->]; [lia |].
  destruct (flt bc nc); simpl; apply IH; lia.
Qed.

Lemma best_lag_ok (input : list float) (n_out ov : nat) (lags : list nat) :
  (1 <= ov)%nat -> (n_out <= length input)%nat ->
  Forall (fun d => ov + 2 * d <= n_out)%nat lags -> (ov <= n_out)%nat ->
  exists c pos d, best_lag input n_out ov lags = Some (c, pos, d) /\
    (pos + ov + 2 * d <= n_out)%nat.
Proof.
  intros Hov Hin Hl Hno. unfold best_lag.
  assert (forall c0 p0 d0, (p0 + ov + 2 * d0 <= n_out)%nat -> exists c pos d,
    foldl (lag_step input n_out ov) (Some (c0, p0, d0)) lags = Some (c, pos, d) /\
    (pos + ov + 2 * d <= n_out)%nat) as Hgen; [|apply Hgen; lia].
  induction Hl as [|d l Hd _ IH]; intros c0 p0 d0 Hst; cbn [foldl]; [eauto 6 |].
  assert (exists c pos d', lag_step input n_out ov (Some (c0, p0, d0)) d = Some (c, pos, d') /\
    (pos + ov + 2 * d' <= n_out)%nat) as (c & pos & d' & -> & Hn); [|by apply IH].
  unfold lag_step. cbn [mbind option_bind].
  rewrite checked_sub_ok by lia. cbn [mbind option_bind]. do 2 slice_step.
  destruct (correlation_ok (length s0) 0 s0 s ov (F32.of_Z 0) (F32.of_Z 0) 0 (F32.of_Z (-1)))
    as (pos & c & E & Hpos); [lia | lia | lia | lia |].
  unfold best_normalized_correlation. rewrite E. cbn [mbind option_bind].
  destruct (flt c0 c); eexists _, _, _; (split; [reflexivity | lia]).
Qed.

(** ** Properties *)

Definition acc_inv (a : Accelerator) : Prop := (2 <= acc_overlap_length a)%nat.

Lemma max_remove_ok (n_in n_out : nat) (f : float) (a : Accelerator) :
  (acc_overlap_length a * 2 <= n_out)%nat -> (3 * n_out <= 2 * n_in)%nat ->
  exists m, max_samples_to_remove n_in n_out f a = Some m /\
    (acc_overlap_length a <= m)%nat /\ (n_out + m <= n_in)%nat /\ (2 * m <= n_out)%nat.
Proof.
  intros H1 H2. unfold max_samples_to_remove. rewrite checked_sub_ok by lia. simpl.
  eexists. split; [done |].
  pose proof (Nat.div_mod n_out 2 ltac:(lia)). lia.
Qed.

Lemma accelerate_ok (input output : list float) (fast_mode : bool) (a : Accelerator) :
  acc_inv a -> (3 * length output <= 2 * length input)%nat ->
  exists a' output' r, accelerate_internal input output fast_mode a = Some (a', output', r) /\
    length output' = length output /\ acc_overlap_length a' = acc_overlap_length a /\
    (length output <= acc_used_input_samples a' <= length input)%nat /\
    (2 * (acc_used_input_samples a' - length output) <= length output)%nat.
Proof.
  intros Hi Hfit. unfold accelerate_internal, acc_inv in *.
  case_bool_decide as H1.
  { destruct (acc_copy_ok (length input) input output a) as (o & E & Hl); [lia | lia |].
    eexists _, _, _. split; [exact E |]. simpl. lia. }
  case_bool_decide as H2.
  { destruct (acc_copy_ok (length output) input output a) as (o & E & Hl); [lia | lia |].
    eexists _, _, _. split; [exact E |]. simpl. lia. }
  destruct (max_remove_ok (length input) (length output)
              (if fast_mode then F32.lit 4 10 else F32.lit 2 10) a) as (ml & -> & Hml); [lia | lia |].
  cbn [mbind option_bind].
  assert (exists mh, (if fast_mode then max_samples_to_remove (length input) (length output)
              (F32.lit 1 4) a else Some 0%nat) = Some mh /\
            (fast_mode = true -> acc_overlap_length a <= mh)%nat /\
            (length output + mh <= length input)%nat /\ (2 * mh <= length output)%nat)
    as (mh & -> & Hmh).
  { destruct fast_mode.
    - destruct (max_remove_ok (length input) (length output) (F32.lit 1 4) a) as (m & E & ?);
        [lia | lia |]. exists m. split_and!; [done | intros _; lia | lia | lia].
    - exists 0%nat. split_and!; [done | done | lia | lia]. }
  cbn [mbind option_bind].
  destruct (find_low_energy_ok input (length output) ml a) as (a1 & pos & rem & -> & Ha1 & Hrem & Hpos);
    [lia |]. cbn [mbind option_bind].
  assert (forall pos rem low, (pos + acc_overlap_length a <= length output)%nat ->
    (rem <= ml)%nat \/ rem = mh ->
    exists a' output' r, acc_remove input output pos rem low a1 = Some (a', output', r) /\
      length output' = length output /\ acc_overlap_length a' = acc_overlap_length a /\
      (length output <= acc_used_input_samples a' <= length input)%nat /\
      (2 * (acc_used_input_samples a' - length output) <= length output)%nat) as Hdo.
  { intros p r low Hp Hr. destruct (acc_remove_ok input output p r low a1) as (o & res & E & Hl);
      [lia | lia |]. eexists _, _, _. split; [exact E |]. simpl. lia. }
  destruct fast_mode; simpl.
  - destruct Hmh as (Hmh & ? & ?). specialize (Hmh eq_refl).
    case_bool_decide; [|apply Hdo; lia]. slice_step.
    destruct (find_best_ok s mh a1) as (p & -> & Hp); [lia |]. cbn [mbind option_bind].
    apply Hdo; [|by right]. rewrite Hs, Ha1 in Hp.
    pose proof (Nat.div_mod (length output + mh - 0) 3 ltac:(lia)). lia.
  - case_bool_decide; [|apply Hdo; lia].
    destruct (acc_copy_ok (length output) input output a1) as (o & E & Hl); [lia | lia |].
    eexists _, _, _. split; [exact E |]. simpl. lia.
Qed.

#[export] Instance Accelerator_spec :
  TimeStretcherSpec Accelerator acc_inv (fun n_in n_out => 3 * n_out <= 2 * n_in)%nat.
Proof.
  intros a input output fast Ha Hf.
  destruct (accelerate_ok input output fast a Ha Hf) as (a' & o & r & E & Hl & Hov & Hu & _).
  exists a', o, r. unfold acc_inv in *. split_and!; [exact E | done | by rewrite Hov | simpl; lia].
Qed.

Definition pre_inv (N : nat) (p : PreemptiveExpander) : Prop :=
  (1 <= pre_overlap_length p <= N)%nat.

Lemma preemptive_ok (N : nat) (input output : list float) (fast_mode : bool)
    (p : PreemptiveExpander) :
  pre_inv N p -> (N <= length output <= length input)%nat ->
  exists p' output' r, expand_internal input output fast_mode p = Some (p', output', r) /\
    length output' = length output /\ pre_overlap_length p' = pre_overlap_length p /\
    (pre_used_input_samples p' <= length output)%nat /\
    (length output <= 2 * pre_used_input_samples p')%nat.
Proof.
  intros [Hov HN] Hlen. unfold expand_internal.
  rewrite bool_decide_false by lia. rewrite checked_sub_ok by lia. cbn [mbind option_bind].
  set (max_add := ((length output - pre_overlap_length p) / 2)%nat).
  assert (2 * max_add <= length output - pre_overlap_length p)%nat as Hm.
  { unfold max_add. pose proof (Nat.div_mod (length output - pre_overlap_length p) 2 ltac:(lia)). lia. }
  assert (forall p', pre_overlap_length p' = pre_overlap_length p ->
    exists p2 output' r, pre_copy (length output) input output p' = Some (p2, output', r) /\
      length output' = length output /\ pre_overlap_length p2 = pre_overlap_length p /\
      (pre_used_input_samples p2 <= length output)%nat /\
      (length output <= 2 * pre_used_input_samples p2)%nat) as Hcopy.
  { intros p' Hp'. destruct (pre_copy_ok (length output) input output p') as (o & E & Hl);
      [lia | lia |]. eexists _, _, _. split; [exact E |]. simpl. lia. }
  case_bool_decide; [by apply Hcopy |].
  destruct (best_lag_ok input (length output) (pre_overlap_length p)
              (seq (pre_overlap_length p) (max_add - pre_overlap_length p)))
    as (c & pos & d & -> & Hd); [lia | lia | | lia |].
  { apply Forall_forall. intros x Hx. apply elem_of_seq in Hx. lia. }
  cbn [mbind option_bind]. destruct (flt c _); [by apply Hcopy |].
  edestruct (pre_insert_ok input output pos d) as (o & r & E & Hl); [..|
    eexists _, _, _; split; [exact E | simpl; lia]]; simpl; lia.
Qed.

#[export] Instance PreemptiveExpander_spec (N : nat) :
  TimeStretcherSpec PreemptiveExpander (pre_inv N) (fun n_in n_out => N <= n_out <= n_in)%nat.
Proof.
  intros p input output fast Hp Hf.
  destruct (preemptive_ok N input output fast p Hp Hf) as (p' & o & r & E & Hl & Hov & Hu & _).
  exists p', o, r. unfold pre_inv in *. split_and!; [exact E | done | lia.. |]. simpl. lia.
Qed.

Lemma length_noise (scale : float) (n : nat) (state : Z) : length (noise scale n state).2 = n.
Proof.
  revert state. induction n as [|n IH]; intros state; cbn [noise]; [done |].
  specialize (IH (xorshift state)). destruct (noise _ _ _) as [st l].
  cbn [snd length] in *. by rewrite IH.
Qed.

(** Concealment never panics, whatever the slices. *)
Lemma expander_ok (input output : list float) (phase : ExpandPhase) (e : Expander) :
  exists e' output' r, expander_process input output phase e = Some (e', output', r) /\
    length output' = length output /\ exp_overlap_length e' = exp_overlap_length e /\
    (exp_used_input_samples e' <= length input)%nat.
Proof.
  unfold expander_process. repeat case_bool_decide; simpl;
    try (repeat slice_step; eexists _, _, _; split; [reflexivity | simpl; lia]).
  pose proof (length_noise (F32.lit 1 10000) (length output) (rng_state e)) as Hn.
  destruct (noise _ _ _) as [st out]. simpl in Hn.
  destruct phase; simpl in *.
  - eexists _, _, _. split; [reflexivity | simpl; lia].
  - repeat slice_step. eexists _, _, _. split; [reflexivity | simpl; lia].
  - rewrite checked_sub_ok by lia. cbn [mbind option_bind]. repeat slice_step.
    eexists _, _, _. split; [reflexivity | simpl; lia].
Qed.

(** ** What acceleration keeps *)

Lemma slice_inv {A : Type} (a b : nat) (l k : list A) :
  slice a b l = Some k -> k = take (b - a) (drop a l) /\ (a <= b <= length l)%nat.
Proof. unfold slice. intros H. by repeat case_bool_decide; simplify_eq/=. Qed.

Lemma copy_into_inv {A : Type} (a b : nat) (src out o : list A) :
  copy_into a b src out = Some o ->
  o = take a out ++ src ++ drop b out /\ (a <= b <= length out)%nat /\ length src = (b - a)%nat.
Proof. unfold copy_into. intros H. by repeat case_bool_decide; simplify_eq/=. Qed.

(** Peel the slices and copies of a hypothesis [... = Some _]. *)
Ltac peel H :=
  repeat match type of H with
  | mbind ?f ?o = Some _ =>
      let x := fresh "x" in let E := fresh "E" in
      destruct o as [x|] eqn:E; [cbn [mbind option_bind] in H | discriminate H]
  end.

Lemma copy_into_parts {A : Type} (a b : nat) (src out o : list A) :
  copy_into a b src out = Some o -> take a o = take a out /\ drop b o = drop b out /\
    (b = length out -> drop a o = src) /\ (a = 0%nat -> take b o = src) /\
    length o = length out /\ (a <= b <= length out)%nat.
Proof.
  intros H. apply copy_into_inv in H as (-> & Hb & Hs).
  assert (length (take a out) = a) as Ha by (rewrite length_take; lia).
  split_and!.
  - by rewrite take_app_length'.
  - rewrite app_assoc, drop_app_length'; [done |]. rewrite length_app. lia.
  - intros ->. rewrite drop_app_length' by done. rewrite drop_all, app_nil_r. done.
  - intros ->. simpl. rewrite take_app_length'; [done | lia].
  - rewrite !length_app, length_drop. lia.
  - lia.
  - lia.
Qed.

Lemma take_shorter {A : Type} (i j : nat) (l k : list A) :
  (i <= j)%nat -> take j l = take j k -> take i l = take i k.
Proof.
  intros Hij H. apply (f_equal (take i)) in H. rewrite !take_take in H.
  by replace (i `min` j)%nat with i in H by lia.
Qed.

Lemma acc_remove_content (input output out' : list float) (pos rem : nat) (low : bool)
    (a a' : Accelerator) (r : TimeStretchResult) :
  acc_remove input output pos rem low a = Some (a', out', r) ->
  r <> TsNoStretch /\ acc_used_input_samples a' = (length output + rem)%nat /\
  (pos + acc_overlap_length a <= length output)%nat /\
  take pos out' = take pos input /\
  drop (pos + acc_overlap_length a) out' =
    drop (pos + rem + acc_overlap_length a) (take (length output + rem) input).
Proof.
  intros H. unfold acc_remove in H. peel H. simplify_eq.
  apply slice_inv in E as [-> Hx]. rewrite Nat.sub_0_r, drop_0 in *.
  assert (length (take (length output + rem) input) = length output + rem)%nat as Hu
    by (rewrite length_take; lia).
  apply slice_inv in E0 as [-> Hx0]. rewrite Nat.sub_0_r, drop_0 in *.
  apply copy_into_parts in E1 as (_ & _ & _ & Ht1 & Hl1 & _).
  apply copy_into_parts in E6 as (Ht6 & _ & _ & _ & Hl6 & Hb6).
  apply copy_into_parts in E8 as (Ht8 & _ & Hd8 & _ & Hl8 & _).
  apply slice_inv in E7 as [-> Hx7].
  split_and!; [by destruct low | simpl; lia | lia | |].
  - rewrite (take_shorter pos (pos + acc_overlap_length a) out' x6), Ht6, Ht1 by (done || lia).
    rewrite take_take. f_equal. lia.
  - rewrite Hd8 by done. rewrite take_ge; [done |]. rewrite length_drop. lia.
Qed.

Lemma acc_copy_content (n : nat) (input output out' : list float) (a a' : Accelerator)
    (r : TimeStretchResult) :
  n = length output -> acc_copy n input output a = Some (a', out', r) ->
  r = TsNoStretch /\ acc_used_input_samples a' = n /\ out' = take n input.
Proof.
  intros -> H. unfold acc_copy in H. peel H. simplify_eq.
  apply slice_inv in E as [-> Hx]. rewrite Nat.sub_0_r, drop_0 in *.
  apply copy_into_parts in E0 as (_ & _ & Hd & _). split_and!; [done | done |].
  rewrite <- Hd by done. by rewrite drop_0.
Qed.

Lemma find_low_energy_overlap (input : list float) (n m : nat) (a a' : Accelerator) (pr : nat * nat) :
  find_low_energy_to_remove input n m a = Some (a', pr) ->
  acc_overlap_length a' = acc_overlap_length a.
Proof.
  unfold find_low_energy_to_remove. intros H. peel H.
  destruct (longest_low_energy_region _ _ _). repeat case_bool_decide; by simplify_eq.
Qed.

(** The result of an acceleration: the beginning of the input unchanged, or the
    input it used with [rem] samples cut out at [pos] and a cross-fade of one
    overlap at the cut. *)
Definition accelerated (input output out' : list float) (used ov : nat) (r : TimeStretchResult)
    : Prop :=
  r = TsNoStretch /\ used = length output /\ out' = take used input \/
  r <> TsNoStretch /\ exists pos rem, used = (length output + rem)%nat /\
    (pos + ov <= length output)%nat /\
    take pos out' = take pos input /\
    drop (pos + ov) out' = drop (pos + rem + ov) (take used input).

(** Whatever acceleration returns for an input longer than the output, no
    audio is lost or invented but at the cut: the output is the beginning of the
    input, or its head before the cut followed by the cross-fade and by the exact
    tail of the used input after the cut. *)
Theorem accelerate_content (input output out' : list float) (fast_mode : bool)
    (a a' : Accelerator) (r : TimeStretchResult) :
  (length output < length input)%nat ->
  accelerate_internal input output fast_mode a = Some (a', out', r) ->
  accelerated input output out' (acc_used_input_samples a') (acc_overlap_length a) r.
Proof.
  intros Hlen H. unfold accelerate_internal in H. rewrite bool_decide_false in H by lia.
  assert (forall a1, acc_copy (length output) input output a1 = Some (a', out', r) ->
    accelerated input output out' (acc_used_input_samples a') (acc_overlap_length a) r) as Hcopy.
  { intros a1 E. destruct (acc_copy_content _ _ _ _ _ _ _ eq_refl E) as (? & Hu & ?).
    left. by rewrite Hu. }
  case_bool_decide; [by eapply Hcopy |]. peel H. destruct x1 as [a1 [pos rem]].
  assert (forall pos rem low, acc_remove input output pos rem low a1 = Some (a', out', r) ->
    accelerated input output out' (acc_used_input_samples a') (acc_overlap_length a) r) as Hrem.
  { intros p m low Er. apply acc_remove_content in Er as (Hr & Hu & Hp & Ht & Hd).
    rewrite (find_low_energy_overlap _ _ _ _ _ _ E1) in *.
    right. split; [done |]. exists p, m. rewrite Hu. done. }
  destruct fast_mode; simpl in H.
  - case_bool_decide; [|by eapply Hrem]. peel H. by eapply Hrem.
  - case_bool_decide; [by eapply Hcopy | by eapply Hrem].
Qed.

(** ** Runs of a stretcher *)

Fixpoint stretch_run {T : Type} `{!TimeStretcher T} (t : T)
    (calls : list (list float * list float * bool)) : option (T * list (nat * list float)) :=
  match calls with
  | [] => Some (t, [])
  | (input, output, fast) :: calls' =>
      '(t1, out, _) ← process input output fast t;
      '(t2, rs) ← stretch_run t1 calls';
      Some (t2, (get_used_input_samples t1, out) :: rs)
  end.

Lemma stretch_run_ok {T : Type} `{!TimeStretcher T} (Inv : T -> Prop)
    (fits : nat -> nat -> Prop) (good : nat -> nat -> nat -> Prop) (t : T)
    (calls : list (list float * list float * bool)) :
  (forall t i o f, Inv t -> fits (length i) (length o) -> exists t' o' r,
    process i o f t = Some (t', o', r) /\ length o' = length o /\ Inv t' /\
    good (length i) (length o) (get_used_input_samples t')) ->
  Inv t -> Forall (fun c => fits (length c.1.1) (length c.1.2)) calls ->
  exists t' rs, stretch_run t calls = Some (t', rs) /\
    Forall2 (fun c r => length r.2 = length c.1.2 /\ good (length c.1.1) (length c.1.2) r.1) calls rs.
Proof.
  intros Hp Ht Hc. revert t Ht. induction Hc as [|[[i o] f] calls Hf _ IH]; intros t Ht.
  - exists t, []. by split.
  - destruct (Hp t i o f Ht Hf) as (t1 & o1 & r & E1 & Hl & Hi1 & Hg).
    destruct (IH t1 Hi1) as (t2 & rs & E2 & Hrs).
    exists t2, ((get_used_input_samples t1, o1) :: rs). simpl. rewrite E1. simpl. rewrite E2.
    split; [done |]. constructor; [by split | done].
Qed.

Lemma overlap_length_pos (rate : Z) : (32 <= calculate_overlap_length rate)%nat.
Proof. unfold calculate_overlap_length. lia. Qed.

(** An accelerator never panics, however often it is used and whatever the
    samples: given inputs at least half as long again as the outputs, every call
    fills its output exactly and reports as used a part of the input that covers
    the output and removes at most half an output of audio. *)
Theorem accelerate_run_sound (rate chans : Z) (calls : list (list float * list float * bool)) :
  Forall (fun c => 3 * length c.1.2 <= 2 * length c.1.1)%nat calls ->
  exists a rs, stretch_run (accelerate_new rate chans) calls = Some (a, rs) /\
    Forall2 (fun c r => length r.2 = length c.1.2 /\
      (length c.1.2 <= r.1 <= length c.1.1)%nat /\
      (2 * (r.1 - length c.1.2) <= length c.1.2)%nat) calls rs.
Proof.
  apply (stretch_run_ok acc_inv (fun n_in n_out => 3 * n_out <= 2 * n_in)%nat
    (fun n_in n_out used => (n_out <= used <= n_in)%nat /\ (2 * (used - n_out) <= n_out)%nat)).
  - intros a i o f Ha Hf. destruct (accelerate_ok i o f a Ha Hf) as (a' & o' & r & E & ? & Hov & ? & ?).
    exists a', o', r. unfold acc_inv in *. rewrite Hov. done.
  - unfold acc_inv. simpl. pose proof (overlap_length_pos rate). lia.
Qed.

(** A preemptive expander never panics on outputs of at least one overlap
    and inputs at least as long: every call fills its output exactly from an
    input part no longer than the output and at least half as long. *)
Theorem preemptive_run_sound (rate chans : Z) (calls : list (list float * list float * bool)) :
  Forall (fun c => calculate_overlap_length rate <= length c.1.2 <= length c.1.1)%nat calls ->
  exists p rs, stretch_run (preemptive_new rate chans) calls = Some (p, rs) /\
    Forall2 (fun c r => length r.2 = length c.1.2 /\
      (r.1 <= length c.1.2 <= 2 * r.1)%nat) calls rs.
Proof.
  apply (stretch_run_ok (pre_inv (calculate_overlap_length rate))
    (fun n_in n_out => calculate_overlap_length rate <= n_out <= n_in)%nat
    (fun n_in n_out used => (used <= n_out <= 2 * used)%nat)).
  - intros p i o f Hp Hf.
    destruct (preemptive_ok _ i o f p Hp Hf) as (p' & o' & r & E & ? & Hov & ? & ?).
    exists p', o', r. unfold pre_inv in *. rewrite Hov. done.
  - unfold pre_inv. simpl. pose proof (overlap_length_pos rate). lia.
Qed.

(** ** Witnesses *)

(** A ramp of samples between -1/2 and 1/2. *)
Definition ramp (n : nat) : list float :=
  (fun i => F32.sub (F32.lit (Z.of_nat (i * 37 mod 101)) 101) (F32.lit 1 2)) <$> seq 0 n.

Lemma length_ramp (n : nat) : length (ramp n) = n.
Proof. unfold ramp. by rewrite length_fmap, length_seq. Qed.

Lemma accelerate_run_witness :
  exists a rs, stretch_run (accelerate_new 16000 1)
      [(ramp 240, replicate 160 (F32.of_Z 0), false); (ramp 320, replicate 160 (F32.of_Z 0), true)] =
    Some (a, rs) /\ length rs = 2%nat.
Proof.
  destruct (accelerate_run_sound 16000 1
    [(ramp 240, replicate 160 (F32.of_Z 0), false); (ramp 320, replicate 160 (F32.of_Z 0), true)])
    as (a & rs & E & H).
  - repeat constructor; cbn [fst snd]; rewrite length_ramp, length_replicate; lia.
  - exists a, rs. split; [exact E |]. apply Forall2_length in H. exact (eq_sym H).
Defined.

Lemma accelerate_content_witness :
  exists a' out' r, accelerate_internal (ramp 320) (replicate 160 (F32.of_Z 0)) true
      (accelerate_new 16000 1) = Some (a', out', r) /\
    accelerated (ramp 320) (replicate 160 (F32.of_Z 0)) out' (acc_used_input_samples a') 48 r /\
    r = TsSuccess.
Proof.
  destruct (accelerate_internal (ramp 320) (replicate 160 (F32.of_Z 0)) true
      (accelerate_new 16000 1)) as [[[a' out'] r]|] eqn:E.
  - exists a', out', r. split; [done |]. split.
    + apply (accelerate_content _ _ _ true (accelerate_new 16000 1)); [rewrite length_ramp, length_replicate; lia | exact E].
    + vm_compute in E. congruence.
  - vm_compute in E. discriminate E.
Defined.

Lemma preemptive_run_witness :
  exists p rs, stretch_run (preemptive_new 8000 1)
      [(ramp 240, replicate 240 (F32.of_Z 0), false)] = Some (p, rs) /\ length rs = 1%nat.
Proof.
  destruct (preemptive_run_sound 8000 1 [(ramp 240, replicate 240 (F32.of_Z 0), false)])
    as (p & rs & E & H).
  - constructor; [|constructor]. cbn [fst snd]. rewrite length_ramp, length_replicate.
    vm_compute. lia.
  - exists p, rs. split; [exact E |]. apply Forall2_length in H. exact (eq_sym H).
Defined.
