(* ===== verification/BufferLevelFilter.v ===== *)
(** * The buffer level filter (neteq/src/buffer_level_filter.rs)

    An exponential filter of the buffer level, in double precision, that drives
    the acceleration and expansion decisions. *)
From Stdlib Require Import SpecFloat.
From S2P Require Import Prelude Floats.

Record BufferLevelFilter : Type := mkBufferLevelFilter {
  filtered_level_samples : float;
  level_factor : float;
  blf_sample_rate_hz : Z;
}.

#[export] Instance eta_BufferLevelFilter : Eta BufferLevelFilter := fun r =>
  mkBufferLevelFilter (filtered_level_samples r) (level_factor r) (blf_sample_rate_hz r).

Definition blf_new (rate : Z) : BufferLevelFilter :=
  mkBufferLevelFilter (F64.of_Z 0) (F64.lit 253 256) rate.

(** The jump beyond which the filter follows the buffer quickly. *)
Definition buffer_jump_threshold (buffer_size_samples : Z) (f : BufferLevelFilter) : float :=
  if flt (filtered_level_samples f) (F64.of_Z 100)
  then fmax (F64.mul (F64.of_Z buffer_size_samples) (F64.lit 75 100)) (F64.of_Z 3000)
  else fmax (F64.mul (filtered_level_samples f) (F64.of_Z 3)) (F64.of_Z 1500).

Definition effective_factor (buffer_size_samples : Z) (f : BufferLevelFilter) : float :=
  let buffer_jump := fabs (F64.sub (F64.of_Z buffer_size_samples) (filtered_level_samples f)) in
  if flt (buffer_jump_threshold buffer_size_samples f) buffer_jump
  then F64.lit 7 10 else level_factor f.

Definition blf_update (buffer_size_samples time_stretched_samples : Z) (f : BufferLevelFilter)
    : BufferLevelFilter :=
  let factor := effective_factor buffer_size_samples f in
  let filtered_level :=
    F64.add (F64.mul factor (filtered_level_samples f))
      (F64.mul (F64.sub (F64.of_Z 1) factor) (F64.of_Z buffer_size_samples)) in
  f <| filtered_level_samples :=
         fmax (F64.sub filtered_level (F64.of_Z time_stretched_samples)) (F64.of_Z 0) |>.

Definition set_filtered_buffer_level (buffer_size_samples : Z) (f : BufferLevelFilter)
    : BufferLevelFilter := f <| filtered_level_samples := F64.of_Z buffer_size_samples |>.

Definition filtered_current_level (f : BufferLevelFilter) : Z :=
  as_u 64 (fmax (filtered_level_samples f) (F64.of_Z 0)).

Definition filtered_current_level_ms (f : BufferLevelFilter) : Z :=
  if blf_sample_rate_hz f =? 0 then 0
  else wrap_u 32 ((filtered_current_level f *u64 1000) / blf_sample_rate_hz f).

Definition set_target_buffer_level (target_level_ms : Z) (f : BufferLevelFilter)
    : BufferLevelFilter :=
  f <| level_factor :=
         if target_level_ms <=? 20 then F64.lit 251 256
         else if target_level_ms <=? 60 then F64.lit 252 256
         else if target_level_ms <=? 140 then F64.lit 253 256
         else F64.lit 254 256 |>.

Definition target_level_samples_of (target_level_ms : Z) (f : BufferLevelFilter) : Z :=
  if blf_sample_rate_hz f =? 0 then 0
  else (target_level_ms *u64 blf_sample_rate_hz f) / 1000.

Definition blf_reset (f : BufferLevelFilter) : BufferLevelFilter :=
  f <| filtered_level_samples := F64.of_Z 0 |> <| level_factor := F64.lit 253 256 |>.

Definition set_sample_rate (rate : Z) (f : BufferLevelFilter) : BufferLevelFilter :=
  f <| blf_sample_rate_hz := rate |>.

Definition get_filter_coefficient (f : BufferLevelFilter) : float := level_factor f.

(** ** Sequences of operations *)

Inductive blf_op : Type :=
| OpUpdate (buffer_size_samples time_stretched_samples : Z)
| OpSetLevel (buffer_size_samples : Z)
| OpSetTarget (target_level_ms : Z)
| OpReset
| OpSetRate (rate : Z).

Definition blf_apply (f : BufferLevelFilter) (op : blf_op) : BufferLevelFilter :=
  match op with
  | OpUpdate n ts => blf_update n ts f
  | OpSetLevel n => set_filtered_buffer_level n f
  | OpSetTarget t => set_target_buffer_level t f
  | OpReset => blf_reset f
  | OpSetRate r => set_sample_rate r f
  end.

(** [usize] arguments are not negative; nothing else is assumed. *)
Definition blf_op_ok (op : blf_op) : Prop :=
  match op with OpUpdate n _ | OpSetLevel n => 0 <= n | _ => True end.

Record blf_wf (f : BufferLevelFilter) : Prop := mk_blf_wf {
  bw_number : is_nan (filtered_level_samples f) = false;
  bw_nonneg : fle (F64.of_Z 0) (filtered_level_samples f) = true;
  bw_factor : fle (F64.lit 251 256) (level_factor f) = true /\
              fle (level_factor f) (F64.lit 254 256) = true;
}.

Lemma blf_apply_wf (f : BufferLevelFilter) (op : blf_op) :
  blf_op_ok op -> blf_wf f -> blf_wf (blf_apply f op).
Proof.
  intros Hop [Hn Hp Hf]. destruct op as [n ts|n|t| |r]; simpl in Hop.
  - split; [by apply fmax_not_nan | by apply fmax_ge_r | exact Hf].
  - destruct (of_Z_nonneg n Hop). by split.
  - split; [done | done |]. cbn. by repeat destruct (_ <=? _).
  - by split.
  - by split.
Qed.

(** After any sequence of updates, level and target settings, resets and
    rate changes, from any measured level and any number of time-stretched
    samples, negative ones included, the filtered level is a number (never NaN)
    and not negative, and the coefficient is one between 251/256 and 254/256. *)
Theorem blf_level_sound (rate : Z) (ops : list blf_op) :
  Forall blf_op_ok ops -> blf_wf (foldl blf_apply (blf_new rate) ops).
Proof.
  assert (blf_wf (blf_new rate)) as H by by split. revert H. generalize (blf_new rate).
  intros f Hf Hops. revert f Hf. induction Hops as [|op ops Hop _ IH]; intros f Hf; [done |].
  apply IH. by apply blf_apply_wf.
Qed.

Lemma blf_level_sound_witness :
  blf_wf (foldl blf_apply (blf_new 48000)
    [OpSetTarget 90; OpUpdate 9600 (-480); OpUpdate 0 2000000000; OpSetLevel 960; OpReset]).
Proof. apply blf_level_sound. repeat constructor; simpl; lia. Defined.
