(* ===== verification/NetEq.v ===== *)
(** * The NetEQ engine (neteq/src/neteq.rs)

    The audio jitter buffer: packets go into the packet buffer, and every 10 ms
    [get_audio] decides on an operation and produces one frame. The decoders
    (a trait object per payload type) and the two time stretchers are reached
    through the classes of their traits; [NetEq::new] builds the stretchers of
    [TimeStretch]. One clock reading [now] serves an operation; [None] stands for
    a panic. *)
From Stdlib Require Import SpecFloat.
From S2P Require Import Prelude Floats Statistics PacketBuffer Histogram DelayManager.
From S2P Require Import TimeStretch BufferLevelFilter.

Definition K_DECELERATION_TARGET_LEVEL_OFFSET_MS : Z := 85.
Definition K_BASE_MIN_DELAY_MS : Z := 20.

Record NetEqConfig : Type := mkNetEqConfig {
  nc_sample_rate : Z;
  nc_channels : Z;
  nc_max_packets_in_buffer : nat;
  nc_max_delay_ms : Z;
  nc_min_delay_ms : Z;
  nc_additional_delay_ms : Z;
  for_test_no_time_stretching : bool;
  bypass_mode : bool;
  delay_config : DelayConfig;
  nc_smart_flush_config : SmartFlushConfig;
}.

Definition neteq_config_default : NetEqConfig :=
  mkNetEqConfig 16000 1 200 0 0 0 false false delay_config_default smart_flush_default.

Inductive SpeechType : Type := StNormal | StCng | StExpand | StMusic.

Record AudioFrame : Type := mkAudioFrame {
  samples : list float;
  fr_sample_rate : Z;
  fr_channels : Z;
  samples_per_channel : nat;
  speech_type : SpeechType;
  vad_activity : bool;
}.

#[export] Instance eta_AudioFrame : Eta AudioFrame := fun r =>
  mkAudioFrame (samples r) (fr_sample_rate r) (fr_channels r) (samples_per_channel r)
    (speech_type r) (vad_activity r).

Definition silence (n : nat) : list float := replicate n (F32.of_Z 0).

Definition frame_new (rate chans : Z) (per_channel : nat) : AudioFrame :=
  mkAudioFrame (silence (per_channel * Z.to_nat chans)) rate chans per_channel StNormal false.

Definition fr_duration_ms (f : AudioFrame) : Z :=
  (wrap_u 32 (Z.of_nat (samples_per_channel f)) *u32 1000) / fr_sample_rate f.

(** codec.rs: the decoder trait. *)
Class AudioDecoder (D : Type) : Type := {
  dec_sample_rate : D -> Z;
  dec_channels : D -> Z;
  decode : list Z -> D -> D * result (list float) NetEqError;
}.

Record NetEqStats : Type := mkNetEqStats {
  st_network : NetworkStatistics;
  st_lifetime : LifetimeStatistics;
  st_current_buffer_size_ms : Z;
  st_target_delay_ms : Z;
  packets_awaiting_decode : nat;
  packets_per_sec : Z;
}.

Record NetEq (D A P : Type) : Type := mkNetEq {
  config : NetEqConfig;
  packet_buffer : PacketBuffer;
  delay_manager : DelayManager;
  buffer_level_filter : BufferLevelFilter;
  statistics : StatisticsCalculator;
  accelerate : A;
  preemptive_expand : P;
  expand : Expander;
  last_decode_timestamp : option Z;
  output_frame_size_samples : nat;
  muted : bool;
  last_operation : Operation;
  consecutive_expands : Z;
  frame_timestamp : Z;
  leftover_samples : list float;
  decoders : gmap Z D;
  bypass_audio_queue : list float;
  packets_received_this_second : Z;
  last_packets_second_instant : Z;
  packets_per_sec_snapshot : Z;
  leftover_time_stretched_samples : list float;
  timestretch_added_samples : Z;
  rng_static : Z;  (** the static [RNG_STATE] *)
}.
Arguments mkNetEq {D A P}.
Arguments config {D A P}. Arguments packet_buffer {D A P}. Arguments delay_manager {D A P}.
Arguments buffer_level_filter {D A P}. Arguments statistics {D A P}.
Arguments accelerate {D A P}. Arguments preemptive_expand {D A P}. Arguments expand {D A P}.
Arguments last_decode_timestamp {D A P}. Arguments output_frame_size_samples {D A P}.
Arguments muted {D A P}. Arguments last_operation {D A P}. Arguments consecutive_expands {D A P}.
Arguments frame_timestamp {D A P}. Arguments leftover_samples {D A P}. Arguments decoders {D A P}.
Arguments bypass_audio_queue {D A P}. Arguments packets_received_this_second {D A P}.
Arguments last_packets_second_instant {D A P}. Arguments packets_per_sec_snapshot {D A P}.
Arguments leftover_time_stretched_samples {D A P}. Arguments timestretch_added_samples {D A P}.
Arguments rng_static {D A P}.

#[export] Instance eta_NetEq {D A P : Type} : Eta (NetEq D A P) := fun r =>
  mkNetEq (config r) (packet_buffer r) (delay_manager r) (buffer_level_filter r) (statistics r)
    (accelerate r) (preemptive_expand r) (expand r) (last_decode_timestamp r)
    (output_frame_size_samples r) (muted r) (last_operation r) (consecutive_expands r)
    (frame_timestamp r) (leftover_samples r) (decoders r) (bypass_audio_queue r)
    (packets_received_this_second r) (last_packets_second_instant r)
    (packets_per_sec_snapshot r) (leftover_time_stretched_samples r)
    (timestretch_added_samples r) (rng_static r).

(** The engine [NetEq::new] builds from a valid configuration, with the
    factories' stretchers. *)
Definition ne_init {D : Type} (cfg : NetEqConfig) (now : Z)
    : NetEq D Accelerator PreemptiveExpander :=
  let dcfg := (delay_config cfg)
    <| base_minimum_delay_ms := K_BASE_MIN_DELAY_MS |>
    <| base_maximum_delay_ms :=
         wrap_u 32 (wrap_u 64 (Z.of_nat (nc_max_packets_in_buffer cfg) * 20 * 3) / 4) |>
    <| additional_delay_ms := nc_additional_delay_ms cfg |> in
  let dm0 := dm_new dcfg in
  let dm1 := if 0 <? nc_min_delay_ms cfg then (set_minimum_delay (nc_min_delay_ms cfg) dm0).1
             else dm0 in
  let dm2 := if 0 <? nc_max_delay_ms cfg then (set_maximum_delay (nc_max_delay_ms cfg) dm1).1
             else dm1 in
  {| config := cfg;
        packet_buffer := pb_with_config (nc_max_packets_in_buffer cfg) (nc_smart_flush_config cfg);
        delay_manager := dm2;
        buffer_level_filter := blf_new (nc_sample_rate cfg);
        statistics := stats_new now;
        accelerate := accelerate_new (nc_sample_rate cfg) (nc_channels cfg);
        preemptive_expand := preemptive_new (nc_sample_rate cfg) (nc_channels cfg);
        expand := expander_new (nc_sample_rate cfg);
        last_decode_timestamp := None;
        output_frame_size_samples :=
          (Z.to_nat (nc_sample_rate cfg / 100) * Z.to_nat (nc_channels cfg))%nat;
        muted := false; last_operation := Normal; consecutive_expands := 0;
        frame_timestamp := 0; leftover_samples := []; decoders := ∅;
        bypass_audio_queue := []; packets_received_this_second := 0;
        last_packets_second_instant := now; packets_per_sec_snapshot := 0;
        leftover_time_stretched_samples := []; timestretch_added_samples := 0;
        rng_static := 1 |}.

Definition ne_new {D : Type} (cfg : NetEqConfig) (now : Z)
    : result (NetEq D Accelerator PreemptiveExpander) NetEqError :=
  if nc_sample_rate cfg =? 0 then Err (InvalidSampleRate (nc_sample_rate cfg))
  else if nc_channels cfg =? 0 then Err (InvalidChannelCount (nc_channels cfg))
  else Ok (ne_init cfg now).

(** ** Raw PCM payloads *)

(** [chunks_exact(4)] with [f32::from_le_bytes]. *)
Fixpoint raw_pcm (payload : list Z) : list float :=
  match payload with
  | b0 :: b1 :: b2 :: b3 :: rest =>
      f32_of_bits (b0 + Z.shiftl b1 8 + Z.shiftl b2 16 + Z.shiftl b3 24) :: raw_pcm rest
  | _ => []
  end.

(** [l[n..n + src.len()].copy_from_slice(src)] inside the bounds of [l]. *)
Definition write_at (n : nat) (src l : list float) : list float :=
  take n l ++ src ++ drop (n + length src) l.

Section Engine.
Context {D A P : Type} `{!AudioDecoder D} `{!TimeStretcher A} `{!TimeStretcher P}.

Notation engine := (NetEq D A P).

Definition current_buffer_size_samples (ne : engine) : Z :=
  wrap_u 64 (num_samples_in_buffer (packet_buffer ne) + Z.of_nat (length (leftover_samples ne)) +
             Z.of_nat (length (leftover_time_stretched_samples ne))).

Definition current_buffer_size_ms (ne : engine) : Z :=
  (wrap_u 32 (current_buffer_size_samples ne) *u32 1000) / nc_sample_rate (config ne).

Definition maybe_roll_packet_rate (now : Z) (ne : engine) : engine :=
  if from_secs 1 <=? duration_since now (last_packets_second_instant ne) then
    ne <| packets_per_sec_snapshot := packets_received_this_second ne |>
       <| packets_received_this_second := 0 |>
       <| last_packets_second_instant := now |>
  else ne.

(** ** Inserting packets *)

Definition ne_insert_packet (now : Z) (packet : AudioPacket) (ne0 : engine)
    : option (engine * result unit NetEqError) :=
  let ne := maybe_roll_packet_rate now
    (ne0 <| packets_received_this_second :=
              sat_add 32 (packets_received_this_second ne0) 1 |>) in
  if bypass_mode (config ne) then
    match decoders ne !! payload_type (header packet) with
    | Some decoder =>
        let '(decoder', r) := decode (payload packet) decoder in
        let ne1 := ne <| decoders := <[payload_type (header packet) := decoder']> (decoders ne) |> in
        match r with
        | Ok pcm_samples =>
            Some (ne1 <| bypass_audio_queue := bypass_audio_queue ne1 ++ pcm_samples |>, Ok tt)
        | Err _ => Some (ne1, Ok tt)
        end
    | None => Some (ne, Ok tt)
    end
  else
    '(dm, r) ← dm_update (timestamp (header packet)) (sample_rate packet) false now
                 (delay_manager ne);
    let ne1 := ne <| delay_manager := dm |> in
    match r with
    | Err e => Some (ne1, Err e)
    | Ok _ =>
        let target_delay := target_delay_ms dm in
        '(pb, stats, r) ← insert_packet now packet target_delay (packet_buffer ne1) (statistics ne1);
        let ne2 := ne1 <| packet_buffer := pb |> <| statistics := stats |> in
        match r with
        | Err e => Some (ne2, Err e)
        | Ok _ =>
            Some (ne2 <| statistics := update_buffer_size
                           (wrap_u 16 (current_buffer_size_ms ne2)) (wrap_u 16 target_delay)
                           (statistics ne2) |>, Ok tt)
        end
    end.

(** ** Accessors and settings *)

Definition get_statistics (ne : engine) : NetEqStats :=
  mkNetEqStats (network_stats (statistics ne)) (lifetime_stats (statistics ne))
    (current_buffer_size_ms ne) (target_delay_ms (delay_manager ne))
    (pb_len (packet_buffer ne)) (packets_per_sec_snapshot ne).

Definition ne_is_empty (ne : engine) : bool := pb_is_empty (packet_buffer ne).

Definition ne_target_delay_ms (ne : engine) : Z := target_delay_ms (delay_manager ne).

Definition ne_set_minimum_delay (delay : Z) (ne : engine) : engine * Z :=
  let '(dm, eff) := set_minimum_delay delay (delay_manager ne) in
  (ne <| delay_manager := dm |>, eff).

Definition ne_set_maximum_delay (delay : Z) (ne : engine) : engine * Z :=
  let '(dm, eff) := set_maximum_delay delay (delay_manager ne) in
  (ne <| delay_manager := dm |>, eff).

Definition register_decoder (pt : Z) (decoder : D) (ne : engine) : engine :=
  ne <| decoders := <[pt := decoder]> (decoders ne) |>.

Definition ne_reset (now : Z) (ne : engine) : engine :=
  ne <| delay_manager := dm_reset (delay_manager ne) |>
     <| buffer_level_filter :=
          set_filtered_buffer_level (current_buffer_size_samples ne)
            (blf_reset (buffer_level_filter ne)) |>
     <| last_decode_timestamp := None |>
     <| consecutive_expands := 0 |>
     <| packets_received_this_second := 0 |>
     <| packets_per_sec_snapshot := 0 |>
     <| last_packets_second_instant := now |>
     <| leftover_time_stretched_samples := [] |>
     <| timestretch_added_samples := 0 |>.

Definition ne_flush (now : Z) (ne : engine) : engine :=
  let '(pb, stats) := pb_flush (packet_buffer ne) (statistics ne) in
  ne_reset now (ne <| packet_buffer := pb |> <| statistics := stats |> <| leftover_samples := [] |>).

(** ** The decision *)

Definition low_limit (target_delay samples_per_ms : Z) : Z :=
  let target := target_delay *u32 samples_per_ms in
  Z.max ((target *u32 3) / 4)
    (sat_sub target (K_DECELERATION_TARGET_LEVEL_OFFSET_MS *u32 samples_per_ms)).

Definition high_limit (target_delay samples_per_ms : Z) : Z :=
  Z.max (target_delay *u32 samples_per_ms)
    (low_limit target_delay samples_per_ms +u32 (20 *u32 samples_per_ms)).

Definition more_expands (ne : engine) : engine :=
  ne <| consecutive_expands := sat_add 32 (consecutive_expands ne) 1 |>.

Definition get_decision (now : Z) (ne0 : engine) : engine * Operation :=
  let current := current_buffer_size_samples ne0 in
  let target_delay := target_delay_ms (delay_manager ne0) in
  let ne := ne0
    <| buffer_level_filter :=
         blf_update current (wrap_i 32 (- timestretch_added_samples ne0))
           (set_target_buffer_level target_delay (buffer_level_filter ne0)) |>
    <| timestretch_added_samples := 0 |> in
  let samples_per_ms := nc_sample_rate (config ne) / 1000 in
  let low := low_limit target_delay samples_per_ms in
  let high := high_limit target_delay samples_per_ms in
  let frame_size := Z.of_nat (output_frame_size_samples ne) in
  if negb (bool_decide (leftover_time_stretched_samples ne = [])) then (ne, TimeStretchBuffer)
  else if (0 <? consecutive_expands ne) && (current <? low) then (more_expands ne, Expand)
  else if (current <? (frame_size *u64 3) / 2) && (frame_size / 2 <=? current) &&
          (consecutive_expands ne =? 0) then (more_expands ne, ExpandStart)
  else if current <? frame_size then (more_expands ne, Expand)
  else if 0 <? consecutive_expands ne then
    let ne1 := if 600 <? consecutive_expands ne then ne_reset now ne else ne in
    (ne1 <| consecutive_expands := 0 |>, ExpandEnd)
  else
    let level := filtered_current_level (buffer_level_filter ne) in
    if wrap_u 32 (Z.shiftl high 2) <=? level then (ne, FastAccelerate)
    else if high <=? level then (ne, Accelerate)
    else if (level <? low) && (frame_size *u64 3 <=? current) then (ne, PreemptiveExpand)
    else (ne, Normal).

(** ** Decoding *)

(** The samples of one packet, and the decoders after it. *)
Definition decode_packet (packet : AudioPacket) (decs : gmap Z D) : gmap Z D * list float :=
  match decs !! payload_type (header packet) with
  | Some dec =>
      let '(dec', r) := decode (payload packet) dec in
      (<[payload_type (header packet) := dec']> decs,
       match r with Ok pcm => pcm | Err _ => [] end)
  | None => (decs, raw_pcm (payload packet))
  end.

(** The body of the loop for one packet popped off the buffer: its samples go
    into the frame, the rest to the leftovers. *)
Definition use_packet (packet : AudioPacket) (filled : nat) (frame : AudioFrame) (ne : engine)
    : nat * AudioFrame * engine :=
  let '(decs, packet_samples) := decode_packet packet (decoders ne) in
  let available := length packet_samples in
  let to_copy := Nat.min (length (samples frame) - filled) available in
  ((filled + to_copy)%nat,
   frame <| samples := write_at filled (take to_copy packet_samples) (samples frame) |>
         <| speech_type := StNormal |> <| vad_activity := true |>,
   ne <| packet_buffer := (get_next_packet (packet_buffer ne)).1 |>
      <| decoders := decs |>
      <| leftover_samples := leftover_samples ne ++ drop to_copy packet_samples |>
      <| last_decode_timestamp := Some (timestamp (header packet)) |>).

(** The loop that pulls packets until the frame is filled; [pkts] is what the
    packet buffer holds. *)
Fixpoint fill_loop (pkts : list AudioPacket) (filled : nat) (frame : AudioFrame) (ne : engine)
    : engine * AudioFrame :=
  let samples_needed := length (samples frame) in
  if bool_decide (filled < samples_needed)%nat then
    match pkts with
    | packet :: pkts' =>
        let '(filled', frame', ne') := use_packet packet filled frame ne in
        fill_loop pkts' filled' frame' ne'
    | [] =>
        (ne, frame <| samples := write_at filled (silence (samples_needed - filled)) (samples frame) |>
                   <| speech_type := StExpand |>)
    end
  else (ne, frame).

Definition decode_normal (frame : AudioFrame) (ne : engine) : engine * AudioFrame :=
  let to_copy := Nat.min (length (samples frame)) (length (leftover_samples ne)) in
  let frame1 := frame <| samples := write_at 0 (take to_copy (leftover_samples ne)) (samples frame) |> in
  let ne1 := ne <| leftover_samples := drop to_copy (leftover_samples ne) |> in
  fill_loop (buffer (packet_buffer ne1)) to_copy frame1 ne1.

(** The [for i in (1..=3).rev()] loop of [decode_accelerate]: (output, required). *)
Definition required_for (fast_mode : bool) (output_len : nat) : nat :=
  Z.to_nat (ceil_as_u 64 (F32.mul (F32.of_Z (Z.of_nat output_len))
              (if fast_mode then F32.of_Z 2 else F32.lit 3 2))).

Definition accelerate_lengths (fast_mode : bool) (frame_size : nat) (available : Z) : nat * nat :=
  let at_i i := ((frame_size * i)%nat, required_for fast_mode (frame_size * i)) in
  if Z.of_nat (at_i 3%nat).2 <=? available then at_i 3%nat
  else if Z.of_nat (at_i 2%nat).2 <=? available then at_i 2%nat
  else at_i 1%nat.

(** Unused input samples go back in front of the leftovers. *)
Definition put_back (input : list float) (used : nat) (ne : engine) : engine :=
  if bool_decide (used < length input)%nat
  then ne <| leftover_samples := drop used input ++ leftover_samples ne |> else ne.

Definition decode_accelerate (frame : AudioFrame) (fast_mode : bool) (ne : engine)
    : option (engine * AudioFrame) :=
  if for_test_no_time_stretching (config ne) then Some (decode_normal frame ne)
  else
    let '(output_len, required_samples) :=
      accelerate_lengths fast_mode (output_frame_size_samples ne) (current_buffer_size_samples ne) in
    let rate := nc_sample_rate (config ne) in
    let chans := nc_channels (config ne) in
    let '(ne1, extended_frame) := decode_normal (frame_new rate chans required_samples) ne in
    '(acc, output, _) ← process (samples extended_frame)
                          (samples (frame_new rate chans output_len)) fast_mode (accelerate ne1);
    let used := get_used_input_samples acc in
    let ne2 := put_back (samples extended_frame) used (ne1 <| accelerate := acc |>) in
    let frame_len := length (samples frame) in
    first ← slice 0 frame_len output;
    let samples_removed := wrap_i 32 (Z.of_nat used) -i32 wrap_i 32 (Z.of_nat (length output)) in
    Some (ne2 <| leftover_time_stretched_samples :=
                   leftover_time_stretched_samples ne2 ++ drop frame_len output |>
              <| timestretch_added_samples :=
                   timestretch_added_samples ne2 -i32 Z.quot samples_removed (nc_channels (config ne2)) |>
              <| statistics := time_stretch_operation TsAccelerate (wrap_u 64 samples_removed)
                                 (statistics ne2) |>,
          frame <| samples := first |> <| speech_type := StNormal |>
                <| vad_activity := vad_activity extended_frame |>).

Definition decode_preemptive_expand (frame : AudioFrame) (ne : engine)
    : option (engine * AudioFrame) :=
  if for_test_no_time_stretching (config ne) then Some (decode_normal frame ne)
  else
    let rate := nc_sample_rate (config ne) in
    let chans := nc_channels (config ne) in
    let len := Z.to_nat (as_u 64 (F32.mul (F32.of_Z (Z.of_nat (samples_per_channel frame)))
                                    (F32.of_Z 3))) in
    let '(ne1, extended_frame) := decode_normal (frame_new rate chans len) ne in
    '(pre, output, _) ← process (samples extended_frame)
                          (samples (frame_new rate chans len)) false (preemptive_expand ne1);
    let used := get_used_input_samples pre in
    let ne2 := put_back (samples extended_frame) used (ne1 <| preemptive_expand := pre |>) in
    let frame_len := length (samples frame) in
    first ← slice 0 frame_len output;
    let samples_added := wrap_i 32 (Z.of_nat (length output)) -i32 wrap_i 32 (Z.of_nat used) in
    Some (ne2 <| leftover_time_stretched_samples :=
                   leftover_time_stretched_samples ne2 ++ drop frame_len output |>
              <| timestretch_added_samples :=
                   timestretch_added_samples ne2 +i32 Z.quot samples_added (nc_channels (config ne2)) |>
              <| statistics := time_stretch_operation TsPreemptiveExpand (wrap_u 64 samples_added)
                                 (statistics ne2) |>,
          frame <| samples := first |> <| speech_type := StNormal |>
                <| vad_activity := vad_activity extended_frame |>).

Definition return_time_stretch_buffer (frame : AudioFrame) (ne : engine)
    : option (engine * AudioFrame) :=
  match leftover_time_stretched_samples ne with
  | [] => Some (ne, frame)
  | stretched =>
      let to_copy := length (samples frame) in
      first ← slice 0 to_copy stretched;
      Some (ne <| leftover_time_stretched_samples := drop to_copy stretched |>,
            frame <| samples := first |> <| speech_type := StNormal |> <| vad_activity := true |>)
  end.

Definition decode_expand (frame : AudioFrame) (phase : ExpandPhase) (ne : engine)
    : option (engine * AudioFrame) :=
  let required := samples_required phase (expand ne) in
  let '(ne1, input) :=
    decode_normal (frame_new (nc_sample_rate (config ne)) (nc_channels (config ne)) required) ne in
  '(ex, out, _) ← expander_process (samples input) (samples frame) phase (expand ne1);
  let ne2 := put_back (samples input) (exp_used_input_samples ex) (ne1 <| expand := ex |>) in
  let n := wrap_u 64 (Z.of_nat (samples_per_channel frame)) in
  Some (ne2 <| statistics := time_stretch_operation TsExpand n
                               (concealment_event n true (statistics ne2)) |>,
        frame <| samples := out |> <| speech_type := StExpand |> <| vad_activity := false |>).

Definition decode_merge (frame : AudioFrame) (ne : engine) : engine * AudioFrame :=
  decode_normal frame ne.

Definition generate_comfort_noise (frame : AudioFrame) (ne : engine) : engine * AudioFrame :=
  let '(rng, out) := noise (F32.lit 5 1000000) (length (samples frame)) (rng_static ne) in
  (ne <| rng_static := rng |>,
   frame <| samples := out |> <| speech_type := StCng |> <| vad_activity := false |>).

Definition perform (operation : Operation) (frame : AudioFrame) (ne : engine)
    : option (engine * AudioFrame) :=
  match operation with
  | Normal => Some (decode_normal frame ne)
  | Accelerate => decode_accelerate frame false ne
  | FastAccelerate => decode_accelerate frame true ne
  | PreemptiveExpand => decode_preemptive_expand frame ne
  | TimeStretchBuffer => return_time_stretch_buffer frame ne
  | Expand => decode_expand frame PhExpand ne
  | ExpandStart => decode_expand frame PhExpandStart ne
  | ExpandEnd => decode_expand frame PhExpandEnd ne
  | Merge => Some (decode_merge frame ne)
  | ComfortNoise => Some (generate_comfort_noise frame ne)
  | Dtmf | Undefined =>
      Some (ne, frame <| samples := silence (length (samples frame)) |> <| speech_type := StExpand |>)
  end.

(** The bypass branch of [get_audio]: the two fill loops, then the frame's type. *)
Definition bypass_audio (frame : AudioFrame) (ne : engine) : engine * AudioFrame :=
  let samples_needed := output_frame_size_samples ne in
  let popped := Nat.min samples_needed (length (bypass_audio_queue ne)) in
  let samples1 := write_at 0 (take popped (bypass_audio_queue ne)) (samples frame) in
  let samples2 := write_at popped (silence (samples_needed - popped)) samples1 in
  let filled := (popped + (samples_needed - popped))%nat in
  (ne <| bypass_audio_queue := drop popped (bypass_audio_queue ne) |>,
   frame <| samples := samples2 |>
         <| speech_type := if bool_decide (filled = samples_needed)%nat then StNormal else StExpand |>
         <| vad_activity := bool_decide (0 < filled)%nat |>).

Definition get_audio (now : Z) (ne0 : engine) : option (engine * result AudioFrame NetEqError) :=
  let ne := maybe_roll_packet_rate now ne0 in
  let chans := Z.to_nat (nc_channels (config ne)) in
  let frame := frame_new (nc_sample_rate (config ne)) (nc_channels (config ne))
                 (output_frame_size_samples ne / chans) in
  if bypass_mode (config ne) then
    let '(ne', frame') := bypass_audio frame ne in Some (ne', Ok frame')
  else
    let '(ne1, operation) := get_decision now ne in
    '(ne2, frame2) ← perform operation frame (ne1 <| last_operation := operation |>);
    stats ← record_decode_operation operation now (statistics ne2);
    let ne3 := ne2 <| statistics := stats |>
      <| frame_timestamp := frame_timestamp ne2 +u32
           wrap_u 32 (Z.of_nat (samples_per_channel frame2 * chans)) |> in
    Some (ne3 <| statistics :=
                   jitter_buffer_delay (fr_duration_ms frame2)
                     (wrap_u 64 (Z.of_nat (samples_per_channel frame2))) (statistics ne3) |>,
          Ok frame2).

End Engine.
