(* ===== verification/NetEqProps.v ===== *)
(** * Properties of the NetEQ engine

    Decoding is first-in first-out on the stream of buffered samples; every call
    of [get_audio] returns a complete 10 ms frame. *)
From Stdlib Require Import SpecFloat.
From S2P Require Import Prelude Floats Statistics PacketBuffer Histogram DelayManager.
From S2P Require Import TimeStretch BufferLevelFilter NetEq.

(** ** Lists of samples *)

Lemma length_silence (n : nat) : length (silence n) = n.
Proof. apply length_replicate. Qed.

Lemma length_write_at (n : nat) (src l : list float) :
  (n + length src <= length l)%nat -> length (write_at n src l) = length l.
Proof. intros. unfold write_at. rewrite !length_app, length_take, length_drop. lia. Qed.

Lemma take_write_at (n : nat) (src l : list float) :
  (n <= length l)%nat -> take (n + length src) (write_at n src l) = take n l ++ src.
Proof.
  intros. unfold write_at. rewrite app_assoc. apply take_app_length'.
  rewrite length_app, length_take. lia.
Qed.

Lemma write_at_end (n : nat) (src l : list float) :
  (n + length src = length l)%nat -> write_at n src l = take n l ++ src.
Proof. intros. unfold write_at. rewrite drop_ge by lia. by rewrite app_nil_r. Qed.

Section Stream.
Context {D A P : Type} `{!AudioDecoder D} `{!TimeStretcher A} `{!TimeStretcher P}.
Notation engine := (NetEq D A P).

(** The samples of a sequence of packets, the decoders threaded through. *)
Fixpoint decode_all (decs : gmap Z D) (pkts : list AudioPacket) : list float :=
  match pkts with
  | [] => []
  | p :: pkts' => let '(decs', s) := decode_packet p decs in s ++ decode_all decs' pkts'
  end.

(** The abstract state of the decoding side: the samples still to be played. *)
Definition stream (ne : engine) : list float :=
  leftover_samples ne ++ decode_all (decoders ne) (buffer (packet_buffer ne)).

(** The specification of taking a frame of [n] samples off a stream. *)
Definition take_frame (n : nat) (s : list float) : list float :=
  take n s ++ silence (n - length s).

(** What decoding does not touch. *)
Definition same_core (ne ne' : engine) : Prop :=
  config ne' = config ne /\ output_frame_size_samples ne' = output_frame_size_samples ne /\
  accelerate ne' = accelerate ne /\ preemptive_expand ne' = preemptive_expand ne /\
  expand ne' = expand ne /\ statistics ne' = statistics ne /\
  leftover_time_stretched_samples ne' = leftover_time_stretched_samples ne.

(** One packet moves a prefix of the stream into the frame. *)
Lemma use_packet_spec (p : AudioPacket) (pkts : list AudioPacket) (filled : nat)
    (frame : AudioFrame) (ne : engine) :
  buffer (packet_buffer ne) = p :: pkts -> (filled <= length (samples frame))%nat ->
  leftover_samples ne = [] ->
  let '(filled1, frame1, ne1) := use_packet p filled frame ne in
  exists k, filled1 = (filled + k)%nat /\ length (samples frame1) = length (samples frame) /\
    buffer (packet_buffer ne1) = pkts /\
    (filled + k <= length (samples frame) /\ k <= length (stream ne))%nat /\
    stream ne1 = drop k (stream ne) /\
    take (filled + k) (samples frame1) = take filled (samples frame) ++ take k (stream ne) /\
    speech_type frame1 = StNormal /\
    ((filled + k < length (samples frame))%nat -> leftover_samples ne1 = []) /\
    samples_per_channel frame1 = samples_per_channel frame /\ same_core ne ne1.
Proof.
  intros Hb Hf Hl. unfold use_packet.
  destruct (decode_packet p (decoders ne)) as [decs s] eqn:Ed.
  set (k := Nat.min (length (samples frame) - filled) (length s)).
  assert (length (take k s) = k) as Hk by (rewrite length_take; lia).
  assert (stream ne = s ++ decode_all decs pkts) as Hs.
  { unfold stream. rewrite Hb, Hl. simpl. by rewrite Ed. }
  exists k. rewrite Hs. simpl. rewrite ?Hl, Hb, length_write_at, length_app by lia. simpl.
  split_and!; try done; try lia.
  - unfold stream. simpl. rewrite ?Hl, ?Hb. simpl. by rewrite drop_app_le by lia.
  - rewrite <- Hk at 1. rewrite take_write_at by lia. f_equal. rewrite take_app_le by lia. done.
  - intros. apply drop_ge. lia.
Qed.

Lemma fill_loop_spec (pkts : list AudioPacket) (filled : nat) (frame : AudioFrame) (ne : engine) :
  buffer (packet_buffer ne) = pkts -> (filled <= length (samples frame))%nat ->
  ((filled < length (samples frame))%nat -> leftover_samples ne = []) ->
  let '(ne', frame') := fill_loop pkts filled frame ne in
  samples frame' =
    take filled (samples frame) ++ take_frame (length (samples frame) - filled) (stream ne) /\
  stream ne' = drop (length (samples frame) - filled) (stream ne) /\
  samples_per_channel frame' = samples_per_channel frame /\ same_core ne ne'.
Proof.
  revert filled frame ne. induction pkts as [|p pkts IH]; intros filled frame ne Hb Hf Hl; simpl.
  - case_bool_decide as Hlt.
    + unfold stream. rewrite Hb, (Hl Hlt). simpl. unfold take_frame. simpl.
      rewrite take_nil, drop_nil, Nat.sub_0_r. split_and!; [|done..].
      rewrite write_at_end; [done |]. rewrite length_silence. lia.
    + replace (length (samples frame) - filled)%nat with 0%nat by lia.
      unfold take_frame. simpl. rewrite app_nil_r, take_ge by lia. done.
  - case_bool_decide as Hlt.
    + pose proof (use_packet_spec p pkts filled frame ne Hb Hf (Hl Hlt)) as Hu.
      destruct (use_packet p filled frame ne) as [[filled1 frame1] ne1].
      destruct Hu as (k & -> & Hlen & Hb1 & Hk & Hs1 & Ht1 & Hd1 & Hl1 & Hp1 & Hc1).
      specialize (IH (filled + k)%nat frame1 ne1 Hb1).
      destruct (fill_loop pkts (filled + k) frame1 ne1) as [ne' frame'].
      rewrite Hlen in IH. destruct IH as (H1 & H2 & H3 & H4); [lia | exact Hl1 |].
      set (n := length (samples frame)) in *.
      replace (n - filled)%nat with (k + (n - (filled + k)))%nat by lia.
      split_and!.
      * rewrite H1, Ht1, <- app_assoc. f_equal. unfold take_frame. rewrite app_assoc. f_equal.
        { rewrite Hs1. by rewrite take_take_drop. }
        f_equal. rewrite Hs1, length_drop. lia.
      * rewrite H2, Hs1. by rewrite drop_drop.
      * congruence.
      * destruct H4 as (?&?&?&?&?&?&?), Hc1 as (?&?&?&?&?&?&?). repeat split; congruence.
    + replace (length (samples frame) - filled)%nat with 0%nat by lia.
      unfold take_frame. simpl. rewrite app_nil_r, take_ge by lia. done.
Qed.

Lemma decode_normal_spec (frame : AudioFrame) (ne : engine) :
  let '(ne', frame') := decode_normal frame ne in
  samples frame' = take_frame (length (samples frame)) (stream ne) /\
  stream ne' = drop (length (samples frame)) (stream ne) /\
  samples_per_channel frame' = samples_per_channel frame /\ same_core ne ne'.
Proof.
  unfold decode_normal. set (n := length (samples frame)).
  set (k := Nat.min n (length (leftover_samples ne))).
  set (frame1 := frame <| samples := _ |>). set (ne1 := ne <| leftover_samples := _ |>).
  assert (length (take k (leftover_samples ne)) = k) as Hk by (rewrite length_take; lia).
  assert (length (samples frame1) = n) as Hn
    by (unfold frame1; simpl; rewrite length_write_at; lia).
  pose proof (fill_loop_spec (buffer (packet_buffer ne1)) k frame1 ne1 eq_refl) as H.
  destruct (fill_loop _ k frame1 ne1) as [ne' frame']. rewrite Hn in H.
  destruct H as (H1 & H2 & H3 & H4); [lia | |].
  { intros Hlt. unfold ne1. simpl. apply drop_ge. lia. }
  assert (stream ne = take k (leftover_samples ne) ++ stream ne1) as Hs.
  { unfold stream, ne1. simpl. by rewrite app_assoc, take_drop. }
  split_and!; [| |exact H3 | exact H4].
  - rewrite H1. unfold frame1. simpl. rewrite <- Hk at 1.
    pose proof (take_write_at 0 (take k (leftover_samples ne)) (samples frame) ltac:(lia)) as Hw.
    simpl in Hw. rewrite Hw. unfold take_frame. rewrite Hs, app_assoc. f_equal.
    + replace n with (k + (n - k))%nat at 2 by lia. by rewrite take_app_add'.
    + f_equal. rewrite length_app. lia.
  - rewrite H2, Hs. replace n with (k + (n - k))%nat at 2 by lia.
    rewrite <- drop_drop. f_equal. by rewrite drop_app_length'.
Qed.

(** Decoding is first-in first-out. Against the abstract state [stream] (the
    leftover samples followed by the decoded packets in buffer order), filling a
    frame takes exactly its length off the front of the stream, pads with silence
    only when the stream is shorter, and leaves the rest of the stream unchanged:
    no sample is lost, repeated or reordered, whatever the packet sizes. *)
Theorem decode_normal_fifo (frame : AudioFrame) (ne : engine) :
  let '(ne', frame') := decode_normal frame ne in
  samples frame' = take_frame (length (samples frame)) (stream ne) /\
  stream ne' = drop (length (samples frame)) (stream ne) /\ same_core ne ne'.
Proof.
  pose proof (decode_normal_spec frame ne) as H. destruct (decode_normal frame ne).
  by destruct H as (? & ? & _ & ?).
Qed.

End Stream.

(** ** Statistics keep their shape *)

Lemma time_stretch_counts (op : TimeStretchOperation) (n : Z) (s : StatisticsCalculator) :
  operation_counts (time_stretch_operation op n s) = operation_counts s.
Proof. destruct op; simpl; by destruct (0 <? _). Qed.

Lemma record_decode_ok (op : Operation) (now : Z) (s : StatisticsCalculator) :
  length (operation_counts s) = 9%nat -> (operation_index op < 9)%nat ->
  exists s', record_decode_operation op now s = Some s' /\ length (operation_counts s') = 9%nat.
Proof.
  intros Hl Hi. unfold record_decode_operation.
  destruct (lookup_lt_is_Some_2 (operation_counts s) (operation_index op)) as [c ->]; [lia |].
  eexists. split; [done |]. destruct (_ <=? _); simpl; [|by rewrite length_insert].
  unfold update_operation_rates. simpl. destruct (flt _ _); simpl; [done | by rewrite length_insert].
Qed.

#[local] Arguments time_stretch_operation : simpl never.

Lemma packet_arrived_counts (d : Z) (s : StatisticsCalculator) :
  operation_counts (packet_arrived d s) = operation_counts s.
Proof.
  assert (forall t, operation_counts (update_waiting_time_stats t) = operation_counts t) as Hu.
  { intros t. unfold update_waiting_time_stats. by destruct (waiting_times t). }
  unfold packet_arrived. rewrite Hu. by case_bool_decide.
Qed.

Lemma packet_discarded_counts (late : bool) (s : StatisticsCalculator) :
  operation_counts (packet_discarded late s) = operation_counts s.
Proof. by destruct late. Qed.

Lemma packet_reordered_counts (d : Z) (s : StatisticsCalculator) :
  operation_counts (packet_reordered d s) = operation_counts s.
Proof. done. Qed.

Lemma foldl_counts (f : StatisticsCalculator -> AudioPacket -> StatisticsCalculator)
    (l : list AudioPacket) (s : StatisticsCalculator) :
  (forall s p, operation_counts (f s p) = operation_counts s) ->
  operation_counts (foldl f s l) = operation_counts s.
Proof. intros Hf. revert s. induction l as [|p l IH]; intros s; simpl; [done |]. by rewrite IH, Hf. Qed.

Lemma partial_flush_counts (now target : Z) (pb : PacketBuffer) (s : StatisticsCalculator) :
  operation_counts (partial_flush now target pb s).1.2 = operation_counts s.
Proof.
  unfold partial_flush. destruct (pb_is_empty pb); [done |]. case_bool_decide; [|done].
  apply foldl_counts. intros. apply packet_discarded_counts.
Qed.

Lemma make_room_counts (now target : Z) (pb pb' : PacketBuffer) (s s' : StatisticsCalculator) :
  make_room now target pb s = Some (pb', s') -> operation_counts s' = operation_counts s.
Proof.
  unfold make_room, discard_old_packets.
  match goal with |- context [foldl ?f s ?l] =>
    assert (operation_counts (foldl f s l) = operation_counts s) as H0
      by (apply foldl_counts; intros; by destruct (is_older_than _ _ _));
    generalize dependent (foldl f s l) end.
  intros s1 H1 H. destruct (should_smart_flush _ _) as [smart|]; [|done].
  set (pr := if smart then _ else _) in H.
  assert (operation_counts pr.2 = operation_counts s) as Hp.
  { unfold pr. destruct smart; [|done]. by rewrite partial_flush_counts. }
  destruct pr as [pb2 s2]. simpl in Hp. case_bool_decide; [|by simplify_eq].
  pose proof (partial_flush_counts now target pb2 s2) as Hf.
  destruct (partial_flush now target pb2 s2) as [[pb3 s3] r]. simpl in Hf, H.
  case_bool_decide; [|simplify_eq; congruence]. unfold pb_flush in H.
  injection H as <- <-. case_bool_decide; simpl; congruence.
Qed.

Lemma insert_packet_counts (now : Z) (p : AudioPacket) (target : Z) (pb pb' : PacketBuffer)
    (s s' : StatisticsCalculator) (r : result BufferReturnCode NetEqError) :
  insert_packet now p target pb s = Some (pb', s', r) -> operation_counts s' = operation_counts s.
Proof.
  unfold insert_packet. destruct (make_room _ _ _ _) as [[pb1 s1]|] eqn:E; [|done].
  apply make_room_counts in E. unfold place_packet.
  destruct (find_insert_position _ _); [|done]. destruct (is_duplicate _ _ _).
  - intros H. simplify_eq. done.
  - intros H. simplify_eq. rewrite packet_arrived_counts. by case_bool_decide.
Qed.

(** ** Every call of [get_audio] returns a frame *)

Section Frames.
Context {D A P : Type} `{!AudioDecoder D} `{!TimeStretcher A} `{!TimeStretcher P}.
Notation engine := (NetEq D A P).

(** The stretchers' promises: acceleration works on inputs half as long again as
    the output, preemptive expansion on inputs as long as an output of at least
    [N] samples. *)
Context (InvA : A -> Prop) (InvP : P -> Prop) (N : nat).
Context `{!TimeStretcherSpec A InvA (fun n_in n_out => 3 * n_out <= 2 * n_in)%nat}.
Context `{!TimeStretcherSpec P InvP (fun n_in n_out => N <= n_out <= n_in)%nat}.

(** Single precision is exact enough for the sizes computed from a frame. *)
Definition sizes_exact (per_channel chans : nat) : bool :=
  forallb (fun i => forallb (fun fast =>
      bool_decide (3 * (per_channel * chans * i) <=
                   2 * required_for fast (per_channel * chans * i))%nat) [false; true])
    [1; 2; 3]%nat &&
  bool_decide (Z.to_nat (as_u 64 (F32.mul (F32.of_Z (Z.of_nat per_channel)) (F32.of_Z 3))) =
               (3 * per_channel)%nat).

Record ne_wf (ne : engine) : Prop := mk_ne_wf {
  nw_rate : 0 < nc_sample_rate (config ne);
  nw_channels : 0 < nc_channels (config ne);
  nw_frame : output_frame_size_samples ne =
    (Z.to_nat (nc_sample_rate (config ne) / 100) * Z.to_nat (nc_channels (config ne)))%nat;
  nw_sizes : sizes_exact (Z.to_nat (nc_sample_rate (config ne) / 100))
               (Z.to_nat (nc_channels (config ne))) = true;
  nw_min : (N <= 3 * output_frame_size_samples ne)%nat;
  nw_stretched : exists k, length (leftover_time_stretched_samples ne) =
                           (k * output_frame_size_samples ne)%nat;
  nw_counts : length (operation_counts (statistics ne)) = 9%nat;
  nw_acc : InvA (accelerate ne);
  nw_pre : InvP (preemptive_expand ne);
}.

(** The frame [get_audio] starts from. *)
Definition blank_frame (ne : engine) : AudioFrame :=
  frame_new (nc_sample_rate (config ne)) (nc_channels (config ne))
    (output_frame_size_samples ne / Z.to_nat (nc_channels (config ne))).

Lemma blank_frame_size (ne : engine) : ne_wf ne ->
  samples_per_channel (blank_frame ne) = Z.to_nat (nc_sample_rate (config ne) / 100) /\
  length (samples (blank_frame ne)) = output_frame_size_samples ne.
Proof.
  intros H. destruct H as [Hr Hc Hf _ _ _ _ _ _]. unfold blank_frame, frame_new. cbn [samples samples_per_channel].
  rewrite Hf, Nat.div_mul by lia. split; [done |]. by rewrite length_silence.
Qed.

Lemma decode_normal_wf (frame : AudioFrame) (ne : engine) : ne_wf ne ->
  let '(ne', frame') := decode_normal frame ne in
  ne_wf ne' /\ length (samples frame') = length (samples frame) /\
  samples_per_channel frame' = samples_per_channel frame /\ same_core ne ne'.
Proof.
  intros [H1 H2 H3 H4 H5 H6 H7 H8 H9]. pose proof (decode_normal_spec frame ne) as H.
  destruct (decode_normal frame ne) as [ne' frame'].
  destruct H as (Hs & _ & Hp & Hc). pose proof Hc as (E1 & E2 & E3 & E4 & E5 & E6 & E7).
  split_and!; [|rewrite Hs; unfold take_frame; rewrite length_app, length_take, length_silence; lia
               | done | exact Hc].
  split; rewrite ?E1, ?E2, ?E3, ?E4, ?E6, ?E7; done.
Qed.

Lemma put_back_wf (input : list float) (used : nat) (ne : engine) :
  ne_wf ne -> ne_wf (put_back input used ne) /\ same_core ne (put_back input used ne).
Proof.
  intros [H1 H2 H3 H4 H5 H6 H7 H8 H9]. unfold put_back. case_bool_decide; by repeat split.
Qed.

(** What one operation promises, from the blank frame. *)
Definition produces (ne : engine) (r : option (engine * AudioFrame)) : Prop :=
  exists ne' frame', r = Some (ne', frame') /\ ne_wf ne' /\ config ne' = config ne /\
    length (samples frame') = output_frame_size_samples ne /\
    output_frame_size_samples ne' = output_frame_size_samples ne /\
    samples_per_channel frame' = Z.to_nat (nc_sample_rate (config ne) / 100).

Lemma normal_produces (ne : engine) :
  ne_wf ne -> produces ne (Some (decode_normal (blank_frame ne) ne)).
Proof.
  intros Hwf. destruct (blank_frame_size ne Hwf) as [Hp Hl].
  pose proof (decode_normal_wf (blank_frame ne) ne Hwf) as H.
  destruct (decode_normal _ ne) as [ne' frame']. destruct H as (H1 & H2 & H3 & (? & ? & _)).
  exists ne', frame'. split_and!; [done | done | done | congruence | done | congruence].
Qed.

(** The sizes of an acceleration: both are multiples, and the input suffices. *)
Lemma accelerate_lengths_ok (fast : bool) (per_channel chans : nat) (available : Z) :
  sizes_exact per_channel chans = true ->
  exists i, let '(o, r) := accelerate_lengths fast (per_channel * chans) available in
    (1 <= i)%nat /\ o = (per_channel * chans * i)%nat /\ (3 * o <= 2 * r)%nat.
Proof.
  intros H. apply andb_true_iff in H as [H _].
  assert (forall i, i ∈ [1; 2; 3]%nat -> (3 * (per_channel * chans * i) <=
    2 * required_for fast (per_channel * chans * i))%nat) as Hi.
  { intros i Hin. rewrite forallb_forall in H. specialize (H i (proj1 (list_elem_of_In _ _) Hin)).
    rewrite forallb_forall in H. specialize (H fast). apply bool_decide_eq_true in H; [done |].
    destruct fast; simpl; auto. }
  unfold accelerate_lengths. cbn [snd].
  destruct (_ <=? available); [|destruct (_ <=? available)];
    [exists 3%nat | exists 2%nat | exists 1%nat]; cbn [fst snd];
    (split_and!; [lia | done | apply Hi; set_solver]).
Qed.

(** The common end of the two stretching operations. *)
Lemma stretched_wf (ne : engine) (a : A) (p : P) (input output : list float) (used m : nat)
    (added : Z) (stats : StatisticsCalculator) (frame_len : nat) :
  ne_wf ne -> InvA a -> InvP p -> length (operation_counts stats) = 9%nat ->
  frame_len = output_frame_size_samples ne -> length output = (m * frame_len)%nat ->
  (1 <= m)%nat ->
  ne_wf ((put_back input used (ne <| accelerate := a |> <| preemptive_expand := p |>))
    <| leftover_time_stretched_samples :=
         leftover_time_stretched_samples ne ++ drop frame_len output |>
    <| timestretch_added_samples := added |> <| statistics := stats |>).
Proof.
  intros [H1 H2 H3 H4 H5 [k H6] H7 H8 H9] Ha Hp Hst Hfl Ho Hm.
  unfold put_back. case_bool_decide; split; simpl; try done;
    exists (k + (m - 1))%nat; rewrite length_app, length_drop, H6, Ho, <- Hfl; nia.
Qed.

Lemma accelerate_produces (fast : bool) (ne : engine) :
  ne_wf ne -> produces ne (decode_accelerate (blank_frame ne) fast ne).
Proof.
  intros Hwf. unfold decode_accelerate. destruct (for_test_no_time_stretching (config ne)).
  { by apply normal_produces. }
  destruct (blank_frame_size ne Hwf) as [Hp Hl].
  pose proof Hwf as [_ Hc Hf Hsz _ _ _ _ _]. rewrite Hf.
  destruct (accelerate_lengths_ok fast _ _ (current_buffer_size_samples ne) Hsz) as [i Hi].
  destruct (accelerate_lengths _ _ _) as [o r]. destruct Hi as (Hi1 & Ho & Hr).
  set (ext := frame_new _ _ r). pose proof (decode_normal_wf ext ne Hwf) as Hd.
  destruct (decode_normal ext ne) as [ne1 ef]. destruct Hd as (Hwf1 & Hel & _ & Hcore).
  pose proof Hcore as (E1 & E2 & _ & E4 & _ & E6 & E7).
  set (out0 := samples (frame_new _ _ o)).
  assert (length out0 = o * Z.to_nat (nc_channels (config ne)))%nat as Hout0
    by apply length_silence.
  assert (length (samples ext) = r * Z.to_nat (nc_channels (config ne)))%nat as Hext
    by apply length_silence.
  destruct (process_spec (accelerate ne1) (samples ef) out0 fast) as (a & out & res & -> & Ho' & Ha & _);
    [apply Hwf1 | nia |]. cbn [mbind option_bind].
  set (n := output_frame_size_samples ne) in *.
  assert (length out = (i * Z.to_nat (nc_channels (config ne))) * n)%nat as Hm by nia.
  destruct (slice_ok 0 (length (samples (blank_frame ne))) out) as (first & -> & Hfirst); [lia | nia |].
  cbn [mbind option_bind]. eexists _, _. split; [reflexivity |].
  split; [|split_and!; simpl; [by unfold put_back; case_bool_decide | lia |
    by unfold put_back; case_bool_decide | exact Hp]].
  assert (leftover_time_stretched_samples (put_back (samples ef) (get_used_input_samples a)
    (ne1 <| accelerate := a |>)) = leftover_time_stretched_samples ne1) as ->
    by (by unfold put_back; case_bool_decide).
  apply (stretched_wf ne1 a (preemptive_expand ne1) _ _ _
           (i * Z.to_nat (nc_channels (config ne)))); try done.
  - apply Hwf1.
  - rewrite time_stretch_counts. unfold put_back. case_bool_decide; apply Hwf1.
  - congruence.
  - by rewrite Hl.
  - nia.
Qed.

Lemma preemptive_produces (ne : engine) :
  ne_wf ne -> produces ne (decode_preemptive_expand (blank_frame ne) ne).
Proof.
  intros Hwf. unfold decode_preemptive_expand. destruct (for_test_no_time_stretching (config ne)).
  { by apply normal_produces. }
  destruct (blank_frame_size ne Hwf) as [Hp Hl].
  pose proof Hwf as [_ Hc Hf Hsz HN _ _ _ _]. apply andb_true_iff in Hsz as [_ Hlen].
  apply bool_decide_eq_true in Hlen. rewrite Hp, Hlen.
  set (per := Z.to_nat (nc_sample_rate (config ne) / 100)) in *.
  set (ext := frame_new _ _ (3 * per)). pose proof (decode_normal_wf ext ne Hwf) as Hd.
  assert (length (samples ext) = 3 * output_frame_size_samples ne)%nat as Hext.
  { unfold ext, frame_new. cbn [samples]. rewrite length_silence, Hf. lia. }
  destruct (decode_normal ext ne) as [ne1 ef]. destruct Hd as (Hwf1 & Hel & _ & Hcore).
  pose proof Hcore as (E1 & E2 & E3 & _ & _ & E6 & E7).
  destruct (process_spec (preemptive_expand ne1) (samples ef) (samples ext) false)
    as (p & out & res & -> & Ho' & Hip & _); [apply Hwf1 | lia |]. cbn [mbind option_bind].
  destruct (slice_ok 0 (length (samples (blank_frame ne))) out) as (first & -> & Hfirst); [lia | lia |].
  cbn [mbind option_bind]. eexists _, _. split; [reflexivity |].
  split; [|split_and!; simpl; [by unfold put_back; case_bool_decide | lia |
    by unfold put_back; case_bool_decide | exact Hp]].
  assert (leftover_time_stretched_samples (put_back (samples ef) (get_used_input_samples p)
    (ne1 <| preemptive_expand := p |>)) = leftover_time_stretched_samples ne1) as ->
    by (by unfold put_back; case_bool_decide).
  apply (stretched_wf ne1 (accelerate ne1) p _ _ _ 3); try done.
  - apply Hwf1.
  - rewrite time_stretch_counts. unfold put_back. case_bool_decide; apply Hwf1.
  - congruence.
  - lia.
  - lia.
Qed.

Lemma stretch_buffer_produces (ne : engine) :
  ne_wf ne -> leftover_time_stretched_samples ne <> [] ->
  produces ne (return_time_stretch_buffer (blank_frame ne) ne).
Proof.
  intros Hwf Hne. destruct (blank_frame_size ne Hwf) as [Hp Hl].
  pose proof Hwf as [H1 H2 H3 H4 H5 [k Hk] H7 H8 H9]. unfold return_time_stretch_buffer.
  remember (blank_frame ne) as bf eqn:Ebf. clear Ebf.
  destruct (leftover_time_stretched_samples ne) as [|x l] eqn:El; [done |]. rewrite <- El in *.
  assert (1 <= k)%nat as Hk1.
  { destruct k; [|lia]. rewrite El in Hk. simpl in Hk. lia. }
  destruct (slice_ok 0 (length (samples bf)) (leftover_time_stretched_samples ne))
    as (first & -> & Hfirst); [lia | nia |].
  cbn [mbind option_bind]. eexists _, _. split; [reflexivity |].
  split_and!; simpl; [|done | lia | done | exact Hp].
  split; simpl; try done. exists (k - 1)%nat. rewrite length_drop, Hl. nia.
Qed.

Lemma expand_produces (phase : ExpandPhase) (ne : engine) :
  ne_wf ne -> produces ne (decode_expand (blank_frame ne) phase ne).
Proof.
  intros Hwf. unfold decode_expand. destruct (blank_frame_size ne Hwf) as [Hp Hl].
  set (inp := frame_new _ _ _). pose proof (decode_normal_wf inp ne Hwf) as Hd.
  destruct (decode_normal inp ne) as [ne1 ef]. destruct Hd as (Hwf1 & _ & _ & Hcore).
  pose proof Hcore as (E1 & E2 & _).
  destruct (expander_ok (samples ef) (samples (blank_frame ne)) phase (expand ne1))
    as (e & out & r & -> & Ho & _). cbn [mbind option_bind].
  eexists _, _. split; [reflexivity |]. destruct Hwf1 as [H1 H2 H3 H4 H5 H6 H7 H8 H9].
  split_and!; [|unfold put_back; case_bool_decide; simpl; congruence | simpl; congruence
    | unfold put_back; case_bool_decide; simpl; congruence | exact Hp].
  unfold put_back; case_bool_decide; split; simpl; try done; by rewrite time_stretch_counts.
Qed.

(** The decision changes neither the shape of the state nor the statistics, and
    only selects operations the statistics can count. *)
Lemma get_decision_wf (now : Z) (ne : engine) : ne_wf ne ->
  let '(ne', op) := get_decision now ne in
  ne_wf ne' /\ config ne' = config ne /\
  output_frame_size_samples ne' = output_frame_size_samples ne /\
  (operation_index op < 9)%nat /\ op <> Merge /\
  (op = TimeStretchBuffer -> leftover_time_stretched_samples ne' <> []).
Proof.
  intros [H1 H2 H3 H4 H5 H6 H7 H8 H9]. unfold get_decision.
  set (b := negb _). destruct b eqn:Eb.
  { split_and!; simpl; [by split | done | done | lia | done |]. intros _.
    unfold b in Eb. simpl in Eb. by case_bool_decide. }
  repeat (match goal with |- context [if ?c then _ else _] => destruct c end);
    split_and!; simpl; try done; try lia; (split; simpl; try done; by exists 0%nat).
Qed.

Lemma perform_produces (op : Operation) (ne : engine) :
  ne_wf ne -> (operation_index op < 9)%nat ->
  (op = TimeStretchBuffer -> leftover_time_stretched_samples ne <> []) ->
  produces ne (perform op (blank_frame ne) ne).
Proof.
  intros Hwf Hi Hts. destruct op; simpl in Hi; try lia; simpl;
    auto using normal_produces, accelerate_produces, preemptive_produces, expand_produces,
      stretch_buffer_produces.
Qed.

Lemma maybe_roll_wf (now : Z) (ne : engine) :
  ne_wf ne -> ne_wf (maybe_roll_packet_rate now ne) /\
  config (maybe_roll_packet_rate now ne) = config ne /\
  output_frame_size_samples (maybe_roll_packet_rate now ne) = output_frame_size_samples ne.
Proof.
  intros [H1 H2 H3 H4 H5 H6 H7 H8 H9]. unfold maybe_roll_packet_rate.
  destruct (_ <=? _); by repeat split.
Qed.

Lemma get_audio_ok (now : Z) (ne : engine) : ne_wf ne ->
  exists ne' frame, get_audio now ne = Some (ne', Ok frame) /\
    length (samples frame) = output_frame_size_samples ne /\
    ne_wf ne' /\ config ne' = config ne.
Proof.
  intros Hwf0. unfold get_audio. destruct (maybe_roll_wf now ne Hwf0) as (Hwf & Ec & Eo).
  set (ne1 := maybe_roll_packet_rate now ne) in *. fold (blank_frame ne1).
  destruct (blank_frame_size ne1 Hwf) as [Hp Hl]. destruct (bypass_mode (config ne1)).
  - unfold bypass_audio. set (k := Nat.min _ (length (bypass_audio_queue ne1))).
    assert (k <= output_frame_size_samples ne1)%nat by lia.
    assert (length (take k (bypass_audio_queue ne1)) = k) by (rewrite length_take; lia).
    eexists _, _. split; [reflexivity |]. destruct Hwf as [H1 H2 H3 H4 H5 H6 H7 H8 H9].
    split_and!; [|by split | done].
    set (w := write_at 0 (take k (bypass_audio_queue ne1)) (samples (blank_frame ne1))).
    assert (length w = output_frame_size_samples ne1) as Hw
      by (unfold w; rewrite length_write_at; lia).
    transitivity (length (write_at k (silence (output_frame_size_samples ne1 - k)) w)); [done |].
    rewrite length_write_at; [congruence |]. rewrite length_silence. lia.
  - pose proof (get_decision_wf now ne1 Hwf) as Hd.
    destruct (get_decision now ne1) as [ne2 op]. destruct Hd as (Hwf2 & Ec2 & Eo2 & Hi & _ & Hts).
    assert (ne_wf (ne2 <| last_operation := op |>)) as Hwf3
      by (destruct Hwf2 as [H1 H2 H3 H4 H5 H6 H7 H8 H9]; by split).
    destruct (perform_produces op _ Hwf3 Hi Hts) as (ne4 & fr & E & Hwf4 & Ec4 & Hf & Eo4 & _).
    replace (blank_frame ne1) with (blank_frame (ne2 <| last_operation := op |>))
      by (unfold blank_frame; simpl; congruence).
    rewrite E. cbn [mbind option_bind].
    destruct (record_decode_ok op now (statistics ne4)) as (s & -> & Hs); [apply Hwf4 | done |].
    cbn [mbind option_bind]. eexists _, _. split; [reflexivity |].
    destruct Hwf4 as [H1 H2 H3 H4 H5 H6 H7 H8 H9]. simpl in *.
    split_and!; [congruence | by split | congruence].
Qed.

(** Inserting a packet keeps the shape of the engine, when it returns. *)
Lemma insert_wf (now : Z) (p : AudioPacket) (ne ne' : engine) (r : result unit NetEqError) :
  ne_insert_packet now p ne = Some (ne', r) -> ne_wf ne -> ne_wf ne' /\ config ne' = config ne.
Proof.
  intros H Hwf0. unfold ne_insert_packet in H.
  set (ne0 := ne <| packets_received_this_second := _ |>) in H.
  assert (ne_wf ne0) as Hwf1 by (destruct Hwf0 as [H1 H2 H3 H4 H5 H6 H7 H8 H9]; by split).
  destruct (maybe_roll_wf now ne0 Hwf1) as (Hwf & Ec & _).
  set (ne1 := maybe_roll_packet_rate now ne0) in *.
  change (config ne0) with (config ne) in Ec. clearbody ne1. clear ne0 Hwf1 Hwf0.
  destruct Hwf as [H1 H2 H3 H4 H5 H6 H7 H8 H9]. destruct (bypass_mode (config ne1)).
  - destruct (decoders ne1 !! _); [|by simplify_eq]. destruct (decode _ _) as [dec' [pcm|e]];
      simplify_eq; (split; [by split | done]).
  - destruct (dm_update _ _ _ _ _) as [[dm [[]|e]]|]; [..|discriminate H];
      cbn [mbind option_bind] in H; [|by simplify_eq].
    destruct (insert_packet _ _ _ _ _) as [[[pb st] r']|] eqn:E; [|discriminate H].
    apply insert_packet_counts in E. simpl in E. cbn [mbind option_bind] in H.
    destruct r'; simplify_eq; (split; [split; simpl; congruence || done | done]).
Qed.

(** ** Reachable engines *)

Inductive ne_step : engine -> engine -> Prop :=
| step_insert now p ne ne' r : ne_insert_packet now p ne = Some (ne', r) -> ne_step ne ne'
| step_get_audio now ne ne' r : get_audio now ne = Some (ne', r) -> ne_step ne ne'
| step_flush now ne : ne_step ne (ne_flush now ne)
| step_set_minimum delay ne : ne_step ne (ne_set_minimum_delay delay ne).1
| step_set_maximum delay ne : ne_step ne (ne_set_maximum_delay delay ne).1
| step_register pt dec ne : ne_step ne (register_decoder pt dec ne).

Lemma ne_step_wf (ne ne' : engine) :
  ne_step ne ne' -> ne_wf ne -> ne_wf ne' /\ config ne' = config ne.
Proof.
  intros Hs Hwf. destruct Hs as [now p ne ne' r E|now ne ne' r E|now ne|d ne|d ne|pt dec ne].
  - by eapply insert_wf.
  - destruct (get_audio_ok now ne Hwf) as (ne1 & f & E1 & _ & Hwf1 & Hc). by simplify_eq.
  - destruct Hwf as [H1 H2 H3 H4 H5 H6 H7 H8 H9]. unfold ne_flush, pb_flush.
    case_bool_decide; (split; [split; simpl; try done; by exists 0%nat | done]).
  - destruct Hwf as [H1 H2 H3 H4 H5 H6 H7 H8 H9]. split; [by split | done].
  - destruct Hwf as [H1 H2 H3 H4 H5 H6 H7 H8 H9]. split; [by split | done].
  - destruct Hwf as [H1 H2 H3 H4 H5 H6 H7 H8 H9]. split; [by split | done].
Qed.

Lemma reachable_wf (ne ne' : engine) :
  rtc ne_step ne ne' -> ne_wf ne -> ne_wf ne' /\ config ne' = config ne.
Proof.
  induction 1 as [ne|ne ne1 ne2 Hs _ IH]; intros Hwf; [done |].
  destruct (ne_step_wf ne ne1 Hs Hwf) as [Hwf1 Hc]. destruct (IH Hwf1). split; [done | congruence].
Qed.

End Frames.

(** ** Engines made by [NetEq::new] *)

(** The frame sizes of a configuration suit the stretchers. *)
Definition rate_supported (rate chans : Z) : bool :=
  (0 <? rate) && (0 <? chans) && sizes_exact (Z.to_nat (rate / 100)) (Z.to_nat chans) &&
  bool_decide (calculate_overlap_length rate <=
               3 * (Z.to_nat (rate / 100) * Z.to_nat chans))%nat.

Lemma ne_new_wf {D : Type} (cfg : NetEqConfig) (now : Z)
    (ne : NetEq D Accelerator PreemptiveExpander) :
  rate_supported (nc_sample_rate cfg) (nc_channels cfg) = true -> ne_new cfg now = Ok ne ->
  ne_wf acc_inv (pre_inv (calculate_overlap_length (nc_sample_rate cfg)))
    (calculate_overlap_length (nc_sample_rate cfg)) ne /\ config ne = cfg.
Proof.
  unfold rate_supported, ne_new. intros H E.
  apply andb_true_iff in H as [H Hn]. apply andb_true_iff in H as [H Hs].
  apply andb_true_iff in H as [Hr Hc]. apply Z.ltb_lt in Hr, Hc. apply bool_decide_eq_true in Hn.
  destruct (Z.eqb_spec (nc_sample_rate cfg) 0); [lia |].
  destruct (Z.eqb_spec (nc_channels cfg) 0); [lia |].
  assert (ne = ne_init cfg now) as -> by congruence. pose proof (overlap_length_pos (nc_sample_rate cfg)).
  split; [|done]. split; cbn [config output_frame_size_samples leftover_time_stretched_samples
    statistics accelerate preemptive_expand operation_counts stats_new];
    [done | done | done | done | done | by exists 0%nat | done | |].
  - unfold acc_inv, accelerate_new. simpl. lia.
  - unfold pre_inv, preemptive_new. simpl. lia.
Qed.

(** Playback never stops. In every engine reachable from [NetEq::new] with a
    supported sample rate and channel count, by any sequence of packet
    insertions, frames, flushes, delay settings and decoder registrations, with
    any decoders, [get_audio] returns: it never panics, and its frame holds
    exactly 10 ms of samples. *)
Theorem get_audio_always_a_frame {D : Type} `{!AudioDecoder D} (cfg : NetEqConfig) (start now : Z)
    (ne0 ne : NetEq D Accelerator PreemptiveExpander) :
  rate_supported (nc_sample_rate cfg) (nc_channels cfg) = true ->
  ne_new cfg start = Ok ne0 -> rtc ne_step ne0 ne ->
  exists ne' frame, get_audio now ne = Some (ne', Ok frame) /\
    length (samples frame) =
      (Z.to_nat (nc_sample_rate cfg / 100) * Z.to_nat (nc_channels cfg))%nat.
Proof.
  intros Hs Hn Hr. destruct (ne_new_wf cfg start ne0 Hs Hn) as [Hwf0 Hc0].
  destruct (reachable_wf _ _ _ ne0 ne Hr Hwf0) as [Hwf Hc].
  destruct (get_audio_ok _ _ _ now ne Hwf) as (ne' & f & E & Hl & _).
  exists ne', f. split; [done |]. destruct Hwf as [_ _ Hf _ _ _ _ _ _]. congruence.
Qed.

(** The usual rates are supported, mono and stereo. *)
Lemma usual_rates_supported :
  forallb (fun rate => rate_supported rate 1 && rate_supported rate 2)
    [8000; 12000; 16000; 24000; 32000; 44100; 48000] = true.
Proof. vm_compute. reflexivity. Qed.

(** ** The decision *)

Section Decision.
Context {D A P : Type} `{!AudioDecoder D} `{!TimeStretcher A} `{!TimeStretcher P}.
Notation engine := (NetEq D A P).

(** What each operation requires of the state it is chosen in, and how it leaves
    the count of consecutive expansions. *)
Definition decision_ok (ne ne' : engine) (op : Operation) : Prop :=
  let current := current_buffer_size_samples ne in
  let frame := Z.of_nat (output_frame_size_samples ne) in
  match op with
  | Normal | Accelerate | FastAccelerate =>
      frame <= current /\ consecutive_expands ne <= 0 /\
      consecutive_expands ne' = consecutive_expands ne
  | PreemptiveExpand =>
      frame *u64 3 <= current /\ consecutive_expands ne <= 0 /\
      filtered_current_level (buffer_level_filter ne') <
        low_limit (target_delay_ms (delay_manager ne)) (nc_sample_rate (config ne) / 1000)
  | ExpandEnd => frame <= current /\ 0 < consecutive_expands ne /\ consecutive_expands ne' = 0
  | ExpandStart => consecutive_expands ne = 0 /\ consecutive_expands ne' = 1
  | Expand => consecutive_expands ne' = sat_add 32 (consecutive_expands ne) 1
  | TimeStretchBuffer => leftover_time_stretched_samples ne <> []
  | _ => False
  end.

(** The decision is sound in every state. Audio is played, at any speed, only
    when a whole frame is buffered (three for a preemptive expansion, whose
    filtered level is below the low limit); concealment is counted frame by frame,
    starts from a count of zero and ends with a reset of the count; the operations
    without an implementation are never chosen. *)
Theorem decision_sound (now : Z) (ne : engine) :
  let '(ne', op) := get_decision now ne in decision_ok ne ne' op.
Proof.
  unfold get_decision.
  assert (forall b (l : list float), b = negb (bool_decide (l = [])) -> b = true -> l <> []) as Hts.
  { intros b l -> H. by case_bool_decide. }
  match goal with |- context [negb (bool_decide (?l = []))] =>
    destruct (negb (bool_decide (l = []))) eqn:E0; [exact (Hts _ _ eq_refl E0) |] end.
  repeat match goal with
  | |- context [if (?a && ?b) then _ else _] => destruct (a && b) eqn:?
  | |- context [if (?a <? ?b) then _ else _] => destruct (Z.ltb_spec a b)
  | |- context [if (?a <=? ?b) then _ else _] => destruct (Z.leb_spec a b)
  end; simpl in *; repeat match goal with H : _ && _ = true |- _ => apply andb_true_iff in H as [??] end;
    repeat match goal with
    | H : (_ <? _) = true |- _ => apply Z.ltb_lt in H
    | H : (_ <=? _) = true |- _ => apply Z.leb_le in H
    | H : (_ =? _) = true |- _ => apply Z.eqb_eq in H
    end; simpl in *; try done; try (split_and!; (done || lia)).
  all: unfold sat_add, u_max in *; simpl; try (split; [done | lia]).
Qed.

(** In bypass mode a starved queue is reported as speech: the frame is
    silence, yet its type is [Normal] and its voice activity is set, because the
    count of filled samples includes the silence. *)
Theorem bypass_starved_reports_speech (now : Z) (ne : engine) :
  bypass_mode (config ne) = true -> bypass_audio_queue ne = [] ->
  exists ne' frame, get_audio now ne = Some (ne', Ok frame) /\
    take (output_frame_size_samples ne) (samples frame) = silence (output_frame_size_samples ne) /\
    speech_type frame = StNormal /\
    vad_activity frame = bool_decide (0 < output_frame_size_samples ne)%nat.
Proof.
  intros Hb Hq. unfold get_audio, maybe_roll_packet_rate.
  destruct (_ <=? _); simpl; rewrite Hb; unfold bypass_audio; simpl; rewrite Hq; simpl;
    rewrite Nat.min_0_r, Nat.sub_0_r, bool_decide_true by done;
    (eexists _, _; split; [reflexivity |]; simpl; split; [|done]);
    unfold write_at; rewrite !take_0, app_nil_l; apply take_app_length', eq_sym, length_silence.
Qed.

End Decision.

(** ** Witnesses *)

(** A decoder that yields one constant sample per byte. *)
#[local] Instance unit_decoder : AudioDecoder unit := {
  dec_sample_rate := fun _ => 16000;
  dec_channels := fun _ => 1;
  decode := fun bytes d => (d, Ok ((fun _ => F32.of_Z 1) <$> bytes));
}.

Lemma get_audio_always_witness :
  exists ne' frame, get_audio 10000000 (ne_flush 0 (ne_init (D := unit) neteq_config_default 0)) =
      Some (ne', Ok frame) /\ length (samples frame) = 160%nat.
Proof.
  apply (get_audio_always_a_frame neteq_config_default 0 10000000
           (ne_init neteq_config_default 0)).
  - vm_compute. reflexivity.
  - reflexivity.
  - apply rtc_once, step_flush.
Defined.

Definition bypass_config : NetEqConfig :=
  mkNetEqConfig 16000 1 200 0 0 0 false true delay_config_default smart_flush_default.

Lemma bypass_starved_witness :
  exists ne' frame, get_audio 0 (ne_init (D := unit) bypass_config 0) = Some (ne', Ok frame) /\
    take 160 (samples frame) = silence 160 /\
    speech_type frame = StNormal /\ vad_activity frame = true.
Proof.
  destruct (bypass_starved_reports_speech 0 (ne_init (D := unit) bypass_config 0) eq_refl eq_refl)
    as (ne' & f & E & Hs & Ht & Hv).
  exists ne', f. split; [exact E |]. split; [exact Hs |]. split; [exact Ht | exact Hv].
Defined.

(** ** Stereo acceleration *)

Definition stereo_config : NetEqConfig :=
  mkNetEqConfig 8000 2 200 0 0 0 false false delay_config_default smart_flush_default.

(** 700 samples buffered, none of them zero, and a settled level filter. *)
Definition stereo_engine : NetEq unit Accelerator PreemptiveExpander :=
  (ne_init stereo_config 0)
    <| leftover_samples := replicate 700 (F32.of_Z 1) |>
    <| buffer_level_filter := set_filtered_buffer_level 700 (blf_new 8000) |>.

Definition has_zero (l : list float) : bool := existsb (fun x => SFeqb x (F32.of_Z 0)) l.

(** Acceleration of a stereo stream inserts silence. The sizes that
    [decode_accelerate] checks against the buffered samples already count both
    channels, and building its frames multiplies them by the channel count again:
    with 700 samples buffered it checks that 480 suffice, then decodes 960. *)
Theorem stereo_accelerate_inserts_silence :
  has_zero (stream stereo_engine) = false /\
  match get_audio 1 stereo_engine with
  | Some (ne', Ok frame) =>
      last_operation ne' = Accelerate /\
      (accelerate_lengths false 160 700).2 = 480%nat /\
      has_zero (leftover_time_stretched_samples ne' ++ leftover_samples ne') = true
  | _ => False
  end.
Proof. split; [vm_compute; reflexivity | vm_compute; repeat split]. Qed.
