(* ===== verification/Validation.v ===== *)
(** * Display names and meeting ids (videocall-types/src/validation.rs)

    A string is the list of its Unicode scalar values here. The title casing of mail
    addresses, which needs the Unicode case tables, is left out, and so is the text of
    the error messages: the error carries what the text shows. *)
From stdpp Require Import sorting.
From S2P Require Import Prelude.

Notation chars := (list Z).

Definition DISPLAY_NAME_MAX_LEN : nat := 50.
Definition space : Z := 32.

(** [char::is_whitespace]: the Unicode property White_Space. *)
Definition is_whitespace (ch : Z) : bool :=
  ((9 <=? ch) && (ch <=? 13)) || (ch =? 32) || (ch =? 133) || (ch =? 160) || (ch =? 5760) ||
  ((8192 <=? ch) && (ch <=? 8202)) || (ch =? 8232) || (ch =? 8233) || (ch =? 8239) || (ch =? 8287) ||
  (ch =? 12288).

Definition is_ascii_alphanumeric (ch : Z) : bool :=
  ((48 <=? ch) && (ch <=? 57)) || ((65 <=? ch) && (ch <=? 90)) || ((97 <=? ch) && (ch <=? 122)).

(** [str::trim]. *)
Fixpoint trim_start (s : chars) : chars :=
  match s with
  | [] => []
  | ch :: rest => if is_whitespace ch then trim_start rest else s
  end.
Definition trim (s : chars) : chars := reverse (trim_start (reverse (trim_start s))).

(** The loop body of [normalize_spaces]: the output and the flag. *)
Definition normalize_step (st : chars * bool) (ch : Z) : chars * bool :=
  let '(out, prev_space) := st in
  if is_whitespace ch then (if prev_space then (out, prev_space) else (out ++ [space], true))
  else (out ++ [ch], false).

Definition normalize_spaces (s : chars) : chars := (foldl normalize_step ([], false) (trim s)).1.

Definition is_allowed_display_name_char (ch : Z) : bool :=
  is_ascii_alphanumeric ch || (ch =? 32) || (ch =? 95) || (ch =? 45) || (ch =? 39).

Inductive NameError : Type :=
| EmptyName
| NameTooLong
| InvalidChars (invalid : list Z).

(** [Vec::dedup] of a sorted vector. *)
Fixpoint dedup (l : list Z) : list Z :=
  match l with
  | x :: (y :: _) as rest => if x =? y then dedup rest else x :: dedup rest
  | _ => l
  end.

Definition validate_display_name (raw : chars) : result chars NameError :=
  let value := normalize_spaces raw in
  if bool_decide (value = []) then Err EmptyName
  else if (DISPLAY_NAME_MAX_LEN <? length value)%nat then Err NameTooLong
  else
    let invalid := dedup (merge_sort Z.le (filter (fun ch => is_allowed_display_name_char ch = false) value)) in
    if bool_decide (invalid = []) then Ok value else Err (InvalidChars invalid).

Definition is_valid_meeting_id (id : chars) : bool :=
  negb (bool_decide (id = [])) && forallb (fun c => is_ascii_alphanumeric c || (c =? 95)) id.

(** ** A reference definition *)

(** The words of a text: the longest runs without white space. *)
Fixpoint words_from (word : chars) (s : chars) : list chars :=
  match s with
  | [] => if decide (word = []) then [] else [word]
  | ch :: rest =>
      if is_whitespace ch
      then (if decide (word = []) then words_from [] rest else word :: words_from [] rest)
      else words_from (word ++ [ch]) rest
  end.
Definition words (s : chars) : list chars := words_from [] s.

(** [join] with single spaces. *)
Fixpoint unwords (l : list chars) : chars :=
  match l with
  | [] => []
  | [w] => w
  | w :: rest => w ++ space :: unwords rest
  end.

(** ** Normalisation joins the words *)

Lemma trim_start_words s : words (trim_start s) = words s.
Proof. induction s as [|ch s IH]; [done |]. unfold words in *. simpl. by destruct (is_whitespace ch) eqn:E; simpl; rewrite ?E. Qed.

(** White space at the end adds no word. *)
Lemma words_from_spaces t : Forall (fun ch => is_whitespace ch = true) t -> forall w s,
  words_from w (s ++ t) = words_from w s.
Proof.
  intros Ht w s. revert w. induction s as [|ch s IH]; intros w; simpl; [|by rewrite !IH].
  assert (forall v, words_from v t = if decide (v = []) then [] else [v]) as H; [|apply H].
  clear w. induction Ht as [|ch t Hc _ IH]; intros v; simpl; [done |]. rewrite Hc, IH.
  by destruct (decide (v = [])).
Qed.

Lemma trim_start_split s : exists t, s = t ++ trim_start s /\ Forall (fun ch => is_whitespace ch = true) t.
Proof.
  induction s as [|ch s (t & E & Ht)]; [by exists [] |]. simpl. destruct (is_whitespace ch) eqn:Ec; [|by exists []].
  exists (ch :: t). split; [by rewrite E at 1 | by constructor].
Qed.

Lemma trim_words s : words (trim s) = words s.
Proof.
  unfold trim. rewrite <- (trim_start_words s). generalize (trim_start s). clear s. intros s.
  destruct (trim_start_split (reverse s)) as (t & E & Ht).
  apply (f_equal reverse) in E. rewrite reverse_involutive, reverse_app in E. rewrite E at 2. symmetry.
  unfold words. apply words_from_spaces. by apply Forall_reverse.
Qed.

(** A text that starts and ends with a letter, or is empty. *)
Definition trimmed (s : chars) : Prop :=
  match head s with Some ch => is_whitespace ch = false | None => True end /\
  match last s with Some ch => is_whitespace ch = false | None => True end.

Lemma trim_start_head s : match head (trim_start s) with Some ch => is_whitespace ch = false | None => True end.
Proof. induction s as [|ch s IH]; simpl; [done |]. by destruct (is_whitespace ch) eqn:E. Qed.

Lemma trim_trimmed s : trimmed (trim s).
Proof.
  unfold trim, trimmed. split.
  - pose proof (trim_start_head s) as Hh. destruct (trim_start_split (reverse (trim_start s))) as (t & E & Ht).
    apply (f_equal reverse) in E. rewrite reverse_involutive, reverse_app in E.
    destruct (reverse (trim_start (reverse (trim_start s)))) as [|ch u]; [done |]. by rewrite E in Hh.
  - rewrite last_reverse. apply trim_start_head.
Qed.

Lemma words_from_nonempty s : forall w ch, last s = Some ch -> is_whitespace ch = false -> words_from w s <> [].
Proof.
  induction s as [|x s IH]; intros w ch Hl Hc; [done |]. simpl. destruct s as [|y s].
  - injection Hl as ->. rewrite Hc. simpl. by destruct w.
  - destruct (is_whitespace x); [|by eapply IH]. destruct (decide (w = [])); [by eapply IH | done].
Qed.

(** The loop from the middle of a word, and from a space. *)
Lemma normalize_loop s : forall pre w,
  match last s with Some ch => is_whitespace ch = false | None => True end ->
  (w <> [] -> (foldl normalize_step (pre ++ w, false) s).1 = pre ++ unwords (words_from w s)) /\
  (s <> [] -> (foldl normalize_step (pre, true) s).1 = pre ++ unwords (words_from [] s)).
Proof.
  induction s as [|ch s IH]; intros pre w Hl.
  { split; [|done]. intros Hw. simpl. by rewrite decide_False. }
  assert (match last s with Some ch => is_whitespace ch = false | None => True end) as Hl'
    by (destruct s; [done | exact Hl]).
  simpl. destruct (is_whitespace ch) eqn:Ec.
  - assert (s <> []) as Hne by (intros ->; simpl in Hl; congruence).
    assert (words_from [] s <> []) as Hws.
    { destruct (last s) as [c|] eqn:E; [by eapply words_from_nonempty | by apply last_None in E]. }
    split; intros Hw.
    + rewrite decide_False by done. rewrite (proj2 (IH ((pre ++ w) ++ [space]) [] Hl') Hne).
      destruct (words_from [] s) as [|v l]; [done |]. simpl. by rewrite <- !app_assoc.
    + by apply IH.
  - split; intros Hw.
    + rewrite <- app_assoc. apply IH; [done |]. by destruct w.
    + by apply (IH pre [ch]).
Qed.

(** Normalisation keeps the words. The normalised form of a text, computed by a
    loop over its trimmed characters, is the list of its words joined by single
    spaces. *)
Lemma normalize_joins_words (s : chars) : normalize_spaces s = unwords (words s).
Proof.
  unfold normalize_spaces. rewrite <- trim_words. destruct (trim_trimmed s) as [Hh Hl].
  destruct (trim s) as [|ch u]; [done |]. simpl in Hh. simpl. rewrite Hh.
  assert (match last u with Some c => is_whitespace c = false | None => True end) as Hl'
    by (destruct u; [done | exact Hl]).
  pose proof (proj1 (normalize_loop u [] [ch] Hl') ltac:(done)) as H. simpl in H. rewrite H.
  unfold words. simpl. by rewrite Hh.
Qed.

(** ** Accepted names *)

(** A word: not empty, and without white space. *)
Definition is_word (w : chars) : Prop := w <> [] /\ Forall (fun ch => is_whitespace ch = false) w.

Lemma words_are_words s : forall w, Forall (fun ch => is_whitespace ch = false) w -> Forall is_word (words_from w s).
Proof.
  induction s as [|ch s IH]; intros w Hw; simpl.
  - case_decide; [by apply Forall_nil | by apply Forall_singleton].
  - destruct (is_whitespace ch) eqn:Ec.
    + case_decide; [by apply IH |]. constructor; [done | by apply IH].
    + apply IH. apply Forall_app. by split; [| constructor].
Qed.

Lemma words_app_word w v s : Forall (fun ch => is_whitespace ch = false) w ->
  words_from v (w ++ s) = words_from (v ++ w) s.
Proof.
  intros Hw. revert v. induction Hw as [|ch w Hc _ IH]; intros v; simpl; [by rewrite app_nil_r |].
  rewrite Hc, IH. by rewrite <- app_assoc.
Qed.

(** Joining words and splitting again gives them back. *)
Lemma words_unwords l : Forall is_word l -> words (unwords l) = l.
Proof.
  induction 1 as [|w l [Hne Hw] Hl IH]; [done |]. unfold words in *. destruct l as [|v l].
  - simpl. rewrite <- (app_nil_r w) at 1. rewrite words_app_word by done. simpl. by rewrite decide_False.
  - change (unwords (w :: v :: l)) with (w ++ space :: unwords (v :: l)).
    assert (forall s, words_from w (space :: s) = w :: words_from [] s) as Hs
      by (intros s; simpl; by rewrite decide_False).
    rewrite words_app_word, app_nil_l, Hs by done. by rewrite IH.
Qed.

Lemma normalize_idempotent s : normalize_spaces (normalize_spaces s) = normalize_spaces s.
Proof.
  rewrite !normalize_joins_words. rewrite words_unwords; [done |]. by apply words_are_words.
Qed.

Lemma dedup_nil l : dedup l = [] -> l = [].
Proof.
  induction l as [|x [|y l] IH]; simpl; [done | done |]. destruct (x =? y); [|done]. intros H. by specialize (IH H).
Qed.

(** Accepted names are clean. A display name is accepted exactly when its words
    joined by single spaces are a text of one to fifty of the allowed characters; the
    accepted form has no white space other than single spaces between its words, and
    is accepted unchanged. *)
Theorem accepted_names (raw value : chars) :
  validate_display_name raw = Ok value <->
  value = unwords (words raw) /\ value <> [] /\ (length value <= DISPLAY_NAME_MAX_LEN)%nat /\
  Forall (fun ch => is_allowed_display_name_char ch = true) value /\
  validate_display_name value = Ok value.
Proof.
  assert (forall v, normalize_spaces v = v ->
    (validate_display_name v = Ok v <-> v <> [] /\ (length v <= DISPLAY_NAME_MAX_LEN)%nat /\
       Forall (fun ch => is_allowed_display_name_char ch = true) v)) as Hval.
  { intros v Hn. unfold validate_display_name. rewrite Hn.
    case_bool_decide; [split; [done | by intros (? & _)] |].
    destruct (_ <? length v)%nat eqn:El; [apply Nat.ltb_lt in El; split; [done | intros (_ & ? & _); lia] |].
    apply Nat.ltb_ge in El. case_bool_decide as Hd.
    - split; [|done]. intros _. split_and!; [done | done |]. apply dedup_nil in Hd.
      apply (f_equal length) in Hd. rewrite merge_sort_Permutation in Hd. simpl in Hd.
      apply nil_length_inv in Hd. apply Forall_forall. intros ch Hin.
      destruct (is_allowed_display_name_char ch) eqn:E; [done |].
      assert (ch ∈ filter (fun ch => is_allowed_display_name_char ch = false) v) as Hf
        by (by apply list_elem_of_filter).
      rewrite Hd in Hf. by apply elem_of_nil in Hf.
    - split; [done |]. intros (_ & _ & Hall). exfalso. apply Hd.
      assert (filter (fun ch => is_allowed_display_name_char ch = false) v = []) as ->; [|done].
      clear -Hall. induction Hall as [|ch v Hc _ IH]; [done |]. rewrite filter_cons, decide_False by congruence. exact IH. }
  assert (forall v, validate_display_name raw = Ok v -> v = normalize_spaces raw /\ validate_display_name v = Ok v) as Hfix.
  { intros v H. assert (v = normalize_spaces raw) as -> by (unfold validate_display_name in H; repeat case_match; congruence).
    split; [done |]. unfold validate_display_name in *. by rewrite normalize_idempotent. }
  split.
  - intros H. destruct (Hfix _ H) as [-> Hv]. pose proof Hv as Hv'.
    apply Hval in Hv' as (H1 & H2 & H3); [|apply normalize_idempotent]. by rewrite normalize_joins_words in *.
  - intros (-> & _ & _ & _ & H). rewrite <- normalize_joins_words in *.
    unfold validate_display_name in *. by rewrite normalize_idempotent in H.
Qed.
