(* ===== verification/Protocol.v ===== *)
(** * Messages, subjects and packet builders of the server

    videocall-types (the packet types and user ids), actix-api/src/models/mod.rs
    (subjects) and actix-api/src/session_manager.rs (packet builders).

    A Rust [String] is the [string] of its UTF-8 bytes, [Vec<u8>] a list of
    numbers. The protobuf runtime and the code generated for it are reached
    through the class [Wire]; [WireLaws] is the round trip of its documentation.
    An [EnumOrUnknown] field is the number on the wire. *)
From Stdlib Require Import Ascii.
From stdpp Require Import pretty.
From S2P Require Import Prelude.

(** ** Strings and bytes *)

Definition bytes : Type := list Z.

Definition as_bytes (s : string) : bytes :=
  (fun c => Z.of_N (Ascii.N_of_ascii c)) <$> String.list_ascii_of_string s.

Lemma str_app_assoc (s t u : string) : (s +:+ t) +:+ u = s +:+ (t +:+ u).
Proof. induction s as [|c s IH]; [done | exact (f_equal (String c) IH)]. Qed.

(** [str::replace(' ', "_")]. *)
Fixpoint replace_spaces (s : string) : string :=
  match s with
  | EmptyString => EmptyString
  | String c s' => String (if bool_decide (c = " "%char) then "_"%char else c) (replace_spaces s')
  end.

(** The decimal form of a [u64]. *)
Definition show_u64 (n : Z) : string := pretty (Z.to_N n).

Definition SYSTEM_USER_ID : string := "system-&^%$#@!".

Definition to_user_id_bytes (identity : string) : bytes := as_bytes identity.

Definition is_system_user (b : bytes) : bool := bool_decide (b = as_bytes SYSTEM_USER_ID).

(** ** Packet types *)

Definition MEDIA : Z := 3.
Definition HEALTH : Z := 6.
Definition MEETING : Z := 7.
Definition SESSION_ASSIGNED : Z := 8.
Definition CONGESTION : Z := 9.

Definition RTT : Z := 5.
Definition KEYFRAME_REQUEST : Z := 6.

Definition MEETING_STARTED : Z := 1.
Definition MEETING_ENDED : Z := 2.
Definition PARTICIPANT_JOINED : Z := 3.
Definition PARTICIPANT_LEFT : Z := 4.

Record PacketWrapper : Type := mkPacketWrapper {
  packet_type : Z;
  pw_user_id : bytes;
  pw_data : bytes;
  pw_session_id : Z;
}.

#[export] Instance eta_PacketWrapper : Eta PacketWrapper := fun r =>
  mkPacketWrapper (packet_type r) (pw_user_id r) (pw_data r) (pw_session_id r).

Record MeetingPacket : Type := mkMeetingPacket {
  event_type : Z;
  mt_room_id : string;
  mt_start_time_ms : Z;
  mt_message : string;
  mt_creator_id : bytes;
  mt_participant_count : Z;
  mt_target_user_id : bytes;
  mt_room_token : string;
  mt_session_id : Z;
  mt_display_name : bytes;
}.

#[export] Instance eta_MeetingPacket : Eta MeetingPacket := fun r =>
  mkMeetingPacket (event_type r) (mt_room_id r) (mt_start_time_ms r) (mt_message r)
    (mt_creator_id r) (mt_participant_count r) (mt_target_user_id r) (mt_room_token r)
    (mt_session_id r) (mt_display_name r).

(** [..Default::default()]. *)
Definition wrapper_default : PacketWrapper := mkPacketWrapper 0 [] [] 0.
Definition meeting_default : MeetingPacket :=
  mkMeetingPacket 0 EmptyString 0 EmptyString [] 0 [] EmptyString 0 [].

(** Parsing and writing messages; [None] is the error case of each. A media packet
    is only ever inspected for its media type. *)
Class Wire : Type := {
  parse_wrapper : bytes -> option PacketWrapper;
  write_wrapper : PacketWrapper -> option bytes;
  parse_media_type : bytes -> option Z;
  parse_meeting : bytes -> option MeetingPacket;
  write_meeting : MeetingPacket -> option bytes;
}.

Class WireLaws {wire : Wire} : Prop := {
  parse_write_wrapper : forall w b, write_wrapper w = Some b -> parse_wrapper b = Some w;
  parse_write_meeting : forall m b, write_meeting m = Some b -> parse_meeting b = Some m;
}.

(** ** Subjects *)

(** [format!("room.{}.system", room.replace(' ', "_"))]. *)
Definition system_subject (room : string) : string :=
  "room." +:+ replace_spaces room +:+ ".system".

(** [format!("room.{room}.{session}").replace(' ', "_")]. *)
Definition session_subject (room : string) (session : Z) : string :=
  replace_spaces ("room." +:+ room +:+ "." +:+ show_u64 session).

Definition build_subject_and_queue (room session : string) : string * string :=
  (replace_spaces ("room." +:+ room +:+ ".*"), replace_spaces (session +:+ "-" +:+ room)).

(** ** session_manager.rs *)

Inductive SessionError : Type := ReservedUserId.

Record SessionStartResult : Type := mkSessionStartResult {
  start_time_ms : Z;
  is_first_participant : bool;
  creator_id : string;
  sr_session_id : Z;
}.

Inductive SessionEndResult : Type :=
| MeetingContinues (remaining_count : Z)
| HostEndedMeeting
| LastParticipantLeft.

(** [now_ms] is the wall clock reading ([as_millis() as u64]). *)
Definition start_session (now_ms : Z) (room_id user_id : string) (id : Z)
    : result SessionStartResult SessionError :=
  if bool_decide (user_id = SYSTEM_USER_ID) then Err ReservedUserId
  else Ok (mkSessionStartResult (wrap_u 64 now_ms) true user_id id).

Definition end_session (room_id user_id : string) : result SessionEndResult SessionError :=
  Ok (MeetingContinues 0).

Section Builders.
Context {wire : Wire}.

(** [write_to_bytes().unwrap_or_default()]. *)
Definition wrapper_bytes (w : PacketWrapper) : bytes := default [] (write_wrapper w).
Definition meeting_bytes (m : MeetingPacket) : bytes := default [] (write_meeting m).

Definition build_session_assigned_packet (session_id : Z) : bytes :=
  wrapper_bytes (wrapper_default <| packet_type := SESSION_ASSIGNED |>
    <| pw_user_id := to_user_id_bytes SYSTEM_USER_ID |> <| pw_session_id := session_id |>).

(** The wrapper every meeting packet travels in. *)
Definition meeting_wrapper (m : MeetingPacket) : bytes :=
  wrapper_bytes (wrapper_default <| packet_type := MEETING |>
    <| pw_user_id := to_user_id_bytes SYSTEM_USER_ID |> <| pw_data := meeting_bytes m |>).

Definition build_meeting_started_packet (room_id : string) (start_ms : Z) (creator : string)
    : bytes :=
  meeting_wrapper (meeting_default <| event_type := MEETING_STARTED |> <| mt_room_id := room_id |>
    <| mt_start_time_ms := start_ms |> <| mt_creator_id := to_user_id_bytes creator |>).

Definition peer_packet (event : Z) (verb room_id user_id : string) (session_id : Z)
    (display_name : string) : MeetingPacket :=
  meeting_default <| event_type := event |> <| mt_room_id := room_id |>
    <| mt_message := user_id +:+ verb |>
    <| mt_target_user_id := to_user_id_bytes user_id |> <| mt_session_id := session_id |>
    <| mt_display_name := as_bytes display_name |>.

Definition build_peer_joined_packet (room_id user_id : string) (session_id : Z)
    (display_name : string) : bytes :=
  meeting_wrapper
    (peer_packet PARTICIPANT_JOINED " has joined the meeting" room_id user_id session_id display_name).

Definition build_peer_left_packet (room_id user_id : string) (session_id : Z)
    (display_name : string) : bytes :=
  meeting_wrapper
    (peer_packet PARTICIPANT_LEFT " has left the meeting" room_id user_id session_id display_name).

Definition build_meeting_ended_packet (room_id message : string) : bytes :=
  meeting_wrapper (meeting_default <| event_type := MEETING_ENDED |> <| mt_room_id := room_id |>
    <| mt_message := message |>).

(** What a client reads in a meeting packet: the event it carries, when the
    packet is one of the system's. *)
Definition read_meeting (b : bytes) : option MeetingPacket :=
  w ← parse_wrapper b;
  if (packet_type w =? MEETING) && is_system_user (pw_user_id w) then parse_meeting (pw_data w)
  else None.

(** A meeting packet that serializes is read back as it was built. *)
Lemma read_meeting_wrapper {laws : WireLaws} (m : MeetingPacket) :
  is_Some (write_meeting m) -> (forall w, is_Some (write_wrapper w)) ->
  read_meeting (meeting_wrapper m) = Some m.
Proof.
  intros [mb Hm] Hw. unfold meeting_wrapper, meeting_bytes, wrapper_bytes. rewrite Hm.
  set (w := wrapper_default <| packet_type := _ |> <| pw_user_id := _ |> <| pw_data := _ |>).
  destruct (Hw w) as [b Hb]. rewrite Hb. unfold read_meeting. simpl.
  rewrite (parse_write_wrapper w b Hb). apply (parse_write_meeting m mb Hm).
Qed.
End Builders.

(** ** Subjects stay inside their room *)

Definition is_digit (c : Ascii.ascii) : Prop :=
  (48 <= Ascii.N_of_ascii c < 58)%N.

Fixpoint all_chars (P : Ascii.ascii -> Prop) (s : string) : Prop :=
  match s with EmptyString => True | String c s' => P c /\ all_chars P s' end.

Lemma all_chars_app (P : Ascii.ascii -> Prop) (s t : string) :
  all_chars P (s +:+ t) <-> all_chars P s /\ all_chars P t.
Proof. induction s as [|c s IH]; simpl; [tauto |]. rewrite IH. tauto. Qed.

Lemma all_chars_impl (P Q : Ascii.ascii -> Prop) (s : string) :
  (forall c, P c -> Q c) -> all_chars P s -> all_chars Q s.
Proof. intros H. induction s; simpl; [done |]. intros []; auto. Qed.

Lemma pretty_digit (n : N) : (n < 10)%N -> is_digit (pretty_N_char n).
Proof.
  intros. assert (n ∈ [0;1;2;3;4;5;6;7;8;9]%N) as Hn by (rewrite !elem_of_cons; lia).
  repeat (apply elem_of_cons in Hn as [->|Hn]; [vm_compute; split; congruence |]).
  by apply not_elem_of_nil in Hn.
Qed.

Lemma pretty_go_digits (n : N) (s : string) :
  all_chars is_digit s -> all_chars is_digit (pretty_N_go n s).
Proof.
  revert s. induction (N.lt_wf_0 n) as [n _ IH]. intros s Hs.
  destruct (decide (0 < n)%N) as [Hp|Hp].
  - rewrite pretty_N_go_step by done. apply IH; [by apply N.div_lt |].
    split; [|done]. apply pretty_digit, N.mod_lt. done.
  - replace n with 0%N by lia. by rewrite pretty_N_go_0.
Qed.

Lemma show_u64_digits (n : Z) : all_chars is_digit (show_u64 n).
Proof.
  unfold show_u64, pretty, pretty_N. case_decide; [vm_compute; repeat split; congruence |].
  by apply pretty_go_digits.
Qed.

Lemma replace_spaces_plain (s : string) :
  all_chars (fun c => c <> " "%char) s -> replace_spaces s = s.
Proof.
  induction s as [|c s IH]; simpl; [done |]. intros [Hc Hs].
  rewrite bool_decide_false by done. by rewrite IH.
Qed.

Lemma replace_spaces_app (s t : string) :
  replace_spaces (s +:+ t) = replace_spaces s +:+ replace_spaces t.
Proof. induction s as [|c s IH]; simpl; [done |]. by rewrite IH. Qed.

Lemma show_u64_spaces (n : Z) : replace_spaces (show_u64 n) = show_u64 n.
Proof.
  apply replace_spaces_plain. eapply all_chars_impl; [|apply show_u64_digits].
  intros c [H _] ->. vm_compute in H. by apply H.
Qed.

Lemma show_u64_nonempty (n : Z) : show_u64 n <> EmptyString.
Proof.
  unfold show_u64, pretty, pretty_N. case_decide as H; [done |].
  assert (forall m s, s <> EmptyString -> pretty_N_go m s <> EmptyString) as Hgo.
  { intros m. induction (N.lt_wf_0 m) as [m _ IH]. intros s Hs.
    destruct (decide (0 < m)%N); [|by replace m with 0%N by lia].
    rewrite pretty_N_go_step by done. apply IH; [by apply N.div_lt | done]. }
  rewrite pretty_N_go_step by lia. by apply Hgo.
Qed.

(** The decimal form determines the number. *)
Lemma show_u64_inj (n m : Z) : 0 <= n -> 0 <= m -> show_u64 n = show_u64 m -> n = m.
Proof. intros Hn Hm H. unfold show_u64 in H. apply (inj pretty) in H. lia. Qed.
