(* ===== verification/TokenValidator.v ===== *)
(** * Room access tokens (actix-api/src/token_validator.rs, constants.rs,
      videocall-meeting-types/src/token.rs)

    The JWT library verifies the signature, the expiry and the issuer: it is the
    argument [jwt_decode]. The checks the server adds are modelled, with the
    subjects the accepted room name goes into. *)
From Stdlib Require Import Ascii.
From S2P Require Import Prelude Protocol.

Record RoomAccessTokenClaims : Type := mkClaims {
  sub : string;
  tc_room : string;
  room_join : bool;
  is_host : bool;
  tc_display_name : string;
  tc_observer : bool;
  exp : Z;
  iss : string;
}.

Definition ISSUER : string := "videocall-meeting-backend".

(** The errors of the JWT library the code distinguishes. *)
Inductive JwtError : Type := ExpiredSignature | OtherJwtError (message : string).

Inductive TokenError : Type :=
| Missing
| Invalid (message : string)
| Expired
| RoomJoinDenied
| RoomMismatch (token_room requested_room : string)
| IdentityMismatch (token_identity requested_identity : string)
| UnsafeIdentifier (field value : string).

Definition is_suspicious (e : TokenError) : bool :=
  match e with Invalid _ | UnsafeIdentifier _ _ => true | _ => false end.

Definition is_retryable (e : TokenError) : bool :=
  match e with Expired => true | _ => false end.

Definition client_message (e : TokenError) : string :=
  if is_suspicious e
  then "We detected unusual activity from your browser. This incident has been logged."
  else match e with Expired => "token has expired" | _ => "access denied" end.

(** The pattern [^[a-zA-Z0-9_-]*$] of constants.rs. *)
Definition valid_id_char (c : ascii) : bool :=
  let n := N_of_ascii c in
  ((97 <=? n) && (n <=? 122) || (65 <=? n) && (n <=? 90) || (48 <=? n) && (n <=? 57) ||
   (n =? 95) || (n =? 45))%N.

Fixpoint valid_id (s : string) : bool :=
  match s with EmptyString => true | String c s' => valid_id_char c && valid_id s' end.

Section Validation.
Context (jwt_decode : string -> string -> result RoomAccessTokenClaims JwtError).

Definition decode_room_token (secret token : string) : result RoomAccessTokenClaims TokenError :=
  match jwt_decode secret token with
  | Err ExpiredSignature => Err Expired
  | Err (OtherJwtError m) => Err (Invalid m)
  | Ok claims =>
      if negb (valid_id (tc_room claims)) then Err (UnsafeIdentifier "room" (tc_room claims))
      else if negb (room_join claims) && negb (tc_observer claims) then Err RoomJoinDenied
      else Ok claims
  end.

Definition validate_room_token (secret token expected_room expected_email : string)
    : result RoomAccessTokenClaims TokenError :=
  claims <-? decode_room_token secret token;;
  if negb (bool_decide (tc_room claims = expected_room))
  then Err (RoomMismatch (tc_room claims) expected_room)
  else if negb (bool_decide (sub claims = expected_email))
  then Err (IdentityMismatch (sub claims) expected_email)
  else Ok claims.

(** ** Acceptance *)

Definition acceptable (claims : RoomAccessTokenClaims) : Prop :=
  valid_id (tc_room claims) = true /\ (room_join claims = true \/ tc_observer claims = true).

Lemma decode_accepts (secret token : string) (claims : RoomAccessTokenClaims) :
  decode_room_token secret token = Ok claims <->
  jwt_decode secret token = Ok claims /\ acceptable claims.
Proof.
  unfold decode_room_token, acceptable. split.
  - destruct (jwt_decode secret token) as [c|[|m]]; [|done..].
    destruct (valid_id (tc_room c)) eqn:Ev; [|done]. simpl.
    destruct (room_join c) eqn:Er, (tc_observer c) eqn:Eo; simpl; intros H; simplify_eq; auto.
  - intros [-> [-> [-> | ->]]]; simpl; [done |]. by rewrite andb_false_r.
Qed.

(** The legacy endpoint accepts a token exactly when the JWT library accepts
    it, its room is made of safe characters, it grants joining or observing, and
    its room and identity are the requested ones. *)
Theorem validate_accepts_iff (secret token room email : string) (claims : RoomAccessTokenClaims) :
  validate_room_token secret token room email = Ok claims <->
  jwt_decode secret token = Ok claims /\ valid_id (tc_room claims) = true /\
  (room_join claims = true \/ tc_observer claims = true) /\
  tc_room claims = room /\ sub claims = email.
Proof.
  unfold validate_room_token. split.
  - destruct (decode_room_token secret token) as [c|e] eqn:E; [|done]. simpl.
    apply decode_accepts in E as (Ej & Ev & Eg).
    repeat case_bool_decide; simpl; intros; simplify_eq; auto.
  - intros (Ej & Ev & Eg & <- & <-).
    rewrite (proj2 (decode_accepts secret token claims)); [|done]. simpl.
    by rewrite !bool_decide_true.
Qed.

(** A rejected token gets the retry status only when it has expired. *)
Lemma reject_retryable (secret token : string) (e : TokenError) :
  decode_room_token secret token = Err e -> is_retryable e = true ->
  jwt_decode secret token = Err ExpiredSignature.
Proof.
  unfold decode_room_token. destruct (jwt_decode secret token) as [c|[|m]]; [|done|].
  - destruct (valid_id _); simpl; [|intros; by simplify_eq].
    destruct (negb (room_join c) && negb (tc_observer c)); intros; by simplify_eq.
  - intros; by simplify_eq.
Qed.
End Validation.

(** ** The subjects of an accepted room *)

(** A subject is a list of tokens separated by dots. *)
Fixpoint split_dots (s : string) : list string :=
  match s with
  | EmptyString => [EmptyString]
  | String c s' =>
      if bool_decide (c = "."%char) then EmptyString :: split_dots s'
      else match split_dots s' with
           | t :: ts => String c t :: ts
           | [] => [String c EmptyString]
           end
  end.

Definition plain_char (c : ascii) : Prop := c <> "."%char /\ c <> " "%char.

Lemma split_dots_plain (s : string) :
  all_chars (fun c => c <> "."%char) s -> split_dots s = [s].
Proof.
  induction s as [|c s IH]; simpl; [done |]. intros [Hc Hs].
  rewrite bool_decide_false by done. by rewrite IH.
Qed.

Lemma split_dots_app (s t : string) :
  all_chars (fun c => c <> "."%char) s -> split_dots (s +:+ "." +:+ t) = s :: split_dots t.
Proof.
  induction s as [|c s IH]; simpl; [done |]. intros [Hc Hs].
  rewrite bool_decide_false by done. simpl in IH. by rewrite IH.
Qed.

Lemma valid_id_plain (s : string) : valid_id s = true -> all_chars plain_char s.
Proof.
  induction s as [|c s IH]; simpl; [done |]. intros H. apply andb_true_iff in H as [Hc Hs].
  split; [|by apply IH]. split; intros ->; discriminate Hc.
Qed.

Lemma digits_plain (n : Z) : all_chars plain_char (show_u64 n).
Proof.
  eapply all_chars_impl; [|apply show_u64_digits].
  intros c [H1 H2]. split; intros ->; vm_compute in H1; by apply H1.
Qed.

Lemma plain_dots (s : string) : all_chars plain_char s -> all_chars (fun c => c <> "."%char) s.
Proof. apply all_chars_impl. by intros c []. Qed.

Lemma plain_spaces (s : string) : all_chars plain_char s -> all_chars (fun c => c <> " "%char) s.
Proof. apply all_chars_impl. by intros c []. Qed.

(** A valid room name is one token of each of its subjects. *)
Lemma room_tokens (room : string) (session : Z) : valid_id room = true ->
  split_dots (session_subject room session) = ["room"; room; show_u64 session]%string /\
  split_dots (system_subject room) = ["room"; room; "system"]%string /\
  split_dots (build_subject_and_queue room (show_u64 session)).1 = ["room"; room; "*"]%string.
Proof.
  intros Hv. pose proof (valid_id_plain room Hv) as Hp. pose proof (digits_plain session) as Hd.
  unfold session_subject, system_subject, build_subject_and_queue. cbn [fst].
  rewrite !replace_spaces_app, (replace_spaces_plain room), (replace_spaces_plain (show_u64 session))
    by (by apply plain_spaces).
  assert (forall t, all_chars (fun c => c <> "."%char) t ->
    split_dots (replace_spaces "room." +:+ room +:+ "." +:+ t) = ["room"; room; t]%string) as Hs.
  { intros t Ht. change (replace_spaces "room." +:+ room +:+ "." +:+ t)%string
      with ("room" +:+ "." +:+ (room +:+ "." +:+ t))%string.
    rewrite split_dots_app by (by repeat split).
    rewrite split_dots_app by (by apply plain_dots). by rewrite split_dots_plain. }
  split_and!; [apply Hs, plain_dots, Hd | apply (Hs "system"%string) | apply (Hs "*"%string)];
    by repeat split.
Qed.

(** A room name from an accepted token cannot reach another room's subjects.
    The subject it publishes to, the subject its events go to and the pattern it
    subscribes to each have three tokens, the middle one being the room name
    itself: no dot, space or wildcard of the name splits or widens a subject. *)
Theorem accepted_room_subjects
    (jwt_decode : string -> string -> result RoomAccessTokenClaims JwtError)
    (secret token : string) (claims : RoomAccessTokenClaims) (session : Z) :
  decode_room_token jwt_decode secret token = Ok claims ->
  let room := tc_room claims in
  split_dots (session_subject room session) = ["room"; room; show_u64 session]%string /\
  split_dots (system_subject room) = ["room"; room; "system"]%string /\
  split_dots (build_subject_and_queue room (show_u64 session)).1 = ["room"; room; "*"]%string.
Proof. intros H. apply decode_accepts in H as (_ & Hv & _). by apply room_tokens. Qed.

(** ** Witnesses *)

(** A library that accepts two fixed tokens. *)
Definition demo_claims : RoomAccessTokenClaims :=
  mkClaims "alice@example.com" "standup-1" true false "Alice" false 2000000000 ISSUER.

Definition demo_observer : RoomAccessTokenClaims :=
  mkClaims "bob@example.com" "standup-1" false false "Bob" true 2000000000 ISSUER.

Definition demo_decode (secret token : string) : result RoomAccessTokenClaims JwtError :=
  if bool_decide (token = "A"%string) then Ok demo_claims
  else if bool_decide (token = "O"%string) then Ok demo_observer
  else Err (OtherJwtError "InvalidSignature").

Lemma accepted_room_subjects_witness :
  split_dots (session_subject "standup-1" 42) = ["room"; "standup-1"; "42"]%string.
Proof. apply (accepted_room_subjects demo_decode "s" "A" demo_claims 42 eq_refl). Defined.

Lemma validate_accepts_witness :
  validate_room_token demo_decode "s" "A" "standup-1" "alice@example.com" = Ok demo_claims /\
  valid_id "standup-1" = true.
Proof.
  split; [apply (validate_accepts_iff demo_decode); by auto |].
  apply (validate_accepts_iff demo_decode "s" "A" "standup-1" "alice@example.com" demo_claims).
  reflexivity.
Defined.

(** A token that does not grant joining is accepted when it is an observer
    token, although the check list of both validators requires [room_join]. *)
Lemma observer_token_accepted :
  room_join demo_observer = false /\
  validate_room_token demo_decode "s" "O" "standup-1" "bob@example.com" = Ok demo_observer.
Proof. split; reflexivity. Qed.
