(* ===== verification/DemoWire.v ===== *)
(** * A concrete codec

    An instance of the interface [Wire] that satisfies [WireLaws], for the
    concrete runs of the development: length-prefixed fields. The protobuf format
    itself belongs to the runtime library. *)
From Stdlib Require Import Ascii.
From S2P Require Import Prelude Protocol.

Definition prefixed (b : bytes) : bytes := Z.of_nat (length b) :: b.

Definition read_prefixed (b : bytes) : option (bytes * bytes) :=
  match b with
  | n :: rest => Some (take (Z.to_nat n) rest, drop (Z.to_nat n) rest)
  | [] => None
  end.

Lemma read_prefixed_app (b rest : bytes) : read_prefixed (prefixed b ++ rest) = Some (b, rest).
Proof.
  simpl. rewrite Nat2Z.id. by rewrite take_app_length, drop_app_length.
Qed.

Definition of_bytes (b : bytes) : string :=
  String.string_of_list_ascii ((fun n => ascii_of_N (Z.to_N n)) <$> b).

Lemma of_as_bytes (s : string) : of_bytes (as_bytes s) = s.
Proof.
  unfold of_bytes, as_bytes.
  induction s as [|c s IH]; [done |]. cbn. f_equal; [by rewrite N2Z.id, ascii_N_embedding | exact IH].
Qed.

Definition demo_write_wrapper (w : PacketWrapper) : bytes :=
  packet_type w :: pw_session_id w :: prefixed (pw_user_id w) ++ pw_data w.

Definition demo_parse_wrapper (b : bytes) : option PacketWrapper :=
  match b with
  | t :: sid :: rest => '(uid, data) ← read_prefixed rest; Some (mkPacketWrapper t uid data sid)
  | _ => None
  end.

Definition demo_write_meeting (m : MeetingPacket) : bytes :=
  event_type m :: mt_start_time_ms m :: mt_participant_count m :: mt_session_id m ::
  prefixed (as_bytes (mt_room_id m)) ++ prefixed (as_bytes (mt_message m)) ++
  prefixed (mt_creator_id m) ++ prefixed (mt_target_user_id m) ++
  prefixed (as_bytes (mt_room_token m)) ++ prefixed (mt_display_name m).

Definition demo_parse_meeting (b : bytes) : option MeetingPacket :=
  match b with
  | ev :: start :: count :: sid :: r0 =>
      '(room, r1) ← read_prefixed r0;
      '(msg, r2) ← read_prefixed r1;
      '(creator, r3) ← read_prefixed r2;
      '(target, r4) ← read_prefixed r3;
      '(token, r5) ← read_prefixed r4;
      '(display, _) ← read_prefixed r5;
      Some (mkMeetingPacket ev (of_bytes room) start (of_bytes msg) creator count target
              (of_bytes token) sid display)
  | _ => None
  end.

Definition demo_wire : Wire := {|
  parse_wrapper := demo_parse_wrapper;
  write_wrapper := fun w => Some (demo_write_wrapper w);
  parse_media_type := head;
  parse_meeting := demo_parse_meeting;
  write_meeting := fun m => Some (demo_write_meeting m);
|}.

Lemma demo_laws : WireLaws (wire := demo_wire).
Proof.
  split.
  - intros [t u d s] b [= <-]. cbn [parse_wrapper demo_wire demo_parse_wrapper demo_write_wrapper
      packet_type pw_session_id pw_user_id pw_data].
    by rewrite read_prefixed_app.
  - intros [e r s m c n t k i d] b [= <-].
    cbn [parse_meeting demo_wire demo_parse_meeting demo_write_meeting event_type mt_start_time_ms
      mt_participant_count mt_session_id mt_room_id mt_message mt_creator_id mt_target_user_id
      mt_room_token mt_display_name].
    do 5 (rewrite read_prefixed_app; cbn [mbind option_bind]).
    rewrite <- (app_nil_r (prefixed d)), read_prefixed_app. cbn [mbind option_bind].
    by rewrite !of_as_bytes.
Qed.
