(* ===== verification/SessionLogic.v ===== *)
(** * Session logic of the server (actix-api/src/actors/packet_handler.rs and
      session_logic.rs)

    Packet classification, the limiter of keyframe requests, the congestion
    tracker and the transport-independent part of a chat session. What a handler
    asks of its surroundings (metrics, the health processor, NATS) is the list of
    effects it returns. *)
From S2P Require Import Prelude Protocol.

(** ** constants.rs *)

Definition CONGESTION_DROP_THRESHOLD : Z := 5.
Definition CONGESTION_WINDOW : Z := from_millis 1000.
Definition CONGESTION_NOTIFY_MIN_INTERVAL : Z := from_millis 1000.
Definition KEYFRAME_REQUEST_MAX_PER_SEC : Z := 2.
Definition KEYFRAME_REQUEST_WINDOW_MS : Z := 1000.

(** ** packet_handler.rs *)

Inductive PacketKind : Type := PkRtt | PkHealth | PkData | PkDropped | PkKeyframeRequest.

Definition classify_packet {wire : Wire} (data : bytes) : PacketKind :=
  match parse_wrapper data with
  | None => PkData
  | Some packet_wrapper =>
      if packet_type packet_wrapper =? CONGESTION then PkDropped
      else if packet_type packet_wrapper =? MEDIA then
        match parse_media_type (pw_data packet_wrapper) with
        | Some media_type =>
            if media_type =? RTT then PkRtt
            else if media_type =? KEYFRAME_REQUEST then PkKeyframeRequest
            else PkData
        | None => PkData
        end
      else if packet_type packet_wrapper =? HEALTH then PkHealth
      else PkData
  end.

Record KeyframeRequestLimiter : Type := mkLimiter {
  kl_count : Z;
  kl_window_start : Z;
}.

#[export] Instance eta_Limiter : Eta KeyframeRequestLimiter := fun r =>
  mkLimiter (kl_count r) (kl_window_start r).

Definition limiter_new (now : Z) : KeyframeRequestLimiter := mkLimiter 0 now.

Definition allow (now : Z) (l0 : KeyframeRequestLimiter) : KeyframeRequestLimiter * bool :=
  let window := from_millis KEYFRAME_REQUEST_WINDOW_MS in
  let l := if window <? duration_since now (kl_window_start l0)
           then l0 <| kl_count := 0 |> <| kl_window_start := now |> else l0 in
  if kl_count l <? KEYFRAME_REQUEST_MAX_PER_SEC
  then (l <| kl_count := kl_count l +u32 1 |>, true)
  else (l, false).

(** ** session_logic.rs: congestion *)

Record SenderDropState : Type := mkDropState {
  drop_count : Z;
  window_start : Z;
  last_notify : option Z;
}.

#[export] Instance eta_SenderDropState : Eta SenderDropState := fun r =>
  mkDropState (drop_count r) (window_start r) (last_notify r).

Record CongestionTracker : Type := mkTracker {
  senders : gmap Z SenderDropState;
  total_drops : Z;
}.

#[export] Instance eta_CongestionTracker : Eta CongestionTracker := fun r =>
  mkTracker (senders r) (total_drops r).

Definition CLEANUP_INTERVAL : Z := 100.

Definition tracker_new : CongestionTracker := mkTracker ∅ 0.

(** The amortized cleanup at the start of [record_drop]. *)
Definition cleanup (now : Z) (t0 : CongestionTracker) : CongestionTracker :=
  let t := t0 <| total_drops := total_drops t0 +u32 1 |> in
  if total_drops t mod CLEANUP_INTERVAL =? 0 then
    t <| senders := filter (fun kv => duration_since now (window_start kv.2) <= CONGESTION_WINDOW * 10)
                      (senders t) |>
  else t.

(** The update of one sender's entry, and whether a notification is due. *)
Definition drop_step (now : Z) (st0 : SenderDropState) : SenderDropState * bool :=
  let st1 := if CONGESTION_WINDOW <? duration_since now (window_start st0)
             then st0 <| drop_count := 0 |> <| window_start := now |> else st0 in
  let st := st1 <| drop_count := drop_count st1 +u32 1 |> in
  if CONGESTION_DROP_THRESHOLD <=? drop_count st then
    match last_notify st with
    | Some last =>
        if duration_since now last <? CONGESTION_NOTIFY_MIN_INTERVAL then (st, false)
        else (mkDropState 0 now (Some now), true)
    | None => (mkDropState 0 now (Some now), true)
    end
  else (st, false).

Definition record_drop (now sender_session_id : Z) (t0 : CongestionTracker)
    : CongestionTracker * option Z :=
  let t := cleanup now t0 in
  let st := default (mkDropState 0 now None) (senders t !! sender_session_id) in
  let '(st', notify) := drop_step now st in
  (t <| senders := <[sender_session_id := st']> (senders t) |>,
   if notify then Some sender_session_id else None).

(** ** session_logic.rs: the session *)

Inductive ConnectionState : Type := Testing | Active.

#[export] Instance ConnectionState_eq_dec : EqDecision ConnectionState.
Proof. solve_decision. Defined.

Inductive InboundAction : Type :=
| Echo (data : bytes)
| Forward (data : bytes)
| Processed
| KeepAlive.

(** What a session asks of the diagnostics, the health processor and NATS. *)
Inductive session_effect : Type :=
| TrackReceived (session n : Z)
| TrackSent (session n : Z)
| ProcessHealth (data : bytes)
| PublishNats (subject : string) (payload : bytes).

Record SessionLogic : Type := mkSessionLogic {
  sl_id : Z;
  sl_room : string;
  sl_user_id : string;
  sl_display_name : string;
  sl_observer : bool;
  congestion_tracker : CongestionTracker;
  keyframe_limiter : KeyframeRequestLimiter;
}.

#[export] Instance eta_SessionLogic : Eta SessionLogic := fun r =>
  mkSessionLogic (sl_id r) (sl_room r) (sl_user_id r) (sl_display_name r) (sl_observer r)
    (congestion_tracker r) (keyframe_limiter r).

(** The identifier is the low half of a fresh UUID. *)
Definition session_new (uuid : Z) (room user_id display_name : string) (observer : bool) (now : Z)
    : SessionLogic :=
  mkSessionLogic (Z.land uuid (2 ^ 64 - 1)) room user_id display_name observer tracker_new
    (limiter_new now).

Definition should_activate_on_action (action : InboundAction) : bool :=
  match action with Echo _ => false | _ => true end.

(** [handle_join_room_result]: a failed join, or a failed mailbox, stops the session. *)
Definition handle_join_room_result (r : result (result unit string) unit) : bool :=
  match r with
  | Ok (Ok _) => false
  | Ok (Err _) => true
  | Err _ => true
  end.

Section Session.
Context {wire : Wire}.

Definition build_session_assigned (s : SessionLogic) : bytes :=
  build_session_assigned_packet (sl_id s).

Definition build_meeting_started (start_ms : Z) (creator : string) (s : SessionLogic) : bytes :=
  build_meeting_started_packet (sl_room s) start_ms creator.

Definition build_meeting_ended (reason : string) (s : SessionLogic) : bytes :=
  build_meeting_ended_packet (sl_room s) reason.

Definition handle_inbound (now : Z) (data : bytes) (s : SessionLogic)
    : SessionLogic * InboundAction * list session_effect :=
  let received := TrackReceived (sl_id s) (Z.of_nat (length data)) in
  match classify_packet data with
  | PkDropped => (s, Processed, [received])
  | PkRtt => (s, Echo data, [received; TrackSent (sl_id s) (Z.of_nat (length data))])
  | PkHealth => (s, Processed, [received; ProcessHealth data])
  | PkKeyframeRequest =>
      if sl_observer s then (s, Processed, [received])
      else
        let '(l, ok) := allow now (keyframe_limiter s) in
        let s' := s <| keyframe_limiter := l |> in
        if ok then (s', Forward data, [received]) else (s', Processed, [received])
  | PkData =>
      if sl_observer s then (s, Processed, [received]) else (s, Forward data, [received])
  end.

Definition handle_outbound (msg : bytes) (s : SessionLogic) : bytes * list session_effect :=
  (msg, [TrackSent (sl_id s) (Z.of_nat (length msg))]).

Definition congestion_packet (user_id : string) (sender_sid : Z) : PacketWrapper :=
  wrapper_default <| packet_type := CONGESTION |> <| pw_user_id := as_bytes user_id |>
                  <| pw_session_id := sender_sid |>.

Definition on_outbound_drop (now sender_session_id : Z) (s : SessionLogic)
    : SessionLogic * list session_effect :=
  let '(t, notify) := record_drop now sender_session_id (congestion_tracker s) in
  let s' := s <| congestion_tracker := t |> in
  match notify with
  | None => (s', [])
  | Some sender_sid =>
      match write_wrapper (congestion_packet (sl_user_id s) sender_sid) with
      | Some b =>
          (s', [PublishNats ("room." +:+ replace_spaces (sl_room s) +:+ "." +:+ show_u64 sender_sid) b])
      | None => (s', [])
      end
  end.

End Session.
