(* ===== verification/SessionLogicProps.v ===== *)
(** * Properties of the session logic

    Rates and spacing over sequences of timed events, and what may leave a
    session. *)
From S2P Require Import Prelude Protocol DemoWire SessionLogic.

(** ** The keyframe limiter *)

Definition WINDOW : Z := from_millis KEYFRAME_REQUEST_WINDOW_MS.

Definition limiter_ok (l : KeyframeRequestLimiter) : Prop :=
  0 <= kl_count l <= KEYFRAME_REQUEST_MAX_PER_SEC.

(** How many more requests can pass between [a] and [a + WINDOW]. *)
Definition budget (a : Z) (l : KeyframeRequestLimiter) : Z :=
  if a <=? kl_window_start l then KEYFRAME_REQUEST_MAX_PER_SEC - kl_count l
  else 2 * KEYFRAME_REQUEST_MAX_PER_SEC - kl_count l.

Lemma allow_ok (now : Z) (l : KeyframeRequestLimiter) :
  limiter_ok l -> limiter_ok (allow now l).1.
Proof.
  unfold limiter_ok, allow, KEYFRAME_REQUEST_MAX_PER_SEC. intros H.
  assert (forall k, 0 <= k < 2 -> 0 <= k +u32 1 <= 2) as Hk.
  { intros k Hk. rewrite wrap_u_small; [lia |]. unfold u_in. lia. }
  destruct (_ <? duration_since _ _); simpl; [by vm_compute; split; congruence |].
  destruct (Z.ltb_spec (kl_count l) 2); simpl; [apply Hk |]; lia.
Qed.

Lemma allow_budget (a now : Z) (l : KeyframeRequestLimiter) :
  limiter_ok l -> a <= now <= a + WINDOW ->
  budget a (allow now l).1 + (if (allow now l).2 then 1 else 0) <= budget a l.
Proof.
  unfold limiter_ok, KEYFRAME_REQUEST_MAX_PER_SEC. intros H Hn. unfold allow, duration_since. fold WINDOW.
  assert (forall k, 0 <= k < 2 -> k +u32 1 = k + 1) as Hk.
  { intros k Hk. apply wrap_u_small. unfold u_in. lia. }
  unfold budget, KEYFRAME_REQUEST_MAX_PER_SEC.
  destruct (Z.ltb_spec WINDOW (Z.max 0 (now - kl_window_start l))) as [Hr|Hr]; simpl.
  - rewrite Hk by lia. assert (0 < WINDOW) by (vm_compute; done).
    destruct (Z.leb_spec a now), (Z.leb_spec a (kl_window_start l)); lia.
  - destruct (Z.ltb_spec (kl_count l) 2); simpl; [rewrite Hk by lia |];
      destruct (Z.leb_spec a (kl_window_start l)); lia.
Qed.

(** ** Sequences of inbound packets *)

Section Inbound.
Context {wire : Wire}.

Fixpoint inbound_run (s : SessionLogic) (events : list (Z * bytes))
    : SessionLogic * list InboundAction :=
  match events with
  | [] => (s, [])
  | (now, data) :: events' =>
      let '(s1, act, _) := handle_inbound now data s in
      let '(s2, acts) := inbound_run s1 events' in
      (s2, act :: acts)
  end.

(** The keyframe requests among the events that were forwarded. *)
Definition is_forward (a : InboundAction) : bool :=
  match a with Forward _ => true | _ => false end.

Definition keyframes_forwarded (events : list (Z * bytes)) (acts : list InboundAction) : Z :=
  sumZ (zip_with (fun e a => match classify_packet e.2 with
                             | PkKeyframeRequest => if is_forward a then 1 else 0
                             | _ => 0
                             end) events acts).

Lemma handle_inbound_limiter (now : Z) (data : bytes) (s : SessionLogic) :
  limiter_ok (keyframe_limiter s) ->
  limiter_ok (keyframe_limiter (handle_inbound now data s).1.1).
Proof.
  intros H. unfold handle_inbound. destruct (classify_packet data); try done.
  - by destruct (sl_observer s).
  - destruct (sl_observer s); [done |]. pose proof (allow_ok now _ H) as Ho.
    destruct (allow now (keyframe_limiter s)) as [l []]; exact Ho.
Qed.

Lemma inbound_run_limiter (s : SessionLogic) (events : list (Z * bytes)) :
  limiter_ok (keyframe_limiter s) -> limiter_ok (keyframe_limiter (inbound_run s events).1).
Proof.
  revert s. induction events as [|[now data] events IH]; intros s H; simpl; [done |].
  pose proof (handle_inbound_limiter now data s H) as H1.
  destruct (handle_inbound now data s) as [[s1 act] eff]. simpl in H1.
  specialize (IH s1 H1). by destruct (inbound_run s1 events).
Qed.

Lemma inbound_run_budget (a : Z) (s : SessionLogic) (events : list (Z * bytes)) :
  limiter_ok (keyframe_limiter s) ->
  Forall (fun e => a <= e.1 <= a + WINDOW) events ->
  keyframes_forwarded events (inbound_run s events).2 <= budget a (keyframe_limiter s).
Proof.
  intros Hs He. revert s Hs. induction He as [|[now data] events Hn _ IH]; intros s Hs; simpl.
  - unfold keyframes_forwarded, budget, limiter_ok, KEYFRAME_REQUEST_MAX_PER_SEC in *. simpl.
    destruct (_ <=? _); lia.
  - pose proof (handle_inbound_limiter now data s Hs) as H1.
    assert ((match classify_packet data with
             | PkKeyframeRequest => if is_forward (handle_inbound now data s).1.2 then 1 else 0
             | _ => 0 end) + budget a (keyframe_limiter (handle_inbound now data s).1.1)
            <= budget a (keyframe_limiter s)) as Hb.
    { unfold handle_inbound. destruct (classify_packet data) eqn:Ek; try (simpl; lia).
      - destruct (sl_observer s); simpl; lia.
      - destruct (sl_observer s); [simpl; lia |].
        pose proof (allow_budget a now (keyframe_limiter s) Hs Hn).
        destruct (allow now (keyframe_limiter s)) as [l []]; simpl in *; lia. }
    destruct (handle_inbound now data s) as [[s1 act] eff]. simpl in H1, Hb.
    specialize (IH s1 H1). destruct (inbound_run s1 events) as [s2 acts]. simpl in *.
    unfold keyframes_forwarded in *. simpl in *. lia.
Qed.

(** C6: a session forwards at most twice the limit of keyframe requests in any
    interval of one window. Whatever packets came before and whatever the packets
    of the interval are, at most four keyframe requests leave the session within
    any 1000 ms. *)
Theorem keyframe_forward_rate (uuid : Z) (room user name : string) (obs : bool) (t0 a : Z)
    (before events : list (Z * bytes)) :
  Forall (fun e => a <= e.1 <= a + WINDOW) events ->
  let s := (inbound_run (session_new uuid room user name obs t0) before).1 in
  keyframes_forwarded events (inbound_run s events).2 <= 2 * KEYFRAME_REQUEST_MAX_PER_SEC.
Proof.
  intros He s. assert (limiter_ok (keyframe_limiter s)) as Hs.
  { apply inbound_run_limiter. vm_compute. split; congruence. }
  pose proof (inbound_run_budget a s events Hs He) as Hb.
  unfold budget, limiter_ok, KEYFRAME_REQUEST_MAX_PER_SEC in *. destruct (_ <=? _); lia.
Qed.

(** ** What leaves a session *)

(** A packet a session may pass on: sent by a participant, and not a congestion
    signal, which only the server originates. *)
Definition forwardable (s : SessionLogic) (data : bytes) : Prop :=
  sl_observer s = false /\
  forall w, parse_wrapper data = Some w -> packet_type w <> CONGESTION.

Lemma handle_inbound_forward (now : Z) (data : bytes) (s : SessionLogic) :
  let '(s', act, _) := handle_inbound now data s in
  sl_observer s' = sl_observer s /\
  match act with
  | Forward d => d = data /\ forwardable s data
  | Echo d => d = data
  | _ => True
  end.
Proof.
  unfold handle_inbound, forwardable.
  assert (classify_packet data <> PkDropped ->
    forall w, parse_wrapper data = Some w -> packet_type w <> CONGESTION) as Hc.
  { intros Hn w Hw Ht. apply Hn. unfold classify_packet. by rewrite Hw, Ht. }
  destruct (classify_packet data); try done.
  - destruct (sl_observer s) eqn:E; [by rewrite E |]. rewrite E. split; [done |]. split; [done |].
    split; [done |]. by apply Hc.
  - destruct (sl_observer s) eqn:E; [by rewrite E |].
    destruct (allow now (keyframe_limiter s)) as [l []]; simpl; rewrite E; [|done].
    split; [done |]. split; [done |]. split; [done |]. by apply Hc.
Qed.

(** C5: along any sequence of packets, a session forwards only what it received,
    unchanged, never a congestion signal, and nothing at all when it is an
    observer; what it echoes is what it received. *)
Theorem forwarded_is_legitimate (s : SessionLogic) (events : list (Z * bytes)) :
  Forall2 (fun e act => match act with
                        | Forward d => d = e.2 /\ forwardable s d
                        | Echo d => d = e.2
                        | _ => True
                        end) events (inbound_run s events).2.
Proof.
  assert (forall s', sl_observer s' = sl_observer s ->
    Forall2 (fun e act => match act with
                        | Forward d => d = e.2 /\ forwardable s d
                        | Echo d => d = e.2
                        | _ => True
                        end) events (inbound_run s' events).2) as H; [|by apply H].
  induction events as [|[now data] events IH]; intros s' Hs; simpl; [constructor |].
  pose proof (handle_inbound_forward now data s') as Hi.
  destruct (handle_inbound now data s') as [[s1 act] eff]. destruct Hi as [Ho Hact].
  specialize (IH s1 ltac:(congruence)). destruct (inbound_run s1 events) as [s2 acts].
  constructor; [|exact IH]. unfold forwardable in *. destruct act; simpl; try done.
  destruct Hact as [-> [? ?]]. rewrite <- Hs. done.
Qed.

(** Only the server signals congestion. The packet a session publishes when
    it drops a sender's traffic is addressed to that sender and carries the
    receiver's identity, and the same bytes coming from a client are dropped. *)
Theorem congestion_server_only {laws : WireLaws} (now sender : Z) (s s' : SessionLogic)
    (subject : string) (payload : bytes) :
  on_outbound_drop now sender s = (s', [PublishNats subject payload]) ->
  parse_wrapper payload = Some (congestion_packet (sl_user_id s) sender) /\
  subject = ("room." +:+ replace_spaces (sl_room s) +:+ "." +:+ show_u64 sender) /\
  forall t r, handle_inbound t payload r =
    (r, Processed, [TrackReceived (sl_id r) (Z.of_nat (length payload))]).
Proof.
  unfold on_outbound_drop, record_drop.
  destruct (drop_step now _) as [st []]; [|intros; by simplify_eq].
  destruct (write_wrapper _) as [b|] eqn:Ew; [|intros; by simplify_eq].
  intros H. simplify_eq. apply parse_write_wrapper in Ew as Hp.
  split; [done |]. split; [done |]. intros t r. unfold handle_inbound, classify_packet.
  by rewrite Hp.
Qed.
End Inbound.

(** ** The congestion tracker *)

(** A run of drops at given times, with the notifications it gives. *)
Fixpoint drops_run (t : CongestionTracker) (events : list (Z * Z))
    : CongestionTracker * list (Z * Z) :=
  match events with
  | [] => (t, [])
  | (now, sender) :: events' =>
      let '(t1, r) := record_drop now sender t in
      let '(t2, out) := drops_run t1 events' in
      (t2, match r with Some s => (now, s) :: out | None => out end)
  end.

(** Times never go back: the clock is monotonic. *)
Fixpoint monotone_from (t : Z) (events : list (Z * Z)) : Prop :=
  match events with
  | [] => True
  | (now, _) :: events' => t <= now /\ monotone_from now events'
  end.

(** Notifications to one sender, after a last one at [last], are spaced. *)
Fixpoint spaced (sender : Z) (last : option Z) (out : list (Z * Z)) : Prop :=
  match out with
  | [] => True
  | (t, s) :: out' =>
      if bool_decide (s = sender) then
        match last with Some l => l + CONGESTION_NOTIFY_MIN_INTERVAL <= t | None => True end /\
        spaced sender (Some t) out'
      else spaced sender last out'
  end.

(** The tracker remembers the last notification of a sender until it is old. *)
Definition remembers (sender : Z) (last : option Z) (now : Z) (t : CongestionTracker) : Prop :=
  match last with
  | None => True
  | Some l => l + CONGESTION_NOTIFY_MIN_INTERVAL <= now \/
              exists st, senders t !! sender = Some st /\ last_notify st = Some l /\
                         l <= window_start st
  end.

Lemma cleanup_remembers (sender : Z) (last : option Z) (old now : Z) (t : CongestionTracker) :
  old <= now -> remembers sender last old t -> remembers sender last now (cleanup now t).
Proof.
  intros Hn. unfold remembers. destruct last as [l|]; [|done].
  intros [H|(st & E & Hl & Hw)]; [left; lia |]. unfold cleanup.
  destruct (_ =? 0); simpl; [|right; eauto].
  destruct (decide (duration_since now (window_start st) <= CONGESTION_WINDOW * 10)) as [Hd|Hd].
  - right. exists st. split; [|done]. by apply map_lookup_filter_Some.
  - left. unfold duration_since, CONGESTION_WINDOW, CONGESTION_NOTIFY_MIN_INTERVAL, from_millis,
      NS_PER_MS in *. lia.
Qed.

Lemma drop_step_keeps (now l : Z) (st : SenderDropState) :
  last_notify st = Some l -> l <= window_start st ->
  let '(st', notify) := drop_step now st in
  if notify then now - l >= CONGESTION_NOTIFY_MIN_INTERVAL \/ now < l
  else last_notify st' = Some l /\ (l <= window_start st' \/ now < l).
Proof.
  intros El Hw. unfold drop_step.
  set (st1 := if CONGESTION_WINDOW <? _ then _ else st).
  assert (last_notify st1 = Some l) as E1 by (unfold st1; by destruct (_ <? _)).
  assert (l <= window_start st1 \/ now < l) as W1.
  { unfold st1. destruct (_ <? _); simpl; lia. }
  destruct (_ <=? _); simpl; [|by rewrite E1]. rewrite E1.
  destruct (Z.ltb_spec (duration_since now l) CONGESTION_NOTIFY_MIN_INTERVAL) as [Hd|Hd]; simpl; [done |].
  unfold duration_since in Hd. lia.
Qed.

Lemma record_drop_remembers (sender : Z) (last : option Z) (old now s : Z) (t : CongestionTracker) :
  old <= now -> match last with Some l => l <= old | None => True end ->
  remembers sender last old t ->
  let '(t', r) := record_drop now s t in
  match r with
  | Some s' => s' = s /\
      (s = sender -> match last with Some l => l + CONGESTION_NOTIFY_MIN_INTERVAL <= now | None => True end) /\
      remembers sender (if bool_decide (s = sender) then Some now else last) now t'
  | None => remembers sender last now t'
  end.
Proof.
  intros Hn Hl Hr. apply (cleanup_remembers _ _ _ now) in Hr; [|done]. unfold record_drop.
  set (t1 := cleanup now t) in *. set (st := default _ (senders t1 !! s)).
  assert (forall st', s = sender -> last_notify st' = Some now -> window_start st' = now ->
    remembers sender (Some now) now (t1 <| senders := <[s := st']> (senders t1) |>)) as Hnew.
  { intros st' -> E1 E2. right. exists st'. simpl. rewrite lookup_insert_eq. split; [done |].
    split; [done | lia]. }
  assert (drop_step now st = (mkDropState 0 now (Some now), true) \/
          exists st', drop_step now st = (st', false)) as Hshape.
  { unfold drop_step. destruct (_ <=? _); [|eauto]. destruct (last_notify _); [|eauto].
    destruct (_ <? CONGESTION_NOTIFY_MIN_INTERVAL); eauto. }
  destruct (decide (s = sender)) as [->|Hs].
  - destruct last as [l|]; simpl in Hr.
    + destruct Hr as [Hr|(st0 & E0 & El & Hw)].
      * destruct Hshape as [-> | (st' & ->)]; [|by left].
        rewrite bool_decide_true by done. split; [done |]. split; [done |]. by apply Hnew.
      * assert (st = st0) as Est by (unfold st; by rewrite E0).
        pose proof (drop_step_keeps now l st0 El Hw) as Hk. rewrite <- Est in Hk.
        destruct Hshape as [E | (st' & E)]; rewrite E in *.
        -- rewrite bool_decide_true by done. split; [done |]. split; [lia |]. by apply Hnew.
        -- destruct Hk as [Hk1 Hk2]. right. exists st'. simpl. rewrite lookup_insert_eq.
           split; [done |]. split; [done | lia].
    + destruct Hshape as [-> | (st' & ->)]; [|done].
      rewrite bool_decide_true by done. split; [done |]. split; [done |]. by apply Hnew.
  - assert (forall st', remembers sender last now (t1 <| senders := <[s := st']> (senders t1) |>)) as Ho.
    { intros st'. unfold remembers in *. destruct last as [l|]; [|done].
      destruct Hr as [Hr|(st0 & E0 & Hr)]; [by left |]. right. exists st0. simpl.
      by rewrite lookup_insert_ne. }
    destruct Hshape as [-> | (st' & ->)]; [|apply Ho].
    rewrite bool_decide_false by done. split; [done |]. split; [done | apply Ho].
Qed.

(** Congestion signals are rate limited. In any sequence of drops on a
    monotonic clock, whatever the senders and however the stale entries are
    cleaned up, two notifications to the same sender are at least one second
    apart. *)
Theorem congestion_spacing (start : Z) (events : list (Z * Z)) (sender : Z) :
  monotone_from start events -> spaced sender None (drops_run tracker_new events).2.
Proof.
  assert (forall last old t, match last with Some l => l <= old | None => True end ->
    remembers sender last old t -> monotone_from old events ->
    spaced sender last (drops_run t events).2) as H.
  { induction events as [|[now s] events IH]; intros last old t Hl Hr Hm; simpl; [done |].
    destruct Hm as [Hn Hm].
    pose proof (record_drop_remembers sender last old now s t Hn Hl Hr) as H1.
    destruct (record_drop now s t) as [t1 [s'|]].
    - destruct H1 as (-> & Hsp & H1).
      specialize (IH (if bool_decide (s = sender) then Some now else last) now t1).
      destruct (drops_run t1 events) as [t2 out]. simpl in *.
      case_bool_decide.
      + split; [by apply Hsp |]. apply IH; [lia | done | done].
      + apply IH; [destruct last; [lia | done] | done | done].
    - specialize (IH last now t1). destruct (drops_run t1 events) as [t2 out].
      apply IH; [destruct last; [lia | done] | done | done]. }
  intros Hm. by apply (H None start).
Qed.

(** ** Notifications are earned *)

Definition count_for (sender : Z) (l : list (Z * Z)) : Z :=
  Z.of_nat (length (filter (fun e => e.2 = sender) l)).

Lemma count_for_single (sender t s : Z) :
  count_for sender [(t, s)] = if decide (s = sender) then 1 else 0.
Proof. unfold count_for. rewrite filter_cons. simpl. by destruct (decide (s = sender)). Qed.

(** The drops of a sender counted in its open window. *)
Definition open_drops (sender : Z) (t : CongestionTracker) : Z :=
  match senders t !! sender with Some st => drop_count st | None => 0 end.

Definition counts_nonneg (t : CongestionTracker) : Prop :=
  map_Forall (fun _ st => 0 <= drop_count st) (senders t).

Lemma wrap_u_le (w x : Z) : 0 <= w -> 0 <= x -> 0 <= wrap_u w x <= x.
Proof.
  intros Hw Hx. unfold wrap_u. assert (0 < 2 ^ w) by (apply Z.pow_pos_nonneg; lia).
  pose proof (Z.mod_pos_bound x (2 ^ w)). pose proof (Z.mod_le x (2 ^ w)). lia.
Qed.

Lemma drop_step_count (now : Z) (st : SenderDropState) :
  0 <= drop_count st ->
  let '(st', notify) := drop_step now st in
  0 <= drop_count st' /\
  drop_count st' + (if notify then CONGESTION_DROP_THRESHOLD else 0) <= drop_count st + 1.
Proof.
  intros H. unfold drop_step. set (st1 := if _ <? _ then _ else st).
  assert (0 <= drop_count st1 <= drop_count st) as H1 by (unfold st1; destruct (_ <? _); simpl; lia).
  clearbody st1. pose proof (wrap_u_le 32 (drop_count st1 + 1)). simpl.
  destruct (Z.leb_spec CONGESTION_DROP_THRESHOLD (drop_count st1 +u32 1)); simpl; [|lia].
  destruct (last_notify st1); [destruct (_ <? _)|]; simpl; lia.
Qed.

Lemma record_drop_count (now s sender : Z) (t : CongestionTracker) :
  counts_nonneg t ->
  let '(t', r) := record_drop now s t in
  counts_nonneg t' /\
  open_drops sender t' +
    CONGESTION_DROP_THRESHOLD * count_for sender (match r with Some x => [(now, x)] | None => [] end)
  <= open_drops sender t + count_for sender [(now, s)].
Proof.
  intros Hc. unfold record_drop.
  assert (counts_nonneg (cleanup now t) /\ open_drops sender (cleanup now t) <= open_drops sender t)
    as [Hc1 Ho1].
  { unfold cleanup. destruct (_ =? 0); [|done]. unfold counts_nonneg, open_drops. simpl. split.
    - intros k st E. apply map_lookup_filter_Some in E as [E _]. by apply (Hc k).
    - destruct (filter _ (senders t) !! sender) as [st|] eqn:E.
      + apply map_lookup_filter_Some in E as [-> _]. lia.
      + destruct (senders t !! sender) as [st|] eqn:E2; [|lia]. apply (Hc sender st E2). }
  set (t1 := cleanup now t) in *. set (st := default _ (senders t1 !! s)).
  assert (0 <= drop_count st) as Hst.
  { unfold st. destruct (senders t1 !! s) as [st0|] eqn:E; simpl; [by apply (Hc1 s) | lia]. }
  pose proof (drop_step_count now st Hst) as Hd. destruct (drop_step now st) as [st' notify].
  destruct Hd as [Hd1 Hd2]. split.
  - unfold counts_nonneg. simpl. by apply map_Forall_insert_2.
  - unfold open_drops at 1. simpl. destruct (decide (s = sender)) as [->|Hs].
    + rewrite lookup_insert_eq.
      assert (drop_count st = open_drops sender t1) as Est.
      { unfold st, open_drops. by destruct (senders t1 !! sender). }
      destruct notify; rewrite ?count_for_single, ?decide_True by done;
        change (count_for sender []) with 0; lia.
    + rewrite lookup_insert_ne by done.
      fold (open_drops sender t1). destruct notify; rewrite ?count_for_single, ?decide_False by done;
        change (count_for sender []) with 0; lia.
Qed.

(** A sender is only signalled for its own losses: in any sequence of drops,
    the notifications to a sender are at most one for every five of its dropped
    packets. *)
Theorem congestion_earned (events : list (Z * Z)) (sender : Z) :
  CONGESTION_DROP_THRESHOLD * count_for sender (drops_run tracker_new events).2
  <= count_for sender events.
Proof.
  assert (forall (x : Z * Z) l, count_for sender (x :: l) = count_for sender [x] + count_for sender l) as Hcons.
  { intros x l. unfold count_for. rewrite !filter_cons. destruct (decide _); simpl; lia. }
  assert (forall t, counts_nonneg t ->
    CONGESTION_DROP_THRESHOLD * count_for sender (drops_run t events).2
    <= open_drops sender t + count_for sender events) as H.
  { induction events as [|[now s] events IH]; intros t Hc.
    - unfold open_drops. simpl. destruct (senders t !! sender) as [st|] eqn:E; [|done].
      pose proof (Hc sender st E). unfold count_for. simpl in *. lia.
    - pose proof (record_drop_count now s sender t Hc) as H1. simpl.
      destruct (record_drop now s t) as [t1 r]. destruct H1 as [Hc1 H1].
      specialize (IH t1 Hc1). destruct (drops_run t1 events) as [t2 out]. simpl in IH.
      rewrite (Hcons (now, s)). destruct r as [x|]; simpl; [rewrite (Hcons (now, x)) |].
      + lia.
      + change (count_for sender []) with 0 in H1. lia. }
  specialize (H tracker_new). unfold open_drops in H. simpl in H. apply H. apply map_Forall_empty.
Qed.

(** ** Witnesses *)

Definition demo_session : SessionLogic := session_new 77 "standup" "bob" "Bob" false 0.

(** A keyframe request as the demonstration codec writes it. *)
Definition keyframe_packet : bytes := demo_write_wrapper (mkPacketWrapper MEDIA [] [KEYFRAME_REQUEST] 0).

(** Two requests at the end of one window and two at the start of the next. *)
Definition burst : list (Z * bytes) :=
  (fun ms => (from_millis ms, keyframe_packet)) <$> [900; 950; 1001; 1050; 1100].

Lemma keyframe_rate_witness :
  keyframes_forwarded (wire := demo_wire) burst (inbound_run (wire := demo_wire) demo_session burst).2
    <= 2 * KEYFRAME_REQUEST_MAX_PER_SEC.
Proof.
  apply (keyframe_forward_rate (wire := demo_wire) 77 "standup" "bob" "Bob" false 0 (from_millis 900) []).
  repeat constructor; vm_compute; congruence.
Defined.

(** The window of the keyframe limiter is fixed, not sliding: four requests
    pass within 150 ms, twice the limit of a window, when they straddle the end of
    a window. *)
Theorem limiter_burst_of_four :
  keyframes_forwarded (wire := demo_wire) burst (inbound_run (wire := demo_wire) demo_session burst).2 = 4 /\
  Forall (fun e => from_millis 900 <= e.1 <= from_millis 900 + WINDOW) burst.
Proof. split; [vm_compute; reflexivity | repeat constructor; vm_compute; congruence]. Qed.

Definition five_drops : list (Z * Z) := (fun ms => (from_millis ms, 9)) <$> [1; 2; 3; 4; 5].

Lemma congestion_spacing_witness :
  spaced 9 None (drops_run tracker_new five_drops).2 /\
  (drops_run tracker_new five_drops).2 = [(from_millis 5, 9)].
Proof.
  split; [|vm_compute; reflexivity].
  apply (congestion_spacing 0). vm_compute. repeat split; congruence.
Defined.

(** The session after four drops, one below the threshold. *)
Definition strained_session : SessionLogic :=
  demo_session <| congestion_tracker :=
    (drops_run tracker_new ((fun ms => (from_millis ms, 9)) <$> [1; 2; 3; 4])).1 |>.

Lemma congestion_server_only_witness :
  exists payload, (on_outbound_drop (wire := demo_wire) (from_millis 5) 9 strained_session).2 =
    [PublishNats "room.standup.9" payload] /\
  parse_wrapper (Wire := demo_wire) payload = Some (congestion_packet "bob" 9).
Proof.
  eexists. split; [vm_compute; reflexivity |].
  apply (congestion_server_only (wire := demo_wire) (laws := demo_laws) (from_millis 5) 9
    strained_session (on_outbound_drop (wire := demo_wire) (from_millis 5) 9 strained_session).1
    "room.standup.9").
  vm_compute. reflexivity.
Defined.
