(* ===== verification/ChatServer.v ===== *)
(** * The room server (actix-api/src/actors/chat_server.rs, messages/)

    The actor that routes packets between the sessions of a room and announces
    joins and departures. One definition per message handler: it takes the
    message, returns the new state and the effects it asks for. Tasks the code
    spawns appear as the effects they perform, in program order. A [SpawnHandle]
    is a number given by the actor context, the argument [handle]; the iteration
    order of the hash map of rooms is the argument [iter]; the wall clock is
    [now_ms]. A subscription task is identified by its session, so the map of
    tasks is the set of its keys. *)
From S2P Require Import Prelude Protocol SessionLogic.

(** ** Messages *)

Record JoinRoom : Type := mkJoinRoom {
  jr_session : Z; jr_room : string; jr_user_id : string; jr_display_name : string;
  jr_observer : bool;
}.

Record Disconnect : Type := mkDisconnect {
  dc_session : Z; dc_room : string; dc_user_id : string; dc_display_name : string;
  dc_observer : bool;
}.

Record ClientMessage : Type := mkClientMessage {
  cm_session : Z; cm_user : string; cm_room : string; cm_msg : bytes;
}.

Record ExecutePendingDeparture : Type := mkExecute {
  ex_session : Z; ex_room : string; ex_user_id : string; ex_display_name : string;
}.

(** session_logic.rs builds these messages for its session. *)
Definition create_join_room_message (s : SessionLogic) : JoinRoom :=
  mkJoinRoom (sl_id s) (sl_room s) (sl_user_id s) (sl_display_name s) (sl_observer s).

Definition create_client_message (data : bytes) (s : SessionLogic) : ClientMessage :=
  mkClientMessage (sl_id s) (sl_user_id s) (sl_room s) data.

(** [on_stopping] sends this message. *)
Definition stopping_message (s : SessionLogic) : Disconnect :=
  mkDisconnect (sl_id s) (sl_room s) (sl_user_id s) (sl_display_name s) (sl_observer s).

(** ** State *)

Record PendingDepartureState : Type := mkPending {
  spawn_handle : Z;
  old_session : Z;
  was_active : bool;
}.

(** A session in a room, with its user id and display name. *)
Definition member : Type := Z * string * string.

Record ChatServer : Type := mkChatServer {
  sessions : gmap Z Z;
  active_subs : gset Z;
  connection_states : gmap Z ConnectionState;
  room_members : gmap string (list member);
  pending_departures : gmap (string * string) PendingDepartureState;
  suppress_join_broadcast : gset Z;
}.

#[export] Instance eta_ChatServer : Eta ChatServer := fun r =>
  mkChatServer (sessions r) (active_subs r) (connection_states r) (room_members r)
    (pending_departures r) (suppress_join_broadcast r).

Definition server_new : ChatServer := mkChatServer ∅ ∅ ∅ ∅ ∅ ∅.

Definition RECONNECT_GRACE_PERIOD : Z := from_secs 2.

Inductive server_effect : Type :=
| Publish (subject : string) (payload : bytes)
| AbortTask (session : Z)
| CancelTimer (handle : Z)
| NotifyLater (handle : Z) (msg : ExecutePendingDeparture) (delay : Z)
| TrySend (recipient session : Z) (payload : bytes)
| QueueSubscribe (session : Z) (subject queue : string).

Definition members_of (room : string) (st : ChatServer) : list member :=
  default [] (room_members st !! room).

(** [members.retain(|(sid, _, _)| sid != session)]. *)
Definition retain_others (session : Z) (members : list member) : list member :=
  filter (fun m => m.1.1 <> session) members.

(** Removing a session from a room, and the room when it becomes empty. *)
Definition remove_member (room : string) (session : Z) (st : ChatServer) : ChatServer :=
  match room_members st !! room with
  | Some members =>
      let rest := retain_others session members in
      st <| room_members := if bool_decide (rest = []) then delete room (room_members st)
                            else <[room := rest]> (room_members st) |>
  | None => st
  end.

(** [if let Some(task) = self.active_subs.remove(session) { task.abort() }]. *)
Definition stop_task (session : Z) (st : ChatServer) : ChatServer * list server_effect :=
  if bool_decide (session ∈ active_subs st)
  then (st <| active_subs := active_subs st ∖ {[session]} |>, [AbortTask session])
  else (st, []).

Section Server.
Context {wire : Wire}.
Context (iter : gmap string (list member) -> list (string * list member)).

(** The task [leave_rooms] spawns for a participant that leaves. *)
Definition announce_end (room user_id display_name : string) (session : Z) : list server_effect :=
  match end_session room user_id with
  | Ok HostEndedMeeting =>
      [Publish (system_subject room)
         (build_meeting_ended_packet room "The host has ended the meeting")]
  | Ok LastParticipantLeft => []
  | Ok (MeetingContinues _) =>
      [Publish (system_subject room) (build_peer_left_packet room user_id session display_name)]
  | Err _ => []
  end.

Definition leave_rooms (session : Z) (room user_id display_name : option string) (observer : bool)
    (st : ChatServer) : ChatServer * list server_effect :=
  let '(st1, abort) := stop_task session st in
  let st2 := match room with Some room_id => remove_member room_id session st1 | None => st1 end in
  match room, user_id with
  | Some room_id, Some uid =>
      if observer then (st2, abort)
      else
        match connection_states st2 !! session with
        | Some Testing => (st2, abort)
        | _ => (st2, abort ++ announce_end room_id uid (default uid display_name) session)
        end
  | _, _ => (st2, abort)
  end.

Definition handle_connect (id addr : Z) (st : ChatServer) : ChatServer :=
  st <| sessions := <[id := addr]> (sessions st) |>
     <| connection_states := <[id := Testing]> (connection_states st) |>.

(** Dropping the per-session state when the transport is gone. *)
Definition forget_session (session : Z) (st : ChatServer) : ChatServer :=
  st <| sessions := delete session (sessions st) |>
     <| connection_states := delete session (connection_states st) |>
     <| suppress_join_broadcast := suppress_join_broadcast st ∖ {[session]} |>.

Definition is_active (session : Z) (st : ChatServer) : bool :=
  bool_decide (connection_states st !! session = Some Active).

Definition handle_disconnect (msg : Disconnect) (handle : Z) (st : ChatServer)
    : ChatServer * list server_effect :=
  let session := dc_session msg in
  let active := is_active session st in
  let st1 := forget_session session st in
  if dc_observer msg then
    leave_rooms session (Some (dc_room msg)) (Some (dc_user_id msg)) (Some (dc_display_name msg))
      true st1
  else
    let '(st2, abort) := stop_task session st1 in
    let key := (dc_room msg, dc_user_id msg) in
    let cancel := match pending_departures st2 !! key with
                  | Some old => [CancelTimer (spawn_handle old)]
                  | None => []
                  end in
    (st2 <| pending_departures :=
              <[key := mkPending handle session active]> (delete key (pending_departures st2)) |>,
     abort ++ cancel ++
     [NotifyLater handle
        (mkExecute session (dc_room msg) (dc_user_id msg) (dc_display_name msg))
        RECONNECT_GRACE_PERIOD]).

Definition handle_leave (session : Z) (room user_id : string) (st : ChatServer)
    : ChatServer * list server_effect :=
  leave_rooms session (Some room) (Some user_id) None false
    (st <| pending_departures := delete (room, user_id) (pending_departures st) |>).

(** The nested search for the session's room, user and display name. *)
Fixpoint find_in_members (session : Z) (members : list member) : option (string * string) :=
  match members with
  | [] => None
  | (sid, uid, dname) :: rest =>
      if bool_decide (sid = session) then Some (uid, dname) else find_in_members session rest
  end.

Fixpoint find_session (session : Z) (rooms : list (string * list member))
    : option (string * string * string) :=
  match rooms with
  | [] => None
  | (room_id, members) :: rest =>
      match find_in_members session members with
      | Some (uid, dname) => Some (room_id, uid, dname)
      | None => find_session session rest
      end
  end.

Definition handle_activate (session : Z) (st : ChatServer) : ChatServer * list server_effect :=
  let was_testing := negb (is_active session st) in
  let st1 := st <| connection_states := <[session := Active]> (connection_states st) |> in
  let suppressed := bool_decide (session ∈ suppress_join_broadcast st1) in
  let st2 := st1 <| suppress_join_broadcast := suppress_join_broadcast st1 ∖ {[session]} |> in
  if was_testing && negb suppressed then
    match find_session session (iter (room_members st2)) with
    | Some (room_id, user_id, display_name) =>
        (st2, [Publish (system_subject room_id)
                 (build_peer_joined_packet room_id user_id session display_name)])
    | None => (st2, [])
    end
  else (st2, []).

Definition handle_execute (msg : ExecutePendingDeparture) (st : ChatServer)
    : ChatServer * list server_effect :=
  let key := (ex_room msg, ex_user_id msg) in
  match pending_departures st !! key with
  | None => (st, [])
  | Some pending =>
      let st1 := st <| pending_departures := delete key (pending_departures st) |> in
      if negb (bool_decide (old_session pending = ex_session msg)) then
        (st1 <| pending_departures := <[key := pending]> (pending_departures st1) |>, [])
      else if negb (was_active pending) then
        (remove_member (ex_room msg) (ex_session msg) st1, [])
      else
        leave_rooms (ex_session msg) (Some (ex_room msg)) (Some (ex_user_id msg))
          (Some (ex_display_name msg)) false st1
  end.

(** The bytes a client message is published as: a wrapper without a session id
    gets the sender's. *)
Definition stamp_session (session : Z) (data : bytes) : bytes :=
  match parse_wrapper data with
  | Some w =>
      let w' := if pw_session_id w =? 0 then w <| pw_session_id := session |> else w in
      default data (write_wrapper w')
  | None => data
  end.

Definition handle_client_message (msg : ClientMessage) (st : ChatServer) : list server_effect :=
  match default Testing (connection_states st !! cm_session msg) with
  | Testing => []
  | Active => [Publish (session_subject (cm_room msg) (cm_session msg))
                 (stamp_session (cm_session msg) (cm_msg msg))]
  end.

(** [send_meeting_info]. *)
Definition send_meeting_info (room : string) (start_ms : Z) (creator : string)
    : list server_effect :=
  [Publish (system_subject room) (build_meeting_started_packet room start_ms creator)].

(** The part of [JoinRoom] that cancels a pending departure: the new state, the
    cancelled timer and whether this is a reconnection. *)
Definition cancel_departure (room user_id : string) (st : ChatServer)
    : ChatServer * list server_effect * bool :=
  match pending_departures st !! (room, user_id) with
  | Some pending =>
      let st1 := st <| pending_departures := delete (room, user_id) (pending_departures st) |> in
      let st2 := match room_members st1 !! room with
                 | Some members =>
                     st1 <| room_members :=
                              <[room := retain_others (old_session pending) members]> (room_members st1) |>
                 | None => st1
                 end in
      (st2, [CancelTimer (spawn_handle pending)], true)
  | None => (st, [], false)
  end.

(** The task [JoinRoom] spawns. *)
Definition join_task (now_ms : Z) (msg : JoinRoom) (recipient : Z) (existing : list member)
    (first : bool) : list server_effect :=
  let '(subject, queue) := build_subject_and_queue (jr_room msg) (show_u64 (jr_session msg)) in
  (if first then send_meeting_info (jr_room msg) now_ms (jr_user_id msg) else []) ++
  ((fun '(sid, uid, dname) =>
      TrySend recipient sid (build_peer_joined_packet (jr_room msg) uid sid dname)) <$> existing) ++
  [QueueSubscribe (jr_session msg) subject queue].

Definition handle_join (now_ms : Z) (msg : JoinRoom) (st : ChatServer)
    : ChatServer * list server_effect * result unit string :=
  if bool_decide (jr_user_id msg = SYSTEM_USER_ID)
  then (st, [], Err "Cannot use reserved system user ID")
  else if bool_decide (jr_session msg ∈ active_subs st) then (st, [], Ok tt)
  else
    let '(st1, cancel, is_reconnection) := cancel_departure (jr_room msg) (jr_user_id msg) st in
    let st2 := if is_reconnection || jr_observer msg
               then st1 <| suppress_join_broadcast :=
                             {[jr_session msg]} ∪ suppress_join_broadcast st1 |>
               else st1 in
    match sessions st2 !! jr_session msg with
    | None => (st2, cancel, Err "Session not found")
    | Some recipient =>
        let existing := if jr_observer msg then [] else members_of (jr_room msg) st2 in
        let first := bool_decide (existing = []) && negb (jr_observer msg) in
        let st3 := if jr_observer msg then st2
                   else st2 <| room_members :=
                                 <[jr_room msg := members_of (jr_room msg) st2 ++
                                     [(jr_session msg, jr_user_id msg, jr_display_name msg)]]>
                                   (room_members st2) |> in
        (st3 <| active_subs := {[jr_session msg]} ∪ active_subs st3 |>,
         cancel ++ join_task now_ms msg recipient existing first, Ok tt)
    end.

(** A message of the session's NATS subscription. *)
Definition handle_msg (recipient : Z) (room : string) (session : Z) (subject : string)
    (payload : bytes) : list server_effect :=
  let is_congestion := match parse_wrapper payload with
                       | Some w => packet_type w =? CONGESTION
                       | None => false
                       end in
  if bool_decide (subject = session_subject room session) && negb is_congestion then []
  else [TrySend recipient session payload].

(** ** The actor: one message at a time *)

Inductive server_msg : Type :=
| MConnect (id addr : Z)
| MDisconnect (msg : Disconnect) (handle : Z)
| MLeave (session : Z) (room user_id : string)
| MActivate (session : Z)
| MExecute (msg : ExecutePendingDeparture)
| MClient (msg : ClientMessage)
| MJoin (msg : JoinRoom) (now_ms : Z).

Definition serve (st : ChatServer) (msg : server_msg) : ChatServer * list server_effect :=
  match msg with
  | MConnect id addr => (handle_connect id addr st, [])
  | MDisconnect m handle => handle_disconnect m handle st
  | MLeave session room user_id => handle_leave session room user_id st
  | MActivate session => handle_activate session st
  | MExecute m => handle_execute m st
  | MClient m => (st, handle_client_message m st)
  | MJoin m now_ms => (handle_join now_ms m st).1
  end.

End Server.
