(* ===== verification/ChatServerProps.v ===== *)
(** * Properties of the room server

    Invariants over every sequence of messages, and the life of a departure:
    announced once when its grace period ends, silent when the user comes back. *)
From Stdlib Require Import Ascii.
From S2P Require Import Prelude Protocol DemoWire SessionLogic ChatServer.

(** ** Announcements *)

Section Announcements.
Context {wire : Wire}.

(** The event a room learns: a join or a departure of a session, read on the
    system subject of some room. *)
Definition announces (event session : Z) (e : server_effect) : Prop :=
  exists room payload m, e = Publish (system_subject room) payload /\
    read_meeting payload = Some m /\ event_type m = event /\ mt_session_id m = session.

Definition presence_of (session : Z) (e : server_effect) : Prop :=
  announces PARTICIPANT_JOINED session e \/ announces PARTICIPANT_LEFT session e.

(** Serialization succeeds: packets are far below the 2 GB limit. *)
Class WireTotal : Prop := {
  write_wrapper_total : forall w, is_Some (write_wrapper w);
  write_meeting_total : forall m, is_Some (write_meeting m);
}.

Context {laws : WireLaws} {total : WireTotal}.

Lemma read_built (m : MeetingPacket) : read_meeting (meeting_wrapper m) = Some m.
Proof. apply read_meeting_wrapper; [apply write_meeting_total | apply write_wrapper_total]. Qed.

Lemma left_presence (room r u d : string) (s s' : Z) :
  presence_of s (Publish (system_subject room) (build_peer_left_packet r u s' d)) -> s = s'.
Proof.
  unfold presence_of, announces, build_peer_left_packet.
  intros [(r0 & p & m & [= _ <-] & Hr & He & Hs)|(r0 & p & m & [= _ <-] & Hr & He & Hs)];
    rewrite read_built in Hr; by simplify_eq.
Qed.

Lemma joined_presence (room r u d : string) (s s' : Z) :
  presence_of s (Publish (system_subject room) (build_peer_joined_packet r u s' d)) -> s = s'.
Proof.
  unfold presence_of, announces, build_peer_joined_packet.
  intros [(r0 & p & m & [= _ <-] & Hr & He & Hs)|(r0 & p & m & [= _ <-] & Hr & He & Hs)];
    rewrite read_built in Hr; by simplify_eq.
Qed.

Lemma started_presence (room r c : string) (s t : Z) :
  ~ presence_of s (Publish (system_subject room) (build_meeting_started_packet r t c)).
Proof.
  unfold presence_of, announces, build_meeting_started_packet.
  intros [(r0 & p & m & [= _ <-] & Hr & He & Hs)|(r0 & p & m & [= _ <-] & Hr & He & Hs)];
    rewrite read_built in Hr; by simplify_eq.
Qed.

(** ** Subjects of sessions and of the system differ *)

Fixpoint last_char (s : string) : option ascii :=
  match s with
  | EmptyString => None
  | String c EmptyString => Some c
  | String _ s' => last_char s'
  end.

Lemma last_char_app (s t : string) : t <> EmptyString -> last_char (s +:+ t) = last_char t.
Proof.
  intros Ht. induction s as [|c s IH]; [done |].
  cbn [String.append String.app last_char]. simpl.
  destruct (s +:+ t) eqn:E; [|by rewrite <- IH].
  destruct s; simpl in E; [by subst | done].
Qed.

Lemma last_char_all (P : ascii -> Prop) (s : string) (c : ascii) :
  all_chars P s -> last_char s = Some c -> P c.
Proof.
  induction s as [|d s IH]; simpl; [done |]. intros [Hd Hs] H.
  destruct s; [by simplify_eq | by apply IH].
Qed.

Lemma session_subject_not_system (room r : string) (session : Z) :
  session_subject room session <> system_subject r.
Proof.
  intros H. apply (f_equal last_char) in H. revert H. unfold session_subject, system_subject.
  assert (forall a b, b <> EmptyString -> a +:+ b <> EmptyString) as Hne by (by intros [|] b).
  pose proof (show_u64_nonempty session).
  rewrite !replace_spaces_app, show_u64_spaces, !last_char_app by auto.
  intros H0. pose proof (last_char_all is_digit _ _ (show_u64_digits session) H0) as Hd.
  vm_compute in Hd. by destruct Hd.
Qed.

(** Nothing a client sends is published on a system subject. *)
Lemma client_not_presence (s : Z) (msg : ClientMessage) (st : ChatServer) :
  Forall (fun e => ~ presence_of s e) (handle_client_message msg st).
Proof.
  unfold handle_client_message. destruct (default Testing _); constructor; [|constructor].
  intros [(r & p & m & E & _)|(r & p & m & E & _)];
    apply (session_subject_not_system (cm_room msg) r (cm_session msg)); congruence.
Qed.

(** The announcements of the two sources of departures. *)
Lemma leave_rooms_presence (s session : Z) (room user dname : option string) (obs : bool)
    (st : ChatServer) :
  s <> session \/ obs = true ->
  Forall (fun e => ~ presence_of s e) (leave_rooms session room user dname obs st).2.
Proof.
  intros Hs. unfold leave_rooms, stop_task.
  assert (forall k, Forall (fun e => ~ presence_of s e)
    (if bool_decide (session ∈ active_subs st) then [AbortTask k] else [])) as Ha.
  { intros k. case_bool_decide; constructor; [|constructor].
    by intros [(r & p & m & [=] & _)|(r & p & m & [=] & _)]. }
  set (pr := if bool_decide (session ∈ active_subs st) then _ else _).
  assert (Forall (fun e => ~ presence_of s e) pr.2) as Hp.
  { unfold pr. specialize (Ha session). by case_bool_decide. }
  destruct pr as [st1 abort]. simpl in Hp.
  destruct room as [room|], user as [user|]; try done. destruct obs; [done |].
  destruct (connection_states _ !! session) as [[]|]; try done;
    (apply Forall_app; split; [done |]; constructor; [|constructor];
     intros H; apply left_presence in H; destruct Hs; congruence).
Qed.

Lemma other_not_presence (s : Z) (e : server_effect) :
  (forall sub p, e <> Publish sub p) -> ~ presence_of s e.
Proof. intros He [(r & p & m & -> & _)|(r & p & m & -> & _)]; by eapply He. Qed.

Lemma join_task_presence (s now_ms : Z) (msg : JoinRoom) (recipient : Z) (existing : list member)
    (first : bool) :
  Forall (fun e => ~ presence_of s e) (join_task now_ms msg recipient existing first).
Proof.
  unfold join_task. destruct (build_subject_and_queue _ _) as [subject queue].
  repeat (apply Forall_app; split).
  - destruct first; repeat constructor. apply started_presence.
  - apply Forall_forall. intros e He.
    apply list_elem_of_fmap in He as ([[sid uid] dn] & -> & _). by apply other_not_presence.
  - repeat constructor. by apply other_not_presence.
Qed.

Lemma cancel_departure_presence (s : Z) (room user : string) (st : ChatServer) :
  Forall (fun e => ~ presence_of s e) (cancel_departure room user st).1.2.
Proof.
  unfold cancel_departure. destruct (pending_departures st !! _); repeat constructor.
  by apply other_not_presence.
Qed.

Lemma join_presence (s now_ms : Z) (msg : JoinRoom) (st : ChatServer) :
  Forall (fun e => ~ presence_of s e) (handle_join now_ms msg st).1.2.
Proof.
  unfold handle_join. repeat case_bool_decide; try constructor.
  pose proof (cancel_departure_presence s (jr_room msg) (jr_user_id msg) st) as Hc.
  destruct (cancel_departure _ _ st) as [[st1 cancel] rec]. simpl in Hc.
  destruct (sessions _ !! _); [|done]. apply Forall_app. split; [done | apply join_task_presence].
Qed.

End Announcements.

(** ** How the handlers change the state *)

Lemma stop_task_fields (session : Z) (st : ChatServer) :
  let st' := (stop_task session st).1 in
  sessions st' = sessions st /\ connection_states st' = connection_states st /\
  room_members st' = room_members st /\ pending_departures st' = pending_departures st /\
  suppress_join_broadcast st' = suppress_join_broadcast st /\
  active_subs st' = active_subs st ∖ {[session]}.
Proof.
  unfold stop_task. case_bool_decide; simpl; [done |]. split_and!; try done. set_solver.
Qed.

Lemma remove_member_fields (room : string) (session : Z) (st : ChatServer) :
  let st' := remove_member room session st in
  sessions st' = sessions st /\ connection_states st' = connection_states st /\
  pending_departures st' = pending_departures st /\
  suppress_join_broadcast st' = suppress_join_broadcast st /\
  active_subs st' = active_subs st.
Proof. unfold remove_member. by destruct (room_members st !! room). Qed.

Lemma remove_member_members (room r : string) (session : Z) (st : ChatServer) :
  members_of r (remove_member room session st) =
    if decide (r = room) then retain_others session (members_of room st) else members_of r st.
Proof.
  unfold remove_member, members_of. destruct (room_members st !! room) as [l|] eqn:E; simpl.
  - case_bool_decide as Hn; destruct (decide (r = room)) as [->|Hr].
    + by rewrite lookup_delete_eq, Hn.
    + by rewrite lookup_delete_ne.
    + by rewrite lookup_insert_eq.
    + by rewrite lookup_insert_ne.
  - destruct (decide (r = room)) as [->|]; [by rewrite E | done].
Qed.

Lemma leave_rooms_state {wire : Wire} (session : Z) (room : string) (user dname : option string)
    (obs : bool) (st : ChatServer) :
  (leave_rooms session (Some room) user dname obs st).1 =
    remove_member room session (stop_task session st).1.
Proof.
  unfold leave_rooms. destruct (stop_task session st) as [st1 abort]. destruct user; [|done].
  destruct obs; [done |]. by destruct (connection_states _ !! session) as [[]|].
Qed.

Lemma leave_rooms_fields {wire : Wire} (session : Z) (room : string) (user dname : option string)
    (obs : bool) (st : ChatServer) :
  let st' := (leave_rooms session (Some room) user dname obs st).1 in
  sessions st' = sessions st /\ connection_states st' = connection_states st /\
  pending_departures st' = pending_departures st /\
  suppress_join_broadcast st' = suppress_join_broadcast st /\
  active_subs st' = active_subs st ∖ {[session]}.
Proof.
  rewrite leave_rooms_state. simpl.
  destruct (stop_task_fields session st) as (E1 & E2 & E3 & E4 & E5 & E6).
  destruct (remove_member_fields room session (stop_task session st).1) as (F1 & F2 & F3 & F4 & F5).
  split_and!; congruence.
Qed.

Lemma leave_rooms_members {wire : Wire} (session : Z) (room r : string)
    (user dname : option string) (obs : bool) (st : ChatServer) :
  members_of r (leave_rooms session (Some room) user dname obs st).1 =
    if decide (r = room) then retain_others session (members_of room st) else members_of r st.
Proof.
  rewrite leave_rooms_state, remove_member_members. unfold members_of.
  destruct (stop_task_fields session st) as (_ & _ & -> & _). done.
Qed.

(** Joining changes the connection states of nobody, and only removes pending
    departures. *)
Lemma join_fields {wire : Wire} (now_ms : Z) (msg : JoinRoom) (st : ChatServer) :
  let st' := (handle_join now_ms msg st).1.1 in
  sessions st' = sessions st /\ connection_states st' = connection_states st /\
  (pending_departures st' = pending_departures st \/
   pending_departures st' = delete (jr_room msg, jr_user_id msg) (pending_departures st)).
Proof.
  unfold handle_join. repeat case_bool_decide; simpl; auto.
  unfold cancel_departure. destruct (pending_departures st !! _) as [pd|]; simpl.
  - destruct (room_members st !! jr_room msg); simpl;
      destruct (sessions st !! jr_session msg); simpl; try destruct (jr_observer msg); simpl; auto.
  - destruct (jr_observer msg); simpl; destruct (sessions st !! jr_session msg); simpl; auto.
Qed.

Lemma cancel_departure_spec (room user r : string) (st : ChatServer) :
  let st' := (cancel_departure room user st).1.1 in
  sessions st' = sessions st /\ active_subs st' = active_subs st /\
  suppress_join_broadcast st' = suppress_join_broadcast st /\
  forall m, m ∈ members_of r st' -> m ∈ members_of r st.
Proof.
  unfold cancel_departure. destruct (pending_departures st !! _) as [pd|]; [|done].
  simpl. unfold members_of. destruct (room_members st !! room) as [l|] eqn:E; simpl; [|done].
  split_and!; [done..|]. intros m. destruct (decide (r = room)) as [->|Hr].
  - rewrite lookup_insert_eq, E. simpl. intros Hx. by apply list_elem_of_filter in Hx as [].
  - by rewrite lookup_insert_ne.
Qed.

(** The members of a room after a join: those before, without the session of a
    cancelled departure, and the new one unless it is an observer. *)
Lemma join_members {wire : Wire} (now_ms : Z) (msg : JoinRoom) (st : ChatServer) (r : string) (m : member) :
  m ∈ members_of r (handle_join now_ms msg st).1.1 ->
  m ∈ members_of r st \/
  (r = jr_room msg /\ jr_observer msg = false /\ jr_user_id msg <> SYSTEM_USER_ID /\
   m = (jr_session msg, jr_user_id msg, jr_display_name msg)).
Proof.
  unfold handle_join. case_bool_decide as Hu; [by left |]. case_bool_decide; [by left |].
  destruct (cancel_departure_spec (jr_room msg) (jr_user_id msg) r st) as (_ & _ & _ & Hc).
  destruct (cancel_departure _ _ st) as [[st1 cancel] rec]. simpl in Hc.
  set (st2 := if rec || jr_observer msg then _ else st1).
  assert (members_of r st2 = members_of r st1) as E2 by (unfold st2; by destruct (_ || _)).
  assert (room_members st2 = room_members st1) as E2' by (unfold st2; by destruct (_ || _)).
  destruct (sessions st2 !! _); simpl; [|rewrite E2; auto].
  destruct (jr_observer msg) eqn:Eo; simpl.
  - unfold members_of at 1. simpl. fold (members_of r st2). rewrite E2. auto.
  - unfold members_of at 1. simpl. destruct (decide (r = jr_room msg)) as [->|Hr].
    + rewrite lookup_insert_eq. simpl. rewrite elem_of_app, list_elem_of_singleton.
      intros [Hm| ->]; [left; apply Hc; by rewrite <- E2 | by right].
    + rewrite lookup_insert_ne by done. fold (members_of r st2). rewrite E2. auto.
Qed.

(** ** Invariants over message sequences *)

Section Traces.
Context {wire : Wire} {laws : WireLaws} {total : WireTotal}.
Context (iter : gmap string (list member) -> list (string * list member)).

(** The iteration of a hash map visits its entries, in some order. *)
Definition visits_entries : Prop := forall m, iter m ≡ₚ map_to_list m.

(** Messages never create a pending departure but through a disconnection. *)
Lemma serve_pending (st : ChatServer) (msg : server_msg) (key : string * string)
    (pd : PendingDepartureState) :
  pending_departures (serve iter st msg).1 !! key = Some pd ->
  pending_departures st !! key = Some pd \/
  exists m handle, msg = MDisconnect m handle /\ dc_observer m = false /\
    key = (dc_room m, dc_user_id m) /\
    pd = mkPending handle (dc_session m) (is_active (dc_session m) st).
Proof.
  destruct msg as [id addr|m handle|s room u|s|m|m|m now]; simpl; auto.
  - unfold handle_disconnect. destruct (dc_observer m) eqn:Eo.
    + destruct (leave_rooms_fields (dc_session m) (dc_room m) (Some (dc_user_id m))
        (Some (dc_display_name m)) true (forget_session (dc_session m) st)) as (_ & _ & -> & _). auto.
    + destruct (stop_task_fields (dc_session m) (forget_session (dc_session m) st))
        as (_ & _ & _ & E & _).
      destruct (stop_task _ _) as [st1 ab]. simpl in *. rewrite E.
      destruct (decide (key = (dc_room m, dc_user_id m))) as [->|Hk].
      * rewrite lookup_insert_eq. intros [= <-]. right. eauto 10.
      * rewrite lookup_insert_ne, lookup_delete_ne by done. auto.
  - unfold handle_leave.
    match goal with |- context [leave_rooms ?a (Some ?b) ?c ?d ?e ?f] =>
      destruct (leave_rooms_fields a b c d e f) as (_ & _ & -> & _) end.
    simpl. intros H. left. by apply lookup_delete_Some in H as [].
  - unfold handle_activate. destruct (_ && _); [|by left].
    destruct (find_session _ _) as [[[? ?] ?]|]; auto.
  - unfold handle_execute. destruct (pending_departures st !! _) as [p|] eqn:E; [|by left].
    case_bool_decide as Hs; simpl.
    + destruct (was_active p); simpl.
      * match goal with |- context [leave_rooms ?a (Some ?b) ?c ?d ?e ?f] =>
          destruct (leave_rooms_fields a b c d e f) as (_ & _ & -> & _) end.
        simpl. intros H. left. by apply lookup_delete_Some in H as [].
      * match goal with |- context [remove_member ?a ?b ?c] =>
          destruct (remove_member_fields a b c) as (_ & _ & -> & _) end.
        simpl. intros H. left. by apply lookup_delete_Some in H as [].
    + rewrite insert_delete_eq. intros H.
      apply lookup_insert_Some in H as [[<- <-]|[_ H]]; auto.
  - destruct (join_fields now m st) as (_ & _ & [->| ->]); [auto |].
    intros H. left. by apply lookup_delete_Some in H as [].
Qed.


(** The members of a room only come from joins. *)
Lemma serve_members (st : ChatServer) (msg : server_msg) (r : string) (m : member) :
  m ∈ members_of r (serve iter st msg).1 ->
  m ∈ members_of r st \/
  exists j now, msg = MJoin j now /\ jr_observer j = false /\ jr_user_id j <> SYSTEM_USER_ID /\
    m = (jr_session j, jr_user_id j, jr_display_name j).
Proof.
  assert (forall session l, m ∈ retain_others session l -> m ∈ l) as Hret.
  { intros session l H. by apply list_elem_of_filter in H as []. }
  destruct msg as [id addr|d handle|s' room u|s'|e|c|j now]; simpl; auto.
  - unfold handle_disconnect. destruct (dc_observer d).
    + rewrite leave_rooms_members. destruct (decide _) as [->|]; [|auto].
      intros H. left. by apply Hret in H.
    + destruct (stop_task_fields (dc_session d) (forget_session (dc_session d) st))
        as (_ & _ & E & _). destruct (stop_task _ _) as [st1 ab]. unfold members_of. simpl in *.
      rewrite E. auto.
  - unfold handle_leave. rewrite leave_rooms_members. destruct (decide _) as [->|]; [|auto].
    intros H. left. by apply Hret in H.
  - intros H. left. revert H. unfold handle_activate, members_of. destruct (_ && _); [|done].
    by destruct (find_session _ _) as [[[? ?] ?]|].
  - unfold handle_execute. destruct (pending_departures st !! _) as [p|]; [|auto].
    case_bool_decide; simpl; [|auto]. destruct (was_active p); simpl.
    + rewrite leave_rooms_members. destruct (decide _) as [->|]; [|auto].
      intros H1. left. by apply Hret in H1.
    + rewrite remove_member_members. destruct (decide _) as [->|]; [|auto].
      intros H1. left. by apply Hret in H1.
  - intros H. apply join_members in H as [H|(_ & H1 & H2 & H3)]; [auto |]. right. eauto 10.
Qed.

(** Who is announced by a message. *)
Lemma serve_presence (s : Z) (st : ChatServer) (msg : server_msg) :
  (forall room u, msg <> MLeave s room u) ->
  (msg = MActivate s -> find_session s (iter (room_members st)) = None) ->
  (forall e pd, msg = MExecute e -> ex_session e = s ->
     pending_departures st !! (ex_room e, ex_user_id e) = Some pd -> old_session pd = s ->
     was_active pd = false) ->
  Forall (fun e => ~ presence_of s e) (serve iter st msg).2.
Proof.
  intros Hl Ha Hp. destruct msg as [id addr|d handle|s' room u|s'|e|c|j now]; simpl.
  - constructor.
  - unfold handle_disconnect. destruct (dc_observer d).
    + apply leave_rooms_presence. by right.
    + unfold stop_task. case_bool_decide; simpl; destruct (pending_departures st !! _);
        repeat constructor; by apply other_not_presence.
  - apply leave_rooms_presence. left. intros ->. by apply (Hl room u).
  - unfold handle_activate. destruct (_ && _); [|constructor]. simpl.
    destruct (find_session s' (iter (room_members st))) as [[[r u] d]|] eqn:E; [|constructor].
    repeat constructor. intros Hj. apply joined_presence in Hj as <-.
    rewrite Ha in E; done.
  - unfold handle_execute. destruct (pending_departures st !! _) as [p|] eqn:E; [|constructor].
    case_bool_decide as Hs; simpl; [|constructor].
    destruct (was_active p) eqn:Ew; simpl; [|constructor].
    apply leave_rooms_presence. left. intros ->.
    rewrite (Hp e p eq_refl eq_refl E Hs) in Ew. discriminate Ew.
  - apply client_not_presence.
  - apply join_presence.
Qed.


Lemma find_in_members_None (s : Z) (l : list member) :
  (forall m, m ∈ l -> m.1.1 <> s) -> find_in_members s l = None.
Proof.
  induction l as [|[[sid uid] d] l IH]; intros H; simpl; [done |].
  rewrite bool_decide_false; [apply IH; intros m Hm; apply H; by right |].
  apply (H (sid, uid, d)). by left.
Qed.

Lemma find_session_None (s : Z) (st : ChatServer) :
  visits_entries -> (forall r m, m ∈ members_of r st -> m.1.1 <> s) -> find_session s (iter (room_members st)) = None.
Proof.
  intros iter_entries H. assert (forall p, p ∈ iter (room_members st) -> find_in_members s p.2 = None) as Hp.
  { intros [r l] Hrl. rewrite (iter_entries (room_members st)) in Hrl. apply elem_of_map_to_list in Hrl.
    apply find_in_members_None. intros m Hm. apply (H r). unfold members_of. by rewrite Hrl. }
  induction (iter (room_members st)) as [|[r l] rooms IH]; simpl; [done |].
  specialize (Hp (r, l) ltac:(by left)) as Hl. simpl in Hl. rewrite Hl.
  apply IH. intros p Hin. apply Hp. by right.
Qed.

(** A session that only takes part as an observer. *)
Definition observes (s : Z) (m : server_msg) : Prop :=
  match m with
  | MJoin j _ => jr_session j = s -> jr_observer j = true
  | MDisconnect d _ => dc_session d = s -> dc_observer d = true
  | MLeave s' _ _ => s' <> s
  | _ => True
  end.

(** C4: observers are never announced. Along any sequence of messages in which a
    session joins and disconnects only as an observer, activated or not, it is
    never listed among the members of a room, and no room hears that it joined or
    left. *)
Theorem observer_never_announced (s : Z) (msgs : list server_msg) :
  visits_entries -> Forall (observes s) msgs ->
  let '(st, effects) := run (serve iter) server_new msgs in
  Forall (fun e => ~ presence_of s e) effects /\
  forall room m, m ∈ members_of room st -> m.1.1 <> s.
Proof.
  intros Hit Hm.
  set (Inv := fun st => (forall r m, m ∈ members_of r st -> m.1.1 <> s) /\
    forall key pd, pending_departures st !! key = Some pd -> old_session pd <> s).
  destruct (run_invariant_on (serve iter) (observes s) Inv (fun e => ~ presence_of s e))
    with (es := msgs) (s := server_new) as [Hi Ho]; [|done| |].
  - intros st m Hobs [Hmem Hp].
    assert (Forall (fun e => ~ presence_of s e) (serve iter st m).2) as Hpr.
    { apply serve_presence.
      - intros room u ->. by apply Hobs.
      - intros _. by apply find_session_None.
      - intros e pd _ _ E1 E2. by apply Hp in E1. }
    pose proof (serve_members st m) as Hsm. pose proof (serve_pending st m) as Hpe.
    destruct (serve iter st m) as [st' eff]. simpl in *. split; [|done]. split.
    + intros r x Hx. destruct (Hsm r x Hx) as [H|(j & now & -> & Hj & _ & ->)]; [by eapply Hmem |].
      simpl in *. intros Es. rewrite (Hobs Es) in Hj. done.
    + intros key pd H. destruct (Hpe key pd H) as [H1|(d & h & -> & Hd & _ & ->)]; [by eapply Hp |].
      simpl in *. intros Es. rewrite (Hobs Es) in Hd. done.
  - split; [|done]. intros r x Hx. unfold members_of in Hx. simpl in Hx. by apply not_elem_of_nil in Hx.
  - destruct (run (serve iter) server_new msgs) as [st eff]. by destruct Hi.
Qed.

(** The reserved identity never enters a room: whatever the messages, no room
    lists a member whose user id is the system's. *)
Theorem system_user_never_member (msgs : list server_msg) (room : string) (m : member) :
  m ∈ members_of room (run (serve iter) server_new msgs).1 -> m.1.2 <> SYSTEM_USER_ID.
Proof.
  destruct (run_invariant (serve iter)
    (fun st => forall r m, m ∈ members_of r st -> m.1.2 <> SYSTEM_USER_ID) (fun _ => True))
    with (es := msgs) (s := server_new) as [Hi _]; [| |by apply Hi].
  - intros st x H. pose proof (serve_members st x) as Hsm. destruct (serve iter st x) as [st' eff].
    split; [|by apply Forall_true]. intros r y Hy.
    destruct (Hsm r y Hy) as [H1|(j & now & _ & _ & Hu & ->)]; [by eapply H | done].
  - intros r x Hx. unfold members_of in Hx. simpl in Hx. by apply not_elem_of_nil in Hx.
Qed.
End Traces.

(** ** The life of a departure *)

Section Departures.
Context {wire : Wire}.
Context (iter : gmap string (list member) -> list (string * list member)).

(** The messages that are not of a session: not its connection, its activation,
    its joins, its end or the timer of its departure. *)
Definition not_of (s : Z) (m : server_msg) : Prop :=
  match m with
  | MConnect id _ => id <> s
  | MDisconnect d _ => dc_session d <> s
  | MLeave s' _ _ => s' <> s
  | MActivate s' => s' <> s
  | MExecute e => ex_session e <> s
  | MClient _ => True
  | MJoin j _ => jr_session j <> s
  end.

(** What the server knows of a session apart from its rooms. *)
Definition same_session (s : Z) (st st' : ChatServer) : Prop :=
  sessions st' !! s = sessions st !! s /\
  connection_states st' !! s = connection_states st !! s /\
  (s ∈ active_subs st' <-> s ∈ active_subs st) /\
  (s ∈ suppress_join_broadcast st' <-> s ∈ suppress_join_broadcast st).

Lemma same_session_trans (s : Z) (a b c : ChatServer) :
  same_session s a b -> same_session s b c -> same_session s a c.
Proof.
  intros (E1 & E2 & E3 & E4) (F1 & F2 & F3 & F4).
  split_and!; [congruence | congruence | tauto | tauto].
Qed.

(** A handler of session [s'] that touches only the entries of [s']. *)
Lemma same_session_fields (s s' : Z) (st st' : ChatServer) :
  s' <> s ->
  (forall x, x <> s' -> sessions st' !! x = sessions st !! x) ->
  (forall x, x <> s' -> connection_states st' !! x = connection_states st !! x) ->
  (forall x, x <> s' -> x ∈ active_subs st' <-> x ∈ active_subs st) ->
  (forall x, x <> s' -> x ∈ suppress_join_broadcast st' <-> x ∈ suppress_join_broadcast st) ->
  same_session s st st'.
Proof. intros Hs H1 H2 H3 H4. split_and!; auto. Qed.

Lemma leave_same_session (s s' : Z) (room : string) (user dname : option string) (obs : bool)
    (st : ChatServer) :
  s' <> s -> same_session s st (leave_rooms s' (Some room) user dname obs st).1.
Proof.
  intros Hs. destruct (leave_rooms_fields s' room user dname obs st) as (E1 & E2 & E3 & E4 & E5).
  apply (same_session_fields _ s'); rewrite ?E1, ?E2, ?E4, ?E5; try done. set_solver.
Qed.

Lemma disconnect_same_session (s : Z) (d : Disconnect) (h : Z) (st : ChatServer) :
  dc_session d <> s -> same_session s st (handle_disconnect d h st).1.
Proof.
  intros Hs. unfold handle_disconnect.
  assert (same_session s st (forget_session (dc_session d) st)) as Hf.
  { apply (same_session_fields _ (dc_session d)); try done; simpl; intros x Hx;
      [by rewrite lookup_delete_ne | by rewrite lookup_delete_ne | set_solver]. }
  destruct (dc_observer d); [eapply same_session_trans; [exact Hf | by apply leave_same_session] |].
  destruct (stop_task_fields (dc_session d) (forget_session (dc_session d) st))
    as (E1 & E2 & E3 & E4 & E5 & E6).
  destruct (stop_task _ _) as [st1 ab]. simpl in *.
  eapply same_session_trans; [exact Hf |]. apply (same_session_fields _ (dc_session d)); simpl;
    rewrite ?E1, ?E2, ?E5, ?E6; try done. set_solver.
Qed.

Lemma join_same_session (s : Z) (j : JoinRoom) (now : Z) (st : ChatServer) :
  jr_session j <> s -> same_session s st (handle_join now j st).1.1.
Proof.
  intros Hs. destruct (join_fields now j st) as (E1 & E2 & _).
  apply (same_session_fields _ (jr_session j)); rewrite ?E1, ?E2; try done; clear E1 E2;
    unfold handle_join; repeat case_bool_decide; try done;
    (destruct (cancel_departure_spec (jr_room j) (jr_user_id j) "" st) as (_ & E3 & E4 & _);
     destruct (cancel_departure _ _ st) as [[st1 cancel] rec]; simpl in E3, E4;
     destruct (rec || jr_observer j); simpl; destruct (sessions st1 !! _); simpl;
     try destruct (jr_observer j); simpl; rewrite ?E3, ?E4; set_solver).
Qed.

Lemma execute_same_session (s : Z) (e : ExecutePendingDeparture) (st : ChatServer) :
  ex_session e <> s -> same_session s st (handle_execute e st).1.
Proof.
  intros Hs. unfold handle_execute. destruct (pending_departures st !! _) as [p|]; [|done].
  case_bool_decide; cbn [negb]; [|done]. destruct (was_active p); cbn [negb].
  - eapply same_session_trans; [|by apply leave_same_session]. done.
  - cbn [fst]. match goal with |- context [remove_member ?a ?b ?c] =>
      destruct (remove_member_fields a b c) as (E1 & E2 & E3 & E4 & E5) end.
    unfold same_session. rewrite E1, E2, E4, E5. done.
Qed.

Lemma serve_same_session (s : Z) (st : ChatServer) (m : server_msg) :
  not_of s m -> same_session s st (serve iter st m).1.
Proof.
  intros Hm. destruct m as [id addr|d h|s' r u|s'|e|c|j now]; simpl in *.
  - apply (same_session_fields _ id); try done; simpl; intros x Hx; by rewrite lookup_insert_ne.
  - by apply disconnect_same_session.
  - unfold handle_leave. eapply same_session_trans; [|by apply leave_same_session]. done.
  - unfold handle_activate. destruct (_ && _); [destruct (find_session _ _) as [[[? ?] ?]|]|];
      (apply (same_session_fields _ s'); try done; simpl; intros x Hx;
       [by rewrite lookup_insert_ne | set_solver]).
  - by apply execute_same_session.
  - done.
  - by apply join_same_session.
Qed.

(** What ends the wait of a departure before its timer: the same user joins the
    room again (a join that is refused at once does not count), leaves it, or
    loses another connection to it. *)
Definition supersedes (key : string * string) (st : ChatServer) (m : server_msg) : bool :=
  match m with
  | MDisconnect d _ => negb (dc_observer d) && bool_decide ((dc_room d, dc_user_id d) = key)
  | MLeave _ r u => bool_decide ((r, u) = key)
  | MJoin j _ => bool_decide ((jr_room j, jr_user_id j) = key) &&
                 bool_decide (jr_user_id j <> SYSTEM_USER_ID) &&
                 bool_decide (jr_session j ∉ active_subs st)
  | _ => false
  end.

Fixpoint superseded (key : string * string) (st : ChatServer) (msgs : list server_msg) : bool :=
  match msgs with
  | [] => false
  | m :: rest => supersedes key st m || superseded key (serve iter st m).1 rest
  end.

(** The departure of [s] waits for its timer. *)
Definition waiting (key : string * string) (p : PendingDepartureState) (st : ChatServer) : Prop :=
  pending_departures st !! key = Some p /\
  connection_states st !! old_session p = None /\ old_session p ∉ active_subs st.

(** The departure of [s] does not wait any more. *)
Definition outdated (key : string * string) (s : Z) (st : ChatServer) : Prop :=
  forall p, pending_departures st !! key = Some p -> old_session p <> s.

Lemma join_keeps_pending (key : string * string) (j : JoinRoom) (now : Z) (st : ChatServer) :
  supersedes key st (MJoin j now) = false ->
  pending_departures (handle_join now j st).1.1 !! key = pending_departures st !! key.
Proof.
  simpl. intros H. destruct (decide ((jr_room j, jr_user_id j) = key)) as [Ek|Hk].
  - unfold handle_join. destruct (decide (jr_user_id j = SYSTEM_USER_ID)) as [Es|Hs];
      [by rewrite bool_decide_true by done|].
    rewrite (bool_decide_false (jr_user_id j = _)) by done.
    rewrite !bool_decide_true in H by done. simpl in H. apply bool_decide_eq_false in H.
    rewrite bool_decide_true by (by apply dec_stable). done.
  - destruct (join_fields now j st) as (_ & _ & [->| ->]); [done |]. by rewrite lookup_delete_ne.
Qed.

Lemma serve_waiting (key : string * string) (p : PendingDepartureState) (st : ChatServer)
    (m : server_msg) :
  waiting key p st -> not_of (old_session p) m -> supersedes key st m = false ->
  waiting key p (serve iter st m).1.
Proof.
  intros (P & C & A) Hm Hs. destruct (serve_same_session _ st m Hm) as (_ & C' & A' & _).
  split; [|split; [congruence | tauto]]. clear C C' A A'. rewrite <- P.
  destruct m as [id addr|d h|s' r u|s'|e|c|j now]; simpl in *; try done.
  - unfold handle_disconnect. destruct (dc_observer d); simpl in Hs.
    + by destruct (leave_rooms_fields (dc_session d) (dc_room d) (Some (dc_user_id d))
        (Some (dc_display_name d)) true (forget_session (dc_session d) st)) as (_ & _ & -> & _).
    + destruct (stop_task_fields (dc_session d) (forget_session (dc_session d) st))
        as (_ & _ & _ & E & _). destruct (stop_task _ _) as [st1 ab]. simpl in *. rewrite E.
      apply bool_decide_eq_false in Hs. by rewrite lookup_insert_ne, lookup_delete_ne.
  - unfold handle_leave. apply bool_decide_eq_false in Hs.
    match goal with |- context [leave_rooms ?a (Some ?b) ?c ?d ?e ?f] =>
      destruct (leave_rooms_fields a b c d e f) as (_ & _ & -> & _) end.
    simpl. by rewrite lookup_delete_ne.
  - unfold handle_activate. destruct (_ && _); [|done]. by destruct (find_session _ _) as [[[? ?] ?]|].
  - destruct (decide ((ex_room e, ex_user_id e) = key)) as [<-|Hk].
    + unfold handle_execute. rewrite P, bool_decide_false by (intros E; by rewrite E in Hm).
      simpl. by rewrite lookup_insert_eq.
    + unfold handle_execute. destruct (pending_departures st !! (_, _)) as [q|]; [|done].
      case_bool_decide; simpl; [|by rewrite lookup_insert_ne, lookup_delete_ne].
      destruct (was_active q); simpl.
      * match goal with |- context [leave_rooms ?a (Some ?b) ?c ?d ?e ?f] =>
          destruct (leave_rooms_fields a b c d e f) as (_ & _ & -> & _) end.
        simpl. by rewrite lookup_delete_ne.
      * match goal with |- context [remove_member ?a ?b ?c] =>
          destruct (remove_member_fields a b c) as (_ & _ & -> & _) end.
        simpl. by rewrite lookup_delete_ne.
  - by apply join_keeps_pending.
Qed.

Lemma serve_outdated (key : string * string) (s : Z) (st : ChatServer) (m : server_msg) :
  outdated key s st -> not_of s m -> outdated key s (serve iter st m).1.
Proof.
  intros Ho Hm p Hp. destruct (serve_pending iter st m key p Hp) as [H|(d & h & -> & _ & _ & ->)];
    [by apply Ho | done].
Qed.

Lemma serve_supersedes (key : string * string) (s : Z) (st : ChatServer) (m : server_msg) :
  not_of s m -> supersedes key st m = true -> outdated key s (serve iter st m).1.
Proof.
  intros Hm Hs p. destruct m as [id addr|d h|s' r u|s'|e|c|j now]; simpl in *; try done.
  - apply andb_prop in Hs as [Ho Hk]. apply bool_decide_eq_true in Hk as <-.
    unfold handle_disconnect. destruct (dc_observer d); [done |].
    destruct (stop_task _ _) as [st1 ab]. simpl. rewrite lookup_insert_eq. by intros [= <-].
  - apply bool_decide_eq_true in Hs as <-. unfold handle_leave.
    match goal with |- context [leave_rooms ?a (Some ?b) ?c ?d ?e ?f] =>
      destruct (leave_rooms_fields a b c d e f) as (_ & _ & -> & _) end.
    simpl. by rewrite lookup_delete_eq.
  - rewrite !andb_true_iff, !bool_decide_eq_true in Hs. destruct Hs as [[<- Hu] Ha].
    unfold handle_join. rewrite (bool_decide_false (jr_user_id j = _)) by done.
    rewrite (bool_decide_false (jr_session j ∈ _)) by done. unfold cancel_departure.
    destruct (pending_departures st !! _) as [q|] eqn:E; simpl.
    + destruct (room_members st !! jr_room j); simpl; destruct (sessions st !! _); simpl;
        try destruct (jr_observer j); simpl; by rewrite lookup_delete_eq.
    + destruct (jr_observer j); simpl; destruct (sessions st !! _); simpl; by rewrite E.
Qed.

(** Whether a departure still waits is decided by the messages in between. *)
Lemma run_waiting (key : string * string) (p : PendingDepartureState) (msgs : list server_msg)
    (st : ChatServer) :
  waiting key p st -> Forall (not_of (old_session p)) msgs ->
  if superseded key st msgs then outdated key (old_session p) (run (serve iter) st msgs).1
  else waiting key p (run (serve iter) st msgs).1.
Proof.
  intros Hw Hm. revert st Hw. induction Hm as [|m msgs Hu Hm IH]; intros st Hw; [done |].
  cbn [superseded]. pose proof (serve_waiting key p st m Hw Hu) as H1.
  pose proof (serve_supersedes key _ st m Hu) as H2. simpl.
  destruct (serve iter st m) as [st1 e1]. simpl in *. specialize (IH st1).
  destruct (supersedes key st m); simpl.
  - specialize (H2 eq_refl). clear IH H1 Hw. revert st1 H2.
    induction Hm as [|m' msgs Hu' _ IH']; intros st1 H2; [done |]. simpl.
    pose proof (serve_outdated key _ st1 m' H2 Hu') as H3. destruct (serve iter st1 m') as [st2 e2].
    specialize (IH' st2 H3). by destruct (run (serve iter) st2 msgs).
  - specialize (IH (H1 eq_refl)). by destruct (run (serve iter) st1 msgs).
Qed.

(** The state right after a participant's disconnection. *)
Lemma disconnect_state (d : Disconnect) (h : Z) (st : ChatServer) :
  dc_observer d = false ->
  let st1 := (handle_disconnect d h st).1 in
  pending_departures st1 !! (dc_room d, dc_user_id d) =
    Some (mkPending h (dc_session d) (is_active (dc_session d) st)) /\
  connection_states st1 !! dc_session d = None /\ dc_session d ∉ active_subs st1 /\
  (forall x, x <> dc_session d -> sessions st1 !! x = sessions st !! x /\
    (x ∈ active_subs st1 <-> x ∈ active_subs st)).
Proof.
  intros Ho. unfold handle_disconnect. rewrite Ho.
  destruct (stop_task_fields (dc_session d) (forget_session (dc_session d) st))
    as (E1 & E2 & E3 & E4 & E5 & E6).
  destruct (stop_task _ _) as [st1 ab]. simpl in *. rewrite lookup_insert_eq, E1, E2, E6.
  split_and!; [done | by rewrite lookup_delete_eq | set_solver |].
  intros x Hx. rewrite lookup_delete_ne by done. set_solver.
Qed.

Definition departure_of (d : Disconnect) : ExecutePendingDeparture :=
  mkExecute (dc_session d) (dc_room d) (dc_user_id d) (dc_display_name d).

Definition left_announcement (d : Disconnect) : server_effect :=
  Publish (system_subject (dc_room d))
    (build_peer_left_packet (dc_room d) (dc_user_id d) (dc_session d) (dc_display_name d)).

(** The timer of a departure that still waits. *)
Lemma execute_waiting (d : Disconnect) (h : Z) (st : ChatServer) :
  waiting (dc_room d, dc_user_id d) (mkPending h (dc_session d) true) st ->
  let '(st', e) := handle_execute (departure_of d) st in
  e = [left_announcement d] /\
  (forall m, m ∈ members_of (dc_room d) st' -> m.1.1 <> dc_session d) /\
  outdated (dc_room d, dc_user_id d) (dc_session d) st'.
Proof.
  intros (P & C & A). simpl in C, A.
  set (st1 := st <| pending_departures := delete (dc_room d, dc_user_id d) (pending_departures st) |>).
  assert (handle_execute (departure_of d) st = leave_rooms (dc_session d) (Some (dc_room d))
    (Some (dc_user_id d)) (Some (dc_display_name d)) false st1) as ->.
  { unfold handle_execute. simpl. rewrite P. simpl. by rewrite bool_decide_true. }
  pose proof (leave_rooms_members (dc_session d) (dc_room d) (dc_room d) (Some (dc_user_id d))
    (Some (dc_display_name d)) false st1) as Hm. rewrite decide_True in Hm by done.
  destruct (leave_rooms_fields (dc_session d) (dc_room d) (Some (dc_user_id d))
    (Some (dc_display_name d)) false st1) as (_ & _ & F3 & _).
  assert ((leave_rooms (dc_session d) (Some (dc_room d)) (Some (dc_user_id d))
    (Some (dc_display_name d)) false st1).2 = [left_announcement d]) as He.
  { unfold leave_rooms, stop_task. rewrite bool_decide_false by (simpl; tauto).
    destruct (remove_member_fields (dc_room d) (dc_session d) st1) as (_ & G2 & _).
    rewrite G2. simpl. by rewrite C. }
  destruct (leave_rooms _ _ _ _ _ _) as [st3 e3]. simpl in *. split_and!; [done | |].
  - intros m Hin. rewrite Hm in Hin. by apply list_elem_of_filter in Hin as [].
  - intros p. rewrite F3. simpl. by rewrite lookup_delete_eq.
Qed.

(** The timer of a departure that does not wait any more does nothing. *)
Lemma execute_outdated (d : Disconnect) (st : ChatServer) :
  outdated (dc_room d, dc_user_id d) (dc_session d) st ->
  handle_execute (departure_of d) st = (st, []).
Proof.
  intros Ho. unfold handle_execute. simpl.
  destruct (pending_departures st !! _) as [p|] eqn:E; [|done].
  rewrite bool_decide_false by (by apply Ho). simpl. destruct st; simpl in *.
  by rewrite insert_delete_id.
Qed.

(** C1: a departure is announced exactly when it should be. An active participant
    disconnects; whatever messages of other sessions the server handles before the
    grace timer of this departure fires (of other users, or of the same user's
    other connections), the timer publishes one [PARTICIPANT_LEFT] of the session
    and nothing else, removes the session from its room, unless in the meantime the
    same user joined the room again, left it, or lost another connection to it
    ([superseded]); then the timer publishes nothing and changes nothing. Either
    way a second timer of it does nothing. *)
Theorem departure_announced_once (st : ChatServer) (d : Disconnect) (h : Z)
    (others : list server_msg) :
  dc_observer d = false -> connection_states st !! dc_session d = Some Active ->
  Forall (not_of (dc_session d)) others ->
  let '(st1, e1) := serve iter st (MDisconnect d h) in
  let st2 := (run (serve iter) st1 others).1 in
  let '(st3, e3) := serve iter st2 (MExecute (departure_of d)) in
  NotifyLater h (departure_of d) RECONNECT_GRACE_PERIOD ∈ e1 /\
  (if superseded (dc_room d, dc_user_id d) st1 others then st3 = st2 /\ e3 = []
   else e3 = [left_announcement d] /\
        forall m, m ∈ members_of (dc_room d) st3 -> m.1.1 <> dc_session d) /\
  serve iter st3 (MExecute (departure_of d)) = (st3, []).
Proof.
  intros Ho Hact Hoth. pose proof (disconnect_state d h st Ho) as (P1 & C1 & A1 & _).
  assert (NotifyLater h (departure_of d) RECONNECT_GRACE_PERIOD ∈ (handle_disconnect d h st).2) as Hn.
  { unfold handle_disconnect. rewrite Ho. destruct (stop_task _ _) as [st1 ab]. simpl.
    rewrite !elem_of_app, list_elem_of_singleton. auto. }
  unfold is_active in P1. rewrite Hact, bool_decide_true in P1 by done. simpl.
  destruct (handle_disconnect d h st) as [st1 e1]. simpl in *.
  pose proof (run_waiting _ (mkPending h (dc_session d) true) others st1 (conj P1 (conj C1 A1)) Hoth) as H2.
  destruct (superseded _ st1 others); simpl in H2.
  - rewrite (execute_outdated d _ H2). by rewrite (execute_outdated d _ H2).
  - pose proof (execute_waiting d h _ H2) as H3.
    destruct (handle_execute (departure_of d) _) as [st3 e3]. destruct H3 as (-> & Hm & H3).
    by rewrite (execute_outdated d _ H3).
Qed.

(** Joining while a departure of the same user is pending. *)
Lemma rejoin_state (j : JoinRoom) (now addr : Z) (pd : PendingDepartureState) (st : ChatServer) :
  jr_user_id j <> SYSTEM_USER_ID -> jr_session j ∉ active_subs st ->
  pending_departures st !! (jr_room j, jr_user_id j) = Some pd ->
  sessions st !! jr_session j = Some addr ->
  let '(st', e, r) := handle_join now j st in
  r = Ok tt /\ pending_departures st' !! (jr_room j, jr_user_id j) = None /\
  jr_session j ∈ suppress_join_broadcast st' /\ CancelTimer (spawn_handle pd) ∈ e /\
  (jr_observer j = false ->
   (jr_session j, jr_user_id j, jr_display_name j) ∈ members_of (jr_room j) st').
Proof.
  intros Hu Ha Hp Hs. unfold handle_join. rewrite !bool_decide_false by done.
  unfold cancel_departure. rewrite Hp. simpl.
  destruct (room_members st !! jr_room j); simpl; rewrite Hs; destruct (jr_observer j) eqn:Eo; simpl;
    (split_and!; [done | by rewrite lookup_delete_eq | set_solver | set_solver |]);
    intros Hobs; try discriminate Hobs; unfold members_of; simpl; rewrite lookup_insert_eq; simpl;
    apply elem_of_app; right; by apply list_elem_of_singleton.
Qed.

Section Silence.
Context {laws : WireLaws} {total : WireTotal}.

(** Messages that are not of a session announce nothing about it. *)
Lemma not_of_silent (s : Z) (st : ChatServer) (m : server_msg) :
  not_of s m -> Forall (fun e => ~ presence_of s e) (serve iter st m).2.
Proof.
  intros Hm. apply serve_presence; [intros room u -> | intros -> | intros e pd -> He]; by simpl in Hm.
Qed.

Lemma run_not_of (s : Z) (st : ChatServer) (msgs : list server_msg) :
  Forall (not_of s) msgs ->
  let '(st', o) := run (serve iter) st msgs in
  same_session s st st' /\ Forall (fun e => ~ presence_of s e) o.
Proof.
  intros Hm. revert st. induction Hm as [|m msgs Hu _ IH]; intros st; [done |]. simpl.
  pose proof (serve_same_session s st m Hu) as H1. pose proof (not_of_silent s st m Hu) as H2.
  destruct (serve iter st m) as [st1 e1]. specialize (IH st1).
  destruct (run (serve iter) st1 msgs) as [st2 o]. destruct IH as [H3 H4]. split.
  - by eapply same_session_trans.
  - by apply Forall_app.
Qed.

(** A new session connects, perhaps, and waits to join. *)
Definition only_connects (s : Z) (m : server_msg) : Prop :=
  not_of s m \/ exists addr, m = MConnect s addr.

Lemma run_only_connects (s : Z) (st : ChatServer) (msgs : list server_msg) :
  Forall (only_connects s) msgs -> s ∉ active_subs st ->
  is_Some (sessions st !! s) \/ (exists addr, MConnect s addr ∈ msgs) ->
  let '(st', o) := run (serve iter) st msgs in
  is_Some (sessions st' !! s) /\ s ∉ active_subs st' /\ Forall (fun e => ~ presence_of s e) o.
Proof.
  intros Hm. revert st. induction Hm as [|m msgs Hu _ IH]; intros st Ha Hs; simpl.
  - destruct Hs as [Hs|(addr & Hs)]; [done | by apply not_elem_of_nil in Hs].
  - assert (s ∉ active_subs (serve iter st m).1 /\
      (is_Some (sessions (serve iter st m).1 !! s) \/ exists addr, MConnect s addr ∈ msgs) /\
      Forall (fun e => ~ presence_of s e) (serve iter st m).2) as (H1 & H2 & H3).
    { destruct Hu as [Hu|(addr & ->)]; [|simpl; rewrite lookup_insert_eq; eauto].
      destruct (serve_same_session s st m Hu) as (E1 & _ & E3 & _).
      split_and!; [tauto | | by apply not_of_silent]. rewrite E1.
      destruct Hs as [Hs|(addr & Hs)]; [auto |]. right. exists addr.
      apply elem_of_cons in Hs as [<-|Hs]; [|done]. done. }
    destruct (serve iter st m) as [st1 e1]. specialize (IH st1 H1 H2).
    destruct (run (serve iter) st1 msgs) as [st2 o]. destruct IH as (IH1 & IH2 & IH3).
    split_and!; [done | done |]. by apply Forall_app.
Qed.

Lemma disconnect_silent (d : Disconnect) (h x : Z) (st : ChatServer) :
  dc_observer d = false -> Forall (fun e => ~ presence_of x e) (handle_disconnect d h st).2.
Proof.
  intros Ho. unfold handle_disconnect. rewrite Ho. unfold stop_task.
  case_bool_decide; simpl; destruct (pending_departures st !! _); repeat constructor;
    by apply other_not_presence.
Qed.

Lemma suppressed_activation_silent (s : Z) (st : ChatServer) :
  s ∈ suppress_join_broadcast st -> (handle_activate iter s st).2 = [].
Proof.
  intros Hs. unfold handle_activate. simpl. rewrite (bool_decide_true (s ∈ _)) by done.
  by rewrite andb_false_r.
Qed.

Lemma run_outdated (key : string * string) (s : Z) (msgs : list server_msg) (st : ChatServer) :
  outdated key s st -> Forall (not_of s) msgs -> outdated key s (run (serve iter) st msgs).1.
Proof.
  intros Ho Hm. revert st Ho. induction Hm as [|m msgs Hu _ IH]; intros st Ho; [done |]. simpl.
  pose proof (serve_outdated key s st m Ho Hu) as H1. destruct (serve iter st m) as [st1 e1].
  specialize (IH st1 H1). by destruct (run (serve iter) st1 msgs).
Qed.

(** C2: a reconnection within the grace period is silent. A participant
    disconnects, and the same user joins the same room with a new session, which
    connected before or after the disconnection, before the departure's timer
    fires. Whatever other sessions do before the join (as long as no other
    connection of the user ended the wait first), between the join and the
    activation of the new session, and between the activation and the stale timer:
    the disconnection, the join, the activation and the timer announce nothing, the
    others announce neither the old nor the new session, the timer is cancelled,
    does nothing if it fires all the same, and the new session is a member of the
    room. *)
Theorem reconnection_is_silent (st : ChatServer) (d : Disconnect) (j : JoinRoom) (h now : Z)
    (others1 others2 others3 : list server_msg) :
  dc_observer d = false -> jr_observer j = false ->
  jr_room j = dc_room d -> jr_user_id j = dc_user_id d -> jr_user_id j <> SYSTEM_USER_ID ->
  jr_session j <> dc_session d -> jr_session j ∉ active_subs st ->
  is_Some (sessions st !! jr_session j) \/ (exists addr, MConnect (jr_session j) addr ∈ others1) ->
  Forall (not_of (dc_session d)) (others1 ++ others2 ++ others3) ->
  Forall (only_connects (jr_session j)) others1 ->
  Forall (not_of (jr_session j)) (others2 ++ others3) ->
  superseded (dc_room d, dc_user_id d) (serve iter st (MDisconnect d h)).1 others1 = false ->
  let '(st1, e1) := serve iter st (MDisconnect d h) in
  let '(st2, o2) := run (serve iter) st1 others1 in
  let '(st3, e3) := serve iter st2 (MJoin j now) in
  let '(st4, o4) := run (serve iter) st3 others2 in
  let '(st5, e5) := serve iter st4 (MActivate (jr_session j)) in
  let '(st6, o6) := run (serve iter) st5 others3 in
  let '(st7, e7) := serve iter st6 (MExecute (departure_of d)) in
  Forall (fun e => forall x, ~ presence_of x e) (e1 ++ e3 ++ e5 ++ e7) /\
  Forall (fun e => ~ presence_of (dc_session d) e /\ ~ presence_of (jr_session j) e) (o2 ++ o4 ++ o6) /\
  CancelTimer h ∈ e3 /\ st7 = st6 /\
  (jr_session j, jr_user_id j, jr_display_name j) ∈ members_of (jr_room j) st3.
Proof.
  intros Ho Hjo Hr Hu Hsys Hne Ha Hs Hold Hcon Hnew Hsup.
  apply Forall_app in Hold as [Ho1 Hold]. apply Forall_app in Hold as [Ho2 Ho3].
  apply Forall_app in Hnew as [Hn2 Hn3].
  pose proof (disconnect_state d h st Ho) as (P1 & C1 & A1 & S1).
  destruct (S1 (jr_session j) Hne) as [S1' A1'].
  pose proof (fun x => disconnect_silent d h x st Ho) as Hp1. simpl in *.
  destruct (handle_disconnect d h st) as [st1 e1]. simpl in *. rewrite <- S1' in Hs.
  pose proof (run_only_connects _ st1 _ Hcon ltac:(tauto) Hs) as H2.
  pose proof (run_not_of _ st1 _ Ho1) as H2o.
  pose proof (run_waiting _ (mkPending h (dc_session d) (is_active (dc_session d) st)) _ st1
    (conj P1 (conj C1 A1)) Ho1) as Hw. rewrite Hsup in Hw.
  destruct (run (serve iter) st1 others1) as [st2 o2]. simpl in Hw.
  destruct H2 as ([addr S2] & A2 & Q2), H2o as [_ Q2o], Hw as (P2 & _ & _).
  pose proof (rejoin_state j now addr _ st2 Hsys A2 ltac:(rewrite Hr, Hu; exact P2) S2) as H3.
  pose proof (fun x => join_presence x now j st2) as Hp3.
  destruct (handle_join now j st2) as [[st3 e3] r]. simpl in *. destruct H3 as (_ & P3 & B3 & Hc & Hm).
  pose proof (run_not_of _ st3 _ Hn2) as H4. pose proof (run_not_of _ st3 _ Ho2) as H4o.
  assert (outdated (dc_room d, dc_user_id d) (dc_session d) st3) as P3'.
  { intros p. rewrite Hr, Hu in P3. by rewrite P3. }
  pose proof (run_outdated _ _ _ st3 P3' Ho2) as P4.
  destruct (run (serve iter) st3 others2) as [st4 o4]. destruct H4 as [(_ & _ & _ & B4) Q4], H4o as [_ Q4o].
  pose proof (suppressed_activation_silent (jr_session j) st4 ltac:(tauto)) as He5.
  pose proof (serve_outdated _ _ st4 (MActivate (jr_session j)) P4 Hne) as P5. simpl in P5.
  destruct (handle_activate iter (jr_session j) st4) as [st5 e5]. simpl in *. subst e5.
  pose proof (run_not_of _ st5 _ Hn3) as H6. pose proof (run_not_of _ st5 _ Ho3) as H6o.
  pose proof (run_outdated _ _ _ st5 P5 Ho3) as P6.
  destruct (run (serve iter) st5 others3) as [st6 o6]. destruct H6 as [_ Q6], H6o as [_ Q6o].
  rewrite (execute_outdated d st6 P6), !app_nil_r. split_and!; [| |done | done | by apply Hm].
  - apply Forall_app; split; apply Forall_forall; intros e He x;
      [by apply (Forall_elem _ _ _ (Hp1 x) He) | by apply (Forall_elem _ _ _ (Hp3 x) He)].
  - apply Forall_and. rewrite !Forall_app. done.
Qed.

End Silence.
End Departures.

(** ** Forged events *)

(** C39: a participant can speak as the system. A meeting event (a departure of
    anybody, the end of the meeting) that a client wraps with the system's identity
    is classified as data, forwarded by its session and published by the server,
    and the room reads it as the event the client wrote. *)
Theorem forged_meeting_is_published {wire : Wire} {laws : WireLaws} {total : WireTotal}
    (now : Z) (s : SessionLogic) (st : ChatServer) (m : MeetingPacket) :
  sl_observer s = false -> connection_states st !! sl_id s = Some Active ->
  (handle_inbound now (meeting_wrapper m) s).1.2 = Forward (meeting_wrapper m) /\
  exists payload,
    handle_client_message (create_client_message (meeting_wrapper m) s) st =
      [Publish (session_subject (sl_room s) (sl_id s)) payload] /\
    read_meeting payload = Some m.
Proof.
  intros Ho Ha. destruct (write_meeting_total m) as [mb Hm].
  set (w := mkPacketWrapper MEETING (to_user_id_bytes SYSTEM_USER_ID) mb 0).
  destruct (write_wrapper_total w) as [b Hb].
  assert (meeting_wrapper m = b) as Eb.
  { unfold meeting_wrapper, meeting_bytes, wrapper_bytes. rewrite Hm. simpl. fold w. by rewrite Hb. }
  pose proof (parse_write_wrapper w b Hb) as Hp. rewrite Eb. split.
  - unfold handle_inbound, classify_packet. rewrite Hp. simpl. by rewrite Ho.
  - unfold handle_client_message, stamp_session. simpl. rewrite Ha. simpl. rewrite Hp. simpl.
    set (w' := mkPacketWrapper MEETING _ mb (sl_id s)).
    destruct (write_wrapper_total w') as [b' Hb']. rewrite Hb'. simpl.
    exists b'. split; [done |]. unfold read_meeting. rewrite (parse_write_wrapper w' b' Hb').
    apply (parse_write_meeting m mb Hm).
Qed.

(** ** Concrete runs *)

Lemma demo_total : WireTotal (wire := demo_wire).
Proof. split; intros; by eexists. Qed.

#[local] Existing Instance demo_wire.
#[local] Existing Instance demo_laws.
#[local] Existing Instance demo_total.

(** The joins and departures a list of effects announces, in order. *)
Definition announcements {wire : Wire} (effects : list server_effect) : list (Z * Z) :=
  omap (fun e => match e with
                 | Publish _ payload =>
                     m ← read_meeting payload;
                     if (event_type m =? PARTICIPANT_JOINED) || (event_type m =? PARTICIPANT_LEFT)
                     then Some (event_type m, mt_session_id m) else None
                 | _ => None
                 end) effects.

Definition demo_run (msgs : list server_msg) : ChatServer * list server_effect :=
  run (serve map_to_list) server_new msgs.

Definition joins (s : Z) (user : string) (obs : bool) : server_msg :=
  MJoin (mkJoinRoom s "standup" user user obs) 1000.
Definition drops (s : Z) (user : string) (obs : bool) (h : Z) : server_msg :=
  MDisconnect (mkDisconnect s "standup" user user obs) h.
Definition fires (s : Z) (user : string) : server_msg :=
  MExecute (mkExecute s "standup" user user).

(** An election: sessions 1 and 2 of one user, 1 is elected. *)
Definition election : list server_msg :=
  [MConnect 1 101; MConnect 2 102; joins 1 "alice" false; joins 2 "alice" false; MActivate 1].


Lemma observer_never_announced_witness :
  let '(st, effects) := demo_run [MConnect 1 101; joins 1 "bob" true; MActivate 1; drops 1 "bob" true 7] in
  Forall (fun e => ~ presence_of 1 e) effects /\
  forall room m, m ∈ members_of room st -> m.1.1 <> 1.
Proof.
  apply (observer_never_announced  map_to_list 1); [intros m; reflexivity | repeat constructor].
Defined.

Lemma system_user_never_member_witness :
  (1, "alice", "alice")%string ∈ members_of "standup" (demo_run election).1 /\
  "alice"%string <> SYSTEM_USER_ID.
Proof.
  assert ((1, "alice", "alice")%string ∈ members_of "standup" (demo_run election).1) as H
    by (vm_compute; left).
  split; [exact H |].
  exact (system_user_never_member map_to_list election "standup" _ H).
Defined.

Definition alice_leaves : Disconnect := mkDisconnect 1 "standup" "alice" "alice" false.
Definition alice_returns : JoinRoom := mkJoinRoom 3 "standup" "alice" "alice" false.

(** Another user comes meanwhile. *)
Definition bob_arrives : list server_msg := [MConnect 8 108; joins 8 "bob" false; MActivate 8].

Definition active_alice : ChatServer :=
  (demo_run [MConnect 1 101; joins 1 "alice" false; MActivate 1]).1.

Lemma departure_announced_once_witness :
  let '(st1, _) := serve map_to_list active_alice (MDisconnect alice_leaves 7) in
  let st2 := (run (serve map_to_list) st1 bob_arrives).1 in
  announcements
    (serve map_to_list st2 (MExecute (departure_of alice_leaves))).2 =
    [(PARTICIPANT_LEFT, 1)].
Proof.
  pose proof (departure_announced_once map_to_list active_alice alice_leaves 7
    bob_arrives eq_refl ltac:(vm_compute; reflexivity) ltac:(repeat constructor; discriminate)) as H.
  assert (superseded map_to_list ("standup", "alice")%string
    (serve map_to_list active_alice (MDisconnect alice_leaves 7)).1 bob_arrives = false) as E
    by (vm_compute; reflexivity).
  destruct (serve map_to_list active_alice (MDisconnect alice_leaves 7)) as [st1 e1].
  cbv zeta in H |- *. cbn [fst] in E. cbn [dc_room dc_user_id alice_leaves] in H. rewrite E in H.
  destruct (serve map_to_list (run (serve map_to_list) st1 bob_arrives).1 _) as [st3 e3].
  destruct H as (_ & [-> _] & _). vm_compute. reflexivity.
Defined.

(** Alice's connection drops, bob arrives, she connects again and joins. *)
Definition alice_reconnects : list server_msg := bob_arrives ++ [MConnect 3 103].

Lemma reconnection_is_silent_witness :
  let '(st1, e1) := serve map_to_list active_alice (MDisconnect alice_leaves 7) in
  let '(st2, _) := run (serve map_to_list) st1 alice_reconnects in
  let '(st3, e3) := serve map_to_list st2 (MJoin alice_returns 5) in
  let '(st5, e5) := serve map_to_list st3 (MActivate 3) in
  let '(st7, e7) := serve map_to_list st5 (MExecute (departure_of alice_leaves)) in
  Forall (fun e => forall x, ~ presence_of x e) (e1 ++ e3 ++ e5 ++ e7) /\
  CancelTimer 7 ∈ e3.
Proof.
  pose proof (reconnection_is_silent map_to_list active_alice alice_leaves alice_returns 7 5
    alice_reconnects [] [] eq_refl eq_refl eq_refl eq_refl ltac:(discriminate) ltac:(discriminate)
    ltac:(apply (bool_decide_eq_false_1 _); vm_compute; reflexivity)
    ltac:(right; exists 103; simpl; set_solver)
    ltac:(repeat constructor; discriminate)
    ltac:(repeat (first [constructor; [first [right; eexists; reflexivity | left; first [discriminate | exact I]] |]
                        | constructor]))
    ltac:(constructor) ltac:(vm_compute; reflexivity)) as H.
  destruct (serve map_to_list active_alice (MDisconnect alice_leaves 7)) as [st1 e1].
  destruct (run (serve map_to_list) st1 alice_reconnects) as [st2 o2].
  destruct (serve map_to_list st2 (MJoin alice_returns 5)) as [st3 e3].
  cbn [run jr_session alice_returns] in H.
  destruct (serve map_to_list st3 (MActivate 3)) as [st5 e5].
  destruct (serve map_to_list st5 _) as [st7 e7].
  destruct H as (H1 & _ & H2 & _). by split.
Defined.

(** ** Departures and joins that are lost *)

(** A departure can be lost to an election loser. The elected session 1 of a
    user was announced; it disconnects, and then the never-activated session 2 of
    the same user disconnects: its pending departure replaces the first one, both
    timers fire and no departure is ever announced, while session 1 stays listed
    in its room for good. *)
Theorem election_loser_hides_departure :
  let '(st, effects) := demo_run (election ++
    [drops 1 "alice" false 7; drops 2 "alice" false 8; fires 1 "alice"; fires 2 "alice"]) in
  announcements effects = [(PARTICIPANT_JOINED, 1)] /\
  pending_departures st = ∅ /\ connection_states st = ∅ /\
  members_of "standup" st = [(1, "alice", "alice")]%string.
Proof. vm_compute. repeat split. Qed.

(** A join can be lost to a failed attempt. A user's first connection is
    dropped before it is activated, hence never announced; the second one, within
    the grace period, counts as a reconnection and its activation is not announced
    either: the user is an active member nobody heard of. *)
Theorem failed_attempt_hides_join :
  let '(st, effects) := demo_run
    [MConnect 1 101; joins 1 "alice" false; drops 1 "alice" false 7;
     MConnect 2 102; joins 2 "alice" false; MActivate 2] in
  announcements effects = [] /\
  connection_states st !! 2 = Some Active /\
  members_of "standup" st = [(2, "alice", "alice")]%string.
Proof. vm_compute. repeat split. Qed.

(** A participant that comes back as an observer never leaves: the observer's
    join cancels the pending departure, so the departure is not announced although
    no session of the user is a member of the room any more. *)
Theorem observer_join_hides_departure :
  let '(st, effects) := demo_run
    [MConnect 1 101; joins 1 "alice" false; MActivate 1; drops 1 "alice" false 7;
     MConnect 2 102; joins 2 "alice" true; fires 1 "alice"] in
  announcements effects = [(PARTICIPANT_JOINED, 1)] /\
  pending_departures st = ∅ /\ members_of "standup" st = [].
Proof. vm_compute. repeat split. Qed.

(** The second of two connections with which a user comes back is a stranger:
    alice's connection drops, her client opens connections 3 and 4, both join
    within the grace period, and 4 is elected. The first join consumed the
    departure, so the activation of 4 announces that she joined, although the room
    never heard that she left. *)
Theorem second_rejoin_is_announced :
  let '(st, effects) := demo_run
    [MConnect 1 101; joins 1 "alice" false; MActivate 1; drops 1 "alice" false 7;
     MConnect 3 103; MConnect 4 104; joins 3 "alice" false; joins 4 "alice" false;
     MActivate 4; fires 1 "alice"] in
  announcements effects = [(PARTICIPANT_JOINED, 1); (PARTICIPANT_JOINED, 4)] /\
  pending_departures st = ∅.
Proof. vm_compute. repeat split. Qed.

(** Mallory, an active participant, ends the meeting for everybody. *)
Lemma forged_meeting_witness :
  exists payload,
    handle_client_message (create_client_message
      (build_meeting_ended_packet "standup" "bye") (session_new 1 "standup" "mallory" "M" false 0))
      active_alice = [Publish "room.standup.1" payload] /\
    option_map event_type (read_meeting payload) = Some MEETING_ENDED.
Proof.
  destruct (forged_meeting_is_published 0 (session_new 1 "standup" "mallory" "M" false 0) active_alice
    (meeting_default <| event_type := MEETING_ENDED |> <| mt_room_id := "standup"%string |>
       <| mt_message := "bye"%string |>)) as (_ & p & H1 & H2);
    [reflexivity | vm_compute; reflexivity |].
  exists p. rewrite H2. split; [exact H1 | reflexivity].
Defined.
