(* ===== verification/Transport.v ===== *)
(** * Transport sessions of the media server

    actix-api/src/lobby.rs and webtransport/mod.rs (how a connection is accepted),
    actors/transports/ws_chat_session.rs and wt_chat_session.rs (the two actors around
    [SessionLogic]).

    A session reacts to events: replies of the chat server while it starts, frames of its
    client, messages of the chat server, ticks of its timer. Until the replies to its
    first messages are there the actor handles nothing else ([ctx.wait]); they are
    awaited as a set, since their order does not matter. After [ctx.stop()] the context
    calls [stopping] and the actor is gone. A packet that an actor sends itself
    ([ctx.notify]) waits in [ts_notified], and waiting packets are taken in any order. *)
From Stdlib Require Import Ascii.
From S2P Require Import Prelude Protocol TokenValidator SessionLogic ChatServer.

(** ** Accepting a connection *)

(** Whom a connection is for. *)
Record Identity : Type := mkIdentity {
  id_user : string;
  id_room : string;
  id_display_name : string;
  id_observer : bool;
}.

Definition claims_identity (c : RoomAccessTokenClaims) : Identity :=
  mkIdentity (sub c) (tc_room c) (tc_display_name c) (tc_observer c).

Inductive WsRefusal : Type :=
| InternalServerError (body : string)
| Unauthorized (e : TokenError)
| Forbidden (e : TokenError)
| Gone (body : string)
| BadRequest (body : string).

(** The deprecated endpoints of both transports: never an observer. *)
Definition path_identity (user_id room : string) : option Identity :=
  let user_id := replace_spaces user_id in
  let room := replace_spaces room in
  if valid_id user_id && valid_id room then Some (mkIdentity user_id room user_id false) else None.

Section Accept.
Context (jwt_decode : string -> string -> result RoomAccessTokenClaims JwtError).
(** The environment variable [JWT_SECRET], empty when unset, and the feature flag. *)
Context (jwt_secret : string) (meeting_management_enabled : bool).

Definition ws_connect_authenticated (token : string) : result Identity WsRefusal :=
  if bool_decide (jwt_secret = EmptyString) then Err (InternalServerError "Server misconfigured")
  else
    match decode_room_token jwt_decode jwt_secret token with
    | Ok claims => Ok (claims_identity claims)
    | Err e => Err (if is_retryable e then Unauthorized e else Forbidden e)
    end.

Definition ws_connect (user_id room : string) : result Identity WsRefusal :=
  if meeting_management_enabled
  then Err (Gone "This endpoint is deprecated. Use GET /lobby?token=<JWT> instead.")
  else match path_identity user_id room with
       | Some id => Ok id
       | None => Err (BadRequest "Invalid user_id or room format")
       end.

Inductive WtRefusal : Type :=
| InvalidPath
| SecretNotSet
| TokenRefused (e : TokenError)
| PathLength
| InvalidPathChars
| TokenRequired.

(** The decoded path, split at slashes, and the first [token] parameter of the query. *)
Definition webtransport_identity (path : list string) (token : option string) : result Identity WtRefusal :=
  let parts := filter (fun s => s <> EmptyString) path in
  if bool_decide (head parts <> Some "lobby"%string) then Err InvalidPath
  else
    match token with
    | Some tok =>
        if bool_decide (jwt_secret = EmptyString) then Err SecretNotSet
        else match decode_room_token jwt_decode jwt_secret tok with
             | Ok claims => Ok (claims_identity claims)
             | Err e => Err (TokenRefused e)
             end
    | None =>
        if negb meeting_management_enabled then
          match parts with
          | [_; username; lobby_id] =>
              match path_identity username lobby_id with
              | Some id => Ok id
              | None => Err InvalidPathChars
              end
          | _ => Err PathLength
          end
        else Err TokenRequired
    end.
End Accept.

(** ** Sessions *)

Definition HEARTBEAT_INTERVAL : Z := from_secs 5.
Definition WT_HEARTBEAT_INTERVAL : Z := from_secs 5.
Definition CLIENT_TIMEOUT : Z := from_secs 30.
Definition DATAGRAM_MAX_SIZE : nat := 1200.
Definition KEEP_ALIVE_PING : bytes := as_bytes "ping".

Inductive WtInboundSource : Type := SrcUniStream | SrcDatagram.

#[export] Instance source_eq : EqDecision WtInboundSource.
Proof. solve_decision. Defined.

Inductive WtOutbound : Type := UniStream (data : bytes) | Datagram (data : bytes).

(** What [try_send] on the channel to the writer task finds. *)
Inductive ChannelState : Type := HasRoom | Full | Closed.

Inductive WtSendResult : Type := WtSent | WtDropped | WtDead.

(** The replies a starting actor awaits. *)
Inductive awaited : Type := AwaitSession | AwaitConnect | AwaitJoin.

#[export] Instance awaited_eq : EqDecision awaited.
Proof. solve_decision. Defined.

(** [Alive w] still awaits [w]. *)
Inductive Phase : Type := Alive (w : list awaited) | Stopped.

Record TransportSession : Type := mkTransport {
  ts_logic : SessionLogic;
  ts_heartbeat : Z;
  ts_activated : bool;
  ts_phase : Phase;
  ts_notified : list bytes;
}.

#[export] Instance eta_TransportSession : Eta TransportSession := fun s =>
  mkTransport (ts_logic s) (ts_heartbeat s) (ts_activated s) (ts_phase s) (ts_notified s).

(** Messages to the chat server. *)
Inductive to_server : Type :=
| SConnect (session : Z)
| SJoin (m : JoinRoom)
| SActivate (session : Z)
| SClient (m : ClientMessage)
| SDisconnect (m : Disconnect).

Inductive transport_effect : Type :=
| ToServer (m : to_server)
| Session (e : session_effect)
| WsBinary (data : bytes)
| WsPing
| WsPong (data : bytes)
| WsClose
| Outbound (m : WtOutbound)
| ConnectionStarted (transport : string)
| ConnectionEnded.

Definition session_of (uuid now : Z) (id : Identity) : TransportSession :=
  mkTransport (session_new uuid (id_room id) (id_user id) (id_display_name id) (id_observer id) now)
    now false (Alive [AwaitSession; AwaitConnect; AwaitJoin]) [].

(** [started]: both messages are in the chat server's mailbox when it returns. *)
Definition session_started (transport : string) (s : TransportSession) : list transport_effect :=
  [ConnectionStarted transport; ToServer (SConnect (sl_id (ts_logic s)));
   ToServer (SJoin (create_join_room_message (ts_logic s)))].

(** [ctx.stop()], then [stopping]. *)
Definition session_stop (s : TransportSession) : TransportSession * list transport_effect :=
  (s <| ts_phase := Stopped |> <| ts_notified := [] |>,
   [ConnectionEnded; ToServer (SDisconnect (stopping_message (ts_logic s)))]).

Definition running (s : TransportSession) : bool :=
  match ts_phase s with Alive [] => true | _ => false end.

(** Is the reply [a] awaited? Then it is not any more. *)
Definition await_done (a : awaited) (s : TransportSession) : option TransportSession :=
  match ts_phase s with
  | Alive w =>
      if decide (a ∈ w) then Some (s <| ts_phase := Alive (filter (fun b => b <> a) w) |>) else None
  | Stopped => None
  end.

Section Actors.
Context {wire : Wire}.

(** The reply to [JoinRoom], and to [Connect]; [Err tt] is a failed mailbox. *)
Definition on_join_reply (r : result (result unit string) unit) (s : TransportSession)
    : TransportSession * list transport_effect :=
  match await_done AwaitJoin s with
  | Some s => if handle_join_room_result r then session_stop s else (s, [])
  | None => (s, [])
  end.

Definition on_connect_reply (r : result unit unit) (s : TransportSession)
    : TransportSession * list transport_effect :=
  match await_done AwaitConnect s with
  | Some s => match r with Ok _ => (s, []) | Err _ => session_stop s end
  | None => (s, [])
  end.

(** [ActivateConnection] on the first frame that is not an RTT probe. *)
Definition activate_on (action : InboundAction) (s : TransportSession)
    : TransportSession * list transport_effect :=
  if negb (ts_activated s) && should_activate_on_action action
  then (s <| ts_activated := true |>, [ToServer (SActivate (sl_id (ts_logic s)))])
  else (s, []).

(** [ctx.notify(Packet)], and the handler of [Packet]. *)
Definition notify_self (data : bytes) (s : TransportSession) : TransportSession :=
  s <| ts_notified := ts_notified s ++ [data] |>.

Definition on_packet (i : nat) (s : TransportSession) : TransportSession * list transport_effect :=
  match running s, ts_notified s !! i with
  | true, Some data =>
      (s <| ts_notified := delete i (ts_notified s) |>,
       [ToServer (SClient (create_client_message data (ts_logic s)))])
  | _, _ => (s, [])
  end.

(** ** WebSocket *)

Definition REJECTED : string := "Session rejected: Cannot use reserved system user ID".

Definition ws_session_reply (now_ms : Z) (s : TransportSession) : TransportSession * list transport_effect :=
  match await_done AwaitSession s with
  | None => (s, [])
  | Some s =>
      match start_session now_ms (sl_room (ts_logic s)) (sl_user_id (ts_logic s)) (sl_id (ts_logic s)) with
      | Ok r => (s, [WsBinary (build_session_assigned (ts_logic s));
                     WsBinary (build_meeting_started (start_time_ms r) (creator_id r) (ts_logic s))])
      | Err _ =>
          let '(s, stop) := session_stop s in
          (s, [WsBinary (build_meeting_ended REJECTED (ts_logic s)); WsClose] ++ stop)
      end
  end.

Definition ws_tick (now : Z) (s : TransportSession) : TransportSession * list transport_effect :=
  if negb (running s) then (s, [])
  else if CLIENT_TIMEOUT <? duration_since now (ts_heartbeat s) then session_stop s
  else (s, [WsPing]).

Definition ws_message (msg : bytes) (s : TransportSession) : TransportSession * list transport_effect :=
  if negb (running s) then (s, [])
  else
    let '(b, effects) := handle_outbound msg (ts_logic s) in
    (s, (Session <$> effects) ++ [WsBinary b]).

Inductive WsFrame : Type :=
| FBinary (data : bytes)
| FPing (data : bytes)
| FPong
| FText
| FClose
| FOther
| FProtocolError
| FFinished.

Definition ws_frame (now : Z) (f : WsFrame) (s : TransportSession) : TransportSession * list transport_effect :=
  if negb (running s) then (s, [])
  else
    match f with
    | FBinary data =>
        let s := s <| ts_heartbeat := now |> in
        let '(logic, action, effects) := handle_inbound now data (ts_logic s) in
        let '(s, activate) := activate_on action (s <| ts_logic := logic |>) in
        match action with
        | Echo b => (s, (Session <$> effects) ++ activate ++ [WsBinary b])
        | Forward b => (notify_self b s, (Session <$> effects) ++ activate)
        | Processed | KeepAlive => (s, (Session <$> effects) ++ activate)
        end
    | FPing data => (s <| ts_heartbeat := now |>, [WsPong data])
    | FPong | FText => (s <| ts_heartbeat := now |>, [])
    | FClose => let '(s, stop) := session_stop s in (s, WsClose :: stop)
    | FProtocolError | FFinished => session_stop s
    | FOther => (s, [])
    end.

(** ** WebTransport *)

(** [send]: whether the channel is still open, and what went in. *)
Definition wt_send (chan : ChannelState) (data : bytes) : bool * list transport_effect :=
  match chan with
  | HasRoom => (true, [Outbound (UniStream data)])
  | Closed => (false, [])
  | Full => (true, [])
  end.

Definition send_auto (chan : ChannelState) (data : bytes) (is_media : bool) : WtSendResult * list transport_effect :=
  let outbound := if negb is_media && (length data <=? DATAGRAM_MAX_SIZE)%nat then Datagram data else UniStream data in
  match chan with
  | HasRoom => (WtSent, [Outbound outbound])
  | Closed => (WtDead, [])
  | Full => (WtDropped, [])
  end.

Definition wt_session_reply (now_ms : Z) (chan1 chan2 : ChannelState) (s : TransportSession)
    : TransportSession * list transport_effect :=
  match await_done AwaitSession s with
  | None => (s, [])
  | Some s =>
      match start_session now_ms (sl_room (ts_logic s)) (sl_user_id (ts_logic s)) (sl_id (ts_logic s)) with
      | Ok r => (s, (wt_send chan1 (build_session_assigned (ts_logic s))).2 ++
                    (wt_send chan2 (build_meeting_started (start_time_ms r) (creator_id r) (ts_logic s))).2)
      | Err _ =>
          let '(s, stop) := session_stop s in
          (s, (wt_send chan1 (build_meeting_ended REJECTED (ts_logic s))).2 ++ stop)
      end
  end.

Definition wt_tick (now : Z) (closed : bool) (s : TransportSession) : TransportSession * list transport_effect :=
  if negb (running s) then (s, [])
  else if closed then session_stop s
  else if CLIENT_TIMEOUT <? duration_since now (ts_heartbeat s) then session_stop s
  else (s, []).

Definition wt_message (now : Z) (chan : ChannelState) (msg : bytes) (s : TransportSession)
    : TransportSession * list transport_effect :=
  if negb (running s) then (s, [])
  else
    let '(b, effects) := handle_outbound msg (ts_logic s) in
    let parsed := parse_wrapper msg in
    let sender_session_id := from_option pw_session_id 0 parsed in
    let is_media := from_option (fun w => packet_type w =? MEDIA) false parsed in
    let '(sent, out) := send_auto chan b is_media in
    match sent with
    | WtSent => (s, (Session <$> effects) ++ out)
    | WtDead => let '(s, stop) := session_stop s in (s, (Session <$> effects) ++ out ++ stop)
    | WtDropped =>
        if negb (sender_session_id =? 0) then
          let '(logic, drop) := on_outbound_drop now sender_session_id (ts_logic s) in
          (s <| ts_logic := logic |>, (Session <$> effects) ++ out ++ (Session <$> drop))
        else (s, (Session <$> effects) ++ out)
    end.

Definition wt_inbound (now : Z) (chan : ChannelState) (data : bytes) (source : WtInboundSource)
    (s : TransportSession) : TransportSession * list transport_effect :=
  if negb (running s) then (s, [])
  else
    let s := s <| ts_heartbeat := now |> in
    if bool_decide (source = SrcDatagram) && bool_decide (data = KEEP_ALIVE_PING) then (s, [])
    else
      let '(logic, action, effects) := handle_inbound now data (ts_logic s) in
      let '(s, activate) := activate_on action (s <| ts_logic := logic |>) in
      match action with
      | Echo b =>
          let outbound := match source with SrcUniStream => UniStream b | SrcDatagram => Datagram b end in
          match chan with
          | HasRoom => (s, (Session <$> effects) ++ activate ++ [Outbound outbound])
          | Closed => let '(s, stop) := session_stop s in (s, (Session <$> effects) ++ activate ++ stop)
          | Full => (s, (Session <$> effects) ++ activate)
          end
      | Forward b => (notify_self b s, (Session <$> effects) ++ activate)
      | Processed | KeepAlive => (s, (Session <$> effects) ++ activate)
      end.

(** [StopSession], sent when the tasks of the bridge have ended. *)
Definition wt_stop (s : TransportSession) : TransportSession * list transport_effect :=
  if negb (running s) then (s, []) else session_stop s.

(** ** Either transport *)

Inductive Transport : Type := WebSocket | WebTransport.

Inductive session_event : Type :=
| JoinReply (r : result (result unit string) unit)
| ConnectReply (r : result unit unit)
| SessionReply (now_ms : Z) (chan1 chan2 : ChannelState)
| Tick (now : Z) (closed : bool)
| ServerMessage (now : Z) (chan : ChannelState) (msg : bytes)
| Frame (now : Z) (f : WsFrame)
| Inbound (now : Z) (chan : ChannelState) (data : bytes) (source : WtInboundSource)
| PacketTurn (i : nat)
| StopSession.

Definition session_step (t : Transport) (s : TransportSession) (ev : session_event)
    : TransportSession * list transport_effect :=
  match ev, t with
  | JoinReply r, _ => on_join_reply r s
  | ConnectReply r, _ => on_connect_reply r s
  | PacketTurn i, _ => on_packet i s
  | SessionReply now_ms _ _, WebSocket => ws_session_reply now_ms s
  | SessionReply now_ms chan1 chan2, WebTransport => wt_session_reply now_ms chan1 chan2 s
  | Tick now _, WebSocket => ws_tick now s
  | Tick now closed, WebTransport => wt_tick now closed s
  | ServerMessage _ _ msg, WebSocket => ws_message msg s
  | ServerMessage now chan msg, WebTransport => wt_message now chan msg s
  | Frame now f, WebSocket => ws_frame now f s
  | Inbound now chan data source, WebTransport => wt_inbound now chan data source s
  | StopSession, WebTransport => wt_stop s
  | _, _ => (s, [])
  end.
End Actors.
