(* ===== verification/TransportProps.v ===== *)
(** * What one step of a transport session does

    [session_step_facts] describes every step of a session of either transport from
    outside: what it says to the chat server, publishes, keeps and sends its client. *)
From Stdlib Require Import Ascii.
From S2P Require Import Prelude Protocol SessionLogic ChatServer Transport.

(** The fields of a session that never change. *)
Definition identity_of (l : SessionLogic) : Identity :=
  mkIdentity (sl_user_id l) (sl_room l) (sl_display_name l) (sl_observer l).

Definition same_identity (l l' : SessionLogic) : Prop := sl_id l' = sl_id l /\ identity_of l' = identity_of l.

Definition join_of (id : Z) (who : Identity) : JoinRoom :=
  mkJoinRoom id (id_room who) (id_user who) (id_display_name who) (id_observer who).

Definition disconnect_of (id : Z) (who : Identity) : Disconnect :=
  mkDisconnect id (id_room who) (id_user who) (id_display_name who) (id_observer who).

Definition client_of (id : Z) (who : Identity) (data : bytes) : ClientMessage :=
  mkClientMessage id (id_user who) (id_room who) data.

Definition server_part (e : transport_effect) : option to_server :=
  match e with ToServer m => Some m | _ => None end.

Definition stopped (s : TransportSession) : bool := match ts_phase s with Stopped => true | _ => false end.

(** The frames a client gets. *)
Definition frame_of (e : transport_effect) : option bytes :=
  match e with
  | WsBinary b | Outbound (UniStream b) | Outbound (Datagram b) => Some b
  | _ => None
  end.

(** The frames a client sends. *)
Definition sent_data (ev : session_event) : option bytes :=
  match ev with
  | Frame _ (FBinary data) | Inbound _ _ data _ => Some data
  | _ => None
  end.

Section Sessions.
Context {wire : Wire}.

(** A packet the session logic forwards. *)
Definition forwardable (who : Identity) (data : bytes) : Prop :=
  id_observer who = false /\ forall w, parse_wrapper data = Some w -> packet_type w <> CONGESTION.

Lemma handle_inbound_spec now data l :
  let '(l', action, effects) := handle_inbound now data l in
  same_identity l l' /\ Forall (fun e => forall subject payload, e <> PublishNats subject payload) effects /\
  match action with
  | Echo b => b = data
  | Forward b => b = data /\ forwardable (identity_of l) data
  | _ => True
  end.
Proof.
  unfold handle_inbound, forwardable. destruct (classify_packet data) eqn:E;
    repeat (case_match; simplify_eq/=); (split; [split; unfold identity_of; simpl; congruence|]);
    (split; [by repeat constructor|]); try done; (split; [done|]; split; [done|]); intros w Hw Ht;
    unfold classify_packet in E; rewrite Hw, Ht in E; done.
Qed.

Lemma on_outbound_drop_spec now sid l :
  let '(l', effects) := on_outbound_drop now sid l in
  same_identity l l' /\
  Forall (fun e => forall subject payload, e = PublishNats subject payload ->
    subject = "room." +:+ replace_spaces (sl_room l) +:+ "." +:+ show_u64 sid /\
    write_wrapper (congestion_packet (sl_user_id l) sid) = Some payload) effects.
Proof.
  unfold on_outbound_drop, record_drop. destruct (drop_step _ _) as [st' notify]. destruct notify; simpl; [|by repeat constructor].
  destruct (write_wrapper _) as [b|] eqn:E; [|by repeat constructor].
  split; [by split|]. constructor; [|constructor]. intros subject payload [= <- <-]. done.
Qed.

(** The packets the session builds itself for its client. *)
Definition local_packet (id : Z) (who : Identity) (b : bytes) : Prop :=
  b = build_session_assigned_packet id \/
  (exists t, b = build_meeting_started_packet (id_room who) t (id_user who)) \/
  exists m, b = build_meeting_ended_packet (id_room who) m.

(** One step of a session, seen from outside. *)
Record session_facts (s s' : TransportSession) (ev : session_event) (effects : list transport_effect) : Prop := {
  sf_same : same_identity (ts_logic s) (ts_logic s');
  sf_said : exists clients,
    omap server_part effects =
      (if negb (ts_activated s) && ts_activated s' then [SActivate (sl_id (ts_logic s))] else []) ++
      ((fun data => SClient (client_of (sl_id (ts_logic s)) (identity_of (ts_logic s)) data)) <$> clients) ++
      (if negb (stopped s) && stopped s'
       then [SDisconnect (disconnect_of (sl_id (ts_logic s)) (identity_of (ts_logic s)))] else []) /\
    forall data, data ∈ clients -> data ∈ ts_notified s;
  sf_activated : ts_activated s = true -> ts_activated s' = true;
  sf_stopped : stopped s = true -> s' = s /\ effects = [];
  sf_notified : forall data, data ∈ ts_notified s' ->
    data ∈ ts_notified s \/
    (sent_data ev = Some data /\ forwardable (identity_of (ts_logic s)) data /\ ts_activated s' = true);
  sf_nats : forall subject payload, Session (PublishNats subject payload) ∈ effects ->
    exists sid, subject = "room." +:+ replace_spaces (sl_room (ts_logic s)) +:+ "." +:+ show_u64 sid /\
      write_wrapper (congestion_packet (sl_user_id (ts_logic s)) sid) = Some payload;
  sf_frames : forall e b, e ∈ effects -> frame_of e = Some b ->
    local_packet (sl_id (ts_logic s)) (identity_of (ts_logic s)) b \/ sent_data ev = Some b \/
    exists now chan, ev = ServerMessage now chan b;
}.

(** An effect that concerns nobody but the client and the diagnostics. *)
Definition plain_effect (s : TransportSession) (ev : session_event) (e : transport_effect) : Prop :=
  match e with
  | ToServer _ => False
  | Session (PublishNats subject payload) =>
      exists sid, subject = "room." +:+ replace_spaces (sl_room (ts_logic s)) +:+ "." +:+ show_u64 sid /\
        write_wrapper (congestion_packet (sl_user_id (ts_logic s)) sid) = Some payload
  | _ => forall b, frame_of e = Some b ->
      local_packet (sl_id (ts_logic s)) (identity_of (ts_logic s)) b \/ sent_data ev = Some b \/
      exists now chan, ev = ServerMessage now chan b
  end.

Lemma plain_said s ev l : Forall (plain_effect s ev) l -> omap server_part l = [].
Proof. induction 1 as [|e l He Hl IH]; [done|]. by destruct e. Qed.

Lemma plain_nats s ev l subject payload : Forall (plain_effect s ev) l -> Session (PublishNats subject payload) ∈ l ->
  exists sid, subject = "room." +:+ replace_spaces (sl_room (ts_logic s)) +:+ "." +:+ show_u64 sid /\
    write_wrapper (congestion_packet (sl_user_id (ts_logic s)) sid) = Some payload.
Proof. intros Hl Hin. exact (Forall_elem _ _ _ Hl Hin). Qed.

Lemma plain_frames s ev l e b : Forall (plain_effect s ev) l -> e ∈ l -> frame_of e = Some b ->
  local_packet (sl_id (ts_logic s)) (identity_of (ts_logic s)) b \/ sent_data ev = Some b \/
  exists now chan, ev = ServerMessage now chan b.
Proof.
  intros Hl Hin Hb. pose proof (Forall_elem _ _ _ Hl Hin) as H. destruct e; simpl in *; try done; by apply H.
Qed.

(** The shape of every step: plain effects, perhaps an activation, perhaps the end. *)
Lemma facts_intro s s' ev plain act fin :
  stopped s = false -> same_identity (ts_logic s) (ts_logic s') ->
  Forall (plain_effect s ev) plain ->
  act = (if negb (ts_activated s) && ts_activated s' then [ToServer (SActivate (sl_id (ts_logic s)))] else []) ->
  fin = (if stopped s' then [ConnectionEnded;
           ToServer (SDisconnect (disconnect_of (sl_id (ts_logic s)) (identity_of (ts_logic s))))] else []) ->
  (ts_activated s = true -> ts_activated s' = true) ->
  (forall data, data ∈ ts_notified s' -> data ∈ ts_notified s \/
     (sent_data ev = Some data /\ forwardable (identity_of (ts_logic s)) data /\ ts_activated s' = true)) ->
  forall effects, effects ≡ₚ plain ++ act ++ fin -> omap server_part effects = omap server_part (act ++ fin) ->
  session_facts s s' ev effects.
Proof.
  intros Hs Hsame Hplain Hact Hfin Ha Hn effects Hperm Hsaid.
  assert (forall e, e ∈ effects -> e ∈ plain \/ e ∈ act ++ fin) as Hin.
  { intros e He. rewrite Hperm in He. by apply elem_of_app in He. }
  assert (forall e, e ∈ act ++ fin -> frame_of e = None /\ forall x, e <> Session x) as Hrest.
  { intros e [He|He]%elem_of_app; subst act fin; revert He; repeat case_match; set_solver. }
  constructor; try done.
  - exists []. rewrite Hsaid, omap_app, Hs, Hact, Hfin. simpl. split; [|set_solver].
    by repeat case_match.
  - by rewrite Hs.
  - intros subject payload He. destruct (Hin _ He) as [H|H]; [by eapply plain_nats|].
    by destruct (Hrest _ H) as [_ []%(fun f => f (PublishNats subject payload))].
  - intros e b He Hb. destruct (Hin _ He) as [H|H]; [by eapply plain_frames|].
    destruct (Hrest _ H) as [Hf _]. congruence.
Qed.

Lemma facts_same s ev : session_facts s s ev [].
Proof.
  constructor; try done; [|set_solver..]. exists []. split; [|set_solver].
  by destruct (ts_activated s), (stopped s).
Qed.

Lemma facts_stop s s1 ev plain s' stop :
  stopped s = false -> same_identity (ts_logic s) (ts_logic s1) -> ts_activated s1 = ts_activated s ->
  Forall (plain_effect s ev) plain -> session_stop s1 = (s', stop) -> session_facts s s' ev (plain ++ stop).
Proof.
  intros Hs [Hid Hwho] Ha Hp [= <- <-].
  assert (stopping_message (ts_logic s1) = disconnect_of (sl_id (ts_logic s)) (identity_of (ts_logic s))) as ->.
  { rewrite <- Hid, <- Hwho. done. }
  eapply (facts_intro s _ ev plain [] _ Hs); try done.
  - simpl. rewrite Ha. by destruct (ts_activated s).
  - simpl. by rewrite Ha.
  - simpl. set_solver.
  - by rewrite omap_app, (plain_said s ev plain Hp).
Qed.

(** A step that only changes the clock, the logic or the phase, and is not the end. *)
Lemma facts_plain s s' ev plain :
  stopped s = false -> stopped s' = false -> same_identity (ts_logic s) (ts_logic s') ->
  ts_activated s' = ts_activated s -> ts_notified s' = ts_notified s -> Forall (plain_effect s ev) plain ->
  session_facts s s' ev plain.
Proof.
  intros Hs Hs' Hi Ha Hn Hp. eapply (facts_intro s s' ev plain [] []); try done.
  - rewrite Ha. by destruct (ts_activated s).
  - by rewrite Hs'.
  - by rewrite Ha.
  - rewrite Hn. auto.
  - by rewrite !app_nil_r.
  - by rewrite (plain_said s ev plain Hp).
Qed.

Lemma facts_await s s1 s' ev effects :
  stopped s = false -> ts_logic s1 = ts_logic s -> ts_activated s1 = ts_activated s ->
  ts_notified s1 = ts_notified s -> stopped s1 = false -> session_facts s1 s' ev effects -> session_facts s s' ev effects.
Proof.
  intros Hs El Ea En Hs1 [F1 F2 F3 F4 F5 F6 F7]. rewrite El, Ea, En, ?Hs1 in *.
  constructor; rewrite ?Hs; try done.
Qed.

Lemma await_done_spec a s s1 : await_done a s = Some s1 ->
  stopped s = false /\ stopped s1 = false /\ ts_logic s1 = ts_logic s /\ ts_activated s1 = ts_activated s /\
  ts_notified s1 = ts_notified s.
Proof.
  unfold await_done, stopped. destruct (ts_phase s) as [w|] eqn:E; [|done]. case_decide; [|done].
  by intros [= <-].
Qed.

Lemma running_not_stopped s : running s = true -> stopped s = false.
Proof. unfold running, stopped. by destruct (ts_phase s) as [[|]|]. Qed.

Lemma on_packet_facts i s ev : let '(s', effects) := on_packet i s in session_facts s s' ev effects.
Proof.
  unfold on_packet. destruct (running s) eqn:Hr; [|apply facts_same].
  destruct (ts_notified s !! i) as [data|] eqn:E; [|apply facts_same].
  assert (stopped s = false) as Hs by by apply running_not_stopped.
  assert (stopped (s <| ts_notified := delete i (ts_notified s) |>) = false) as Hs' by exact Hs.
  constructor; rewrite ?Hs, ?Hs'; simpl; try done.
  - exists [data]. split; [|intros ? ->%list_elem_of_singleton; by eapply list_elem_of_lookup_2].
    by destruct (ts_activated s).
  - intros d Hd. left. exact (list_elem_of_delete_inv _ i _ Hd).
  - intros subject payload H%list_elem_of_singleton. done.
  - intros e b ->%list_elem_of_singleton. done.
Qed.

Lemma session_effects_plain s ev (l : list session_effect) :
  Forall (fun e => forall subject payload, e <> PublishNats subject payload) l -> Forall (plain_effect s ev) (Session <$> l).
Proof. intros Hl. apply Forall_fmap. eapply Forall_impl; [exact Hl|]. intros [] He; simpl; try done. by edestruct He. Qed.

(** The common part of the two inbound handlers: what is sent back goes last. *)
Lemma inbound_facts now data s ev (back : bytes -> list transport_effect) s' effects :
  running s = true -> sent_data ev = Some data -> Forall (plain_effect s ev) (back data) ->
  (let s := s <| ts_heartbeat := now |> in
   let '(logic, action, l) := handle_inbound now data (ts_logic s) in
   let '(s, activate) := activate_on action (s <| ts_logic := logic |>) in
   match action with
   | Echo b => (s, (Session <$> l) ++ activate ++ back b)
   | Forward b => (notify_self b s, (Session <$> l) ++ activate)
   | Processed | KeepAlive => (s, (Session <$> l) ++ activate)
   end) = (s', effects) -> session_facts s s' ev effects.
Proof.
  intros Hr Hd Hback. pose proof (running_not_stopped s Hr) as Hs. simpl.
  pose proof (handle_inbound_spec now data (ts_logic s)) as H.
  destruct (handle_inbound now data (ts_logic s)) as [[logic action] l]. destruct H as (Hi & Hl & Ha).
  pose proof (session_effects_plain s ev l Hl) as Hp. pose proof (plain_said _ _ _ Hp) as Hsaid.
  unfold activate_on. simpl.
  assert (forall s1 act fwd, stopped s1 = false -> same_identity (ts_logic s) (ts_logic s1) ->
    act = (if negb (ts_activated s) && ts_activated s1 then [ToServer (SActivate (sl_id (ts_logic s)))] else []) ->
    (ts_activated s = true -> ts_activated s1 = true) ->
    ts_notified s1 = ts_notified s ++ fwd ->
    (fwd = [] \/ fwd = [data] /\ forwardable (identity_of (ts_logic s)) data /\ ts_activated s1 = true) ->
    session_facts s s1 ev ((Session <$> l) ++ act)) as Hgo.
  { intros s1 act fwd Hs1 Hi1 Hact Hm Hn Hf. eapply (facts_intro s s1 ev (Session <$> l) act []); try done.
    - by rewrite Hs1.
    - rewrite Hn. intros d [Hin|Hin]%elem_of_app; [by left|]. destruct Hf as [->|(-> & Hf & Hact')]; [set_solver|].
      apply list_elem_of_singleton in Hin as ->. auto.
    - by rewrite app_nil_r.
    - by rewrite app_nil_r, omap_app, Hsaid. }
  destruct Hi as [Hid Hwho]. destruct action as [b|b| |]; simpl.
  - subst b. rewrite andb_false_r. intros [= <- <-]. apply facts_plain; try done. by apply Forall_app.
  - destruct Ha as [-> Hfwd]. destruct (ts_activated s) eqn:Ea; simpl; intros [= <- <-].
    + apply (Hgo _ _ [data]); try done; simpl; rewrite ?Ea; auto.
    + apply (Hgo _ _ [data]); try done; simpl; rewrite ?Hid; auto.
  - destruct (ts_activated s) eqn:Ea; simpl; intros [= <- <-];
      (apply (Hgo _ _ []); try done; simpl; rewrite ?app_nil_r, ?Hid, ?Ea; auto).
  - destruct (ts_activated s) eqn:Ea; simpl; intros [= <- <-];
      (apply (Hgo _ _ []); try done; simpl; rewrite ?app_nil_r, ?Hid, ?Ea; auto).
Qed.

Lemma on_reply_facts a s ev (f : TransportSession -> TransportSession * list transport_effect) :
  (forall s1, stopped s1 = false -> let '(s', effects) := f s1 in session_facts s1 s' ev effects) ->
  let '(s', effects) := match await_done a s with Some s1 => f s1 | None => (s, []) end in
  session_facts s s' ev effects.
Proof.
  intros Hf. destruct (await_done a s) as [s1|] eqn:E; [|apply facts_same].
  apply await_done_spec in E as (H1 & H2 & H3 & H4 & H5). specialize (Hf s1 H2).
  destruct (f s1) as [s' effects]. by apply (facts_await s s1).
Qed.

Lemma facts_stop_now s ev : stopped s = false -> let '(s', stop) := session_stop s in session_facts s s' ev stop.
Proof. intros Hs. simpl. by apply (facts_stop s s ev []). Qed.

Ltac each_effect := simpl; repeat (apply Forall_cons; split); try apply Forall_nil; done || idtac.

(** What a session sends its client on its own. *)
Lemma local_plain s ev e b :
  frame_of e = Some b -> local_packet (sl_id (ts_logic s)) (identity_of (ts_logic s)) b -> plain_effect s ev e.
Proof. destruct e; simpl; try done; intros Hb Hl b'; left; congruence. Qed.

Lemma started_local l now_ms r : start_session now_ms (sl_room l) (sl_user_id l) (sl_id l) = Ok r ->
  local_packet (sl_id l) (identity_of l) (build_meeting_started (start_time_ms r) (creator_id r) l).
Proof. unfold start_session. case_bool_decide; [done|]. intros [= <-]. right. left. by eexists. Qed.

Lemma wt_send_plain s ev chan b :
  local_packet (sl_id (ts_logic s)) (identity_of (ts_logic s)) b -> Forall (plain_effect s ev) (wt_send chan b).2.
Proof. intros Hl. destruct chan; each_effect. by apply (local_plain _ _ _ b). Qed.

#[local] Hint Resolve wt_send_plain started_local : relay.

Lemma session_reply_facts t now_ms chan1 chan2 s :
  let '(s', effects) := session_step t s (SessionReply now_ms chan1 chan2) in
  session_facts s s' (SessionReply now_ms chan1 chan2) effects.
Proof.
  assert (forall l, local_packet (sl_id l) (identity_of l) (build_session_assigned l)) by by left.
  assert (forall l m, local_packet (sl_id l) (identity_of l) (build_meeting_ended m l)) by (by right; right; eexists).
  destruct t; apply (on_reply_facts AwaitSession); intros s1 Hs1;
    destruct (start_session _ _ _ _) as [r|e] eqn:E; cbn [session_stop].
  - apply facts_plain; try done. each_effect; (eapply local_plain; [done|]); eauto with relay.
  - eapply (facts_stop s1 s1 _ [_; _]); try done. each_effect. eapply local_plain; [done|]. eauto.
  - apply facts_plain; try done. apply Forall_app; eauto with relay.
  - eapply (facts_stop s1 s1); try done. eauto with relay.
Qed.

Lemma session_message_facts t now chan msg s :
  let '(s', effects) := session_step t s (ServerMessage now chan msg) in
  session_facts s s' (ServerMessage now chan msg) effects.
Proof.
  assert (forall s e, frame_of e = Some msg -> plain_effect s (ServerMessage now chan msg) e) as Hm.
  { intros s0 e He. destruct e; simpl in *; try done; intros b Hb; right; right; exists now, chan; congruence. }
  destruct t; simpl; unfold ws_message, wt_message; destruct (running s) eqn:Hr; simpl; try apply facts_same;
    apply running_not_stopped in Hr.
  - apply facts_plain; try done. each_effect. by apply Hm.
  - assert (Forall (plain_effect s (ServerMessage now chan msg)) [Session (TrackSent (sl_id (ts_logic s)) (Z.of_nat (length msg)))])
      as Ht by each_effect.
    unfold send_auto. destruct chan.
    + apply facts_plain; try done. constructor; [done|]. constructor; [|done]. apply Hm. by destruct (_ && _).
    + destruct (negb (_ =? 0)); simpl; [|by apply facts_plain].
      pose proof (on_outbound_drop_spec now (from_option pw_session_id 0 (parse_wrapper msg)) (ts_logic s)) as Hd.
      destruct (on_outbound_drop _ _ _) as [l' drop]. destruct Hd as [Hi Hd].
      apply facts_plain; try done. constructor; [done|]. apply Forall_fmap. eapply Forall_impl; [exact Hd|].
      intros [] He; try done. simpl. eauto.
    + by apply (facts_stop s s _ [_]).
Qed.

Lemma session_frame_facts now f s :
  let '(s', effects) := ws_frame now f s in session_facts s s' (Frame now f) effects.
Proof.
  unfold ws_frame. destruct (running s) eqn:Hr; [|apply facts_same].
  pose proof (running_not_stopped s Hr) as Hs.
  destruct f as [data|data| | | | | |]; try (by apply facts_plain, Forall_nil); try by apply facts_stop_now.
  - destruct (negb true) eqn:E; [done|].
    match goal with |- let '(_, _) := ?x in _ => destruct x as [s' effects] eqn:Ex end.
    eapply (inbound_facts now data s _ (fun b => [WsBinary b])); [done..| |exact Ex].
    constructor; [|done]. intros b [= <-]. auto.
  - apply facts_plain; try done. each_effect.
  - simpl. by apply (facts_stop s s _ [WsClose]); [..|each_effect|].
Qed.

Lemma session_inbound_facts now chan data source s :
  let '(s', effects) := wt_inbound now chan data source s in session_facts s s' (Inbound now chan data source) effects.
Proof.
  unfold wt_inbound. destruct (running s) eqn:Hr; [|apply facts_same].
  pose proof (running_not_stopped s Hr) as Hs.
  destruct (_ && _); [by apply facts_plain, Forall_nil|]. cbn [negb].
  set (out := fun b => match source with SrcUniStream => UniStream b | SrcDatagram => Datagram b end).
  assert (plain_effect s (Inbound now chan data source) (Outbound (out data))) as Hout.
  { intros b Hb. right. left. destruct source; simpl in *; congruence. }
  match goal with |- let '(_, _) := ?x in _ => destruct x as [s' effects] eqn:Ex end.
  destruct chan.
  - by eapply (inbound_facts now data s _ (fun b => [Outbound (out b)])); [..|exact Ex]; [| |each_effect].
  - eapply (inbound_facts now data s _ (fun b => [])); [done..|]. cbv zeta in Ex |- *. rewrite <- Ex.
    destruct (handle_inbound _ _ _) as [[logic action] l]. destruct (activate_on _ _) as [s1 activate].
    destruct action; by rewrite ?app_nil_r.
  - revert Ex. cbn. pose proof (handle_inbound_spec now data (ts_logic s)) as H.
    destruct (handle_inbound now data (ts_logic s)) as [[logic action] l] eqn:Eh. destruct action as [b| | |];
      try (intros Ex; eapply (inbound_facts now data s _ (fun b => [])); [done..|]; cbn; rewrite Eh; exact Ex).
    destruct H as (Hi & Hl & _). unfold activate_on. simpl. rewrite andb_false_r. intros [= <- <-].
    by apply (facts_stop s (s <| ts_heartbeat := now |> <| ts_logic := logic |>)); [..|apply session_effects_plain|].
Qed.

Lemma session_step_facts t s ev :
  let '(s', effects) := session_step t s ev in session_facts s s' ev effects.
Proof.
  destruct ev as [r|r|now_ms c1 c2|now closed|now chan msg|now f|now chan data source|i|].
  - apply (on_reply_facts AwaitJoin). intros s1 Hs1. destruct (handle_join_room_result r); [|apply facts_same].
    by apply facts_stop_now.
  - apply (on_reply_facts AwaitConnect). intros s1 Hs1. destruct r; [apply facts_same|]. by apply facts_stop_now.
  - apply session_reply_facts.
  - destruct t; simpl; unfold ws_tick, wt_tick; destruct (running s) eqn:Hr; simpl; try apply facts_same;
      apply running_not_stopped in Hr; try destruct closed; try destruct (CLIENT_TIMEOUT <? _);
      try (by apply facts_stop_now); apply facts_plain; try done; each_effect.
  - apply session_message_facts.
  - destruct t; [apply session_frame_facts|apply facts_same].
  - destruct t; [apply facts_same|apply session_inbound_facts].
  - apply on_packet_facts.
  - destruct t; [apply facts_same|]. simpl. unfold wt_stop. destruct (running s) eqn:Hr; [|apply facts_same].
    apply running_not_stopped in Hr. by apply facts_stop_now.
Qed.
End Sessions.
