(* ===== verification/Relay.v ===== *)
(** * The media server as a whole

    The parts of [Transport] and [ChatServer] put together the way the code does: the
    sessions, the mailbox of the chat server, its timers, the NATS subscriptions of the
    sessions and what has been published. One server process is modelled, with sessions
    of either transport (bin/websocket_server.rs and webtransport_server.rs start one
    process each); what the other processes and the meeting API publish on the same NATS
    are events from outside.

    An event accepts a connection, lets a session react to its client or to a message it
    was sent, lets the chat server handle the next message of its mailbox, fires one of
    its timers, publishes something from outside, or makes NATS deliver a publication to a
    subscription. Publications, and messages sent to a session with [try_send], stay
    available once they are there: they may be delivered late, twice or never.
    Identifiers come from UUIDs; a connection with an identifier that was used before is
    not considered. *)
From Stdlib Require Import Ascii.
From S2P Require Import Prelude Protocol TokenValidator SessionLogic ChatServer Transport.

Inductive Request : Type :=
| WsToken (token : string)
| WsPath (user_id room : string)
| WtUrl (path : list string) (token : option string).

Inductive inbox_item : Type :=
| FromSession (m : to_server)
| FromTimer (m : ExecutePendingDeparture).

Record Relay : Type := mkRelay {
  rl_server : ChatServer;
  rl_inbox : list inbox_item;
  rl_sessions : gmap Z (Transport * TransportSession);
  rl_connected : gset Z;
  rl_joined : gmap Z (result unit string);
  rl_subs : gmap Z (string * string);
  rl_nats : list (string * bytes);
  rl_mail : list (Z * bytes);
  rl_timers : gmap Z ExecutePendingDeparture;
}.

#[export] Instance eta_Relay : Eta Relay := fun w =>
  mkRelay (rl_server w) (rl_inbox w) (rl_sessions w) (rl_connected w) (rl_joined w) (rl_subs w)
    (rl_nats w) (rl_mail w) (rl_timers w).

Definition relay_new : Relay := mkRelay server_new [] ∅ ∅ ∅ ∅ [] [] ∅.

(** The events of a client, of its connection and of the session's own timer and queue. *)
Definition from_outside (ev : session_event) : bool :=
  match ev with
  | JoinReply _ | ConnectReply _ | ServerMessage _ _ _ => false
  | _ => true
  end.

Inductive relay_event : Type :=
| Open (uuid now : Z) (r : Request)
| Outside (id : Z) (ev : session_event)
| TakeConnected (id : Z) (lost : bool)
| TakeJoined (id : Z) (lost : bool)
| TakeMail (now : Z) (chan : ChannelState) (k : nat)
| Serve (handle now_ms : Z)
| TimerFires (handle : Z)
| Bus (subject : string) (payload : bytes)
| NatsDelivers (id : Z) (k : nat).

Inductive relay_output : Type :=
| Opened (id : Z) (t : Transport) (who : Identity)
| Heard (id : Z) (ev : session_event)
| Did (id : Z) (e : transport_effect)
| Published (subject : string) (payload : bytes).

Section Relay.
Context {wire : Wire}.
Context (iter : gmap string (list member) -> list (string * list member)).
Context (jwt_decode : string -> string -> result RoomAccessTokenClaims JwtError).
Context (jwt_secret : string) (meeting_management_enabled : bool).
(** Whether a subject matches the subject of a subscription. *)
Context (nats_matches : string -> string -> bool).

Definition accepted (r : Request) : option (Transport * Identity) :=
  match r with
  | WsToken token =>
      match ws_connect_authenticated jwt_decode jwt_secret token with
      | Ok who => Some (WebSocket, who) | Err _ => None end
  | WsPath user_id room =>
      match ws_connect meeting_management_enabled user_id room with
      | Ok who => Some (WebSocket, who) | Err _ => None end
  | WtUrl path token =>
      match webtransport_identity jwt_decode jwt_secret meeting_management_enabled path token with
      | Ok who => Some (WebTransport, who) | Err _ => None end
  end.

Definition transport_name (t : Transport) : string :=
  match t with WebSocket => "websocket" | WebTransport => "webtransport" end.

(** The effects of a session that reach the rest of the server. *)
Definition absorb_one (e : transport_effect) (w : Relay) : Relay :=
  match e with
  | ToServer m => w <| rl_inbox := rl_inbox w ++ [FromSession m] |>
  | Session (PublishNats subject payload) => w <| rl_nats := rl_nats w ++ [(subject, payload)] |>
  | _ => w
  end.

Definition absorb (l : list transport_effect) (w : Relay) : Relay := foldl (fun w e => absorb_one e w) w l.

(** One step of a session. *)
Definition step_session (id : Z) (ev : session_event) (w : Relay) : Relay * list relay_output :=
  match rl_sessions w !! id with
  | Some (t, s) =>
      let '(s', effects) := session_step t s ev in
      (absorb effects (w <| rl_sessions := <[id := (t, s')]> (rl_sessions w) |>), Did id <$> effects)
  | None => (w, [])
  end.

Definition open_session (uuid now : Z) (t : Transport) (who : Identity) (w : Relay) : Relay * list relay_output :=
  let s := session_of uuid now who in
  let id := sl_id (ts_logic s) in
  match rl_sessions w !! id with
  | Some _ => (w, [])
  | None =>
      let effects := session_started (transport_name t) s in
      (absorb effects (w <| rl_sessions := <[id := (t, s)]> (rl_sessions w) |>),
       Opened id t who :: (Did id <$> effects))
  end.

(** The effects of the chat server. *)
Definition perform_one (e : server_effect) (w : Relay) : Relay :=
  match e with
  | Publish subject payload => w <| rl_nats := rl_nats w ++ [(subject, payload)] |>
  | AbortTask session => w <| rl_subs := delete session (rl_subs w) |>
  | CancelTimer handle => w <| rl_timers := delete handle (rl_timers w) |>
  | NotifyLater handle msg _ => w <| rl_timers := <[handle := msg]> (rl_timers w) |>
  | TrySend recipient _ payload => w <| rl_mail := rl_mail w ++ [(recipient, payload)] |>
  | QueueSubscribe session subject _ => w
  end.

(** A subscription is made for the room of the [JoinRoom] that asks for it. *)
Definition subscribe_one (room : string) (e : server_effect) (w : Relay) : Relay :=
  match e with
  | QueueSubscribe session subject _ => w <| rl_subs := <[session := (subject, room)]> (rl_subs w) |>
  | _ => perform_one e w
  end.

Definition perform (l : list server_effect) (w : Relay) : Relay := foldl (fun w e => perform_one e w) w l.

(** One message of the chat server's mailbox. A recipient is the session's identifier. *)
Definition serve_item (handle now_ms : Z) (i : inbox_item) (w : Relay) : Relay :=
  match i with
  | FromTimer m => let '(st, e) := serve iter (rl_server w) (MExecute m) in perform e (w <| rl_server := st |>)
  | FromSession (SConnect id) =>
      let '(st, e) := serve iter (rl_server w) (MConnect id id) in
      perform e (w <| rl_server := st |>) <| rl_connected := {[id]} ∪ rl_connected w |>
  | FromSession (SJoin m) =>
      let '(st, e, r) := handle_join now_ms m (rl_server w) in
      (foldl (fun w e => subscribe_one (jr_room m) e w) (w <| rl_server := st |>) e)
        <| rl_joined := <[jr_session m := r]> (rl_joined w) |>
  | FromSession (SActivate id) =>
      let '(st, e) := serve iter (rl_server w) (MActivate id) in perform e (w <| rl_server := st |>)
  | FromSession (SClient m) =>
      let '(st, e) := serve iter (rl_server w) (MClient m) in perform e (w <| rl_server := st |>)
  | FromSession (SDisconnect m) =>
      let '(st, e) := serve iter (rl_server w) (MDisconnect m handle) in perform e (w <| rl_server := st |>)
  end.

Definition relay_step (w : Relay) (ev : relay_event) : Relay * list relay_output :=
  match ev with
  | Open uuid now r =>
      match accepted r with
      | Some (t, who) => open_session uuid now t who w
      | None => (w, [])
      end
  | Outside id e =>
      if from_outside e then let '(w, out) := step_session id e w in (w, Heard id e :: out) else (w, [])
  | TakeConnected id lost =>
      if lost then step_session id (ConnectReply (Err tt)) w
      else if bool_decide (id ∈ rl_connected w) then step_session id (ConnectReply (Ok tt)) w else (w, [])
  | TakeJoined id lost =>
      if lost then step_session id (JoinReply (Err tt)) w
      else match rl_joined w !! id with
           | Some r => step_session id (JoinReply (Ok r)) w
           | None => (w, [])
           end
  | TakeMail now chan k =>
      match rl_mail w !! k with
      | Some (id, payload) => step_session id (ServerMessage now chan payload) w
      | None => (w, [])
      end
  | Serve handle now_ms =>
      match rl_inbox w with
      | i :: rest => (serve_item handle now_ms i (w <| rl_inbox := rest |>), [])
      | [] => (w, [])
      end
  | TimerFires handle =>
      match rl_timers w !! handle with
      | Some m => (w <| rl_timers := delete handle (rl_timers w) |> <| rl_inbox := rl_inbox w ++ [FromTimer m] |>, [])
      | None => (w, [])
      end
  | Bus subject payload =>
      (w <| rl_nats := rl_nats w ++ [(subject, payload)] |>, [Published subject payload])
  | NatsDelivers id k =>
      match rl_subs w !! id, rl_nats w !! k with
      | Some (pattern, room), Some (subject, payload) =>
          if nats_matches pattern subject
          then (perform (handle_msg id room id subject payload) w, [])
          else (w, [])
      | _, _ => (w, [])
      end
  end.
End Relay.
