(* ===== verification/RelayProps.v ===== *)
(** * Rooms in the media server

    Where every packet comes from: an invariant of the whole server and of its log,
    preserved by every event ([relay_step_ok]). *)
From Stdlib Require Import Ascii.
From S2P Require Import Prelude Protocol DemoWire TokenValidator SessionLogic ChatServer ChatServerProps Transport TransportProps Relay.

(** ** What NATS promises *)

(** The documented matching of subjects, for patterns without [>]: token by token, a
    star stands for any token. *)
Class NatsLaws (nats_matches : string -> string -> bool) : Prop := {
  nats_tokens : forall pattern subject, ">"%string ∉ split_dots pattern ->
    nats_matches pattern subject = true <->
    Forall2 (fun p t => p = "*"%string \/ p = t) (split_dots pattern) (split_dots subject);
}.

(** ** Where packets come from *)

Section Log.
Context {wire : Wire}.
Implicit Types log : list relay_output.

Definition opened log (id : Z) (who : Identity) : Prop := exists t, Opened id t who ∈ log.

Definition heard log (id : Z) (data : bytes) : Prop := exists ev, Heard id ev ∈ log /\ sent_data ev = Some data.

Definition participant log (room : string) (id : Z) (who : Identity) : Prop :=
  opened log id who /\ id_room who = room /\ id_observer who = false.

(** What the server itself announces about a participant. *)
Definition room_event (room : string) (id : Z) (who : Identity) (b : bytes) : Prop :=
  (exists t, b = build_meeting_started_packet room t (id_user who)) \/
  b = build_peer_joined_packet room (id_user who) id (id_display_name who) \/
  b = build_peer_left_packet room (id_user who) id (id_display_name who).

(** A packet that may reach the session [to] of a room. *)
Inductive from_room log (room : string) (to : Z) (b : bytes) : Prop :=
| FromServer id who : participant log room id who -> room_event room id who b -> from_room log room to b
| FromPeer id who data : id <> to -> participant log room id who -> heard log id data -> b = stamp_session id data ->
    from_room log room to b
| FromCongested id who sid : opened log id who -> id_room who = room ->
    write_wrapper (congestion_packet (id_user who) sid) = Some b -> from_room log room to b
| FromOutside subject last : Published subject b ∈ log -> split_dots subject = ["room"; room; last]%string ->
    from_room log room to b.

(** What this server publishes for a room. *)
Inductive published log (room : string) : string -> bytes -> Prop :=
| PubEvent id who b : participant log room id who -> room_event room id who b -> published log room (system_subject room) b
| PubPeer id who data : participant log room id who -> heard log id data -> forwardable who data ->
    published log room (session_subject room id) (stamp_session id data)
| PubCongested id who sid b : opened log id who -> id_room who = room ->
    write_wrapper (congestion_packet (id_user who) sid) = Some b ->
    published log room ("room." +:+ replace_spaces room +:+ "." +:+ show_u64 sid) b.

Definition departure_ok log (m : ExecutePendingDeparture) : Prop :=
  exists who, participant log (id_room who) (ex_session m) who /\
    ex_room m = id_room who /\ ex_user_id m = id_user who /\ ex_display_name m = id_display_name who.

Definition message_ok log (m : to_server) : Prop :=
  match m with
  | SConnect id | SActivate id => exists who, opened log id who
  | SJoin m => exists who, opened log (jr_session m) who /\ m = join_of (jr_session m) who
  | SClient m => exists who, participant log (id_room who) (cm_session m) who /\
      m = client_of (cm_session m) who (cm_msg m) /\ heard log (cm_session m) (cm_msg m) /\ forwardable who (cm_msg m)
  | SDisconnect m => exists who, opened log (dc_session m) who /\ m = disconnect_of (dc_session m) who
  end.

Definition item_ok log (i : inbox_item) : Prop :=
  match i with FromSession m => message_ok log m | FromTimer m => departure_ok log m end.

Definition nats_ok log (p : string * bytes) : Prop :=
  Published p.1 p.2 ∈ log \/ exists room, valid_id room = true /\ published log room p.1 p.2.

Definition mail_ok log (p : Z * bytes) : Prop :=
  exists who, opened log p.1 who /\ from_room log (id_room who) p.1 p.2.

Definition effect_ok log (e : server_effect) : Prop :=
  match e with
  | Publish subject b => exists room, valid_id room = true /\ published log room subject b
  | NotifyLater _ m _ => departure_ok log m
  | TrySend id _ b => mail_ok log (id, b)
  | _ => True
  end.

Record server_ok log (st : ChatServer) : Prop := {
  so_members : forall r m, m ∈ members_of r st -> exists who, participant log r m.1.1 who /\
    m.1.2 = id_user who /\ m.2 = id_display_name who;
  so_addr : forall id a, sessions st !! id = Some a -> a = id /\ exists who, opened log id who;
}.

Record rooms_ok (w : Relay) log : Prop := {
  ro_server : server_ok log (rl_server w);
  ro_sessions : forall id t s, rl_sessions w !! id = Some (t, s) -> sl_id (ts_logic s) = id /\
    Opened id t (identity_of (ts_logic s)) ∈ log /\
    forall data, data ∈ ts_notified s -> heard log id data /\ forwardable (identity_of (ts_logic s)) data;
  ro_opened : forall id t who, Opened id t who ∈ log -> valid_id (id_room who) = true /\
    exists s, rl_sessions w !! id = Some (t, s) /\ identity_of (ts_logic s) = who;
  ro_inbox : Forall (item_ok log) (rl_inbox w);
  ro_timers : forall h m, rl_timers w !! h = Some m -> departure_ok log m;
  ro_subs : forall id pattern room, rl_subs w !! id = Some (pattern, room) ->
    exists who, opened log id who /\ room = id_room who /\ pattern = (build_subject_and_queue room (show_u64 id)).1;
  ro_nats : Forall (nats_ok log) (rl_nats w);
  ro_mail : Forall (mail_ok log) (rl_mail w);
  ro_frames : forall id e b, Did id e ∈ log -> frame_of e = Some b -> exists who, opened log id who /\
    (local_packet id who b \/ heard log id b \/ from_room log (id_room who) id b);
}.

(** *** Knowledge grows *)

Section Mono.
Context (log log' : list relay_output) (Hsub : log ⊆ log').

Lemma was_opened_mono id who : opened log id who -> opened log' id who.
Proof. intros [t H]. exists t. by apply Hsub. Qed.

Lemma heard_mono id data : heard log id data -> heard log' id data.
Proof. intros (ev & H & He). exists ev. split; [by apply Hsub|done]. Qed.

Lemma participant_mono room id who : participant log room id who -> participant log' room id who.
Proof. intros (H & Hr). split; [by apply was_opened_mono|done]. Qed.

Lemma published_mono room subject b : published log room subject b -> published log' room subject b.
Proof. destruct 1; econstructor; eauto using participant_mono, heard_mono, was_opened_mono. Qed.

Lemma from_room_mono room to b : from_room log room to b -> from_room log' room to b.
Proof.
  destruct 1; [eapply FromServer|eapply FromPeer|eapply FromCongested|eapply FromOutside];
    eauto using participant_mono, heard_mono, was_opened_mono.
Qed.

Lemma mail_mono p : mail_ok log p -> mail_ok log' p.
Proof. intros (who & Ho & H). exists who. eauto using was_opened_mono, from_room_mono. Qed.

Lemma departure_mono m : departure_ok log m -> departure_ok log' m.
Proof. intros (who & H & Hr). exists who. split; [by apply participant_mono|done]. Qed.

Lemma item_mono i : item_ok log i -> item_ok log' i.
Proof.
  destruct i as [[| | | |]|m]; simpl; [..|apply departure_mono];
    naive_solver eauto using participant_mono, heard_mono, was_opened_mono.
Qed.

Lemma nats_mono p : nats_ok log p -> nats_ok log' p.
Proof. intros [H|(room & Hv & H)]; [left; by apply Hsub|right]. eauto using published_mono. Qed.

Lemma server_mono st : server_ok log st -> server_ok log' st.
Proof. intros [Hm Ha]. split; naive_solver eauto using participant_mono, was_opened_mono. Qed.
End Mono.

(** More output of a kind that opens nothing, with every frame accounted for. *)
Lemma rooms_ok_log w log out :
  (forall id t who, Opened id t who ∉ out) ->
  (forall id e b, Did id e ∈ out -> frame_of e = Some b -> exists who, opened log id who /\
     (local_packet id who b \/ heard log id b \/ from_room log (id_room who) id b)) ->
  rooms_ok w log -> rooms_ok w (log ++ out).
Proof.
  intros Hopen Hframes [H1 H2 H3 H4 H5 H6 H7 H8 H9]. assert (log ⊆ log ++ out) as Hsub by set_solver.
  assert (forall id e b, Did id e ∈ log ++ out -> frame_of e = Some b -> exists who, opened log id who /\
     (local_packet id who b \/ heard log id b \/ from_room log (id_room who) id b)) as Hall.
  { intros id e b [H|H]%elem_of_app; eauto. }
  constructor.
  - by eapply server_mono.
  - intros id t s Hs. destruct (H2 id t s Hs) as (E1 & E2 & E3). split_and!; [done|by apply Hsub|].
    intros data Hd. destruct (E3 data Hd). split; [by eapply heard_mono|done].
  - intros id t who [H|H]%elem_of_app; [by apply H3|by apply Hopen in H].
  - eapply Forall_impl; [exact H4|]. intros i. by apply item_mono.
  - intros h m Hm. eapply departure_mono; eauto.
  - intros id pattern room Hs. destruct (H6 _ _ _ Hs) as (who & Ho & Hr). exists who. eauto using was_opened_mono.
  - eapply Forall_impl; [exact H7|]. intros i. by apply nats_mono.
  - eapply Forall_impl; [exact H8|]. intros i. by apply mail_mono.
  - intros id e b Hd Hb. destruct (Hall id e b Hd Hb) as (who & Ho & Hf). exists who.
    split; [by eapply was_opened_mono|]. destruct Hf as [Hf|[Hf|Hf]]; [by left|right; left; by eapply heard_mono|].
    right. right. by eapply from_room_mono.
Qed.

(** ** The chat server's part *)

Lemma remove_member_ok log room session st : server_ok log st -> server_ok log (remove_member room session st).
Proof.
  intros [Hm Ha]. destruct (remove_member_fields room session st) as (E & _). split; [|by rewrite E].
  intros r m. rewrite remove_member_members. case_decide as Hr; [|by apply Hm].
  subst. intros [_ H]%list_elem_of_filter. by apply Hm.
Qed.

(** The state but for the members and the sessions does not matter. *)
Lemma server_ok_proper log st st' :
  room_members st' = room_members st -> sessions st' ⊆ sessions st -> server_ok log st -> server_ok log st'.
Proof.
  intros Em Es [Hm Ha]. split; [unfold members_of; by rewrite Em|]. intros id a H.
  apply Ha. by eapply lookup_weaken.
Qed.

Lemma stop_task_ok log session st : server_ok log st -> server_ok log (stop_task session st).1.
Proof.
  destruct (stop_task_fields session st) as (E1 & _ & E2 & _). apply server_ok_proper; [done|by rewrite E1].
Qed.

Lemma stop_task_effects log session st : Forall (effect_ok log) (stop_task session st).2.
Proof. unfold stop_task. case_bool_decide; by repeat constructor. Qed.

Lemma leave_rooms_ok log who session obs st :
  opened log session who -> (obs = false -> id_observer who = false) -> valid_id (id_room who) = true -> server_ok log st ->
  let '(st', e) := leave_rooms session (Some (id_room who)) (Some (id_user who)) (Some (id_display_name who)) obs st in
  server_ok log st' /\ Forall (effect_ok log) e.
Proof.
  intros Ho Hobs Hv Hst. pose proof (stop_task_ok log session st Hst) as H1.
  pose proof (stop_task_effects log session st) as H2. unfold leave_rooms.
  destruct (stop_task session st) as [st1 abort]. simpl in *.
  pose proof (remove_member_ok log (id_room who) session st1 H1) as H3. destruct obs; [done|].
  assert (Forall (effect_ok log) (abort ++ announce_end (id_room who) (id_user who) (id_display_name who) session)) as He.
  { apply Forall_app. split; [done|]. constructor; [|constructor]. exists (id_room who). split; [done|].
    apply (PubEvent _ _ session who); [by split_and!; auto|]. by right; right. }
  by destruct (connection_states _ !! session) as [[]|].
Qed.

Lemma connect_ok log id who st : opened log id who -> server_ok log st -> server_ok log (handle_connect id id st).
Proof.
  intros Ho [Hm Ha]. split; [done|]. intros id' a. simpl. intros [[<- <-]|[_ H]]%lookup_insert_Some; eauto.
Qed.

Lemma disconnect_ok log id who handle st :
  opened log id who -> valid_id (id_room who) = true -> server_ok log st ->
  let '(st', e) := handle_disconnect (disconnect_of id who) handle st in server_ok log st' /\ Forall (effect_ok log) e.
Proof.
  intros Ho Hv Hst. assert (server_ok log (forget_session id st)) as Hf.
  { revert Hst. apply server_ok_proper; [done|]. apply delete_subseteq. }
  unfold handle_disconnect. simpl. destruct (id_observer who) eqn:E; [by apply leave_rooms_ok|].
  pose proof (stop_task_ok log id _ Hf) as H1. pose proof (stop_task_effects log id (forget_session id st)) as H2.
  destruct (stop_task id _) as [st2 abort]. simpl in *. split; [by revert H1; apply server_ok_proper|].
  apply Forall_app. split; [done|]. apply Forall_app. split; [by destruct (pending_departures st2 !! _); repeat constructor|].
  constructor; [|constructor]. exists who. by split_and!.
Qed.

Lemma execute_ok log m st :
  departure_ok log m -> valid_id (ex_room m) = true -> server_ok log st ->
  let '(st', e) := handle_execute m st in server_ok log st' /\ Forall (effect_ok log) e.
Proof.
  intros (who & (Ho & _ & Hp) & Er & Eu & Ed) Hv Hst. unfold handle_execute.
  destruct (pending_departures st !! _) as [pending|]; [|by split].
  set (st1 := st <| pending_departures := _ |>).
  assert (server_ok log st1) as H1 by (by revert Hst; apply server_ok_proper).
  case_bool_decide; simpl; [|split; [by revert H1; apply server_ok_proper|done]].
  destruct (was_active pending); simpl; [|split; [by apply remove_member_ok|done]].
  rewrite Er, Eu, Ed in *. by apply leave_rooms_ok.
Qed.

Lemma find_in_members_Some session l uid dname :
  find_in_members session l = Some (uid, dname) -> (session, uid, dname) ∈ l.
Proof.
  induction l as [|[[sid u] d] l IH]; simpl; [done|]. case_bool_decide as Hs; [|right; auto].
  intros [= <- <-]. subst. by left.
Qed.

Lemma find_session_Some iter session st room uid dname : visits_entries iter ->
  find_session session (iter (room_members st)) = Some (room, uid, dname) -> (session, uid, dname) ∈ members_of room st.
Proof.
  intros Hit. assert (forall p, p ∈ iter (room_members st) -> room_members st !! p.1 = Some p.2) as Hp.
  { intros [r l] H. rewrite (Hit (room_members st)) in H. by apply elem_of_map_to_list in H. }
  induction (iter (room_members st)) as [|[r l] rooms IH]; simpl; [done|].
  destruct (find_in_members session l) as [[u d]|] eqn:E.
  - intros [= <- <- <-]. unfold members_of. specialize (Hp (r, l) ltac:(by left)). simpl in Hp. rewrite Hp. by apply find_in_members_Some.
  - intros H. apply IH; [|done]. intros p Hin. apply Hp. by right.
Qed.

Section Opened.
Context (log : list relay_output) (Hvalid : forall id who, opened log id who -> valid_id (id_room who) = true).

Lemma activate_ok iter id st : visits_entries iter -> server_ok log st ->
  let '(st', e) := handle_activate iter id st in server_ok log st' /\ Forall (effect_ok log) e.
Proof.
  intros Hit Hst. unfold handle_activate. set (st2 := st <| connection_states := _ |> <| suppress_join_broadcast := _ |>).
  assert (server_ok log st2) as H2 by (by revert Hst; apply server_ok_proper).
  destruct (_ && _); [|done]. destruct (find_session _ _) as [[[room uid] dname]|] eqn:E; [|done].
  split; [done|]. constructor; [|constructor].
  apply find_session_Some in E; [|done]. destruct (so_members _ _ H2 _ _ E) as (who & Hp & Eu & Ed). simpl in *. subst.
  exists room. destruct Hp as (Ho & <- & Hobs). split; [by eapply Hvalid|].
  apply (PubEvent _ _ id who); [done|]. by right; left.
Qed.

Lemma client_ok m st : message_ok log (SClient m) -> Forall (effect_ok log) (handle_client_message m st).
Proof.
  intros (who & Hp & Em & Hh & Hf). unfold handle_client_message. destruct (default _ _); constructor; [|constructor].
  exists (id_room who). rewrite Em. simpl. split; [by eapply Hvalid, Hp|]. by eapply PubPeer.
Qed.

(** The subscription a join asks for. *)
Definition subscription_ok (id : Z) (who : Identity) (e : server_effect) : Prop :=
  match e with
  | QueueSubscribe s subject _ => s = id /\ subject = (build_subject_and_queue (id_room who) (show_u64 id)).1
  | _ => True
  end.

Lemma join_task_ok now_ms id who existing first :
  opened log id who -> (first = true -> id_observer who = false) ->
  (forall m, m ∈ existing -> exists whom, participant log (id_room who) m.1.1 whom /\
    m.1.2 = id_user whom /\ m.2 = id_display_name whom) ->
  Forall (fun e => effect_ok log e /\ subscription_ok id who e) (join_task now_ms (join_of id who) id existing first).
Proof.
  intros Ho Hf He. unfold join_task. simpl. apply Forall_app. split; [|apply Forall_app; split].
  - destruct first; simpl; constructor; [|constructor]. split; [|done]. exists (id_room who).
    split; [by eapply Hvalid|]. apply (PubEvent _ _ id who); [by split_and!; auto|]. left. by eexists.
  - apply Forall_fmap, Forall_forall. intros [[sid uid] dname] Hin.
    destruct (He _ Hin) as (whom & Hp & Eu & Ed). simpl in *. subst. split; [|done]. exists who. split; [done|].
    apply (FromServer _ _ _ _ sid whom); [done|]. by right; left.
  - by repeat constructor.
Qed.

Lemma server_join_ok now_ms id who st : opened log id who -> server_ok log st ->
  let '(st', e, r) := handle_join now_ms (join_of id who) st in
  server_ok log st' /\ Forall (fun e => effect_ok log e /\ subscription_ok id who e) e.
Proof.
  intros Ho Hst. pose proof (join_members now_ms (join_of id who) st) as Hm.
  destruct (join_fields now_ms (join_of id who) st) as (Es & _).
  assert (server_ok log (handle_join now_ms (join_of id who) st).1.1) as Hst'.
  { destruct Hst as [H1 H2]. split; [|by rewrite Es]. intros r m [H|(-> & Hobs & _ & ->)]%Hm; [by apply H1|].
    by exists who. }
  clear Hm Es. revert Hst'. unfold handle_join. simpl. repeat case_bool_decide; [done..|].
  destruct (cancel_departure_spec (id_room who) (id_user who) (id_room who) st) as (Es & _ & _ & Hc).
  assert (Forall (fun e => effect_ok log e /\ subscription_ok id who e) (cancel_departure (id_room who) (id_user who) st).1.2)
    as Hcancel.
  { unfold cancel_departure. destruct (pending_departures st !! _); by repeat constructor. }
  destruct (cancel_departure _ _ st) as [[st1 cancel] rec]. simpl in *.
  set (st2 := if rec || id_observer who then _ else st1).
  assert (sessions st2 = sessions st /\ members_of (id_room who) st2 = members_of (id_room who) st1) as [Es2 Em2]
    by (unfold st2; by destruct (_ || _)).
  rewrite Es2, Em2. destruct (sessions st !! id) as [recipient|] eqn:Er; [|done].
  destruct (so_addr _ _ Hst _ _ Er) as [-> _]. intros Hst'. split; [done|]. apply Forall_app. split; [done|].
  apply join_task_ok; [done| |].
  - intros [_ Hobs]%andb_true_iff. by apply negb_true_iff in Hobs.
  - intros m. destruct (id_observer who); [set_solver|]. intros Hin. by apply (so_members _ _ Hst), Hc.
Qed.
End Opened.

(** ** The effects of the chat server *)

Lemma perform_one_ok w log e : rooms_ok w log -> effect_ok log e -> rooms_ok (perform_one e w) log.
Proof.
  intros [H1 H2 H3 H4 H5 H6 H7 H8 H9] He.
  destruct e as [subject b|session|handle|handle m delay|id sid b|session subject queue]; simpl in *;
    constructor; simpl; try done.
  - apply Forall_app. split; [done|]. constructor; [by right|constructor].
  - intros id pattern room [_ H]%lookup_delete_Some. eauto.
  - intros h m [_ H]%lookup_delete_Some. eauto.
  - intros h m' [[_ <-]|[_ H]]%lookup_insert_Some; eauto.
  - apply Forall_app. split; [done|]. by repeat constructor.
Qed.

Lemma perform_ok log l : forall w, rooms_ok w log -> Forall (effect_ok log) l -> rooms_ok (perform l w) log.
Proof.
  unfold perform. induction l as [|e l IH]; intros w Hw He; simpl; [done|]. apply Forall_cons in He as [He Hl].
  apply IH; [|done]. by apply perform_one_ok.
Qed.

Lemma subscribe_ok log id who l : forall w, opened log id who -> rooms_ok w log ->
  Forall (fun e => effect_ok log e /\ subscription_ok id who e) l ->
  rooms_ok (foldl (fun w e => subscribe_one (id_room who) e w) w l) log.
Proof.
  induction l as [|e l IH]; intros w Ho Hw He; simpl; [done|]. apply Forall_cons in He as [[He1 He2] Hl].
  apply IH; [done| |done]. destruct e; try (by apply perform_one_ok). simpl in He2. destruct He2 as [-> ->].
  destruct Hw as [H1 H2 H3 H4 H5 H6 H7 H8 H9]. constructor; simpl; try done.
  intros id' pattern room [[<- [= <- <-]]|[_ H]]%lookup_insert_Some; [by exists who|eauto].
Qed.

Lemma rooms_ok_server w log st : server_ok log st -> rooms_ok w log -> rooms_ok (w <| rl_server := st |>) log.
Proof. intros Hst []. by constructor. Qed.

Lemma rooms_valid w log id who : rooms_ok w log -> opened log id who -> valid_id (id_room who) = true.
Proof. intros Hw [t H]. by apply (ro_opened _ _ Hw) in H as [Hv _]. Qed.

Lemma serve_item_ok iter handle now_ms i w log :
  visits_entries iter -> item_ok log i -> rooms_ok w log -> rooms_ok (serve_item iter handle now_ms i w) log.
Proof.
  intros Hit Hi Hw. pose proof (rooms_valid w log) as Hv. pose proof (ro_server _ _ Hw) as Hst.
  assert (forall st e, server_ok log st /\ Forall (effect_ok log) e -> rooms_ok (perform e (w <| rl_server := st |>)) log) as Hgo.
  { intros st e [H1 H2]. apply perform_ok; [|done]. by apply rooms_ok_server. }
  destruct i as [[id|m|id|m|m]|m]; simpl in *.
  - destruct Hi as [who Ho]. specialize (Hgo (handle_connect id id (rl_server w)) []). destruct Hgo; [|by constructor].
    split; [by eapply connect_ok|constructor].
  - destruct Hi as (who & Ho & Em). rewrite Em. set (id := jr_session m) in *.
    pose proof (server_join_ok log ltac:(eauto) now_ms id who (rl_server w) Ho Hst) as Hj.
    destruct (handle_join _ _ _) as [[st e] r]. destruct Hj as [H1 H2].
    destruct (subscribe_ok log id who e (w <| rl_server := st |>)); [done|by apply rooms_ok_server|done|by constructor].
  - pose proof (activate_ok log ltac:(eauto) iter id (rl_server w) Hit Hst) as Ha.
    destruct (handle_activate _ _ _) as [st e]. by apply Hgo.
  - apply (Hgo (rl_server w)). split; [done|]. by apply client_ok; [eauto|].
  - destruct Hi as (who & Ho & Em). rewrite Em.
    pose proof (disconnect_ok log (dc_session m) who handle (rl_server w) Ho ltac:(eauto) Hst) as Hd.
    destruct (handle_disconnect _ _ _) as [st e]. by apply Hgo.
  - pose proof Hi as (who & (Ho & _) & Er & _). pose proof (Hv _ _ Hw Ho) as Hvr. rewrite <- Er in Hvr.
    pose proof (execute_ok log m (rl_server w) Hi Hvr Hst) as He.
    destruct (handle_execute _ _) as [st e]. by apply Hgo.
Qed.

(** ** The sessions *)

Definition nats_part (e : transport_effect) : option (string * bytes) :=
  match e with Session (PublishNats subject payload) => Some (subject, payload) | _ => None end.

Lemma absorb_eq l : forall w, absorb l w =
  w <| rl_inbox := rl_inbox w ++ (FromSession <$> omap server_part l) |>
    <| rl_nats := rl_nats w ++ omap nats_part l |>.
Proof.
  unfold absorb. induction l as [|e l IH]; intros w; simpl; [by destruct w; simpl; rewrite !app_nil_r|].
  rewrite IH. destruct e as [m|[]| | | | | | |]; simpl; try done; by rewrite <- app_assoc.
Qed.

(** What a session may be told by the rest of the server. *)
Definition told_ok log (id : Z) (ev : session_event) : Prop :=
  match ev with
  | ServerMessage _ _ msg => mail_ok log (id, msg)
  | _ => forall data, sent_data ev = Some data -> heard log id data
  end.

Lemma said_ok log id who s s' ev effects :
  sl_id (ts_logic s) = id -> identity_of (ts_logic s) = who -> opened log id who ->
  (forall data, data ∈ ts_notified s -> heard log id data /\ forwardable who data) ->
  session_facts s s' ev effects -> Forall (message_ok log) (omap server_part effects).
Proof.
  intros Hid Hwho Ho Hn [_ (clients & -> & Hc) _ _ _ _ _]. rewrite Hid, Hwho.
  apply Forall_app. split; [|apply Forall_app; split].
  - destruct (_ && _); repeat constructor. by exists who.
  - apply Forall_fmap, Forall_forall. intros data Hd. destruct (Hn _ (Hc _ Hd)) as [H1 H2].
    exists who. split_and!; [split_and!; [done|done|apply H2]|done|done|done].
  - destruct (_ && _); repeat constructor. by exists who.
Qed.

Lemma effects_published log id who s s' ev effects : valid_id (id_room who) = true ->
  identity_of (ts_logic s) = who -> opened log id who -> session_facts s s' ev effects ->
  Forall (nats_ok log) (omap nats_part effects).
Proof.
  intros Hv Hwho Ho [_ _ _ _ _ Hn _]. apply Forall_forall. intros [subject payload] (e & He & Hp)%list_elem_of_omap.
  destruct e as [|[]| | | | | | |]; simplify_eq/=. destruct (Hn _ _ He) as (sid & -> & Hw).
  right. exists (id_room (identity_of (ts_logic s))). split; [done|]. by eapply (PubCongested _ _ id).
Qed.

Lemma step_session_ok id ev w log : rooms_ok w log -> told_ok log id ev ->
  let '(w', out) := step_session id ev w in rooms_ok w' (log ++ out).
Proof.
  intros Hw Htold. unfold step_session. destruct (rl_sessions w !! id) as [[t s]|] eqn:E; [|by rewrite app_nil_r].
  pose proof (session_step_facts t s ev) as F. destruct (session_step t s ev) as [s' effects].
  destruct (ro_sessions _ _ Hw _ _ _ E) as (Hid & Hop & Hn).
  assert (opened log id (identity_of (ts_logic s))) as Ho by by eexists.
  pose proof (rooms_valid _ _ _ _ Hw Ho) as Hv. pose proof (sf_same _ _ _ _ F) as [Hid' Hwho'].
  rewrite absorb_eq. apply rooms_ok_log.
  - intros i t' who. rewrite list_elem_of_fmap. by intros (? & [=] & _).
  - intros i e b (e' & [= -> ->] & He)%list_elem_of_fmap Hb. exists (identity_of (ts_logic s)). split; [done|].
    destruct (sf_frames _ _ _ _ F _ _ He Hb) as [H|[H|(now & chan & ->)]]; [rewrite Hid in H; by left|..].
    + right. left. destruct ev; simpl in *; eauto; done.
    + right. right. destruct Htold as (who & [t' Ho'] & Hf).
      destruct (ro_opened _ _ Hw _ _ _ Ho') as (_ & s0 & Es & <-). simpl in *. by simplify_eq.
  - pose proof (said_ok log id _ s s' ev effects Hid eq_refl Ho Hn F) as Hsaid.
    pose proof (effects_published log id _ s s' ev effects Hv eq_refl Ho F) as Hpub.
    destruct Hw as [H1 H2 H3 H4 H5 H6 H7 H8 H9]. constructor; simpl; try done.
    + intros i t' s0 [[<- [= <- <-]]|[_ H]]%lookup_insert_Some; [|by apply H2].
      rewrite Hid', Hwho'. split_and!; [done..|]. intros data [Hd|(Hd & Hf & _)]%(sf_notified _ _ _ _ F); [by apply Hn|].
      split; [|done]. destruct ev; simpl in *; eauto; done.
    + intros i t' who H. destruct (H3 _ _ _ H) as (Hv' & s0 & Es & Ew). split; [done|].
      destruct (decide (i = id)) as [->|]; [|rewrite lookup_insert_ne by done; eauto].
      rewrite lookup_insert_eq. assert (s0 = s /\ t' = t) as [-> ->] by (split; congruence). exists s'. split; [done|congruence].
    + apply Forall_app. split; [done|]. by apply Forall_fmap.
    + by apply Forall_app.
Qed.

(** ** Opening *)

Lemma open_session_ok uuid now t who w log : valid_id (id_room who) = true -> rooms_ok w log ->
  let '(w', out) := open_session uuid now t who w in rooms_ok w' (log ++ out).
Proof.
  intros Hv Hw. unfold open_session. set (s := session_of uuid now who).
  destruct (rl_sessions w !! sl_id (ts_logic s)) as [?|] eqn:E; [by rewrite app_nil_r|].
  set (id := sl_id (ts_logic s)) in *. set (effects := session_started _ _). rewrite absorb_eq.
  set (log1 := log ++ [Opened id t who]).
  assert (log ⊆ log1) as Hsub by set_solver.
  assert (opened log1 id who) as Ho by (exists t; set_solver).
  replace (log ++ Opened id t who :: (Did id <$> effects)) with (log1 ++ (Did id <$> effects)) by (unfold log1; by rewrite <- app_assoc).
  apply rooms_ok_log.
  - intros i t' who'. rewrite list_elem_of_fmap. by intros (? & [=] & _).
  - intros i e b (e' & [= -> ->] & He)%list_elem_of_fmap Hb. unfold effects, session_started in He.
    repeat (apply elem_of_cons in He as [->|He]; [done|]). set_solver.
  - destruct Hw as [H1 H2 H3 H4 H5 H6 H7 H8 H9]. constructor; simpl.
    + by eapply server_mono.
    + intros i t' s' [[<- [= <- <-]]|[_ H]]%lookup_insert_Some.
      * split_and!; [done|by destruct who; set_solver|]. simpl. set_solver.
      * destruct (H2 _ _ _ H) as (E1 & E2 & E3). split_and!; [done|set_solver|].
        intros data Hd. destruct (E3 data Hd). split; [by eapply heard_mono|done].
    + intros i t' who' [H|H]%elem_of_app.
      * destruct (H3 _ _ _ H) as (Hv' & s0 & Es & Ew). split; [done|]. exists s0. split; [|done].
        rewrite lookup_insert_ne; [done|congruence].
      * apply list_elem_of_singleton in H as [= -> -> ->]. split; [done|]. exists s.
        rewrite lookup_insert_eq. split; [done|]. by destruct who.
    + apply Forall_app. split; [eapply Forall_impl; [exact H4|]; intros i; by apply item_mono|].
      repeat constructor; exists who; [done|]. split; [done|]. by destruct who.
    + intros h m Hm. eapply departure_mono; eauto.
    + intros i pattern room Hs. destruct (H6 _ _ _ Hs) as (who' & Ho' & Hr). exists who'. eauto using was_opened_mono.
    + rewrite app_nil_r. eapply Forall_impl; [exact H7|]. intros i. by apply nats_mono.
    + eapply Forall_impl; [exact H8|]. intros i. by apply mail_mono.
    + intros i e b [Hd|Hd]%elem_of_app Hb; [|by apply list_elem_of_singleton in Hd].
      destruct (H9 i e b Hd Hb) as (who' & Ho' & Hf). exists who'. split; [by eapply was_opened_mono|].
      naive_solver eauto using heard_mono, from_room_mono.
Qed.

Lemma path_identity_valid user room who : path_identity user room = Some who -> valid_id (id_room who) = true.
Proof.
  unfold path_identity. destruct (valid_id _ && valid_id _) eqn:E; [|done]. intros [= <-].
  by apply andb_true_iff in E as [_ E].
Qed.

(** Whoever is let in has a room name of safe characters. *)
Lemma accepted_valid jwt_decode jwt_secret managed r t who :
  accepted jwt_decode jwt_secret managed r = Some (t, who) -> valid_id (id_room who) = true.
Proof.
  assert (forall token c, decode_room_token jwt_decode jwt_secret token = Ok c -> valid_id (id_room (claims_identity c)) = true) as Hd.
  { intros token c (_ & Hv & _)%decode_accepts. done. }
  destruct r as [token|user room|path token]; simpl.
  - unfold ws_connect_authenticated. case_bool_decide; [done|].
    destruct (decode_room_token _ _ _) eqn:E; [|done]. intros [= <- <-]. eauto.
  - unfold ws_connect. destruct managed; [done|]. destruct (path_identity user room) eqn:E; [|done].
    intros [= <- <-]. by eapply path_identity_valid.
  - unfold webtransport_identity. case_bool_decide; [done|]. destruct token as [token|].
    + case_bool_decide; [done|]. destruct (decode_room_token _ _ _) eqn:E; [|done]. intros [= <- <-]. eauto.
    + destruct managed; [done|]. simpl. intros Ha. repeat case_match; simplify_eq. by eapply path_identity_valid.
Qed.

(** ** Delivery *)

Lemma congestion_subject room sid :
  ("room." +:+ replace_spaces room +:+ "." +:+ show_u64 sid)%string = session_subject room sid.
Proof. unfold session_subject. rewrite !replace_spaces_app, show_u64_spaces. done. Qed.

Lemma published_tokens log room subject b : valid_id room = true -> published log room subject b ->
  exists last, split_dots subject = ["room"; room; last]%string.
Proof.
  intros Hv. pose proof (fun s => room_tokens room s Hv) as Ht.
  destruct 1 as [|id|id who sid]; rewrite ?congestion_subject.
  - destruct (Ht 0) as (_ & E & _). eauto.
  - destruct (Ht id) as (E & _). eauto.
  - destruct (Ht sid) as (E & _). eauto.
Qed.

(** A subscription gets what is published for its room, and nothing else. *)
Lemma subscribed_tokens nats_matches {nats : NatsLaws nats_matches} room session subject : valid_id room = true ->
  nats_matches (build_subject_and_queue room session).1 subject = true <->
  exists last, split_dots subject = ["room"; room; last]%string.
Proof.
  intros Hv. destruct (room_tokens room 0 Hv) as (_ & _ & Ht). change (build_subject_and_queue room session).1 with
    (build_subject_and_queue room (show_u64 0)).1.
  assert (room <> "*"%string /\ room <> ">"%string) as [Hstar Hgt] by (split; intros ->; discriminate Hv).
  rewrite nats_tokens, Ht; [|rewrite Ht; set_solver]. split.
  - intros H. inversion_clear H as [|? t1 ? l1 [|<-] H1]; [done|]. inversion_clear H1 as [|? t2 ? l2 [|<-] H2]; [done|].
    inversion_clear H2 as [|? t3 ? l3 _ H3]. inversion_clear H3. by exists t3.
  - intros [last ->]. do 2 (constructor; [by right|]). constructor; [by left|constructor].
Qed.

(** Stamping does not turn a packet into a congestion signal. *)
Lemma stamp_not_congestion {laws : WireLaws} id who data : forwardable who data ->
  match parse_wrapper (stamp_session id data) with Some w => packet_type w =? CONGESTION | None => false end = false.
Proof.
  intros [_ Hf]. unfold stamp_session. destruct (parse_wrapper data) as [w|] eqn:E; [|by rewrite E].
  specialize (Hf w eq_refl). set (w' := if pw_session_id w =? 0 then _ else w).
  assert (packet_type w' = packet_type w) as Ew by (unfold w'; by destruct (_ =? _)).
  destruct (write_wrapper w') as [b|] eqn:Eb; simpl; [rewrite (parse_write_wrapper _ _ Eb), Ew|rewrite E]; by apply Z.eqb_neq.
Qed.

Lemma deliver_ok {laws : WireLaws} nats_matches {nats : NatsLaws nats_matches} w log id who subject payload :
  rooms_ok w log -> opened log id who -> nats_ok log (subject, payload) ->
  nats_matches (build_subject_and_queue (id_room who) (show_u64 id)).1 subject = true ->
  Forall (effect_ok log) (handle_msg id (id_room who) id subject payload).
Proof.
  intros Hw Ho Hn Hs. apply subscribed_tokens in Hs as [last Hs]; [|done|by eapply rooms_valid]. unfold handle_msg.
  assert (from_room log (id_room who) id payload -> Forall (effect_ok log) [TrySend id id payload]) as Hmail.
  { intros Hf. constructor; [by exists who|constructor]. }
  destruct Hn as [Hp|(room & Hv & Hp)]; simpl in *.
  { destruct (_ && _); [constructor|]. by eapply Hmail, FromOutside. }
  destruct (published_tokens _ _ _ _ Hv Hp) as [last' Hs']. assert (room = id_room who) as -> by congruence. clear Hs Hs'.
  destruct Hp as [i who' b Hpart He|i who' data Hpart Hh Hf|i who' sid b Ho' Hr Hb].
  - destruct (_ && _); [constructor|]. by eapply Hmail, FromServer.
  - destruct (decide (i = id)) as [->|Hne].
    + rewrite bool_decide_true, (stamp_not_congestion id who') by done. constructor.
    + destruct (_ && _); [constructor|]. by eapply Hmail, FromPeer.
  - destruct (_ && _); [constructor|]. by eapply Hmail, FromCongested.
Qed.
End Log.

Section Relayed.
Context {wire : Wire} {laws : WireLaws}.
Context (iter : gmap string (list member) -> list (string * list member)).
Context (jwt_decode : string -> string -> result RoomAccessTokenClaims JwtError).
Context (jwt_secret : string) (meeting_management_enabled : bool).
Context (nats_matches : string -> string -> bool).

Notation relay := (relay_step iter jwt_decode jwt_secret meeting_management_enabled nats_matches).

Lemma relay_step_ok {nats : NatsLaws nats_matches} w log ev : visits_entries iter -> rooms_ok w log ->
  let '(w', out) := relay w ev in rooms_ok w' (log ++ out).
Proof.
  intros Hit Hw. destruct ev as [uuid now r|id e|id lost|id lost|now chan k|handle now_ms|handle|subject payload|id k]; simpl.
  - destruct (accepted _ _ _ r) as [[t who]|] eqn:E; [|by rewrite app_nil_r].
    apply open_session_ok; [by eapply accepted_valid|done].
  - destruct (from_outside e) eqn:E; [|by rewrite app_nil_r].
    assert (rooms_ok w (log ++ [Heard id e])) as Hw' by (apply rooms_ok_log; [set_solver..|done]).
    assert (told_ok (log ++ [Heard id e]) id e) as Ht.
    { destruct e; try discriminate E; intros d Hd; eexists; (split; [|exact Hd]); set_solver. }
    pose proof (step_session_ok id e w _ Hw' Ht) as H. destruct (step_session id e w) as [w' out].
    by rewrite <- app_assoc in H.
  - destruct lost; [|case_bool_decide; [|by rewrite app_nil_r]]; by apply step_session_ok.
  - destruct lost; [by apply step_session_ok|]. destruct (rl_joined w !! id); [|by rewrite app_nil_r]. by apply step_session_ok.
  - destruct (rl_mail w !! k) as [[id payload]|] eqn:E; [|by rewrite app_nil_r].
    apply step_session_ok; [done|]. exact (Forall_lookup_1 _ _ _ _ (ro_mail _ _ Hw) E).
  - destruct (rl_inbox w) as [|i rest] eqn:E; rewrite app_nil_r; [done|]. pose proof (ro_inbox _ _ Hw) as Hi.
    rewrite E in Hi. apply Forall_cons in Hi as [Hi Hr]. apply serve_item_ok; [done..|]. destruct Hw. by constructor.
  - destruct (rl_timers w !! handle) as [m|] eqn:E; rewrite app_nil_r; [|done].
    pose proof (ro_timers _ _ Hw _ _ E) as Hm. destruct Hw. constructor; simpl; try done.
    + apply Forall_app. split; [done|]. by repeat constructor.
    + intros h m' [_ H]%lookup_delete_Some. eauto.
  - assert (rooms_ok w (log ++ [Published subject payload])) as Hw' by (apply rooms_ok_log; [set_solver..|done]).
    destruct Hw'. constructor; simpl; try done. apply Forall_app. split; [done|]. constructor; [|constructor].
    left. set_solver.
  - destruct (rl_subs w !! id) as [[pattern room]|] eqn:Es; [|by rewrite app_nil_r].
    destruct (rl_nats w !! k) as [[subject payload]|] eqn:En; [|by rewrite app_nil_r].
    destruct (nats_matches pattern subject) eqn:Em; rewrite app_nil_r; [|done].
    destruct (ro_subs _ _ Hw _ _ _ Es) as (who & Ho & -> & ->).
    apply perform_ok; [done|]. eapply deliver_ok; eauto. exact (Forall_lookup_1 _ _ _ _ (ro_nats _ _ Hw) En).
Qed.

Lemma relay_new_ok : rooms_ok relay_new [].
Proof.
  constructor; simpl; try done; try set_solver. split; [|done].
  intros r m Hm. unfold members_of in Hm. simpl in Hm. set_solver.
Qed.
End Relayed.
