(* ===== verification/RelayLife.v ===== *)
(** * The life of a session in the media server

    Rooms are separate; what a session says to the chat server over its life, and what is
    left of it when it is gone. *)
From Stdlib Require Import Ascii.
From S2P Require Import Prelude Protocol DemoWire TokenValidator SessionLogic ChatServer ChatServerProps Transport TransportProps Relay RelayProps.

(** ** Conversations *)

(** The messages a session has sent the chat server, in order. *)
Definition said_one (id : Z) (o : relay_output) : option to_server :=
  match o with
  | Did id' e => if bool_decide (id' = id) then server_part e else None
  | _ => None
  end.

Definition said_by (id : Z) (log : list relay_output) : list to_server := omap (said_one id) log.

Definition client_messages (id : Z) (who : Identity) (l : list bytes) : list to_server :=
  (fun data => SClient (client_of id who data)) <$> l.

(** Introduction, perhaps activation and then packets, perhaps the goodbye. *)
Definition conversation (id : Z) (who : Identity) (activated gone : bool) (packets : list bytes) : list to_server :=
  [SConnect id; SJoin (join_of id who)] ++
  (if activated then SActivate id :: client_messages id who packets else []) ++
  (if gone then [SDisconnect (disconnect_of id who)] else []).

Section Conversations.
Context {wire : Wire}.

Lemma said_same id effects : said_by id (Did id <$> effects) = omap server_part effects.
Proof.
  unfold said_by. induction effects as [|e l IH]; simpl; [done|]. rewrite bool_decide_true by done.
  destruct (server_part e); [f_equal|]; exact IH.
Qed.

Lemma said_nil id out : (forall e, Did id e ∉ out) -> said_by id out = [].
Proof.
  intros H. apply elem_of_nil_inv. intros m (o & Hin & Hm)%list_elem_of_omap. destruct o; try done. simpl in Hm.
  case_bool_decide; [subst; by apply H in Hin|done].
Qed.

Lemma said_app id log log' : said_by id (log ++ log') = said_by id log ++ said_by id log'.
Proof. apply omap_app. Qed.

(** One session's part of the invariant. *)
Definition session_talk (id : Z) (s : TransportSession) (log : list relay_output) : Prop :=
  sl_id (ts_logic s) = id /\ (ts_notified s <> [] -> ts_activated s = true) /\
  (forall data, data ∈ ts_notified s -> id_observer (identity_of (ts_logic s)) = false) /\
  exists packets, said_by id log = conversation id (identity_of (ts_logic s)) (ts_activated s) (stopped s) packets /\
    (packets <> [] -> ts_activated s = true /\ id_observer (identity_of (ts_logic s)) = false).

Definition talk_at (id : Z) (x : option (Transport * TransportSession)) (log : list relay_output) : Prop :=
  match x with
  | Some (t, s) => session_talk id s log /\ forall t' who, Opened id t' who ∈ log -> t' = t /\ who = identity_of (ts_logic s)
  | None => said_by id log = [] /\ forall t who, Opened id t who ∉ log
  end.

Definition talk_ok (w : Relay) (log : list relay_output) : Prop := forall id, talk_at id (rl_sessions w !! id) log.

Lemma session_talk_step id s s' ev effects log :
  session_talk id s log -> session_facts s s' ev effects -> session_talk id s' (log ++ (Did id <$> effects)).
Proof.
  intros (Hid & Hact & Hobs & packets & Hsaid & Hp) [[Hid' Hwho] (clients & Hc & Hin) Hmono Hstop Hn _ _].
  unfold session_talk. rewrite Hwho, Hid', said_app, said_same, Hsaid. split; [done|].
  destruct (stopped s) eqn:Es.
  { destruct (Hstop eq_refl) as [-> ->]. split_and!; [done..|]. exists packets. by rewrite Es, app_nil_r. }
  rewrite Hc, Hid.
  split; [|split].
  - intros Hne. destruct (ts_notified s') as [|d l] eqn:En; [done|].
    destruct (Hn d ltac:(by left)) as [H|(_ & _ & H)]; [|done]. apply Hmono, Hact. by intros E; rewrite E in H; set_solver.
  - intros d Hd. destruct (Hn d Hd) as [H|(_ & [H _] & _)]; eauto.
  - destruct (ts_activated s) eqn:Ea.
    + rewrite (Hmono eq_refl). exists (packets ++ clients). simpl. unfold conversation, client_messages. split.
      * rewrite fmap_app. simpl. rewrite app_nil_r, <- !app_assoc. done.
      * intros Hne. split; [done|]. destruct clients as [|d cs]; [rewrite app_nil_r in Hne; by apply Hp|].
        eapply Hobs, Hin. by left.
    + assert (clients = []) as ->.
      { destruct clients as [|d cs]; [done|]. assert (ts_notified s <> []) as H; [|by apply Hact in H].
        specialize (Hin d ltac:(by left)). intros E. rewrite E in Hin. set_solver. }
      exists []. simpl. split; [|done]. destruct (ts_activated s'); simpl; done.
Qed.

(** Output that does not concern a session. *)
Lemma talk_at_other id x log out :
  (forall e, Did id e ∉ out) -> (forall t who, Opened id t who ∉ out) -> talk_at id x log -> talk_at id x (log ++ out).
Proof.
  intros Hd Ho H. assert (said_by id (log ++ out) = said_by id log) as Hs by by rewrite said_app, (said_nil id out), app_nil_r.
  destruct x as [[t s]|]; simpl in *; unfold session_talk; rewrite Hs; set_solver.
Qed.

Lemma talk_ok_quiet w w' log out :
  rl_sessions w' = rl_sessions w -> (forall id e, Did id e ∉ out) -> (forall id t who, Opened id t who ∉ out) ->
  talk_ok w log -> talk_ok w' (log ++ out).
Proof. intros Es Hd Ho H id. rewrite Es. by apply talk_at_other. Qed.

Lemma absorb_sessions l w : rl_sessions (absorb l w) = rl_sessions w.
Proof. by rewrite absorb_eq. Qed.

Lemma did_elem id id' e (effects : list transport_effect) : Did id e ∈ (Did id' <$> effects) -> id = id'.
Proof. by intros (? & [= -> ->] & _)%list_elem_of_fmap. Qed.

Lemma did_not_opened id t who id' (effects : list transport_effect) : Opened id t who ∉ (Did id' <$> effects).
Proof. by intros (? & ? & _)%list_elem_of_fmap. Qed.

Lemma talk_ok_step id ev w log : talk_ok w log -> let '(w', out) := step_session id ev w in talk_ok w' (log ++ out).
Proof.
  intros H. unfold step_session. destruct (rl_sessions w !! id) as [[t s]|] eqn:E; [|by rewrite app_nil_r].
  pose proof (session_step_facts t s ev) as F. destruct (session_step t s ev) as [s' effects].
  intros i. rewrite absorb_sessions. simpl. pose proof (H i) as Hi. destruct (decide (i = id)) as [->|Hne].
  - rewrite lookup_insert_eq. rewrite E in Hi. destruct Hi as [Hi Hop]. split; [by eapply session_talk_step|].
    destruct (sf_same _ _ _ _ F) as [_ ->]. intros t' who [Ho|Ho]%elem_of_app; [by apply Hop|].
    by apply did_not_opened in Ho.
  - rewrite lookup_insert_ne by done. apply talk_at_other; [|intros; apply did_not_opened|done].
    by intros e ?%did_elem.
Qed.

Lemma talk_ok_open uuid now t who w log : talk_ok w log ->
  let '(w', out) := open_session uuid now t who w in talk_ok w' (log ++ out).
Proof.
  intros H. unfold open_session. set (s := session_of uuid now who).
  destruct (rl_sessions w !! sl_id (ts_logic s)) as [?|] eqn:E; [by rewrite app_nil_r|].
  set (id := sl_id (ts_logic s)) in *. remember (session_started _ _) as effects eqn:Ee. intros i. rewrite absorb_sessions. simpl. pose proof (H i) as Hi.
  destruct (decide (i = id)) as [->|Hne].
  - rewrite lookup_insert_eq. rewrite E in Hi. destruct Hi as [Hi Hop]. split.
    2: { intros t' who' [Ho|[Ho|Ho]%elem_of_cons]%elem_of_app; [by apply Hop in Ho| |by apply did_not_opened in Ho].
         injection Ho as -> ->. by destruct who. }
    unfold session_talk. split_and!; [done|done|simpl; set_solver|]. exists []. split; [|done].
    rewrite said_app, Hi, Ee. simpl. rewrite !bool_decide_true by done. by destruct who.
  - rewrite lookup_insert_ne by done. apply talk_at_other; [| |done].
    + intros e [He|He%did_elem]%elem_of_cons; done.
    + intros t' who' [Ho|Ho]%elem_of_cons; [|by apply did_not_opened in Ho]. by injection Ho.
Qed.

Lemma perform_sessions l w : rl_sessions (perform l w) = rl_sessions w.
Proof. unfold perform. revert w. induction l as [|e l IH]; intros w; simpl; [done|]. rewrite IH. by destruct e. Qed.

Lemma subscribe_sessions room l w : rl_sessions (foldl (fun w e => subscribe_one room e w) w l) = rl_sessions w.
Proof. revert w. induction l as [|e l IH]; intros w; simpl; [done|]. rewrite IH. by destruct e. Qed.

Lemma serve_item_sessions iter handle now_ms i w : rl_sessions (serve_item iter handle now_ms i w) = rl_sessions w.
Proof.
  destruct i as [[id|m|id|m|m]|m]; simpl; repeat case_match; simpl; by rewrite ?perform_sessions, ?subscribe_sessions.
Qed.
End Conversations.

(** ** What is left of a session *)

(** The chat server's records of a session, but for the lists of members. *)
Definition keeps (id : Z) (st : ChatServer) : Prop :=
  is_Some (sessions st !! id) \/ is_Some (connection_states st !! id) \/
  id ∈ active_subs st \/ id ∈ suppress_join_broadcast st.

Definition creates (m : server_msg) : option Z :=
  match m with
  | MConnect id _ => Some id
  | MActivate id => Some id
  | MJoin j _ => Some (jr_session j)
  | _ => None
  end.

Section Keeps.
Context {wire : Wire}.

Lemma keeps_mono id st st' :
  sessions st' ⊆ sessions st -> connection_states st' ⊆ connection_states st ->
  active_subs st' ⊆ active_subs st -> suppress_join_broadcast st' ⊆ suppress_join_broadcast st ->
  keeps id st' -> keeps id st.
Proof.
  intros H1 H2 H3 H4 [[a H]|[[a H]|[H|H]]]; [left|right; left|right; right; left; set_solver|right; right; right; set_solver];
    exists a; by eapply lookup_weaken.
Qed.

Lemma leave_rooms_keeps id session room user dname obs st :
  keeps id (leave_rooms session (Some room) user dname obs st).1 -> keeps id st.
Proof.
  destruct (leave_rooms_fields session room user dname obs st) as (E1 & E2 & _ & E4 & E5).
  apply keeps_mono; rewrite ?E1, ?E2, ?E4, ?E5; set_solver.
Qed.

Lemma disconnect_keeps id m handle st : keeps id (handle_disconnect m handle st).1 -> keeps id st /\ id <> dc_session m.
Proof.
  assert (forall st', sessions st' = sessions (forget_session (dc_session m) st) ->
    connection_states st' = connection_states (forget_session (dc_session m) st) ->
    suppress_join_broadcast st' = suppress_join_broadcast (forget_session (dc_session m) st) ->
    active_subs st' = active_subs st ∖ {[dc_session m]} -> keeps id st' -> keeps id st /\ id <> dc_session m) as Hgo.
  { intros st' E1 E2 E3 E4. unfold keeps. rewrite E1, E2, E3, E4. simpl.
    destruct (decide (id = dc_session m)) as [->|Hne].
    - rewrite !lookup_delete_eq. intros [[? ?]|[[? ?]|[H|H]]]; [done|done|set_solver..].
    - rewrite !lookup_delete_ne by done. set_solver. }
  unfold handle_disconnect. destruct (dc_observer m).
  - match goal with |- context [leave_rooms ?a (Some ?b) ?c ?d ?e ?f] =>
      destruct (leave_rooms_fields a b c d e f) as (E1 & E2 & _ & E4 & E5) end. by apply Hgo.
  - destruct (stop_task_fields (dc_session m) (forget_session (dc_session m) st)) as (E1 & E2 & _ & _ & E4 & E5).
    destruct (stop_task _ _) as [st2 abort]. simpl in *. by apply Hgo.
Qed.

Lemma join_keeps id now_ms m st : keeps id (handle_join now_ms m st).1.1 -> keeps id st \/ id = jr_session m.
Proof.
  destruct (decide (id = jr_session m)) as [->|Hne]; [by right|]. intros H. left. revert H.
  destruct (join_fields now_ms m st) as (E1 & E2 & _). unfold keeps. rewrite E1, E2. clear E1 E2.
  unfold handle_join. repeat case_bool_decide; [done..|].
  destruct (cancel_departure_spec (jr_room m) (jr_user_id m) (jr_room m) st) as (_ & E1 & E2 & _).
  destruct (cancel_departure _ _ st) as [[st1 cancel] rec]. simpl in *.
  destruct (rec || jr_observer m), (jr_observer m); simpl; destruct (sessions st1 !! _); simpl; set_solver.
Qed.

Lemma serve_keeps iter id msg st : keeps id (serve iter st msg).1 -> keeps id st \/ creates msg = Some id.
Proof.
  destruct msg as [i addr|m handle|s room u|s|m|m|m now]; simpl; auto.
  - intros H. destruct (decide (i = id)) as [->|Hne]; [by right|left]. revert H. unfold keeps. simpl.
    by rewrite !lookup_insert_ne.
  - intros [H _]%disconnect_keeps. by left.
  - unfold handle_leave. intros H%leave_rooms_keeps. by left.
  - intros H. destruct (decide (s = id)) as [->|Hne]; [by right|left]. revert H. unfold handle_activate.
    assert (forall st2, st2 = st <| connection_states := <[s := Active]> (connection_states st) |>
      <| suppress_join_broadcast := suppress_join_broadcast st ∖ {[s]} |> -> keeps id st2 -> keeps id st) as Hk.
    { intros st2 ->. unfold keeps. simpl. rewrite lookup_insert_ne by done. set_solver. }
    destruct (_ && _); [|by apply Hk]. destruct (find_session _ _) as [[[? ?] ?]|]; by apply Hk.
  - unfold handle_execute. intros H. left. destruct (pending_departures st !! _) as [pd|]; [|done].
    case_bool_decide as Hold; simpl in H; [|done]. destruct (was_active pd); simpl in H.
    + by apply leave_rooms_keeps in H.
    + revert H. match goal with |- keeps _ (remove_member ?a ?b ?c) -> _ =>
        destruct (remove_member_fields a b c) as (E1 & E2 & _ & E4 & E5) end.
      apply keeps_mono; by rewrite ?E1, ?E2, ?E4, ?E5.
  - intros [H|H]%join_keeps; [by left|right; congruence].
Qed.

(** A subscription task is aborted when it is forgotten. *)
Lemma stop_task_abort id session st :
  id ∈ active_subs st -> id ∈ active_subs (stop_task session st).1 \/ AbortTask id ∈ (stop_task session st).2.
Proof.
  intros H. unfold stop_task. case_bool_decide as Hs; [|by left]. simpl. destruct (decide (id = session)) as [->|]; set_solver.
Qed.

Lemma leave_rooms_abort id session room user dname obs st :
  let '(st', e) := leave_rooms session (Some room) user dname obs st in
  id ∈ active_subs st -> id ∈ active_subs st' \/ AbortTask id ∈ e.
Proof.
  pose proof (leave_rooms_state session room user dname obs st) as E1. unfold leave_rooms in *.
  pose proof (stop_task_abort id session st) as H. destruct (stop_task session st) as [st1 abort]. simpl in *.
  destruct (remove_member_fields room session st1) as (_ & _ & _ & _ & E).
  repeat case_match; simpl in *; rewrite E; set_solver.
Qed.

Ltac by_leave_rooms :=
  match goal with |- context [leave_rooms ?a (Some ?b) ?c ?d ?e ?f] =>
    let H := fresh in
    pose proof (fun id => leave_rooms_abort id a b c d e f) as H; destruct (leave_rooms a (Some b) c d e f);
    simpl in *; exact (H _)
  end.

Lemma serve_abort iter id msg st :
  let '(st', e) := serve iter st msg in id ∈ active_subs st -> id ∈ active_subs st' \/ AbortTask id ∈ e.
Proof.
  destruct msg as [i addr|m handle|s room u|s|m|m|m now]; simpl; auto.
  - unfold handle_disconnect. destruct (dc_observer m).
    + by_leave_rooms.
    + pose proof (stop_task_abort id (dc_session m) (forget_session (dc_session m) st)) as H.
      destruct (stop_task _ _) as [st2 abort]. simpl in *. set_solver.
  - unfold handle_leave. by_leave_rooms.
  - unfold handle_activate. destruct (_ && _); [|by left]. destruct (find_session _ _) as [[[? ?] ?]|]; by left.
  - unfold handle_execute. destruct (pending_departures st !! _) as [pd|]; [|by left].
    case_bool_decide; simpl; [|by left]. destruct (was_active pd); simpl.
    + by_leave_rooms.
    + match goal with |- context [remove_member ?a ?b ?c] =>
        destruct (remove_member_fields a b c) as (_ & _ & _ & _ & E) end. rewrite E. by left.
  - pose proof (cancel_departure_spec (jr_room m) (jr_user_id m) (jr_room m) st) as (_ & E1 & E2 & _).
    unfold handle_join. repeat case_bool_decide; simpl; [by left..|].
    destruct (cancel_departure _ _ st) as [[st1 cancel] rec]. simpl in *.
    destruct (rec || jr_observer m), (jr_observer m); simpl; destruct (sessions st1 !! _); simpl; set_solver.
Qed.
End Keeps.

(** The state a waiting message will create, and the one that will remove it. *)
Definition item_creates (i : inbox_item) : option Z :=
  match i with
  | FromSession (SConnect id) | FromSession (SActivate id) => Some id
  | FromSession (SJoin m) => Some (jr_session m)
  | _ => None
  end.

Definition says_goodbye (id : Z) (l : list inbox_item) : Prop :=
  exists m, FromSession (SDisconnect m) ∈ l /\ dc_session m = id.

(** Nothing that creates state follows the goodbye of its session. *)
Fixpoint orderly (live : Z -> Prop) (l : list inbox_item) : Prop :=
  match l with
  | [] => True
  | i :: rest => (forall id, item_creates i = Some id -> live id \/ says_goodbye id rest) /\ orderly live rest
  end.

Definition live (w : Relay) (id : Z) : Prop :=
  exists t s, rl_sessions w !! id = Some (t, s) /\ stopped s = false.

Record tidy (w : Relay) : Prop := {
  ti_ids : forall id t s, rl_sessions w !! id = Some (t, s) -> sl_id (ts_logic s) = id;
  ti_orderly : orderly (live w) (rl_inbox w);
  ti_keeps : forall id, keeps id (rl_server w) -> live w id \/ says_goodbye id (rl_inbox w);
  ti_subs : forall id, is_Some (rl_subs w !! id) -> id ∈ active_subs (rl_server w);
}.

Section Tidy.
Context {wire : Wire}.

Lemma orderly_app live live' l new :
  (forall id, live id -> live' id \/ says_goodbye id new) -> orderly live' new -> orderly live l -> orderly live' (l ++ new).
Proof.
  intros Hl Hn. assert (forall id l0, says_goodbye id l0 -> says_goodbye id (l0 ++ new)) as Hg.
  { intros id l0 (m & Hm & E). exists m. split; [set_solver|done]. }
  induction l as [|i l IH]; simpl; [done|]. intros [Hi H]. split; [|by apply IH].
  intros id Hc. destruct (Hi id Hc) as [H1|H1]; [|right; by apply Hg].
  destruct (Hl id H1) as [H2|(m & Hm & E)]; [by left|right]. exists m. split; [set_solver|done].
Qed.

(** Messages appended by a step of a session, or by its opening. *)
Lemma tidy_extend w w' new :
  tidy w -> rl_server w' = rl_server w -> rl_subs w' = rl_subs w -> rl_inbox w' = rl_inbox w ++ new ->
  (forall id t s, rl_sessions w' !! id = Some (t, s) -> sl_id (ts_logic s) = id) ->
  (forall id, live w id -> live w' id \/ says_goodbye id new) -> orderly (live w') new -> tidy w'.
Proof.
  intros [H1 H2 H3 H4] Es Eu Ei Hids Hl Hn. constructor; rewrite ?Es, ?Eu, ?Ei; try done.
  - by eapply orderly_app.
  - intros id Hk. destruct (H3 id Hk) as [H|(m & Hm & E)]; [|right; exists m; split; [set_solver|done]].
    destruct (Hl id H) as [H'|(m & Hm & E)]; [by left|right]. exists m. split; [set_solver|done].
Qed.

Lemma orderly_clients live id who clients fin :
  orderly live fin -> orderly live ((FromSession <$> client_messages id who clients) ++ fin).
Proof. intros Hf. induction clients as [|d l IH]; simpl; [done|]. by split. Qed.

Lemma tidy_session id ev w : tidy w -> tidy (step_session id ev w).1.
Proof.
  intros Hw. unfold step_session. destruct (rl_sessions w !! id) as [[t s]|] eqn:E; [|done].
  pose proof (session_step_facts t s ev) as F. destruct (session_step t s ev) as [s' effects].
  destruct F as [[Hid' Hwho] (clients & Hc & _) _ Hstop _ _ _]. pose proof (ti_ids _ Hw _ _ _ E) as Hid.
  simpl. rewrite absorb_eq. set (w' := w <| rl_sessions := <[id := (t, s')]> (rl_sessions w) |>).
  assert (forall i, live w i -> stopped s' = false \/ i <> id -> live w' i) as Hlive.
  { intros i (t0 & s0 & E0 & Hs0) Hor. unfold live. simpl. destruct (decide (i = id)) as [->|Hne].
    - rewrite lookup_insert_eq. exists t, s'. split; [done|]. by destruct Hor.
    - rewrite lookup_insert_ne by done. eauto. }
  eapply (tidy_extend w _ (FromSession <$> omap server_part effects) Hw); try done.
  - intros i t0 s0. simpl. intros [[<- [= <- <-]]|[_ H]]%lookup_insert_Some; [congruence|by eapply ti_ids].
  - intros i Hi. change (live w' i \/ says_goodbye i (FromSession <$> omap server_part effects)).
    destruct (stopped s') eqn:Es'; [|left; auto]. destruct (decide (i = id)) as [->|]; [|left; auto]. right.
    destruct (stopped s) eqn:Es; [destruct Hi as (? & ? & ? & ?); congruence|].
    exists (disconnect_of id (identity_of (ts_logic s))). split; [|done]. apply list_elem_of_fmap.
    eexists. split; [done|]. rewrite Hc, Hid. simpl. set_solver.
  - change (orderly (live w') (FromSession <$> omap server_part effects)). destruct (stopped s) eqn:Es.
    { by destruct (Hstop eq_refl) as [_ ->]. }
    rewrite Hc, Hid. rewrite !fmap_app. simpl.
    assert (orderly (live w') ((FromSession <$> client_messages id (identity_of (ts_logic s)) clients) ++
      (FromSession <$> (if stopped s' then [SDisconnect (disconnect_of id (identity_of (ts_logic s)))] else [])))) as Htail.
    { apply orderly_clients. by destruct (stopped s'). }
    destruct (negb (ts_activated s) && ts_activated s'); [|done]. split; [|done]. intros i [= <-].
    destruct (stopped s') eqn:Es'; [right|left].
    + exists (disconnect_of id (identity_of (ts_logic s))). split; [set_solver|done].
    + apply Hlive; [|by left]. by exists t, s.
Qed.

Lemma tidy_open uuid now t who w : tidy w -> tidy (open_session uuid now t who w).1.
Proof.
  intros Hw. unfold open_session. set (s := session_of uuid now who).
  destruct (rl_sessions w !! sl_id (ts_logic s)) as [?|] eqn:E; [done|]. cbn [fst]. rewrite absorb_eq.
  set (id := sl_id (ts_logic s)) in *. set (w' := w <| rl_sessions := <[id := (t, s)]> (rl_sessions w) |>).
  assert (live w' id) as Hid by (exists t, s; split; [apply lookup_insert_eq|done]).
  eapply (tidy_extend w _ (FromSession <$> [SConnect id; SJoin (join_of id who)]) Hw); try done.
  - intros i t0 s0. simpl. intros [[<- [= <- <-]]|[_ H]]%lookup_insert_Some; [done|by eapply ti_ids].
  - intros i (t0 & s0 & E0 & Hs0). left. exists t0, s0. simpl. split; [|done]. rewrite lookup_insert_ne; [done|congruence].
  - change (orderly (live w') (FromSession <$> [SConnect id; SJoin (join_of id who)])). repeat split;
      intros i [= <-]; by left.
Qed.

(** The subscriptions the effects of the chat server leave. *)
Lemma perform_fields l w :
  let w' := perform l w in
  rl_server w' = rl_server w /\ rl_inbox w' = rl_inbox w /\
  forall id, is_Some (rl_subs w' !! id) -> is_Some (rl_subs w !! id) /\ AbortTask id ∉ l.
Proof.
  unfold perform. revert w. induction l as [|e l IH]; intros w; simpl; [by split_and!; [..|set_solver]|].
  destruct (IH (perform_one e w)) as (E1 & E2 & E3). rewrite E1, E2. split_and!; [by destruct e..|].
  intros id H. destruct (E3 id H) as [H1 H2]. destruct e; simpl in *; try (split; [done|set_solver]).
  destruct (decide (session = id)) as [->|Hne]; [by rewrite lookup_delete_eq in H1; destruct H1|].
  rewrite lookup_delete_ne in H1 by done. split; [done|]. set_solver.
Qed.

Lemma subscribe_fields room l w :
  let w' := foldl (fun w e => subscribe_one room e w) w l in
  rl_server w' = rl_server w /\ rl_inbox w' = rl_inbox w /\
  forall id, is_Some (rl_subs w' !! id) ->
    (is_Some (rl_subs w !! id) /\ AbortTask id ∉ l) \/ exists subject queue, QueueSubscribe id subject queue ∈ l.
Proof.
  revert w. induction l as [|e l IH]; intros w; simpl; [split_and!; [done..|]; left; split; [done|set_solver]|].
  destruct (IH (subscribe_one room e w)) as (E1 & E2 & E3). rewrite E1, E2. split_and!; [by destruct e..|].
  intros id H. destruct (E3 id H) as [[H1 H2]|(subject & queue & H1)]; [|right; set_solver].
  destruct e; simpl in *; try (left; split; [done|set_solver]).
  - destruct (decide (session = id)) as [->|Hne]; [by rewrite lookup_delete_eq in H1; destruct H1|].
    rewrite lookup_delete_ne in H1 by done. left. set_solver.
  - destruct (decide (session = id)) as [->|Hne]; [right; set_solver|].
    rewrite lookup_insert_ne in H1 by done. left. set_solver.
Qed.

Lemma join_subscribes id subject queue now_ms m st : QueueSubscribe id subject queue ∈ (handle_join now_ms m st).1.2 ->
  id ∈ active_subs (handle_join now_ms m st).1.1.
Proof.
  unfold handle_join. repeat case_bool_decide; simpl; [set_solver..|].
  assert (QueueSubscribe id subject queue ∉ (cancel_departure (jr_room m) (jr_user_id m) st).1.2) as Hc.
  { unfold cancel_departure. destruct (pending_departures st !! _); simpl; set_solver. }
  destruct (cancel_departure _ _ st) as [[st1 cancel] rec]. simpl in Hc.
  destruct (sessions _ !! _); [|done]. simpl. intros [Hin|Hin]%elem_of_app; [done|].
  unfold join_task in Hin. simpl in Hin. rewrite !elem_of_app, list_elem_of_fmap in Hin.
  destruct Hin as [Hin|[([[? ?] ?] & ? & _)|Hin]]; [by case_match; set_solver|done|set_solver].
Qed.

(** The message of an inbox item, as the chat server's actor sees it. *)
Definition as_message (handle now_ms : Z) (i : inbox_item) : server_msg :=
  match i with
  | FromTimer m => MExecute m
  | FromSession (SConnect id) => MConnect id id
  | FromSession (SJoin m) => MJoin m now_ms
  | FromSession (SActivate id) => MActivate id
  | FromSession (SClient m) => MClient m
  | FromSession (SDisconnect m) => MDisconnect m handle
  end.

Lemma serve_item_spec iter handle now_ms i w :
  let w' := serve_item iter handle now_ms i w in
  let '(st, e) := serve iter (rl_server w) (as_message handle now_ms i) in
  rl_server w' = st /\ rl_inbox w' = rl_inbox w /\
  forall id, is_Some (rl_subs w' !! id) -> (is_Some (rl_subs w !! id) /\ AbortTask id ∉ e) \/ id ∈ active_subs st.
Proof.
  assert (forall st e w', w' = perform e (w <| rl_server := st |>) ->
    rl_server w' = st /\ rl_inbox w' = rl_inbox w /\
    forall id, is_Some (rl_subs w' !! id) -> (is_Some (rl_subs w !! id) /\ AbortTask id ∉ e) \/ id ∈ active_subs st) as Hgo.
  { intros st e w' ->. destruct (perform_fields e (w <| rl_server := st |>)) as (E1 & E2 & E3). eauto. }
  destruct i as [[id|m|id|m|m]|m]; simpl.
  - split_and!; [done..|]. intros i Hi. left. split; [done|set_solver].
  - pose proof (fun id subject queue => join_subscribes id subject queue now_ms m (rl_server w)) as Hj.
    destruct (handle_join now_ms m (rl_server w)) as [[st e] r]. simpl in *.
    destruct (subscribe_fields (jr_room m) e (w <| rl_server := st |>)) as (E1 & E2 & E3).
    split_and!; [done..|]. intros id H. destruct (E3 id H) as [H1|(subject & queue & H1)]; [by left|right; eauto].
  - destruct (handle_activate _ _ _) as [st e]. by apply Hgo.
  - by apply (Hgo (rl_server w)).
  - destruct (handle_disconnect _ _ _) as [st e]. by apply Hgo.
  - destruct (handle_execute _ _) as [st e]. by apply Hgo.
Qed.

Lemma item_creates_message handle now_ms i : creates (as_message handle now_ms i) = item_creates i.
Proof. by destruct i as [[]|]. Qed.

Lemma tidy_serve iter handle now_ms i rest w :
  rl_inbox w = i :: rest -> tidy w -> tidy (serve_item iter handle now_ms i (w <| rl_inbox := rest |>)).
Proof.
  intros Ei [H1 H2 H3 H4]. rewrite Ei in H2, H3. destruct H2 as [Hi Hrest]. set (w0 := w <| rl_inbox := rest |>).
  pose proof (serve_item_spec iter handle now_ms i w0) as Hs.
  pose proof (fun id => serve_keeps iter id (as_message handle now_ms i) (rl_server w)) as Hk.
  pose proof (fun id => serve_abort iter id (as_message handle now_ms i) (rl_server w)) as Ha.
  assert (forall id, keeps id (serve iter (rl_server w) (as_message handle now_ms i)).1 -> ~ exists m,
    i = FromSession (SDisconnect m) /\ dc_session m = id) as Hd.
  { intros id Hkeep (m & -> & <-). by apply disconnect_keeps in Hkeep as [_ []]. }
  cbv zeta in Hs. change (rl_server w0) with (rl_server w) in Hs.
  destruct (serve iter (rl_server w) (as_message handle now_ms i)) as [st e]. destruct Hs as (E1 & E2 & E3). simpl in *.
  assert (forall id, live (serve_item iter handle now_ms i w0) id <-> live w id) as Hl.
  { intros id. unfold live. by rewrite serve_item_sessions. }
  constructor; rewrite ?E1, ?E2.
  - intros id t s. rewrite serve_item_sessions. apply H1.
  - simpl. rewrite <- (app_nil_r rest). eapply orderly_app; [|done|exact Hrest]. intros id H. left. by apply Hl.
  - intros id H. rewrite Hl. destruct (Hk id H) as [H'|H']; [|rewrite item_creates_message in H'; by apply Hi].
    destruct (H3 id H') as [|(m & [Em|Hm]%elem_of_cons & E)]; [by left| |right; by exists m].
    exfalso. apply (Hd id H). by exists m.
  - intros id H. destruct (E3 id H) as [[H5 H6]|H5]; [|done]. by destruct (Ha id (H4 id H5)).
Qed.
End Tidy.

Section Lives.
Context {wire : Wire}.
Context (iter : gmap string (list member) -> list (string * list member)).
Context (jwt_decode : string -> string -> result RoomAccessTokenClaims JwtError).
Context (jwt_secret : string) (meeting_management_enabled : bool).
Context (nats_matches : string -> string -> bool).

Notation relay := (relay_step iter jwt_decode jwt_secret meeting_management_enabled nats_matches).

(** C7: rooms are separate. Whatever clients, timers, the network and the other
    processes do, in whatever order, every frame a session's client receives is one the
    session built for it, an echo of what the client sent, or a packet of the session's
    own room: an announcement of one of its participants, the packet of another
    participant, stamped, a congestion signal of one of its sessions, or something another
    process published on a subject of this room. No packet of an observer is relayed. *)
Theorem media_stays_in_room {laws : WireLaws} {nats : NatsLaws nats_matches} (evs : list relay_event) :
  visits_entries iter ->
  let log := (run relay relay_new evs).2 in
  forall id e b, Did id e ∈ log -> frame_of e = Some b ->
  exists who, opened log id who /\
    (local_packet id who b \/ heard log id b \/ from_room log (id_room who) id b).
Proof.
  intros Hit. pose proof (run_log_invariant relay rooms_ok (fun w log ev => relay_step_ok _ _ _ _ _ w log ev Hit) evs relay_new [] relay_new_ok) as H.
  apply (ro_frames _ _ H).
Qed.
Lemma relay_talk_ok w log ev : talk_ok w log -> let '(w', out) := relay w ev in talk_ok w' (log ++ out).
Proof.
  intros H. assert (forall w', rl_sessions w' = rl_sessions w -> talk_ok w' (log ++ [])) as Hsame.
  { intros w' Es. apply (talk_ok_quiet w); [done|set_solver..|done]. }
  destruct ev as [uuid now r|id e|id lost|id lost|now chan k|handle now_ms|handle|subject payload|id k]; simpl.
  - destruct (accepted _ _ _ r) as [[t who]|]; [|by apply Hsame]. by apply talk_ok_open.
  - destruct (from_outside e); [|by apply Hsame].
    pose proof (talk_ok_step id e w (log ++ [Heard id e])) as Hs. destruct (step_session id e w) as [w' out].
    rewrite <- app_assoc in Hs. apply Hs. apply (talk_ok_quiet w); [done|set_solver..|done].
  - destruct lost; [by apply talk_ok_step|]. case_bool_decide; [by apply talk_ok_step|by apply Hsame].
  - destruct lost; [by apply talk_ok_step|]. destruct (rl_joined w !! id); [by apply talk_ok_step|by apply Hsame].
  - destruct (rl_mail w !! k) as [[id payload]|]; [by apply talk_ok_step|by apply Hsame].
  - destruct (rl_inbox w) as [|i rest]; apply Hsame; [done|]. by rewrite serve_item_sessions.
  - destruct (rl_timers w !! handle); by apply Hsame.
  - apply (talk_ok_quiet w); [done|set_solver..|done].
  - destruct (rl_subs w !! id) as [[pattern room]|]; [|by apply Hsame].
    destruct (rl_nats w !! k) as [[subject payload]|]; [|by apply Hsame].
    destruct (nats_matches pattern subject); apply Hsame; [|done]. by rewrite perform_sessions.
Qed.

(** C8: every session keeps to the protocol. Along any run, the messages a connection
    sends the chat server are, in this order: [Connect] and [JoinRoom] with the identity it
    was accepted with; once it has been activated, one [ActivateConnection] and then
    packets of its client; and exactly one [Disconnect], when and only when it has
    stopped. An observer sends no packet. *)
Theorem session_conversation (evs : list relay_event) (id : Z) (t : Transport) (who : Identity) :
  let '(w, log) := run relay relay_new evs in
  Opened id t who ∈ log ->
  exists s packets, rl_sessions w !! id = Some (t, s) /\
    said_by id log = conversation id who (ts_activated s) (stopped s) packets /\
    (packets <> [] -> ts_activated s = true /\ id_observer who = false).
Proof.
  pose proof (run_log_invariant relay talk_ok relay_talk_ok evs relay_new []) as H.
  destruct (run relay relay_new evs) as [w log]. simpl in H. intros Ho. specialize (H ltac:(by intros i; split; [|set_solver]) id).
  destruct (rl_sessions w !! id) as [[t' s]|]; [|by apply H in Ho]. destruct H as [(_ & _ & _ & packets & H1 & H2) Hop].
  destruct (Hop _ _ Ho) as [-> ->]. by exists s, packets.
Qed.

Lemma relay_tidy w ev : tidy w -> tidy (relay w ev).1.
Proof.
  intros Hw. destruct ev as [uuid now r|id e|id lost|id lost|now chan k|handle now_ms|handle|subject payload|id k]; simpl.
  - destruct (accepted _ _ _ r) as [[t who]|]; [|done]. by apply tidy_open.
  - destruct (from_outside e); [|done]. pose proof (tidy_session id e w Hw). by destruct (step_session id e w).
  - destruct lost; [by apply tidy_session|]. case_bool_decide; [by apply tidy_session|done].
  - destruct lost; [by apply tidy_session|]. destruct (rl_joined w !! id); [by apply tidy_session|done].
  - destruct (rl_mail w !! k) as [[id payload]|]; [by apply tidy_session|done].
  - destruct (rl_inbox w) as [|i rest] eqn:E; [done|]. by apply tidy_serve.
  - destruct (rl_timers w !! handle) as [m|]; [|done]. eapply (tidy_extend w _ [FromTimer m] Hw); try done.
    + apply (ti_ids _ Hw).
    + by left.
  - destruct Hw. by constructor.
  - destruct (rl_subs w !! id) as [[pattern room]|] eqn:E1; [|done].
    destruct (rl_nats w !! k) as [[subject payload]|] eqn:E2; [|done].
    destruct (nats_matches pattern subject); [|done]. simpl.
    unfold handle_msg. destruct (_ && _); [done|]. destruct Hw. by constructor.
Qed.

(** C9: nothing is left of a session that is gone. Along any run, once a session has
    stopped and its goodbye has been handled, the chat server has no address, no
    connection state, no subscription task and no suppressed announcement of it, and NATS
    no subscription. *)
Theorem nothing_left_behind (evs : list relay_event) (id : Z) (t : Transport) (s : TransportSession) :
  let w := (run relay relay_new evs).1 in
  rl_sessions w !! id = Some (t, s) -> stopped s = true -> ~ says_goodbye id (rl_inbox w) ->
  sessions (rl_server w) !! id = None /\ connection_states (rl_server w) !! id = None /\
  id ∉ active_subs (rl_server w) /\ id ∉ suppress_join_broadcast (rl_server w) /\ rl_subs w !! id = None.
Proof.
  assert (tidy relay_new) as H0.
  { constructor; simpl; try done; [|by intros i []]. unfold keeps. simpl. intros i [[]|[[]|H]]; set_solver. }
  destruct (run_invariant relay tidy (fun _ => True)) with (es := evs) (s := relay_new) as [Hw _]; [|done|].
  { intros w ev H. pose proof (relay_tidy w ev H). destruct (relay w ev). split; [done|]. by apply Forall_true. }
  set (w := (run relay relay_new evs).1) in *. intros w0 Es Hs Hg.
  assert (~ keeps id (rl_server w)) as Hk.
  { intros [(t' & s' & E' & Hs')|H]%(ti_keeps _ Hw); [|done]. unfold w0 in Es. congruence. }
  assert (id ∉ active_subs (rl_server w)) as Ha by (unfold keeps in Hk; tauto).
  unfold keeps in Hk. rewrite !eq_None_not_Some. split_and!; try tauto. intros H. by apply Ha, (ti_subs _ Hw).
Qed.

(** The client sends a frame: a WebSocket message, or a stream of WebTransport. *)
Definition client_sends (t : Transport) (now : Z) (data : bytes) : session_event :=
  match t with
  | WebSocket => Frame now (FBinary data)
  | WebTransport => Inbound now HasRoom data SrcUniStream
  end.

End Lives.

(** ** Concrete runs *)

(** Matching as documented. *)
Definition demo_matches (pattern subject : string) : bool :=
  bool_decide (Forall2 (fun p t => p = "*"%string \/ p = t) (split_dots pattern) (split_dots subject)).

Lemma demo_nats : NatsLaws demo_matches.
Proof. split. intros pattern subject _. apply bool_decide_eq_true. Qed.

#[local] Existing Instance demo_wire.
#[local] Existing Instance demo_laws.
#[local] Existing Instance demo_nats.

(** Alice, a participant, and Bob, an observer of the same room. *)
Definition demo_relay : Relay -> relay_event -> Relay * list relay_output :=
  relay_step map_to_list demo_decode "secret" true demo_matches.

Definition alice_id : Identity := mkIdentity "alice@example.com" "standup-1" "Alice" false.
Definition bob_id : Identity := mkIdentity "bob@example.com" "standup-1" "Bob" true.

Definition starts (id : Z) : list relay_event :=
  [Serve 0 5; Serve 0 5; TakeConnected id false; TakeJoined id false; Outside id (SessionReply 5 HasRoom HasRoom)].

Definition demo_packet : bytes := [MEDIA; 0; 0; 1].

Definition demo_setup : list relay_event :=
  [Open 1 0 (WsToken "A")] ++ starts 1 ++ [Open 2 0 (WtUrl [""; "lobby"]%string (Some "O"%string))] ++ starts 2 ++
  [Outside 1 (client_sends WebSocket 10 demo_packet); Outside 1 (PacketTurn 0); Serve 0 10; Serve 0 10].

Definition demo_talk : list relay_event :=
  [Outside 1 (client_sends WebSocket 20 demo_packet); Outside 1 (PacketTurn 0); Serve 0 20;
   NatsDelivers 2 3; TakeMail 20 HasRoom 0].

Definition alice_session : TransportSession :=
  (session_of 1 0 alice_id) <| ts_heartbeat := 10 |> <| ts_activated := true |> <| ts_phase := Alive [] |>.
Lemma media_stays_witness :
  let log := (run demo_relay relay_new (demo_setup ++ demo_talk)).2 in
  log !! 24%nat = Some (Did 2 (Outbound (UniStream [MEDIA; 1; 0; 1]))) /\
  exists who, opened log 2 who /\
    (local_packet 2 who [MEDIA; 1; 0; 1] \/ heard log 2 [MEDIA; 1; 0; 1] \/
     from_room log (id_room who) 2 [MEDIA; 1; 0; 1]).
Proof.
  intros log. assert (log !! 24%nat = Some (Did 2 (Outbound (UniStream [MEDIA; 1; 0; 1])))) as H by (vm_compute; reflexivity).
  split; [exact H|].
  apply (media_stays_in_room map_to_list demo_decode "secret" true demo_matches (demo_setup ++ demo_talk)
    ltac:(intros m; reflexivity) 2 (Outbound (UniStream [MEDIA; 1; 0; 1])) [MEDIA; 1; 0; 1]); [|reflexivity].
  exact (list_elem_of_lookup_2 _ _ _ H).
Defined.

Lemma session_conversation_witness :
  said_by 1 (run demo_relay relay_new demo_setup).2 = conversation 1 alice_id true false [demo_packet] /\
  exists s packets, rl_sessions (run demo_relay relay_new demo_setup).1 !! 1 = Some (WebSocket, s) /\
    said_by 1 (run demo_relay relay_new demo_setup).2 = conversation 1 alice_id (ts_activated s) (stopped s) packets.
Proof.
  split; [vm_compute; reflexivity|].
  pose proof (session_conversation map_to_list demo_decode "secret" true demo_matches demo_setup 1 WebSocket alice_id) as H.
  fold demo_relay in H. assert ((run demo_relay relay_new demo_setup).2 !! 0%nat = Some (Opened 1 WebSocket alice_id)) as Ho
    by (vm_compute; reflexivity).
  destruct (run demo_relay relay_new demo_setup) as [w log].
  destruct (H (list_elem_of_lookup_2 _ _ _ Ho)) as (s & packets & H1 & H2 & _). exists s, packets. split; [exact H1|exact H2].
Defined.

(** Alice closes her connection, and the chat server handles her goodbye. *)
Definition alice_goes : list relay_event := demo_setup ++ [Outside 1 (Frame 30 FClose); Serve 0 30].

Lemma nothing_left_witness :
  let w := (run demo_relay relay_new alice_goes).1 in
  sessions (rl_server w) !! 1 = None /\ rl_subs w !! 1 = None /\ is_Some (rl_subs w !! 2).
Proof.
  intros w. pose proof (nothing_left_behind map_to_list demo_decode "secret" true demo_matches alice_goes 1 WebSocket
    (session_stop alice_session).1) as H. cbv zeta in H. fold demo_relay in H. fold w in H.
  destruct H as (H1 & _ & _ & _ & H2);
    [vm_compute; reflexivity|reflexivity| |split; [exact H1|split; [exact H2|]]; vm_compute; eexists; reflexivity].
  assert (rl_inbox w = []) as -> by (vm_compute; reflexivity). intros (m & Hm & _). by apply not_elem_of_nil in Hm.
Defined.
