(* ===== verification/RelayDelivery.v ===== *)
(** * What a participant sends reaches the room

    Liveness of the media server: a packet of a participant is somewhere on its way (in the
    queue of its session, in the mailbox of the chat server, or published) whatever the rest
    of the server does; the session and the chat server can always catch up and publish it;
    and NATS can then deliver it to any other session of the room. *)
From Stdlib Require Import Ascii.
From S2P Require Import Prelude Protocol DemoWire TokenValidator SessionLogic ChatServer ChatServerProps Transport TransportProps Relay RelayProps RelayLife.

(** ** The state in which the chat server will handle a message *)

(** The connection state of a session after a message has been handled. *)
Definition conn_after (id : Z) (c : option ConnectionState) (i : inbox_item) : option ConnectionState :=
  match i with
  | FromSession (SConnect s) => if bool_decide (s = id) then Some Testing else c
  | FromSession (SActivate s) => if bool_decide (s = id) then Some Active else c
  | FromSession (SDisconnect m) => if bool_decide (dc_session m = id) then None else c
  | _ => c
  end.

Definition state_after (c : Z -> option ConnectionState) (l : list inbox_item) (id : Z) : option ConnectionState :=
  foldl (conn_after id) (c id) l.

(** Every packet waiting in the mailbox will find its session active. *)
Fixpoint clients_ok (c : Z -> option ConnectionState) (l : list inbox_item) : Prop :=
  match l with
  | [] => True
  | i :: rest =>
      match i with FromSession (SClient m) => c (cm_session m) = Some Active | _ => True end /\
      clients_ok (fun id => conn_after id (c id) i) rest
  end.

Lemma clients_ok_ext (c c' : Z -> option ConnectionState) (l : list inbox_item) :
  (forall id, c id = c' id) -> clients_ok c l -> clients_ok c' l.
Proof.
  revert c c'. induction l as [|i l IH]; intros c c' E; simpl; [done |]. intros [H1 H2]. split.
  - destruct i as [[]|]; try done. by rewrite <- E.
  - eapply IH; [|exact H2]. intros id. simpl. by rewrite E.
Qed.

Lemma clients_ok_app (c : Z -> option ConnectionState) (l new : list inbox_item) :
  clients_ok c l -> clients_ok (state_after c l) new -> clients_ok c (l ++ new).
Proof.
  revert c. induction l as [|i l IH]; intros c; simpl; [done |]. intros [H1 H2] H3. split; [done |]. by apply IH.
Qed.

Definition conn_states (w : Relay) (id : Z) : option ConnectionState := connection_states (rl_server w) !! id.

(** Items that say nothing of other sessions. *)
Definition item_of (id : Z) (i : inbox_item) : Prop :=
  match i with
  | FromSession (SConnect s) | FromSession (SActivate s) => s = id
  | FromSession (SDisconnect m) => dc_session m = id
  | _ => True
  end.

Lemma state_after_other (c : Z -> option ConnectionState) (id i : Z) (new : list inbox_item) :
  Forall (item_of id) new -> i <> id -> state_after c new i = c i.
Proof.
  intros Hn Hi. unfold state_after. generalize (c i). induction Hn as [|x new Hx _ IH]; intros ci; simpl; [done |].
  rewrite IH. destruct x as [[]|]; simpl in *; try done; by rewrite bool_decide_false by congruence.
Qed.

Lemma state_after_app (c : Z -> option ConnectionState) (l new : list inbox_item) (id : Z) :
  state_after c (l ++ new) id = state_after (state_after c l) new id.
Proof. unfold state_after. by rewrite foldl_app. Qed.

Lemma state_after_clients (c : Z -> option ConnectionState) (i id : Z) (who : Identity) (packets : list bytes) :
  state_after c (FromSession <$> client_messages i who packets) id = c id.
Proof. unfold state_after. generalize (c id). by induction packets. Qed.

Lemma clients_ok_clients (c : Z -> option ConnectionState) (id : Z) (who : Identity) (packets : list bytes) :
  (packets <> [] -> c id = Some Active) -> clients_ok c (FromSession <$> client_messages id who packets).
Proof.
  intros Hc. assert (forall l, (l <> [] -> c id = Some Active) -> clients_ok c (FromSession <$> client_messages id who l)) as H;
    [|by apply H]. clear Hc. induction l as [|d l IH]; intros Hc; simpl; [done |]. split; [by apply Hc |].
  eapply clients_ok_ext; [|apply IH]; [done |]. intros _. by apply Hc.
Qed.

Section Delivery.
Context {wire : Wire}.
Context (iter : gmap string (list member) -> list (string * list member)).
Context (jwt_decode : string -> string -> result RoomAccessTokenClaims JwtError).
Context (jwt_secret : string) (meeting_management_enabled : bool).
Context (nats_matches : string -> string -> bool).

Notation relay := (relay_step iter jwt_decode jwt_secret meeting_management_enabled nats_matches).

Lemma serve_conn (handle now_ms id : Z) (i : inbox_item) (st : ChatServer) :
  connection_states (serve iter st (as_message handle now_ms i)).1 !! id = conn_after id (connection_states st !! id) i.
Proof.
  destruct i as [[s|m|s|m|m]|m]; simpl.
  - case_bool_decide as E; [subst; by rewrite lookup_insert_eq | by rewrite lookup_insert_ne].
  - by destruct (join_fields now_ms m st) as (_ & -> & _).
  - assert (connection_states (handle_activate iter s st).1 = <[s := Active]> (connection_states st)) as ->.
    { unfold handle_activate. destruct (_ && _); [|done]. by destruct (find_session _ _) as [[[? ?] ?]|]. }
    case_bool_decide as E; [subst; by rewrite lookup_insert_eq | by rewrite lookup_insert_ne].
  - done.
  - assert (connection_states (handle_disconnect m handle st).1 = delete (dc_session m) (connection_states st)) as ->.
    { unfold handle_disconnect. destruct (dc_observer m).
      - match goal with |- context [leave_rooms ?a (Some ?b) ?c ?d ?e ?f] =>
          by destruct (leave_rooms_fields a b c d e f) as (_ & -> & _) end.
      - destruct (stop_task_fields (dc_session m) (forget_session (dc_session m) st)) as (_ & E & _).
        destruct (stop_task _ _) as [st2 abort]. exact E. }
    case_bool_decide as E; [subst; by rewrite lookup_delete_eq | by rewrite lookup_delete_ne].
  - unfold handle_execute. destruct (pending_departures st !! _) as [pd|]; [|done].
    case_bool_decide; simpl; [|done]. destruct (was_active pd); simpl.
    + match goal with |- context [leave_rooms ?a (Some ?b) ?c ?d ?e ?f] =>
        by destruct (leave_rooms_fields a b c d e f) as (_ & -> & _) end.
    + match goal with |- context [remove_member ?a ?b ?c] =>
        by destruct (remove_member_fields a b c) as (_ & -> & _) end.
Qed.

(** ** The invariant *)

Record served_ok (w : Relay) : Prop := mkServedOk {
  sv_ids : forall id t s, rl_sessions w !! id = Some (t, s) -> sl_id (ts_logic s) = id /\ 0 <= id;
  sv_notified : forall id t s, rl_sessions w !! id = Some (t, s) -> ts_notified s <> [] -> ts_activated s = true;
  sv_active : forall id t s, rl_sessions w !! id = Some (t, s) -> ts_activated s = true -> stopped s = false ->
    state_after (conn_states w) (rl_inbox w) id = Some Active;
  sv_clients : clients_ok (conn_states w) (rl_inbox w);
}.

(** A step that only fills the mailbox with messages of one session. *)
Lemma served_extend (id : Z) (w w' : Relay) (new : list inbox_item) :
  served_ok w -> rl_server w' = rl_server w -> rl_inbox w' = rl_inbox w ++ new -> Forall (item_of id) new ->
  (forall i, i <> id -> rl_sessions w' !! i = rl_sessions w !! i) ->
  (forall t s, rl_sessions w' !! id = Some (t, s) ->
     sl_id (ts_logic s) = id /\ 0 <= id /\ (ts_notified s <> [] -> ts_activated s = true) /\
     (ts_activated s = true -> stopped s = false -> state_after (conn_states w) (rl_inbox w ++ new) id = Some Active)) ->
  clients_ok (state_after (conn_states w) (rl_inbox w)) new -> served_ok w'.
Proof.
  intros [H1 H2 H3 H4] Es Ei Hn Ho Hid Hc. unfold conn_states in *.
  constructor; unfold conn_states; rewrite ?Es, ?Ei.
  - intros i t s Hs. destruct (decide (i = id)) as [->|Hne]; [destruct (Hid t s Hs) as (? & ? & _); done |].
    rewrite Ho in Hs by done. by eapply H1.
  - intros i t s Hs. destruct (decide (i = id)) as [->|Hne]; [apply (Hid t s Hs) |].
    rewrite Ho in Hs by done. by eapply H2.
  - intros i t s Hs Ha Hst. destruct (decide (i = id)) as [->|Hne]; [by apply (Hid t s Hs) |].
    rewrite Ho in Hs by done. rewrite state_after_app, (state_after_other _ id) by done. by eapply H3.
  - by apply clients_ok_app.
Qed.

Lemma served_session (id : Z) (ev : session_event) (w : Relay) : served_ok w -> served_ok (step_session id ev w).1.
Proof.
  intros Hw. unfold step_session. destruct (rl_sessions w !! id) as [[t s]|] eqn:E; [|done].
  pose proof (session_step_facts t s ev) as F. destruct (session_step t s ev) as [s' effects]. simpl.
  destruct (sv_ids _ Hw _ _ _ E) as [Hid Hpos]. destruct F as [[Hid' _] (clients & Hc & Hin) Hmono Hstop Hn _ _].
  rewrite absorb_eq. rewrite Hid in *. set (who := identity_of (ts_logic s)) in *.
  assert (clients <> [] -> ts_activated s = true) as Hcl.
  { intros Hne. apply (sv_notified _ Hw _ _ _ E). destruct clients as [|d l]; [done|].
    specialize (Hin d ltac:(by left)). intros E0. rewrite E0 in Hin. by apply not_elem_of_nil in Hin. }
  set (act := if negb (ts_activated s) && ts_activated s' then [SActivate id] else []) in *.
  set (fin := if negb (stopped s) && stopped s' then [SDisconnect (disconnect_of id who)] else []) in *.
  assert (ts_activated s' = true -> stopped s = false ->
    state_after (state_after (conn_states w) (rl_inbox w)) (FromSession <$> act) id = Some Active) as Hact.
  { intros Ha Hst. unfold act. destruct (ts_activated s) eqn:Eact; simpl.
    - exact (sv_active _ Hw _ _ _ E Eact Hst).
    - rewrite Ha. unfold state_after. simpl. by rewrite bool_decide_true. }
  eapply (served_extend id w _ (FromSession <$> omap server_part effects) Hw); try done.
  - rewrite Hc, !fmap_app. apply Forall_app. split; [|apply Forall_app; split].
    + unfold act. destruct (negb (ts_activated s) && ts_activated s'); simpl; [by apply Forall_singleton | constructor].
    + by apply Forall_fmap, Forall_fmap, Forall_true.
    + unfold fin. destruct (negb (stopped s) && stopped s'); simpl; [by apply Forall_singleton | constructor].
  - intros i Hne. simpl. by rewrite lookup_insert_ne.
  - intros t0 s0. simpl. rewrite lookup_insert_eq. intros [= <- <-]. split_and!; [congruence | done | |].
    + intros Hne. destruct (ts_notified s') as [|d l] eqn:En; [done|].
      destruct (Hn d ltac:(by left)) as [H|(_ & _ & H)]; [|done]. apply Hmono, (sv_notified _ Hw _ _ _ E).
      intros E0. rewrite E0 in H. by apply not_elem_of_nil in H.
    + intros Ha Hst'. assert (stopped s = false) as Hst.
      { destruct (stopped s) eqn:Es; [|done]. destruct (Hstop eq_refl) as [-> _]. congruence. }
      rewrite state_after_app, Hc, !fmap_app, !state_after_app. unfold fin. rewrite Hst', andb_false_r. simpl.
      change (state_after ?c [] id) with (c id).
      change ((λ data, SClient (client_of id who data)) <$> clients) with (client_messages id who clients).
      rewrite state_after_clients. by apply Hact.
  - rewrite Hc, !fmap_app. assert (forall c, clients_ok c (FromSession <$> act)) as Hok1
      by (intros c; unfold act; by destruct (negb (ts_activated s) && ts_activated s')).
    apply clients_ok_app; [done|]. apply clients_ok_app; [|unfold fin; by destruct (negb (stopped s) && stopped s')].
    apply clients_ok_clients. intros Hne. specialize (Hcl Hne). apply Hact; [by apply Hmono|].
    destruct (stopped s) eqn:Es; [|done]. destruct (Hstop eq_refl) as [_ ->]. simpl in Hc.
    destruct act, clients; try done.
Qed.

Lemma served_open (uuid now : Z) (t : Transport) (who : Identity) (w : Relay) :
  served_ok w -> served_ok (open_session uuid now t who w).1.
Proof.
  intros Hw. unfold open_session. set (s := session_of uuid now who).
  destruct (rl_sessions w !! sl_id (ts_logic s)) as [?|] eqn:E; [done|]. cbn [fst]. rewrite absorb_eq.
  set (id := sl_id (ts_logic s)) in *.
  eapply (served_extend id w _ (FromSession <$> [SConnect id; SJoin (join_of id who)]) Hw); try done.
  - simpl. by repeat constructor.
  - intros i Hne. simpl. by rewrite lookup_insert_ne.
  - intros t0 s0. simpl. rewrite lookup_insert_eq. intros [= <- <-]. split_and!; try done.
    unfold id. simpl. apply Z.land_nonneg. by right.
Qed.

Lemma served_quiet (w w' : Relay) :
  served_ok w -> rl_sessions w' = rl_sessions w -> rl_server w' = rl_server w -> rl_inbox w' = rl_inbox w -> served_ok w'.
Proof. intros [H1 H2 H3 H4] E1 E2 E3. constructor; unfold conn_states in *; by rewrite ?E1, ?E2, ?E3. Qed.

Lemma served_serve (handle now_ms : Z) (i : inbox_item) (rest : list inbox_item) (w : Relay) :
  rl_inbox w = i :: rest -> served_ok w -> served_ok (serve_item iter handle now_ms i (w <| rl_inbox := rest |>)).
Proof.
  intros Ei [H1 H2 H3 H4]. set (w0 := w <| rl_inbox := rest |>). rewrite Ei in *.
  pose proof (serve_item_spec iter handle now_ms i w0) as Hs. pose proof (fun id => serve_conn handle now_ms id i (rl_server w)) as Hc.
  cbv zeta in Hs. change (rl_server w0) with (rl_server w) in Hs. change (rl_inbox w0) with rest in Hs.
  destruct (serve iter (rl_server w) (as_message handle now_ms i)) as [st e]. destruct Hs as (E1 & E2 & _). simpl in Hc.
  assert (forall id, conn_states (serve_item iter handle now_ms i w0) id = conn_after id (conn_states w id) i) as Hconn
    by (intros id; unfold conn_states; rewrite E1; apply Hc).
  constructor; rewrite ?serve_item_sessions, ?E2; try done.
  - intros id t s Hs Ha Hst. unfold state_after. rewrite Hconn. exact (H3 id t s Hs Ha Hst).
  - destruct H4 as [_ H4]. eapply clients_ok_ext; [|exact H4]. intros id. by rewrite Hconn.
Qed.

Lemma relay_served (w : Relay) (ev : relay_event) : served_ok w -> served_ok (relay w ev).1.
Proof.
  intros Hw. destruct ev as [uuid now r|id e|id lost|id lost|now chan k|handle now_ms|handle|subject payload|id k]; simpl.
  - destruct (accepted _ _ _ r) as [[t who]|]; [|done]. by apply served_open.
  - destruct (from_outside e); [|done]. pose proof (served_session id e w Hw). by destruct (step_session id e w).
  - destruct lost; [by apply served_session|]. case_bool_decide; [by apply served_session|done].
  - destruct lost; [by apply served_session|]. destruct (rl_joined w !! id); [by apply served_session|done].
  - destruct (rl_mail w !! k) as [[id payload]|]; [by apply served_session|done].
  - destruct (rl_inbox w) as [|i rest] eqn:E; [done|]. by apply served_serve.
  - destruct (rl_timers w !! handle) as [m|]; [|done]. destruct Hw as [H1 H2 H3 H4].
    constructor; simpl; try done.
    + intros id t s Hs Ha Hst. change (conn_states _) with (conn_states w). rewrite state_after_app. exact (H3 id t s Hs Ha Hst).
    + by apply clients_ok_app.
  - by apply (served_quiet w).
  - destruct (rl_subs w !! id) as [[pattern room]|]; [|done]. destruct (rl_nats w !! k) as [[subject payload]|]; [|done].
    destruct (nats_matches pattern subject); [|done]. unfold handle_msg. destruct (_ && _); [done|]. by apply (served_quiet w).
Qed.

(** ** A packet on its way *)

Lemma elem_of_delete {A} (l : list A) (i : nat) (x : A) : x ∈ l -> l !! i = Some x \/ x ∈ delete i l.
Proof.
  intros [j Hj]%list_elem_of_lookup. destruct (decide (j = i)) as [->|Hne]; [by left|right].
  apply list_elem_of_lookup. destruct (decide (j < i)%nat).
  - exists j. by rewrite list_lookup_delete_lt by lia.
  - exists (pred j). rewrite list_lookup_delete_ge by lia. by replace (S (pred j)) with j by lia.
Qed.

(** A session loses a packet of its queue only to the chat server, or by stopping. *)
Lemma notified_kept (t : Transport) (s : TransportSession) (ev : session_event) (data : bytes) :
  data ∈ ts_notified s ->
  let '(s', effects) := session_step t s ev in
  stopped s' = true \/ data ∈ ts_notified s' \/
  SClient (client_of (sl_id (ts_logic s)) (identity_of (ts_logic s)) data) ∈ omap server_part effects.
Proof.
  intros Hd. assert (forall a s1, await_done a s = Some s1 -> data ∈ ts_notified s1) as Haw.
  { intros a s1 Ha. apply await_done_spec in Ha as (_ & _ & _ & _ & ->). done. }
  destruct ev as [r|r|now_ms c1 c2|now closed|now chan msg|now f|now chan dat source|i|]; simpl.
  - unfold on_join_reply. destruct (await_done _ s) as [s1|] eqn:E; [|auto].
    destruct (handle_join_room_result r); simpl; eauto.
  - unfold on_connect_reply. destruct (await_done _ s) as [s1|] eqn:E; [|auto]. destruct r; simpl; eauto.
  - destruct t; unfold ws_session_reply, wt_session_reply; (destruct (await_done _ s) as [s1|] eqn:E; [|auto]);
      destruct (start_session _ _ _ _); simpl; eauto.
  - destruct t; unfold ws_tick, wt_tick; (destruct (negb (running s)); [by auto|]);
      repeat match goal with |- context [if ?b then _ else _] => destruct b end; simpl; auto.
  - destruct t; unfold ws_message, wt_message, on_outbound_drop; (destruct (negb (running s)); [by auto|]);
      destruct (handle_outbound msg (ts_logic s)) as [b effects]; simpl; [by auto|].
    destruct (send_auto _ _ _) as [[] out]; simpl; auto. destruct (negb _); [|by auto].
    destruct (record_drop _ _ _) as [tr []]; [|by auto]. by destruct (write_wrapper _); auto.
  - destruct t; [|by auto]. unfold ws_frame. destruct (negb (running s)); [by auto|]. destruct f; simpl; auto.
    destruct (handle_inbound _ _ _) as [[logic action] l]. unfold activate_on. destruct (_ && _), action; simpl; set_solver.
  - destruct t; [by auto|]. unfold wt_inbound. destruct (negb (running s)); [by auto|]. destruct (_ && _); [by auto|]. simpl.
    destruct (handle_inbound _ _ _) as [[logic action] l]. unfold activate_on. destruct (_ && _), action, chan; simpl; set_solver.
  - unfold on_packet. destruct (running s); [|by auto]. destruct (ts_notified s !! i) as [d|] eqn:E; [|by auto]. simpl.
    right. destruct (elem_of_delete _ i _ Hd) as [H|H]; [right | by left]. simplify_eq. by left.
  - destruct t; [by auto|]. unfold wt_stop. destruct (negb (running s)); simpl; auto.
Qed.

(** Where the packet is. *)
Definition on_the_way (p : Z) (who : Identity) (data : bytes) (w : Relay) : Prop :=
  (exists t s, rl_sessions w !! p = Some (t, s) /\ identity_of (ts_logic s) = who /\
     (stopped s = false -> data ∈ ts_notified s)) \/
  FromSession (SClient (client_of p who data)) ∈ rl_inbox w \/
  (session_subject (id_room who) p, stamp_session p data) ∈ rl_nats w.

Lemma perform_nats (l : list server_effect) (w : Relay) :
  rl_nats w `prefix_of` rl_nats (perform l w) /\ rl_mail w `prefix_of` rl_mail (perform l w) /\
  forall subject payload, Publish subject payload ∈ l -> (subject, payload) ∈ rl_nats (perform l w).
Proof.
  unfold perform. revert w. induction l as [|e l IH]; intros w; simpl; [split_and!; [done..|set_solver]|].
  destruct (IH (perform_one e w)) as (H1 & H2 & H3). split_and!.
  - etransitivity; [|exact H1]. destruct e; simpl; try done. by apply prefix_app_r.
  - etransitivity; [|exact H2]. destruct e; simpl; try done. by apply prefix_app_r.
  - intros subject payload [<-|H]%elem_of_cons; [|by apply H3]. destruct H1 as [k ->]. simpl. set_solver.
Qed.

Lemma subscribe_nats (room : string) (l : list server_effect) (w : Relay) :
  rl_nats w `prefix_of` rl_nats (foldl (fun w e => subscribe_one room e w) w l) /\
  rl_mail w `prefix_of` rl_mail (foldl (fun w e => subscribe_one room e w) w l).
Proof.
  revert w. induction l as [|e l IH]; intros w; simpl; [done|]. destruct (IH (subscribe_one room e w)) as (H1 & H2).
  split; (etransitivity; [|eassumption]); destruct e; simpl; try done; by apply prefix_app_r.
Qed.

Lemma serve_item_nats (handle now_ms : Z) (i : inbox_item) (w : Relay) :
  rl_nats w `prefix_of` rl_nats (serve_item iter handle now_ms i w) /\
  rl_mail w `prefix_of` rl_mail (serve_item iter handle now_ms i w).
Proof.
  destruct i as [[id|m|id|m|m]|m]; simpl.
  - done.
  - destruct (handle_join now_ms m (rl_server w)) as [[st e] r]. pose proof (subscribe_nats (jr_room m) e (w <| rl_server := st |>)) as H. exact H.
  - destruct (handle_activate _ _ _) as [st e]. destruct (perform_nats e (w <| rl_server := st |>)) as (? & ? & _). done.
  - match goal with |- context [perform ?e ?v] => destruct (perform_nats e v) as (? & ? & _) end. done.
  - destruct (handle_disconnect _ _ _) as [st e]. destruct (perform_nats e (w <| rl_server := st |>)) as (? & ? & _). done.
  - destruct (handle_execute _ _) as [st e]. destruct (perform_nats e (w <| rl_server := st |>)) as (? & ? & _). done.
Qed.

(** What was published and sent stays. *)
Lemma relay_grows (w : Relay) (ev : relay_event) :
  rl_nats w `prefix_of` rl_nats (relay w ev).1 /\ rl_mail w `prefix_of` rl_mail (relay w ev).1.
Proof.
  assert (forall id e, rl_nats w `prefix_of` rl_nats (step_session id e w).1 /\ rl_mail w `prefix_of` rl_mail (step_session id e w).1) as Hs.
  { intros id e. unfold step_session. destruct (rl_sessions w !! id) as [[t s]|]; [|done].
    destruct (session_step t s e) as [s' effects]. simpl. rewrite absorb_eq. simpl. split; [by apply prefix_app_r|done]. }
  destruct ev as [uuid now r|id e|id lost|id lost|now chan k|handle now_ms|handle|subject payload|id k]; simpl.
  - destruct (accepted _ _ _ r) as [[t who]|]; [|done]. unfold open_session. destruct (rl_sessions w !! _); [done|].
    cbn [fst]. rewrite absorb_eq. simpl. split; [by apply prefix_app_r|done].
  - destruct (from_outside e); [|done]. pose proof (Hs id e). by destruct (step_session id e w).
  - destruct lost; [apply Hs|]. case_bool_decide; [apply Hs|done].
  - destruct lost; [apply Hs|]. destruct (rl_joined w !! id); [apply Hs|done].
  - destruct (rl_mail w !! k) as [[id payload]|]; [apply Hs|done].
  - destruct (rl_inbox w) as [|i rest]; [done|].
    pose proof (serve_item_nats handle now_ms i (w <| rl_inbox := rest |>)) as H. exact H.
  - by destruct (rl_timers w !! handle).
  - split; [by apply prefix_app_r|done].
  - destruct (rl_subs w !! id) as [[pattern room]|]; [|done]. destruct (rl_nats w !! k) as [[subject payload]|]; [|done].
    destruct (nats_matches pattern subject); [|done]. cbn [fst].
    match goal with |- context [perform ?e ?v] => destruct (perform_nats e v) as (? & ? & _) end. done.
Qed.

(** A step of a session keeps the packet on its way. *)
Lemma way_session (p : Z) (who : Identity) (data : bytes) (id : Z) (ev : session_event) (w : Relay) :
  served_ok w -> on_the_way p who data w -> on_the_way p who data (step_session id ev w).1.
Proof.
  intros Hw Hd. unfold step_session. destruct (rl_sessions w !! id) as [[t s]|] eqn:E; [|done].
  pose proof (session_step_facts t s ev) as F. pose proof (notified_kept t s ev data) as Hk.
  destruct (session_step t s ev) as [s' effects]. simpl. rewrite absorb_eq. unfold on_the_way. simpl.
  destruct Hd as [(t0 & s0 & E0 & Hi & Hn)|[H|H]]; [|set_solver..].
  destruct (decide (id = p)) as [->|Hne]; [|left; exists t0, s0; by rewrite lookup_insert_ne].
  rewrite E in E0. injection E0 as <- <-. destruct (sf_same _ _ _ _ F) as [_ Hi']. rewrite lookup_insert_eq.
  destruct (stopped s) eqn:Es.
  { destruct (sf_stopped _ _ _ _ F Es) as [-> ->]. left. exists t, s. split_and!; [done..|]. by rewrite Es. }
  destruct (Hk (Hn eq_refl)) as [H|[H|H]].
  - left. exists t, s'. split_and!; [done|congruence|]. by rewrite H.
  - left. exists t, s'. split_and!; [done|congruence|done].
  - right. left. apply elem_of_app. right. apply list_elem_of_fmap_2.
    destruct (sv_ids _ Hw _ _ _ E) as [Hid _]. by rewrite Hid, Hi in H.
Qed.

Lemma way_serve (p : Z) (who : Identity) (data : bytes) (handle now_ms : Z) (i : inbox_item) (rest : list inbox_item) (w : Relay) :
  rl_inbox w = i :: rest -> served_ok w -> on_the_way p who data w ->
  on_the_way p who data (serve_item iter handle now_ms i (w <| rl_inbox := rest |>)).
Proof.
  intros Ei Hw Hd. set (w0 := w <| rl_inbox := rest |>). destruct (serve_item_nats handle now_ms i w0) as [[k Hn] _].
  pose proof (serve_item_spec iter handle now_ms i w0) as Hs. cbv zeta in Hs.
  destruct (serve iter (rl_server w0) _) as [st e]. destruct Hs as (_ & E2 & _).
  unfold on_the_way. rewrite serve_item_sessions, E2. unfold on_the_way in Hd. rewrite Ei in Hd.
  destruct Hd as [H|[[<-|H]%elem_of_cons|H]]; [by left| |by right; left|right; right; rewrite Hn; set_solver].
  right. right. pose proof (sv_clients _ Hw) as Hc. rewrite Ei in Hc. destruct Hc as [Hc _]. unfold conn_states in Hc.
  simpl in Hc |- *. unfold handle_client_message. simpl. rewrite Hc. simpl. set_solver.
Qed.

Lemma relay_way (p : Z) (who : Identity) (data : bytes) (w : Relay) (ev : relay_event) :
  served_ok w -> on_the_way p who data w -> on_the_way p who data (relay w ev).1.
Proof.
  intros Hw Hd. pose proof (fun id e => way_session p who data id e w Hw Hd) as Hs.
  destruct ev as [uuid now r|id e|id lost|id lost|now chan k|handle now_ms|handle|subject payload|id k]; simpl.
  - destruct (accepted _ _ _ r) as [[t who']|]; [|done]. unfold open_session.
    destruct (rl_sessions w !! _) as [?|] eqn:E; [done|]. cbn [fst]. rewrite absorb_eq. unfold on_the_way. simpl.
    destruct Hd as [(t0 & s0 & E0 & Hi & Hn)|[H|H]]; [|set_solver..]. left. exists t0, s0.
    rewrite lookup_insert_ne by (intros <-; simpl in E; congruence). done.
  - destruct (from_outside e); [|done]. specialize (Hs id e). by destruct (step_session id e w).
  - destruct lost; [apply Hs|]. case_bool_decide; [apply Hs|done].
  - destruct lost; [apply Hs|]. destruct (rl_joined w !! id); [apply Hs|done].
  - destruct (rl_mail w !! k) as [[id payload]|]; [apply Hs|done].
  - destruct (rl_inbox w) as [|i rest] eqn:E; [done|]. by apply way_serve.
  - destruct (rl_timers w !! handle); [|done]. unfold on_the_way in *. simpl. set_solver.
  - unfold on_the_way in *. simpl. set_solver.
  - destruct (rl_subs w !! id) as [[pattern room]|]; [|done]. destruct (rl_nats w !! k) as [[subject payload]|]; [|done].
    destruct (nats_matches pattern subject); [|done]. unfold handle_msg. by destruct (_ && _).
Qed.

(** ** Runs *)

Definition reached (evs : list relay_event) : Relay := (run relay relay_new evs).1.

Lemma run_app_state (w : Relay) (evs evs' : list relay_event) :
  (run relay w (evs ++ evs')).1 = (run relay (run relay w evs).1 evs').1.
Proof. rewrite run_app. destruct (run relay w evs) as [w1 o]. simpl. by destruct (run relay w1 evs'). Qed.

Lemma reached_app (evs evs' : list relay_event) : reached (evs ++ evs') = (run relay (reached evs) evs').1.
Proof. apply run_app_state. Qed.

Lemma run_cons (w : Relay) (ev : relay_event) (evs : list relay_event) :
  (run relay w (ev :: evs)).1 = (run relay (relay w ev).1 evs).1.
Proof. cbn [run]. destruct (relay w ev) as [w1 o]. simpl. by destruct (run relay w1 evs). Qed.

Lemma run_served (w : Relay) (evs : list relay_event) : served_ok w -> served_ok (run relay w evs).1.
Proof.
  revert w. induction evs as [|ev evs IH]; intros w Hw; [done|]. rewrite run_cons. by apply IH, relay_served.
Qed.

Lemma reached_served (evs : list relay_event) : served_ok (reached evs).
Proof. apply run_served. constructor; try done. Qed.

Lemma run_way (p : Z) (who : Identity) (data : bytes) (w : Relay) (evs : list relay_event) :
  served_ok w -> on_the_way p who data w -> on_the_way p who data (run relay w evs).1.
Proof.
  revert w. induction evs as [|ev evs IH]; intros w Hw Hd; [done|]. rewrite run_cons. apply IH; [by apply relay_served|by apply relay_way].
Qed.

Lemma run_grows (w : Relay) (evs : list relay_event) :
  rl_nats w `prefix_of` rl_nats (run relay w evs).1 /\ rl_mail w `prefix_of` rl_mail (run relay w evs).1.
Proof.
  revert w. induction evs as [|ev evs IH]; intros w; [done|]. rewrite run_cons.
  destruct (relay_grows w ev), (IH (relay w ev).1). split; by etransitivity.
Qed.

(** ** Sending, catching up, delivering *)

Definition still_running (id : Z) (w : Relay) : Prop :=
  exists t s, rl_sessions w !! id = Some (t, s) /\ running s = true.

(** The session takes a packet of its own queue, or the chat server a message. *)
Definition catches_up (p : Z) (ev : relay_event) : Prop :=
  match ev with
  | Outside id (PacketTurn _) => id = p
  | Serve _ _ => True
  | _ => False
  end.

Lemma sent_on_the_way (w : Relay) (p now : Z) (t : Transport) (s : TransportSession) (data : bytes) :
  served_ok w -> rl_sessions w !! p = Some (t, s) -> running s = true -> sl_observer (ts_logic s) = false ->
  classify_packet data = PkData ->
  on_the_way p (identity_of (ts_logic s)) data (relay w (Outside p (client_sends t now data))).1.
Proof.
  intros Hw Es Hr Ho Hc. cbn [relay_step]. replace (from_outside (client_sends t now data)) with true by (by destruct t).
  unfold step_session. rewrite Es. pose proof (session_step_facts t s (client_sends t now data)) as F.
  assert (data ∈ ts_notified (session_step t s (client_sends t now data)).1) as Hin.
  { destruct t; simpl; unfold ws_frame, wt_inbound; rewrite Hr; simpl; unfold handle_inbound; simpl; rewrite Hc, Ho; simpl;
      unfold activate_on; simpl; destruct (ts_activated s); simpl; set_solver. }
  destruct (session_step t s _) as [s' effects]. destruct (sf_same _ _ _ _ F) as [_ Hi]. cbn [fst] in *.
  rewrite absorb_eq. left. exists t, s'. simpl. by rewrite lookup_insert_eq.
Qed.

(** The chat server empties its mailbox up to the packet. *)
Lemma served_up_to (p : Z) (who : Identity) (data : bytes) (n : nat) (w : Relay) :
  served_ok w -> rl_inbox w !! n = Some (FromSession (SClient (client_of p who data))) ->
  (session_subject (id_room who) p, stamp_session p data) ∈ rl_nats (run relay w (replicate (S n) (Serve 0 0))).1.
Proof.
  revert w. induction n as [|n IH]; intros w Hw Hn; cbn [replicate]; rewrite run_cons; cbn [relay_step];
    destruct (rl_inbox w) as [|i rest] eqn:Ei; [done| |done|].
  - injection Hn as ->. pose proof (sv_clients _ Hw) as Hc. rewrite Ei in Hc. destruct Hc as [Hc _]. unfold conn_states in Hc.
    simpl in Hc. simpl. unfold handle_client_message. simpl. rewrite Hc. simpl. set_solver.
  - cbn [fst]. apply (IH _ (served_serve 0 0 i rest w Ei Hw)). simpl in Hn.
    pose proof (serve_item_spec iter 0 0 i (w <| rl_inbox := rest |>)) as Hs. cbv zeta in Hs.
    destruct (serve iter _ _) as [st e]. destruct Hs as (_ & -> & _). exact Hn.
Qed.

Lemma can_catch_up (p : Z) (who : Identity) (data : bytes) (w : Relay) :
  served_ok w -> on_the_way p who data w -> still_running p w ->
  exists evs, Forall (catches_up p) evs /\
    (session_subject (id_room who) p, stamp_session p data) ∈ rl_nats (run relay w evs).1.
Proof.
  intros Hw Hd (t & s & Es & Hr).
  assert (forall w, served_ok w -> FromSession (SClient (client_of p who data)) ∈ rl_inbox w ->
    exists evs, Forall (catches_up p) evs /\
      (session_subject (id_room who) p, stamp_session p data) ∈ rl_nats (run relay w evs).1) as Hserve.
  { intros w0 Hw0 [n Hn]%list_elem_of_lookup. exists (replicate (S n) (Serve 0 0)). split; [by apply Forall_replicate|].
    by apply served_up_to. }
  destruct Hd as [(t0 & s0 & E0 & Hi & Hn)|[H|H]]; [|by apply Hserve|by exists []].
  rewrite Es in E0. injection E0 as <- <-. specialize (Hn (running_not_stopped s Hr)).
  apply list_elem_of_lookup in Hn as [i Hi0]. destruct (sv_ids _ Hw _ _ _ Es) as [Hid _].
  set (w1 := (relay w (Outside p (PacketTurn i))).1).
  assert (FromSession (SClient (client_of p who data)) ∈ rl_inbox w1) as Hin.
  { unfold w1. simpl. unfold step_session. rewrite Es.
    replace (session_step t s (PacketTurn i)) with (on_packet i s) by (by destruct t). unfold on_packet.
    rewrite Hr, Hi0. simpl. rewrite <- Hi, <- Hid. set_solver. }
  destruct (Hserve w1 (relay_served w _ Hw) Hin) as (evs & He & Hp).
  exists (Outside p (PacketTurn i) :: evs). split; [by constructor|]. by rewrite run_cons.
Qed.

(** NATS delivers the packet to a subscription of the room. *)
Lemma nats_delivers {nats : NatsLaws nats_matches} (w : Relay) (room pattern : string) (p o : Z) (b : bytes) (k : nat) :
  valid_id room = true -> 0 <= p -> 0 <= o -> p <> o ->
  rl_subs w !! o = Some (pattern, room) -> pattern = (build_subject_and_queue room (show_u64 o)).1 ->
  rl_nats w !! k = Some (session_subject room p, b) ->
  (o, b) ∈ rl_mail (relay w (NatsDelivers o k)).1.
Proof.
  intros Hv Hp Ho Hne Hsub -> Hn. cbn [relay_step]. rewrite Hsub, Hn.
  destruct (room_tokens room p Hv) as (Ht & _). destruct (room_tokens room o Hv) as (Ht' & _).
  replace (nats_matches _ _) with true by (symmetry; apply subscribed_tokens; [done..|by eexists]).
  unfold handle_msg. rewrite bool_decide_false.
  2: { intros E. rewrite E, Ht' in Ht. injection Ht as Ht. by apply Hne, show_u64_inj. }
  simpl. set_solver.
Qed.

(** A running session with room in its channel passes its mail on. *)
Lemma mail_taken (w : Relay) (o now : Z) (b : bytes) (k : nat) :
  still_running o w -> rl_mail w !! k = Some (o, b) ->
  exists e, Did o e ∈ (relay w (TakeMail now HasRoom k)).2 /\ frame_of e = Some b.
Proof.
  intros (t & s & Es & Hr) Hk. cbn [relay_step]. rewrite Hk. unfold step_session. rewrite Es.
  destruct t; simpl; unfold ws_message, wt_message; rewrite Hr; simpl.
  - eexists. split; [by apply elem_of_cons; right; left|done].
  - eexists. split; [by apply elem_of_cons; right; left|]. by destruct (_ && _).
Qed.

(** A subscription was made for a session of the room. *)
Lemma reached_subscription {laws : WireLaws} {nats : NatsLaws nats_matches} (evs : list relay_event) (o : Z) (pattern room : string) :
  visits_entries iter -> rl_subs (reached evs) !! o = Some (pattern, room) ->
  valid_id room = true /\ pattern = (build_subject_and_queue room (show_u64 o)).1 /\ 0 <= o.
Proof.
  intros Hit Hs.
  pose proof (run_log_invariant relay rooms_ok (fun w log ev => relay_step_ok _ _ _ _ _ w log ev Hit) evs relay_new [] relay_new_ok) as H.
  destruct (ro_subs _ _ H _ _ _ Hs) as (who & [t Ho] & -> & Hp). destruct (ro_opened _ _ H _ _ _ Ho) as (Hv & s & Es & _).
  split_and!; [done..|]. exact (proj2 (sv_ids _ (reached_served evs) _ _ _ Es)).
Qed.

Lemma elem_of_prefix {A} (x : A) (l l' : list A) : x ∈ l -> l `prefix_of` l' -> x ∈ l'.
Proof. intros Hx [k ->]. set_solver. Qed.

(** C10: what a participant sends reaches the room. In any state the server can reach, the
    client of a running session that is not an observer sends a data packet. Whatever else
    happens then, as long as the session has not stopped, its queue and the chat server can
    catch up, so that from then on, whatever happens next, NATS can deliver the packet to any
    other session that has a subscription to the room, participant or observer alike; and
    whenever that session, still running and with room in its channel, takes its mail, its
    client gets the packet, bearing the sender's session if the packet bore none. *)
Theorem media_is_delivered {laws : WireLaws} {nats : NatsLaws nats_matches} (evs0 evs1 : list relay_event) (p now : Z)
    (t : Transport) (s : TransportSession) (data : bytes) :
  visits_entries iter ->
  rl_sessions (reached evs0) !! p = Some (t, s) -> running s = true -> sl_observer (ts_logic s) = false ->
  classify_packet data = PkData ->
  let sent := evs0 ++ Outside p (client_sends t now data) :: evs1 in
  still_running p (reached sent) ->
  exists evs2, Forall (catches_up p) evs2 /\
  forall evs3 o pattern, o <> p ->
  rl_subs (reached (sent ++ evs2 ++ evs3)) !! o = Some (pattern, sl_room (ts_logic s)) ->
  exists k, forall evs4 now',
  let w := reached (sent ++ evs2 ++ evs3 ++ NatsDelivers o k :: evs4) in
  still_running o w ->
  exists k' e, Did o e ∈ (relay w (TakeMail now' HasRoom k')).2 /\ frame_of e = Some (stamp_session p data).
Proof.
  intros Hit Es Hr Ho Hc sent Hrun. set (who := identity_of (ts_logic s)).
  assert (on_the_way p who data (reached sent)) as Hway.
  { unfold sent. rewrite reached_app, run_cons. apply run_way; [apply relay_served, reached_served|].
    apply sent_on_the_way; [apply reached_served|done..]. }
  destruct (can_catch_up p who data (reached sent) (reached_served _) Hway Hrun) as (evs2 & Hc2 & Hpub).
  exists evs2. split; [done|]. intros evs3 o pattern Hne Hsub.
  destruct (reached_subscription (sent ++ evs2 ++ evs3) o pattern _ Hit Hsub) as (Hv & Hpat & Hpos).
  assert ((session_subject (id_room who) p, stamp_session p data) ∈ rl_nats (reached (sent ++ evs2 ++ evs3))) as [k Hk]%list_elem_of_lookup.
  { rewrite reached_app, run_app_state. eapply elem_of_prefix; [exact Hpub|apply run_grows]. }
  destruct (sv_ids _ (reached_served evs0) _ _ _ Es) as [_ Hp].
  exists k. intros evs4 now' w Hrun'.
  assert ((o, stamp_session p data) ∈ rl_mail w) as [k' Hk']%list_elem_of_lookup.
  { unfold w. rewrite !app_assoc, reached_app, run_cons, <- !app_assoc. eapply elem_of_prefix; [|apply run_grows].
    by eapply nats_delivers. }
  exists k'. by apply mail_taken.
Qed.

End Delivery.

(** ** A concrete run *)

#[local] Existing Instance demo_wire.
#[local] Existing Instance demo_laws.
#[local] Existing Instance demo_nats.

Definition demo_reached : list relay_event -> Relay := reached map_to_list demo_decode "secret" true demo_matches.

(** Alice sends a packet; Bob, an observer of the room on the other transport, gets it. *)
Lemma media_is_delivered_witness :
  let sent := demo_setup ++ [Outside 1 (client_sends WebSocket 20 demo_packet)] in
  Did 2 (Outbound (UniStream [MEDIA; 1; 0; 1])) ∈ (run demo_relay (demo_reached demo_setup) demo_talk).2 /\
  is_Some (rl_subs (demo_reached sent) !! 2) /\
  exists evs2, Forall (catches_up 1) evs2 /\
  forall evs3 o pattern, o <> 1 ->
  rl_subs (demo_reached (sent ++ evs2 ++ evs3)) !! o = Some (pattern, "standup-1"%string) ->
  exists k, forall evs4 now',
  let w := demo_reached (sent ++ evs2 ++ evs3 ++ NatsDelivers o k :: evs4) in
  still_running o w ->
  exists k' e, Did o e ∈ (demo_relay w (TakeMail now' HasRoom k')).2 /\ frame_of e = Some [MEDIA; 1; 0; 1].
Proof.
  intros sent. split; [vm_compute; by repeat (left || right)|]. split; [vm_compute; eexists; reflexivity|].
  apply (media_is_delivered map_to_list demo_decode "secret" true demo_matches demo_setup [] 1 20 WebSocket alice_session demo_packet
    ltac:(intros m; reflexivity)); [vm_compute; reflexivity|reflexivity..|].
  eexists _, _. split; [vm_compute; reflexivity|reflexivity].
Defined.
