(* ===== verification/OrderedMap.v ===== *)
(** * The ordered map of the client (videocall-client/src/decode/
      hash_map_with_ordered_keys.rs)

    A hash map beside the sorted vector of its keys. The keys are the [u64]
    session ids of the peer table, its only client. Against the plain map [om_map]
    every operation is the one of the map, and the vector is always the sorted
    domain of the map. The predicate of [remove_if] takes a mutable reference, so
    in the model it returns the new value too. *)
From S2P Require Import Prelude.

Record HashMapWithOrderedKeys (V : Type) : Type := mkOrderedMap {
  om_map : gmap Z V;
  om_keys : list Z;
}.
Arguments mkOrderedMap {V} _ _.
Arguments om_map {V} _.
Arguments om_keys {V} _.

Section OrderedMap.
Context {V : Type}.

Notation ordmap := (HashMapWithOrderedKeys V).

(** [Vec::sort] on [u64]. *)
Definition sort_keys (l : list Z) : list Z := merge_sort Z.le l.

Definition om_new : ordmap := mkOrderedMap ∅ [].

Definition om_get (k : Z) (m : ordmap) : option V := om_map m !! k.

Definition om_contains_key (k : Z) (m : ordmap) : bool := bool_decide (is_Some (om_map m !! k)).

(** [get_mut] followed by an update of the value it points to. *)
Definition om_update (k : Z) (f : V -> V) (m : ordmap) : ordmap :=
  mkOrderedMap (alter f k (om_map m)) (om_keys m).

Definition om_insert (k : Z) (v : V) (m : ordmap) : ordmap * option V :=
  match om_map m !! k with
  | Some old => (mkOrderedMap (<[k := v]> (om_map m)) (om_keys m), Some old)
  | None => (mkOrderedMap (<[k := v]> (om_map m)) (sort_keys (om_keys m ++ [k])), None)
  end.

(** [binary_search] returns the index of a match: on the sorted vector without
    duplicates there is at most one. *)
Definition key_index (k : Z) (l : list Z) : option nat := fst <$> list_find (fun x => x = k) l.

Definition om_remove (k : Z) (m : ordmap) : ordmap * option V :=
  let keys := match key_index k (om_keys m) with
              | Some index => delete index (om_keys m)
              | None => om_keys m
              end in
  (mkOrderedMap (delete k (om_map m)) keys, om_map m !! k).

(** [drain_all]: the entries in the iteration order [iter] of the hash map. *)
Definition om_drain_all (iter : gmap Z V -> list (Z * V)) (m : ordmap) : ordmap * list (Z * V) :=
  (mkOrderedMap ∅ [], iter (om_map m)).

Definition ordered_keys (m : ordmap) : list Z := om_keys m.

(** The first loop of [remove_if]: the predicate is applied to every value in key
    order, the keys to remove are collected. *)
Fixpoint visit (predicate : V -> V * bool) (keys : list Z) (map : gmap Z V)
    : gmap Z V * list Z :=
  match keys with
  | [] => (map, [])
  | k :: rest =>
      match map !! k with
      | Some value =>
          let '(value', keep) := predicate value in
          let '(map', to_remove) := visit predicate rest (<[k := value']> map) in
          (map', if keep then to_remove else k :: to_remove)
      | None => visit predicate rest map
      end
  end.

(** The second loop: each collected key leaves the map and the vector. *)
Fixpoint remove_keys (to_remove : list Z) (m : ordmap) : ordmap * list (Z * V) :=
  match to_remove with
  | [] => (m, [])
  | k :: rest =>
      let m1 := mkOrderedMap (delete k (om_map m)) (filter (fun x => x <> k) (om_keys m)) in
      let '(m2, removed) := remove_keys rest m1 in
      (m2, match om_map m !! k with Some v => (k, v) :: removed | None => removed end)
  end.

Definition remove_if_and_return (predicate : V -> V * bool) (m : ordmap) : ordmap * list (Z * V) :=
  let '(map', to_remove) := visit predicate (om_keys m) (om_map m) in
  remove_keys to_remove (mkOrderedMap map' (om_keys m)).

Definition remove_if (predicate : V -> V * bool) (m : ordmap) : ordmap :=
  fst (remove_if_and_return predicate m).

(** ** The representation invariant *)

Record om_wf (m : ordmap) : Prop := {
  ow_sorted : StronglySorted Z.lt (om_keys m);
  ow_dom : forall k, k ∈ om_keys m <-> is_Some (om_map m !! k);
}.

Lemma lt_sorted_nodup (l : list Z) : StronglySorted Z.lt l -> NoDup l.
Proof.
  induction 1 as [|x l Hs IH Hf]; constructor; [|done].
  intros Hx. pose proof (Forall_elem _ _ _ Hf Hx). simpl in *. lia.
Qed.

Lemma le_sorted_lt (l : list Z) : Sorted Z.le l -> NoDup l -> StronglySorted Z.lt l.
Proof.
  intros Hs%Sorted_StronglySorted; [|intros ???; lia].
  induction Hs as [|x l Hs IH Hf]; intros Hn; constructor; inversion Hn; subst; auto.
  apply Forall_forall. intros y Hy. pose proof (Forall_elem _ _ _ Hf Hy). simpl in *.
  assert (x <> y) by (intros ->; done). lia.
Qed.

Lemma sort_keys_perm (l : list Z) : sort_keys l ≡ₚ l.
Proof. apply merge_sort_Permutation. Qed.

Lemma sort_keys_sorted (l : list Z) : NoDup l -> StronglySorted Z.lt (sort_keys l).
Proof.
  intros Hn. apply le_sorted_lt; [apply Sorted_merge_sort; intros ??; lia |].
  by rewrite sort_keys_perm.
Qed.

(** Two strictly sorted lists with the same elements are equal. *)
Lemma lt_sorted_unique (l k : list Z) :
  StronglySorted Z.lt l -> StronglySorted Z.lt k -> (forall x, x ∈ l <-> x ∈ k) -> l = k.
Proof.
  intros Hl. revert k. induction Hl as [|x l Hs IH Hf]; intros k Hk Heq.
  - destruct k as [|y k]; [done |]. exfalso. by apply (not_elem_of_nil y), Heq; left.
  - destruct k as [|y k]; [exfalso; by apply (not_elem_of_nil x), Heq; left |].
    inversion Hk as [|? ? Hsk Hfk]; subst. rewrite Forall_forall in Hf, Hfk.
    assert (x = y) as <-.
    { assert (x ∈ y :: k) as [->|Hx]%elem_of_cons by (apply Heq; left); [done |].
      assert (y ∈ x :: l) as [->|Hy]%elem_of_cons by (apply Heq; left); [done |].
      specialize (Hf _ Hy). specialize (Hfk _ Hx). lia. }
    f_equal. apply IH; [done |]. intros z. specialize (Heq z). rewrite !elem_of_cons in Heq.
    split; intros Hz.
    + destruct (proj1 Heq (or_intror Hz)) as [->|]; [|done]. specialize (Hf _ Hz). lia.
    + destruct (proj2 Heq (or_intror Hz)) as [->|]; [|done]. specialize (Hfk _ Hz). lia.
Qed.

(** The vector is a function of the map. *)
Lemma om_wf_ext (m n : ordmap) : om_wf m -> om_wf n -> om_map m = om_map n -> m = n.
Proof.
  destruct m as [mm mk], n as [nm nk]. intros [Hs Hd] [Hs' Hd'] E. simpl in *. subst nm. f_equal.
  apply lt_sorted_unique; [done | done |]. intros x. by rewrite Hd, Hd'.
Qed.

Lemma om_new_wf : om_wf om_new.
Proof.
  split; simpl; [constructor |]. intros k. rewrite elem_of_nil, lookup_empty.
  split; [done | by intros []].
Qed.

Lemma om_update_wf (k : Z) (f : V -> V) (m : ordmap) : om_wf m -> om_wf (om_update k f m).
Proof.
  intros [Hs Hd]. split; simpl; [done |]. intros j. rewrite Hd.
  by rewrite lookup_alter_is_Some.
Qed.

Lemma om_insert_wf (k : Z) (v : V) (m : ordmap) : om_wf m -> om_wf (om_insert k v m).1.
Proof.
  intros [Hs Hd]. unfold om_insert. destruct (om_map m !! k) as [old|] eqn:E; split; simpl.
  - done.
  - intros j. rewrite Hd, lookup_insert_is_Some'. split; [auto |]. intros [->|]; [by rewrite E | done].
  - apply sort_keys_sorted. rewrite (Permutation_app_comm _ [k]). constructor; [|by apply lt_sorted_nodup].
    rewrite Hd, E. by intros [].
  - intros j. rewrite sort_keys_perm, elem_of_app, list_elem_of_singleton, Hd, lookup_insert_is_Some'.
    naive_solver.
Qed.

Lemma filter_sorted (P : Z -> Prop) `{!forall x, Decision (P x)} (l : list Z) :
  StronglySorted Z.lt l -> StronglySorted Z.lt (filter P l).
Proof.
  induction 1 as [|x l Hs IH Hf]; [constructor |]. rewrite filter_cons. case_decide; [|done].
  constructor; [done | by apply Forall_filter_sub].
Qed.

(** Removing the index of a key is filtering the key out. *)
Lemma delete_key_index (k : Z) (l : list Z) :
  StronglySorted Z.lt l ->
  match key_index k l with Some i => delete i l | None => l end = filter (fun x => x <> k) l.
Proof.
  unfold key_index. induction 1 as [|x l Hs IH Hf]; [done |]. cbn [list_find].
  destruct (decide (x = k)) as [->|Hx].
  - simpl. rewrite filter_cons_False by auto. symmetry.
    apply filter_keep_all. eapply Forall_impl; [exact Hf |]. simpl. lia.
  - rewrite filter_cons_True by done. destruct (list_find _ l) as [[i y]|]; simpl in *.
    + f_equal. exact IH.
    + f_equal. exact IH.
Qed.

Lemma drop_key_wf (k : Z) (m : ordmap) :
  om_wf m -> om_wf (mkOrderedMap (delete k (om_map m)) (filter (fun x => x <> k) (om_keys m))).
Proof.
  intros [Hs Hd]. split; simpl; [by apply filter_sorted |]. intros j.
  rewrite list_elem_of_filter, Hd, lookup_delete_is_Some. naive_solver.
Qed.

Lemma om_remove_eq (k : Z) (m : ordmap) :
  om_wf m ->
  om_remove k m = (mkOrderedMap (delete k (om_map m)) (filter (fun x => x <> k) (om_keys m)),
                   om_map m !! k).
Proof. intros [Hs _]. unfold om_remove. by rewrite delete_key_index. Qed.

Lemma om_remove_wf (k : Z) (m : ordmap) : om_wf m -> om_wf (om_remove k m).1.
Proof. intros H. rewrite om_remove_eq by done. by apply drop_key_wf. Qed.

Lemma om_drain_wf iter (m : ordmap) : om_wf (om_drain_all iter m).1.
Proof. apply om_new_wf. Qed.

(** ** The two loops of [remove_if] *)

Lemma visit_spec (predicate : V -> V * bool) (keys : list Z) (map map' : gmap Z V) (rm : list Z) :
  NoDup keys -> visit predicate keys map = (map', rm) ->
  (forall k, map' !! k = if bool_decide (k ∈ keys) then fst ∘ predicate <$> map !! k else map !! k) /\
  rm = filter (fun k => snd ∘ predicate <$> map !! k = Some false) keys.
Proof.
  intros Hn. revert map map' rm. induction Hn as [|k keys Hk Hn IH]; intros map map' rm E; simpl in E.
  - simplify_eq. split; [|done]. intros j. by rewrite bool_decide_false by apply not_elem_of_nil.
  - destruct (map !! k) as [v|] eqn:Ek.
    + destruct (predicate v) as [v' keep] eqn:Ep.
      destruct (visit predicate keys (<[k:=v']> map)) as [m2 rm2] eqn:E2. simplify_eq.
      specialize (IH _ _ _ E2) as [IH1 IH2]. split.
      * intros j. rewrite IH1. destruct (decide (j = k)) as [->|Hj].
        -- rewrite bool_decide_false, bool_decide_true by set_solver.
           rewrite lookup_insert_eq, Ek. simpl. by rewrite Ep.
        -- rewrite lookup_insert_ne by done.
           by rewrite (bool_decide_ext (j ∈ keys) (j ∈ k :: keys)) by set_solver.
      * rewrite filter_cons, Ek. simpl. rewrite Ep. simpl. rewrite IH2.
        assert (filter (λ j, snd ∘ predicate <$> <[k:=v']> map !! j = Some false) keys =
                filter (λ j, snd ∘ predicate <$> map !! j = Some false) keys) as ->.
        { apply filter_ext_on, Forall_forall. intros j Hj.
          rewrite lookup_insert_ne; [done | by intros ->]. }
        by destruct keep.
    + specialize (IH _ _ _ E) as [IH1 IH2]. split.
      * intros j. rewrite IH1. destruct (decide (j = k)) as [->|Hj].
        -- rewrite bool_decide_false by done. rewrite Ek. by case_bool_decide.
        -- by rewrite (bool_decide_ext (j ∈ keys) (j ∈ k :: keys)) by set_solver.
      * by rewrite filter_cons, Ek.
Qed.

Lemma remove_keys_spec (rm : list Z) (m : ordmap) :
  om_wf m -> NoDup rm ->
  let '(m', removed) := remove_keys rm m in
  om_wf m' /\ (forall k, om_map m' !! k = if bool_decide (k ∈ rm) then None else om_map m !! k) /\
  removed = omap (fun k => (k,.) <$> om_map m !! k) rm.
Proof.
  intros Hwf Hn. revert m Hwf. induction Hn as [|k rm Hk Hn IH]; intros m Hwf; simpl.
  - done.
  - specialize (IH _ (drop_key_wf k m Hwf)). destruct (remove_keys rm _) as [m2 removed].
    destruct IH as (Hwf2 & Hm & Hr). split_and!; [done | |].
    + intros j. rewrite Hm. simpl. destruct (decide (j = k)) as [->|Hj].
      * rewrite lookup_delete_eq. case_bool_decide; rewrite bool_decide_true by set_solver; done.
      * rewrite lookup_delete_ne by done.
        by rewrite (bool_decide_ext (j ∈ rm) (j ∈ k :: rm)) by set_solver.
    + rewrite Hr. simpl.
      assert (omap (λ j, (j,.) <$> delete k (om_map m) !! j) rm =
              omap (λ j, (j,.) <$> om_map m !! j) rm) as ->.
      { apply list_omap_ext, Forall2_same_length_lookup. split; [done |].
        intros i x y Hx Hy. simplify_eq. rewrite lookup_delete_ne; [done |].
        intros <-. by apply Hk, list_elem_of_lookup_2 with i. }
      by destruct (om_map m !! k).
Qed.

Definition keep_value (predicate : V -> V * bool) (v : V) : option V :=
  let '(v', keep) := predicate v in if keep then Some v' else None.

(** The entries that leave, in the order of the keys, with the values the
    predicate left in them. *)
Definition leaving (predicate : V -> V * bool) (map : gmap Z V) (k : Z) : option (Z * V) :=
  v0 ← map !! k; let '(v, keep) := predicate v0 in if keep then None else Some (k, v).

Lemma remove_if_spec (predicate : V -> V * bool) (m : ordmap) :
  om_wf m ->
  let '(m', removed) := remove_if_and_return predicate m in
  om_wf m' /\ om_map m' = omap (keep_value predicate) (om_map m) /\
  removed = omap (leaving predicate (om_map m)) (om_keys m).
Proof.
  intros Hwf. unfold remove_if_and_return. pose proof (lt_sorted_nodup _ (ow_sorted m Hwf)) as Hn.
  destruct (visit predicate (om_keys m) (om_map m)) as [map' rm] eqn:Ev.
  destruct (visit_spec _ _ _ _ _ Hn Ev) as [Hmap Hrm].
  assert (forall k, map' !! k = fst ∘ predicate <$> om_map m !! k) as Hmap'.
  { intros k. rewrite Hmap. case_bool_decide as Hk; [done |]. rewrite (ow_dom m Hwf) in Hk.
    by apply eq_None_not_Some in Hk as ->. }
  assert (om_wf (mkOrderedMap map' (om_keys m))) as Hwf'.
  { split; simpl; [apply Hwf |]. intros k. by rewrite (ow_dom m Hwf), Hmap', fmap_is_Some. }
  assert (StronglySorted Z.lt rm) as Hs by (subst rm; apply filter_sorted, Hwf).
  pose proof (remove_keys_spec rm _ Hwf' (lt_sorted_nodup _ Hs)) as Hr.
  destruct (remove_keys rm _) as [m' removed]. destruct Hr as (Hwfm & Hm & ->). simpl in *.
  assert (forall k, k ∈ rm <-> snd ∘ predicate <$> om_map m !! k = Some false) as Hin.
  { intros k. rewrite Hrm, list_elem_of_filter, (ow_dom m Hwf). split; [tauto |].
    intros E. split; [done |]. destruct (om_map m !! k); [by eexists | done]. }
  split_and!; [done | |].
  - apply map_eq. intros k. rewrite Hm, lookup_omap, Hmap'. unfold keep_value.
    destruct (om_map m !! k) as [v|] eqn:E; simpl; [|by case_bool_decide].
    specialize (Hin k). rewrite E in Hin. simpl in Hin.
    destruct (predicate v) as [v' []]; simpl in *;
      [rewrite bool_decide_false | rewrite bool_decide_true]; naive_solver.
  - subst rm. clear -Hmap'. induction (om_keys m) as [|k keys IH]; [done |]. rewrite filter_cons.
    cbn [omap list_omap]. unfold leaving at 1. rewrite <- IH. clear IH.
    case_decide as Hk; cbn [omap list_omap]; rewrite ?Hmap';
      destruct (om_map m !! k) as [v|]; simpl in *; try done; by destruct (predicate v) as [? []].
Qed.

(** ** Refinement of the plain map

    What the client observes of a sequence of operations is what it would observe
    of the hash map alone, with the keys listed in increasing order. *)

Inductive om_op : Type :=
| OpGet (k : Z)
| OpContains (k : Z)
| OpUpdate (k : Z) (f : V -> V)
| OpInsert (k : Z) (v : V)
| OpRemove (k : Z)
| OpRemoveIf (predicate : V -> V * bool)
| OpDrain
| OpKeys.

Inductive om_obs : Type :=
| ObsValue (v : option V)
| ObsBool (b : bool)
| ObsKeys (l : list Z)
| ObsEntries (l : list (Z * V)).

Definition om_step (iter : gmap Z V -> list (Z * V)) (m : ordmap) (op : om_op)
    : ordmap * list om_obs :=
  match op with
  | OpGet k => (m, [ObsValue (om_get k m)])
  | OpContains k => (m, [ObsBool (om_contains_key k m)])
  | OpUpdate k f => (om_update k f m, [])
  | OpInsert k v => let '(m', old) := om_insert k v m in (m', [ObsValue old])
  | OpRemove k => let '(m', old) := om_remove k m in (m', [ObsValue old])
  | OpRemoveIf p => let '(m', removed) := remove_if_and_return p m in (m', [ObsEntries removed])
  | OpDrain => let '(m', all) := om_drain_all iter m in (m', [ObsEntries all])
  | OpKeys => (m, [ObsKeys (ordered_keys m)])
  end.

Definition sorted_dom (map : gmap Z V) : list Z := sort_keys (elements (dom map)).

Definition map_step (iter : gmap Z V -> list (Z * V)) (map : gmap Z V) (op : om_op)
    : gmap Z V * list om_obs :=
  match op with
  | OpGet k => (map, [ObsValue (map !! k)])
  | OpContains k => (map, [ObsBool (bool_decide (k ∈ dom map))])
  | OpUpdate k f => (alter f k map, [])
  | OpInsert k v => (<[k := v]> map, [ObsValue (map !! k)])
  | OpRemove k => (delete k map, [ObsValue (map !! k)])
  | OpRemoveIf p => (omap (keep_value p) map, [ObsEntries (omap (leaving p map) (sorted_dom map))])
  | OpDrain => (∅, [ObsEntries (iter map)])
  | OpKeys => (map, [ObsKeys (sorted_dom map)])
  end.

Lemma om_keys_sorted_dom (m : ordmap) : om_wf m -> om_keys m = sorted_dom (om_map m).
Proof.
  intros [Hs Hd]. apply lt_sorted_unique; [done | apply sort_keys_sorted, NoDup_elements |].
  intros x. unfold sorted_dom. by rewrite Hd, sort_keys_perm, elem_of_elements, elem_of_dom.
Qed.

Lemma om_step_refines iter (m : ordmap) (op : om_op) :
  om_wf m ->
  let '(m', o) := om_step iter m op in om_wf m' /\ map_step iter (om_map m) op = (om_map m', o).
Proof.
  intros Hwf. destruct op; cbn [om_step map_step].
  - done.
  - split; [done |]. unfold om_contains_key. do 3 f_equal. apply bool_decide_ext. by rewrite elem_of_dom.
  - split; [by apply om_update_wf | done].
  - pose proof (om_insert_wf k v m Hwf) as Hi. unfold om_insert in *.
    by destruct (om_map m !! k); simpl in *.
  - pose proof (om_remove_wf k m Hwf) as Hi. rewrite om_remove_eq in Hi |- * by done.
    split; [exact Hi | done].
  - pose proof (remove_if_spec predicate m Hwf) as Hr.
    destruct (remove_if_and_return predicate m). destruct Hr as (? & -> & ->).
    by rewrite om_keys_sorted_dom.
  - split; [apply om_new_wf | done].
  - split; [done |]. unfold ordered_keys. by rewrite om_keys_sorted_dom.
Qed.

(** C35: the ordered map implements a map with a sorted listing. Whatever sequence of
    operations is run on a fresh one, every result, every removed entry and every
    key listing is the one of the plain map, with the keys of the map in increasing
    order, each once; predicates that change the values they inspect included. *)
Theorem ordered_map_refines_map iter (ops : list om_op) :
  (run (om_step iter) om_new ops).2 = (run (map_step iter) ∅ ops).2.
Proof.
  assert (forall m, om_wf m ->
    run (map_step iter) (om_map m) ops =
      let '(m', o) := run (om_step iter) m ops in (om_map m', o)) as H.
  { induction ops as [|op ops IH]; intros m Hwf; simpl; [done |].
    pose proof (om_step_refines iter m op Hwf) as Hs. destruct (om_step iter m op) as [m1 o1].
    destruct Hs as [Hwf1 ->]. rewrite IH by done. by destruct (run (om_step iter) m1 ops). }
  specialize (H om_new om_new_wf). simpl in H. rewrite H.
  by destruct (run (om_step iter) om_new ops).
Qed.
End OrderedMap.
