(* ===== verification/Media.v ===== *)
(** * Media packets, their encryption and their text fields

    The messages a client exchanges inside a [PacketWrapper]
    (protobuf/types/media_packet.proto), videocall-client/src/crypto/aes.rs and
    videocall-client/src/encode/transform.rs. The generated protobuf code is
    reached through the class [MediaWire], which extends [Wire]; the block cipher
    through the class [Cipher]. *)
From Stdlib Require Import Ascii.
From S2P Require Import Prelude Floats JitterBuffer Protocol.

(** ** Enumerations of the wire *)

Definition RSA_PUB_KEY : Z := 1.
Definition AES_KEY : Z := 2.
Definition CONNECTION : Z := 4.
Definition DIAGNOSTICS : Z := 5.

Definition MEDIA_TYPE_UNKNOWN : Z := 0.
Definition VIDEO : Z := 1.
Definition AUDIO : Z := 2.
Definition SCREEN : Z := 3.
Definition HEARTBEAT : Z := 4.

Definition MEETING_ACTIVATED : Z := 5.
Definition PARTICIPANT_ADMITTED : Z := 6.
Definition PARTICIPANT_REJECTED : Z := 7.
Definition WAITING_ROOM_UPDATED : Z := 8.

(** [EnumOrUnknown::enum_value]: the number, when the enumeration has it. *)
Definition enum_value (max n : Z) : option Z := if (0 <=? n) && (n <=? max) then Some n else None.

Definition packet_type_value (n : Z) : option Z := enum_value 9 n.
Definition media_type_value (n : Z) : option Z := enum_value 6 n.
Definition meeting_event_value (n : Z) : option Z := enum_value 8 n.

(** ** Messages *)

Record AudioMetadata : Type := mkAudioMetadata {
  audio_format : string;
  audio_number_of_channels : Z;
  audio_number_of_frames : Z;
  audio_sample_rate : float;
  am_sequence : Z;
}.

Record VideoMetadata : Type := mkVideoMetadata {
  vm_sequence : Z;
  vm_codec : Z;
}.

Record HeartbeatMetadata : Type := mkHeartbeatMetadata {
  hb_video_enabled : bool;
  hb_audio_enabled : bool;
  hb_screen_enabled : bool;
  hb_is_speaking : bool;
}.

Record MediaPacket : Type := mkMediaPacket {
  media_type : Z;
  mp_user_id : bytes;
  mp_data : bytes;
  frame_type : string;
  mp_timestamp : float;
  mp_duration : float;
  audio_metadata : option AudioMetadata;
  video_metadata : option VideoMetadata;
  heartbeat_metadata : option HeartbeatMetadata;
}.

#[export] Instance eta_MediaPacket : Eta MediaPacket := fun r =>
  mkMediaPacket (media_type r) (mp_user_id r) (mp_data r) (frame_type r) (mp_timestamp r)
    (mp_duration r) (audio_metadata r) (video_metadata r) (heartbeat_metadata r).

Definition media_default : MediaPacket :=
  mkMediaPacket 0 [] [] EmptyString (F64.of_Z 0) (F64.of_Z 0) None None None.

(** What a parser of media packets promises: it inverts the writer, and the server's
    inspection of the media type agrees with it. *)
Class MediaWire {wire : Wire} : Type := {
  parse_media : bytes -> option MediaPacket;
  write_media : MediaPacket -> option bytes;
}.

Class MediaWireLaws {wire : Wire} {media : MediaWire} : Prop := {
  parse_write_media : forall m b, write_media m = Some b -> parse_media b = Some m;
  parse_media_type_of : forall b, parse_media_type b = media_type <$> parse_media b;
}.

(** ** Text: [String::from_utf8_lossy]

    The UTF-8 decoder of the standard library replaces every maximal invalid prefix
    of a sequence by U+FFFD. [utf8_step b] is the length of the first sequence of [b]
    and whether it is valid. *)

Definition in_range (lo hi : Z) (b : option Z) : bool :=
  match b with Some x => (lo <=? x) && (x <=? hi) | None => false end.

(** Continuation bytes after a lead byte, the first one within [lo, hi]: the number of
    bytes read, and whether all [n] of them were there. *)
Definition utf8_tail (n : nat) (lo hi : Z) (rest : bytes) : nat * bool :=
  if negb (in_range lo hi (rest !! 0%nat)) then (1%nat, false)
  else if bool_decide (n = 1)%nat then (2%nat, true)
  else if negb (in_range 128 191 (rest !! 1%nat)) then (2%nat, false)
  else if bool_decide (n = 2)%nat then (3%nat, true)
  else if negb (in_range 128 191 (rest !! 2%nat)) then (3%nat, false)
  else (4%nat, true).

Definition utf8_step (lead : Z) (rest : bytes) : nat * bool :=
  if lead <=? 127 then (1%nat, true)
  else if lead <? 194 then (1%nat, false)
  else if lead <=? 223 then utf8_tail 1 128 191 rest
  else if lead =? 224 then utf8_tail 2 160 191 rest
  else if lead =? 237 then utf8_tail 2 128 159 rest
  else if lead <=? 239 then utf8_tail 2 128 191 rest
  else if lead =? 240 then utf8_tail 3 144 191 rest
  else if lead <=? 243 then utf8_tail 3 128 191 rest
  else if lead =? 244 then utf8_tail 3 128 143 rest
  else (1%nat, false).

Definition REPLACEMENT : bytes := [239; 191; 189].

Fixpoint utf8_lossy (fuel : nat) (b : bytes) : bytes :=
  match fuel, b with
  | S fuel', lead :: rest =>
      let '(n, ok) := utf8_step lead rest in
      (if ok then take n b else REPLACEMENT) ++ utf8_lossy fuel' (drop n b)
  | _, _ => []
  end.

(** Bytes to a string of bytes. *)
Definition string_of (b : bytes) : string :=
  String.string_of_list_ascii ((fun n => ascii_of_N (Z.to_N n)) <$> b).

Definition from_utf8_lossy (b : bytes) : string := string_of (utf8_lossy (length b) b).

(** A valid UTF-8 sequence. *)
Fixpoint valid_utf8 (fuel : nat) (b : bytes) : bool :=
  match fuel, b with
  | _, [] => true
  | S fuel', lead :: rest =>
      let '(n, ok) := utf8_step lead rest in ok && valid_utf8 fuel' (drop n b)
  | O, _ => false
  end.

Definition is_utf8 (b : bytes) : bool := valid_utf8 (length b) b.

Lemma utf8_lossy_valid (fuel : nat) (b : bytes) :
  valid_utf8 fuel b = true -> utf8_lossy fuel b = b.
Proof.
  revert b. induction fuel as [|fuel IH]; intros [|lead rest]; try done. simpl.
  destruct (utf8_step lead rest) as [n ok]. intros [-> H]%andb_true_iff.
  rewrite IH by done. apply (take_drop n (lead :: rest)).
Qed.

Lemma string_of_as_bytes (s : string) : string_of (as_bytes s) = s.
Proof.
  unfold string_of, as_bytes. induction s as [|c s IH]; [done |].
  cbn. f_equal; [by rewrite N2Z.id, ascii_N_embedding | exact IH].
Qed.

(** The text of a valid string survives the trip through its bytes. *)
Lemma from_utf8_lossy_as_bytes (s : string) :
  is_utf8 (as_bytes s) = true -> from_utf8_lossy (as_bytes s) = s.
Proof. intros H. unfold from_utf8_lossy. by rewrite utf8_lossy_valid, string_of_as_bytes. Qed.

(** ** aes.rs *)

(** AES-128-CBC with PKCS#7 padding; [None] is an error of the cipher. *)
Class Cipher : Type := {
  cbc_encrypt : bytes -> bytes -> bytes -> option bytes;
  cbc_decrypt : bytes -> bytes -> bytes -> option bytes;
}.

Class CipherLaws {cipher : Cipher} : Prop := {
  cbc_round_trip : forall key iv data e,
    length key = 16%nat -> length iv = 16%nat -> cbc_encrypt key iv data = Some e ->
    cbc_decrypt key iv e = Some data;
}.

Record Aes128State : Type := mkAes128State {
  aes_enabled : bool;
  aes_key : bytes;
  aes_iv : bytes;
}.

(** [Aes128State::new]; the random key and vector are arguments. *)
Definition aes_new (random_key random_iv : bytes) (enabled : bool) : Aes128State :=
  if enabled then mkAes128State true random_key random_iv
  else mkAes128State enabled (replicate 16 0) (replicate 16 0).

(** [copy_from_slice] panics when the lengths differ. *)
Definition aes_from_vecs (key iv : bytes) (enabled : bool) : option Aes128State :=
  if bool_decide (length key = 16%nat /\ length iv = 16%nat)
  then Some (mkAes128State enabled key iv) else None.

Section Aes.
Context {cipher : Cipher}.

Definition aes_encrypt (aes : Aes128State) (data : bytes) : option bytes :=
  if negb (aes_enabled aes) then Some data else cbc_encrypt (aes_key aes) (aes_iv aes) data.

Definition aes_decrypt (aes : Aes128State) (data : bytes) : option bytes :=
  if negb (aes_enabled aes) then Some data else cbc_decrypt (aes_key aes) (aes_iv aes) data.

Definition aes_wf (aes : Aes128State) : Prop :=
  length (aes_key aes) = 16%nat /\ length (aes_iv aes) = 16%nat.

Lemma aes_round_trip {laws : CipherLaws} (aes : Aes128State) (data e : bytes) :
  aes_wf aes -> aes_encrypt aes data = Some e -> aes_decrypt aes e = Some data.
Proof.
  intros [Hk Hi]. unfold aes_encrypt, aes_decrypt. destruct (aes_enabled aes); simpl; [|congruence].
  by apply cbc_round_trip.
Qed.
End Aes.

(** ** transform.rs *)

(** An [EncodedVideoChunk] of the browser: the bytes it holds, its type, its times. *)
Record EncodedVideoChunk : Type := mkChunk {
  ck_bytes : bytes;
  ck_key : bool;
  ck_timestamp : float;
  ck_duration : option float;
}.

(** [EncodedVideoChunkTypeWrapper::to_string]. *)
Definition chunk_type_str (key : bool) : string := if key then "key" else "delta".

Section Transform.
Context {wire : Wire} {media : MediaWire} {cipher : Cipher}.

(** [copied] is whether [copy_to_with_u8_array] succeeded: it needs a buffer of at
    least the length of the chunk. [None] is a panic: the slice, or an [unwrap]. *)
Definition transform_chunk (mtype : Z) (codec : Z) (copied : bool) (chunk : EncodedVideoChunk)
    (sequence : Z) (buffer : bytes) (user_id : string) (aes : Aes128State)
    : option PacketWrapper :=
  let byte_length := length (ck_bytes chunk) in
  let buffer := if copied then ck_bytes chunk ++ drop byte_length buffer else buffer in
  if bool_decide (length buffer < byte_length)%nat then None
  else
    let packet :=
      media_default <| mp_data := take byte_length buffer |>
        <| frame_type := chunk_type_str (ck_key chunk) |> <| media_type := mtype |>
        <| mp_timestamp := ck_timestamp chunk |>
        <| video_metadata := Some (mkVideoMetadata sequence codec) |>
        <| mp_duration := default (mp_duration media_default) (ck_duration chunk) |> in
    data ← write_media packet;
    encrypted ← aes_encrypt aes data;
    Some (wrapper_default <| pw_data := encrypted |> <| pw_user_id := as_bytes user_id |>
                          <| packet_type := MEDIA |>).

Definition transform_video_chunk (codec : Z) (copied : bool) (chunk : EncodedVideoChunk)
    (sequence : Z) (buffer : bytes) (user_id : string) (aes : Aes128State) : option PacketWrapper :=
  transform_chunk VIDEO codec copied chunk sequence buffer user_id aes.

Definition transform_screen_chunk (codec : Z) (copied : bool) (chunk : EncodedVideoChunk)
    (sequence : Z) (buffer : bytes) (user_id : string) (aes : Aes128State) : option PacketWrapper :=
  transform_chunk SCREEN codec copied chunk sequence buffer user_id aes.
End Transform.
