(* ===== verification/VideoWorker.v ===== *)
(** * The video decoding worker (videocall-codecs)

    [messages.rs], the sending side of [decoder/wasm.rs] and the worker itself,
    [bin/worker_decoder.rs]: the main thread posts messages, the worker keeps a
    jitter buffer whose decoder wraps the browser's [VideoDecoder]. What the browser
    answers is an argument: [WebEnv] for the calls of one decode, [can_post] for
    [postMessage]. Every call of [VideoDecoder.decode] is an element of the list an
    operation returns. The console and the diagnostics of the worker are left out. *)
From S2P Require Import Prelude Floats BTree JitterBuffer JitterBufferProps.

(** ** messages.rs *)

Inductive WorkerMessage : Type :=
| DecodeFrame (frame : FrameBuffer)
| Flush
| Reset
| SetContext (from_peer to_peer : string).

(** ** decoder/wasm.rs: the messages posted to the worker, oldest first *)

Record WasmDecoder : Type := mkWasmDecoder { worker : list WorkerMessage }.

Definition wasm_new : WasmDecoder := mkWasmDecoder [].

Section Post.
Context (can_post : WorkerMessage -> bool).

(** A message that cannot be serialized or posted is logged and lost. *)
Definition post_message (message : WorkerMessage) (d : WasmDecoder) : WasmDecoder :=
  if can_post message then mkWasmDecoder (worker d ++ [message]) else d.

Definition push_frame (frame : FrameBuffer) (d : WasmDecoder) : WasmDecoder :=
  post_message (DecodeFrame frame) d.

Definition set_context (from_peer to_peer : string) (d : WasmDecoder) : WasmDecoder :=
  post_message (SetContext from_peer to_peer) d.

Definition wasm_flush (d : WasmDecoder) : WasmDecoder := post_message Flush d.

Definition wasm_reset (d : WasmDecoder) : WasmDecoder := post_message Reset d.

Definition wasm_is_waiting_for_keyframe (d : WasmDecoder) : bool := false.
End Post.

(** ** worker_decoder.rs: the wrapper of the browser's decoder *)

Inductive CodecState : Type := Unconfigured | Configured | Closed.

#[export] Instance CodecState_eq_dec : EqDecision CodecState.
Proof. solve_decision. Defined.

#[export] Instance FrameCodec_eq_dec : EqDecision FrameCodec.
Proof. solve_decision. Defined.

(** A [VideoDecoder] of the browser: its state and the codec string it was
    configured with. *)
Record VideoDecoder : Type := mkVideoDecoder {
  vd_state : CodecState;
  vd_config : string;
}.

Record WebDecoder : Type := mkWebDecoder {
  wd_decoder : option VideoDecoder;
  wd_current_codec : option FrameCodec;
}.

Definition wd_new : WebDecoder := mkWebDecoder None None.

(** What the browser answers during one decode: the constructor, [configure] with the
    state it leaves, the constructor of the chunk, and [decode]. *)
Record WebEnv : Type := mkWebEnv {
  we_create : bool;
  we_configure : option CodecState;
  we_chunk : bool;
  we_decode : bool;
}.

(** A chunk handed to [VideoDecoder.decode]. *)
Record Submission : Type := mkSubmission {
  sub_config : string;
  sub_frame : FrameBuffer;
}.

(** [true] is [Ok]. *)
Definition initialize_decoder (env : WebEnv) (codec : FrameCodec) (wd : WebDecoder)
    : WebDecoder * bool :=
  match as_webcodecs_str codec with
  | None => (wd, false)
  | Some codec_str =>
      let usable :=
        match wd_decoder wd with
        | Some existing =>
            bool_decide (wd_current_codec wd = Some codec)
            && bool_decide (vd_state existing = Configured)
        | None => false
        end in
      if usable then (wd, true)
      else
        let taken := mkWebDecoder None (wd_current_codec wd) in
        if negb (we_create env) then (taken, false)
        else match we_configure env with
             | None => (taken, false)
             | Some state =>
                 (mkWebDecoder (Some (mkVideoDecoder state codec_str)) (Some codec), true)
             end
  end.

Definition destroy_decoder (wd : WebDecoder) : WebDecoder :=
  mkWebDecoder None (wd_current_codec wd).

(** [decode]: the new state, the chunk submitted, and whether [reset_pipeline]
    scheduled a reset of the jitter buffer. *)
Definition wd_decode (env : WebEnv) (frame : FrameBuffer) (wd : WebDecoder)
    : WebDecoder * list Submission * bool :=
  let '(wd1, ok) := initialize_decoder env (vf_codec (fb_frame frame)) wd in
  if negb ok then (wd1, [], false)
  else match wd_decoder wd1 with
       | None => (wd1, [], false)
       | Some decoder =>
           if negb (bool_decide (vd_state decoder = Configured)) then (wd1, [], false)
           else if negb (we_chunk env) then (wd1, [], false)
           else
             let submitted := [mkSubmission (vd_config decoder) frame] in
             if we_decode env then (wd1, submitted, false)
             else (destroy_decoder wd1, submitted, true)
       end.

(** The frames a call of the jitter buffer pushes to its decoder, in order; [envs]
    gives the browser's answers to each. *)
Fixpoint wd_decode_all (envs : nat -> WebEnv) (frames : list FrameBuffer) (wd : WebDecoder)
    : WebDecoder * list Submission * nat :=
  match frames with
  | [] => (wd, [], 0%nat)
  | f :: rest =>
      let '(wd1, sub, scheduled) := wd_decode (envs 0%nat) f wd in
      let '(wd2, subs, n) := wd_decode_all (fun i => envs (S i)) rest wd1 in
      (wd2, sub ++ subs, ((if scheduled then 1 else 0) + n)%nat)
  end.

(** ** worker_decoder.rs: the worker *)

(** [pending_resets] counts the scheduled callbacks of [reset_pipeline]. *)
Record Worker : Type := mkWorker {
  wk_jitter_buffer : option (JitterBuffer * WebDecoder);
  wk_context : option (string * string);
  wk_pending_resets : nat;
}.

#[export] Instance eta_Worker : Eta Worker := fun r =>
  mkWorker (wk_jitter_buffer r) (wk_context r) (wk_pending_resets r).

Definition worker_main : Worker := mkWorker None None 0.

Definition initialize_jitter_buffer : JitterBuffer * WebDecoder := (jb_new, wd_new).

Definition insert_frame_to_jitter_buffer (now : Z) (envs : nat -> WebEnv) (frame : FrameBuffer)
    (wk : Worker) : Worker * list FrameBuffer * list Submission :=
  let '(jb, wd) := default initialize_jitter_buffer (wk_jitter_buffer wk) in
  let video_frame := fb_frame frame in
  let '(jb', frames) := insert_frame video_frame now jb in
  let '(wd', subs, n) := wd_decode_all envs frames wd in
  (mkWorker (Some (jb', wd')) (wk_context wk) (wk_pending_resets wk + n), frames, subs).

Definition check_jitter_buffer_for_ready_frames (now : Z) (envs : nat -> WebEnv) (wk : Worker)
    : Worker * list FrameBuffer * list Submission :=
  match wk_jitter_buffer wk with
  | None => (wk, [], [])
  | Some (jb, wd) =>
      let '(jb', frames) := find_and_move_continuous_frames now jb in
      let '(wd', subs, n) := wd_decode_all envs frames wd in
      (mkWorker (Some (jb', wd')) (wk_context wk) (wk_pending_resets wk + n), frames, subs)
  end.

Definition flush_jitter_buffer (wk : Worker) : Worker :=
  match wk_jitter_buffer wk with
  | Some (jb, wd) => wk <| wk_jitter_buffer := Some (flush jb, wd) |>
  | None => wk
  end.

Definition reset_jitter_buffer (wk : Worker) : Worker := wk <| wk_jitter_buffer := None |>.

Definition handle_worker_message (now : Z) (envs : nat -> WebEnv) (message : WorkerMessage)
    (wk : Worker) : Worker * list FrameBuffer * list Submission :=
  match message with
  | DecodeFrame frame => insert_frame_to_jitter_buffer now envs frame wk
  | Flush => (flush_jitter_buffer wk, [], [])
  | Reset => (reset_jitter_buffer wk, [], [])
  | SetContext from_peer to_peer => (wk <| wk_context := Some (from_peer, to_peer) |>, [], [])
  end.

(** What drives the worker: a message, the interval of 10 ms, a scheduled reset,
    and the browser closing the decoder after an error of its own. *)
Inductive worker_event : Type :=
| WMessage (now : Z) (envs : nat -> WebEnv) (message : WorkerMessage)
| WInterval (now : Z) (envs : nat -> WebEnv)
| WReset
| WClosed.

Definition close_decoder (wk : Worker) : Worker :=
  match wk_jitter_buffer wk with
  | Some (jb, mkWebDecoder (Some d) c) =>
      wk <| wk_jitter_buffer :=
        Some (jb, mkWebDecoder (Some (mkVideoDecoder Closed (vd_config d))) c) |>
  | _ => wk
  end.

(** What a step hands on: the frames the jitter buffer released, and the chunks the
    browser's decoder was given. *)
Definition worker_step (wk : Worker) (ev : worker_event)
    : Worker * list (list FrameBuffer * list Submission) :=
  match ev with
  | WMessage now envs message =>
      let '(wk', fs, subs) := handle_worker_message now envs message wk in (wk', [(fs, subs)])
  | WInterval now envs =>
      let '(wk', fs, subs) := check_jitter_buffer_for_ready_frames now envs wk in
      (wk', [(fs, subs)])
  | WReset =>
      match wk_pending_resets wk with
      | O => (wk, [])
      | S n => ((reset_jitter_buffer wk) <| wk_pending_resets := n |>, [])
      end
  | WClosed => (close_decoder wk, [])
  end.

Definition worker_event_ok (ev : worker_event) : Prop :=
  match ev with
  | WMessage _ _ (DecodeFrame f) => u_in 64 (fb_sequence_number f)
  | _ => True
  end.

(** ** Properties *)

(** The browser's decoder is configured for the codec the wrapper remembers. *)
Definition wd_wf (wd : WebDecoder) : Prop :=
  match wd_decoder wd with
  | None => True
  | Some d => exists c, wd_current_codec wd = Some c /\ as_webcodecs_str c = Some (vd_config d)
  end.

Definition sub_ok (s : Submission) : Prop :=
  as_webcodecs_str (vf_codec (fb_frame (sub_frame s))) = Some (sub_config s).

Lemma initialize_decoder_spec (env : WebEnv) (codec : FrameCodec) (wd : WebDecoder) :
  wd_wf wd ->
  let '(wd', ok) := initialize_decoder env codec wd in
  wd_wf wd' /\
  (ok = true -> exists d, wd_decoder wd' = Some d /\ as_webcodecs_str codec = Some (vd_config d)).
Proof.
  intros Hwf. unfold initialize_decoder. destruct (as_webcodecs_str codec) as [str|] eqn:Es; [|done].
  destruct (match wd_decoder wd with Some _ => _ | None => _ end) eqn:Eu.
  - split; [done |]. intros _. unfold wd_wf in Hwf. destruct (wd_decoder wd) as [d|]; [|done].
    apply andb_true_iff in Eu as [Eu%bool_decide_eq_true _]. destruct Hwf as (c & Hc & Hs).
    exists d. split; [done |]. simplify_eq. congruence.
  - destruct (we_create env); simpl; [|by split].
    destruct (we_configure env) as [st|]; simpl; [|by split].
    split; [by exists codec |]. intros _. by eexists.
Qed.

Lemma wd_decode_spec (env : WebEnv) (frame : FrameBuffer) (wd : WebDecoder) :
  wd_wf wd ->
  let '(wd', subs, _) := wd_decode env frame wd in
  wd_wf wd' /\ Forall sub_ok subs /\ sub_frame <$> subs `sublist_of` [frame].
Proof.
  intros Hwf. unfold wd_decode.
  pose proof (initialize_decoder_spec env (vf_codec (fb_frame frame)) wd Hwf) as H.
  destruct (initialize_decoder _ _ _) as [wd1 ok]. destruct H as [Hwf1 Hok].
  assert (@nil FrameBuffer `sublist_of` [frame]) as Hnil by (repeat constructor).
  destruct ok; simpl; [|by repeat split].
  destruct Hok as (d & Hd & Hs); [done |]. rewrite Hd.
  destruct (negb _); [by split_and! |]. destruct (negb (we_chunk env)); [by split_and! |].
  destruct (we_decode env); split_and!; try done; auto using sublist_skip, sublist_nil.
Qed.

Lemma wd_decode_all_spec (frames : list FrameBuffer) : forall (envs : nat -> WebEnv) (wd : WebDecoder),
  wd_wf wd ->
  let '(wd', subs, _) := wd_decode_all envs frames wd in
  wd_wf wd' /\ Forall sub_ok subs /\ sub_frame <$> subs `sublist_of` frames.
Proof.
  induction frames as [|f rest IH]; intros envs wd Hwf; simpl; [by repeat split |].
  pose proof (wd_decode_spec (envs 0%nat) f wd Hwf) as H.
  destruct (wd_decode _ _ _) as [[wd1 sub] sch]. destruct H as (H1 & H2 & H3).
  specialize (IH (fun i => envs (S i)) wd1 H1).
  destruct (wd_decode_all _ _ _) as [[wd2 subs] n]. destruct IH as (H4 & H5 & H6).
  repeat split; [done | by apply Forall_app |].
  rewrite fmap_app. change (f :: rest) with ([f] ++ rest). by apply sublist_app.
Qed.

(** The worker's state: the jitter buffer and the decoder are well formed. *)
Definition worker_wf (wk : Worker) : Prop :=
  match wk_jitter_buffer wk with None => True | Some (jb, wd) => jb_wf jb /\ wd_wf wd end.

Definition worker_last (wk : Worker) : option Z :=
  match wk_jitter_buffer wk with None => None | Some (jb, _) => last_decoded_sequence_number jb end.

Definition released (log : list (list FrameBuffer * list Submission)) : list FrameBuffer :=
  concat (fst <$> log).

Definition step_ok (out : list FrameBuffer * list Submission) : Prop :=
  Forall sub_ok out.2 /\ sub_frame <$> out.2 `sublist_of` out.1.

(** The two handlers that release frames run an operation of the jitter buffer and
    decode what it returns. *)
Lemma decode_step_spec (op : jb_op) (envs : nat -> WebEnv) (jb : JitterBuffer) (wd : WebDecoder)
    (ctx : option (string * string)) (k : nat) :
  jb_wf jb -> wd_wf wd -> jb_op_ok op ->
  let '(jb', fs) := jb_step jb op in
  let '(wd', subs, n) := wd_decode_all envs fs wd in
  let wk' := mkWorker (Some (jb', wd')) ctx (k + n) in
  worker_wf wk' /\ step_ok (fs, subs) /\ decode_ok (last_decoded_sequence_number jb) fs /\
  (worker_last wk' = log_last (last_decoded_sequence_number jb) fs \/
   (worker_last wk' = None /\ fs = [])).
Proof.
  intros Hjb Hwd Hop. pose proof (jb_step_spec jb op Hjb Hop) as H.
  destruct (jb_step jb op) as [jb' fs]. destruct H as (Hjb' & Hchain & Hlast).
  pose proof (wd_decode_all_spec fs envs wd Hwd) as H.
  destruct (wd_decode_all envs fs wd) as [[wd' subs] n]. destruct H as (Hwd' & Hsubs & Hsub).
  split_and!; [done | done | by apply decode_chain_ok | exact Hlast].
Qed.

Lemma worker_step_spec (wk : Worker) (ev : worker_event) :
  worker_wf wk -> worker_event_ok ev ->
  let '(wk', out) := worker_step wk ev in
  worker_wf wk' /\ Forall step_ok out /\ decode_ok (worker_last wk) (released out) /\
  (worker_last wk' = log_last (worker_last wk) (released out) \/
   (worker_last wk' = None /\ released out = [])).
Proof.
  assert (step_ok ([], [])) as Hnil by (split; constructor).
  assert (forall fs subs, released [(fs, subs)] = fs) as Hrel by (intros; apply app_nil_r).
  intros Hwf Hev. destruct ev as [now envs msg|now envs| |]; simpl in *.
  - destruct msg as [f| | |from to]; simpl.
    + unfold insert_frame_to_jitter_buffer.
      assert (exists jb wd, default initialize_jitter_buffer (wk_jitter_buffer wk) = (jb, wd) /\
        jb_wf jb /\ wd_wf wd /\ worker_last wk = last_decoded_sequence_number jb)
        as (jb & wd & -> & Hjb & Hwd & ->).
      { unfold worker_wf, worker_last in *. destruct (wk_jitter_buffer wk) as [[jb wd]|]; simpl.
        - destruct Hwf. eauto 6.
        - exists jb_new, wd_new. auto using jb_new_wf. }
      pose proof (decode_step_spec (OpInsert (fb_frame f) now) envs jb wd (wk_context wk)
        (wk_pending_resets wk) Hjb Hwd Hev) as H. simpl in H.
      destruct (insert_frame _ _ _) as [jb' fs], (wd_decode_all _ _ _) as [[wd' subs] n].
      rewrite Hrel. destruct H as (H1 & H2 & H3 & H4). auto.
    + unfold flush_jitter_buffer, worker_wf, worker_last in *.
      destruct (wk_jitter_buffer wk) as [[jb wd]|] eqn:E; simpl; rewrite ?E; [|by auto 8].
      destruct Hwf. split_and!; auto using flush_wf.
    + split_and!; auto.
    + unfold worker_last, worker_wf in *. simpl. split_and!; auto.
  - unfold check_jitter_buffer_for_ready_frames, worker_last, worker_wf in *.
    destruct (wk_jitter_buffer wk) as [[jb wd]|] eqn:E; simpl; [|rewrite E; by auto 8].
    destruct Hwf as [Hjb Hwd].
    pose proof (decode_step_spec (OpPoll now) envs jb wd (wk_context wk) (wk_pending_resets wk)
      Hjb Hwd I) as H. simpl in H.
    destruct (find_and_move_continuous_frames _ _) as [jb' fs], (wd_decode_all _ _ _) as [[wd' subs] n].
    rewrite Hrel. destruct H as (H1 & H2 & H3 & H4). auto.
  - destruct (wk_pending_resets wk); simpl; split_and!; auto.
  - unfold close_decoder, worker_wf, worker_last in *.
    destruct (wk_jitter_buffer wk) as [[jb [[d|] c]]|] eqn:E; simpl; rewrite ?E; split_and!;
      try destruct Hwf; auto.
Qed.

Lemma released_app (a b : list (list FrameBuffer * list Submission)) :
  released (a ++ b) = released a ++ released b.
Proof. unfold released. by rewrite fmap_app, concat_app. Qed.

Lemma worker_run_spec (evs : list worker_event) : forall wk,
  worker_wf wk -> Forall worker_event_ok evs ->
  let '(wk', out) := run worker_step wk evs in
  worker_wf wk' /\ Forall step_ok out /\ decode_ok (worker_last wk) (released out).
Proof.
  induction evs as [|ev evs IH]; intros wk Hwf Hok; simpl; [by repeat split |].
  apply Forall_cons in Hok as [Hev Hevs].
  pose proof (worker_step_spec wk ev Hwf Hev) as H.
  destruct (worker_step wk ev) as [wk1 o1]. destruct H as (Hwf1 & Ho1 & Hd1 & Hl).
  specialize (IH wk1 Hwf1 Hevs). destruct (run worker_step wk1 evs) as [wk2 o2].
  destruct IH as (Hwf2 & Ho2 & Hd2). split; [done |]. split; [by apply Forall_app |].
  rewrite released_app. apply decode_ok_app; [done |].
  destruct Hl as [Hl | [Hl _]]; rewrite Hl in Hd2; auto using decode_ok_None.
Qed.

(** C25: over any run of the worker (messages, polling, resets scheduled after errors,
    decoders closed by the browser), every chunk handed to the browser's decoder is a
    frame the jitter buffer released, in its order, and goes to a decoder configured
    for the codec of that frame; and a released delta frame always follows the frame
    with the preceding sequence number. *)
Theorem worker_decodes_in_order (evs : list worker_event) :
  Forall worker_event_ok evs ->
  Forall step_ok (run worker_step worker_main evs).2 /\
  decode_ok None (released (run worker_step worker_main evs).2).
Proof.
  intros Hok. pose proof (worker_run_spec evs worker_main I Hok) as H.
  destruct (run worker_step worker_main evs). tauto.
Qed.

(** A run: a key frame, a delta frame, and an error of the browser's decoder. *)
Definition env_ok : nat -> WebEnv := fun _ => mkWebEnv true (Some Configured) true true.
Definition env_fail : nat -> WebEnv := fun _ => mkWebEnv true (Some Configured) true false.

Definition sample_worker_run : list worker_event :=
  [WMessage 1000 env_ok (SetContext "alice" "7");
   WMessage 1000 env_ok (DecodeFrame (fb_new (frame_at 1 KeyFrame) 1000));
   WMessage 1030 env_ok (DecodeFrame (fb_new (frame_at 2 DeltaFrame) 1030));
   WInterval 1600 env_ok;
   WMessage 1700 env_ok (DecodeFrame (fb_new (frame_at 3 DeltaFrame) 1700));
   WInterval 2300 env_fail; WReset; WClosed;
   WMessage 2400 env_ok (DecodeFrame (fb_new (frame_at 4 DeltaFrame) 2400)); WInterval 3000 env_ok].

Example sample_worker_submits :
  fb_sequence_number <$> released (run worker_step worker_main sample_worker_run).2 = [1; 2; 3] /\
  length (concat (snd <$> (run worker_step worker_main sample_worker_run).2)) = 3%nat.
Proof. by vm_compute. Qed.

Lemma worker_decodes_witness :
  Forall step_ok (run worker_step worker_main sample_worker_run).2 /\
  decode_ok None (released (run worker_step worker_main sample_worker_run).2).
Proof.
  apply (worker_decodes_in_order sample_worker_run).
  repeat (apply Forall_cons; split; [vm_compute; repeat split; congruence |]). constructor.
Defined.
