(* ===== verification/PeerDecode.v ===== *)
(** * Peers and their decoders (videocall-client/src/decode)

    [peer_decoder.rs] (the video decoder of a peer), the trait of audio decoders of
    [mod.rs] and [peer_decode_manager.rs]: the table of remote peers, the decoding of
    the packets of each, the detection of lost frames and the liveness monitor.

    The browser is the class [Browser]: canvas lookup, [postMessage], and the audio
    decoders, whose state type [A] is arbitrary. Callbacks and the diagnostics bus are
    effects, in the order the code issues them. The clock, in milliseconds, is read
    once per operation. *)
From Stdlib Require Import Ascii.
From S2P Require Import Prelude Floats JitterBuffer VideoWorker Protocol Media OrderedMap.

Record DecodeStatus : Type := mkDecodeStatus { rendered : bool; first_frame : bool }.

Definition SKIPPED : DecodeStatus := mkDecodeStatus false false.

(** The browser, and the trait [AudioPeerDecoderTrait]; [None] is an error. *)
Class Browser (A : Type) : Type := {
  get_canvas : string -> option Z;
  has_2d_context : Z -> bool;
  can_post : WorkerMessage -> bool;
  create_audio_peer_decoder : string -> option float -> option A;
  audio_decode : MediaPacket -> A -> A * option DecodeStatus;
  audio_flush : A -> A;
  audio_set_muted : bool -> A -> A;
}.

(** ** peer_decoder.rs *)

Record VideoPeerDecoder : Type := mkVideoPeerDecoder {
  vp_decoder : WasmDecoder;
  vp_canvas : option Z;
}.

Definition video_new : VideoPeerDecoder := mkVideoPeerDecoder wasm_new None.

Definition VP8 : Z := 1.
Definition VP9_PROFILE0_LEVEL10_8BIT : Z := 2.

(** constants.rs: the codec a client encodes with. *)
Definition get_video_codec (is_firefox : bool) : Z :=
  if is_firefox then VP8 else VP9_PROFILE0_LEVEL10_8BIT.

(** The codec of the wire as a codec of the decoder; [None] is skipped. *)
Definition frame_codec_of (codec : Z) : option FrameCodec :=
  if codec =? VP8 then Some Vp8
  else if codec =? VP9_PROFILE0_LEVEL10_8BIT then Some Vp9Profile0Level10Bit8
  else None.

Definition get_frame_type (packet : MediaPacket) : FrameType :=
  if bool_decide (frame_type packet = "key"%string) then KeyFrame else DeltaFrame.

Section Peers.
Context {A : Type} {browser : Browser A} {wire : Wire} {media : MediaWire} {cipher : Cipher}.

(** [set_canvas]: [None] when the element gives no 2d context. *)
Definition set_canvas (canvas : Z) (v : VideoPeerDecoder) : option VideoPeerDecoder :=
  if has_2d_context canvas then Some (mkVideoPeerDecoder (vp_decoder v) (Some canvas)) else None.

Definition set_stream_context (from_peer to_peer : string) (v : VideoPeerDecoder)
    : VideoPeerDecoder :=
  mkVideoPeerDecoder (set_context can_post from_peer to_peer (vp_decoder v)) (vp_canvas v).

Definition video_flush (v : VideoPeerDecoder) : VideoPeerDecoder :=
  mkVideoPeerDecoder (wasm_flush can_post (vp_decoder v)) (vp_canvas v).

(** [decode] never fails. *)
Definition video_decode (now : Z) (packet : MediaPacket) (v : VideoPeerDecoder)
    : VideoPeerDecoder * DecodeStatus :=
  match video_metadata packet with
  | None => (v, mkDecodeStatus true false)
  | Some vm =>
      match frame_codec_of (vm_codec vm) with
      | None => (v, mkDecodeStatus false false)
      | Some codec =>
          let frame := mkVideoFrame (vm_sequence vm) (get_frame_type packet) codec (mp_data packet)
                         (mp_timestamp packet) in
          (mkVideoPeerDecoder (push_frame can_post (fb_new frame now) (vp_decoder v)) (vp_canvas v),
           mkDecodeStatus true false)
      end
  end.

(** ** peer_decode_manager.rs: errors, effects and the state of a peer *)

Inductive PeerDecodeError : Type :=
| AesDecryptError
| IncorrectPacketType
| AudioDecodeError
| ScreenDecodeError
| VideoDecodeError
| NoSuchPeer (session_id : Z)
| NoMediaType
| NoPacketType
| PacketParseError
| SameUserPacket (session_id : Z)
| UnknownMediaType
| UnknownPacketType.

Inductive peer_effect : Type :=
| PeerStatusEvent (ts_ms : Z) (to_peer : string) (audio video screen speaking : bool)
    (level : float)
| TrackFrame (peer : string) (mtype : Z) (frame_size : Z)
| FirstFrame (peer : string) (mtype : Z)
| PeerRemoved (peer : string)
| SendPacket (packet : PacketWrapper).

Record Peer : Type := mkPeer {
  pr_audio : A;
  pr_video : VideoPeerDecoder;
  pr_screen : VideoPeerDecoder;
  pr_session_id : Z;
  pr_sid_str : string;
  pr_user_id : string;
  pr_video_canvas_id : string;
  pr_screen_canvas_id : string;
  pr_aes : option Aes128State;
  pr_activity_count : Z;
  pr_missed_heartbeat_checks : Z;
  pr_video_enabled : bool;
  pr_audio_enabled : bool;
  pr_screen_enabled : bool;
  pr_is_speaking : bool;
  pr_audio_level : float;
  pr_display_name : option string;
  pr_visible : bool;
  pr_context_initialized : bool;
  pr_vad_threshold : option float;
  pr_has_received_heartbeat : bool;
  pr_last_video_seq : option Z;
  pr_last_screen_seq : option Z;
  pr_video_gap_detected_at_ms : option Z;
  pr_screen_gap_detected_at_ms : option Z;
  pr_last_video_keyframe_request_ms : Z;
  pr_last_screen_keyframe_request_ms : Z;
}.

#[global] Instance eta_Peer : Eta Peer := fun r =>
  mkPeer (pr_audio r) (pr_video r) (pr_screen r) (pr_session_id r) (pr_sid_str r) (pr_user_id r)
    (pr_video_canvas_id r) (pr_screen_canvas_id r) (pr_aes r) (pr_activity_count r)
    (pr_missed_heartbeat_checks r) (pr_video_enabled r) (pr_audio_enabled r) (pr_screen_enabled r)
    (pr_is_speaking r) (pr_audio_level r) (pr_display_name r) (pr_visible r)
    (pr_context_initialized r) (pr_vad_threshold r) (pr_has_received_heartbeat r)
    (pr_last_video_seq r) (pr_last_screen_seq r) (pr_video_gap_detected_at_ms r)
    (pr_screen_gap_detected_at_ms r) (pr_last_video_keyframe_request_ms r)
    (pr_last_screen_keyframe_request_ms r).

Definition KEYFRAME_REQUEST_TIMEOUT_MS : Z := 1000.
Definition KEYFRAME_REQUEST_MIN_INTERVAL_MS : Z := 500.

(** A canvas already in the page is attached; failures are ignored. *)
Definition attach_canvas (id : string) (v : VideoPeerDecoder) : VideoPeerDecoder :=
  match get_canvas id with
  | Some canvas => default v (set_canvas canvas v)
  | None => v
  end.

Definition new_decoders (video_canvas_id screen_canvas_id peer_id : string)
    (vad_threshold : option float) : option (A * VideoPeerDecoder * VideoPeerDecoder) :=
  let video_decoder := attach_canvas video_canvas_id video_new in
  let screen_decoder := attach_canvas screen_canvas_id video_new in
  audio ← create_audio_peer_decoder peer_id vad_threshold;
  Some (audio, video_decoder, screen_decoder).

Definition peer_new (video_canvas_id screen_canvas_id : string) (session_id : Z)
    (user_id : string) (aes : option Aes128State) (vad_threshold : option float) : option Peer :=
  let sid_str := show_u64 session_id in
  '(audio, video, screen) ← new_decoders video_canvas_id screen_canvas_id sid_str vad_threshold;
  Some (mkPeer (audio_set_muted true audio) video screen session_id sid_str user_id
          video_canvas_id screen_canvas_id aes 1 0 false false false false (F64.of_Z 0) None true
          false vad_threshold false None None None None 0 0).

(** [reset]: [None] is the error of [new_decoders], which leaves the peer as it was. *)
Definition peer_reset (p : Peer) : option Peer :=
  '(audio, video, screen) ← new_decoders (pr_video_canvas_id p) (pr_screen_canvas_id p)
                              (show_u64 (pr_session_id p)) (pr_vad_threshold p);
  Some (p <| pr_audio := audio_set_muted (negb (pr_audio_enabled p)) audio |>
          <| pr_video := video |> <| pr_screen := screen |>).

Definition broadcast_peer_status (now : Z) (p : Peer) : peer_effect :=
  PeerStatusEvent now (pr_sid_str p) (pr_audio_enabled p) (pr_video_enabled p)
    (pr_screen_enabled p) (pr_is_speaking p) (pr_audio_level p).

(** ** Lost frames *)

(** The part of [track_sequence] on the three fields of one stream: the last
    sequence number, the time a gap was found, the time of the last request. *)
Record StreamTrack : Type := mkStreamTrack {
  st_last_seq : option Z;
  st_gap_at : option Z;
  st_last_req : Z;
}.

Definition track_stream (now seq : Z) (frame_type_str : string) (s : StreamTrack)
    : StreamTrack * bool :=
  let gap_at := if bool_decide (frame_type_str = "key"%string) then None else st_gap_at s in
  let gap_at :=
    match st_last_seq s with
    | Some prev =>
        if prev +u64 1 <? seq then (match gap_at with None => Some now | Some _ => gap_at end)
        else gap_at
    | None => gap_at
    end in
  let due :=
    match gap_at with
    | Some gap_time =>
        (KEYFRAME_REQUEST_TIMEOUT_MS <=? sat_sub now gap_time)
        && (KEYFRAME_REQUEST_MIN_INTERVAL_MS <=? sat_sub now (st_last_req s))
    | None => false
    end in
  (mkStreamTrack (Some seq) gap_at (if due then now else st_last_req s), due).

Definition video_track (p : Peer) : StreamTrack :=
  mkStreamTrack (pr_last_video_seq p) (pr_video_gap_detected_at_ms p)
    (pr_last_video_keyframe_request_ms p).

Definition screen_track (p : Peer) : StreamTrack :=
  mkStreamTrack (pr_last_screen_seq p) (pr_screen_gap_detected_at_ms p)
    (pr_last_screen_keyframe_request_ms p).

Definition set_video_track (s : StreamTrack) (p : Peer) : Peer :=
  p <| pr_last_video_seq := st_last_seq s |> <| pr_video_gap_detected_at_ms := st_gap_at s |>
    <| pr_last_video_keyframe_request_ms := st_last_req s |>.

Definition set_screen_track (s : StreamTrack) (p : Peer) : Peer :=
  p <| pr_last_screen_seq := st_last_seq s |> <| pr_screen_gap_detected_at_ms := st_gap_at s |>
    <| pr_last_screen_keyframe_request_ms := st_last_req s |>.

Definition track_sequence (now : Z) (mtype : Z) (packet : MediaPacket) (p : Peer)
    : Peer * option Z :=
  match video_metadata packet with
  | None => (p, None)
  | Some vm =>
      if mtype =? VIDEO then
        let '(s, due) := track_stream now (vm_sequence vm) (frame_type packet) (video_track p) in
        (set_video_track s p, if due then Some mtype else None)
      else if mtype =? SCREEN then
        let '(s, due) := track_stream now (vm_sequence vm) (frame_type packet) (screen_track p) in
        (set_screen_track s p, if due then Some mtype else None)
      else (p, None)
  end.

(** ** Decoding one packet *)

Definition parse_media_packet (data : bytes) : result MediaPacket PeerDecodeError :=
  match parse_media data with Some m => Ok m | None => Err PacketParseError end.

Definition decode_output : Type := Z * DecodeStatus * option Z.

(** What [decode] does before it looks at the media type. *)
Definition open_packet (packet : PacketWrapper) (p : Peer) : result (Z * MediaPacket) PeerDecodeError :=
  match packet_type_value (packet_type packet) with
  | None => Err NoPacketType
  | Some ty =>
      if negb (ty =? MEDIA) then Err IncorrectPacketType
      else
        m <-? (match pr_aes p with
               | Some aes => match aes_decrypt aes (pw_data packet) with
                             | Some data => parse_media_packet data
                             | None => Err AesDecryptError
                             end
               | None => parse_media_packet (pw_data packet)
               end) ;;
        match media_type_value (media_type m) with
        | None => Err NoMediaType
        | Some mtype => Ok (mtype, m)
        end
  end.

Definition decode_video (now : Z) (packet : MediaPacket) (p : Peer)
    : Peer * list peer_effect * result decode_output PeerDecodeError :=
  let '(p, kf_request) := track_sequence now VIDEO packet p in
  if negb (pr_video_enabled p) && pr_has_received_heartbeat p
  then (p, [], Ok (VIDEO, SKIPPED, None))
  else
    let '(p, effects) :=
      if pr_video_enabled p then (p, [])
      else let p := p <| pr_video_enabled := true |> in (p, [broadcast_peer_status now p]) in
    if negb (pr_visible p) then (p, effects, Ok (VIDEO, SKIPPED, None))
    else
      let '(video, status) := video_decode now packet (pr_video p) in
      (p <| pr_video := video |>, effects, Ok (VIDEO, status, kf_request)).

Definition decode_audio (now : Z) (packet : MediaPacket) (p : Peer)
    : Peer * list peer_effect * result decode_output PeerDecodeError :=
  if negb (pr_audio_enabled p) && pr_has_received_heartbeat p
  then (p, [], Ok (AUDIO, SKIPPED, None))
  else
    let '(p, effects) :=
      if pr_audio_enabled p then (p, [])
      else let p := p <| pr_audio_enabled := true |>
                      <| pr_audio := audio_set_muted false (pr_audio p) |> in
           (p, [broadcast_peer_status now p]) in
    let '(audio, status) := audio_decode packet (pr_audio p) in
    (p <| pr_audio := audio |>, effects,
     match status with
     | Some status => Ok (AUDIO, status, None)
     | None => Err AudioDecodeError
     end).

(** The request for a key frame of a screen decoder that waits for one. *)
Definition proactive_request (now : Z) (kf_request : option Z) (p : Peer) : Peer * option Z :=
  match kf_request with
  | Some _ => (p, kf_request)
  | None =>
      if wasm_is_waiting_for_keyframe (vp_decoder (pr_screen p))
         && (KEYFRAME_REQUEST_MIN_INTERVAL_MS <=?
             sat_sub now (pr_last_screen_keyframe_request_ms p))
      then (p <| pr_last_screen_keyframe_request_ms := now |>, Some SCREEN)
      else (p, None)
  end.

Definition decode_screen (now : Z) (packet : MediaPacket) (p : Peer)
    : Peer * list peer_effect * result decode_output PeerDecodeError :=
  let '(p, kf_request) := track_sequence now SCREEN packet p in
  let '(p, effects) :=
    if pr_screen_enabled p then (p, [])
    else let p := p <| pr_screen_enabled := true |> in (p, [broadcast_peer_status now p]) in
  if negb (pr_visible p) then (p, effects, Ok (SCREEN, SKIPPED, kf_request))
  else
    let '(screen, status) := video_decode now packet (pr_screen p) in
    let p := p <| pr_screen := screen |> in
    let '(p, effective_kf_request) := proactive_request now kf_request p in
    (p, effects, Ok (SCREEN, status, effective_kf_request)).

Definition decode_heartbeat (now : Z) (packet : MediaPacket) (p : Peer)
    : Peer * list peer_effect * result decode_output PeerDecodeError :=
  let p := p <| pr_has_received_heartbeat := true |> in
  match heartbeat_metadata packet with
  | None => (p, [], Ok (HEARTBEAT, SKIPPED, None))
  | Some metadata =>
      let video_turned_off := pr_video_enabled p && negb (hb_video_enabled metadata) in
      let screen_turned_off := pr_screen_enabled p && negb (hb_screen_enabled metadata) in
      let audio_turned_off := pr_audio_enabled p && negb (hb_audio_enabled metadata) in
      let audio_state_changed := negb (Bool.eqb (pr_audio_enabled p) (hb_audio_enabled metadata)) in
      let p := when audio_state_changed
                 (fun p => p <| pr_audio := audio_set_muted (negb (hb_audio_enabled metadata))
                                              (pr_audio p) |>) p in
      let p := p <| pr_video_enabled := hb_video_enabled metadata |>
                 <| pr_audio_enabled := hb_audio_enabled metadata |>
                 <| pr_screen_enabled := hb_screen_enabled metadata |>
                 <| pr_is_speaking := hb_is_speaking metadata |> in
      let p := when (negb (hb_is_speaking metadata))
                 (fun p => p <| pr_audio_level := F64.of_Z 0 |>) p in
      let p := when video_turned_off
                 (fun p => p <| pr_video := video_flush (pr_video p) |>) p in
      let p := when audio_turned_off
                 (fun p => p <| pr_audio := audio_flush (pr_audio p) |>) p in
      let p := when screen_turned_off
                 (fun p => p <| pr_screen := video_flush (pr_screen p) |>) p in
      (p, [broadcast_peer_status now p], Ok (HEARTBEAT, SKIPPED, None))
  end.

Definition peer_decode (now : Z) (packet : PacketWrapper) (p : Peer)
    : Peer * list peer_effect * result decode_output PeerDecodeError :=
  match open_packet packet p with
  | Err e => (p, [], Err e)
  | Ok (mtype, m) =>
      if mtype =? VIDEO then decode_video now m p
      else if mtype =? AUDIO then decode_audio now m p
      else if mtype =? SCREEN then decode_screen now m p
      else if mtype =? HEARTBEAT then decode_heartbeat now m p
      else if mtype =? RTT then (p, [], Ok (mtype, SKIPPED, None))
      else if mtype =? KEYFRAME_REQUEST then (p, [], Ok (mtype, SKIPPED, None))
      else (p, [], Err UnknownMediaType)
  end.

(** ** Liveness of one peer *)

Definition on_activity (p : Peer) : Peer :=
  p <| pr_activity_count := sat_add 8 (pr_activity_count p) 1 |>.

(** [true]: the peer is kept. *)
Definition check_heartbeat (p : Peer) : Peer * bool :=
  if 0 <? pr_activity_count p
  then (p <| pr_activity_count := 0 |> <| pr_missed_heartbeat_checks := 0 |>, true)
  else
    let p := p <| pr_missed_heartbeat_checks := pr_missed_heartbeat_checks p +u32 1 |> in
    (p, negb (3 <=? pr_missed_heartbeat_checks p)).

(** ** The manager *)

Record PeerDecodeManager : Type := mkManager {
  connected_peers : HashMapWithOrderedKeys Peer;
  display_name_cache : gmap string string;
  get_video_canvas_id : string -> string;
  get_screen_canvas_id : string -> string;
  pm_diagnostics : bool;
  pm_vad_threshold : option float;
  pm_send_packet : bool;
  pm_local_user_id : string;
}.

#[global] Instance eta_PeerDecodeManager : Eta PeerDecodeManager := fun r =>
  mkManager (connected_peers r) (display_name_cache r) (get_video_canvas_id r)
    (get_screen_canvas_id r) (pm_diagnostics r) (pm_vad_threshold r) (pm_send_packet r)
    (pm_local_user_id r).

Definition pm_new : PeerDecodeManager :=
  mkManager om_new ∅ (fun key => "video-" +:+ key) (fun key => "screen-" +:+ key) false None false
    EmptyString.

Definition new_with_diagnostics : PeerDecodeManager := pm_new <| pm_diagnostics := true |>.

Definition set_send_packet_callback (user_id : string) (m : PeerDecodeManager)
    : PeerDecodeManager :=
  m <| pm_send_packet := true |> <| pm_local_user_id := user_id |>.

Definition set_vad_threshold (threshold : option float) (m : PeerDecodeManager)
    : PeerDecodeManager :=
  m <| pm_vad_threshold := threshold |>.

(** [get_mut] and an update of the peer it finds. *)
Definition update_peer (session_id : Z) (f : Peer -> Peer) (m : PeerDecodeManager)
    : PeerDecodeManager :=
  m <| connected_peers := om_update session_id f (connected_peers m) |>.

Definition set_peer_visibility (session_id : Z) (visible : bool) (m : PeerDecodeManager)
    : PeerDecodeManager :=
  update_peer session_id (fun p => p <| pr_visible := visible |>) m.

Definition sorted_keys (m : PeerDecodeManager) : list Z := ordered_keys (connected_peers m).

Definition get_peer (session_id : Z) (m : PeerDecodeManager) : option Peer :=
  om_get session_id (connected_peers m).

(** [b"VIDEO"] and [b"SCREEN"]. *)
Definition stream_name (mtype : Z) : option bytes :=
  if mtype =? VIDEO then Some (as_bytes "VIDEO")
  else if mtype =? SCREEN then Some (as_bytes "SCREEN")
  else None.

Definition send_keyframe_request (peer_user_id : string) (requested_media_type : Z)
    (m : PeerDecodeManager) : list peer_effect :=
  if negb (pm_send_packet m) then []
  else match stream_name requested_media_type with
       | None => []
       | Some media_type_byte =>
           let media_packet :=
             media_default <| media_type := KEYFRAME_REQUEST |>
               <| mp_user_id := as_bytes peer_user_id |> <| mp_data := media_type_byte |> in
           match write_media media_packet with
           | None => []
           | Some media_data =>
               [SendPacket (wrapper_default <| packet_type := MEDIA |>
                              <| pw_user_id := as_bytes (pm_local_user_id m) |>
                              <| pw_data := media_data |>)]
           end
       end.

(** [false] is the error: no such peer, or no 2d context. *)
Definition set_peer_video_canvas (peer_id canvas : Z) (m : PeerDecodeManager)
    : PeerDecodeManager * bool :=
  match get_peer peer_id m with
  | None => (m, false)
  | Some p =>
      match set_canvas canvas (pr_video p) with
      | None => (m, false)
      | Some v => (update_peer peer_id (fun p => p <| pr_video := v |>) m, true)
      end
  end.

Definition set_peer_screen_canvas (peer_id canvas : Z) (m : PeerDecodeManager)
    : PeerDecodeManager * list peer_effect * bool :=
  match get_peer peer_id m with
  | None => (m, [], false)
  | Some p =>
      match set_canvas canvas (pr_screen p) with
      | None => (m, [], false)
      | Some v =>
          (update_peer peer_id (fun p => p <| pr_screen := v |>) m,
           if pr_screen_enabled p then send_keyframe_request (pr_user_id p) SCREEN m else [], true)
      end
  end.

Definition run_peer_monitor (m : PeerDecodeManager) : PeerDecodeManager * list peer_effect :=
  let '(peers, removed) := remove_if_and_return check_heartbeat (connected_peers m) in
  (m <| connected_peers := peers |>, (fun '(_, p) => PeerRemoved (pr_sid_str p)) <$> removed).

(** The context of the two video decoders is set by the first packet. *)
Definition init_context (userid : string) (p : Peer) : Peer :=
  if pr_context_initialized p then p
  else p <| pr_video := set_stream_context userid (pr_sid_str p) (pr_video p) |>
         <| pr_screen := set_stream_context userid (pr_sid_str p) (pr_screen p) |>
         <| pr_context_initialized := true |>.

Definition pm_decode (now : Z) (response : PacketWrapper) (userid : string)
    (m : PeerDecodeManager)
    : PeerDecodeManager * list peer_effect * result unit PeerDecodeError :=
  let peer_session_id := pw_session_id response in
  match get_peer peer_session_id m with
  | None => (m, [], Err (NoSuchPeer peer_session_id))
  | Some p =>
      let '(p1, effects, r) := peer_decode now response (init_context userid p) in
      let set p := update_peer peer_session_id (fun _ => p) m in
      match r with
      | Ok (mtype, decode_status, keyframe_request) =>
          let p2 := on_activity p1 in
          let m2 := set p2 in
          if mtype =? HEARTBEAT then (m2, effects, Ok ())
          else
            let tracked :=
              if pm_diagnostics m2
              then [TrackFrame (pr_sid_str p2) mtype (Z.of_nat (length (pw_data response)))]
              else [] in
            let first := if first_frame decode_status then [FirstFrame (pr_sid_str p2) mtype] else [] in
            let sent := match keyframe_request with
                        | Some mt => send_keyframe_request (pr_user_id p2) mt m2
                        | None => []
                        end in
            (m2, effects ++ tracked ++ first ++ sent, Ok ())
      | Err e =>
          match peer_reset p1 with
          | Some p2 => (set p2, effects, Ok ())
          | None => (set p1, effects, Err e)
          end
      end
  end.

(** [None] is the error of the decoders. *)
Definition add_peer (user_id : string) (session_id : Z) (aes : option Aes128State)
    (m : PeerDecodeManager) : option PeerDecodeManager :=
  let sid_str := show_u64 session_id in
  peer ← peer_new (get_video_canvas_id m sid_str) (get_screen_canvas_id m sid_str) session_id
           user_id aes (pm_vad_threshold m);
  let peer := match display_name_cache m !! user_id with
              | Some cached_name => peer <| pr_display_name := Some cached_name |>
              | None => peer
              end in
  Some (m <| connected_peers := (om_insert session_id peer (connected_peers m)).1 |>).

Definition delete_peer (session_id : Z) (m : PeerDecodeManager)
    : PeerDecodeManager * list peer_effect :=
  let '(peers, removed) := om_remove session_id (connected_peers m) in
  (m <| connected_peers := peers |>,
   match removed with Some p => [PeerRemoved (pr_sid_str p)] | None => [] end).

(** [iter] is the iteration order of the hash map. *)
Definition clear_all_peers (iter : gmap Z Peer -> list (Z * Peer)) (m : PeerDecodeManager)
    : PeerDecodeManager * list peer_effect :=
  let '(peers, removed) := om_drain_all iter (connected_peers m) in
  (m <| connected_peers := peers |> <| display_name_cache := ∅ |>,
   (fun '(_, p) => PeerRemoved (pr_sid_str p)) <$> removed).

Inductive PeerStatus : Type := Added (session_id : Z) | NoChange.

Definition ensure_peer (session_id : Z) (user_id : string) (m : PeerDecodeManager)
    : PeerDecodeManager * PeerStatus :=
  if om_contains_key session_id (connected_peers m) then (m, NoChange)
  else match add_peer user_id session_id None m with
       | None => (m, NoChange)
       | Some m' => (m', Added session_id)
       end.

Definition set_peer_aes (session_id : Z) (aes : Aes128State) (m : PeerDecodeManager)
    : PeerDecodeManager * result unit PeerDecodeError :=
  match get_peer session_id m with
  | Some _ => (update_peer session_id (fun p => p <| pr_aes := Some aes |>) m, Ok ())
  | None => (m, Err (NoSuchPeer session_id))
  end.

(** The loop over the sorted keys. *)
Definition name_peer (user_id display_name : string) (m : PeerDecodeManager) (key : Z)
    : PeerDecodeManager :=
  update_peer key (fun p => if bool_decide (pr_user_id p = user_id)
                            then p <| pr_display_name := Some display_name |> else p) m.

Definition set_peer_display_name_by_user_id (user_id display_name : string)
    (m : PeerDecodeManager) : PeerDecodeManager :=
  let m := m <| display_name_cache := <[user_id := display_name]> (display_name_cache m) |> in
  foldl (name_peer user_id display_name) m (sorted_keys m).

(** [str::parse::<u64>]: an optional plus sign, then decimal digits without overflow. *)
Definition digit_of (c : ascii) : option Z :=
  let n := Z.of_N (N_of_ascii c) in
  if (48 <=? n) && (n <=? 57) then Some (n - 48) else None.

Fixpoint parse_digits (acc : Z) (s : string) : option Z :=
  match s with
  | EmptyString => Some acc
  | String c s' =>
      d ← digit_of c;
      let acc' := acc * 10 + d in
      if acc' <=? u_max 64 then parse_digits acc' s' else None
  end.

Definition parse_u64 (s : string) : option Z :=
  match s with
  | EmptyString => None
  | String "+"%char EmptyString => None
  | String "+"%char s' => parse_digits 0 s'
  | _ => parse_digits 0 s
  end.

Definition get_peer_display_name (session_id_str : string) (m : PeerDecodeManager)
    : option string :=
  sid ← parse_u64 session_id_str;
  p ← get_peer sid m;
  pr_display_name p.

Definition is_peer_speaking (key : string) (m : PeerDecodeManager) : bool :=
  match sid ← parse_u64 key; get_peer sid m with
  | Some p => pr_is_speaking p
  | None => false
  end.

Definition peer_audio_level (key : string) (m : PeerDecodeManager) : float :=
  match sid ← parse_u64 key; get_peer sid m with
  | Some p => pr_audio_level p
  | None => F64.of_Z 0
  end.
End Peers.

Arguments Peer : clear implicits.
Arguments PeerDecodeManager : clear implicits.
