(* ===== verification/DemoMedia.v ===== *)
(** * A concrete media codec, cipher and browser

    Instances of the interfaces [MediaWire], [Cipher] and [Browser], with the laws of
    the first two, for the concrete runs of the development. *)
From Stdlib Require Import SpecFloat.
From S2P Require Import Prelude Floats VideoWorker Protocol DemoWire Media PeerDecode.

#[export] Instance float_eq_dec : EqDecision float.
Proof. solve_decision. Defined.

#[export] Instance float_countable : Countable float.
Proof.
  apply (inj_countable'
    (fun x : float => match x with
       | S754_zero s => inl (inl s)
       | S754_infinity s => inl (inr s)
       | S754_nan => inr (inl ())
       | S754_finite s m e => inr (inr (s, m, e)) end)
    (fun y : bool + bool + (unit + bool * positive * Z) => match y with
       | inl (inl s) => S754_zero s
       | inl (inr s) => S754_infinity s
       | inr (inl _) => S754_nan
       | inr (inr (s, m, e)) => S754_finite s m e end)).
  by intros [].
Defined.

#[export] Instance AudioMetadata_eq_dec : EqDecision AudioMetadata.
Proof. solve_decision. Defined.
#[export] Instance AudioMetadata_countable : Countable AudioMetadata.
Proof.
  apply (inj_countable'
    (fun a => (audio_format a, audio_number_of_channels a, audio_number_of_frames a,
               audio_sample_rate a, am_sequence a))
    (fun '(a, b, c, d, e) => mkAudioMetadata a b c d e)).
  by intros [].
Defined.

#[export] Instance VideoMetadata_eq_dec : EqDecision VideoMetadata.
Proof. solve_decision. Defined.
#[export] Instance VideoMetadata_countable : Countable VideoMetadata.
Proof.
  apply (inj_countable' (fun v => (vm_sequence v, vm_codec v)) (fun '(a, b) => mkVideoMetadata a b)).
  by intros [].
Defined.

#[export] Instance HeartbeatMetadata_eq_dec : EqDecision HeartbeatMetadata.
Proof. solve_decision. Defined.
#[export] Instance HeartbeatMetadata_countable : Countable HeartbeatMetadata.
Proof.
  apply (inj_countable'
    (fun h => (hb_video_enabled h, hb_audio_enabled h, hb_screen_enabled h, hb_is_speaking h))
    (fun '(a, b, c, d) => mkHeartbeatMetadata a b c d)).
  by intros [].
Defined.

#[export] Instance MediaPacket_eq_dec : EqDecision MediaPacket.
Proof. solve_decision. Defined.
#[export] Instance MediaPacket_countable : Countable MediaPacket.
Proof.
  apply (inj_countable'
    (fun m => (media_type m, mp_user_id m, mp_data m, frame_type m, mp_timestamp m, mp_duration m,
               audio_metadata m, video_metadata m, heartbeat_metadata m))
    (fun '(a, b, c, d, e, f, g, h, i) => mkMediaPacket a b c d e f g h i)).
  by intros [].
Defined.

(** The media type, then the packet as one number. *)
Definition demo_write_media (m : MediaPacket) : bytes := [media_type m; Zpos (encode m)].

Definition demo_parse_media (b : bytes) : option MediaPacket :=
  match b with
  | [] => None
  | t :: rest =>
      let m := match rest with
               | [Zpos code] => default media_default (decode code)
               | _ => media_default
               end in
      Some (m <| media_type := t |>)
  end.

Definition demo_media : MediaWire (wire := demo_wire) :=
  @Build_MediaWire demo_wire demo_parse_media (fun m => Some (demo_write_media m)).

Lemma demo_media_laws : MediaWireLaws (wire := demo_wire) (media := demo_media).
Proof.
  split.
  - intros m b [= <-]. cbn [parse_media demo_media demo_parse_media demo_write_media].
    rewrite decode_encode. by destruct m.
  - by intros [|t rest].
Qed.

(** A cipher: every byte shifted by the first byte of the key. *)
Definition demo_cipher : Cipher := {|
  cbc_encrypt := fun key iv data => Some ((fun b => b + default 0 (head key)) <$> data);
  cbc_decrypt := fun key iv data => Some ((fun b => b - default 0 (head key)) <$> data);
|}.

Lemma demo_cipher_laws : CipherLaws (cipher := demo_cipher).
Proof.
  split. intros key iv data e _ _ [= <-]. simpl. f_equal. rewrite <- list_fmap_compose.
  rewrite <- (list_fmap_id data) at 2. apply list_fmap_ext. intros _ b _. simpl. lia.
Qed.

(** A browser without a page: an audio decoder is its mute flag and what it played. *)
Definition demo_audio : Type := bool * list bytes.

Definition demo_browser : Browser demo_audio := {|
  get_canvas := fun _ => None;
  has_2d_context := fun _ => true;
  can_post := fun _ => true;
  create_audio_peer_decoder := fun _ _ => Some (false, []);
  audio_decode := fun m '(muted, played) => ((muted, mp_data m :: played), Some (mkDecodeStatus true true));
  audio_flush := fun '(muted, played) => (muted, []);
  audio_set_muted := fun muted '(_, played) => (muted, played);
|}.
