(* ===== verification/PeerDecodeProps.v ===== *)
(** * Properties of the peer table

    Which fields decoding leaves alone; the lifetime of a peer under the monitor; the
    requests for key frames against a definition over the history of a stream; the
    journey of a frame from the encoder of one client to the decoder of another. *)
From S2P Require Import Prelude Floats JitterBuffer VideoWorker Protocol DemoWire Media OrderedMap.
From S2P Require Import PeerDecode DemoMedia.

Section Props.
Context {A : Type} {browser : Browser A} {wire : Wire} {media : MediaWire} {cipher : Cipher}.
Context (iter : gmap Z (Peer A) -> list (Z * Peer A)).

(** ** What decoding leaves alone *)

(** Everything of a peer but its decoders, media state and stream tracking. *)
Record same_peer (p q : Peer A) : Prop := mk_same_peer {
  sp_session : pr_session_id q = pr_session_id p;
  sp_sid_str : pr_sid_str q = pr_sid_str p;
  sp_user : pr_user_id q = pr_user_id p;
  sp_aes : pr_aes q = pr_aes p;
  sp_activity : pr_activity_count q = pr_activity_count p;
  sp_missed : pr_missed_heartbeat_checks q = pr_missed_heartbeat_checks p;
}.

#[local] Instance same_peer_preorder : PreOrder same_peer.
Proof. split; [by intros | intros p q r [] []; split; congruence]. Qed.

Lemma track_sequence_same now mtype packet p : same_peer p (track_sequence now mtype packet p).1.
Proof. unfold track_sequence, track_stream. repeat case_match; simplify_eq; done. Qed.

Lemma init_context_same userid p : same_peer p (init_context userid p).
Proof. unfold init_context. by case_match. Qed.

Lemma peer_reset_same p q : peer_reset p = Some q -> same_peer p q.
Proof. unfold peer_reset. intros H. by repeat (case_match || simplify_option_eq). Qed.

(** Every status broadcast is neither a removal nor a packet. *)
Definition is_status (e : peer_effect) : Prop :=
  match e with PeerStatusEvent _ _ _ _ _ _ _ => True | _ => False end.

Lemma decode_video_same now packet p :
  let '(q, effects, _) := decode_video now packet p in same_peer p q /\ Forall is_status effects.
Proof.
  unfold decode_video. pose proof (track_sequence_same now VIDEO packet p) as H.
  destruct (track_sequence now VIDEO packet p) as [p1 kf]. simpl in H.
  destruct (pr_video_enabled p1), (pr_has_received_heartbeat p1), (pr_visible p1) eqn:Ev; simpl;
    rewrite ?Ev; simpl; try destruct (video_decode now packet _);
    (split; [destruct H; split; done | by repeat constructor]).
Qed.

Lemma decode_audio_same now packet p :
  let '(q, effects, _) := decode_audio now packet p in same_peer p q /\ Forall is_status effects.
Proof.
  unfold decode_audio. destruct (pr_audio_enabled p), (pr_has_received_heartbeat p); simpl;
    try destruct (audio_decode packet _); (split; [split; done | by repeat constructor]).
Qed.

Lemma proactive_request_same now kf p : same_peer p (proactive_request now kf p).1.
Proof. unfold proactive_request. by repeat case_match. Qed.

Lemma decode_screen_same now packet p :
  let '(q, effects, _) := decode_screen now packet p in same_peer p q /\ Forall is_status effects.
Proof.
  unfold decode_screen. pose proof (track_sequence_same now SCREEN packet p) as H.
  destruct (track_sequence now SCREEN packet p) as [p1 kf]. simpl in H.
  set (x := if pr_screen_enabled p1 then _ else _).
  assert (same_peer p x.1 /\ Forall is_status x.2) as [H1 H2].
  { subst x. destruct (pr_screen_enabled p1); simpl; [by split |].
    split; [destruct H; by split | by repeat constructor]. }
  destruct x as [p2 effects]. simpl in *. destruct (negb (pr_visible p2)); [done |].
  destruct (video_decode now packet _) as [v st].
  pose proof (proactive_request_same now kf (p2 <| pr_screen := v |>)) as H3.
  destruct (proactive_request now kf _) as [p3 kf']. simpl in H3. split; [|done].
  destruct H1, H3; split; simpl in *; congruence.
Qed.

Lemma when_same b f p q :
  (forall r, same_peer r (f r)) -> same_peer p q -> same_peer p (when b f q).
Proof. intros Hf Hq. destruct b; simpl; [|done]. by etransitivity; [|apply Hf]. Qed.

Lemma upd_flags_same p v a s k :
  same_peer p (p <| pr_video_enabled := v |> <| pr_audio_enabled := a |>
                 <| pr_screen_enabled := s |> <| pr_is_speaking := k |>).
Proof. by split. Qed.

Lemma decode_heartbeat_same now packet p :
  let '(q, effects, _) := decode_heartbeat now packet p in
  same_peer p q /\ Forall is_status effects.
Proof.
  unfold decode_heartbeat. destruct (heartbeat_metadata packet) as [md|]; [|by split].
  cbv zeta. split; [|by repeat constructor].
  repeat (apply when_same; [intros; by split |]).
  eapply transitivity; [|apply upd_flags_same]. apply when_same; [intros; by split |]. by split.
Qed.

Lemma peer_decode_same now packet p :
  let '(q, effects, _) := peer_decode now packet p in same_peer p q /\ Forall is_status effects.
Proof.
  unfold peer_decode. destruct (open_packet packet p) as [[mtype m]|e]; [|done].
  pose proof (decode_video_same now m p). pose proof (decode_audio_same now m p).
  pose proof (decode_screen_same now m p). pose proof (decode_heartbeat_same now m p).
  repeat (break_if; [done |]). done.
Qed.

(** ** The operations of the manager as steps *)

Inductive pm_op : Type :=
| PDecode (now : Z) (response : PacketWrapper) (userid : string)
| PMonitor
| PEnsure (session_id : Z) (user_id : string)
| PDelete (session_id : Z)
| PClear
| PSetAes (session_id : Z) (aes : Aes128State)
| PVisibility (session_id : Z) (visible : bool)
| PName (user_id display_name : string)
| PVideoCanvas (peer_id canvas : Z)
| PScreenCanvas (peer_id canvas : Z)
| PVad (threshold : option float)
| PSendCallback (user_id : string).

Definition pm_step (m : PeerDecodeManager A) (op : pm_op)
    : PeerDecodeManager A * list peer_effect :=
  match op with
  | PDecode now response userid =>
      let '(m', effects, _) := pm_decode now response userid m in (m', effects)
  | PMonitor => run_peer_monitor m
  | PEnsure sid uid => ((ensure_peer sid uid m).1, [])
  | PDelete sid => delete_peer sid m
  | PClear => clear_all_peers iter m
  | PSetAes sid aes => ((set_peer_aes sid aes m).1, [])
  | PVisibility sid visible => (set_peer_visibility sid visible m, [])
  | PName uid name => (set_peer_display_name_by_user_id uid name m, [])
  | PVideoCanvas id canvas => ((set_peer_video_canvas id canvas m).1, [])
  | PScreenCanvas id canvas =>
      let '(m', effects, _) := set_peer_screen_canvas id canvas m in (m', effects)
  | PVad threshold => (set_vad_threshold threshold m, [])
  | PSendCallback uid => (set_send_packet_callback uid m, [])
  end.

(** Session ids are [u64]s. *)
Definition pm_op_ok (op : pm_op) : Prop :=
  match op with PEnsure sid _ => u_in 64 sid | _ => True end.

Record peer_wf (k : Z) (p : Peer A) : Prop := mk_peer_wf {
  pw_key : 0 <= k;
  pw_session : pr_session_id p = k;
  pw_sid : pr_sid_str p = show_u64 k;
  pw_activity : 0 <= pr_activity_count p;
  pw_missed : 0 <= pr_missed_heartbeat_checks p <= 2;
}.

Record pm_wf (m : PeerDecodeManager A) : Prop := mk_pm_wf {
  pmw_table : om_wf (connected_peers m);
  pmw_peers : map_Forall peer_wf (om_map (connected_peers m));
}.

Notation peers m := (om_map (connected_peers m)).

Lemma same_peer_wf k p q : same_peer p q -> peer_wf k p -> peer_wf k q.
Proof. intros [] []; split; congruence. Qed.

Lemma on_activity_wf k p : peer_wf k p -> peer_wf k (on_activity p).
Proof. intros []; split; try done. simpl. unfold sat_add, u_max. lia. Qed.

Lemma update_peer_wf k f (m : PeerDecodeManager A) :
  (forall p, peers m !! k = Some p -> peer_wf k p -> peer_wf k (f p)) ->
  pm_wf m -> pm_wf (update_peer k f m).
Proof.
  intros Hf [Ht Hp]. split; simpl; [by apply om_update_wf |].
  intros j q. rewrite lookup_alter. case_decide as Hj; [subst j | apply Hp].
  intros (p & E & ->)%fmap_Some. apply Hf; [done |]. by apply Hp.
Qed.

Lemma lookup_update k f (m : PeerDecodeManager A) j :
  peers (update_peer k f m) !! j = if decide (j = k) then f <$> peers m !! j else peers m !! j.
Proof.
  simpl. rewrite lookup_alter. by repeat case_decide; subst.
Qed.

(** How many more runs of the monitor a peer survives without a packet. *)
Definition life (p : Peer A) : nat :=
  if 0 <? pr_activity_count p then 3 else Z.to_nat (2 - pr_missed_heartbeat_checks p).

Definition fate (sid : Z) (m : PeerDecodeManager A) : option nat := life <$> peers m !! sid.

Lemma same_peer_life p q : same_peer p q -> life q = life p.
Proof. intros [_ _ _ _ Ha Hm]. unfold life. by rewrite Ha, Hm. Qed.

Definition is_removed (e : peer_effect) : Prop :=
  match e with PeerRemoved _ => True | _ => False end.

#[local] Instance is_removed_dec e : Decision (is_removed e).
Proof. destruct e; apply _. Defined.

(** The removals of one peer among the effects. *)
Definition removals (sid : Z) (effects : list peer_effect) : list string :=
  filter (fun s => s = show_u64 sid)
    (omap (fun e => match e with PeerRemoved s => Some s | _ => None end) effects).

Lemma removals_app sid e1 e2 : removals sid (e1 ++ e2) = removals sid e1 ++ removals sid e2.
Proof. unfold removals. by rewrite omap_app, filter_app. Qed.

Lemma removals_cons sid s effects :
  removals sid (PeerRemoved s :: effects) =
    (if decide (s = show_u64 sid) then [s] else []) ++ removals sid effects.
Proof. unfold removals. cbn [omap list_omap]. rewrite filter_cons. by case_decide. Qed.

Lemma removals_none sid effects : Forall (fun e => ~ is_removed e) effects -> removals sid effects = [].
Proof. induction 1 as [|e l He _ IH]; [done |]. destruct e; try exact IH. by destruct He. Qed.

Lemma send_request_quiet uid mt (m : PeerDecodeManager A) :
  Forall (fun e => ~ is_removed e) (send_keyframe_request uid mt m).
Proof. unfold send_keyframe_request. repeat case_match; repeat constructor; by intros []. Qed.

(** [decode] changes one peer, which stays the same but for its activity count. *)
Lemma pm_decode_shape now response userid (m : PeerDecodeManager A) :
  let '(m', effects, _) := pm_decode now response userid m in
  Forall (fun e => ~ is_removed e) effects /\
  (m' = m \/ exists p q, get_peer (pw_session_id response) m = Some p /\
     m' = update_peer (pw_session_id response) (fun _ => q) m /\
     exists r, same_peer p r /\ (q = r \/ q = on_activity r)).
Proof.
  unfold pm_decode. destruct (get_peer _ m) as [p|] eqn:E; [|by auto].
  pose proof (peer_decode_same now response (init_context userid p)) as H.
  destruct (peer_decode _ _ _) as [[p1 effects] r]. destruct H as [H1 He].
  assert (Forall (fun e => ~ is_removed e) effects) as Hq
    by (eapply Forall_impl; [exact He | intros [] ? []; done]).
  pose proof (init_context_same userid p) as H0.
  assert (same_peer p p1) as Hp by (by etransitivity).
  destruct r as [[[mtype st] kf]|e].
  - destruct (mtype =? HEARTBEAT); (split; [|right; do 2 eexists; eauto 6]); [done |].
    repeat apply Forall_app_2; [done | | |]; case_match; try apply send_request_quiet;
      repeat constructor; by intros [].
  - destruct (peer_reset p1) as [p2|] eqn:Er; (split; [done |]; right; do 2 eexists);
      split_and!; try done; eexists; [|by eauto].
    split; [|by left]. by etransitivity; [|apply peer_reset_same].
Qed.

Lemma name_peers_fold uid name keys (m : PeerDecodeManager A) sid :
  pm_wf m -> pm_wf (foldl (name_peer uid name) m keys) /\
  fate sid (foldl (name_peer uid name) m keys) = fate sid m.
Proof.
  set (f := fun p : Peer A => if bool_decide (pr_user_id p = uid)
                              then p <| pr_display_name := Some name |> else p).
  assert (forall p, same_peer p (f p)) as Hf by (intros p; unfold f; by case_bool_decide).
  revert m. induction keys as [|k keys IH]; intros m Hwf; simpl; [done |].
  destruct (IH (name_peer uid name m k)) as [H1 H2].
  { apply update_peer_wf; [|done]. intros p _. by apply same_peer_wf. }
  split; [done |]. rewrite H2. unfold fate, name_peer. rewrite lookup_update. fold f.
  case_decide; [|done]. rewrite <- option_fmap_compose. apply option_fmap_ext.
  intros p. by apply same_peer_life.
Qed.

Lemma run_monitor_wf (m : PeerDecodeManager A) : pm_wf m -> pm_wf (run_peer_monitor m).1.
Proof.
  intros [Ht Hp]. unfold run_peer_monitor.
  pose proof (remove_if_spec check_heartbeat (connected_peers m) Ht) as H.
  destruct (remove_if_and_return _ _) as [ps removed]. destruct H as (Hwf & Hm & _).
  split; simpl; [done |]. rewrite Hm. intros k q. rewrite lookup_omap.
  intros (p & E & Hk)%bind_Some. destruct (Hp k p E). unfold keep_value, check_heartbeat in Hk.
  destruct (0 <? pr_activity_count p) eqn:Ea; simpl in Hk; [simplify_eq; split; done || (simpl; lia) |].
  destruct (3 <=? _) eqn:Em; simplify_eq/=. apply Z.leb_gt in Em. apply Z.ltb_ge in Ea.
  rewrite wrap_u_small in Em by (unfold u_in; lia).
  split; simpl; try done. rewrite wrap_u_small by (unfold u_in; lia). lia.
Qed.

Lemma check_life k (p : Peer A) :
  peer_wf k p ->
  keep_value check_heartbeat p = match life p with
                                 | O => None
                                 | S _ => Some (check_heartbeat p).1
                                 end /\
  life (check_heartbeat p).1 = Nat.pred (life p) /\ pr_sid_str (check_heartbeat p).1 = show_u64 k.
Proof.
  intros []. unfold keep_value, check_heartbeat, life.
  destruct (0 <? pr_activity_count p) eqn:Ea; simpl; [done |]. rewrite Ea.
  rewrite wrap_u_small by (unfold u_in; lia).
  assert (pr_missed_heartbeat_checks p = 0 \/ pr_missed_heartbeat_checks p = 1 \/
          pr_missed_heartbeat_checks p = 2) as [E|[E|E]] by lia; rewrite E; simpl; done.
Qed.

(** One run of the monitor: each peer loses one life, and leaves when it has none. *)
Lemma run_monitor_fate sid (m : PeerDecodeManager A) :
  pm_wf m -> u_in 64 sid ->
  let '(m', effects) := run_peer_monitor m in
  fate sid m' = match fate sid m with Some (S n) => Some n | _ => None end /\
  removals sid effects = match fate sid m with Some O => [show_u64 sid] | _ => [] end.
Proof.
  intros [Ht Hp] Hsid. unfold run_peer_monitor, fate.
  pose proof (remove_if_spec check_heartbeat (connected_peers m) Ht) as H.
  destruct (remove_if_and_return _ _) as [ps removed]. destruct H as (_ & Hm & Hr).
  split.
  - simpl. rewrite Hm, lookup_omap. destruct (peers m !! sid) as [p|] eqn:E; simpl; [|done].
    destruct (check_life sid p (Hp _ _ E)) as (-> & Hl & _).
    destruct (life p) as [|n]; simpl; [done |]. by rewrite Hl.
  - assert (forall k, k ∈ om_keys (connected_peers m) -> 0 <= k) as Hpos.
    { intros k Hk%(ow_dom _ Ht). destruct Hk as [p E]. apply (Hp _ _ E). }
    assert (is_Some (peers m !! sid) <-> sid ∈ om_keys (connected_peers m)) as Hdom
      by (symmetry; apply (ow_dom _ Ht)).
    pose proof (lt_sorted_nodup _ (ow_sorted _ Ht)) as Hn. subst removed. revert Hpos Hdom Hn.
    generalize (om_keys (connected_peers m)) as keys.
    assert (forall keys, (forall k, k ∈ keys -> 0 <= k) -> NoDup keys ->
      removals sid ((fun '(_, p) => PeerRemoved (pr_sid_str p)) <$>
        omap (leaving check_heartbeat (peers m)) keys) =
      if decide (sid ∈ keys) then match life <$> peers m !! sid with
        Some O => [show_u64 sid] | _ => [] end else []) as Hkeys.
    { induction keys as [|k keys IH]; intros Hpos Hn; [done |].
      inversion Hn as [|? ? Hk Hn']; subst. specialize (IH ltac:(set_solver) Hn').
      cbn [omap list_omap]. unfold leaving at 1.
      destruct (peers m !! k) as [p|] eqn:E; cbn [mbind option_bind].
      - destruct (check_life k p (Hp _ _ E)) as (Hkeep & _ & Hs).
        unfold keep_value in Hkeep. destruct (check_heartbeat p) as [p' keep]. simpl in Hs.
        assert (keep = match life p with O => false | S _ => true end) as ->
          by (destruct keep, (life p); simpl in Hkeep; done).
        destruct (decide (k = sid)) as [->|Hne].
        + rewrite decide_False in IH by done. rewrite E, decide_True by set_solver. simpl.
          destruct (life p); [|done]. rewrite fmap_cons, removals_cons, IH.
          rewrite Hs. by rewrite decide_True.
        + rewrite (decide_ext _ (sid ∈ keys)) by set_solver. rewrite <- IH.
          destruct (life p); [|done]. rewrite fmap_cons, removals_cons, Hs. rewrite decide_False; [done |].
          intros Heq%show_u64_inj; [by subst | apply Hpos; set_solver | apply Hsid].
      - rewrite IH. destruct (decide (k = sid)) as [->|Hne].
        + rewrite E. by repeat case_decide.
        + by rewrite (decide_ext (sid ∈ k :: keys) (sid ∈ keys)) by set_solver. }
    intros keys Hpos Hdom Hn. rewrite Hkeys by done. case_decide as Hin; [done |].
    destruct (peers m !! sid); [|done]. exfalso. apply Hin, Hdom. by eexists.
Qed.

(** An operation that creates, feeds or drops the peer. *)
Definition touches (sid : Z) (op : pm_op) : Prop :=
  match op with
  | PDecode _ response _ => pw_session_id response = sid
  | PEnsure k _ | PDelete k => k = sid
  | PClear => True
  | _ => False
  end.

Definition is_monitor (op : pm_op) : Prop := match op with PMonitor => True | _ => False end.

#[local] Instance is_monitor_dec op : Decision (is_monitor op).
Proof. destruct op; apply _. Defined.

Definition monitors (ops : list pm_op) : nat := length (filter is_monitor ops).

Lemma update_same_fate sid k f (m : PeerDecodeManager A) :
  (forall p, life (f p) = life p) \/ k <> sid -> fate sid (update_peer k f m) = fate sid m.
Proof.
  intros H. unfold fate. rewrite lookup_update. case_decide as Hk; [|done]. destruct H as [H|?]; [|by subst].
  rewrite <- option_fmap_compose. apply option_fmap_ext. intros p. apply H.
Qed.

Lemma peer_new_wf vc sc sid uid aes vad (p : Peer A) :
  u_in 64 sid -> peer_new vc sc sid uid aes vad = Some p ->
  peer_wf sid p /\ life p = 3%nat /\ pr_user_id p = uid.
Proof.
  intros Hs H. unfold peer_new in H. destruct (new_decoders _ _ _ _) as [[[a v] sc']|]; simplify_eq/=.
  split; [split; done || (unfold u_in in *; simpl; lia) | done].
Qed.

Lemma ensure_peer_wf sid uid (m : PeerDecodeManager A) :
  u_in 64 sid -> pm_wf m -> pm_wf (ensure_peer sid uid m).1.
Proof.
  intros Hs Hwf. unfold ensure_peer, add_peer. destruct (om_contains_key _ _); [done |].
  destruct (peer_new _ _ _ _ _ _) as [p|] eqn:E; simpl; [|done].
  destruct (peer_new_wf _ _ _ _ _ _ _ Hs E) as [Hp _].
  set (q := match display_name_cache m !! uid with Some _ => _ | None => _ end).
  assert (peer_wf sid q) as Hq by (subst q; case_match; [destruct Hp; by split | done]).
  destruct Hwf as [Ht Hps]. split; simpl; [by apply om_insert_wf |].
  unfold om_insert. case_match; by apply map_Forall_insert_2.
Qed.

Lemma pm_decode_wf now response userid (m : PeerDecodeManager A) :
  pm_wf m -> pm_wf (pm_decode now response userid m).1.1.
Proof.
  intros Hwf. pose proof (pm_decode_shape now response userid m) as H.
  destruct (pm_decode now response userid m) as [[m' effects] r]. destruct H as [_ [->|H]]; [done |].
  destruct H as (p & q & Hp & -> & r' & Hsame & Hq). apply update_peer_wf; [|done].
  intros p' E Hp'. assert (p' = p) as -> by (unfold get_peer, om_get in Hp; congruence).
  destruct Hq as [->| ->]; [|apply on_activity_wf]; by apply (same_peer_wf _ p).
Qed.

(** Every operation keeps the table well formed. *)
Lemma pm_step_wf (m : PeerDecodeManager A) (op : pm_op) :
  pm_op_ok op -> pm_wf m -> pm_wf (pm_step m op).1.
Proof.
  intros Hop Hwf. destruct op as [now w u| |sid u|sid| |sid aes|sid v|u n|id c|id c|t|u];
    cbn [pm_step pm_op_ok] in *.
  - pose proof (pm_decode_wf now w u m Hwf). by destruct (pm_decode now w u m) as [[??]?].
  - by apply run_monitor_wf.
  - by apply ensure_peer_wf.
  - unfold delete_peer. rewrite om_remove_eq by apply Hwf. simpl. destruct Hwf as [Ht Hp].
    split; simpl; [by apply drop_key_wf | by apply map_Forall_delete].
  - split; simpl; [apply om_new_wf | apply map_Forall_empty].
  - unfold set_peer_aes. case_match; simpl; [|done]. apply update_peer_wf; [|done].
    intros q _ []; by split.
  - apply update_peer_wf; [|done]. intros p _ []; by split.
  - apply (name_peers_fold u n _ (m <| display_name_cache := _ |>) 0). destruct Hwf; by split.
  - unfold set_peer_video_canvas. repeat case_match; simpl; try done. apply update_peer_wf; [|done].
    intros p' _ []; by split.
  - unfold set_peer_screen_canvas. repeat case_match; simplify_eq/=; try done.
    all: try (apply update_peer_wf; [|done]; intros p' _ []; by split).
  - destruct Hwf; by split.
  - destruct Hwf; by split.
Qed.

(** An operation that does not touch a peer, the monitor apart, leaves its fate. *)
Lemma pm_step_fate sid (m : PeerDecodeManager A) (op : pm_op) :
  pm_wf m -> u_in 64 sid -> ~ touches sid op -> ~ is_monitor op ->
  let '(m', effects) := pm_step m op in fate sid m' = fate sid m /\ removals sid effects = [].
Proof.
  intros Hwf Hs Ht Hm. destruct op as [now w u| |k u|k| |k aes|k v|u n|id c|id c|t|u];
    cbn [pm_step touches is_monitor] in *; try done.
  - pose proof (pm_decode_shape now w u m) as H.
    destruct (pm_decode now w u m) as [[m' effects] r]. destruct H as [He H].
    split; [|by apply removals_none]. destruct H as [->|(p & q & _ & -> & _)]; [done |].
    apply update_same_fate. by right.
  - split; [|done]. unfold ensure_peer, add_peer. destruct (om_contains_key _ _); [done |].
    destruct (peer_new _ _ _ _ _ _); simpl; [|done]. unfold fate. simpl. unfold om_insert.
    case_match; simpl; by rewrite lookup_insert_ne.
  - unfold delete_peer. rewrite om_remove_eq by apply Hwf. split.
    + unfold fate. simpl. by rewrite lookup_delete_ne.
    + destruct (peers m !! k) as [p|] eqn:E; [|done]. rewrite removals_cons, decide_False; [done |].
      destruct (pmw_peers m Hwf _ _ E) as [Hk _ -> _ _]. intros He. by apply Ht, show_u64_inj; [|apply Hs|].
  - unfold set_peer_aes. case_match; [|done]. split; [|done]. apply update_same_fate. by left.
  - split; [|done]. apply update_same_fate. by left.
  - split; [|done]. unfold set_peer_display_name_by_user_id.
    destruct (name_peers_fold u n (sorted_keys m)
      (m <| display_name_cache := <[u := n]> (display_name_cache m) |>) sid) as [_ H];
      [destruct Hwf; by split | exact H].
  - unfold set_peer_video_canvas. repeat case_match; try done. split; [|done].
    apply update_same_fate. by left.
  - unfold set_peer_screen_canvas.
    destruct (get_peer id m) as [p|]; [|done]. destruct (set_canvas c (pr_screen p)) as [v|]; [|done].
    split; [apply update_same_fate; by left |].
    case_match; [apply removals_none, send_request_quiet | done].
Qed.

Lemma pm_run_wf (ops : list pm_op) (m : PeerDecodeManager A) :
  Forall pm_op_ok ops -> pm_wf m -> pm_wf (run pm_step m ops).1.
Proof.
  intros Hops Hwf. apply (run_invariant_on pm_step pm_op_ok pm_wf (fun _ => True)); try done.
  intros m1 op Hop H1. pose proof (pm_step_wf m1 op Hop H1). destruct (pm_step m1 op) as [m2 o].
  split; [done |]. by apply Forall_true.
Qed.

(** A run that does not touch a peer: it has lost one life per run of the monitor, and
    was reported removed once if it had too few. *)
Lemma pm_run_fate sid (ops : list pm_op) : forall m : PeerDecodeManager A,
  pm_wf m -> u_in 64 sid -> Forall pm_op_ok ops -> Forall (fun op => ~ touches sid op) ops ->
  forall n, fate sid m = Some n ->
  let '(m', effects) := run pm_step m ops in
  fate sid m' = (if decide (monitors ops <= n)%nat then Some (n - monitors ops)%nat else None) /\
  removals sid effects = if decide (monitors ops <= n)%nat then [] else [show_u64 sid].
Proof.
  intros m Hwf Hs Hok Ht.
  assert (Habs : forall (ops : list pm_op) (m : PeerDecodeManager A), pm_wf m ->
    Forall pm_op_ok ops -> Forall (fun op => ~ touches sid op) ops -> fate sid m = None ->
    let '(m', effects) := run pm_step m ops in fate sid m' = None /\ removals sid effects = []).
  { clear -Hs. induction ops as [|op ops IH]; intros m Hwf Hok Ht Hf; simpl; [done |].
    apply Forall_cons in Hok as [Hop Hok], Ht as [Hto Ht].
    pose proof (pm_step_wf m op Hop Hwf) as Hwf1.
    assert (let '(m', effects) := pm_step m op in fate sid m' = None /\ removals sid effects = []) as H1.
    { destruct (decide (is_monitor op)) as [Hm|Hm].
      - destruct op; try done. pose proof (run_monitor_fate sid m Hwf Hs) as H. rewrite Hf in H. done.
      - pose proof (pm_step_fate sid m op Hwf Hs Hto Hm) as H. by rewrite Hf in H. }
    destruct (pm_step m op) as [m1 o1]. destruct H1 as [Hf1 Ho1].
    specialize (IH m1 Hwf1 Hok Ht Hf1). destruct (run pm_step m1 ops) as [m2 o2].
    destruct IH as [Hf2 Ho2]. split; [done |]. by rewrite removals_app, Ho1, Ho2. }
  revert m Hwf. induction ops as [|op ops IH]; intros m Hwf n Hn; cbn [run].
  - change (monitors []) with 0%nat. rewrite !decide_True by lia. by rewrite Nat.sub_0_r.
  - apply Forall_cons in Hok as [Hop Hok], Ht as [Hto Ht].
    pose proof (pm_step_wf m op Hop Hwf) as Hwf1. destruct (decide (is_monitor op)) as [Hm|Hm].
    + assert (monitors (op :: ops) = S (monitors ops)) as ->
        by (unfold monitors; by rewrite filter_cons_True).
      destruct op; try done. cbn [pm_step] in *. pose proof (run_monitor_fate sid m Hwf Hs) as H.
      rewrite Hn in H. destruct (run_peer_monitor m) as [m1 o1]. destruct H as [Hf1 Ho1].
      destruct n as [|n].
      * specialize (Habs ops m1 Hwf1 Hok Ht Hf1). destruct (run pm_step m1 ops) as [m2 o2].
        destruct Habs as [-> Ho2]. rewrite !decide_False by lia. by rewrite removals_app, Ho1, Ho2.
      * specialize (IH Hok Ht m1 Hwf1 n Hf1). destruct (run pm_step m1 ops) as [m2 o2].
        destruct IH as [Hf2 Ho2]. rewrite removals_app, Ho1, Ho2, Hf2. simpl.
        by repeat case_decide; try lia.
    + assert (monitors (op :: ops) = monitors ops) as ->
        by (unfold monitors; by rewrite filter_cons_False).
      pose proof (pm_step_fate sid m op Hwf Hs Hto Hm) as H. destruct (pm_step m op) as [m1 o1].
      destruct H as [Hf1 Ho1]. rewrite Hn in Hf1. specialize (IH Hok Ht m1 Hwf1 n Hf1).
      destruct (run pm_step m1 ops) as [m2 o2]. destruct IH as [-> Ho2].
      by rewrite removals_app, Ho1, Ho2.
Qed.

(** The packet was accepted by the peer it belongs to. *)
Definition accepts (now : Z) (w : PacketWrapper) (userid : string) (m : PeerDecodeManager A) : Prop :=
  exists p, get_peer (pw_session_id w) m = Some p /\
            is_ok (peer_decode now w (init_context userid p)).2 = true.

Lemma accepted_fate now w userid (m : PeerDecodeManager A) :
  pm_wf m -> accepts now w userid m ->
  fate (pw_session_id w) (pm_decode now w userid m).1.1 = Some 3%nat.
Proof.
  intros Hwf (p & Hp & Hok). unfold pm_decode. rewrite Hp.
  pose proof (peer_decode_same now w (init_context userid p)) as Hsame.
  destruct (peer_decode _ _ _) as [[p1 effects] r]. destruct Hsame as [Hsame _].
  destruct r as [[[mtype st] kf]|e]; [|done].
  assert (fate (pw_session_id w) (update_peer (pw_session_id w) (fun _ => on_activity p1) m) = Some 3%nat)
    as E.
  { unfold fate. rewrite lookup_update, decide_True by done. unfold get_peer, om_get in Hp.
    rewrite Hp. simpl. unfold life. simpl.
    destruct (pmw_peers m Hwf _ _ Hp) as [_ _ _ Ha _].
    assert (0 <= pr_activity_count p1) as Ha1.
    { rewrite (sp_activity _ _ Hsame), (sp_activity _ _ (init_context_same userid p)). done. }
    unfold sat_add, u_max. by rewrite (proj2 (Z.ltb_lt _ _)) by lia. }
  by destruct (mtype =? HEARTBEAT).
Qed.

(** C13: the lifetime of a peer. After a packet of any kind that the peer accepted, in
    whatever state the table has reached, the peer survives exactly three further runs
    of the monitor during which it is silent, whatever happens to the other peers in
    between; the fourth removes it, and its removal is announced exactly once. *)
Theorem peer_lifetime (ops : list pm_op) now w userid (later : list pm_op) :
  Forall pm_op_ok ops -> Forall pm_op_ok later -> u_in 64 (pw_session_id w) ->
  Forall (fun op => ~ touches (pw_session_id w) op) later ->
  accepts now w userid (run pm_step pm_new ops).1 ->
  let '(m', effects) := run pm_step (pm_step (run pm_step pm_new ops).1 (PDecode now w userid)).1 later in
  (is_Some (get_peer (pw_session_id w) m') <-> (monitors later <= 3)%nat) /\
  removals (pw_session_id w) effects =
    if decide (monitors later <= 3)%nat then [] else [show_u64 (pw_session_id w)].
Proof.
  intros Hops Hlater Hs Ht Hacc.
  assert (pm_wf (@pm_new A)) as Hnew by (split; [apply om_new_wf | apply map_Forall_empty]).
  pose proof (pm_run_wf ops pm_new Hops Hnew) as Hwf. set (m := (run pm_step pm_new ops).1) in *.
  pose proof (accepted_fate now w userid m Hwf Hacc) as Hf.
  pose proof (pm_step_wf m (PDecode now w userid) I Hwf) as Hwf1. cbn [pm_step] in *.
  destruct (pm_decode now w userid m) as [[m1 e1] r1]. simpl in *.
  pose proof (pm_run_fate (pw_session_id w) later m1 Hwf1 Hs Hlater Ht 3 Hf) as H.
  destruct (run pm_step m1 later) as [m2 e2]. destruct H as [Hf2 He]. split; [|done].
  unfold fate, get_peer, om_get in *. case_decide; destruct (peers m2 !! _); simpl in *; done.
Qed.

(** ** Requests for key frames *)

(** A frame of a stream: when it arrived, its number, its type. *)
Record seen : Type := mkSeen { sn_time : Z; sn_seq : Z; sn_type : string }.

Definition is_key (f : seen) : Prop := sn_type f = "key"%string.

(** Frames were lost right before [f]; histories list the newest frame first. *)
Definition jumps (f : seen) (older : list seen) : Prop :=
  match older with [] => False | g :: _ => sn_seq g + 1 < sn_seq f end.

(** Every loss in the history was followed by a key frame. *)
Definition recovered (h : list seen) : Prop :=
  forall newer g older, h = newer ++ g :: older -> jumps g older -> Exists is_key newer.

(** The loss that is still open: the first one the receiver has not recovered from. *)
Definition open_loss (h : list seen) (t : Z) : Prop :=
  exists newer f older, h = newer ++ f :: older /\ sn_time f = t /\ jumps f older /\
    Forall (fun g => ~ is_key g) newer /\ (is_key f \/ recovered older).

Lemma recovered_cons x h : recovered (x :: h) <-> ~ jumps x h /\ (is_key x \/ recovered h).
Proof.
  split.
  - intros H. split.
    + intros Hj. specialize (H [] x h eq_refl Hj). by inversion H.
    + destruct (decide (sn_type x = "key"%string)) as [|Hk]; [by left |]. right.
      intros newer g older -> Hj. specialize (H (x :: newer) g older eq_refl Hj).
      by apply Exists_cons in H as [H|H].
  - intros [Hj Hr] [|y newer] g older E Hg; simplify_eq/=; [done |].
    destruct Hr as [Hk|Hr]; [by apply Exists_cons_hd |]. apply Exists_cons_tl. by eapply Hr.
Qed.

Lemma open_loss_cons x h t :
  open_loss (x :: h) t <->
  (jumps x h /\ (is_key x \/ recovered h) /\ sn_time x = t) \/ (~ is_key x /\ open_loss h t).
Proof.
  split.
  - intros ([|y newer] & f & older & E & Ht & Hj & Hn & Hf); simplify_eq/=; [by left |].
    right. apply Forall_cons in Hn as [Hy Hn]. split; [done |]. by exists newer, f, older.
  - intros [(Hj & Hr & Ht)|(Hk & newer & f & older & -> & Ht & Hj & Hn & Hf)].
    + by exists [], x, h.
    + exists (x :: newer), f, older. split_and!; try done. by apply Forall_cons.
Qed.

Definition fresh_track : StreamTrack := mkStreamTrack None None 0.

(** The tracker over a history, with the times of its requests. *)
Definition track_all (h : list seen) : StreamTrack * list Z :=
  foldr (fun f '(s, requests) =>
    let '(s', due) := track_stream (sn_time f) (sn_seq f) (sn_type f) s in
    (s', if due then sn_time f :: requests else requests)) (fresh_track, []) h.

Definition seen_ok (f : seen) : Prop := 0 <= sn_seq f < u_max 64.

(** The new time of the gap in [track_stream]. *)
Definition next_gap (key jump : bool) (now : Z) (gap : option Z) : option Z :=
  let gap := if key then None else gap in
  if jump then (match gap with None => Some now | Some _ => gap end) else gap.

Lemma next_gap_none key jump now gap :
  next_gap key jump now gap = None <-> jump = false /\ (key = true \/ gap = None).
Proof. unfold next_gap. destruct key, jump, gap; naive_solver. Qed.

Lemma next_gap_some key jump now gap t :
  next_gap key jump now gap = Some t <->
  (jump = true /\ (key = true \/ gap = None) /\ now = t) \/ (key = false /\ gap = Some t).
Proof. unfold next_gap. destruct key, jump, gap; naive_solver. Qed.

#[local] Instance is_key_dec f : Decision (is_key f).
Proof. unfold is_key. apply _. Defined.

Lemma track_all_spec (h : list seen) :
  Forall seen_ok h ->
  let '(s, requests) := track_all h in
  st_last_seq s = sn_seq <$> head h /\ st_last_req s = default 0 (head requests) /\
  (st_gap_at s = None <-> recovered h) /\ (forall t, st_gap_at s = Some t <-> open_loss h t).
Proof.
  induction 1 as [|x h Hx Hh IH]; cbn [track_all foldr].
  - split_and!; try done.
    + split; [|done]. intros _ [|y newer] g older E; done.
    + intros t. split; [done |]. intros ([|y newer] & f & older & E & _); done.
  - unfold track_all in IH. destruct (foldr _ _ h) as [s requests]. destruct IH as (Hl & Hq & Hn & Ht).
    unfold track_stream. rewrite Hl.
    assert (jumps x h <-> match sn_seq <$> head h with
              Some prev => (prev +u64 1 <? sn_seq x) = true | None => False end) as Hj.
    { destruct h as [|g h]; simpl; [done |]. apply Forall_cons in Hh as [Hg _].
      unfold seen_ok, u_max in *. rewrite wrap_u_small by (unfold u_in; lia). by rewrite Z.ltb_lt. }
    set (jump := match sn_seq <$> head h with Some prev => prev +u64 1 <? sn_seq x | None => false end).
    assert (jumps x h <-> jump = true) as Hj'
      by (rewrite Hj; subst jump; destruct (sn_seq <$> head h); split; done).
    set (gap := match sn_seq <$> head h with Some _ => _ | None => _ end).
    assert (gap = next_gap (bool_decide (is_key x)) jump (sn_time x) (st_gap_at s)) as Hgap
      by (subst gap jump; unfold next_gap, is_key; by destruct (sn_seq <$> head h)).
    set (due := match gap with Some _ => _ | None => false end).
    split_and!; [done | by destruct due | |]; simpl.
    + by rewrite Hgap, next_gap_none, recovered_cons, Hj', <- Hn, not_true_iff_false, bool_decide_eq_true.
    + intros t. by rewrite Hgap, next_gap_some, open_loss_cons, Hj', <- Hn, <- Ht, bool_decide_eq_true,
        bool_decide_eq_false.
Qed.

Definition track_of (mtype : Z) (p : Peer A) : StreamTrack :=
  if mtype =? VIDEO then video_track p else screen_track p.

(** The frame of a stream that a packet brings to a peer. *)
Definition frame_seen (mtype now : Z) (w : PacketWrapper) (p : Peer A) : option seen :=
  match open_packet w p with
  | Ok (ty, packet) =>
      if ty =? mtype then vm ← video_metadata packet; Some (mkSeen now (vm_sequence vm) (frame_type packet))
      else None
  | Err _ => None
  end.

(** A peer in the course of its life, with the frames of a stream it was given, newest
    first: packets of any kind are decoded, and between them anything is changed that is
    not the tracking of the stream (visibility, keys, decoders, canvases, names, ...). *)
Inductive lives (mtype : Z) : list seen -> Peer A -> Prop :=
| lives_new p : track_of mtype p = fresh_track -> lives mtype [] p
| lives_change h p p' : lives mtype h p -> track_of mtype p' = track_of mtype p -> lives mtype h p'
| lives_decode h p now w : lives mtype h p ->
    lives mtype (option_list (frame_seen mtype now w p) ++ h) (peer_decode now w p).1.1.

(** When a request falls due: a loss is open and was noticed at least a second ago, and the
    last time a request fell due is at least half a second ago. *)
Definition due_at (h : list seen) (now : Z) (dues : list Z) : Prop :=
  (exists t, open_loss h t /\ KEYFRAME_REQUEST_TIMEOUT_MS <= sat_sub now t) /\
  KEYFRAME_REQUEST_MIN_INTERVAL_MS <= sat_sub now (default 0 (head dues)).

(** The times, newest first, at which requests fell due in a history. *)
Inductive due_times : list seen -> list Z -> Prop :=
| due_none : due_times [] []
| due_now f h dues : due_times h dues -> due_at (f :: h) (sn_time f) dues -> due_times (f :: h) (sn_time f :: dues)
| due_not f h dues : due_times h dues -> ~ due_at (f :: h) (sn_time f) dues -> due_times (f :: h) dues.

(** The camera of a peer is asked for when it is on, or not known to be off, and its tile
    is visible; a shared screen always. *)
Definition watched (mtype : Z) (p : Peer A) : Prop :=
  mtype = VIDEO -> pr_visible p = true /\ (pr_video_enabled p = true \/ pr_has_received_heartbeat p = false).

Definition sent_packets (effects : list peer_effect) : list PacketWrapper :=
  omap (fun e => match e with SendPacket q => Some q | _ => None end) effects.

Lemma track_sequence_track mtype ty now packet (p : Peer A) :
  mtype = VIDEO \/ mtype = SCREEN -> ty = VIDEO \/ ty = SCREEN ->
  let '(p', r) := track_sequence now ty packet p in
  pr_video_enabled p' = pr_video_enabled p /\ pr_screen_enabled p' = pr_screen_enabled p /\
  pr_has_received_heartbeat p' = pr_has_received_heartbeat p /\ pr_visible p' = pr_visible p /\
  pr_user_id p' = pr_user_id p /\
  match (if ty =? mtype then video_metadata packet else None) with
  | Some vm =>
      let '(s, due) := track_stream now (vm_sequence vm) (frame_type packet) (track_of mtype p) in
      track_of mtype p' = s /\ r = if due then Some mtype else None
  | None => track_of mtype p' = track_of mtype p /\ (ty = mtype -> r = None)
  end.
Proof.
  intros Hm Ht. unfold track_sequence, track_of.
  destruct (video_metadata packet) as [vm|]; [|destruct (ty =? mtype); done].
  destruct Hm as [-> | ->], Ht as [-> | ->]; rewrite ?Z.eqb_refl;
    change (SCREEN =? VIDEO) with false; change (VIDEO =? SCREEN) with false; cbv iota;
    destruct (track_stream now _ _ _) as [[] due]; simpl; split_and!; try done.
Qed.

Lemma track_sequence_stream mtype now packet vm (p : Peer A) :
  mtype = VIDEO \/ mtype = SCREEN -> video_metadata packet = Some vm ->
  let '(p', r) := track_sequence now mtype packet p in
  let '(s, due) := track_stream now (vm_sequence vm) (frame_type packet) (track_of mtype p) in
  track_of mtype p' = s /\ r = if due then Some mtype else None.
Proof.
  intros Hm E. pose proof (track_sequence_track mtype mtype now packet p Hm Hm) as H. rewrite Z.eqb_refl, E in H.
  destruct (track_sequence now mtype packet p) as [p' r]. by destruct H as (_ & _ & _ & _ & _ & H).
Qed.

(** What one packet does to the tracking of a stream. *)
Lemma decode_track mtype now w (p : Peer A) :
  mtype = VIDEO \/ mtype = SCREEN ->
  track_of mtype (peer_decode now w p).1.1 =
    match frame_seen mtype now w p with
    | Some f => (track_stream now (sn_seq f) (sn_type f) (track_of mtype p)).1
    | None => track_of mtype p
    end.
Proof.
  intros Hm. unfold peer_decode, frame_seen. destruct (open_packet w p) as [[ty packet]|e]; [|done].
  assert (forall t, (t = AUDIO \/ t = HEARTBEAT \/ t = RTT \/ t = KEYFRAME_REQUEST) -> (t =? mtype) = false) as Hother
    by (intros t; destruct Hm as [-> | ->]; intros [->|[->|[->| ->]]]; done).
  destruct (Z.eqb_spec ty VIDEO) as [->|]; [|destruct (Z.eqb_spec ty AUDIO) as [->|];
    [|destruct (Z.eqb_spec ty SCREEN) as [->|]; [|destruct (Z.eqb_spec ty HEARTBEAT) as [->|];
    [|destruct (Z.eqb_spec ty RTT) as [->|]; [|destruct (Z.eqb_spec ty KEYFRAME_REQUEST) as [->|]]]]]].
  - unfold decode_video. pose proof (track_sequence_track mtype VIDEO now packet p Hm (or_introl eq_refl)) as H.
    destruct (track_sequence now VIDEO packet p) as [p1 r]. destruct H as (_ & _ & _ & _ & _ & H).
    match goal with |- track_of _ ?x.1.1 = _ => assert (track_of mtype x.1.1 = track_of mtype p1) as -> end.
    { destruct (_ && _); [done|]. destruct (pr_video_enabled p1); simpl; destruct (pr_visible p1); simpl;
        try destruct (video_decode _ _ _); done. }
    destruct (VIDEO =? mtype); [|by destruct H]. destruct (video_metadata packet) as [vm|];
      cbn [mbind option_bind sn_seq sn_type]; [|by destruct H].
    destruct (track_stream _ _ _ _). by destruct H.
  - rewrite Hother by auto. unfold decode_audio. destruct (_ && _); [done|].
    destruct (pr_audio_enabled p); simpl; destruct (audio_decode _ _) as [? []]; done.
  - unfold decode_screen. pose proof (track_sequence_track mtype SCREEN now packet p Hm (or_intror eq_refl)) as H.
    destruct (track_sequence now SCREEN packet p) as [p1 r]. destruct H as (_ & _ & _ & _ & _ & H).
    match goal with |- track_of _ ?x.1.1 = _ => assert (track_of mtype x.1.1 = track_of mtype p1) as -> end.
    { destruct (pr_screen_enabled p1); simpl; destruct (pr_visible p1); simpl; try done;
        destruct (video_decode _ _ _); by destruct r. }
    destruct (SCREEN =? mtype); [|by destruct H]. destruct (video_metadata packet) as [vm|];
      cbn [mbind option_bind sn_seq sn_type]; [|by destruct H].
    destruct (track_stream _ _ _ _). by destruct H.
  - rewrite Hother by auto. unfold decode_heartbeat, when. destruct (heartbeat_metadata packet); [|done].
    repeat case_match; done.
  - by rewrite Hother by auto.
  - by rewrite Hother by auto.
  - destruct Hm as [-> | ->]; [destruct (Z.eqb_spec ty VIDEO) | destruct (Z.eqb_spec ty SCREEN)]; done.
Qed.

Lemma frame_seen_time mtype now w (p : Peer A) f : frame_seen mtype now w p = Some f -> sn_time f = now.
Proof.
  unfold frame_seen. destruct (open_packet w p) as [[ty packet]|]; [|done]. destruct (ty =? mtype); [|done].
  destruct (video_metadata packet); simpl; [|done]. by intros [= <-].
Qed.

Lemma lives_track mtype h (p : Peer A) :
  mtype = VIDEO \/ mtype = SCREEN -> lives mtype h p -> track_of mtype p = (track_all h).1.
Proof.
  intros Hm. induction 1 as [p Hp|h p p' _ IH E|h p now w _ IH]; [done | by rewrite E |].
  rewrite (decode_track mtype now w p Hm).
  destruct (frame_seen mtype now w p) as [f|] eqn:Ef; [|done].
  change (option_list (Some f) ++ h) with (f :: h).
  rewrite <- (frame_seen_time _ _ _ _ _ Ef), IH. unfold track_all. cbn [foldr]. destruct (foldr _ _ h) as [s dues].
  cbn [fst]. by destruct (track_stream _ _ _ s).
Qed.

(** The tracker decides as the reference does. *)
Lemma track_due f h : Forall seen_ok (f :: h) ->
  (track_stream (sn_time f) (sn_seq f) (sn_type f) (track_all h).1).2 = true <->
  due_at (f :: h) (sn_time f) (track_all h).2.
Proof.
  intros Hok. pose proof (track_all_spec _ Hok) as Hx. pose proof (track_all_spec _ (Forall_inv_tail Hok)) as H0.
  unfold track_all in Hx, H0 |- *. cbn [foldr] in Hx. destruct (foldr _ _ h) as [s dues].
  destruct H0 as (_ & Hq & _). unfold track_stream in *. cbn [fst snd] in *.
  set (gap := match st_last_seq _ with Some _ => _ | None => _ end) in *.
  destruct Hx as (_ & _ & _ & Hopen). cbn [st_gap_at] in *. unfold due_at.
  setoid_rewrite <- Hopen. rewrite <- Hq. destruct gap as [t|]; cbv beta iota.
  - rewrite andb_true_iff, !Z.leb_le. split; [|intros [(t' & [= <-] & ?) ?]; done]. intros []. eauto.
  - split; [done |]. intros [(t & ? & _) _]. done.
Qed.

Lemma due_times_unique h dues dues' : due_times h dues -> due_times h dues' -> dues = dues'.
Proof.
  intros H. revert dues'. induction H as [|f h dues _ IH Hd|f h dues _ IH Hd]; inversion 1 as [|? ? ds H1 H2|? ? ds H1 H2]; subst;
    [done|..]; rewrite (IH _ H1) in *; done.
Qed.

Lemma due_times_track h : Forall seen_ok h -> due_times h (track_all h).2.
Proof.
  intros Hok. induction h as [|f h IH]; [constructor |]. pose proof (track_due f h Hok) as Hd.
  specialize (IH (Forall_inv_tail Hok)). unfold track_all in *. cbn [foldr]. destruct (foldr _ _ h) as [s dues].
  cbn [fst snd] in *. destruct (track_stream _ _ _ s) as [s' []]; cbn [fst snd] in *.
  - apply due_now; [done | by apply Hd].
  - apply due_not; [done |]. intros H. by apply Hd in H.
Qed.

Lemma sent_app xs ys : sent_packets (xs ++ ys) = sent_packets xs ++ sent_packets ys.
Proof. apply omap_app. Qed.

(** The request that a packet of a stream returns. *)
Lemma decode_request mtype now w (p : Peer A) packet :
  mtype = VIDEO \/ mtype = SCREEN -> open_packet w p = Ok (mtype, packet) ->
  let '(p', effects, r) := peer_decode now w p in
  sent_packets effects = [] /\ pr_user_id p' = pr_user_id p /\ exists status rq, r = Ok (mtype, status, rq) /\
    (rq = Some mtype \/ rq = None) /\
    (rq = Some mtype <-> (track_sequence now mtype packet p).2 = Some mtype /\ watched mtype p).
Proof.
  intros Hm Ho. unfold peer_decode. rewrite Ho. unfold watched.
  pose proof (track_sequence_track mtype mtype now packet p Hm Hm) as H.
  assert ((track_sequence now mtype packet p).2 = Some mtype \/ (track_sequence now mtype packet p).2 = None) as Hr.
  { destruct (track_sequence now mtype packet p) as [p1 r]. destruct H as (_ & _ & _ & _ & _ & H).
    rewrite Z.eqb_refl in H. destruct (video_metadata packet) as [vm|]; [|right; by apply H].
    destruct (track_stream _ _ _ _) as [s []]; destruct H as [_ ->]; auto. }
  destruct Hm as [-> | ->]; [rewrite Z.eqb_refl; unfold decode_video |
    change (SCREEN =? VIDEO) with false; change (SCREEN =? AUDIO) with false; rewrite Z.eqb_refl; unfold decode_screen];
    destruct (track_sequence now _ packet p) as [p1 r]; destruct H as (E1 & E2 & E3 & E4 & E5 & _); simpl in Hr |- *;
    rewrite <- E1, <- E3, <- E4, <- E5.
  - destruct (pr_video_enabled p1), (pr_has_received_heartbeat p1), (pr_visible p1) eqn:Ev; simpl; rewrite ?Ev; simpl;
      try destruct (video_decode _ _ _); (split_and!; [done | done |]; do 2 eexists; split; [done|]; naive_solver).
  - destruct (pr_screen_enabled p1), (pr_visible p1) eqn:Ev; simpl; rewrite ?Ev; simpl; try destruct (video_decode _ _ _);
      destruct Hr as [-> | ->]; simpl;
      (split_and!; [done | done |]; do 2 eexists; split; [done|]; split; [naive_solver | split; [|naive_solver]; intros Hx; split; [done|]; discriminate || done]).
Qed.

(** C23: a key frame is asked for at exactly the right frames. A peer was given frames of its
    camera or screen in any order and at any times, and whatever else happened to it; the
    packet with the next frame makes the manager send the request for a key frame of that
    stream if and only if the request falls due and the stream is watched, and no packet
    otherwise. It falls due when a loss is open (some frame, be it a key frame, came after
    skipped numbers, and no key frame has come after it) that was noticed at least a second
    ago, and the last time one fell due, whether it was sent or dropped because the stream
    was not watched, is at least half a second ago. *)
Theorem keyframe_requested_iff (m : PeerDecodeManager A) mtype h (p : Peer A) now w packet vm userid :
  mtype = VIDEO \/ mtype = SCREEN -> get_peer (pw_session_id w) m = Some p -> lives mtype h p ->
  open_packet w p = Ok (mtype, packet) -> video_metadata packet = Some vm ->
  Forall seen_ok (mkSeen now (vm_sequence vm) (frame_type packet) :: h) ->
  exists dues, (forall ds, due_times h ds <-> ds = dues) /\
    let due := due_at (mkSeen now (vm_sequence vm) (frame_type packet) :: h) now dues in
    let sent := sent_packets (pm_decode now w userid m).1.2 in
    (due /\ watched mtype p -> sent = sent_packets (send_keyframe_request (pr_user_id p) mtype m)) /\
    (~ (due /\ watched mtype p) -> sent = []).
Proof.
  intros Hm Hp Hl Ho Hv Hok. exists (track_all h).2. split.
  { intros ds. split; [|intros ->; by apply due_times_track, (Forall_inv_tail Hok)].
    intros H. eapply due_times_unique; [exact H|]. by apply due_times_track, (Forall_inv_tail Hok). }
  set (f := mkSeen now _ _) in *. pose proof (track_due f h Hok) as Hd. cbn [sn_time sn_seq sn_type f] in Hd.
  set (q := init_context userid p).
  assert (open_packet w q = Ok (mtype, packet) /\ track_of mtype q = track_of mtype p /\ pr_user_id q = pr_user_id p /\
    (watched mtype q <-> watched mtype p)) as (Hoq & Htq & Huq & Hwq)
    by (unfold q, init_context; destruct (pr_context_initialized p); done).
  pose proof (decode_request mtype now w q packet Hm Hoq) as H.
  pose proof (track_sequence_track mtype mtype now packet q Hm Hm) as Ht. rewrite Z.eqb_refl, Hv, Htq, (lives_track mtype h p Hm Hl) in Ht.
  unfold pm_decode. rewrite Hp. fold q. destruct (peer_decode now w q) as [[p1 effects] r].
  destruct H as (Hs & Hu & status & rq & -> & Hrq & Hiff).
  destruct (track_sequence now mtype packet q) as [q1 r1]. destruct Ht as (_ & _ & _ & _ & _ & Ht).
  destruct (track_stream now _ _ _) as [s due]. destruct Ht as [_ ->]. cbn [snd] in Hd, Hiff.
  assert (rq = Some mtype <-> due_at (f :: h) now (track_all h).2 /\ watched mtype p) as Hreq.
  { rewrite Hiff, Hwq, <- Hd. destruct due; split; intros [? ?]; done. }
  assert ((mtype =? HEARTBEAT) = false) as -> by (by destruct Hm as [-> | ->]).
  cbn zeta. cbn [fst snd]. rewrite !sent_app, Hs. simpl.
  match goal with |- context [sent_packets (if ?b then [TrackFrame ?x ?y ?z] else [])] =>
    assert (sent_packets (if b then [TrackFrame x y z] else []) = []) as -> by (by destruct b) end.
  match goal with |- context [sent_packets (if ?b then [FirstFrame ?x ?y] else [])] =>
    assert (sent_packets (if b then [FirstFrame x y] else []) = []) as -> by (by destruct b) end.
  simpl. split; intros Hx.
  - apply Hreq in Hx as ->. by rewrite Hu, Huq.
  - destruct Hrq as [-> | ->]; [|done]. destruct Hx. by apply Hreq.
Qed.

(** ** From encoder to decoder *)

(** The receiver can open what the sender encrypts. *)
Definition keys_agree (aes : Aes128State) (p : Peer A) : Prop :=
  pr_aes p = Some aes \/ (pr_aes p = None /\ aes_enabled aes = false).

(** The frame an encoded chunk becomes. *)
Definition frame_of_chunk (codec : Z) (chunk : EncodedVideoChunk) (sequence : Z) : option VideoFrame :=
  c ← frame_codec_of codec;
  Some (mkVideoFrame sequence (if ck_key chunk then KeyFrame else DeltaFrame) c (ck_bytes chunk)
          (ck_timestamp chunk)).

(** The packet a chunk is sent in. *)
Definition packet_of_chunk (mtype codec : Z) (chunk : EncodedVideoChunk) (sequence : Z)
    : MediaPacket :=
  mkMediaPacket mtype [] (ck_bytes chunk) (chunk_type_str (ck_key chunk)) (ck_timestamp chunk)
    (default (F64.of_Z 0) (ck_duration chunk)) None (Some (mkVideoMetadata sequence codec)) None.

Lemma transform_chunk_inv mtype codec chunk sequence buffer uid aes w :
  transform_chunk mtype codec true chunk sequence buffer uid aes = Some w ->
  exists data, write_media (packet_of_chunk mtype codec chunk sequence) = Some data /\
    aes_encrypt aes data = Some (pw_data w) /\ packet_type w = MEDIA /\ pw_user_id w = as_bytes uid.
Proof.
  unfold transform_chunk. rewrite take_app_length. case_bool_decide; [done |].
  intros (data & Hw & (e & He & [= <-])%bind_Some)%bind_Some. exists data. simpl. done.
Qed.

Lemma open_chunk {mlaws : MediaWireLaws} {claws : CipherLaws} mtype codec chunk sequence buffer uid
    aes w sid p :
  aes_wf aes -> keys_agree aes p -> media_type_value mtype = Some mtype ->
  transform_chunk mtype codec true chunk sequence buffer uid aes = Some w ->
  open_packet (w <| pw_session_id := sid |>) p = Ok (mtype, packet_of_chunk mtype codec chunk sequence).
Proof.
  intros Haes Hkeys Hm (data & Hw & He & Hty & _)%transform_chunk_inv. unfold open_packet.
  simpl. rewrite Hty. cbn [packet_type_value].
  change (packet_type_value MEDIA) with (Some MEDIA). cbv iota beta. rewrite Z.eqb_refl. simpl.
  assert (parse_media data = Some (packet_of_chunk mtype codec chunk sequence)) as Hp
    by (by apply parse_write_media).
  destruct Hkeys as [->|[-> Hoff]].
  - rewrite (aes_round_trip aes data _ Haes He). unfold parse_media_packet. rewrite Hp. simpl.
    by rewrite Hm.
  - unfold aes_encrypt in He. rewrite Hoff in He. injection He as <-.
    unfold parse_media_packet. rewrite Hp. simpl. by rewrite Hm.
Qed.

Lemma video_decode_chunk now mtype codec chunk sequence frame v :
  (forall msg, can_post msg = true) -> frame_of_chunk codec chunk sequence = Some frame ->
  video_decode now (packet_of_chunk mtype codec chunk sequence) v =
    (mkVideoPeerDecoder (mkWasmDecoder (worker (vp_decoder v) ++ [DecodeFrame (fb_new frame now)]))
       (vp_canvas v), mkDecodeStatus true false).
Proof.
  intros Hpost (c & Hc & [= <-])%bind_Some. unfold video_decode. simpl. rewrite Hc.
  unfold push_frame, post_message. rewrite Hpost.
  assert (get_frame_type (packet_of_chunk mtype codec chunk sequence) =
          if ck_key chunk then KeyFrame else DeltaFrame) as -> by (by destruct chunk as [? []]).
  done.
Qed.

(** The decoder of a peer for a stream, and whether it is willing to decode it. *)
Definition stream_decoder (mtype : Z) (p : Peer A) : VideoPeerDecoder :=
  if mtype =? VIDEO then pr_video p else pr_screen p.

Definition willing (mtype : Z) (p : Peer A) : Prop :=
  pr_visible p = true /\
  (mtype = VIDEO -> pr_video_enabled p = true \/ pr_has_received_heartbeat p = false).

Lemma track_sequence_frame now mtype packet (p : Peer A) :
  let q := (track_sequence now mtype packet p).1 in
  pr_video q = pr_video p /\ pr_screen q = pr_screen p /\ pr_visible q = pr_visible p /\
  pr_video_enabled q = pr_video_enabled p /\
  pr_has_received_heartbeat q = pr_has_received_heartbeat p.
Proof. unfold track_sequence. by repeat case_match. Qed.

Lemma decode_video_frame now codec chunk sequence frame (p : Peer A) :
  (forall msg, can_post msg = true) -> willing VIDEO p ->
  frame_of_chunk codec chunk sequence = Some frame ->
  let '(q, _, r) := decode_video now (packet_of_chunk VIDEO codec chunk sequence) p in
  is_ok r = true /\
  worker (vp_decoder (pr_video q)) = worker (vp_decoder (pr_video p)) ++ [DecodeFrame (fb_new frame now)].
Proof.
  intros Hpost [Hv Hon] Hf. unfold decode_video.
  pose proof (track_sequence_frame now VIDEO (packet_of_chunk VIDEO codec chunk sequence) p) as H.
  destruct (track_sequence _ _ _ _) as [p1 kf]. destruct H as (E1 & _ & E3 & E4 & E5). simpl in *.
  specialize (Hon eq_refl). rewrite E4, E5.
  assert (negb (pr_video_enabled p) && pr_has_received_heartbeat p = false) as ->
    by (destruct Hon as [-> | ->]; destruct (pr_video_enabled p); done).
  destruct (pr_video_enabled p); simpl; rewrite E3, Hv; simpl;
    rewrite (video_decode_chunk _ _ _ _ _ frame) by done; simpl; by rewrite E1.
Qed.

Lemma decode_screen_frame now codec chunk sequence frame (p : Peer A) :
  (forall msg, can_post msg = true) -> willing SCREEN p ->
  frame_of_chunk codec chunk sequence = Some frame ->
  let '(q, _, r) := decode_screen now (packet_of_chunk SCREEN codec chunk sequence) p in
  is_ok r = true /\
  worker (vp_decoder (pr_screen q)) = worker (vp_decoder (pr_screen p)) ++ [DecodeFrame (fb_new frame now)].
Proof.
  intros Hpost [Hv _] Hf. unfold decode_screen.
  pose proof (track_sequence_frame now SCREEN (packet_of_chunk SCREEN codec chunk sequence) p) as H.
  destruct (track_sequence _ _ _ _) as [p1 kf]. destruct H as (_ & E2 & E3 & _ & _). simpl in *.
  assert (forall x : Peer A, pr_screen (proactive_request now kf x).1 = pr_screen x) as Hpro
    by (intros x; unfold proactive_request; by repeat case_match).
  destruct (pr_screen_enabled p1); simpl; rewrite E3, Hv; simpl;
    rewrite (video_decode_chunk _ _ _ _ _ frame) by done;
    (match goal with |- context [proactive_request now kf ?x] =>
       pose proof (Hpro x) as Hx; destruct (proactive_request now kf x) as [p3 kf'] end);
    simpl in *; rewrite Hx; simpl; by rewrite E2.
Qed.

(** C24: a frame makes the journey intact. A chunk the camera or screen encoder of one
    client puts into a packet is handed, by the peer table of a client that holds the
    same key, to the worker of the right stream as one frame with the same bytes,
    sequence number, type, codec and timestamp, whatever session id the server put
    into the packet; the receiver only has to show the tile and, for the camera, not
    to have been told that the camera is off. *)
Theorem frame_round_trip {mlaws : MediaWireLaws} {claws : CipherLaws}
    mtype firefox chunk sequence buffer uid aes w sid now (p : Peer A) :
  mtype = VIDEO \/ mtype = SCREEN -> (forall msg, can_post msg = true) ->
  aes_wf aes -> keys_agree aes p -> willing mtype p ->
  transform_chunk mtype (get_video_codec firefox) true chunk sequence buffer uid aes = Some w ->
  exists frame,
    frame_of_chunk (get_video_codec firefox) chunk sequence = Some frame /\
    let '(q, _, r) := peer_decode now (w <| pw_session_id := sid |>) p in
    is_ok r = true /\
    worker (vp_decoder (stream_decoder mtype q)) =
      worker (vp_decoder (stream_decoder mtype p)) ++ [DecodeFrame (fb_new frame now)].
Proof.
  intros Hm Hpost Haes Hkeys Hw Ht.
  assert (exists frame, frame_of_chunk (get_video_codec firefox) chunk sequence = Some frame) as [frame Hf]
    by (unfold frame_of_chunk; destruct firefox; by eexists).
  exists frame. split; [done |]. unfold peer_decode.
  assert (media_type_value mtype = Some mtype) as Hmv by (by destruct Hm; subst).
  rewrite (open_chunk _ _ _ _ _ _ _ _ _ _ Haes Hkeys Hmv Ht).
  destruct Hm as [-> | ->]; cbn [Z.eqb VIDEO AUDIO SCREEN Pos.eqb].
  - exact (decode_video_frame now _ chunk sequence frame p Hpost Hw Hf).
  - exact (decode_screen_frame now _ chunk sequence frame p Hpost Hw Hf).
Qed.

(** A key frame that arrives right after a loss does not end the recovery: the
    receiver marks a new gap at the key frame itself, and although every later frame
    follows on from it, the next frame a second later requests another key frame. *)
Theorem keyframe_reopens_gap (p : Peer A) prev seq t t' key_packet next_packet :
  video_track p = mkStreamTrack (Some prev) None 0 -> 0 <= prev -> prev + 1 < seq -> seq + 1 < u_max 64 ->
  video_metadata key_packet = Some (mkVideoMetadata seq VP8) -> frame_type key_packet = "key"%string ->
  video_metadata next_packet = Some (mkVideoMetadata (seq + 1) VP8) ->
  frame_type next_packet = "delta"%string -> 0 <= t -> t + 1000 <= t' ->
  let p1 := (track_sequence t VIDEO key_packet p).1 in
  (track_sequence t' VIDEO next_packet p1).2 = Some VIDEO.
Proof.
  intros Hp H0 Hlt Hmax Hkm Hkt Hnm Hnt Ht Ht'.
  assert (forall x, 0 <= x < u_max 64 -> x +u64 1 = x + 1) as Hwrap
    by (intros x Hx; apply wrap_u_small; unfold u_in, u_max in *; lia).
  pose proof (track_sequence_stream VIDEO t key_packet _ p (or_introl eq_refl) Hkm) as H1.
  destruct (track_sequence t VIDEO key_packet p) as [p1 r1]. cbn [fst].
  pose proof (track_sequence_stream VIDEO t' next_packet _ p1 (or_introl eq_refl) Hnm) as H2.
  destruct (track_sequence t' VIDEO next_packet p1) as [p2 r2]. cbn [snd].
  unfold track_of in *. rewrite Z.eqb_refl in *. rewrite Hp, Hkt in H1. unfold track_stream in H1.
  cbn [st_last_seq st_gap_at st_last_req vm_sequence] in H1.
  rewrite Hwrap, (proj2 (Z.ltb_lt _ _)) in H1 by (unfold u_max in *; lia).
  rewrite bool_decide_true in H1 by done. destruct H1 as [H1 _].
  replace (sat_sub t t) with 0 in H1 by (unfold sat_sub; lia). simpl in H1.
  rewrite H1, Hnt in H2. unfold track_stream in H2. cbn [st_last_seq st_gap_at st_last_req vm_sequence] in H2.
  rewrite Hwrap, Z.ltb_irrefl in H2 by (unfold u_max in *; lia).
  rewrite bool_decide_false in H2 by done.
  unfold KEYFRAME_REQUEST_TIMEOUT_MS, KEYFRAME_REQUEST_MIN_INTERVAL_MS, sat_sub in H2.
  rewrite !(proj2 (Z.leb_le _ _)) in H2 by lia. simpl in H2. tauto.
Qed.
End Props.

(** ** Concrete runs *)

#[local] Existing Instance demo_wire.
#[local] Existing Instance demo_media.
#[local] Existing Instance demo_cipher.
#[local] Existing Instance demo_browser.
#[local] Existing Instance demo_media_laws.
#[local] Existing Instance demo_cipher_laws.

Definition demo_iter : gmap Z (Peer demo_audio) -> list (Z * Peer demo_audio) := map_to_list.

(** A heartbeat of session 7. *)
Definition demo_heartbeat : PacketWrapper :=
  mkPacketWrapper MEDIA (as_bytes "bob")
    (demo_write_media (media_default <| media_type := HEARTBEAT |>
       <| heartbeat_metadata := Some (mkHeartbeatMetadata true true false false) |>)) 7.

Definition silent_ops : list pm_op :=
  [PMonitor; PMonitor; PEnsure 9 "eve"; PVisibility 7 false; PMonitor; PDelete 9; PMonitor].

Lemma peer_lifetime_witness :
  let '(m', effects) :=
    run (pm_step demo_iter)
      (pm_step demo_iter (run (pm_step demo_iter) pm_new [PEnsure 7 "bob"]).1
         (PDecode 1000 demo_heartbeat "alice")).1 silent_ops in
  (is_Some (get_peer 7 m') <-> (monitors silent_ops <= 3)%nat) /\
  removals 7 effects = if decide (monitors silent_ops <= 3)%nat then [] else [show_u64 7].
Proof.
  apply (peer_lifetime demo_iter [PEnsure 7 "bob"] 1000 demo_heartbeat "alice" silent_ops).
  - repeat constructor; unfold u_in; lia.
  - repeat constructor; unfold u_in; lia.
  - unfold u_in; simpl; lia.
  - repeat (apply Forall_cons; split; [simpl; lia |]). constructor.
  - eexists. split; [vm_compute; reflexivity | vm_compute; reflexivity].
Defined.

(** A camera frame with a sequence number. *)
Definition demo_frame (seq : Z) (ty : string) : MediaPacket :=
  media_default <| media_type := VIDEO |> <| frame_type := ty |>
    <| video_metadata := Some (mkVideoMetadata seq VP8) |>.

Definition demo_peer : Peer demo_audio :=
  mkPeer (true, []) video_new video_new 7 "7" "bob" "v" "s" None 1 0 false false false false
    (F64.of_Z 0) None true false None false None None None None 0 0.

(** A packet of session 7 with such a frame, and the frames as they are seen. *)
Definition demo_frame_packet (seq : Z) (ty : string) : PacketWrapper :=
  wrapper_default <| packet_type := MEDIA |> <| pw_session_id := 7 |>
    <| pw_data := default [] (write_media (demo_frame seq ty)) |>.

(** The peer after frames of its camera: the newest first, with their times. *)
Definition demo_watching (h : list (Z * Z * string)) : Peer demo_audio :=
  foldr (fun '(t, seq, ty) p => (peer_decode t (demo_frame_packet seq ty) p).1.1) demo_peer h.

(** Frames 3 to 5 were lost at time 5000. *)
Definition demo_history : list (Z * Z * string) := [(5500, 7, "delta"); (5000, 6, "delta"); (4000, 2, "key")]%string.

Definition demo_seen : list seen := (fun '(t, seq, ty) => mkSeen t seq ty) <$> demo_history.

Lemma demo_lives : lives VIDEO demo_seen (demo_watching demo_history).
Proof.
  exact (lives_decode VIDEO _ _ 5500 (demo_frame_packet 7 "delta")
    (lives_decode VIDEO _ _ 5000 (demo_frame_packet 6 "delta")
      (lives_decode VIDEO _ _ 4000 (demo_frame_packet 2 "key") (lives_new VIDEO demo_peer eq_refl)))).
Qed.

(** A manager that can send, with that peer. *)
Definition demo_watcher : PeerDecodeManager demo_audio :=
  set_send_packet_callback "alice" (pm_new <| connected_peers := (om_insert 7 (demo_watching demo_history) om_new).1 |>).

Lemma keyframe_requested_witness :
  exists dues, due_times demo_seen dues /\
    (due_at (mkSeen 6000 8 "delta" :: demo_seen) 6000 dues ->
     sent_packets (pm_decode 6000 (demo_frame_packet 8 "delta") "alice" demo_watcher).1.2 =
     sent_packets (send_keyframe_request "bob" VIDEO demo_watcher)) /\
    length (sent_packets (send_keyframe_request "bob" VIDEO demo_watcher)) = 1%nat.
Proof.
  destruct (keyframe_requested_iff demo_watcher VIDEO demo_seen (demo_watching demo_history) 6000
    (demo_frame_packet 8 "delta") (demo_frame 8 "delta") (mkVideoMetadata 8 VP8) "alice") as (dues & Hd & Hs & _).
  - by left.
  - vm_compute. reflexivity.
  - exact demo_lives.
  - vm_compute. reflexivity.
  - reflexivity.
  - repeat (apply Forall_cons; split; [unfold seen_ok, u_max; simpl; lia |]). constructor.
  - exists dues. split; [by apply Hd |]. split; [|vm_compute; reflexivity]. intros H. apply Hs. split; [exact H |].
    intros _. split; [vm_compute; reflexivity | left; vm_compute; reflexivity].
Defined.

(** The request of the concrete run, and a run in which a key frame came in time. *)
Example demo_requested :
  length (sent_packets (pm_decode 6000 (demo_frame_packet 8 "delta") "alice" demo_watcher).1.2) = 1%nat.
Proof. by vm_compute. Qed.

Example demo_recovered :
  let p := demo_watching [(5500, 7, "key"); (5000, 6, "delta"); (4000, 2, "key")]%string in
  sent_packets (pm_decode 6000 (demo_frame_packet 8 "delta") "alice"
    (demo_watcher <| connected_peers := (om_insert 7 p om_new).1 |>)).1.2 = [].
Proof. by vm_compute. Qed.

Definition demo_aes : Aes128State := mkAes128State true (replicate 16 5) (replicate 16 9).

Definition demo_chunk : EncodedVideoChunk := mkChunk [10; 20; 30] true (F64.of_Z 33000) None.

Definition demo_sent : PacketWrapper :=
  default wrapper_default
    (transform_chunk VIDEO (get_video_codec false) true demo_chunk 1 [0; 0; 0; 0] "alice" demo_aes).

Lemma frame_round_trip_witness :
  exists frame,
    frame_of_chunk (get_video_codec false) demo_chunk 1 = Some frame /\
    let '(q, _, r) :=
      peer_decode 1000
        (demo_sent <| pw_session_id := 7 |>) (demo_peer <| pr_aes := Some demo_aes |>) in
    is_ok r = true /\
    worker (vp_decoder (stream_decoder VIDEO q)) =
      worker (vp_decoder (stream_decoder VIDEO (demo_peer <| pr_aes := Some demo_aes |>))) ++
        [DecodeFrame (fb_new frame 1000)].
Proof.
  apply (frame_round_trip VIDEO false demo_chunk 1 [0; 0; 0; 0] "alice" demo_aes).
  - by left.
  - reflexivity.
  - by split.
  - by left.
  - split; [reflexivity | by right].
  - vm_compute. reflexivity.
Defined.

Lemma keyframe_reopens_witness :
  let p1 := (track_sequence 5000 VIDEO (demo_frame 9 "key") (demo_watching [(4000, 2, "key"%string)])).1 in
  (track_sequence 6000 VIDEO (demo_frame 10 "delta") p1).2 = Some VIDEO.
Proof.
  apply (keyframe_reopens_gap (demo_watching [(4000, 2, "key"%string)]) 2 9 5000 6000);
    try reflexivity; unfold u_max; lia.
Defined.
