(* ===== verification/AdaptiveQuality.v ===== *)
(** * Adaptive quality (videocall-client)

    [adaptive_quality_constants.rs] (the quality tiers and thresholds) and
    [diagnostics/adaptive_quality_manager.rs] (the state machine that selects the
    tiers). Times are the [f64] milliseconds of [Date.now()], ratios are [f64]s, and
    both are compared as floats; [None] of a tier lookup is the panic of an index out
    of range. *)
From S2P Require Import Prelude Floats.

(** ** adaptive_quality_constants.rs *)

Record VideoQualityTier : Type := mkVideoTier {
  vt_label : string;
  vt_max_width : Z;
  vt_max_height : Z;
  vt_target_fps : Z;
  vt_ideal_bitrate_kbps : Z;
  vt_min_bitrate_kbps : Z;
  vt_max_bitrate_kbps : Z;
  vt_keyframe_interval_frames : Z;
}.

Definition VIDEO_QUALITY_TIERS : list VideoQualityTier :=
  [mkVideoTier "high" 1280 720 30 1500 800 2500 150;
   mkVideoTier "medium" 854 480 25 600 300 1000 125;
   mkVideoTier "low" 640 360 15 300 150 500 75;
   mkVideoTier "minimal" 426 240 10 150 50 250 50].

Definition DEFAULT_VIDEO_TIER_INDEX : nat := 3.
Definition DEFAULT_SCREEN_TIER_INDEX : nat := 2.

Definition SCREEN_QUALITY_TIERS : list VideoQualityTier :=
  [mkVideoTier "high" 1920 1080 15 1500 800 2500 75;
   mkVideoTier "medium" 1280 720 10 600 300 1000 50;
   mkVideoTier "low" 854 480 5 250 100 400 25].

Record AudioQualityTier : Type := mkAudioTier {
  at_label : string;
  at_bitrate_kbps : Z;
  at_enable_dtx : bool;
  at_enable_fec : bool;
}.

Definition AUDIO_QUALITY_TIERS : list AudioQualityTier :=
  [mkAudioTier "high" 50 true false; mkAudioTier "medium" 32 true true;
   mkAudioTier "low" 24 true true; mkAudioTier "emergency" 16 true true].

Definition VIDEO_TIER_DEGRADE_FPS_RATIO : float := F64.lit 1 2.
Definition VIDEO_TIER_RECOVER_FPS_RATIO : float := F64.lit 85 100.
Definition VIDEO_TIER_DEGRADE_BITRATE_RATIO : float := F64.lit 4 10.
Definition VIDEO_TIER_RECOVER_BITRATE_RATIO : float := F64.lit 75 100.
Definition AUDIO_TIER_DEGRADE_FPS_RATIO : float := F64.lit 3 10.
Definition AUDIO_TIER_RECOVER_FPS_RATIO : float := F64.lit 6 10.
Definition STEP_UP_STABILIZATION_WINDOW_MS : Z := 5000.
Definition STEP_DOWN_REACTION_TIME_MS : Z := 1500.
Definition MIN_TIER_TRANSITION_INTERVAL_MS : Z := 3000.
Definition QUALITY_WARMUP_MS : float := F64.of_Z 5000.

(** ** adaptive_quality_manager.rs *)

Record AdaptiveQualityManager : Type := mkAqm {
  video_tiers : list VideoQualityTier;
  video_tier_index : nat;
  audio_tier_index : nat;
  last_transition_time_ms : float;
  degrade_start_ms : option float;
  recover_start_ms : option float;
  audio_degrade_start_ms : option float;
  audio_recover_start_ms : option float;
  created_at_ms : float;
}.

#[export] Instance eta_Aqm : Eta AdaptiveQualityManager := fun r =>
  mkAqm (video_tiers r) (video_tier_index r) (audio_tier_index r) (last_transition_time_ms r)
    (degrade_start_ms r) (recover_start_ms r) (audio_degrade_start_ms r) (audio_recover_start_ms r)
    (created_at_ms r).

Definition aqm_new (now : float) (tiers : list VideoQualityTier) : AdaptiveQualityManager :=
  mkAqm tiers DEFAULT_VIDEO_TIER_INDEX 0 now None None None None now.

Definition aqm_new_for_screen (now : float) (tiers : list VideoQualityTier) : AdaptiveQualityManager :=
  mkAqm tiers DEFAULT_SCREEN_TIER_INDEX 0 now None None None None now.

Definition max_video_index (m : AdaptiveQualityManager) : nat := Nat.pred (length (video_tiers m)).
Definition max_audio_index : nat := Nat.pred (length AUDIO_QUALITY_TIERS).

Definition should_degrade (fps_ratio bitrate_ratio : float) : bool :=
  flt fps_ratio VIDEO_TIER_DEGRADE_FPS_RATIO || flt bitrate_ratio VIDEO_TIER_DEGRADE_BITRATE_RATIO.

Definition should_recover (fps_ratio bitrate_ratio : float) : bool :=
  flt VIDEO_TIER_RECOVER_FPS_RATIO fps_ratio && flt VIDEO_TIER_RECOVER_BITRATE_RATIO bitrate_ratio.

(** A condition has lasted: the start of it is kept, and the duration compared. *)
Definition lasted (window : Z) (start now : float) : bool := fle (F64.of_Z window) (F64.sub now start).

(** [-= 1] on a [usize], which has 32 bits in the browser: at zero it wraps around
    (a build with overflow checks panics there). *)
Definition usize_dec (n : nat) : nat :=
  match n with O => Z.to_nat (2 ^ 32 - 1) | S k => k end.
#[global] Arguments usize_dec : simpl never.

(** The second half of [update_video_tier]. *)
Definition video_step_up (fps_ratio bitrate_ratio now_ms : float) (can_transition : bool)
    (m : AdaptiveQualityManager) : AdaptiveQualityManager * bool :=
  if should_recover fps_ratio bitrate_ratio && (0 <? video_tier_index m)%nat then
    let recover_start := default now_ms (recover_start_ms m) in
    let m := m <| recover_start_ms := Some recover_start |> in
    if lasted STEP_UP_STABILIZATION_WINDOW_MS recover_start now_ms && can_transition then
      (m <| video_tier_index := usize_dec (video_tier_index m) |>
         <| last_transition_time_ms := now_ms |>
         <| recover_start_ms := None |> <| degrade_start_ms := None |>, true)
    else (m, false)
  else (m <| recover_start_ms := None |>, false).

Definition update_video_tier (fps_ratio bitrate_ratio now_ms : float) (can_transition : bool)
    (m : AdaptiveQualityManager) : AdaptiveQualityManager * bool :=
  if should_degrade fps_ratio bitrate_ratio && (video_tier_index m <? max_video_index m)%nat then
    let degrade_start := default now_ms (degrade_start_ms m) in
    let m := m <| degrade_start_ms := Some degrade_start |> in
    if lasted STEP_DOWN_REACTION_TIME_MS degrade_start now_ms && can_transition then
      (m <| video_tier_index := S (video_tier_index m) |>
         <| last_transition_time_ms := now_ms |>
         <| degrade_start_ms := None |> <| recover_start_ms := None |>, true)
    else video_step_up fps_ratio bitrate_ratio now_ms can_transition m
  else
    video_step_up fps_ratio bitrate_ratio now_ms can_transition (m <| degrade_start_ms := None |>).

Definition audio_step_up (fps_ratio now_ms : float) (can_transition : bool)
    (m : AdaptiveQualityManager) : AdaptiveQualityManager * bool :=
  if flt AUDIO_TIER_RECOVER_FPS_RATIO fps_ratio && (0 <? audio_tier_index m)%nat then
    let recover_start := default now_ms (audio_recover_start_ms m) in
    let m := m <| audio_recover_start_ms := Some recover_start |> in
    if lasted STEP_UP_STABILIZATION_WINDOW_MS recover_start now_ms && can_transition then
      (m <| audio_tier_index := usize_dec (audio_tier_index m) |>
         <| last_transition_time_ms := now_ms |>
         <| audio_recover_start_ms := None |> <| audio_degrade_start_ms := None |>, true)
    else (m, false)
  else (m <| audio_recover_start_ms := None |>, false).

Definition video_at_lowest (m : AdaptiveQualityManager) : bool :=
  (max_video_index m <=? video_tier_index m)%nat.

Definition update_audio_tier (fps_ratio now_ms : float) (can_transition : bool)
    (m : AdaptiveQualityManager) : AdaptiveQualityManager * bool :=
  if (video_at_lowest m && flt fps_ratio AUDIO_TIER_DEGRADE_FPS_RATIO)
     && (audio_tier_index m <? max_audio_index)%nat then
    let degrade_start := default now_ms (audio_degrade_start_ms m) in
    let m := m <| audio_degrade_start_ms := Some degrade_start |> in
    if lasted STEP_DOWN_REACTION_TIME_MS degrade_start now_ms && can_transition then
      (m <| audio_tier_index := S (audio_tier_index m) |>
         <| last_transition_time_ms := now_ms |>
         <| audio_degrade_start_ms := None |> <| audio_recover_start_ms := None |>, true)
    else audio_step_up fps_ratio now_ms can_transition m
  else audio_step_up fps_ratio now_ms can_transition (m <| audio_degrade_start_ms := None |>).

(** The guards of [update], before the signals are looked at. *)
Definition warming_up (now_ms : float) (m : AdaptiveQualityManager) : bool :=
  flt (F64.sub now_ms (created_at_ms m)) QUALITY_WARMUP_MS.

Definition is_positive (x : float) : bool := negb (fle x (F64.of_Z 0)).

Definition can_transition (now_ms : float) (m : AdaptiveQualityManager) : bool :=
  lasted MIN_TIER_TRANSITION_INTERVAL_MS (last_transition_time_ms m) now_ms.

Definition aqm_update (received_fps target_fps current_bitrate_kbps ideal_bitrate_kbps now_ms : float)
    (m : AdaptiveQualityManager) : AdaptiveQualityManager * bool :=
  if warming_up now_ms m then (m, false)
  else if negb (is_positive target_fps && is_positive ideal_bitrate_kbps) then (m, false)
  else
    let fps_ratio := F64.div received_fps target_fps in
    let bitrate_ratio := F64.div current_bitrate_kbps ideal_bitrate_kbps in
    let can := can_transition now_ms m in
    let '(m1, changed1) := update_video_tier fps_ratio bitrate_ratio now_ms can m in
    let '(m2, changed2) := update_audio_tier fps_ratio now_ms can m1 in
    (m2, changed1 || changed2).

Definition current_video_tier (m : AdaptiveQualityManager) : option VideoQualityTier :=
  video_tiers m !! video_tier_index m.

Definition current_audio_tier (m : AdaptiveQualityManager) : option AudioQualityTier :=
  AUDIO_QUALITY_TIERS !! audio_tier_index m.

Definition aqm_force_video_step_down (now_ms : float) (m : AdaptiveQualityManager)
    : AdaptiveQualityManager * bool :=
  if warming_up now_ms m then (m, false)
  else if video_at_lowest m then (m, false)
  else if flt (F64.sub now_ms (last_transition_time_ms m)) (F64.of_Z MIN_TIER_TRANSITION_INTERVAL_MS)
  then (m, false)
  else (m <| video_tier_index := S (video_tier_index m) |>
          <| last_transition_time_ms := now_ms |>
          <| degrade_start_ms := None |> <| recover_start_ms := None |>, true).

(** ** The operations as steps *)

Inductive aqm_op : Type :=
| QUpdate (received_fps target_fps current_bitrate ideal_bitrate now_ms : float)
| QForce (now_ms : float).

Definition aqm_apply (m : AdaptiveQualityManager) (op : aqm_op) : AdaptiveQualityManager * bool :=
  match op with
  | QUpdate fps target current ideal now => aqm_update fps target current ideal now m
  | QForce now => aqm_force_video_step_down now m
  end.

Definition op_time (op : aqm_op) : float :=
  match op with QUpdate _ _ _ _ now => now | QForce now => now end.

(** A step emits its time when it changed a tier. *)
Definition aqm_step (m : AdaptiveQualityManager) (op : aqm_op)
    : AdaptiveQualityManager * list float :=
  let '(m', changed) := aqm_apply m op in (m', if changed then [op_time op] else []).

(** ** What one update may do *)

(** Indices are valid. *)
Record aqm_wf (m : AdaptiveQualityManager) : Prop := mk_aqm_wf {
  aw_video : (video_tier_index m < length (video_tiers m))%nat;
  aw_audio : (audio_tier_index m < length AUDIO_QUALITY_TIERS)%nat;
}.

(** What a transition at [now] needs and does, on the fields of the manager. *)
Record moved (now : float) (m m' : AdaptiveQualityManager) (changed : bool) : Prop := mk_moved {
  mv_tiers : video_tiers m' = video_tiers m;
  mv_created : created_at_ms m' = created_at_ms m;
  mv_last : last_transition_time_ms m' = if changed then now else last_transition_time_ms m;
  mv_video : (video_tier_index m' <= S (video_tier_index m) /\
              video_tier_index m <= S (video_tier_index m'))%nat;
  mv_audio : (audio_tier_index m' <= S (audio_tier_index m) /\
              audio_tier_index m <= S (audio_tier_index m'))%nat;
  mv_same : changed = false ->
    video_tier_index m' = video_tier_index m /\ audio_tier_index m' = audio_tier_index m;
  mv_wf : aqm_wf m -> aqm_wf m';
}.

Lemma usize_dec_pred (n : nat) : (0 < n)%nat -> usize_dec n = Nat.pred n.
Proof. destruct n; [lia | done]. Qed.

Ltac solve_moved :=
  repeat match goal with
  | H : _ && _ = true |- _ => apply andb_true_iff in H as [? ?]
  | H : (_ <? _)%nat = true |- _ => apply Nat.ltb_lt in H
  end;
  simpl in *; rewrite ?usize_dec_pred by assumption;
  split; simpl in *; try done; try lia; try (intros []; split; simpl in *; lia).

Lemma video_step_up_moved fps br now can m :
  let '(m', changed) := video_step_up fps br now can m in
  moved now m m' changed /\ audio_tier_index m' = audio_tier_index m /\ (changed = true -> can = true).
Proof.
  unfold video_step_up. destruct (_ && _) eqn:E; [|split; [solve_moved | done]].
  destruct (lasted _ _ _ && can) eqn:E2; (split; [solve_moved | split; [done |]]); [|done].
  apply andb_true_iff in E2. tauto.
Qed.

Lemma moved_start now m d m' changed :
  moved now (m <| degrade_start_ms := d |>) m' changed -> moved now m m' changed.
Proof. intros []. split; simpl in *; try done. intros Hwf. apply mv_wf0. destruct Hwf. by split. Qed.

Lemma moved_audio_start now m d m' changed :
  moved now (m <| audio_degrade_start_ms := d |>) m' changed -> moved now m m' changed.
Proof. intros []. split; simpl in *; try done. intros Hwf. apply mv_wf0. destruct Hwf. by split. Qed.

Lemma update_video_moved fps br now can m :
  let '(m', changed) := update_video_tier fps br now can m in
  moved now m m' changed /\ audio_tier_index m' = audio_tier_index m /\ (changed = true -> can = true).
Proof.
  unfold update_video_tier, max_video_index. destruct (_ && _) eqn:E.
  - destruct (lasted _ _ _ && can) eqn:E2.
    + split; [solve_moved | split; [done |]]. apply andb_true_iff in E2. tauto.
    + pose proof (video_step_up_moved fps br now can
        (m <| degrade_start_ms := Some (default now (degrade_start_ms m)) |>)) as H.
      destruct (video_step_up _ _ _ _ _). destruct H as (H1 & H2 & H3).
      split; [by eapply moved_start | by split].
  - pose proof (video_step_up_moved fps br now can (m <| degrade_start_ms := None |>)) as H.
    destruct (video_step_up _ _ _ _ _). destruct H as (H1 & H2 & H3).
    split; [by eapply moved_start | by split].
Qed.

Lemma audio_step_up_moved fps now can m :
  let '(m', changed) := audio_step_up fps now can m in
  moved now m m' changed /\ video_tier_index m' = video_tier_index m /\ (changed = true -> can = true).
Proof.
  unfold audio_step_up. destruct (_ && _) eqn:E; [|split; [solve_moved | done]].
  destruct (lasted _ _ _ && can) eqn:E2; (split; [solve_moved | split; [done |]]); [|done].
  apply andb_true_iff in E2. tauto.
Qed.

Lemma update_audio_moved fps now can m :
  let '(m', changed) := update_audio_tier fps now can m in
  moved now m m' changed /\ video_tier_index m' = video_tier_index m /\ (changed = true -> can = true).
Proof.
  unfold update_audio_tier. destruct (_ && _) eqn:E.
  - destruct (lasted _ _ _ && can) eqn:E2.
    + split; [|split; [done | apply andb_true_iff in E2; tauto]].
      unfold max_audio_index in E. solve_moved.
    + pose proof (audio_step_up_moved fps now can
        (m <| audio_degrade_start_ms := Some (default now (audio_degrade_start_ms m)) |>)) as H.
      destruct (audio_step_up _ _ _ _). destruct H as (H1 & H2 & H3).
      split; [by eapply moved_audio_start | by split].
  - pose proof (audio_step_up_moved fps now can (m <| audio_degrade_start_ms := None |>)) as H.
    destruct (audio_step_up _ _ _ _). destruct H as (H1 & H2 & H3).
    split; [by eapply moved_audio_start | by split].
Qed.

(** The interval since the last transition, and the warm-up, are over. *)
Definition may_move (now : float) (m : AdaptiveQualityManager) : Prop :=
  warming_up now m = false /\
  flt (F64.sub now (last_transition_time_ms m)) (F64.of_Z MIN_TIER_TRANSITION_INTERVAL_MS) = false.

Lemma fle_not_flt (x y : float) : fle x y = true -> flt y x = false.
Proof.
  unfold fle, flt, SpecFloat.SFleb, SpecFloat.SFltb.
  destruct x as [b|b| |b m e], y as [b'|b'| |b' m' e']; simpl; try done;
    try (by destruct b); try (by destruct b'); try (by destruct b, b').
  rewrite (Z.compare_antisym e e').
  change (Pos.compare_cont Eq m' m) with (Pos.compare m' m).
  change (Pos.compare_cont Eq m m') with (Pos.compare m m').
  rewrite (Pos.compare_antisym m m').
  destruct b, b', (e ?= e'), (Pos.compare m m'); simpl; done.
Qed.

Lemma aqm_apply_moved m op :
  let '(m', changed) := aqm_apply m op in
  moved (op_time op) m m' changed /\ (changed = true -> may_move (op_time op) m).
Proof.
  assert (moved (op_time op) m m false) as Hid by solve_moved.
  destruct op as [fps target cur ideal now|now]; simpl in *.
  - unfold aqm_update. destruct (warming_up now m) eqn:Ew; [done |]. destruct (negb _); [done |].
    pose proof (update_video_moved (F64.div fps target) (F64.div cur ideal) now (can_transition now m) m)
      as H1. destruct (update_video_tier _ _ _ _ m) as [m1 c1]. destruct H1 as (H1 & Ha1 & Hc1).
    pose proof (update_audio_moved (F64.div fps target) now (can_transition now m) m1) as H2.
    destruct (update_audio_tier _ _ _ m1) as [m2 c2]. destruct H2 as (H2 & Hv2 & Hc2). split.
    + destruct H1, H2. split; try congruence; try lia.
      * destruct c1, c2; simpl in *; congruence.
      * rewrite orb_false_iff. intros [-> ->]. destruct mv_same0, mv_same1; [done..|]. split; congruence.
      * auto.
    + intros Hc. split; [done |]. apply fle_not_flt. apply orb_true_iff in Hc. unfold can_transition in *.
      destruct Hc as [->| ->]; auto.
  - unfold aqm_force_video_step_down, video_at_lowest, max_video_index.
    destruct (warming_up now m) eqn:Ew; [done |].
    destruct (_ <=? _)%nat eqn:El; [done |]. apply Nat.leb_gt in El.
    destruct (flt _ _) eqn:Ef; [done |]. split; [solve_moved | done].
Qed.

(** ** Properties *)

Lemma aqm_step_wf m op : aqm_wf m -> aqm_wf (aqm_step m op).1.
Proof.
  intros Hwf. unfold aqm_step. pose proof (aqm_apply_moved m op) as H.
  destruct (aqm_apply m op). by apply H.
Qed.

(** C38: the tier indices never leave their tables. Over any sequence of updates and
    congestion signals, with whatever measurements and clock readings (NaN and
    infinities included), both lookups of the current tier succeed, and each step
    moves each index by at most one. *)
Theorem tiers_in_range (now : float) (ops : list aqm_op) (op : aqm_op) :
  let m := (run aqm_step (aqm_new now VIDEO_QUALITY_TIERS) ops).1 in
  let m' := (aqm_step m op).1 in
  is_Some (current_video_tier m) /\ is_Some (current_audio_tier m) /\
  (video_tier_index m' <= S (video_tier_index m) /\ video_tier_index m <= S (video_tier_index m'))%nat /\
  (audio_tier_index m' <= S (audio_tier_index m) /\ audio_tier_index m <= S (audio_tier_index m'))%nat.
Proof.
  assert (aqm_wf (run aqm_step (aqm_new now VIDEO_QUALITY_TIERS) ops).1) as Hwf.
  { apply (run_invariant aqm_step aqm_wf (fun _ => True)); [|by split; vm_compute; lia].
    intros m0 op0 H0. pose proof (aqm_step_wf m0 op0 H0). destruct (aqm_step m0 op0).
    split; [done |]. by apply Forall_true. }
  intros m m'. subst m'. fold m in Hwf. split_and!.
  1, 2: apply lookup_lt_is_Some; apply Hwf.
  all: unfold aqm_step; pose proof (aqm_apply_moved m op) as H; destruct (aqm_apply m op); apply H.
Qed.

(** Transition times, oldest first, each one spaced from the one before. *)
Fixpoint spaced (last : float) (ts : list float) : Prop :=
  match ts with
  | [] => True
  | t :: ts' =>
      flt (F64.sub t last) (F64.of_Z MIN_TIER_TRANSITION_INTERVAL_MS) = false /\ spaced t ts'
  end.

(** No flapping. Over any sequence of updates and congestion signals, no step
    changes a tier during the warm-up of five seconds, and two steps that change a
    tier, camera or audio, by measurement or forced by the server, are at least three
    seconds apart. *)
Theorem transitions_spaced (created : float) (tiers : list VideoQualityTier) (ops : list aqm_op) :
  let ts := (run aqm_step (aqm_new created tiers) ops).2 in
  Forall (fun t => flt (F64.sub t created) QUALITY_WARMUP_MS = false) ts /\ spaced created ts.
Proof.
  assert (forall m, created_at_ms m = created ->
    let ts := (run aqm_step m ops).2 in
    Forall (fun t => flt (F64.sub t created) QUALITY_WARMUP_MS = false) ts /\
    spaced (last_transition_time_ms m) ts) as H; [|by apply (H (aqm_new created tiers))].
  induction ops as [|op ops IH]; intros m Hm; simpl; [done |]. unfold aqm_step at 1 3.
  pose proof (aqm_apply_moved m op) as H. destruct (aqm_apply m op) as [m1 changed].
  destruct H as [Hmv Hmay]. specialize (IH m1 ltac:(rewrite (mv_created _ _ _ _ Hmv); exact Hm)).
  destruct (run aqm_step m1 ops) as [m2 ts]. simpl in *. rewrite (mv_last _ _ _ _ Hmv) in IH.
  destruct changed; simpl; [|exact IH]. destruct Hmay as [Hw Hl]; [done |]. destruct IH.
  unfold warming_up in Hw. rewrite Hm in Hw. split; [by constructor | done].
Qed.

(** *** Sustained conditions *)

(** A measurement the manager looked at: its time and the two ratios. *)
Record signal : Type := mkSignal { sg_time : float; sg_fps : float; sg_bitrate : float }.

Definition signal_of (m : AdaptiveQualityManager) (op : aqm_op) : option signal :=
  match op with
  | QUpdate fps target current ideal now =>
      if warming_up now m || negb (is_positive target && is_positive ideal) then None
      else Some (mkSignal now (F64.div fps target) (F64.div current ideal))
  | QForce _ => None
  end.

Definition degraded (s : signal) : Prop := should_degrade (sg_fps s) (sg_bitrate s) = true.
Definition recovering (s : signal) : Prop := should_recover (sg_fps s) (sg_bitrate s) = true.

(** The manager after a sequence of operations, with the measurements, newest first. *)
Fixpoint history (m : AdaptiveQualityManager) (log : list signal) (ops : list aqm_op)
    : AdaptiveQualityManager * list signal :=
  match ops with
  | [] => (m, log)
  | op :: rest => history (aqm_step m op).1 (option_list (signal_of m op) ++ log) rest
  end.

(** A run of measurements that all satisfy [P] and began at time [t]. *)
Definition since (P : signal -> Prop) (t : float) (log : list signal) : Prop :=
  exists recent first older,
    log = recent ++ first :: older /\ sg_time first = t /\ Forall P recent /\ P first.

Lemma since_now P s log : P s -> since P (sg_time s) (s :: log).
Proof. intros Hs. exists [], s, log. by split_and!. Qed.

Lemma since_cons P t s log : P s -> since P t log -> since P t (s :: log).
Proof.
  intros Hs (recent & first & older & -> & Ht & Hr & Hf).
  exists (s :: recent), first, older. split_and!; try done. by constructor.
Qed.

Record starts_ok (m : AdaptiveQualityManager) (log : list signal) : Prop := mk_starts_ok {
  so_degrade : forall t, degrade_start_ms m = Some t -> since degraded t log;
  so_recover : forall t, recover_start_ms m = Some t -> since recovering t log;
}.

(** [get_or_insert] of a start while the condition holds. *)
Lemma since_start P (start : option float) s log :
  P s -> (forall t, start = Some t -> since P t log) ->
  since P (default (sg_time s) start) (s :: log).
Proof. intros Hs H. destruct start as [t|]; simpl; [by apply since_cons, H | by apply since_now]. Qed.

Lemma video_step_up_starts s can m log :
  (forall t, degrade_start_ms m = Some t -> since degraded t (s :: log)) ->
  (forall t, recover_start_ms m = Some t -> since recovering t log) ->
  let m' := (video_step_up (sg_fps s) (sg_bitrate s) (sg_time s) can m).1 in
  starts_ok m' (s :: log) /\ (video_tier_index m' <= video_tier_index m)%nat /\
  ((video_tier_index m' < video_tier_index m)%nat ->
   exists t, since recovering t (s :: log) /\ lasted STEP_UP_STABILIZATION_WINDOW_MS t (sg_time s) = true).
Proof.
  intros Hd Hr. unfold video_step_up. destruct (_ && _) eqn:E.
  - apply andb_true_iff in E as [E E0]. apply Nat.ltb_lt in E0.
    pose proof (since_start recovering (recover_start_ms m) s log E Hr) as Hs.
    destruct (lasted _ _ _ && can) eqn:E2; simpl; rewrite ?usize_dec_pred by assumption;
      (split; [|split; [lia |]]).
    + by split.
    + intros _. eexists. split; [exact Hs |]. apply andb_true_iff in E2. tauto.
    + split; simpl; [done |]. by intros t [= <-].
    + lia.
  - simpl. split; [by split | split; lia].
Qed.

Lemma update_video_starts s can m log :
  starts_ok m log ->
  let m' := (update_video_tier (sg_fps s) (sg_bitrate s) (sg_time s) can m).1 in
  starts_ok m' (s :: log) /\
  ((video_tier_index m < video_tier_index m')%nat ->
   exists t, since degraded t (s :: log) /\ lasted STEP_DOWN_REACTION_TIME_MS t (sg_time s) = true) /\
  ((video_tier_index m' < video_tier_index m)%nat ->
   exists t, since recovering t (s :: log) /\ lasted STEP_UP_STABILIZATION_WINDOW_MS t (sg_time s) = true).
Proof.
  intros [Hd Hr]. unfold update_video_tier. destruct (_ && _) eqn:E.
  - apply andb_true_iff in E as [E _].
    pose proof (since_start degraded (degrade_start_ms m) s log E Hd) as Hs.
    destruct (lasted _ _ _ && can) eqn:E2; simpl.
    + split; [by split | split; [|lia]]. intros _. eexists. split; [exact Hs |].
      apply andb_true_iff in E2. tauto.
    + destruct (video_step_up_starts s can
        (m <| degrade_start_ms := Some (default (sg_time s) (degrade_start_ms m)) |>) log)
        as (H1 & H2 & H3); [by intros t [= <-] | done |].
      split; [done |]. split; [simpl in *; lia | exact H3].
  - destruct (video_step_up_starts s can (m <| degrade_start_ms := None |>) log) as (H1 & H2 & H3);
      [done | done |]. split; [done |]. split; [simpl in *; lia | exact H3].
Qed.

(** The audio tier does not touch the two timers of the camera. *)
Lemma update_audio_starts fps now can m :
  let m' := (update_audio_tier fps now can m).1 in
  degrade_start_ms m' = degrade_start_ms m /\ recover_start_ms m' = recover_start_ms m /\
  video_tier_index m' = video_tier_index m.
Proof. unfold update_audio_tier, audio_step_up. repeat case_match; done. Qed.

(** One step extends the history and keeps the timers in line with it. *)
Lemma aqm_step_starts m op log :
  starts_ok m log ->
  let m' := (aqm_step m op).1 in
  let log' := option_list (signal_of m op) ++ log in
  starts_ok m' log' /\
  (forall fps target current ideal now, op = QUpdate fps target current ideal now ->
   ((video_tier_index m < video_tier_index m')%nat ->
    exists t, since degraded t log' /\ lasted STEP_DOWN_REACTION_TIME_MS t now = true) /\
   ((video_tier_index m' < video_tier_index m)%nat ->
    exists t, since recovering t log' /\ lasted STEP_UP_STABILIZATION_WINDOW_MS t now = true)).
Proof.
  intros Hok. unfold aqm_step. destruct op as [fps target cur ideal now|now]; simpl.
  - unfold aqm_update. destruct (warming_up now m); simpl; [split; [done |]; intros; lia |].
    destruct (negb _); simpl; [split; [done |]; intros; lia |].
    pose proof (update_video_starts (mkSignal now (F64.div fps target) (F64.div cur ideal))
      (can_transition now m) m log Hok) as H. cbn [sg_fps sg_bitrate sg_time] in H.
    destruct (update_video_tier _ _ _ _ m) as [m1 c1]. destruct H as ([Hd Hr] & Hdown & Hup).
    pose proof (update_audio_starts (F64.div fps target) now (can_transition now m) m1) as H.
    destruct (update_audio_tier _ _ _ m1) as [m2 c2]. destruct H as (E1 & E2 & E3). simpl in *.
    split; [split; [by rewrite E1 | by rewrite E2] |]. rewrite E3.
    intros ? ? ? ? ? [= <- <- <- <- <-]. done.
  - unfold aqm_force_video_step_down. split; [|done].
    repeat (break_if; [done |]). by split.
Qed.

Lemma history_starts (ops : list aqm_op) : forall m log,
  starts_ok m log -> let '(m', log') := history m log ops in starts_ok m' log'.
Proof.
  induction ops as [|op ops IH]; intros m log H; simpl; [done |].
  apply IH, (aqm_step_starts m op log H).
Qed.

(** A camera tier changes only on sustained evidence. After any history, when an
    update lowers the tier then every measurement of an unbroken run that began at
    least 1.5 seconds ago and includes the present one was below the degradation
    thresholds; when it raises the tier, every measurement of such a run of at least
    5 seconds was above the recovery thresholds. *)
Theorem tier_change_is_sustained (created : float) (tiers : list VideoQualityTier) (ops : list aqm_op)
    (fps target current ideal now : float) :
  let '(m, log) := history (aqm_new created tiers) [] ops in
  let m' := (aqm_update fps target current ideal now m).1 in
  let log' := option_list (signal_of m (QUpdate fps target current ideal now)) ++ log in
  ((video_tier_index m < video_tier_index m')%nat ->
   exists t, since degraded t log' /\ lasted STEP_DOWN_REACTION_TIME_MS t now = true) /\
  ((video_tier_index m' < video_tier_index m)%nat ->
   exists t, since recovering t log' /\ lasted STEP_UP_STABILIZATION_WINDOW_MS t now = true).
Proof.
  pose proof (history_starts ops (aqm_new created tiers) []) as H.
  destruct (history _ _ _) as [m log]. specialize (H ltac:(by split)).
  destruct (aqm_step_starts m (QUpdate fps target current ideal now) log H) as [_ Hs].
  unfold aqm_step in Hs. simpl in Hs. destruct (aqm_update fps target current ideal now m) as [m' c].
  exact (Hs _ _ _ _ _ eq_refl).
Qed.

(** The interval between transitions is tested once per update: both tiers can move in
    the same one. Here audio has been lowered, and then everything recovers. *)
Example both_tiers_move_at_once :
  let bad t := QUpdate (F64.of_Z 0) (F64.of_Z 10) (F64.of_Z 150) (F64.of_Z 150) (F64.of_Z t) in
  let good t := QUpdate (F64.of_Z 10) (F64.of_Z 10) (F64.of_Z 150) (F64.of_Z 150) (F64.of_Z t) in
  let m := (run aqm_step (aqm_new (F64.of_Z 0) VIDEO_QUALITY_TIERS)
              [bad 6000; bad 7500; good 8000; good 10000]).1 in
  let m' := (aqm_step m (good 13000)).1 in
  (video_tier_index m, audio_tier_index m) = (3, 1)%nat /\
  (video_tier_index m', audio_tier_index m') = (2, 0)%nat.
Proof. by vm_compute. Qed.
