(* ===== verification/BitrateController.v ===== *)
(** * Bitrate control (videocall-client)

    [diagnostics/encoder_bitrate_controller.rs]: windows of the frame rates the
    receivers report, and the controller that turns the worst of them into a bitrate
    and a quality tier; and the task of [encode/camera_encoder.rs] and
    [encode/screen_encoder.rs] that applies its decisions. The PID controller is a
    library (the class [Pid], without laws: the results below hold whatever it
    computes). [None] of an operation is a panic. *)
From Stdlib Require Import SpecFloat.
From S2P Require Import Prelude Floats Protocol Media AdaptiveQuality.

(** ** Diagnostics packets (diagnostics_packet.proto) *)

Record Metrics : Type := mkMetrics { fps_received : float; bitrate_kbps : Z }.

Record DiagnosticsPacket : Type := mkDiagnostics {
  dg_stream_id : string;
  dg_sender_id : string;
  dg_target_id : string;
  dg_timestamp_ms : Z;
  dg_media_type : Z;
  dg_video_metrics : option Metrics;
  dg_audio_metrics : option Metrics;
}.

(** ** Windows *)

Record DiagnosticPacketWindow : Type := mkWindow {
  dw_packets : list (float * DiagnosticsPacket);
  dw_window_duration_ms : float;
  dw_last_cleanup : float;
}.

Definition window_new (window_duration_sec : Z) : DiagnosticPacketWindow :=
  mkWindow [] (F64.mul (F64.of_Z window_duration_sec) (F64.of_Z 1000)) (F64.of_Z 0).

Definition cleanup (current_time : float) (w : DiagnosticPacketWindow) : DiagnosticPacketWindow :=
  let cutoff := F64.sub current_time (dw_window_duration_ms w) in
  mkWindow (filter (fun '(ts, _) => fle cutoff ts = true) (dw_packets w)) (dw_window_duration_ms w)
    current_time.

Definition add_packet (timestamp : float) (packet : DiagnosticsPacket) (w : DiagnosticPacketWindow)
    : DiagnosticPacketWindow :=
  let w := mkWindow (dw_packets w ++ [(timestamp, packet)]) (dw_window_duration_ms w)
             (dw_last_cleanup w) in
  if flt (F64.of_Z 1000) (F64.sub timestamp (dw_last_cleanup w)) then cleanup timestamp w else w.

(** The frame rate a packet reports, [enum_value_or_default] included. *)
Definition packet_fps (packet : DiagnosticsPacket) : option float :=
  let mtype := default MEDIA_TYPE_UNKNOWN (media_type_value (dg_media_type packet)) in
  if (mtype =? VIDEO) || (mtype =? SCREEN) then F64.of_f32 ∘ fps_received <$> dg_video_metrics packet
  else if mtype =? AUDIO then F64.of_f32 ∘ fps_received <$> dg_audio_metrics packet
  else None.

Definition latest_fps (w : DiagnosticPacketWindow) : option float :=
  '(_, packet) ← last (dw_packets w); packet_fps packet.

Definition min_fps (w : DiagnosticPacketWindow) : option float :=
  let '(lowest, found) :=
    foldl (fun '(lowest, found) '(_, packet) =>
             match packet_fps packet with
             | Some fps => (fmin lowest fps, true)
             | None => (lowest, found)
             end) (S754_infinity false, false) (dw_packets w) in
  if found then Some lowest else None.

Definition latest_timestamp (w : DiagnosticPacketWindow) : option float := fst <$> last (dw_packets w).

Record DiagnosticPackets : Type := mkDiagnosticPackets {
  peer_windows : gmap string DiagnosticPacketWindow;
  window_duration_sec : Z;
  inactive_timeout_sec : Z;
}.

#[export] Instance eta_DiagnosticPackets : Eta DiagnosticPackets := fun r =>
  mkDiagnosticPackets (peer_windows r) (window_duration_sec r) (inactive_timeout_sec r).

Definition packets_new (window timeout : Z) : DiagnosticPackets := mkDiagnosticPackets ∅ window timeout.

Definition is_active (inactive_cutoff : float) (w : DiagnosticPacketWindow) : bool :=
  match latest_timestamp w with Some latest => fle inactive_cutoff latest | None => false end.

Definition remove_inactive_peers (now : float) (d : DiagnosticPackets) : DiagnosticPackets :=
  let inactive_cutoff :=
    F64.sub now (F64.mul (F64.of_Z (inactive_timeout_sec d)) (F64.of_Z 1000)) in
  d <| peer_windows := filter (fun '(_, w) => is_active inactive_cutoff w = true) (peer_windows d) |>.

Definition process_packet (packet : DiagnosticsPacket) (now : float) (d : DiagnosticPackets)
    : DiagnosticPackets :=
  let window := default (window_new (window_duration_sec d)) (peer_windows d !! dg_target_id packet) in
  remove_inactive_peers now
    (d <| peer_windows := <[dg_target_id packet := add_packet now packet window]> (peer_windows d) |>).

Section Controller.
(** The order in which the hash map of windows is iterated. *)
Context (iter : gmap string DiagnosticPacketWindow -> list (string * DiagnosticPacketWindow)).

Definition get_worst_fps_peer (d : DiagnosticPackets) : option (string * float) :=
  (foldl (fun '(worst, lowest) '(peer_id, w) =>
            match min_fps w with
            | Some fps => if flt fps lowest then (Some (peer_id, fps), fps) else (worst, lowest)
            | None => (worst, lowest)
            end) (None, S754_infinity false) (iter (peer_windows d))).1.

(** ** The controller *)

(** The PID controller of the library: [compute] may fail. *)
Class Pid (P : Type) : Type := {
  pid_new : float -> P;
  pid_set_setpoint : float -> P -> option P;
  pid_compute : float -> float -> P -> P * option float;
  pid_reset : P -> P;
}.

Context {P : Type} {pid_lib : Pid P}.

Definition PID_DEADBAND_FPS : float := F64.lit 1 2.
Definition PID_OUTPUT_MAX : float := F64.of_Z 50.
Definition PID_MAX_JITTER_PENALTY : float := F64.lit 3 10.
Definition PID_CORRECTION_THROTTLE_MS : float := F64.of_Z 1000.
Definition PID_FPS_HISTORY_SIZE : nat := 10.
Definition WINDOW_DURATION_SEC : Z := 10.
Definition INACTIVE_TIMEOUT_SEC : Z := 20.

Record EncoderBitrateController : Type := mkController {
  ec_pid : P;
  ec_last_update : float;
  ec_ideal_bitrate_kbps : Z;
  ec_fps_history : list float;
  ec_max_history_size : nat;
  ec_initialization_complete : bool;
  ec_diagnostic_packets : DiagnosticPackets;
  ec_last_correction_time : float;
  ec_correction_throttle_ms : float;
  ec_quality_manager : AdaptiveQualityManager;
  ec_tier_changed : bool;
}.

#[global] Instance eta_Controller : Eta EncoderBitrateController := fun r =>
  mkController (ec_pid r) (ec_last_update r) (ec_ideal_bitrate_kbps r) (ec_fps_history r)
    (ec_max_history_size r) (ec_initialization_complete r) (ec_diagnostic_packets r)
    (ec_last_correction_time r) (ec_correction_throttle_ms r) (ec_quality_manager r)
    (ec_tier_changed r).

(** The configuration of the PID is constant but for the setpoint. *)
Definition ec_build (now : float) (ideal_bitrate target_fps : Z) (qm : AdaptiveQualityManager)
    : EncoderBitrateController :=
  mkController (pid_new (F64.of_Z target_fps)) now ideal_bitrate [] PID_FPS_HISTORY_SIZE false
    (packets_new WINDOW_DURATION_SEC INACTIVE_TIMEOUT_SEC) (F64.of_Z 0) PID_CORRECTION_THROTTLE_MS
    qm false.

Definition ec_new (now : float) (ideal_bitrate target_fps : Z) : EncoderBitrateController :=
  ec_build now ideal_bitrate target_fps (aqm_new now VIDEO_QUALITY_TIERS).

Definition ec_new_for_screen (now : float) (target_fps : Z) (tiers : list VideoQualityTier)
    : option EncoderBitrateController :=
  let qm := aqm_new_for_screen now tiers in
  tier ← current_video_tier qm;
  Some (ec_build now (vt_ideal_bitrate_kbps tier) target_fps qm).

Definition ec_new_with_tiers (now : float) (ideal_bitrate target_fps : Z)
    (tiers : list VideoQualityTier) : EncoderBitrateController :=
  ec_build now ideal_bitrate target_fps (aqm_new now tiers).

Definition calculate_jitter (fps_history : list float) : float :=
  if (length fps_history <? 2)%nat then F64.of_Z 0
  else
    let differences := zip_with (fun a b => fabs (F64.sub b a)) fps_history (drop 1 fps_history) in
    F64.div (foldl F64.add (F64.of_Z 0) differences) (F64.of_Z (Z.of_nat (length differences))).

(** The loop that drops the oldest samples. *)
Definition trim_history (max : nat) (h : list float) : list float := drop (length h - max) h.

(** [f64::clamp] panics unless its bounds are ordered. *)
Definition clamp_checked (x lo hi : float) : option float :=
  if fle lo hi then Some (fclamp x lo hi) else None.

(** The bitrate after the PID and jitter corrections, before it is clamped. *)
Definition corrected (base_bitrate pid_output jitter target_fps : float) : float :=
  let reduction_pct := F64.mul (F64.div pid_output PID_OUTPUT_MAX) (F64.lit 9 10) in
  let after_pid := F64.mul base_bitrate (F64.sub (F64.of_Z 1) reduction_pct) in
  let normalized_jitter := F64.div jitter target_fps in
  let jitter_factor := fmin (F64.mul normalized_jitter (F64.of_Z 5)) (F64.of_Z 1) in
  let jitter_reduction := F64.mul after_pid (F64.mul jitter_factor PID_MAX_JITTER_PENALTY) in
  F64.sub after_pid jitter_reduction.

Definition bound_bitrate (base_bitrate corrected_bitrate : float) : option float :=
  if is_nan corrected_bitrate then Some base_bitrate
  else clamp_checked corrected_bitrate (F64.mul base_bitrate (F64.lit 1 10))
         (F64.mul base_bitrate (F64.lit 15 10)).

(** The tier selection at the end of the processing of a packet. *)
Definition apply_tier (fps target final_bitrate now : float) (c : EncoderBitrateController)
    : option (EncoderBitrateController * option float) :=
  tier ← current_video_tier (ec_quality_manager c);
  let ideal_for_tier := F64.of_Z (vt_ideal_bitrate_kbps tier) in
  let '(qm, changed) := aqm_update fps target final_bitrate ideal_for_tier now (ec_quality_manager c) in
  let c := c <| ec_quality_manager := qm |> in
  new_tier ← current_video_tier qm;
  let c := if changed then c <| ec_tier_changed := true |>
                             <| ec_ideal_bitrate_kbps := vt_ideal_bitrate_kbps new_tier |>
           else c in
  tier_clamped ← clamp_checked final_bitrate (F64.of_Z (vt_min_bitrate_kbps new_tier))
                   (F64.of_Z (vt_max_bitrate_kbps new_tier));
  Some (c <| ec_last_correction_time := now |>, Some tier_clamped).

(** From the PID on, once enough samples are there. *)
Definition correct_bitrate (fps target jitter dt now : float) (c : EncoderBitrateController)
    : option (EncoderBitrateController * option float) :=
  let '(pid, output) := pid_compute fps dt (ec_pid c) in
  let pid_output := default (F64.of_Z 0) output in
  let current_error := F64.sub target fps in
  let pid := if fle (fabs current_error) PID_DEADBAND_FPS && flt (F64.of_Z 0) pid_output
             then pid_reset pid else pid in
  let c := c <| ec_pid := pid |> in
  let base_bitrate := F64.of_Z (ec_ideal_bitrate_kbps c) in
  final_bitrate ← bound_bitrate base_bitrate (corrected base_bitrate pid_output jitter target);
  apply_tier fps target final_bitrate now c.

(** [target_fps] is the value of the shared counter at the time of the call. *)
Definition process_diagnostics_packet_with_time (target_fps : Z) (packet : DiagnosticsPacket)
    (now : float) (c : EncoderBitrateController)
    : option (EncoderBitrateController * option float) :=
  let c := c <| ec_diagnostic_packets := process_packet packet now (ec_diagnostic_packets c) |> in
  if flt (F64.sub now (ec_last_correction_time c)) (ec_correction_throttle_ms c) then Some (c, None)
  else match get_worst_fps_peer (ec_diagnostic_packets c) with
       | None => Some (c, None)
       | Some (_, worst_fps) =>
           let target := F64.of_Z target_fps in
           let fps := fmin worst_fps target in
           if fle target (F64.of_Z 0)
           then Some (c <| ec_last_correction_time := now |>,
                      Some (F64.of_Z (ec_ideal_bitrate_kbps c)))
           else
             let c := c <| ec_pid := default (ec_pid c) (pid_set_setpoint target (ec_pid c)) |>
                        <| ec_fps_history := trim_history (ec_max_history_size c)
                                               (ec_fps_history c ++ [fps]) |> in
             let jitter := calculate_jitter (ec_fps_history c) in
             let dt := F64.div (F64.sub now (ec_last_update c)) (F64.of_Z 1000) in
             let c := c <| ec_last_update := now |> in
             if negb (ec_initialization_complete c) && (length (ec_fps_history c) <? 3)%nat
             then Some (c <| ec_last_correction_time := now |>,
                        Some (F64.of_Z (ec_ideal_bitrate_kbps c)))
             else correct_bitrate fps target jitter dt now (c <| ec_initialization_complete := true |>)
       end.

Definition take_tier_changed (c : EncoderBitrateController) : EncoderBitrateController * bool :=
  (c <| ec_tier_changed := false |>, ec_tier_changed c).

Definition ec_force_video_step_down (now : float) (c : EncoderBitrateController)
    : option (EncoderBitrateController * bool) :=
  let '(qm, changed) := aqm_force_video_step_down now (ec_quality_manager c) in
  let c := c <| ec_quality_manager := qm |> in
  if changed then
    new_tier ← current_video_tier qm;
    Some (c <| ec_tier_changed := true |>
            <| ec_ideal_bitrate_kbps := vt_ideal_bitrate_kbps new_tier |>, true)
  else Some (c, false).

(** ** The control task of an encoder *)

(** [set_encoder_control]: the controller and the settings it shares with the encoding
    loop. The screen encoder has neither the congestion flag nor the audio settings. *)
Record EncoderControl : Type := mkControl {
  en_controller : EncoderBitrateController;
  en_current_bitrate : Z;
  en_tier_max_width : Z;
  en_tier_max_height : Z;
  en_tier_keyframe_interval : Z;
  en_audio_bitrate : Z;
  en_audio_fec : bool;
  en_congestion_step_down : bool;
}.

#[global] Instance eta_EncoderControl : Eta EncoderControl := fun r =>
  mkControl (en_controller r) (en_current_bitrate r) (en_tier_max_width r) (en_tier_max_height r)
    (en_tier_keyframe_interval r) (en_audio_bitrate r) (en_audio_fec r) (en_congestion_step_down r).

Definition BITRATE_CHANGE_THRESHOLD : float := F64.lit 2 10.

(** [CameraEncoder::new] and the start of its control task. *)
Definition camera_control (now : float) (initial_bitrate current_fps : Z) : option EncoderControl :=
  default_tier ← VIDEO_QUALITY_TIERS !! 0%nat;
  default_audio_tier ← AUDIO_QUALITY_TIERS !! 0%nat;
  Some (mkControl (ec_new now initial_bitrate current_fps) initial_bitrate
          (vt_max_width default_tier) (vt_max_height default_tier)
          (vt_keyframe_interval_frames default_tier)
          (at_bitrate_kbps default_audio_tier *u32 1000) (at_enable_fec default_audio_tier) false).

(** [ScreenEncoder::new] and the start of its control task. *)
Definition screen_control (now : float) (bitrate current_fps : Z) : option EncoderControl :=
  default_tier ← SCREEN_QUALITY_TIERS !! 0%nat;
  Some (mkControl (ec_new_with_tiers now bitrate current_fps SCREEN_QUALITY_TIERS) bitrate
          (vt_max_width default_tier) (vt_max_height default_tier)
          (vt_keyframe_interval_frames default_tier) 0 false false).

Inductive settings_event : Type := SettingsBitrate (bitrate : float) | SettingsDisabled.

(** The bitrate is stored when it differs enough from the current one. *)
Definition store_bitrate (enabled : bool) (output : option float) (e : EncoderControl)
    : EncoderControl * list settings_event :=
  match output with
  | None => (e, [])
  | Some bitrate =>
      if negb enabled then (e, [SettingsDisabled])
      else
        let current := F64.of_Z (en_current_bitrate e) in
        let percent_change := F64.div (fabs (F64.sub bitrate current)) current in
        if flt BITRATE_CHANGE_THRESHOLD percent_change
        then (e <| en_current_bitrate := as_u 32 bitrate |>, [SettingsBitrate bitrate])
        else (e, [])
  end.

(** The settings follow a change of tier. *)
Definition store_tier (audio : bool) (e : EncoderControl) : option EncoderControl :=
  let '(c, changed) := take_tier_changed (en_controller e) in
  let e := e <| en_controller := c |> in
  if negb changed then Some e
  else
    tier ← current_video_tier (ec_quality_manager c);
    let e := e <| en_tier_max_width := vt_max_width tier |>
               <| en_tier_max_height := vt_max_height tier |>
               <| en_tier_keyframe_interval := vt_keyframe_interval_frames tier |> in
    if audio then
      audio_tier ← current_audio_tier (ec_quality_manager c);
      Some (e <| en_audio_bitrate := at_bitrate_kbps audio_tier *u32 1000 |>
              <| en_audio_fec := at_enable_fec audio_tier |>)
    else Some e.

(** One turn of the loop of the camera's task. *)
Definition camera_event (enabled : bool) (target_fps : Z) (packet : DiagnosticsPacket) (now : float)
    (e : EncoderControl) : option (EncoderControl * list settings_event) :=
  forced ← (if en_congestion_step_down e
            then '(c, _) ← ec_force_video_step_down now (en_controller e);
                 Some (e <| en_controller := c |> <| en_congestion_step_down := false |>)
            else Some e);
  '(c, output) ← process_diagnostics_packet_with_time target_fps packet now (en_controller forced);
  let '(e1, events) := store_bitrate enabled output (forced <| en_controller := c |>) in
  e2 ← store_tier true e1;
  Some (e2, events).

(** One turn of the loop of the screen's task. *)
Definition screen_event (enabled : bool) (target_fps : Z) (packet : DiagnosticsPacket) (now : float)
    (e : EncoderControl) : option (EncoderControl * list settings_event) :=
  '(c, output) ← process_diagnostics_packet_with_time target_fps packet now (en_controller e);
  let '(e1, events) := store_bitrate enabled output (e <| en_controller := c |>) in
  e2 ← store_tier false e1;
  Some (e2, events).

(** The client raises the flag when the server reports congestion. *)
Definition request_step_down (e : EncoderControl) : EncoderControl :=
  e <| en_congestion_step_down := true |>.
End Controller.

Arguments EncoderBitrateController : clear implicits.
Arguments EncoderControl : clear implicits.
