(* ===== verification/BitrateProps.v ===== *)
(** * Properties of the bitrate controller and of the encoders' control tasks *)
From S2P Require Import Prelude Floats Protocol Media AdaptiveQuality BitrateController.

(** The bounds around an ideal bitrate are ordered, and so are those of a tier. *)
Definition base_ok (b : Z) : Prop :=
  0 <= b /\ fle (F64.mul (F64.of_Z b) (F64.lit 1 10)) (F64.mul (F64.of_Z b) (F64.lit 15 10)) = true.

Definition tier_ok (t : VideoQualityTier) : Prop :=
  base_ok (vt_ideal_bitrate_kbps t) /\
  fle (F64.of_Z (vt_min_bitrate_kbps t)) (F64.of_Z (vt_max_bitrate_kbps t)) = true.

Lemma video_tiers_ok : Forall tier_ok VIDEO_QUALITY_TIERS.
Proof. repeat (apply Forall_cons; split; [split; [split; [done | by vm_compute] | by vm_compute] |]). done. Qed.

(** A bitrate within the bounds of a tier. *)
Definition in_tier (b : float) (t : VideoQualityTier) : Prop :=
  fle (F64.of_Z (vt_min_bitrate_kbps t)) b = true /\ fle b (F64.of_Z (vt_max_bitrate_kbps t)) = true.

Lemma fle_not_nan x y : fle x y = true -> is_nan x = false /\ is_nan y = false.
Proof. by destruct x, y. Qed.

Lemma clamp_checked_spec x lo hi :
  is_nan x = false -> fle lo hi = true ->
  exists y, clamp_checked x lo hi = Some y /\ is_nan y = false /\ fle lo y = true /\ fle y hi = true.
Proof.
  intros Hx Hb. destruct (fle_not_nan lo hi Hb) as [Hlo Hhi]. unfold clamp_checked. rewrite Hb.
  eexists. split; [done |]. destruct (fclamp_bounds x lo hi Hx Hlo Hhi Hb) as [H1 H2].
  split; [by apply (fle_not_nan lo) | done].
Qed.

Section Props.
Context (iter : gmap string DiagnosticPacketWindow -> list (string * DiagnosticPacketWindow)).
Context {P : Type} {pid_lib : Pid P}.

Notation controller := (EncoderBitrateController P).

Record ec_wf (c : controller) : Prop := mk_ec_wf {
  cw_manager : aqm_wf (ec_quality_manager c);
  cw_tiers : Forall tier_ok (video_tiers (ec_quality_manager c));
  cw_base : base_ok (ec_ideal_bitrate_kbps c);
}.

Lemma current_tier_ok (qm : AdaptiveQualityManager) :
  aqm_wf qm -> Forall tier_ok (video_tiers qm) ->
  exists t, current_video_tier qm = Some t /\ tier_ok t.
Proof.
  intros Hwf Ht. destruct (lookup_lt_is_Some_2 _ _ (aw_video _ Hwf)) as [t E].
  exists t. split; [done |]. by eapply Forall_lookup_1.
Qed.

Lemma bound_bitrate_ok b x :
  base_ok b -> exists y, bound_bitrate (F64.of_Z b) x = Some y /\ is_nan y = false.
Proof.
  intros [Hb Hle]. unfold bound_bitrate. destruct (is_nan x) eqn:Ex.
  - eexists. split; [done |]. by apply of_Z_nonneg.
  - destruct (clamp_checked_spec x _ _ Ex Hle) as (y & -> & Hy & _). by exists y.
Qed.

(** The manager after an update, and whether it changed. *)
Lemma aqm_update_wf fps target cur ideal now qm :
  aqm_wf qm ->
  aqm_wf (aqm_update fps target cur ideal now qm).1 /\
  video_tiers (aqm_update fps target cur ideal now qm).1 = video_tiers qm.
Proof.
  intros Hwf. pose proof (aqm_apply_moved qm (QUpdate fps target cur ideal now)) as H. simpl in H.
  destruct (aqm_update _ _ _ _ _ qm) as [qm' ch]. destruct H as [Hm _]. simpl.
  split; [by apply (mv_wf _ _ _ _ Hm) | apply (mv_tiers _ _ _ _ Hm)].
Qed.

Lemma apply_tier_ok fps target final now (c : controller) :
  ec_wf c -> is_nan final = false ->
  exists c' b t, apply_tier fps target final now c = Some (c', Some b) /\ ec_wf c' /\
    current_video_tier (ec_quality_manager c') = Some t /\ in_tier b t /\
    ec_initialization_complete c' = ec_initialization_complete c.
Proof.
  intros [Hm Ht Hb] Hf. unfold apply_tier.
  destruct (current_tier_ok _ Hm Ht) as (t0 & -> & _). cbn [mbind option_bind].
  destruct (aqm_update_wf fps target final (F64.of_Z (vt_ideal_bitrate_kbps t0)) now _ Hm) as [Hm' Ht'].
  destruct (aqm_update _ _ _ _ _ _) as [qm' ch]. simpl in Hm', Ht'. rewrite <- Ht' in Ht.
  destruct (current_tier_ok _ Hm' Ht) as (t & Et & Hok & Hle). cbn [ec_quality_manager upd]. rewrite Et.
  cbn [mbind option_bind].
  destruct (clamp_checked_spec final _ _ Hf Hle) as (b & -> & _ & H1 & H2). cbn [mbind option_bind].
  do 3 eexists. split; [done |]. destruct ch; simpl; (split; [by split | by split_and!]).
Qed.

(** The outcome of one packet: no panic; and the bitrate it asks for, if any, is the
    ideal one while the controller has too few samples or no target, and lies within
    the bounds of the current tier afterwards. *)
Definition output_ok (target_fps : Z) (c c' : controller) (output : option float) : Prop :=
  match output with
  | None => True
  | Some b =>
      (b = F64.of_Z (ec_ideal_bitrate_kbps c) /\
       (ec_initialization_complete c = false \/ fle (F64.of_Z target_fps) (F64.of_Z 0) = true)) \/
      (exists t, current_video_tier (ec_quality_manager c') = Some t /\ in_tier b t)
  end.

Lemma process_ok target_fps packet now (c : controller) :
  ec_wf c ->
  exists c' output,
    process_diagnostics_packet_with_time iter target_fps packet now c = Some (c', output) /\
    ec_wf c' /\ output_ok target_fps c c' output.
Proof.
  intros [Hm Ht Hb]. unfold process_diagnostics_packet_with_time. cbv zeta.
  destruct (flt _ (ec_correction_throttle_ms _)); [do 2 eexists; split; [done |]; split; [by split | done] |].
  destruct (get_worst_fps_peer _ _) as [[peer worst]|]; [|do 2 eexists; split; [done |]; split; [by split | done]].
  destruct (fle (F64.of_Z target_fps) (F64.of_Z 0)) eqn:Et.
  { do 2 eexists. split; [done |]. split; [by split |]. left. simpl. auto. }
  destruct (negb _ && _) eqn:Ei.
  { do 2 eexists. split; [done |]. split; [by split |]. left. simpl. split; [done |]. left.
    apply andb_true_iff in Ei as [Ei%negb_true_iff _]. exact Ei. }
  unfold correct_bitrate. destruct (pid_compute _ _ _) as [pid out]. cbv zeta.
  match goal with |- context [bound_bitrate (F64.of_Z ?b) ?x] =>
    destruct (bound_bitrate_ok b x) as (y & -> & Hy); [exact Hb |] end.
  cbn [mbind option_bind].
  match goal with |- context [apply_tier ?a ?b ?f ?n ?c0] =>
    destruct (apply_tier_ok a b f n c0) as (c' & b' & t & -> & Hwf & Hcur & Hin & _); [by split | done |] end.
  do 2 eexists. split; [done |]. split; [done |]. right. by exists t.
Qed.

Lemma force_ok now (c : controller) :
  ec_wf c ->
  exists c' ch, ec_force_video_step_down now c = Some (c', ch) /\ ec_wf c'.
Proof.
  intros [Hm Ht Hb]. unfold ec_force_video_step_down.
  pose proof (aqm_apply_moved (ec_quality_manager c) (QForce now)) as H. simpl in H.
  destruct (aqm_force_video_step_down _ _) as [qm ch]. destruct H as [Hmv _].
  pose proof (mv_wf _ _ _ _ Hmv Hm) as Hm'. rewrite <- (mv_tiers _ _ _ _ Hmv) in Ht.
  destruct (current_tier_ok qm Hm' Ht) as (t & Et & [Hok _]). cbn [ec_quality_manager upd].
  destruct ch; [rewrite Et; cbn [mbind option_bind] |]; (do 2 eexists; split; [done | by split]).
Qed.

(** *** The controller's state over a run *)

Inductive ec_op : Type :=
| CPacket (target_fps : Z) (packet : DiagnosticsPacket) (now : float)
| CForce (now : float)
| CTake.

(** A run, [None] if it panics. *)
Fixpoint ec_run (c : controller) (ops : list ec_op) : option controller :=
  match ops with
  | [] => Some c
  | CPacket target packet now :: rest =>
      '(c', _) ← process_diagnostics_packet_with_time iter target packet now c; ec_run c' rest
  | CForce now :: rest => '(c', _) ← ec_force_video_step_down now c; ec_run c' rest
  | CTake :: rest => ec_run (take_tier_changed c).1 rest
  end.

Lemma ec_run_ok (ops : list ec_op) : forall c, ec_wf c -> exists c', ec_run c ops = Some c' /\ ec_wf c'.
Proof.
  induction ops as [|op ops IH]; intros c Hwf; simpl; [by exists c |].
  destruct op as [target packet now|now|].
  - destruct (process_ok target packet now c Hwf) as (c' & o & -> & Hwf' & _). by apply IH.
  - destruct (force_ok now c Hwf) as (c' & ch & -> & Hwf'). by apply IH.
  - apply IH. destruct Hwf. by split.
Qed.

(** The camera's bitrate stays within its tier: whatever the receivers report, the
    PID library computes and the clock reads, over any sequence of packets and
    congestion signals the controller never panics, and the bitrate a packet makes it
    return is the ideal one (before its third sample, or without a target frame rate)
    or lies between the minimum and the maximum of the tier it then has selected. *)
Theorem camera_bitrate_in_tier (t0 : float) (ideal fps0 : Z) (ops : list ec_op)
    (target_fps : Z) (packet : DiagnosticsPacket) (now : float) :
  base_ok ideal ->
  exists c c' output,
    ec_run (ec_new t0 ideal fps0) ops = Some c /\
    process_diagnostics_packet_with_time iter target_fps packet now c = Some (c', output) /\
    output_ok target_fps c c' output.
Proof.
  intros Hb. destruct (ec_run_ok ops (ec_new t0 ideal fps0)) as (c & Hc & Hwf).
  { split; [by split; vm_compute; lia | apply video_tiers_ok | done]. }
  destruct (process_ok target_fps packet now c Hwf) as (c' & o & Hp & _ & Ho).
  by exists c, c', o.
Qed.

(** *** The screen's controller *)

(** The manager of the screen's controller starts one past the end of its table. *)
Definition off_table (c : controller) : Prop :=
  video_tiers (ec_quality_manager c) = SCREEN_QUALITY_TIERS /\
  video_tier_index (ec_quality_manager c) = 3%nat /\ ec_max_history_size c = PID_FPS_HISTORY_SIZE.

Lemma off_table_tier (c : controller) : off_table c -> current_video_tier (ec_quality_manager c) = None.
Proof. intros (Ht & Hi & _). unfold current_video_tier. by rewrite Ht, Hi. Qed.

Lemma correct_off_table fps target jitter dt now (c : controller) :
  off_table c -> correct_bitrate fps target jitter dt now c = None.
Proof.
  intros Hc. unfold correct_bitrate. destruct (pid_compute _ _ _). cbv zeta.
  destruct (bound_bitrate _ _); [|done]. cbn [mbind option_bind]. unfold apply_tier.
  cbn [ec_quality_manager upd]. by rewrite (off_table_tier c Hc).
Qed.

Lemma process_off_table target_fps packet now (c c' : controller) o :
  off_table c -> process_diagnostics_packet_with_time iter target_fps packet now c = Some (c', o) ->
  off_table c'.
Proof.
  intros Hc. unfold process_diagnostics_packet_with_time. cbv zeta. intros H.
  repeat (break_if; [by simplify_eq |] || (case_match; [|by simplify_eq])).
  repeat case_match; try (by simplify_eq). exfalso.
  match type of H with correct_bitrate ?a ?b ?c ?d ?e ?f = _ =>
    rewrite (correct_off_table a b c d e f) in H by exact Hc end. done.
Qed.

Lemma run_off_table (ops : list ec_op) : forall c c' : controller,
  off_table c -> ec_run c ops = Some c' -> off_table c'.
Proof.
  induction ops as [|op ops IH]; intros c c' Hc; simpl; [by intros [= <-] |].
  destruct op as [target packet now|now|].
  - intros ([c1 o] & Hp & Hr)%bind_Some. apply (IH c1); [|done]. by eapply process_off_table.
  - unfold ec_force_video_step_down, aqm_force_video_step_down, video_at_lowest, max_video_index.
    destruct (warming_up _ _); simpl; [by apply IH |]. destruct Hc as (Ht & Hi & Hs). rewrite Ht, Hi. simpl.
    apply IH. by split_and!.
  - apply IH. done.
Qed.

(** The screen's controller panics. [ScreenEncoder] builds it for the three screen
    tiers, but it starts at the index of the lowest of the four camera tiers. Over any
    run that has not panicked yet, the first packet for which a bitrate is to be
    computed (two samples were taken, a receiver has reported, the throttle has passed
    and the target is positive) indexes the table out of range. *)
Theorem screen_controller_panics (t0 : float) (bitrate fps0 : Z) (ops : list ec_op) (c : controller)
    (target_fps : Z) (packet : DiagnosticsPacket) (now : float) (worst : string * float) :
  ec_run (ec_new_with_tiers t0 bitrate fps0 SCREEN_QUALITY_TIERS) ops = Some c ->
  (2 <= length (ec_fps_history c))%nat ->
  flt (F64.sub now (ec_last_correction_time c)) (ec_correction_throttle_ms c) = false ->
  get_worst_fps_peer iter (process_packet packet now (ec_diagnostic_packets c)) = Some worst ->
  fle (F64.of_Z target_fps) (F64.of_Z 0) = false ->
  process_diagnostics_packet_with_time iter target_fps packet now c = None.
Proof.
  intros Hrun Hlen Hthr Hworst Htarget.
  assert (off_table c) as Hoff by (eapply run_off_table; [|exact Hrun]; done).
  unfold process_diagnostics_packet_with_time. cbv zeta.
  cbn [ec_last_correction_time ec_correction_throttle_ms ec_diagnostic_packets upd].
  rewrite Hthr, Hworst. destruct worst as [peer fps]. rewrite Htarget.
  cbn [ec_fps_history ec_max_history_size ec_initialization_complete upd].
  rewrite (proj2 (Nat.ltb_ge _ _)), andb_false_r.
  - by apply correct_off_table.
  - destruct Hoff as (_ & _ & ->). unfold trim_history, PID_FPS_HISTORY_SIZE.
    rewrite length_drop, !length_app. simpl. lia.
Qed.

(** *** The settings the camera's task shares *)

Inductive camera_input : Type :=
| CamEvent (enabled : bool) (target_fps : Z) (packet : DiagnosticsPacket) (now : float)
| CamCongestion.

Fixpoint camera_run (e : EncoderControl P) (inputs : list camera_input) : option (EncoderControl P) :=
  match inputs with
  | [] => Some e
  | CamEvent enabled target packet now :: rest =>
      '(e', _) ← camera_event iter enabled target packet now e; camera_run e' rest
  | CamCongestion :: rest => camera_run (request_step_down e) rest
  end.

Notation manager e := (ec_quality_manager (en_controller e)).

(** The settings are those of the current tiers. *)
Definition settings_synced (e : EncoderControl P) : Prop :=
  exists tv ta, current_video_tier (manager e) = Some tv /\ current_audio_tier (manager e) = Some ta /\
    en_tier_max_width e = vt_max_width tv /\ en_tier_max_height e = vt_max_height tv /\
    en_tier_keyframe_interval e = vt_keyframe_interval_frames tv /\
    en_audio_bitrate e = at_bitrate_kbps ta *u32 1000 /\ en_audio_fec e = at_enable_fec ta.

(** The settings are still those of the highest tiers, and the manager has not left
    the lowest camera tier. *)
Definition settings_initial (e : EncoderControl P) : Prop :=
  video_tier_index (manager e) = DEFAULT_VIDEO_TIER_INDEX /\ audio_tier_index (manager e) = 0%nat /\
  en_tier_max_width e = 1280 /\ en_tier_max_height e = 720 /\ en_tier_keyframe_interval e = 150 /\
  en_audio_bitrate e = 50000 /\ en_audio_fec e = false.

(** What an operation of the controller does to the tiers. *)
Definition tier_kept (c c' : controller) : Prop :=
  video_tier_index (ec_quality_manager c') = video_tier_index (ec_quality_manager c) /\
  audio_tier_index (ec_quality_manager c') = audio_tier_index (ec_quality_manager c) /\
  video_tiers (ec_quality_manager c') = video_tiers (ec_quality_manager c).

Lemma apply_tier_kept fps target final now (c c' : controller) o :
  apply_tier fps target final now c = Some (c', o) ->
  ec_tier_changed c' = true \/ (ec_tier_changed c' = ec_tier_changed c /\ tier_kept c c').
Proof.
  unfold apply_tier. intros (t0 & _ & H)%bind_Some.
  pose proof (aqm_apply_moved (ec_quality_manager c)
    (QUpdate fps target final (F64.of_Z (vt_ideal_bitrate_kbps t0)) now)) as Hm. simpl in Hm.
  destruct (aqm_update _ _ _ _ _ _) as [qm ch]. destruct Hm as [Hm _].
  apply bind_Some in H as (t1 & _ & (b & _ & [= <- <-])%bind_Some).
  destruct ch; [by left |]. right. split; [done |].
  destruct (mv_same _ _ _ _ Hm eq_refl). split_and!; [done | done | apply (mv_tiers _ _ _ _ Hm)].
Qed.

Lemma process_kept target_fps packet now (c c' : controller) o :
  process_diagnostics_packet_with_time iter target_fps packet now c = Some (c', o) ->
  ec_tier_changed c' = true \/ (ec_tier_changed c' = ec_tier_changed c /\ tier_kept c c').
Proof.
  unfold process_diagnostics_packet_with_time. cbv zeta. intros H.
  repeat (break_if; [simplify_eq; by right |] || (case_match; [|simplify_eq; by right])).
  repeat case_match; try (simplify_eq; by right).
  unfold correct_bitrate in H. destruct (pid_compute _ _ _). cbv zeta in H.
  apply bind_Some in H as (y & _ & H). exact (apply_tier_kept _ _ _ _ _ _ _ H).
Qed.

Lemma force_kept now (c c' : controller) ch :
  ec_force_video_step_down now c = Some (c', ch) ->
  ec_tier_changed c' = true \/ (ec_tier_changed c' = ec_tier_changed c /\ tier_kept c c').
Proof.
  unfold ec_force_video_step_down. pose proof (aqm_apply_moved (ec_quality_manager c) (QForce now)) as Hm.
  simpl in Hm. destruct (aqm_force_video_step_down _ _) as [qm b]. destruct Hm as [Hm _].
  destruct b; [intros (t & _ & [= <- <-])%bind_Some; by left |]. intros [= <- <-]. right. split; [done |].
  destruct (mv_same _ _ _ _ Hm eq_refl). split_and!; [done | done | apply (mv_tiers _ _ _ _ Hm)].
Qed.

Lemma store_bitrate_frame enabled o (e : EncoderControl P) :
  en_controller (store_bitrate enabled o e).1 = en_controller e /\
  en_tier_max_width (store_bitrate enabled o e).1 = en_tier_max_width e /\
  en_tier_max_height (store_bitrate enabled o e).1 = en_tier_max_height e /\
  en_tier_keyframe_interval (store_bitrate enabled o e).1 = en_tier_keyframe_interval e /\
  en_audio_bitrate (store_bitrate enabled o e).1 = en_audio_bitrate e /\
  en_audio_fec (store_bitrate enabled o e).1 = en_audio_fec e.
Proof. unfold store_bitrate. by repeat case_match. Qed.

(** The state of the task between two events. *)
Record en_wf (e : EncoderControl P) : Prop := mk_en_wf {
  ew_controller : ec_wf (en_controller e);
  ew_taken : ec_tier_changed (en_controller e) = false;
  ew_settings : settings_initial e \/ settings_synced e;
}.

Lemma store_tier_ok (e : EncoderControl P) :
  ec_wf (en_controller e) ->
  (ec_tier_changed (en_controller e) = false -> settings_initial e \/ settings_synced e) ->
  exists e', store_tier true e = Some e' /\ en_wf e'.
Proof.
  intros [Hm Ht Hb] Hs. unfold store_tier, take_tier_changed.
  destruct (ec_tier_changed (en_controller e)) eqn:Ec; simpl.
  - destruct (current_tier_ok _ Hm Ht) as (tv & Etv & _). rewrite Etv. simpl.
    destruct (lookup_lt_is_Some_2 _ _ (aw_audio _ Hm)) as [ta Eta].
    unfold current_audio_tier at 1. rewrite Eta. simpl. eexists. split; [done |].
    split; simpl; [by split | done |]. right. exists tv, ta. by split_and!.
  - eexists. split; [done |]. split; simpl; [by split | done |]. exact (Hs eq_refl).
Qed.

(** Settings survive as long as the tiers do. *)
Lemma settings_kept (e e' : EncoderControl P) :
  tier_kept (en_controller e) (en_controller e') ->
  en_tier_max_width e' = en_tier_max_width e -> en_tier_max_height e' = en_tier_max_height e ->
  en_tier_keyframe_interval e' = en_tier_keyframe_interval e ->
  en_audio_bitrate e' = en_audio_bitrate e -> en_audio_fec e' = en_audio_fec e ->
  settings_initial e \/ settings_synced e -> settings_initial e' \/ settings_synced e'.
Proof.
  unfold settings_initial, settings_synced, current_video_tier, current_audio_tier.
  intros (-> & -> & ->) -> -> -> -> -> H. exact H.
Qed.

Lemma camera_event_ok enabled target packet now (e : EncoderControl P) :
  en_wf e -> exists e' evs, camera_event iter enabled target packet now e = Some (e', evs) /\ en_wf e'.
Proof.
  intros [Hc Ht Hs]. unfold camera_event.
  assert (exists f, (if en_congestion_step_down e
            then '(c, _) ← ec_force_video_step_down now (en_controller e);
                 Some (e <| en_controller := c |> <| en_congestion_step_down := false |>)
            else Some e) = Some f /\ ec_wf (en_controller f) /\
    (ec_tier_changed (en_controller f) = false -> settings_initial f \/ settings_synced f))
    as (f & -> & Hwf & Hset).
  { destruct (en_congestion_step_down e); [|by exists e].
    destruct (force_ok now (en_controller e) Hc) as (c & ch & E & Hwf). rewrite E. simpl.
    eexists. split; [done |]. split; [done |]. simpl. intros Hf.
    destruct (force_kept _ _ _ _ E) as [|[_ Hk]]; [congruence |].
    by apply (settings_kept e). }
  cbn [mbind option_bind].
  destruct (process_ok target packet now _ Hwf) as (c & o & E & Hwf' & _). rewrite E.
  cbn [mbind option_bind].
  pose proof (store_bitrate_frame enabled o (f <| en_controller := c |>)) as H.
  destruct (store_bitrate enabled o _) as [e1 evs]. simpl in H.
  destruct H as (E1 & E2 & E3 & E4 & E5 & E6).
  destruct (store_tier_ok e1) as (e2 & -> & Hok).
  - by rewrite E1.
  - rewrite E1. intros Hf. destruct (process_kept _ _ _ _ _ _ E) as [|[Hsame Hk]]; [congruence |].
    apply (settings_kept f); try done; [by rewrite E1 |]. apply Hset. congruence.
  - by exists e2, evs.
Qed.

(** The encoder's settings follow the selected tiers. Whatever is reported and
    whenever congestion is signalled, the camera's control task never panics, and
    after every event the resolution, key frame interval and audio settings are those
    of the tiers the manager has selected, except before the first transition: there
    they are the ones of the highest tiers, while the manager is at the lowest. *)
Theorem camera_settings_follow_tier (t0 : float) (bitrate fps0 : Z) (inputs : list camera_input)
    (e0 : EncoderControl P) :
  base_ok bitrate -> camera_control t0 bitrate fps0 = Some e0 ->
  exists e, camera_run e0 inputs = Some e /\ (settings_initial e \/ settings_synced e).
Proof.
  intros Hb E. assert (en_wf e0) as Hwf.
  { injection E as <-. split; simpl; [|done | by left].
    split; [by split; vm_compute; lia | apply video_tiers_ok | done]. }
  clear E. revert e0 Hwf. induction inputs as [|i inputs IH]; intros e0 Hwf; simpl.
  - exists e0. split; [done | apply Hwf].
  - destruct i as [enabled target packet now|].
    + destruct (camera_event_ok enabled target packet now e0 Hwf) as (e1 & evs & -> & Hwf1).
      by apply IH.
    + apply IH. destruct Hwf as [H1 H2 H3]. by split.
Qed.
End Props.

(** ** Concrete runs *)

(** A PID that asks for a tenth of the reduction per missing frame per second. *)
Definition demo_pid : Pid float := {|
  pid_new := fun setpoint => setpoint;
  pid_set_setpoint := fun setpoint _ => Some setpoint;
  pid_compute := fun fps dt setpoint => (setpoint, Some (F64.sub setpoint fps));
  pid_reset := fun setpoint => setpoint;
|}.

#[local] Existing Instance demo_pid.

Definition demo_windows : gmap string DiagnosticPacketWindow -> list (string * DiagnosticPacketWindow) :=
  map_to_list.

Definition fps_report (mtype fps : Z) : DiagnosticsPacket :=
  mkDiagnostics "s" "bob" "alice" 0 mtype (Some (mkMetrics (F32.of_Z fps) 0)) None.

(** Reports of a receiver, one per 1.5 seconds from 6 seconds on. *)
Definition reports (mtype fps : Z) (n : nat) : list ec_op :=
  (fun i => CPacket 10 (fps_report mtype fps) (F64.of_Z (6000 + 1500 * Z.of_nat i))) <$> seq 0 n.

Lemma camera_bitrate_witness :
  exists c c' output,
    ec_run demo_windows (ec_new (F64.of_Z 0) 500 10) (reports VIDEO 10 6) = Some c /\
    process_diagnostics_packet_with_time demo_windows 10 (fps_report VIDEO 10) (F64.of_Z 15000) c
      = Some (c', output) /\ output_ok 10 c c' output.
Proof.
  apply (camera_bitrate_in_tier demo_windows (F64.of_Z 0) 500 10 (reports VIDEO 10 6) 10
           (fps_report VIDEO 10) (F64.of_Z 15000)).
  split; [lia | vm_compute; reflexivity].
Defined.

(** A camera with good receivers climbs from the lowest tier. *)
Example camera_climbs :
  (fun c => video_tier_index (ec_quality_manager c)) <$>
    ec_run demo_windows (ec_new (F64.of_Z 0) 500 10) (reports VIDEO 10 20) = Some 0%nat.
Proof. by vm_compute. Qed.

(** The screen's controller after two samples, one second and a half apart. *)
Definition demo_screen : option (EncoderBitrateController float) :=
  ec_run demo_windows (ec_new_with_tiers (F64.of_Z 0) 500 10 SCREEN_QUALITY_TIERS) (reports SCREEN 10 2).

Lemma screen_panics_witness :
  option_map (process_diagnostics_packet_with_time demo_windows 10 (fps_report SCREEN 10) (F64.of_Z 9000))
    demo_screen = Some None.
Proof.
  destruct demo_screen as [c|] eqn:E; [|vm_compute in E; discriminate E]. simpl. f_equal.
  pose proof E as Hrun. vm_compute in E. injection E as <-.
  eapply (screen_controller_panics demo_windows (F64.of_Z 0) 500 10 (reports SCREEN 10 2));
    [exact Hrun | vm_compute; lia | vm_compute; reflexivity | vm_compute; reflexivity
    | vm_compute; reflexivity].
Defined.

Lemma camera_settings_witness :
  exists e, camera_run demo_windows
      (default (mkControl (ec_new (F64.of_Z 0) 500 10) 0 0 0 0 0 false false)
         (camera_control (F64.of_Z 0) 500 10))
      [CamEvent true 10 (fps_report VIDEO 10) (F64.of_Z 6000); CamCongestion;
       CamEvent true 10 (fps_report VIDEO 1) (F64.of_Z 9000)] = Some e /\
    (settings_initial e \/ settings_synced e).
Proof.
  apply (camera_settings_follow_tier demo_windows (F64.of_Z 0) 500 10).
  - split; [lia | vm_compute; reflexivity].
  - reflexivity.
Defined.
