(* ===== verification/Diagnostics.v ===== *)
(** * Diagnostics (videocall-client/src/diagnostics/diagnostics_manager.rs)

    Two workers that consume queues of events. [DiagnosticWorker] measures the frame
    rate and the bitrate of every stream this client receives and reports them, in
    packets that are sent to everybody; [SenderDiagnosticWorker] gets the packets of
    the others and hands them to the encoders. What goes to the user interface is kept
    as data where the source formats floats, as text where it formats integers; the
    two diagnostics buses are the effects [Broadcast*]. Clock readings are arguments,
    [None] of an operation is a panic. *)
From Stdlib Require Import SpecFloat Ascii.
From S2P Require Import Prelude Floats Protocol Media PeerDecode AdaptiveQuality BitrateController.

(** ** Frame rates of received streams *)

Record FpsTracker : Type := mkFpsTracker {
  ft_frames_count : Z;
  ft_fps : float;
  ft_last_fps_update : float;
  ft_total_frames : Z;
  ft_media_type : Z;
  ft_last_frame_time : float;
  ft_bytes_received : Z;
  ft_last_bitrate_update : float;
  ft_current_bitrate : float;
}.

#[export] Instance eta_FpsTracker : Eta FpsTracker := fun r =>
  mkFpsTracker (ft_frames_count r) (ft_fps r) (ft_last_fps_update r) (ft_total_frames r)
    (ft_media_type r) (ft_last_frame_time r) (ft_bytes_received r) (ft_last_bitrate_update r)
    (ft_current_bitrate r).

Definition tracker_new (now : float) (media_type : Z) : FpsTracker :=
  mkFpsTracker 0 (F64.of_Z 0) now 0 media_type now 0 now (F64.of_Z 0).

Definition track_frame_with_size (now : float) (bytes : Z) (t : FpsTracker) : FpsTracker :=
  let t := t <| ft_frames_count := ft_frames_count t +u32 1 |>
             <| ft_total_frames := ft_total_frames t +u32 1 |>
             <| ft_last_frame_time := now |>
             <| ft_bytes_received := ft_bytes_received t +u64 bytes |> in
  let elapsed_ms := F64.sub now (ft_last_bitrate_update t) in
  if fle (F64.of_Z 1000) elapsed_ms then
    let bits := F64.of_Z (ft_bytes_received t *u64 8) in
    t <| ft_fps := F64.div (F64.mul (F64.of_Z (ft_frames_count t)) (F64.of_Z 1000)) elapsed_ms |>
      <| ft_frames_count := 0 |>
      <| ft_current_bitrate :=
           F64.div (F64.mul (F64.div bits elapsed_ms) (F64.of_Z 1000)) (F64.of_Z 1000) |>
      <| ft_bytes_received := 0 |> <| ft_last_fps_update := now |> <| ft_last_bitrate_update := now |>
  else t.

Definition get_metrics (now : float) (t : FpsTracker) : float * float :=
  if flt (F64.of_Z 1000) (F64.sub now (ft_last_frame_time t)) then (F64.of_Z 0, F64.of_Z 0)
  else (ft_fps t, ft_current_bitrate t).

Record DiagnosticWorker : Type := mkDiagnosticWorker {
  fps_trackers : gmap string (gmap Z FpsTracker);
  dk_on_stats_update : bool;
  dk_last_report_time : float;
  dk_report_interval_ms : Z;
  dk_packet_handler : bool;
  dk_userid : string;
}.

#[export] Instance eta_DiagnosticWorker : Eta DiagnosticWorker := fun r =>
  mkDiagnosticWorker (fps_trackers r) (dk_on_stats_update r) (dk_last_report_time r)
    (dk_report_interval_ms r) (dk_packet_handler r) (dk_userid r).

(** The events of the queue; a callback that is set is a flag of the worker. *)
Inductive DiagnosticEvent : Type :=
| FrameReceived (peer_id : string) (media_type frame_size : Z)
| RequestStats
| SetStatsCallback
| SetReportingInterval (interval : Z)
| HeartbeatTick
| SetPacketHandler.

Inductive diag_effect : Type :=
| BroadcastDecoder (fps bitrate : float) (media_type : Z) (from_peer to_peer : string)
| BroadcastVideo (fps bitrate : float) (from_peer to_peer : string)
| EmitPacket (packet : DiagnosticsPacket)
| EmitStats (stats : gmap string (gmap Z (float * float))).

Definition diagnostic_worker_new (now : float) (userid : string) : DiagnosticWorker :=
  mkDiagnosticWorker ∅ false now 500 false userid.

(** [track_frame] of the manager: two events. *)
Definition track_frame (peer_id : string) (media_type frame_size : Z) : list DiagnosticEvent :=
  [FrameReceived peer_id media_type frame_size; RequestStats].

Definition get_all_fps_stats (now : float) (w : DiagnosticWorker) : gmap string (gmap Z (float * float)) :=
  (fun trackers : gmap Z FpsTracker => get_metrics now <$> trackers) <$> fps_trackers w.

Definition maybe_report_stats_to_ui (now : float) (w : DiagnosticWorker)
    : DiagnosticWorker * list diag_effect :=
  if fle (F64.of_Z (dk_report_interval_ms w)) (F64.sub now (dk_last_report_time w))
  then (w <| dk_last_report_time := now |>,
        if dk_on_stats_update w then [EmitStats (get_all_fps_stats now w)] else [])
  else (w, []).

Section Worker.
(** The iteration orders of the two hash maps. *)
Context (iter_peer : gmap string (gmap Z FpsTracker) -> list (string * gmap Z FpsTracker)).
Context (iter_media : gmap Z FpsTracker -> list (Z * FpsTracker)).

Definition diagnostic_packet (now : float) (userid peer_id : string) (media_type : Z) (t : FpsTracker)
    : DiagnosticsPacket :=
  let metrics := mkMetrics (F32.of_f64 (ft_fps t)) (as_u 32 (ft_current_bitrate t)) in
  mkDiagnostics "" peer_id userid (as_u 64 now) media_type
    (if media_type =? AUDIO then None else Some metrics) (if media_type =? AUDIO then Some metrics else None).

Definition stream_effects (now : float) (w : DiagnosticWorker) (peer_id : string)
    (entry : Z * FpsTracker) : list diag_effect :=
  let '(media_type, t) := entry in
  [BroadcastDecoder (ft_fps t) (ft_current_bitrate t) media_type (dk_userid w) peer_id;
   BroadcastVideo (ft_fps t) (ft_current_bitrate t) (dk_userid w) peer_id] ++
  (if dk_packet_handler w then [EmitPacket (diagnostic_packet now (dk_userid w) peer_id media_type t)] else []).

Definition send_diagnostic_packets (now : float) (w : DiagnosticWorker) : list diag_effect :=
  iter_peer (fps_trackers w) ≫= fun '(peer_id, trackers) =>
  iter_media trackers ≫= stream_effects now w peer_id.

Definition diag_handle_event (now : float) (event : DiagnosticEvent) (w : DiagnosticWorker)
    : DiagnosticWorker * list diag_effect :=
  match event with
  | FrameReceived peer_id media_type frame_size =>
      let trackers := default ∅ (fps_trackers w !! peer_id) in
      let tracker := default (tracker_new now media_type) (trackers !! media_type) in
      (w <| fps_trackers :=
           <[peer_id := <[media_type := track_frame_with_size now frame_size tracker]> trackers]>
             (fps_trackers w) |>, [])
  | SetStatsCallback => (w <| dk_on_stats_update := true |>, [])
  | SetReportingInterval interval => (w <| dk_report_interval_ms := interval |>, [])
  | RequestStats => maybe_report_stats_to_ui now w
  | HeartbeatTick =>
      let '(w, out) := maybe_report_stats_to_ui now w in
      (w, out ++ send_diagnostic_packets now w)
  | SetPacketHandler => (w <| dk_packet_handler := true |>, [])
  end.
End Worker.

(** ** Feedback about the own streams *)

Record StreamStats : Type := mkStreamStats {
  ss_media_type : Z;
  ss_last_update : float;
  ss_median_latency_ms : Z;
  ss_jitter_ms : Z;
  ss_estimated_bandwidth_kbps : Z;
  ss_round_trip_time_ms : Z;
  ss_peer_id : string;
}.

#[export] Instance eta_StreamStats : Eta StreamStats := fun r =>
  mkStreamStats (ss_media_type r) (ss_last_update r) (ss_median_latency_ms r) (ss_jitter_ms r)
    (ss_estimated_bandwidth_kbps r) (ss_round_trip_time_ms r) (ss_peer_id r).

Definition stream_stats_new (now : float) (peer_id : string) (media_type : Z) : StreamStats :=
  mkStreamStats media_type now 0 0 0 0 peer_id.

(** [unwrap] of an absent message panics. *)
Definition update_from_packet (now : float) (packet : DiagnosticsPacket) (media_type : Z) (s : StreamStats)
    : option StreamStats :=
  kbps ← (if (media_type =? VIDEO) || (media_type =? SCREEN) then bitrate_kbps <$> dg_video_metrics packet
          else if media_type =? AUDIO then bitrate_kbps <$> dg_audio_metrics packet
          else Some 0);
  Some (s <| ss_last_update := now |> <| ss_estimated_bandwidth_kbps := kbps |>).

Definition is_stale (now : float) (s : StreamStats) : bool :=
  flt (F64.of_Z 2000) (F64.sub now (ss_last_update s)).

Record SenderDiagnosticWorker : Type := mkSenderWorker {
  stream_stats : gmap string (gmap Z StreamStats);
  sk_on_stats_update : bool;
  encoder_callbacks : list Z;
  sender_channels : list (Z * Z);
  sk_last_report_time : float;
  sk_report_interval_ms : Z;
  sk_userid : string;
}.

#[export] Instance eta_SenderWorker : Eta SenderDiagnosticWorker := fun r =>
  mkSenderWorker (stream_stats r) (sk_on_stats_update r) (encoder_callbacks r) (sender_channels r)
    (sk_last_report_time r) (sk_report_interval_ms r) (sk_userid r).

Definition sender_worker_new (now : float) (userid : string) : SenderDiagnosticWorker :=
  mkSenderWorker ∅ false [] [] now 500 userid.

Inductive SenderDiagnosticEvent : Type :=
| DiagnosticPacketReceived (packet : DiagnosticsPacket)
| SetSenderStatsCallback
| AddEncoderCallback (callback : Z)
| AddSenderChannel (channel media_type : Z)
| SetSenderReportingInterval (interval : Z)
| SenderHeartbeatTick.

Inductive sender_effect : Type :=
| BroadcastSender (sender_id target_id : string) (media_type timestamp_ms : Z)
| ForwardToEncoder (channel : Z) (packet : DiagnosticsPacket)
| EmitText (text : string).

Definition newline : string := String (ascii_of_nat 10) EmptyString.

Section Sender.
Context (iter_stats : gmap string (gmap Z StreamStats) -> list (string * gmap Z StreamStats)).

Definition append_media_stats (media_str : string) (s : StreamStats) : string :=
  media_str +:+ ": " +:+ show_u64 (ss_estimated_bandwidth_kbps s) +:+ " kbps, " +:+
  show_u64 (ss_median_latency_ms s) +:+ " ms latency, " +:+ show_u64 (ss_jitter_ms s) +:+ " ms jitter, " +:+
  show_u64 (ss_round_trip_time_ms s) +:+ " ms RTT" +:+ newline.

Definition fresh_stats (now : float) (stats : gmap string (gmap Z StreamStats)) : gmap string (gmap Z StreamStats) :=
  filter (fun '(_, media_stats) => media_stats <> ∅)
    (filter (fun '(_, s) => is_stale now s = false) <$> stats).

Definition media_line (media_stats : gmap Z StreamStats) (media_type : Z) (name : string) : string :=
  match media_stats !! media_type with Some s => append_media_stats name s | None => "" end.

Definition get_stats_string (now : float) (w : SenderDiagnosticWorker) : SenderDiagnosticWorker * string :=
  let stats := fresh_stats now (stream_stats w) in
  let lines := foldl (fun acc '(peer_id, media_stats) =>
                 acc +:+ "Peer " +:+ peer_id +:+ newline +:+ media_line media_stats VIDEO "Video" +:+
                 media_line media_stats AUDIO "Audio" +:+ media_line media_stats SCREEN "Screen")
                 "" (iter_stats stats) in
  (w <| stream_stats := stats |>,
   if bool_decide (stats = ∅)
   then lines +:+ "No feedback received about your streams yet." +:+ newline else lines).

Definition sender_report_stats (now : float) (w : SenderDiagnosticWorker)
    : SenderDiagnosticWorker * list sender_effect :=
  if fle (F64.of_Z (sk_report_interval_ms w)) (F64.sub now (sk_last_report_time w)) then
    let '(w, text) := get_stats_string now w in
    (w <| sk_last_report_time := now |>, if sk_on_stats_update w then [EmitText text] else [])
  else (w, []).

(** [stream_stats] after a packet; [None]: the packet made [update_from_packet] panic. *)
Definition note_feedback (now : float) (packet : DiagnosticsPacket) (w : SenderDiagnosticWorker)
    : option SenderDiagnosticWorker :=
  let media_type := default MEDIA_TYPE_UNKNOWN (media_type_value (dg_media_type packet)) in
  let target_id := dg_target_id packet in
  if bool_decide (dg_sender_id packet = sk_userid w) then
    let peer_stats := default ∅ (stream_stats w !! target_id) in
    let stats := default (stream_stats_new now target_id media_type) (peer_stats !! media_type) in
    stats ← update_from_packet now packet media_type stats;
    Some (w <| stream_stats := <[target_id := <[media_type := stats]> peer_stats]> (stream_stats w) |>)
  else Some w.

Definition forward_feedback (packet : DiagnosticsPacket) (w : SenderDiagnosticWorker) : list sender_effect :=
  let media_type := default MEDIA_TYPE_UNKNOWN (media_type_value (dg_media_type packet)) in
  (fun '(channel, _) => ForwardToEncoder channel packet) <$>
    filter (fun '(_, sender_media_type) => sender_media_type = media_type) (sender_channels w).

Definition sender_handle_event (now : float) (event : SenderDiagnosticEvent) (w : SenderDiagnosticWorker)
    : option (SenderDiagnosticWorker * list sender_effect) :=
  match event with
  | DiagnosticPacketReceived packet =>
      let media_type := default MEDIA_TYPE_UNKNOWN (media_type_value (dg_media_type packet)) in
      w ← note_feedback now packet w;
      Some (w, BroadcastSender (dg_sender_id packet) (dg_target_id packet) media_type (dg_timestamp_ms packet)
                 :: forward_feedback packet w)
  | SetSenderStatsCallback => Some (w <| sk_on_stats_update := true |>, [])
  | SetSenderReportingInterval interval => Some (w <| sk_report_interval_ms := interval |>, [])
  | SenderHeartbeatTick => Some (sender_report_stats now w)
  | AddEncoderCallback callback =>
      Some (w <| encoder_callbacks := encoder_callbacks w ++ [callback] |>, [])
  | AddSenderChannel channel media_type =>
      Some (w <| sender_channels := sender_channels w ++ [(channel, media_type)] |>, [])
  end.
End Sender.

(** ** What the trackers measure *)

Definition window_open (t : FpsTracker) (frame : float * Z) : Prop :=
  fle (F64.of_Z 1000) (F64.sub frame.1 (ft_last_bitrate_update t)) = false.

Definition track_all (t : FpsTracker) (frames : list (float * Z)) : FpsTracker :=
  foldl (fun t '(now, bytes) => track_frame_with_size now bytes t) t frames.

Definition total_bytes (frames : list (float * Z)) : Z := foldr (fun f n => f.2 + n) 0 frames.

Lemma total_bytes_nonneg frames : Forall (fun f => 0 <= f.2) frames -> 0 <= total_bytes frames.
Proof. induction 1; simpl; lia. Qed.

(** Within a window frames and bytes are only counted. *)
Lemma track_open t frames :
  Forall (window_open t) frames -> Forall (fun f => 0 <= f.2) frames ->
  0 <= ft_frames_count t -> ft_frames_count t + Z.of_nat (length frames) <= u_max 32 ->
  0 <= ft_bytes_received t -> ft_bytes_received t + total_bytes frames <= u_max 64 ->
  let t' := track_all t frames in
  ft_frames_count t' = ft_frames_count t + Z.of_nat (length frames) /\
  ft_bytes_received t' = ft_bytes_received t + total_bytes frames /\
  ft_last_bitrate_update t' = ft_last_bitrate_update t /\ ft_fps t' = ft_fps t /\
  ft_current_bitrate t' = ft_current_bitrate t.
Proof.
  intros Ho. revert t Ho. induction frames as [|[now b] frames IH]; intros t Ho Hb Hc0 Hc Hr0 Hr; simpl in *.
  - rewrite !Z.add_0_r. done.
  - apply Forall_cons in Ho as [H1 Ho]. apply Forall_cons in Hb as [Hb1 Hb]. simpl in Hb1.
    pose proof (total_bytes_nonneg frames Hb). unfold window_open in H1. simpl in H1.
    set (t1 := track_frame_with_size now b t).
    assert (ft_frames_count t1 = ft_frames_count t + 1 /\ ft_bytes_received t1 = ft_bytes_received t + b /\
            ft_last_bitrate_update t1 = ft_last_bitrate_update t /\ ft_fps t1 = ft_fps t /\
            ft_current_bitrate t1 = ft_current_bitrate t) as (E1 & E2 & E3 & E4 & E5).
    { subst t1. unfold track_frame_with_size. simpl. rewrite H1. simpl.
      split_and!; try done; apply wrap_u_small; unfold u_in, u_max in *; lia. }
    destruct (IH t1) as (F1 & F2 & F3 & F4 & F5); [| done | lia | lia | lia | lia |].
    + unfold window_open in *. by rewrite E3.
    + split_and!; first [congruence | lia].
Qed.

(** The measured rates are the rates. The frames that arrive within a second of
    the last measurement are counted; the first frame after that second makes the
    tracker report exactly the number of frames and of bits since the last
    measurement over the time it covers, and start a new window. *)
Theorem fps_measures_window (t : FpsTracker) (frames : list (float * Z)) (now : float) (bytes : Z) :
  ft_frames_count t = 0 -> ft_bytes_received t = 0 -> Forall (window_open t) frames ->
  Forall (fun f => 0 <= f.2) ((now, bytes) :: frames) -> Z.of_nat (length frames) < u_max 32 ->
  8 * (total_bytes frames + bytes) <= u_max 64 ->
  let elapsed := F64.sub now (ft_last_bitrate_update t) in
  fle (F64.of_Z 1000) elapsed = true ->
  let t' := track_all t (frames ++ [(now, bytes)]) in
  ft_fps t' = F64.div (F64.mul (F64.of_Z (Z.of_nat (length frames) + 1)) (F64.of_Z 1000)) elapsed /\
  ft_current_bitrate t' =
    F64.div (F64.mul (F64.div (F64.of_Z (8 * (total_bytes frames + bytes))) elapsed) (F64.of_Z 1000)) (F64.of_Z 1000) /\
  ft_frames_count t' = 0 /\ ft_bytes_received t' = 0 /\ ft_last_bitrate_update t' = now.
Proof.
  intros Hc Hr Ho Hb Hlen Hbits elapsed Hel t'. apply Forall_cons in Hb as [Hb1 Hb]. simpl in Hb1.
  pose proof (total_bytes_nonneg frames Hb). unfold u_max in *.
  destruct (track_open t frames Ho Hb) as (E1 & E2 & E3 & _ & _); [unfold u_max; lia ..|].
  assert (t' = track_frame_with_size now bytes (track_all t frames)) as ->
    by (subst t'; unfold track_all; by rewrite foldl_snoc).
  revert E1 E2 E3. generalize (track_all t frames). intros u E1 E2 E3. unfold track_frame_with_size. simpl.
  subst elapsed. simpl in Hel. rewrite E3, Hel, E1, E2, Hc, Hr, !Z.add_0_l.
  rewrite (wrap_u_small 32 (Z.of_nat (length frames) + 1)) by (unfold u_in; lia).
  rewrite (wrap_u_small 64 (total_bytes frames + bytes)) by (unfold u_in; lia).
  rewrite (wrap_u_small 64 (_ * 8)) by (unfold u_in; lia).
  rewrite (Z.mul_comm _ 8). done.
Qed.

(** ** Where the feedback goes *)

Section Routing.
Context (iter_peer : gmap string (gmap Z FpsTracker) -> list (string * gmap Z FpsTracker)).
Context (iter_media : gmap Z FpsTracker -> list (Z * FpsTracker)).
Context (iter_stats : gmap string (gmap Z StreamStats) -> list (string * gmap Z StreamStats)).
Context (iter_peer_perm : forall x, iter_peer x ≡ₚ map_to_list x).

Definition diag_step (w : DiagnosticWorker) (ev : float * DiagnosticEvent) : DiagnosticWorker * list diag_effect :=
  diag_handle_event iter_peer iter_media ev.1 ev.2 w.

(** Names of streams are session ids: [track_frame] is called with [sid_str]. *)
Definition named_by_session (ev : float * DiagnosticEvent) : Prop :=
  match ev.2 with FrameReceived peer_id _ _ => exists sid, peer_id = show_u64 sid | _ => True end.

Definition keys_are_sessions (w : DiagnosticWorker) : Prop :=
  map_Forall (fun k _ => exists sid, k = show_u64 sid) (fps_trackers w).

Definition about_session (e : diag_effect) : Prop :=
  match e with EmitPacket p => exists sid, dg_sender_id p = show_u64 sid | _ => True end.

Lemma send_about_session now w : keys_are_sessions w -> Forall about_session (send_diagnostic_packets iter_peer iter_media now w).
Proof.
  intros Hk. apply Forall_forall. intros e (entry & He & Hin)%list_elem_of_bind.
  destruct entry as [peer_id trackers]. rewrite iter_peer_perm in Hin. apply elem_of_map_to_list in Hin.
  destruct (Hk _ _ Hin) as [sid ->]. apply list_elem_of_bind in He as ([mt t] & He & _). simpl in He.
  unfold stream_effects in He. destruct (dk_packet_handler w); set_unfold; destruct_or?; subst; simpl; eauto.
Qed.

Lemma report_trackers now w : fps_trackers (maybe_report_stats_to_ui now w).1 = fps_trackers w.
Proof. unfold maybe_report_stats_to_ui. by case_match. Qed.

Lemma report_about_session now w : Forall about_session (maybe_report_stats_to_ui now w).2.
Proof. unfold maybe_report_stats_to_ui. repeat case_match; by repeat constructor. Qed.

Lemma diag_step_sessions w ev : named_by_session ev -> keys_are_sessions w ->
  let '(w', out) := diag_step w ev in keys_are_sessions w' /\ Forall about_session out.
Proof.
  destruct ev as [now []]; unfold diag_step; intros Hn Hk; cbn [fst snd diag_handle_event]; try done.
  - split; [|done]. unfold keys_are_sessions. simpl. apply map_Forall_insert_2; [exact Hn | exact Hk].
  - pose proof (report_trackers now w) as Ht. pose proof (report_about_session now w).
    destruct (maybe_report_stats_to_ui now w) as [w' out]. simpl in *. split; [|done].
    unfold keys_are_sessions. by rewrite Ht.
  - pose proof (report_trackers now w) as Ht. pose proof (report_about_session now w).
    destruct (maybe_report_stats_to_ui now w) as [w' out]. simpl in *.
    assert (keys_are_sessions w') by (unfold keys_are_sessions; by rewrite Ht).
    split; [done |]. apply Forall_app. split; [done | by apply send_about_session].
Qed.

(** Feedback goes astray. In every run of a client that names the streams it
    receives by their session ids, as the peer table does, each diagnostics packet it
    publishes - about whoever's stream - is handed by every other client to its own
    encoders of that media type, and none is ever recorded as feedback about the own
    streams, since a user id is compared with a session id. *)
Theorem feedback_goes_astray (t0 : float) (receiver : string) (evs : list (float * DiagnosticEvent))
    (packet : DiagnosticsPacket) (now : float) (w : SenderDiagnosticWorker) :
  Forall named_by_session evs ->
  EmitPacket packet ∈ (run diag_step (diagnostic_worker_new t0 receiver) evs).2 ->
  (forall sid, sk_userid w <> show_u64 sid) ->
  sender_handle_event iter_stats now (DiagnosticPacketReceived packet) w =
    Some (w, BroadcastSender (dg_sender_id packet) (dg_target_id packet)
               (default MEDIA_TYPE_UNKNOWN (media_type_value (dg_media_type packet))) (dg_timestamp_ms packet) ::
             ((fun c => ForwardToEncoder c.1 packet) <$>
                filter (fun c => c.2 = default MEDIA_TYPE_UNKNOWN (media_type_value (dg_media_type packet)))
                  (sender_channels w))).
Proof.
  intros Hev Hin Hid.
  pose proof (run_invariant_on diag_step named_by_session keys_are_sessions about_session) as H.
  specialize (H ltac:(intros; by apply diag_step_sessions) evs (diagnostic_worker_new t0 receiver) Hev
    (map_Forall_empty _)) as [_ Hout].
  destruct (proj1 (Forall_forall _ _) Hout _ Hin) as [sid Hs]. cbn [sender_handle_event].
  unfold note_feedback. rewrite bool_decide_false by (rewrite Hs; intros E; by apply (Hid sid)).
  cbn [mbind option_bind]. do 3 f_equal. unfold forward_feedback. cbv zeta.
  clear. induction (sender_channels w) as [|[c mt] l IH]; [done |]. rewrite !filter_cons. cbn [snd].
  destruct (decide _); [rewrite !fmap_cons; by f_equal | done].
Qed.
End Routing.

(** ** A concrete run *)

Definition ms (n : Z) : float := F64.of_Z n.

(** Bob receives two frames of the stream of session 77 in a second. *)
Definition bob_report : list (float * DiagnosticEvent) :=
  [(ms 0, SetPacketHandler); (ms 0, FrameReceived "77" VIDEO 4000);
   (ms 1000, FrameReceived "77" VIDEO 4000); (ms 1500, HeartbeatTick)].

Definition bob_packet : DiagnosticsPacket :=
  mkDiagnostics "" "77" "bob@mail" 1500 VIDEO (Some (mkMetrics (F32.of_f64 (ms 2)) 64)) None.

Definition alice_sender : SenderDiagnosticWorker :=
  (sender_worker_new (ms 0) "alice@mail") <| sender_channels := [(1, VIDEO); (2, AUDIO)] |>.

Lemma feedback_astray_witness :
  sender_handle_event map_to_list (ms 2000) (DiagnosticPacketReceived bob_packet) alice_sender =
    Some (alice_sender, [BroadcastSender "77" "bob@mail" VIDEO 1500; ForwardToEncoder 1 bob_packet]).
Proof.
  apply (feedback_goes_astray map_to_list map_to_list map_to_list ltac:(done) (ms 0) "bob@mail" bob_report
    bob_packet (ms 2000) alice_sender).
  - repeat constructor; cbn; by exists 77.
  - vm_compute. right. right. left.
  - intros sid E. pose proof (show_u64_digits sid) as Hd. rewrite <- E in Hd. destruct Hd as [[_ Hd] _].
    vm_compute in Hd. congruence.
Defined.

(** Four frames in two seconds: two frames a second. *)
Lemma fps_measures_witness :
  let t := track_all (tracker_new (ms 0) VIDEO) [(ms 300, 500); (ms 600, 500); (ms 900, 500); (ms 2000, 500)] in
  ft_fps t = ms 2 /\ ft_current_bitrate t = ms 8.
Proof.
  destruct (fps_measures_window (tracker_new (ms 0) VIDEO) [(ms 300, 500); (ms 600, 500); (ms 900, 500)]
    (ms 2000) 500) as (E1 & E2 & _).
  1, 2, 5-7: vm_compute; congruence.
  1, 2: repeat constructor; vm_compute; congruence.
  cbv zeta. split; [exact E1 | exact E2].
Defined.

(** A silent stream keeps its rate. The user interface is told that a stream is
    inactive a second after its last frame, but the diagnostics packets sent about it
    go on reporting its last rate, whatever the time, also when the peer has left. *)
Theorem silent_stream_keeps_rate (now : float) (userid peer_id : string) (media_type : Z) (t : FpsTracker) :
  flt (F64.of_Z 1000) (F64.sub now (ft_last_frame_time t)) = true -> media_type <> AUDIO ->
  get_metrics now t = (F64.of_Z 0, F64.of_Z 0) /\
  dg_video_metrics (diagnostic_packet now userid peer_id media_type t) =
    Some (mkMetrics (F32.of_f64 (ft_fps t)) (as_u 32 (ft_current_bitrate t))).
Proof.
  intros Hs Hm. unfold get_metrics, diagnostic_packet. rewrite Hs. split; [done |]. simpl.
  by rewrite (proj2 (Z.eqb_neq _ _) Hm).
Qed.
