(* ===== verification/Connection.v ===== *)
(** * One connection (videocall-client/src/connection/connection.rs)

    A connection wraps a transport task: it keeps the status, the media flags that
    heartbeats report, and the timers. The task is named by a number, [cn_task], and
    what is sent on it is an effect; a transport that falls back from datagrams to a
    stream is below this interface. A dropped connection is absent from the state of
    its owner, and its timers with it. *)
From S2P Require Import Prelude Floats Protocol Media.

Inductive Status : Type := Connecting | Connected | Closed.

#[export] Instance Status_eq_dec : EqDecision Status.
Proof. solve_decision. Defined.

Record Connection : Type := mkConnection {
  cn_task : Z;
  cn_heartbeat : bool;
  cn_status : Status;
  cn_video_enabled : bool;
  cn_audio_enabled : bool;
  cn_screen_enabled : bool;
  cn_is_speaking : bool;
  cn_session_id : option Z;
  cn_userid : option string;
  cn_url : string;
}.

#[export] Instance eta_Connection : Eta Connection := fun r =>
  mkConnection (cn_task r) (cn_heartbeat r) (cn_status r) (cn_video_enabled r) (cn_audio_enabled r)
    (cn_screen_enabled r) (cn_is_speaking r) (cn_session_id r) (cn_userid r) (cn_url r).

(** What a connection hands to its task. *)
Inductive net_effect : Type :=
| NetStream (task : Z) (packet : PacketWrapper)
| NetDatagram (task : Z) (packet : PacketWrapper).

(** [connect], once the task was created. *)
Definition connect (task : Z) (url : string) : Connection :=
  mkConnection task false Connecting false false false false None None url.

Definition is_connected (c : Connection) : bool := bool_decide (cn_status c = Connected).

(** The taps around the callbacks of the task. *)
Definition on_connected_tap (c : Connection) : Connection := c <| cn_status := Connected |>.
Definition on_lost_tap (c : Connection) : Connection := c <| cn_status := Closed |>.

Section Heartbeat.
Context {wire : Wire} {media : MediaWire} {cipher : Cipher}.

Definition aes_encrypt_heartbeat (aes : Aes128State) (packet : MediaPacket) : option bytes :=
  data ← write_media packet; aes_encrypt aes data.

Definition build_heartbeat_packet (now : float) (userid : string) (aes : Aes128State) (c : Connection)
    : option PacketWrapper :=
  let metadata := mkHeartbeatMetadata (cn_video_enabled c) (cn_audio_enabled c)
                    (cn_screen_enabled c) (cn_is_speaking c) in
  let packet := media_default <| media_type := HEARTBEAT |> <| mp_user_id := as_bytes userid |>
                  <| mp_timestamp := now |> <| heartbeat_metadata := Some metadata |> in
  data ← aes_encrypt_heartbeat aes packet;
  Some (wrapper_default <| pw_data := data |> <| pw_user_id := as_bytes userid |>
          <| packet_type := MEDIA |> <| pw_session_id := default 0 (cn_session_id c) |>).

Definition start_heartbeat (userid : string) (c : Connection) : Connection :=
  c <| cn_userid := Some userid |> <| cn_heartbeat := true |>.

(** A tick of the interval [start_heartbeat] creates. *)
Definition heartbeat_tick (now : float) (aes : Aes128State) (c : Connection) : list net_effect :=
  match cn_heartbeat c, cn_userid c with
  | true, Some userid =>
      match build_heartbeat_packet now userid aes c with
      | Some packet => if is_connected c then [NetDatagram (cn_task c) packet] else []
      | None => []
      end
  | _, _ => []
  end.

Definition conn_send_packet (packet : PacketWrapper) (c : Connection) : list net_effect :=
  if is_connected c then [NetStream (cn_task c) packet] else [].

Definition conn_send_packet_datagram (packet : PacketWrapper) (c : Connection) : list net_effect :=
  if is_connected c then [NetDatagram (cn_task c) packet] else [].

Definition send_immediate_heartbeat (now : float) (aes : Aes128State) (c : Connection)
    : list net_effect :=
  match cn_userid c with
  | None => []
  | Some userid =>
      if negb (is_connected c) then []
      else match build_heartbeat_packet now userid aes c with
           | Some packet => [NetDatagram (cn_task c) packet]
           | None => []
           end
  end.

(** The four setters: a change is announced at once. *)
Definition announce (now : float) (aes : Aes128State) (changed : bool) (c : Connection)
    : Connection * list net_effect :=
  (c, if changed then send_immediate_heartbeat now aes c else []).

Definition conn_set_video_enabled (now : float) (aes : Aes128State) (enabled : bool) (c : Connection)
    : Connection * list net_effect :=
  announce now aes (negb (Bool.eqb (cn_video_enabled c) enabled)) (c <| cn_video_enabled := enabled |>).

Definition conn_set_audio_enabled (now : float) (aes : Aes128State) (enabled : bool) (c : Connection)
    : Connection * list net_effect :=
  announce now aes (negb (Bool.eqb (cn_audio_enabled c) enabled)) (c <| cn_audio_enabled := enabled |>).

Definition conn_set_screen_enabled (now : float) (aes : Aes128State) (enabled : bool) (c : Connection)
    : Connection * list net_effect :=
  announce now aes (negb (Bool.eqb (cn_screen_enabled c) enabled)) (c <| cn_screen_enabled := enabled |>).

Definition conn_set_speaking (now : float) (aes : Aes128State) (speaking : bool) (c : Connection)
    : Connection * list net_effect :=
  announce now aes (negb (Bool.eqb (cn_is_speaking c) speaking)) (c <| cn_is_speaking := speaking |>).

Definition set_session_id (session_id : Z) (c : Connection) : Connection :=
  c <| cn_session_id := Some session_id |>.
End Heartbeat.
