(* ===== verification/ConnectionManager.v ===== *)
(** * The connection manager (videocall-client/src/connection)

    [connection_manager.rs]: candidate connections to every server, the election of
    the best one by round trip time, reconnection with backoff, re-election when the
    quality drops; and the timers of [connection_controller.rs] that drive it.

    The cells the manager shares with its callbacks are fields of one record. Opening
    a transport may fail: [opens] says for which servers it succeeds. A transport task
    has a number, given out by [cm_next_task]. The reconnection loop is a state
    machine with one state per [await]; [busy] is a failed [try_borrow], [dropped] a
    weak reference that cannot be upgraded. The diagnostics events are left out. *)
From Stdlib Require Import SpecFloat.
From S2P Require Import Prelude Floats Protocol Media Connection.

(** ** Constants *)

Definition RECONNECT_INITIAL_DELAY_MS : Z := 500.
Definition RECONNECT_MAX_DELAY_PHASE1_MS : Z := 2000.
Definition RECONNECT_MAX_DELAY_PHASE2_MS : Z := 10000.
Definition RECONNECT_MAX_DELAY_PHASE3_MS : Z := 30000.
Definition RECONNECT_PHASE1_MAX_ATTEMPTS : Z := 5.
Definition RECONNECT_PHASE2_MAX_ATTEMPTS : Z := 15.
Definition RECONNECT_BACKOFF_MULTIPLIER : float := F64.of_Z 2.
Definition RECONNECT_CONSECUTIVE_ZERO_LIMIT : Z := 10.
Definition REELECTION_RTT_MULTIPLIER : float := F64.of_Z 3.
Definition REELECTION_RTT_MIN_THRESHOLD_MS : float := F64.of_Z 50.
Definition REELECTION_CONSECUTIVE_SAMPLES : Z := 5.
Definition ELECTION_MIN_RTT_SAMPLES : nat := 2.
Definition ELECTION_MAX_EXTENSIONS : Z := 2.
Definition RTT_SANITY_MAX_MS : float := F64.of_Z 10000.

(** ** State *)

Inductive ConnectionState : Type :=
| CsTesting (progress : float) (servers_tested total_servers : Z)
| CsConnected (server_url : string) (rtt : float) (is_webtransport : bool)
| CsReconnecting (server_url : string) (attempt : Z)
| CsFailed (error : string) (last_known_server : option string).

Record ServerRttMeasurement : Type := mkMeasurement {
  ms_url : string;
  ms_is_webtransport : bool;
  ms_measurements : list float;
  ms_average_rtt : option float;
  ms_connection_id : string;
  ms_active : bool;
  ms_connected : bool;
}.

#[export] Instance eta_Measurement : Eta ServerRttMeasurement := fun r =>
  mkMeasurement (ms_url r) (ms_is_webtransport r) (ms_measurements r) (ms_average_rtt r)
    (ms_connection_id r) (ms_active r) (ms_connected r).

Inductive ElectionState : Type :=
| ElTesting (start_time : float) (duration_ms : Z) (extensions_used : Z)
| ElElected (connection_id : string) (elected_at : float)
| ElFailed (reason : string) (failed_at : float).

Inductive ReconnectionPhase : Type :=
| PhIdle
| PhReconnecting (attempt : Z) (next_delay_ms : Z)
| PhFailed.

Record ConnectionManagerOptions : Type := mkOptions {
  websocket_urls : list string;
  webtransport_urls : list string;
  co_userid : string;
  election_period_ms : Z;
}.

Record ConnectionManager : Type := mkCM {
  connections : gmap string Connection;
  active_connection_id : option string;
  rtt_measurements : gmap string ServerRttMeasurement;
  election_state : ElectionState;
  rtt_responses : list (string * MediaPacket * float);
  cm_options : ConnectionManagerOptions;
  cm_aes : Aes128State;
  own_session_id : option Z;
  pending_session_ids : gmap string Z;
  reconnection_phase : ReconnectionPhase;
  baseline_rtt : option float;
  degradation_counter : Z;
  reelection_in_progress : bool;
  old_active_connection : option (string * Connection);
  intentionally_disconnected : bool;
  cm_next_task : Z;
}.

#[export] Instance eta_CM : Eta ConnectionManager := fun r =>
  mkCM (connections r) (active_connection_id r) (rtt_measurements r) (election_state r)
    (rtt_responses r) (cm_options r) (cm_aes r) (own_session_id r) (pending_session_ids r)
    (reconnection_phase r) (baseline_rtt r) (degradation_counter r) (reelection_in_progress r)
    (old_active_connection r) (intentionally_disconnected r) (cm_next_task r).

Inductive cm_effect : Type :=
| CmNet (e : net_effect)
| CmState (s : ConnectionState)
| CmInbound (packet : PacketWrapper).

Definition total_server_count (m : ConnectionManager) : Z :=
  Z.of_nat (length (websocket_urls (cm_options m)) + length (webtransport_urls (cm_options m))).

(** ** What the user interface sees *)

Definition get_connection_state (now : float) (m : ConnectionManager) : ConnectionState :=
  match election_state m with
  | ElTesting start_time duration_ms _ =>
      let elapsed := F64.sub now start_time in
      let progress := F32.of_f64 (fmin (F64.div elapsed (F64.of_Z duration_ms)) (F64.of_Z 1)) in
      CsTesting progress (Z.of_nat (size (connections m))) (total_server_count m)
  | ElElected connection_id _ =>
      match rtt_measurements m !! connection_id with
      | Some ms => CsConnected (ms_url ms) (default (F64.of_Z 0) (ms_average_rtt ms))
                     (ms_is_webtransport ms)
      | None => CsFailed "Elected connection not found in measurements" None
      end
  | ElFailed reason _ =>
      CsFailed reason (id ← active_connection_id m; ms_url <$> rtt_measurements m !! id)
  end.

Definition report_state (now : float) (m : ConnectionManager) : list cm_effect :=
  [CmState (get_connection_state now m)].

Definition cm_is_connected (m : ConnectionManager) : bool :=
  bool_decide (is_Some (active_connection_id m)) &&
  match election_state m with ElElected _ _ => true | _ => false end.

(** ** Candidates and elections *)

(** [new]: [None] is the error when no server is given. *)
Definition cm_new (now : float) (options : ConnectionManagerOptions) (aes : Aes128State)
    : option ConnectionManager :=
  if bool_decide (length (websocket_urls options) + length (webtransport_urls options) = 0)%nat
  then None
  else Some (mkCM ∅ None ∅ (ElFailed "Not started" now) [] options aes None ∅ PhIdle None 0 false
               None false 0).

(** One candidate; when the transport cannot be opened the error is logged. *)
Definition create_connection (opens : bool -> string -> bool) (webtransport : bool)
    (m : ConnectionManager) (entry : string * string) : ConnectionManager :=
  let '(conn_id, url) := entry in
  if opens webtransport url then
    m <| connections := <[conn_id := connect (cm_next_task m) url]> (connections m) |>
      <| cm_next_task := cm_next_task m + 1 |>
      <| rtt_measurements :=
           <[conn_id := mkMeasurement url webtransport [] None conn_id false false]>
             (rtt_measurements m) |>
  else m.

(** [format!("ws_{i}")] beside each url. *)
Definition conn_ids (prefix : string) (urls : list string) : list (string * string) :=
  imap (fun i url => (prefix +:+ show_u64 (Z.of_nat i), url)) urls.

Definition create_all_connections (opens : bool -> string -> bool) (m : ConnectionManager)
    : ConnectionManager :=
  let m := foldl (create_connection opens false) m (conn_ids "ws_" (websocket_urls (cm_options m))) in
  foldl (create_connection opens true) m (conn_ids "wt_" (webtransport_urls (cm_options m))).

Definition start_election (now : float) (opens : bool -> string -> bool) (m : ConnectionManager)
    : ConnectionManager * list cm_effect :=
  let m := (create_all_connections opens m)
             <| election_state := ElTesting now (election_period_ms (cm_options m)) 0 |> in
  (m, report_state now m).

Definition reset_and_start_election (now : float) (opens : bool -> string -> bool)
    (m : ConnectionManager) : ConnectionManager * list cm_effect :=
  start_election now opens
    (m <| old_active_connection := None |> <| connections := ∅ |> <| rtt_measurements := ∅ |>
       <| rtt_responses := [] |> <| pending_session_ids := ∅ |> <| active_connection_id := None |>
       <| baseline_rtt := None |> <| degradation_counter := 0 |> <| reelection_in_progress := false |>).

(** ** Round trip times *)

Section Rtt.
Context {wire : Wire} {media : MediaWire} {cipher : Cipher}.
(** The iteration order of the map of measurements. *)
Context (iter : gmap string ServerRttMeasurement -> list (string * ServerRttMeasurement)).
Context (iter_conn : gmap string Connection -> list (string * Connection)).

Definition create_rtt_packet (timestamp : float) (m : ConnectionManager) : option PacketWrapper :=
  let userid := as_bytes (co_userid (cm_options m)) in
  let media_packet := media_default <| media_type := RTT |> <| mp_user_id := userid |>
                        <| mp_timestamp := timestamp |> in
  bytes ← write_media media_packet;
  data ← aes_encrypt (cm_aes m) bytes;
  Some (wrapper_default <| packet_type := MEDIA |> <| pw_user_id := userid |> <| pw_data := data |>).

(** Errors are logged by the caller. *)
Definition send_rtt_probe (now : float) (connection_id : string) (m : ConnectionManager)
    : ConnectionManager * list net_effect :=
  match connections m !! connection_id with
  | None => (m, [])
  | Some connection =>
      if negb (is_connected connection) then (m, [])
      else
        let m := m <| rtt_measurements :=
                   alter (fun ms => ms <| ms_connected := true |>) connection_id (rtt_measurements m) |> in
        (m, match create_rtt_packet now m with
            | Some packet => conn_send_packet_datagram packet connection
            | None => []
            end)
  end.

Definition send_rtt_probes (now : float) (m : ConnectionManager)
    : ConnectionManager * list net_effect :=
  foldl (fun '(m, out) id => let '(m', o) := send_rtt_probe now id m in (m', out ++ o)) (m, [])
    (fst <$> iter_conn (connections m)).

Definition plausible_rtt (rtt : float) : bool := fle (F64.of_Z 0) rtt && fle rtt RTT_SANITY_MAX_MS.

Definition mean (l : list float) : float :=
  F64.div (foldl F64.add (F64.of_Z 0) l) (F64.of_Z (Z.of_nat (length l))).

Definition record_rtt (rtt : float) (ms : ServerRttMeasurement) : ServerRttMeasurement :=
  let l := ms_measurements ms ++ [rtt] in
  let l := if (10 <? length l)%nat then drop 1 l else l in
  ms <| ms_measurements := l |> <| ms_average_rtt := Some (mean l) |>.

Definition handle_rtt_response (connection_id : string) (media_packet : MediaPacket)
    (reception_time : float) (m : ConnectionManager) : ConnectionManager :=
  let rtt := F64.sub reception_time (mp_timestamp media_packet) in
  if negb (plausible_rtt rtt) then m
  else m <| rtt_measurements := alter (record_rtt rtt) connection_id (rtt_measurements m) |>.

Definition process_queued_rtt_responses (m : ConnectionManager) : ConnectionManager :=
  foldl (fun m '(id, packet, t) => handle_rtt_response id packet t m)
    (m <| rtt_responses := [] |>) (rtt_responses m).

(** ** The election *)

(** A candidate that leads its class, with its average. *)
Definition leader : Type := option (string * ServerRttMeasurement * float).

Definition beats (avg : float) (best : leader) : bool :=
  flt avg (match best with Some (_, _, rtt) => rtt | None => S754_infinity false end).

(** The four classes of the loop: enough samples or not, WebTransport or WebSocket. *)
Record Leaders : Type := mkLeaders {
  best_wt : leader;
  best_ws : leader;
  fallback_wt : leader;
  fallback_ws : leader;
}.

Definition consider (m : ConnectionManager) (best : Leaders) (entry : string * ServerRttMeasurement)
    : Leaders :=
  let '(id, ms) := entry in
  let established := match connections m !! id with Some c => is_connected c | None => true end in
  match ms_average_rtt ms with
  | Some avg =>
      if negb established || bool_decide (ms_measurements ms = []) then best
      else
        let has_enough := (ELECTION_MIN_RTT_SAMPLES <=? length (ms_measurements ms))%nat in
        let b := Some (id, ms, avg) in
        if ms_is_webtransport ms then
          if has_enough && beats avg (best_wt best)
          then mkLeaders b (best_ws best) (fallback_wt best) (fallback_ws best)
          else if negb has_enough && beats avg (fallback_wt best)
          then mkLeaders (best_wt best) (best_ws best) b (fallback_ws best)
          else best
        else if has_enough && beats avg (best_ws best)
        then mkLeaders (best_wt best) b (fallback_wt best) (fallback_ws best)
        else if negb has_enough && beats avg (fallback_ws best)
        then mkLeaders (best_wt best) (best_ws best) (fallback_wt best) b
        else best
  | None => best
  end.

Definition no_leaders : Leaders := mkLeaders None None None None.

Definition prefer (best : Leaders) : leader :=
  match best_wt best with
  | Some b => Some b
  | None => match best_ws best with
            | Some b => Some b
            | None => match fallback_wt best with Some b => Some b | None => fallback_ws best end
            end
  end.

Definition find_best_connection (m : ConnectionManager) : option (string * ServerRttMeasurement) :=
  fst <$> prefer (foldl (consider m) no_leaders (iter (rtt_measurements m))).

Definition close_unused_connections (m : ConnectionManager) : ConnectionManager :=
  m <| connections := filter (fun '(id, _) => Some id = active_connection_id m) (connections m) |>.

(** The session id that arrived on the elected connection before the election. *)
Definition apply_pending_session (connection_id : string) (m : ConnectionManager) : ConnectionManager :=
  let m :=
    match pending_session_ids m !! connection_id with
    | None => m
    | Some sid =>
        if bool_decide (own_session_id m = Some sid) then m
        else m <| own_session_id := Some sid |>
               <| connections := alter (set_session_id sid) connection_id (connections m) |>
    end in
  m <| pending_session_ids := ∅ |>.

Definition elect (now : float) (connection_id : string) (ms : ServerRttMeasurement)
    (m : ConnectionManager) : ConnectionManager :=
  let m := m <| active_connection_id := Some connection_id |>
             <| rtt_measurements :=
                  alter (fun x => x <| ms_active := true |>) connection_id (rtt_measurements m) |>
             <| election_state := ElElected connection_id now |> in
  let m := apply_pending_session connection_id m in
  let m := m <| connections := alter (start_heartbeat (co_userid (cm_options m))) connection_id
                                 (connections m) |>
             <| baseline_rtt := ms_average_rtt ms |> <| degradation_counter := 0 |>
             <| reelection_in_progress := false |> in
  (close_unused_connections m) <| old_active_connection := None |>.

Definition complete_election (now : float) (m : ConnectionManager)
    : ConnectionManager * list cm_effect :=
  let m' :=
    match find_best_connection m with
    | Some (connection_id, ms) => elect now connection_id ms m
    | None => m <| election_state := ElFailed "No valid connections with RTT measurements found" now |>
    end in
  (m', report_state now m').

Definition has_enough_samples (m : ConnectionManager) : bool :=
  existsb (fun '(_, ms) => (ELECTION_MIN_RTT_SAMPLES <=? length (ms_measurements ms))%nat
                           && bool_decide (is_Some (ms_average_rtt ms))) (iter (rtt_measurements m)).

Definition check_and_complete_election (now : float) (m : ConnectionManager)
    : ConnectionManager * list cm_effect :=
  match election_state m with
  | ElTesting start_time duration_ms extensions_used =>
      let elapsed := F64.sub now start_time in
      if flt elapsed (F64.of_Z duration_ms) then (m, [])
      else if has_enough_samples m || (ELECTION_MAX_EXTENSIONS <=? extensions_used)
      then complete_election now m
      else (m <| election_state :=
                   ElTesting start_time (duration_ms +u64 1000) (extensions_used +u32 1) |>, [])
  | _ => (m, [])
  end.

(** ** Inbound packets *)

(** The callback every candidate gets, for its own connection id. *)
Definition on_inbound (now : float) (connection_id : string) (packet : PacketWrapper)
    (m : ConnectionManager) : ConnectionManager * list cm_effect :=
  if packet_type packet =? SESSION_ASSIGNED then
    let sid := pw_session_id packet in
    if bool_decide (active_connection_id m = Some connection_id)
    then (m <| own_session_id := Some sid |>, [CmInbound packet])
    else (m <| pending_session_ids := <[connection_id := sid]> (pending_session_ids m) |>, [])
  else
    let rtt_response :=
      if bool_decide (pw_user_id packet = as_bytes (co_userid (cm_options m))) then
        decrypted ← aes_decrypt (cm_aes m) (pw_data packet);
        media_packet ← parse_media decrypted;
        if media_type media_packet =? RTT then Some media_packet else None
      else None in
    match rtt_response with
    | Some media_packet =>
        (m <| rtt_responses := rtt_responses m ++ [(connection_id, media_packet, now)] |>, [])
    | None =>
        let own := match own_session_id m with
                   | Some own_id => negb (pw_session_id packet =? 0) && (pw_session_id packet =? own_id)
                   | None => false
                   end in
        let elsewhere := match active_connection_id m with
                         | Some elected_id => negb (bool_decide (elected_id = connection_id))
                         | None => false
                         end in
        (m, if own || elsewhere then [] else [CmInbound packet])
    end.

(** ** Quality monitoring *)

Definition check_rtt_degradation (m : ConnectionManager) : ConnectionManager * bool :=
  match baseline_rtt m with
  | None => (m, false)
  | Some baseline =>
      if negb (flt (F64.of_Z 0) baseline) then (m, false)
      else if reelection_in_progress m then (m, false)
      else
        match (id ← active_connection_id m; ms ← rtt_measurements m !! id; ms_average_rtt ms) with
        | None => (m, false)
        | Some current_rtt =>
            let threshold := fmax (F64.mul baseline REELECTION_RTT_MULTIPLIER)
                               REELECTION_RTT_MIN_THRESHOLD_MS in
            if flt threshold current_rtt then
              let m := m <| degradation_counter := degradation_counter m +u32 1 |> in
              if REELECTION_CONSECUTIVE_SAMPLES <=? degradation_counter m then
                if total_server_count m <=? 1
                then (m <| degradation_counter := 0 |> <| baseline_rtt := Some current_rtt |>, false)
                else (m, true)
              else (m, false)
            else (m <| degradation_counter := 0 |>, false)
        end
  end.

Definition start_reelection (now : float) (opens : bool -> string -> bool) (m : ConnectionManager)
    : ConnectionManager :=
  if reelection_in_progress m then m
  else
    let m := m <| reelection_in_progress := true |> <| degradation_counter := 0 |>
               <| baseline_rtt := None |> in
    let preserved := (id ← active_connection_id m; c ← connections m !! id; Some (id, c)) in
    let m := match preserved with
             | Some old => m <| old_active_connection := Some old |>
             | None => m
             end in
    let m := m <| connections := ∅ |> <| rtt_measurements := ∅ |> <| rtt_responses := [] |>
               <| pending_session_ids := ∅ |> in
    (create_all_connections opens m)
      <| election_state := ElTesting now (election_period_ms (cm_options m)) 0 |>.

(** ** Sending *)

Definition get_active_connection (m : ConnectionManager) : option Connection :=
  id ← active_connection_id m;
  match connections m !! id with
  | Some conn => Some conn
  | None => match old_active_connection m with
            | Some (old_id, old_conn) => if bool_decide (old_id = id) then Some old_conn else None
            | None => None
            end
  end.

(** [None] is the error "No active connection available". *)
Definition cm_send_packet (packet : PacketWrapper) (m : ConnectionManager) : option (list net_effect) :=
  conn_send_packet packet <$> get_active_connection m.

Definition cm_send_packet_datagram (packet : PacketWrapper) (m : ConnectionManager)
    : option (list net_effect) :=
  conn_send_packet_datagram packet <$> get_active_connection m.

(** An update of the active connection, where it is kept. *)
Definition update_active (f : Connection -> Connection) (m : ConnectionManager) : ConnectionManager :=
  match active_connection_id m with
  | None => m
  | Some id =>
      match connections m !! id with
      | Some _ => m <| connections := alter f id (connections m) |>
      | None =>
          match old_active_connection m with
          | Some (old_id, old_conn) =>
              if bool_decide (old_id = id)
              then m <| old_active_connection := Some (old_id, f old_conn) |> else m
          | None => m
          end
      end
  end.

(** The setters of the media flags; the [bool] is [Ok]. *)
Definition set_on_active (set : Connection -> Connection * list net_effect) (m : ConnectionManager)
    : ConnectionManager * list net_effect * bool :=
  match get_active_connection m with
  | Some conn => (update_active (fun c => (set c).1) m, (set conn).2, true)
  | None => (m, [], false)
  end.

Definition cm_set_video_enabled (now : float) (enabled : bool) (m : ConnectionManager) :=
  set_on_active (conn_set_video_enabled now (cm_aes m) enabled) m.
Definition cm_set_audio_enabled (now : float) (enabled : bool) (m : ConnectionManager) :=
  set_on_active (conn_set_audio_enabled now (cm_aes m) enabled) m.
Definition cm_set_screen_enabled (now : float) (enabled : bool) (m : ConnectionManager) :=
  set_on_active (conn_set_screen_enabled now (cm_aes m) enabled) m.
Definition cm_set_speaking (now : float) (speaking : bool) (m : ConnectionManager) :=
  set_on_active (conn_set_speaking now (cm_aes m) speaking) m.

Definition set_own_session_id (session_id : Z) (m : ConnectionManager) : ConnectionManager :=
  update_active (set_session_id session_id) (m <| own_session_id := Some session_id |>).

Definition cm_disconnect (m : ConnectionManager) : ConnectionManager :=
  m <| intentionally_disconnected := true |> <| reconnection_phase := PhIdle |>
    <| active_connection_id := None |> <| old_active_connection := None |> <| connections := ∅ |>.

(** ** Reconnection *)

(** [random] is [Math.random()]. *)
Definition max_delay (attempt : Z) : Z :=
  if attempt <=? RECONNECT_PHASE1_MAX_ATTEMPTS then RECONNECT_MAX_DELAY_PHASE1_MS
  else if attempt <=? RECONNECT_PHASE2_MAX_ATTEMPTS then RECONNECT_MAX_DELAY_PHASE2_MS
  else RECONNECT_MAX_DELAY_PHASE3_MS.

Definition next_backoff_delay (random : float) (current_delay_ms : Z) (multiplier : float)
    (attempt : Z) : Z :=
  let base := as_u 64 (F64.mul (F64.of_Z current_delay_ms) multiplier) in
  let jitter := as_u 64 (F64.mul (F64.mul (F64.of_Z base) (F64.lit 1 2)) random) in
  Z.min (base +u64 jitter) (max_delay attempt).

(** Where the loop awaits: the backoff, the pause after a borrow conflict, the
    election. *)
Inductive LoopStage : Type := Backoff | BusyWait | Electing.

Record ReconnectLoop : Type := mkLoop {
  rl_attempt : Z;
  rl_delay_ms : Z;
  rl_zero : Z;
  rl_url : string;
  rl_stage : LoopStage;
}.

#[global] Instance eta_Loop : Eta ReconnectLoop := fun r =>
  mkLoop (rl_attempt r) (rl_delay_ms r) (rl_zero r) (rl_url r) (rl_stage r).

(** From the top of the loop to the backoff; [None]: the loop has returned. *)
Definition loop_top (l : ReconnectLoop) (m : ConnectionManager)
    : ConnectionManager * list cm_effect * option ReconnectLoop :=
  if intentionally_disconnected m then (m <| reconnection_phase := PhIdle |>, [], None)
  else
    let attempt := rl_attempt l +u32 1 in
    (m <| reconnection_phase := PhReconnecting attempt (rl_delay_ms l) |>,
     [CmState (CsReconnecting (rl_url l) attempt)],
     Some (l <| rl_attempt := attempt |> <| rl_stage := Backoff |>)).

Definition loop_after_backoff (now : float) (opens : bool -> string -> bool) (busy dropped : bool)
    (l : ReconnectLoop) (m : ConnectionManager)
    : ConnectionManager * list cm_effect * option ReconnectLoop :=
  if intentionally_disconnected m then (m <| reconnection_phase := PhIdle |>, [], None)
  else if bool_decide (is_Some (active_connection_id m))
  then (m <| reconnection_phase := PhIdle |>, [], None)
  else if dropped then
    (m <| reconnection_phase := PhFailed |>,
     [CmState (CsFailed "Connection manager destroyed during reconnection" (Some (rl_url l)))], None)
  else if busy then
    (m, [], Some (l <| rl_attempt := sat_sub (rl_attempt l) 1 |> <| rl_stage := BusyWait |>))
  else
    let '(m, effects) := reset_and_start_election now opens m in
    if intentionally_disconnected m then (m <| reconnection_phase := PhIdle |>, effects, None)
    else (m, effects, Some (l <| rl_stage := Electing |>)).

Definition any_connected (m : ConnectionManager) : bool :=
  existsb (fun '(_, c) => is_connected c) (iter_conn (connections m)).

Definition loop_after_election (now random : float) (busy : bool) (l : ReconnectLoop)
    (m : ConnectionManager) : ConnectionManager * list cm_effect * option ReconnectLoop :=
  if negb busy && cm_is_connected m then
    (m <| reconnection_phase := PhIdle |>, [CmState (get_connection_state now m)], None)
  else
    let zero := if busy then rl_zero l
                else if any_connected m then 0 else rl_zero l +u32 1 in
    if RECONNECT_CONSECUTIVE_ZERO_LIMIT <=? zero then
      (m <| reconnection_phase := PhFailed |>,
       [CmState (CsFailed ("Server rejected connection (" +:+ show_u64 zero +:+
          " consecutive failures — possible auth/session error)") (Some (rl_url l)))], None)
    else
      loop_top (l <| rl_zero := zero |>
                  <| rl_delay_ms := next_backoff_delay random (rl_delay_ms l)
                                      RECONNECT_BACKOFF_MULTIPLIER (rl_attempt l) |>) m.

(** A wake-up of the loop. *)
Record LoopEnv : Type := mkLoopEnv {
  le_now : float;
  le_random : float;
  le_opens : bool -> string -> bool;
  le_busy : bool;
  le_dropped : bool;
}.

Definition loop_wake (env : LoopEnv) (l : ReconnectLoop) (m : ConnectionManager)
    : ConnectionManager * list cm_effect * option ReconnectLoop :=
  match rl_stage l with
  | Backoff => loop_after_backoff (le_now env) (le_opens env) (le_busy env) (le_dropped env) l m
  | BusyWait => loop_top l m
  | Electing => loop_after_election (le_now env) (le_random env) (le_busy env) l m
  end.

(** The callback for a lost connection; a spawned loop runs to its first [await]. *)
Definition on_connection_lost (connection_id server_url : string) (m : ConnectionManager)
    : ConnectionManager * list cm_effect * option ReconnectLoop :=
  if intentionally_disconnected m then (m, [], None)
  else if negb (bool_decide (active_connection_id m = Some connection_id)) then (m, [], None)
  else
    let m := m <| active_connection_id := None |> in
    match reconnection_phase m with
    | PhReconnecting _ _ => (m, [], None)
    | _ =>
        let m := m <| reconnection_phase := PhReconnecting 0 RECONNECT_INITIAL_DELAY_MS |> in
        let '(m, effects, l) :=
          loop_top (mkLoop 0 RECONNECT_INITIAL_DELAY_MS 0 server_url Backoff) m in
        (m, CmState (CsReconnecting server_url 1) :: effects, l)
    end.

(** ** The whole: manager, loops and timers *)

(** The connection of a task changes, wherever it is kept. *)
Definition update_task (task : Z) (f : Connection -> Connection) (m : ConnectionManager)
    : ConnectionManager :=
  let g c := if cn_task c =? task then f c else c in
  m <| connections := g <$> connections m |>
    <| old_active_connection := (fun '(id, c) => (id, g c)) <$> old_active_connection m |>.

Definition find_task (task : Z) (m : ConnectionManager) : option Connection :=
  match list_find (fun '(_, c) => cn_task c = task) (iter_conn (connections m)) with
  | Some (_, (_, c)) => Some c
  | None => '(_, c) ← old_active_connection m; if cn_task c =? task then Some c else None
  end.

Inductive cm_event : Type :=
| EvConnected (task : Z)
| EvLost (task : Z) (connection_id server_url : string)
| EvInbound (now : float) (connection_id : string) (packet : PacketWrapper)
| EvTimer1000 (now : float) (opens : bool -> string -> bool)
| EvTimer200 (now : float)
| EvTimer100 (now : float)
| EvHeartbeat (now : float) (task : Z)
| EvLoop (index : nat) (env : LoopEnv)
| EvSend (packet : PacketWrapper)
| EvSetVideo (now : float) (enabled : bool)
| EvSetAudio (now : float) (enabled : bool)
| EvSetScreen (now : float) (enabled : bool)
| EvSetSpeaking (now : float) (speaking : bool)
| EvSetSession (session_id : Z)
| EvDisconnect.

Record CmSystem : Type := mkSystem {
  sys_manager : ConnectionManager;
  sys_loops : list ReconnectLoop;
}.

Definition is_testing (s : ConnectionState) : bool := match s with CsTesting _ _ _ => true | _ => false end.
Definition is_up (s : ConnectionState) : bool := match s with CsConnected _ _ _ => true | _ => false end.

(** The timer of one second of the controller. *)
Definition timer_1000 (now : float) (opens : bool -> string -> bool) (m : ConnectionManager)
    : ConnectionManager * list cm_effect :=
  let m := process_queued_rtt_responses m in
  if is_up (get_connection_state now m) then
    let '(m, out) := send_rtt_probes now m in
    let '(m, degraded) := check_rtt_degradation m in
    (if degraded then start_reelection now opens m else m, CmNet <$> out)
  else (m, []).

Definition timer_200 (now : float) (m : ConnectionManager) : ConnectionManager * list cm_effect :=
  if is_testing (get_connection_state now m)
  then let '(m, out) := send_rtt_probes now m in (m, CmNet <$> out) else (m, []).

Definition with_manager (s : CmSystem) (r : ConnectionManager * list cm_effect)
    : CmSystem * list cm_effect :=
  (mkSystem r.1 (sys_loops s), r.2).

Definition cm_step (s : CmSystem) (ev : cm_event) : CmSystem * list cm_effect :=
  let m := sys_manager s in
  match ev with
  | EvConnected task => with_manager s (update_task task on_connected_tap m, [])
  | EvLost task connection_id url =>
      let '(m, effects, l) := on_connection_lost connection_id url (update_task task on_lost_tap m) in
      (mkSystem m (sys_loops s ++ option_list l), effects)
  | EvInbound now id packet => with_manager s (on_inbound now id packet m)
  | EvTimer1000 now opens => with_manager s (timer_1000 now opens m)
  | EvTimer200 now => with_manager s (timer_200 now m)
  | EvTimer100 now => with_manager s (check_and_complete_election now m)
  | EvHeartbeat now task =>
      with_manager s (m, match find_task task m with
                         | Some c => CmNet <$> heartbeat_tick now (cm_aes m) c
                         | None => []
                         end)
  | EvLoop index env =>
      match sys_loops s !! index with
      | None => (s, [])
      | Some l =>
          let '(m, effects, next) := loop_wake env l m in
          (mkSystem m (take index (sys_loops s) ++ option_list next ++ drop (S index) (sys_loops s)),
           effects)
      end
  | EvSend packet => with_manager s (m, CmNet <$> default [] (cm_send_packet packet m))
  | EvSetVideo now b => let '(m, out, _) := cm_set_video_enabled now b m in with_manager s (m, CmNet <$> out)
  | EvSetAudio now b => let '(m, out, _) := cm_set_audio_enabled now b m in with_manager s (m, CmNet <$> out)
  | EvSetScreen now b => let '(m, out, _) := cm_set_screen_enabled now b m in with_manager s (m, CmNet <$> out)
  | EvSetSpeaking now b => let '(m, out, _) := cm_set_speaking now b m in with_manager s (m, CmNet <$> out)
  | EvSetSession sid => with_manager s (set_own_session_id sid m, [])
  | EvDisconnect => with_manager s (cm_disconnect m, [])
  end.

(** [ConnectionController::new]. *)
Definition controller_new (now : float) (opens : bool -> string -> bool)
    (options : ConnectionManagerOptions) (aes : Aes128State) : option (CmSystem * list cm_effect) :=
  m ← cm_new now options aes;
  let '(m, effects) := start_election now opens m in
  Some (mkSystem m [], effects).
End Rtt.
