(* ===== verification/ConnectionManagerProps.v ===== *)
(** * Properties of the connection manager

    The election picks the best candidate whatever the iteration order; it ends; the
    measurements stay within their bounds; only the elected connection survives;
    reconnection gives up after ten silent attempts and stops for good after an
    intentional disconnect; and what becomes of media and congestion signals. *)
From Stdlib Require Import SpecFloat.
From S2P Require Import Prelude Floats Protocol DemoWire SessionLogic Media PeerDecode DemoMedia.
From S2P Require Import Connection ConnectionManager.

Section Props.
Context {wire : Wire} {media : MediaWire} {cipher : Cipher}.
Context (iter : gmap string ServerRttMeasurement -> list (string * ServerRttMeasurement)).
Context (iter_conn : gmap string Connection -> list (string * Connection)).

(** ** The winner of an election *)

(** Candidates that may be elected, with their average. *)
Definition eligible (m : ConnectionManager) (id : string) (ms : ServerRttMeasurement) (avg : float) : Prop :=
  ms_average_rtt ms = Some avg /\ ms_measurements ms <> [] /\ flt avg (S754_infinity false) = true /\
  match connections m !! id with Some c => is_connected c = true | None => True end.

(** The order of preference: enough samples first, then WebTransport. *)
Definition rank (ms : ServerRttMeasurement) : nat :=
  (if (ELECTION_MIN_RTT_SAMPLES <=? length (ms_measurements ms))%nat then 0 else 2) +
  (if ms_is_webtransport ms then 0 else 1).

Definition slot (k : nat) (b : Leaders) : leader :=
  match k with
  | 0%nat => best_wt b
  | 1%nat => best_ws b
  | 2%nat => fallback_wt b
  | _ => fallback_ws b
  end.

(** The leader of a class after some candidates: the best one of them. *)
Definition leads (m : ConnectionManager) (k : nat) (l : list (string * ServerRttMeasurement)) (b : leader)
    : Prop :=
  match b with
  | None => forall id ms avg, (id, ms) ∈ l -> eligible m id ms avg -> rank ms <> k
  | Some (id, ms, avg) =>
      (id, ms) ∈ l /\ eligible m id ms avg /\ rank ms = k /\
      forall id' ms' avg', (id', ms') ∈ l -> eligible m id' ms' avg' -> rank ms' = k -> fle avg avg' = true
  end.

Lemma flt_not_nan x y : flt x y = true -> is_nan x = false /\ is_nan y = false.
Proof. by destruct x, y. Qed.

(** What a candidate does to the leader of its own class. *)
Definition challenge (id : string) (ms : ServerRttMeasurement) (avg : float) (b : leader) : leader :=
  if beats avg b then Some (id, ms, avg) else b.

Lemma leads_challenge m k l b id ms avg :
  eligible m id ms avg -> rank ms = k -> leads m k l b ->
  leads m k ((id, ms) :: l) (challenge id ms avg b).
Proof.
  intros He Hk Hb. unfold challenge, beats. pose proof He as (Ea & _ & Hinf & _).
  destruct (flt_not_nan _ _ Hinf) as [Hnan _].
  assert (forall avg', eligible m id ms avg' -> avg' = avg) as Huniq by (intros ? (? & _); congruence).
  destruct b as [[[id0 ms0] avg0]|]; simpl in Hb.
  - destruct Hb as (Hin & He0 & Hk0 & Hmin). pose proof He0 as (_ & _ & Hinf0 & _).
    destruct (flt_not_nan _ _ Hinf0) as [Hnan0 _]. destruct (flt avg avg0) eqn:Ef; simpl.
    + split_and!; [left | done | done |]. intros id' ms' avg' [[= -> ->]|Hin']%elem_of_cons He' Hk'.
      * rewrite (Huniq _ He'). by apply fle_refl.
      * eapply fle_trans; [by apply flt_fle | by eapply Hmin].
    + split_and!; [by right | done | done |]. intros id' ms' avg' [[= -> ->]|Hin']%elem_of_cons He' Hk'.
      * rewrite (Huniq _ He'). by apply fle_total.
      * by eapply Hmin.
  - rewrite Hinf. simpl. split_and!; [left | done | done |].
    intros id' ms' avg' [[= -> ->]|Hin']%elem_of_cons He' Hk'.
    + rewrite (Huniq _ He'). by apply fle_refl.
    + by destruct (Hb _ _ _ Hin' He').
Qed.

(** Candidates of other classes, or not eligible, do not matter. *)
Lemma leads_skip m k l b id ms :
  (forall avg, eligible m id ms avg -> rank ms <> k) -> leads m k l b -> leads m k ((id, ms) :: l) b.
Proof.
  intros Hne. destruct b as [[[id0 ms0] avg0]|]; simpl.
  - intros (Hin & He0 & Hk0 & Hmin). split_and!; [by right | done | done |].
    intros id' ms' avg' [[= -> ->]|Hin']%elem_of_cons He' Hk'; [by destruct (Hne _ He') | by eapply Hmin].
  - intros Hb id' ms' avg' [[= -> ->]|Hin']%elem_of_cons He'; [by eapply Hne | by eapply Hb].
Qed.

Lemma not_below_infinity x y : flt x (S754_infinity false) = false -> flt x y = false.
Proof. destruct x as [|[]| |[]], y as [|[]| |[]]; done. Qed.

Lemma consider_spec m b id ms :
  (exists avg, eligible m id ms avg /\
     forall k, (k < 4)%nat -> slot k (consider m b (id, ms)) =
       if decide (k = rank ms) then challenge id ms avg (slot k b) else slot k b) \/
  ((forall avg, ~ eligible m id ms avg) /\ consider m b (id, ms) = b).
Proof.
  unfold consider. destruct (ms_average_rtt ms) as [avg|] eqn:Ea;
    [|right; split; [intros avg (? & _); congruence | done]].
  destruct (negb _ || _) eqn:Eskip.
  { right. split; [|done]. intros avg' (_ & Hne & _ & Hc). apply orb_true_iff in Eskip as [H|H].
    - destruct (connections m !! id); [by rewrite Hc in H | done].
    - by apply bool_decide_eq_true in H. }
  apply orb_false_iff in Eskip as [Hc%negb_false_iff Hne%bool_decide_eq_false].
  destruct (flt avg (S754_infinity false)) eqn:Einf.
  - left. exists avg. split; [split_and!; try done; by destruct (connections m !! id) |].
    intros k Hk. unfold rank, challenge.
    destruct (ELECTION_MIN_RTT_SAMPLES <=? _)%nat, (ms_is_webtransport ms); simpl;
      repeat case_match; try done; destruct k as [|[|[|[|k]]]]; simpl in *; try done; try lia; congruence.
  - right. split; [intros avg' (? & _ & ? & _); congruence |].
    assert (forall l, beats avg l = false) as Hb by (intros l; by apply not_below_infinity).
    rewrite !Hb, !andb_false_r. by destruct (ms_is_webtransport ms).
Qed.

Lemma consider_leads m l b id ms :
  (forall k, (k < 4)%nat -> leads m k l (slot k b)) ->
  forall k, (k < 4)%nat -> leads m k ((id, ms) :: l) (slot k (consider m b (id, ms))).
Proof.
  intros Hb k Hk. destruct (consider_spec m b id ms) as [(avg & He & Hs)|[Hne ->]].
  - rewrite Hs by done. case_decide as E.
    + apply leads_challenge; [done | by subst | by apply Hb].
    + apply leads_skip; [|by apply Hb]. intros avg' _ E'. by apply E.
  - apply leads_skip; [|by apply Hb]. intros avg He. by destruct (Hne avg).
Qed.

Lemma leads_perm m k l l' b : l ≡ₚ l' -> leads m k l b -> leads m k l' b.
Proof.
  intros Hp. destruct b as [[[id ms] avg]|]; simpl; [rewrite Hp | ]; setoid_rewrite Hp; done.
Qed.

Lemma consider_all m l :
  forall k, (k < 4)%nat -> leads m k l (slot k (foldl (consider m) no_leaders l)).
Proof.
  induction l as [|[id ms] l IH] using rev_ind; intros k Hk.
  - destruct k as [|[|[|[|k]]]]; simpl; intros id ms avg H; by apply elem_of_nil in H.
  - rewrite foldl_snoc. apply (leads_perm m k ((id, ms) :: l)); [by rewrite Permutation_app_comm |].
    by apply consider_leads.
Qed.

Lemma rank_bound ms : (rank ms < 4)%nat.
Proof. unfold rank. repeat case_match; lia. Qed.

(** The preferred leader is the one of the first class that has one. *)
Lemma prefer_slot (b : Leaders) :
  match prefer b with
  | Some x => exists k, (k < 4)%nat /\ slot k b = Some x /\ forall j, (j < k)%nat -> slot j b = None
  | None => forall k, slot k b = None
  end.
Proof.
  unfold prefer. destruct b as [[a|] [c|] [d|] [e|]]; simpl;
    try (intros [|[|[|k]]]; done);
    first [exists 0%nat; split_and!; [lia | done | lia]
          |exists 1%nat; split_and!; [lia | done | intros [|j] ?; done || lia]
          |exists 2%nat; split_and!; [lia | done | intros [|[|j]] ?; done || lia]
          |exists 3%nat; split_and!; [lia | done | intros [|[|[|j]]] ?; done || lia]].
Qed.

(** The leader of the first class that has one beats everybody. *)
Lemma leader_wins m l b k id ms avg :
  (forall j, (j < 4)%nat -> leads m j l (slot j b)) -> (k < 4)%nat ->
  slot k b = Some (id, ms, avg) -> (forall j, (j < k)%nat -> slot j b = None) ->
  (id, ms) ∈ l /\ eligible m id ms avg /\
  forall id' ms' avg', (id', ms') ∈ l -> eligible m id' ms' avg' ->
    (rank ms < rank ms')%nat \/ (rank ms = rank ms' /\ fle avg avg' = true).
Proof.
  intros Hall Hk E Hlower. pose proof (Hall k Hk) as Hlead. rewrite E in Hlead.
  destruct Hlead as (H1 & H2 & H3 & H4). split_and!; [done | done |]. intros id' ms' avg' Hin He'.
  destruct (Nat.lt_trichotomy (rank ms') k) as [Hlt|[Heq|Hgt]].
  - pose proof (Hall (rank ms') (rank_bound ms')) as Hl. rewrite (Hlower _ Hlt) in Hl.
    by destruct (Hl id' ms' avg' Hin He').
  - right. split; [congruence |]. by eapply H4.
  - left. lia.
Qed.

(** C11: the election is fair. Whatever the order in which the hash map is iterated,
    the winner is an established candidate with measurements; no other candidate has
    enough samples when the winner does not, or is a WebTransport when the winner is a
    WebSocket of the same class, or is of the same class with a lower average; and the
    election only fails when there is no candidate at all. *)
Theorem elected_is_best (m : ConnectionManager) :
  (forall x, iter x ≡ₚ map_to_list x) ->
  match find_best_connection iter m with
  | Some (id, ms) =>
      rtt_measurements m !! id = Some ms /\
      exists avg, eligible m id ms avg /\
        forall id' ms' avg', rtt_measurements m !! id' = Some ms' -> eligible m id' ms' avg' ->
          (rank ms < rank ms')%nat \/ (rank ms = rank ms' /\ fle avg avg' = true)
  | None => forall id ms avg, rtt_measurements m !! id = Some ms -> ~ eligible m id ms avg
  end.
Proof.
  intros Hiter. unfold find_best_connection.
  pose proof (consider_all m (iter (rtt_measurements m))) as Hall.
  pose proof (prefer_slot (foldl (consider m) no_leaders (iter (rtt_measurements m)))) as Hp.
  assert (forall id ms, (id, ms) ∈ iter (rtt_measurements m) <-> rtt_measurements m !! id = Some ms) as Hin
    by (intros; rewrite Hiter; apply elem_of_map_to_list).
  destruct (prefer _) as [[[id ms] avg]|]; simpl.
  - destruct Hp as (k & Hk & E & Hlower).
    destruct (leader_wins m _ _ k id ms avg Hall Hk E Hlower) as (H1 & H2 & H3).
    split; [by apply Hin |]. exists avg. split; [done |].
    intros id' ms' avg' E' He'. by apply (H3 id'); [apply Hin |].
  - intros id ms avg E He. pose proof (Hall (rank ms) (rank_bound ms)) as Hl. rewrite Hp in Hl.
    by destruct (Hl id ms avg (proj2 (Hin _ _) E) He).
Qed.

(** ** Invariants of the whole *)

(** At most ten samples, each between zero and ten seconds, and their mean. *)
Definition measurement_ok (ms : ServerRttMeasurement) : Prop :=
  (length (ms_measurements ms) <= 10)%nat /\ Forall (fun r => plausible_rtt r = true) (ms_measurements ms) /\
  ms_average_rtt ms = if decide (ms_measurements ms = []) then None else Some (mean (ms_measurements ms)).

(** Once elected, a connection is the only one left. *)
Definition sole (m : ConnectionManager) : Prop :=
  match election_state m with
  | ElElected id _ =>
      old_active_connection m = None /\ (active_connection_id m = Some id \/ active_connection_id m = None) /\
      map_Forall (fun k _ => k = id) (connections m)
  | _ => True
  end.

Record cm_inv (m : ConnectionManager) : Prop := mk_cm_inv {
  ci_rtt : map_Forall (fun _ => measurement_ok) (rtt_measurements m);
  ci_sole : sole m;
}.

(** The fields the invariant reads. *)
Definition same_inv (m m' : ConnectionManager) : Prop :=
  rtt_measurements m' = rtt_measurements m /\ election_state m' = election_state m /\
  old_active_connection m' = old_active_connection m /\
  active_connection_id m' = active_connection_id m /\ connections m' = connections m.

Lemma same_inv_ok m m' : same_inv m m' -> cm_inv m -> cm_inv m'.
Proof.
  intros (E1 & E2 & E3 & E4 & E5) [H1 H2]. split; [by rewrite E1 |].
  unfold sole in *. by rewrite E2, E3, E4, E5.
Qed.

Lemma record_rtt_ok rtt ms : plausible_rtt rtt = true -> measurement_ok ms -> measurement_ok (record_rtt rtt ms).
Proof.
  intros Hr (Hl & Hf & _). unfold record_rtt, measurement_ok. simpl.
  assert (Forall (fun r => plausible_rtt r = true) (ms_measurements ms ++ [rtt])) as Hall
    by (apply Forall_app; split; [done | by repeat constructor]).
  assert (length (ms_measurements ms ++ [rtt]) = S (length (ms_measurements ms))) as Hlen
    by (rewrite length_app; simpl; lia).
  destruct (10 <? length _)%nat eqn:E.
  - split_and!; [rewrite length_drop; lia | by apply Forall_drop |].
    rewrite decide_False; [done |]. intros Hnil. apply (f_equal length) in Hnil.
    rewrite length_drop in Hnil. apply Nat.ltb_lt in E. simpl in Hnil. lia.
  - apply Nat.ltb_ge in E. split_and!; [lia | done |]. rewrite decide_False; [done |].
    by destruct (ms_measurements ms).
Qed.

(** Maps whose values change under a function that keeps a property. *)
Lemma map_Forall_alter {V} (P : string -> V -> Prop) (f : V -> V) k (x : gmap string V) :
  (forall v, P k v -> P k (f v)) -> map_Forall P x -> map_Forall P (alter f k x).
Proof.
  intros Hf Hx j v. rewrite lookup_alter. case_decide; [|apply Hx]. subst.
  intros (w & E & ->)%fmap_Some. apply Hf. by apply Hx.
Qed.

Lemma alter_keys {V} (Q : string -> Prop) (f : V -> V) k (x : gmap string V) :
  map_Forall (fun j _ => Q j) x -> map_Forall (fun j _ => Q j) (alter f k x).
Proof. by apply map_Forall_alter. Qed.

Lemma with_rtt_inv m x :
  map_Forall (fun _ => measurement_ok) x -> cm_inv m -> cm_inv (m <| rtt_measurements := x |>).
Proof. intros Hx [H1 H2]. split; [exact Hx | exact H2]. Qed.

Lemma process_queue_inv m : cm_inv m -> cm_inv (process_queued_rtt_responses m).
Proof.
  intros Hm. unfold process_queued_rtt_responses.
  assert (cm_inv (m <| rtt_responses := [] |>)) as H0 by (by apply (same_inv_ok m)).
  revert H0. generalize (m <| rtt_responses := [] |>) as m0. generalize (rtt_responses m) as l.
  induction l as [|[[id packet] t] l IH]; intros m0 H0; simpl; [done |]. apply IH.
  unfold handle_rtt_response. destruct (plausible_rtt _) eqn:E; simpl; [|done].
  apply with_rtt_inv; [|done]. apply map_Forall_alter; [|apply H0]. intros ms. by apply record_rtt_ok.
Qed.

Lemma send_probes_inv now m : cm_inv m -> cm_inv (send_rtt_probes iter_conn now m).1.
Proof.
  intros Hm. unfold send_rtt_probes. generalize (@nil net_effect) as out.
  revert Hm. generalize (fst <$> iter_conn (connections m)) as l. intros l. revert m.
  induction l as [|id l IH]; intros m Hm out; simpl; [done |].
  assert (cm_inv (send_rtt_probe now id m).1) as H1.
  { unfold send_rtt_probe. destruct (connections m !! id); [|done]. destruct (negb _); [done |].
    apply with_rtt_inv; [|done]. apply map_Forall_alter; [|apply Hm]. by intros ms. }
  destruct (send_rtt_probe now id m) as [m1 o]. by apply IH.
Qed.

Lemma check_degradation_inv m : cm_inv m -> cm_inv (check_rtt_degradation m).1.
Proof.
  intros Hm. unfold check_rtt_degradation.
  repeat (case_match; simpl; try done); by apply (same_inv_ok m).
Qed.

Lemma create_all_rtt opens m :
  map_Forall (fun _ => measurement_ok) (rtt_measurements m) ->
  map_Forall (fun _ => measurement_ok) (rtt_measurements (create_all_connections opens m)).
Proof.
  assert (forall w l m, map_Forall (fun _ => measurement_ok) (rtt_measurements m) ->
    map_Forall (fun _ => measurement_ok) (rtt_measurements (foldl (create_connection opens w) m l))) as Hf.
  { intros w l. induction l as [|[id url] l IH]; intros m0 H0; simpl; [done |]. apply IH.
    destruct (opens w url); [|done]. simpl. apply map_Forall_insert_2; [|done].
    unfold measurement_ok. simpl. split_and!; [lia | done | done]. }
  intros Hm. unfold create_all_connections. by apply Hf, Hf.
Qed.

Lemma testing_inv m now d e :
  map_Forall (fun _ => measurement_ok) (rtt_measurements m) ->
  cm_inv (m <| election_state := ElTesting now d e |>).
Proof. intros H. by split. Qed.

Lemma reset_inv now opens m : cm_inv (reset_and_start_election now opens m).1.
Proof.
  unfold reset_and_start_election, start_election. cbv zeta. cbn [fst].
  apply testing_inv, create_all_rtt, map_Forall_empty.
Qed.

Lemma reelection_inv now opens m : cm_inv m -> cm_inv (start_reelection now opens m).
Proof.
  intros Hm. unfold start_reelection. destruct (reelection_in_progress m); [done |].
  apply testing_inv, create_all_rtt, map_Forall_empty.
Qed.

Lemma elect_inv now id ms m : cm_inv m -> cm_inv (elect now id ms m).
Proof.
  intros [Hr _]. unfold elect, apply_pending_session, close_unused_connections. split.
  - simpl. repeat case_match; simpl; (apply map_Forall_alter; [by intros | done]).
  - unfold sole. simpl. repeat case_match; simplify_eq/=;
      (split_and!; [done | by left |]); by intros k c [_ [= ->]]%map_lookup_filter_Some.
Qed.

Lemma complete_inv now m : cm_inv m -> cm_inv (complete_election iter now m).1.
Proof.
  intros Hm. unfold complete_election. destruct (find_best_connection iter m) as [[id ms]|]; simpl.
  - by apply elect_inv.
  - destruct Hm. by split.
Qed.

Lemma check_election_inv now m : cm_inv m -> cm_inv (check_and_complete_election iter now m).1.
Proof.
  intros Hm. unfold check_and_complete_election. repeat case_match; try done.
  - by apply complete_inv.
  - apply testing_inv, Hm.
Qed.

Lemma update_active_inv f m : cm_inv m -> cm_inv (update_active f m).
Proof.
  intros [Hr Hs]. unfold update_active. destruct (active_connection_id m) as [id|] eqn:Ea; [|by split].
  destruct (connections m !! id) as [c|] eqn:Ec.
  - split; [done |]. unfold sole in *. simpl. destruct (election_state m); try done.
    destruct Hs as (H1 & H2 & H3). split_and!; [done | done |]. by apply alter_keys.
  - destruct (old_active_connection m) as [[old c]|] eqn:Eo; [|by split].
    case_bool_decide; [|by split]. split; [done |]. unfold sole in *. simpl.
    destruct (election_state m); try done. destruct Hs as (Ho & _). congruence.
Qed.

Lemma set_on_active_inv set m : cm_inv m -> cm_inv (set_on_active set m).1.1.
Proof. intros Hm. unfold set_on_active. case_match; [by apply update_active_inv | done]. Qed.

Lemma update_task_inv task f m : cm_inv m -> cm_inv (update_task task f m).
Proof.
  intros [Hr Hs]. split; [done |]. unfold sole in *. simpl. destruct (election_state m); try done.
  destruct Hs as (-> & H2 & H3). split_and!; [done | done |]. by apply map_Forall_fmap.
Qed.

Lemma lost_active_inv m : cm_inv m -> cm_inv (m <| active_connection_id := None |>).
Proof.
  intros [Hr Hs]. split; [done |]. unfold sole in *. simpl. destruct (election_state m); try done.
  destruct Hs as (? & _ & ?). by split_and!; [| right |].
Qed.

Lemma loop_top_inv l m : cm_inv m -> cm_inv (loop_top l m).1.1.
Proof. intros Hm. unfold loop_top. by case_match; apply (same_inv_ok m). Qed.

Lemma loop_wake_inv env l m : cm_inv m -> cm_inv (loop_wake iter_conn env l m).1.1.
Proof.
  intros Hm. unfold loop_wake. destruct (rl_stage l).
  - unfold loop_after_backoff. do 4 (break_if; [by apply (same_inv_ok m) |]).
    pose proof (reset_inv (le_now env) (le_opens env) m) as Hr.
    destruct (reset_and_start_election _ _ m) as [m1 e1]. simpl in Hr.
    case_match; [by apply (same_inv_ok m1) | done].
  - by apply loop_top_inv.
  - unfold loop_after_election. cbv zeta. break_if; [by apply (same_inv_ok m) |].
    destruct (_ <=? _); [by apply (same_inv_ok m) | by apply loop_top_inv].
Qed.

Lemma on_lost_inv id url m : cm_inv m -> cm_inv (on_connection_lost id url m).1.1.
Proof.
  intros Hm. unfold on_connection_lost. break_if; [done |]. break_if; [done |].
  pose proof (lost_active_inv m Hm) as H1. cbv zeta.
  destruct (reconnection_phase _); try done.
  all: match goal with |- context [loop_top ?l ?x] =>
         pose proof (loop_top_inv l x) as H; destruct (loop_top l x) as [[m2 e2] l2] end.
  all: apply H; by apply (same_inv_ok (m <| active_connection_id := None |>)).
Qed.

Lemma on_inbound_inv now id packet m : cm_inv m -> cm_inv (on_inbound now id packet m).1.
Proof. intros Hm. unfold on_inbound. repeat case_match; simplify_eq/=; by apply (same_inv_ok m). Qed.

Lemma timer_1000_inv now opens m : cm_inv m -> cm_inv (timer_1000 iter_conn now opens m).1.
Proof.
  intros Hm. unfold timer_1000. pose proof (process_queue_inv m Hm) as H1.
  destruct (is_up _); [|done].
  pose proof (send_probes_inv now _ H1) as H2.
  destruct (send_rtt_probes iter_conn now _) as [m2 o]. simpl in H2.
  pose proof (check_degradation_inv _ H2) as H3. destruct (check_rtt_degradation m2) as [m3 d]. simpl in H3.
  destruct d; [by apply reelection_inv | done].
Qed.

(** Every event keeps the invariant. *)
Lemma cm_step_inv s ev : cm_inv (sys_manager s) -> cm_inv (sys_manager (cm_step iter iter_conn s ev).1).
Proof.
  intros Hm. destruct ev; cbn [cm_step].
  - by apply update_task_inv.
  - pose proof (on_lost_inv connection_id server_url _ (update_task_inv task on_lost_tap _ Hm)) as H.
    by destruct (on_connection_lost _ _ _) as [[m1 e1] l1].
  - by apply on_inbound_inv.
  - by apply timer_1000_inv.
  - unfold timer_200. destruct (is_testing _); [|done]. pose proof (send_probes_inv now _ Hm) as H.
    by destruct (send_rtt_probes iter_conn now _).
  - by apply check_election_inv.
  - done.
  - destruct (sys_loops s !! index); [|done]. pose proof (loop_wake_inv env r _ Hm) as H.
    by destruct (loop_wake iter_conn env r _) as [[m1 e1] l1].
  - done.
  - pose proof (set_on_active_inv (conn_set_video_enabled now (cm_aes (sys_manager s)) enabled) _ Hm) as H.
    unfold cm_set_video_enabled. by destruct (set_on_active _ _) as [[]].
  - pose proof (set_on_active_inv (conn_set_audio_enabled now (cm_aes (sys_manager s)) enabled) _ Hm) as H.
    unfold cm_set_audio_enabled. by destruct (set_on_active _ _) as [[]].
  - pose proof (set_on_active_inv (conn_set_screen_enabled now (cm_aes (sys_manager s)) enabled) _ Hm) as H.
    unfold cm_set_screen_enabled. by destruct (set_on_active _ _) as [[]].
  - pose proof (set_on_active_inv (conn_set_speaking now (cm_aes (sys_manager s)) speaking) _ Hm) as H.
    unfold cm_set_speaking. by destruct (set_on_active _ _) as [[]].
  - apply update_active_inv. by apply (same_inv_ok (sys_manager s)).
  - destruct Hm as [Hr Hs]. split; [done |]. unfold sole in *. simpl.
    destruct (election_state (sys_manager s)); try done. split_and!; [done | by right |]. apply map_Forall_empty.
Qed.

Lemma cm_run_inv evs s :
  cm_inv (sys_manager s) -> cm_inv (sys_manager (run (cm_step iter iter_conn) s evs).1).
Proof.
  intros Hs. apply (run_invariant (cm_step iter iter_conn) (fun s => cm_inv (sys_manager s)) (fun _ => True));
    [|done]. intros s0 ev H0. pose proof (cm_step_inv s0 ev H0). destruct (cm_step _ _ s0 ev).
  split; [done |]. by apply Forall_true.
Qed.

Lemma controller_new_inv now opens options aes s effects :
  controller_new now opens options aes = Some (s, effects) -> cm_inv (sys_manager s).
Proof.
  unfold controller_new, cm_new. case_bool_decide; [done |]. cbn [mbind option_bind].
  unfold start_election. cbv zeta. intros [= <- <-]. cbn [sys_manager].
  apply testing_inv, create_all_rtt, map_Forall_empty.
Qed.

(** C12: the connection manager's invariant. In every state reached from a new
    controller by any interleaving of transport events, timers, reconnection loops and
    calls, each server has at most ten round trip samples, all of them between zero
    and ten seconds, and their mean as its average; and once a connection is elected
    it is the only one: every other one has been closed, and a packet that is sent
    goes out on it or is refused. *)
Theorem manager_invariant now opens options aes s effects evs :
  controller_new now opens options aes = Some (s, effects) ->
  let m := sys_manager (run (cm_step iter iter_conn) s evs).1 in
  map_Forall (fun _ => measurement_ok) (rtt_measurements m) /\
  match election_state m with
  | ElElected id _ =>
      map_Forall (fun k _ => k = id) (connections m) /\
      forall packet out, cm_send_packet packet m = Some out ->
        exists c, connections m !! id = Some c /\ out = conn_send_packet packet c
  | _ => True
  end.
Proof.
  intros Hnew m. pose proof (cm_run_inv evs s (controller_new_inv _ _ _ _ _ _ Hnew)) as [Hr Hs].
  fold m in Hr, Hs. split; [done |]. unfold sole in Hs. destruct (election_state m) as [| id t |]; try done.
  destruct Hs as (Ho & Ha & Hk). split; [done |]. intros packet out.
  unfold cm_send_packet, get_active_connection. rewrite Ho. destruct Ha as [-> | ->]; [|done].
  cbn [mbind option_bind]. destruct (connections m !! id) as [c|]; [|done].
  intros [= <-]. by exists c.
Qed.

(** ** The election ends *)

Definition testing (m : ConnectionManager) : Prop :=
  match election_state m with ElTesting _ _ _ => True | _ => False end.

Lemma elect_state now id ms m : election_state (elect now id ms m) = ElElected id now.
Proof.
  unfold elect, apply_pending_session, close_unused_connections. cbv zeta.
  simpl. destruct (pending_session_ids m !! id); [|done]. by case_bool_decide.
Qed.

Lemma complete_ends now m : ~ testing (complete_election iter now m).1.
Proof.
  unfold complete_election, testing. destruct (find_best_connection iter m) as [[id ms]|]; cbn [fst].
  - rewrite elect_state. intros [].
  - simpl. intros [].
Qed.

Lemma check_not_testing now m : ~ testing m -> ~ testing (check_and_complete_election iter now m).1.
Proof.
  unfold check_and_complete_election, testing. destruct (election_state m) eqn:E; simpl; rewrite ?E; tauto.
Qed.

(** One check after the deadline: the election is over, or it was extended. *)
Lemma check_expired now m start d e :
  election_state m = ElTesting start d e -> flt (F64.sub now start) (F64.of_Z d) = false ->
  let m' := (check_and_complete_election iter now m).1 in
  ~ testing m' \/ (e < ELECTION_MAX_EXTENSIONS /\ election_state m' = ElTesting start (d +u64 1000) (e +u32 1)).
Proof.
  intros E Hx. unfold check_and_complete_election. rewrite E, Hx.
  destruct (has_enough_samples iter m); simpl; [left; apply complete_ends |].
  destruct (_ <=? e) eqn:El; [left; apply complete_ends |]. right. split; [lia | done].
Qed.

(** C36: every election ends. Whatever has been measured, three checks, the first after
    the election period and each later one a second after the previous deadline, leave
    no election running: a connection is elected or the election has failed. *)
Theorem election_ends (m : ConnectionManager) (start : float) (d : Z) (t1 t2 t3 : float) :
  election_state m = ElTesting start d 0 -> 0 <= d -> d + 2000 <= u_max 64 ->
  flt (F64.sub t1 start) (F64.of_Z d) = false ->
  flt (F64.sub t2 start) (F64.of_Z (d + 1000)) = false ->
  flt (F64.sub t3 start) (F64.of_Z (d + 2000)) = false ->
  ~ testing (check_and_complete_election iter t3
      (check_and_complete_election iter t2 (check_and_complete_election iter t1 m).1).1).1.
Proof.
  intros E Hd Hmax H1 H2 H3.
  destruct (check_expired t1 m start d 0 E H1) as [H|[_ E1]]; [by apply check_not_testing, check_not_testing |].
  assert (d +u64 1000 = d + 1000) as Ed by (apply wrap_u_small; unfold u_in, u_max in *; lia).
  rewrite Ed in E1. destruct (check_expired t2 _ start _ _ E1 H2) as [H|[_ E2]]; [by apply check_not_testing |].
  assert ((d + 1000) +u64 1000 = d + 2000) as Ed2
    by (replace (d + 1000 + 1000) with (d + 2000) by lia; apply wrap_u_small; unfold u_in, u_max in *; lia).
  rewrite Ed2 in E2. destruct (check_expired t3 _ start _ _ E2 H3) as [H|[Hlt _]]; [done |].
  vm_compute in Hlt. done.
Qed.

(** ** Reconnection gives up *)

(** The loop alone: at each wake-up the rest of the program has left the manager in
    some state. *)
Fixpoint loop_run (l : ReconnectLoop) (wakes : list (LoopEnv * ConnectionManager))
    : list cm_effect * option ReconnectLoop :=
  match wakes with
  | [] => ([], Some l)
  | (env, m) :: rest =>
      let '(_, effects, next) := loop_wake iter_conn env l m in
      match next with
      | None => (effects, None)
      | Some l' => let '(more, end_) := loop_run l' rest in (effects ++ more, end_)
      end
  end.

(** No server has answered, nobody has left, and the manager can be used. *)
Definition unanswered (w : LoopEnv * ConnectionManager) : Prop :=
  le_busy w.1 = false /\ le_dropped w.1 = false /\ intentionally_disconnected w.2 = false /\
  active_connection_id w.2 = None /\ any_connected iter_conn w.2 = false.

Lemma reset_intent now opens m :
  intentionally_disconnected (reset_and_start_election now opens m).1 = intentionally_disconnected m.
Proof.
  assert (forall w l m0, intentionally_disconnected (foldl (create_connection opens w) m0 l)
            = intentionally_disconnected m0) as H.
  { intros w l. induction l as [|[id url] l IH]; intros m0; simpl; [done |]. rewrite IH.
    by destruct (opens w url). }
  unfold reset_and_start_election, start_election, create_all_connections. simpl. by rewrite !H.
Qed.

Lemma backoff_bounds random delay attempt :
  0 <= next_backoff_delay random delay RECONNECT_BACKOFF_MULTIPLIER attempt <= RECONNECT_MAX_DELAY_PHASE3_MS.
Proof.
  unfold next_backoff_delay, max_delay.
  match goal with |- context [?a +u64 ?b] => pose proof (wrap_u_range 64 (a + b) ltac:(lia)) as H end.
  unfold u_in, RECONNECT_MAX_DELAY_PHASE1_MS, RECONNECT_MAX_DELAY_PHASE2_MS, RECONNECT_MAX_DELAY_PHASE3_MS in *.
  repeat case_match; lia.
Qed.

(** One attempt that nobody answers: a backoff and an election. *)
Lemma attempt_unanswered l e1 m1 e2 m2 :
  rl_stage l = Backoff -> 0 <= rl_zero l < 10 -> unanswered (e1, m1) -> unanswered (e2, m2) ->
  exists mr out1 l1, loop_wake iter_conn e1 l m1 = (mr, out1, Some l1) /\
    rl_zero l1 = rl_zero l /\ rl_delay_ms l1 = rl_delay_ms l /\
    if decide (rl_zero l = 9)
    then exists m' msg, loop_wake iter_conn e2 l1 m2 = (m', [CmState (CsFailed msg (Some (rl_url l)))], None)
    else exists m' out2 l2, loop_wake iter_conn e2 l1 m2 = (m', out2, Some l2) /\ rl_stage l2 = Backoff /\
           rl_zero l2 = rl_zero l + 1 /\ rl_url l2 = rl_url l /\ 0 <= rl_delay_ms l2 <= RECONNECT_MAX_DELAY_PHASE3_MS.
Proof.
  intros Hst Hz (Hb1 & Hd1 & Hi1 & Ha1 & _) (Hb2 & _ & Hi2 & Ha2 & Hany2). simpl in *.
  unfold loop_wake at 1. rewrite Hst. unfold loop_after_backoff. rewrite Hi1, Ha1, Hd1, Hb1.
  rewrite bool_decide_false by (by intros [? ?]).
  pose proof (reset_intent (le_now e1) (le_opens e1) m1) as Hi.
  destruct (reset_and_start_election _ _ m1) as [mr er]. simpl in Hi. rewrite Hi, Hi1.
  do 3 eexists. split; [reflexivity |]. cbn [rl_zero rl_delay_ms upd]. split; [done |]. split; [done |].
  unfold loop_wake, loop_after_election. cbn [rl_stage upd rl_zero rl_delay_ms rl_attempt rl_url].
  unfold cm_is_connected. rewrite Ha2, Hb2, Hany2. cbn [negb andb bool_decide].
  rewrite bool_decide_false by (by intros [? ?]). cbn [negb andb].
  assert (rl_zero l +u32 1 = rl_zero l + 1) as -> by (apply wrap_u_small; unfold u_in; lia).
  unfold RECONNECT_CONSECUTIVE_ZERO_LIMIT. case_decide as E9.
  - rewrite E9. simpl. by do 2 eexists.
  - rewrite (proj2 (Z.leb_gt _ _)) by lia. unfold loop_top. rewrite Hi2.
    do 3 eexists. split; [done |]. simpl. split_and!; try done; apply backoff_bounds.
Qed.

(** The attempts one after the other. *)
Lemma attempts_unanswered (k : nat) : forall l wakes,
  rl_stage l = Backoff -> rl_zero l = 10 - Z.of_nat k -> (1 <= k <= 10)%nat ->
  Forall unanswered wakes -> length wakes = (2 * k)%nat ->
  exists out msg, loop_run l wakes = (out ++ [CmState (CsFailed msg (Some (rl_url l)))], None).
Proof.
  induction k as [|k IH]; intros l wakes Hst Hz Hk Hw Hlen; [lia |].
  destruct wakes as [|[e1 m1] [|[e2 m2] wakes]]; [simpl in Hlen; lia | simpl in Hlen; lia |].
  apply Forall_cons in Hw as [H1 [H2 Hw]%Forall_cons].
  destruct (attempt_unanswered l e1 m1 e2 m2 Hst ltac:(lia) H1 H2) as (mr & out1 & l1 & E1 & Hz1 & _ & H).
  cbn [loop_run]. rewrite E1. destruct (decide (rl_zero l = 9)) as [E9|E9].
  - destruct H as (m' & msg & ->). by exists out1, msg.
  - destruct H as (m' & out2 & l2 & -> & Hst2 & Hz2 & Hu2 & _).
    destruct (IH l2 wakes Hst2) as (out & msg & Hr); [lia | lia | done | simpl in Hlen; lia |].
    rewrite Hr, Hu2. exists (out1 ++ out2 ++ out), msg. by rewrite !app_assoc.
Qed.

(** C37: reconnection gives up. A reconnection loop that has not failed yet and whose
    next ten attempts reach no server - each a wake-up after the backoff and one after
    the election, whatever the rest of the client does in between - reports a failure
    that names the lost server and ends; and the delay before an attempt never exceeds
    thirty seconds. *)
Theorem reconnection_gives_up (l : ReconnectLoop) (wakes : list (LoopEnv * ConnectionManager)) :
  rl_stage l = Backoff -> rl_zero l = 0 -> Forall unanswered wakes -> length wakes = 20%nat ->
  (exists out msg, loop_run l wakes = (out ++ [CmState (CsFailed msg (Some (rl_url l)))], None)) /\
  forall env m m' out l' l'', loop_wake iter_conn env l' m = (m', out, Some l'') ->
    0 <= rl_delay_ms l' <= RECONNECT_MAX_DELAY_PHASE3_MS -> 0 <= rl_delay_ms l'' <= RECONNECT_MAX_DELAY_PHASE3_MS.
Proof.
  intros Hst Hz Hw Hlen. split; [apply (attempts_unanswered 10); first [done | lia] |].
  intros env m m' out l' l''. unfold loop_wake, loop_after_backoff, loop_after_election, loop_top. cbv zeta.
  pose proof (backoff_bounds (le_random env) (rl_delay_ms l') (rl_attempt l')).
  repeat case_match; intros Hl Hd; simplify_eq/=; done.
Qed.

(** ** After the user has left *)

(** The manager has been disconnected on purpose. *)
Definition left_call (m : ConnectionManager) : Prop :=
  intentionally_disconnected m = true /\ connections m = ∅ /\ active_connection_id m = None /\
  old_active_connection m = None.

(** Nothing is sent, and no state but a failure is reported. *)
Definition quiet (e : cm_effect) : Prop :=
  match e with CmInbound _ | CmState (CsFailed _ _) => True | _ => False end.

Definition same_links (m m' : ConnectionManager) : Prop :=
  connections m' = connections m /\ active_connection_id m' = active_connection_id m /\
  old_active_connection m' = old_active_connection m /\
  intentionally_disconnected m' = intentionally_disconnected m /\
  election_state m' = election_state m.

Lemma same_links_left m m' : same_links m m' -> left_call m -> left_call m'.
Proof. unfold left_call. intros (-> & -> & -> & -> & _). done. Qed.

Lemma same_links_trans m1 m2 m3 : same_links m1 m2 -> same_links m2 m3 -> same_links m1 m3.
Proof. intros (?&?&?&?&?) (?&?&?&?&?). split_and!; congruence. Qed.

Lemma queue_links m : same_links m (process_queued_rtt_responses m).
Proof.
  unfold process_queued_rtt_responses.
  assert (forall l m0, same_links m0 (foldl (fun m '(id, packet, t) => handle_rtt_response id packet t m) m0 l)) as H.
  { induction l as [|[[id packet] t] l IH]; intros m0; simpl; [done |].
    apply (same_links_trans _ (handle_rtt_response id packet t m0)); [|apply IH].
    unfold handle_rtt_response. by case_match. }
  by apply (same_links_trans _ (m <| rtt_responses := [] |>)).
Qed.

(** A wake-up ends the loop. *)
Lemma left_loop env l m : left_call m ->
  exists m' out, loop_wake iter_conn env l m = (m', out, None) /\ same_links m m' /\ Forall quiet out.
Proof.
  intros (Hi & Hc & Ha & Ho). unfold loop_wake, loop_after_backoff, loop_after_election, loop_top.
  rewrite Hi. destruct (rl_stage l); [by do 2 eexists | by do 2 eexists |].
  unfold cm_is_connected. rewrite Ha, (bool_decide_false (is_Some None)) by (by intros [? ?]).
  rewrite andb_false_r. cbv zeta. case_match; do 2 eexists; (split; [reflexivity |]); split; try done.
  by repeat constructor.
Qed.

Context (iter_conn_perm : forall x, iter_conn x ≡ₚ map_to_list x).

Lemma iter_conn_empty : iter_conn ∅ = [].
Proof. apply Permutation_nil_r. by rewrite iter_conn_perm, map_to_list_empty. Qed.

Lemma left_timer_1000 now opens m : left_call m ->
  same_links m (timer_1000 iter_conn now opens m).1 /\ (timer_1000 iter_conn now opens m).2 = [].
Proof.
  intros Hl. unfold timer_1000. pose proof (queue_links m) as Hq.
  pose proof (same_links_left _ _ Hq Hl) as (Hi & Hc & Ha & Ho).
  destruct (is_up _); [|done]. unfold send_rtt_probes. rewrite Hc, iter_conn_empty. cbn [fmap list_fmap foldl].
  unfold check_rtt_degradation. rewrite Ha. cbn [mbind option_bind]. by repeat case_match; simplify_eq.
Qed.

Lemma left_set_on_active set m : left_call m -> set_on_active set m = (m, [], false).
Proof. intros (_ & _ & Ha & _). unfold set_on_active, get_active_connection. by rewrite Ha. Qed.

(** Every event but the check of a running election leaves it so. *)
Lemma left_step s ev :
  left_call (sys_manager s) -> (testing (sys_manager s) -> forall now, ev <> EvTimer100 now) ->
  let '(s', out) := cm_step iter iter_conn s ev in
  left_call (sys_manager s') /\ (testing (sys_manager s') -> testing (sys_manager s)) /\ Forall quiet out.
Proof.
  destruct s as [m loops]. cbn [sys_manager]. intros Hl Ht. pose proof Hl as (Hi & Hc & Ha & Ho).
  assert (forall m' loops' out, same_links m m' -> Forall quiet out ->
    left_call (sys_manager (mkSystem m' loops')) /\
    (testing (sys_manager (mkSystem m' loops')) -> testing m) /\ Forall quiet out) as Hlinks.
  { intros m' loops' out Hs Hq. split; [by apply (same_links_left m) | split; [|done]].
    unfold testing. cbn [sys_manager]. destruct Hs as (_ & _ & _ & _ & ->). done. }
  assert (forall task f, same_links m (update_task task f m)) as Htask.
  { intros task f. split_and!; simpl; rewrite ?Hc, ?Ho, ?fmap_empty; done. }
  destruct ev; cbn [cm_step sys_manager sys_loops]; unfold with_manager.
  - apply Hlinks; [apply Htask | done].
  - unfold on_connection_lost. cbn [intentionally_disconnected update_task upd]. simpl. rewrite Hi.
    apply Hlinks; [apply Htask | done].
  - unfold on_inbound. repeat case_match; simplify_eq; try (apply Hlinks; by repeat constructor).
  - destruct (left_timer_1000 now opens m Hl) as [H1 H2]. rewrite H2. by apply Hlinks.
  - unfold timer_200, send_rtt_probes. rewrite Hc, iter_conn_empty. case_match; by apply Hlinks.
  - unfold check_and_complete_election. destruct (election_state m) eqn:E; try by apply Hlinks.
    exfalso. apply (Ht ltac:(unfold testing; by rewrite E) now). done.
  - unfold find_task. rewrite Hc, iter_conn_empty, Ho. by apply Hlinks.
  - destruct (loops !! index) as [l|]; [|by apply Hlinks].
    destruct (left_loop env l m Hl) as (m' & out & -> & Hs & Hq). by apply Hlinks.
  - unfold cm_send_packet, get_active_connection. rewrite Ha. by apply Hlinks.
  - unfold cm_set_video_enabled. rewrite left_set_on_active by done. by apply Hlinks.
  - unfold cm_set_audio_enabled. rewrite left_set_on_active by done. by apply Hlinks.
  - unfold cm_set_screen_enabled. rewrite left_set_on_active by done. by apply Hlinks.
  - unfold cm_set_speaking. rewrite left_set_on_active by done. by apply Hlinks.
  - unfold set_own_session_id, update_active. simpl. rewrite Ha. by apply (Hlinks _ loops).
  - apply (Hlinks _ loops); [|done]. by split_and!.
Qed.

(** Leaving is final. Once the user has left, whatever transport callbacks, timers,
    calls and reconnection loops still run - the check of an unfinished election
    excepted - nothing is sent any more, no connection exists or becomes active, no
    state but a failure is reported, and every reconnection loop ends at its next
    wake-up. *)
Theorem disconnect_is_final (m : ConnectionManager) (loops : list ReconnectLoop) (evs : list cm_event) :
  (testing m -> Forall (fun ev => forall now, ev <> EvTimer100 now) evs) ->
  let '(s', out) := run (cm_step iter iter_conn) (mkSystem (cm_disconnect m) loops) evs in
  connections (sys_manager s') = ∅ /\ active_connection_id (sys_manager s') = None /\ Forall quiet out /\
  forall env l, (loop_wake iter_conn env l (sys_manager s')).2 = None.
Proof.
  intros Hev. set (Inv := fun s => left_call (sys_manager s) /\ (testing (sys_manager s) -> testing m)).
  pose proof (run_invariant_on (cm_step iter iter_conn) (fun ev => testing m -> forall now, ev <> EvTimer100 now)
    Inv quiet) as H. specialize (H ltac:(intros s ev Hadm [Hl Ht]; pose proof (left_step s ev Hl
      ltac:(intros H'; by apply Hadm, Ht)) as Hs; destruct (cm_step iter iter_conn s ev);
      destruct Hs as (? & ? & ?); split; [split; [done | tauto] | done])).
  specialize (H evs (mkSystem (cm_disconnect m) loops)).
  destruct (run _ _ evs) as [s' out]. simpl in H. destruct H as [[Hl _] Hq].
  - apply Forall_forall. intros ev Hin Ht. exact (proj1 (Forall_forall _ _) (Hev Ht) ev Hin).
  - by split.
  - pose proof Hl as (_ & ? & ? & _). split_and!; [done | done | done |]. intros env l.
    by destruct (left_loop env l _ Hl) as (? & ? & -> & _).
Qed.

(** ** Signals and media that get lost *)

(** A congestion signal never reaches the encoders. The packet a session
    publishes about a congested sender carries that sender's session id, and the
    connection manager of that very client drops every packet that carries its own
    session id, whatever connection it arrives on. *)
Theorem congestion_signal_is_dropped {laws : @WireLaws wire}
    (now sender : Z) (s s' : SessionLogic) (subject : string) (payload : bytes)
    (at_ : float) (id : string) (m : ConnectionManager) :
  on_outbound_drop now sender s = (s', [PublishNats subject payload]) ->
  own_session_id m = Some sender -> sender <> 0 ->
  exists packet, parse_wrapper payload = Some packet /\ packet_type packet = CONGESTION /\
    pw_session_id packet = sender /\ (on_inbound at_ id packet m).2 = [].
Proof.
  unfold on_outbound_drop, record_drop. cbv zeta. intros Hd Hown Hz.
  destruct (drop_step _ _) as [st []]; [|done].
  destruct (write_wrapper _) as [b|] eqn:Ew; [|done]. injection Hd as <- <- <-.
  exists (congestion_packet (sl_user_id s) sender). split; [by apply parse_write_wrapper |].
  split; [done | split; [done |]]. unfold on_inbound.
  replace (packet_type (congestion_packet (sl_user_id s) sender) =? SESSION_ASSIGNED) with false by reflexivity.
  case_match; [done |]. rewrite Hown. simpl. rewrite Z.eqb_refl.
  by rewrite (proj2 (Z.eqb_neq sender 0)).
Qed.

(** A candidate whose transport is still connecting. *)
Definition fresh_candidate (id : string) (m : ConnectionManager) : Prop :=
  exists t url, connections m !! id = Some (connect t url).

Lemma create_fresh opens w id entry m :
  fresh_candidate id m -> fresh_candidate id (create_connection opens w m entry).
Proof.
  destruct entry as [k u]. unfold fresh_candidate, create_connection. intros (t & url & E).
  destruct (opens w u); [|by exists t, url]. simpl. destruct (decide (k = id)) as [->|Hne].
  - rewrite lookup_insert_eq. by do 2 eexists.
  - rewrite lookup_insert_ne by done. by exists t, url.
Qed.

Lemma create_fold_fresh opens w id l : forall m,
  fresh_candidate id m \/ (exists url, (id, url) ∈ l /\ opens w url = true) ->
  fresh_candidate id (foldl (create_connection opens w) m l).
Proof.
  induction l as [|[k u] l IH]; intros m [Hf|(url & Hin & Hop)]; cbn [foldl]; try done.
  - by apply elem_of_nil in Hin.
  - apply IH. left. by apply create_fresh.
  - apply IH. apply elem_of_cons in Hin as [[= -> ->]|Hin]; [left | right; by exists url].
    unfold fresh_candidate, create_connection. rewrite Hop. simpl. rewrite lookup_insert_eq. by do 2 eexists.
Qed.

Lemma create_fold_options opens w l : forall m,
  cm_options (foldl (create_connection opens w) m l) = cm_options m /\
  active_connection_id (foldl (create_connection opens w) m l) = active_connection_id m /\
  old_active_connection (foldl (create_connection opens w) m l) = old_active_connection m.
Proof.
  induction l as [|[k u] l IH]; intros m; cbn [foldl]; [done |]. rewrite !(proj1 (IH _)).
  destruct (IH (create_connection opens w m (k, u))) as (_ & -> & ->). simpl. by destruct (opens w u).
Qed.

Definition is_candidate (opens : bool -> string -> bool) (m : ConnectionManager) (id : string) : Prop :=
  (exists url, (id, url) ∈ conn_ids "ws_" (websocket_urls (cm_options m)) /\ opens false url = true) \/
  (exists url, (id, url) ∈ conn_ids "wt_" (webtransport_urls (cm_options m)) /\ opens true url = true).

Lemma create_all_fresh opens m id :
  is_candidate opens m id -> fresh_candidate id (create_all_connections opens m).
Proof.
  intros Hc. unfold create_all_connections. apply create_fold_fresh.
  destruct Hc as [Hws|Hwt]; [left; apply create_fold_fresh; by right | right].
  by rewrite (proj1 (create_fold_options _ _ _ _)).
Qed.

Lemma create_all_links opens m :
  active_connection_id (create_all_connections opens m) = active_connection_id m /\
  old_active_connection (create_all_connections opens m) = old_active_connection m.
Proof.
  unfold create_all_connections. cbv zeta.
  match goal with |- context [foldl (create_connection opens true) ?a ?l] =>
    destruct (create_fold_options opens true l a) as (_ & -> & ->) end.
  apply create_fold_options.
Qed.

(** Media stops during a re-election. The old connection is kept so that media
    goes on while candidates are tested, but the candidates get the same ids: as soon
    as the server of the active connection is a candidate again, every packet the
    client sends is dropped without an error, though the old connection is up. *)
Theorem reelection_loses_media (now : float) (opens : bool -> string -> bool) (m : ConnectionManager)
    (id : string) (c : Connection) (packet : PacketWrapper) :
  reelection_in_progress m = false -> active_connection_id m = Some id ->
  connections m !! id = Some c -> is_connected c = true -> is_candidate opens m id ->
  let m' := start_reelection now opens m in
  cm_send_packet packet m = Some [NetStream (cn_task c) packet] /\
  active_connection_id m' = Some id /\ old_active_connection m' = Some (id, c) /\
  cm_send_packet packet m' = Some [] /\ cm_send_packet_datagram packet m' = Some [].
Proof.
  intros Hr Ha Hc Hup Hcand m'.
  assert (active_connection_id m' = Some id /\ old_active_connection m' = Some (id, c) /\ fresh_candidate id m')
    as (Ha' & Ho' & t & url & Hf).
  { subst m'. unfold start_reelection. rewrite Hr. cbv zeta.
    match goal with |- context [create_all_connections opens ?x] => set (m0 := x) end.
    assert (active_connection_id m0 = Some id /\ old_active_connection m0 = Some (id, c) /\
            cm_options m0 = cm_options m) as (E1 & E2 & E3).
    { subst m0. simpl. rewrite Ha. cbn [mbind option_bind]. by rewrite Hc. }
    destruct (create_all_links opens m0) as [L1 L2].
    split; [|split]; [by etransitivity | by etransitivity |].
    apply (create_all_fresh opens m0). unfold is_candidate. by rewrite E3. }
  unfold cm_send_packet, cm_send_packet_datagram, get_active_connection.
  rewrite Ha, Ha'. cbn [mbind option_bind]. rewrite Hc, Hf. cbn [fmap option_fmap option_map].
  unfold conn_send_packet, conn_send_packet_datagram. by rewrite Hup.
Qed.
End Props.

(** ** Concrete runs *)

#[local] Existing Instance demo_wire.
#[local] Existing Instance demo_laws.
#[local] Existing Instance demo_media.
#[local] Existing Instance demo_cipher.

Definition all_open (webtransport : bool) (url : string) : bool := true.

Definition demo_options : ConnectionManagerOptions :=
  mkOptions ["wss://one"] ["https://two"] "alice" 3000.
Definition demo_aes : Aes128State := mkAes128State true (repeat 3 16) (repeat 5 16).

Definition ms_ (n : Z) : float := F64.of_Z n.

(** The echo of a probe sent at [t]. *)
Definition echo (t : Z) : PacketWrapper :=
  match (m ← cm_new (ms_ 0) demo_options demo_aes; create_rtt_packet (ms_ t) m) with
  | Some p => p
  | None => wrapper_default
  end.

Definition demo_start : CmSystem :=
  match controller_new (ms_ 1000) all_open demo_options demo_aes with
  | Some (s, _) => s
  | None => mkSystem (mkCM ∅ None ∅ (ElFailed "" (ms_ 0)) [] demo_options demo_aes None ∅ PhIdle None 0
                        false None false 0) []
  end.

(** Both transports come up, each answers two probes, the WebSocket faster. *)
Definition demo_events : list cm_event :=
  [EvConnected 0; EvConnected 1; EvTimer200 (ms_ 1200); EvInbound (ms_ 1220) "ws_0" (echo 1200);
   EvInbound (ms_ 1260) "wt_0" (echo 1200); EvTimer200 (ms_ 1400); EvInbound (ms_ 1420) "ws_0" (echo 1400);
   EvInbound (ms_ 1450) "wt_0" (echo 1400); EvTimer1000 (ms_ 2000) all_open].

Definition measured : ConnectionManager :=
  sys_manager (run (cm_step map_to_list map_to_list) demo_start demo_events).1.

Definition elected : ConnectionManager :=
  sys_manager (run (cm_step map_to_list map_to_list) demo_start (demo_events ++ [EvTimer100 (ms_ 4000)])).1.

Lemma elected_is_best_witness :
  find_best_connection map_to_list measured <> None /\
  match find_best_connection map_to_list measured with
  | Some (id, ms) => id = "wt_0" /\ ms_measurements ms = [ms_ 60; ms_ 50] /\
      forall id' ms' avg', rtt_measurements measured !! id' = Some ms' -> eligible measured id' ms' avg' ->
        (rank ms <= rank ms')%nat
  | None => False
  end.
Proof.
  pose proof (elected_is_best map_to_list measured ltac:(done)) as H.
  assert ((fun x => (x.1, ms_measurements x.2)) <$> find_best_connection map_to_list measured
          = Some ("wt_0", [ms_ 60; ms_ 50])) as E by (vm_compute; reflexivity).
  destruct (find_best_connection map_to_list measured) as [[id ms]|]; [|done].
  injection E as E1 E2. split; [done |]. split_and!; [done | done |].
  destruct H as (_ & avg & _ & H). intros id' ms' avg' H1 H2. destruct (H id' ms' avg' H1 H2); lia.
Defined.

Lemma manager_invariant_witness :
  let m := sys_manager (run (cm_step map_to_list map_to_list) demo_start
                          (demo_events ++ [EvTimer100 (ms_ 4000)])).1 in
  election_state m = ElElected "wt_0" (ms_ 4000) /\
  map_Forall (fun k _ => k = "wt_0") (connections m) /\
  map_Forall (fun _ => measurement_ok) (rtt_measurements m).
Proof.
  assert (controller_new (ms_ 1000) all_open demo_options demo_aes =
          Some (demo_start, report_state (ms_ 1000) (sys_manager demo_start))) as Enew by (vm_compute; reflexivity).
  pose proof (manager_invariant map_to_list map_to_list (ms_ 1000) all_open demo_options demo_aes demo_start _
    (demo_events ++ [EvTimer100 (ms_ 4000)]) Enew) as H.
  assert (election_state (sys_manager (run (cm_step map_to_list map_to_list) demo_start
    (demo_events ++ [EvTimer100 (ms_ 4000)])).1) = ElElected "wt_0" (ms_ 4000)) as E by (vm_compute; reflexivity).
  cbv zeta in *. revert H E. generalize (sys_manager (run (cm_step map_to_list map_to_list) demo_start
    (demo_events ++ [EvTimer100 (ms_ 4000)])).1). clear Enew. intros m [H1 H2] E. rewrite E in H2.
  split; [exact E | split; [exact (proj1 H2) | exact H1]].
Defined.

Lemma election_ends_witness :
  let m := sys_manager demo_start in
  let check t := check_and_complete_election map_to_list (ms_ t) in
  ~ testing (check 6000 (check 5000 (check 4000 m).1).1).1 /\ testing (check 5000 (check 4000 m).1).1.
Proof.
  cbv zeta. split; [|vm_compute; done].
  apply (election_ends map_to_list _ (ms_ 1000) 3000); first [vm_compute; reflexivity | vm_compute; congruence].
Defined.

(** Twenty wake-ups of the loop while no server answers. *)
Definition lost : ConnectionManager :=
  elected <| active_connection_id := None |> <| connections := ∅ |>.

Lemma reconnection_gives_up_witness :
  exists out msg,
    loop_run map_to_list (mkLoop 1 500 0 "https://two" Backoff)
      (replicate 20 (mkLoopEnv (ms_ 9000) (ms_ 0) all_open false false, lost)) =
    (out ++ [CmState (CsFailed msg (Some "https://two"))], None).
Proof.
  apply (reconnection_gives_up map_to_list (mkLoop 1 500 0 "https://two" Backoff)); try reflexivity.
  apply Forall_replicate. vm_compute. done.
Defined.

Lemma disconnect_is_final_witness :
  let '(s', out) := run (cm_step map_to_list map_to_list)
    (mkSystem (cm_disconnect elected) [mkLoop 1 500 0 "https://two" Electing])
    [EvLost 1 "wt_0" "https://two"; EvTimer1000 (ms_ 5000) all_open; EvTimer100 (ms_ 5000);
     EvLoop 0 (mkLoopEnv (ms_ 9000) (ms_ 0) all_open false false); EvSend (echo 7)] in
  connections (sys_manager s') = ∅ /\ Forall quiet out.
Proof.
  pose proof (disconnect_is_final map_to_list map_to_list ltac:(done) elected
    [mkLoop 1 500 0 "https://two" Electing]
    [EvLost 1 "wt_0" "https://two"; EvTimer1000 (ms_ 5000) all_open; EvTimer100 (ms_ 5000);
     EvLoop 0 (mkLoopEnv (ms_ 9000) (ms_ 0) all_open false false); EvSend (echo 7)]) as H.
  assert (election_state elected = ElElected "wt_0" (ms_ 4000)) as E by (vm_compute; reflexivity).
  assert (~ testing elected) as Ht by (unfold testing; rewrite E; intros []).
  specialize (H (fun t => False_ind _ (Ht t))). destruct (run _ _ _) as [s' out].
  destruct H as (H1 & _ & H2 & _). exact (conj H1 H2).
Defined.

(** The same sender before its fifth drop, seen from a session of its room. *)
Definition strained : SessionLogic :=
  (session_new 5 "standup" "bob" "Bob" false 0) <| congestion_tracker :=
    foldl (fun t ms => (record_drop (from_millis ms) 9 t).1) tracker_new [1; 2; 3; 4] |>.

Definition assigned : ConnectionManager := elected <| own_session_id := Some 9 |>.

Lemma congestion_dropped_witness :
  let payload := demo_write_wrapper (congestion_packet "bob" 9) in
  (on_outbound_drop (from_millis 5) 9 strained).2 = [PublishNats "room.standup.9" payload] /\
  exists packet, parse_wrapper payload = Some packet /\
    (on_inbound (ms_ 5000) "wt_0" packet assigned).2 = [].
Proof.
  cbv zeta. split; [vm_compute; reflexivity |].
  assert (on_outbound_drop (from_millis 5) 9 strained = ((on_outbound_drop (from_millis 5) 9 strained).1,
    [PublishNats "room.standup.9" (demo_write_wrapper (congestion_packet "bob" 9))])) as Hd
    by (vm_compute; reflexivity).
  destruct (congestion_signal_is_dropped (laws := demo_laws) (from_millis 5) 9 strained _ _ _
    (ms_ 5000) "wt_0" assigned Hd ltac:(vm_compute; reflexivity) ltac:(done))
    as (packet & H1 & _ & _ & H2).
  exists packet. exact (conj H1 H2).
Defined.

Definition elected_connection : Connection := default (connect 0 "") (connections elected !! "wt_0").

Lemma reelection_loses_witness :
  cm_send_packet (echo 7) elected = Some [NetStream (cn_task elected_connection) (echo 7)] /\
  cm_send_packet (echo 7) (start_reelection (ms_ 60000) all_open elected) = Some [].
Proof.
  assert (connections elected !! "wt_0" = Some elected_connection) as Ec by (vm_compute; reflexivity).
  assert (is_connected elected_connection = true) as Eu by (vm_compute; reflexivity).
  assert (is_candidate all_open elected "wt_0") as Hc.
  { right. exists "https://two". split; [|reflexivity]. vm_compute. left. }
  destruct (reelection_loses_media (ms_ 60000) all_open elected "wt_0" elected_connection (echo 7)
    ltac:(vm_compute; reflexivity) ltac:(vm_compute; reflexivity) Ec Eu Hc) as (H1 & _ & _ & H2 & _).
  exact (conj H1 H2).
Defined.
