(* ===== verification/Client.v ===== *)
(** * The client object (videocall-client/src/client/video_call_client.rs)

    [VideoCallClient] joins the parts: it hands the packets of the connection manager
    to the peer table, the encoders' flags, the diagnostics and the callbacks of the
    application, and exchanges the keys of the end-to-end encryption
    (crypto/rsa.rs).

    The RSA and protobuf libraries are the classes [Rsa] and [KeyWire]. A callback of
    the application is an effect, an optional one a flag of the options that says
    whether it is set. [Date::now()] is a whole number of milliseconds. Borrows of the
    cells are taken to succeed. [None] of an operation is a panic. The health reporter
    is not part of the state. *)
From Stdlib Require Import SpecFloat.
From S2P Require Import Prelude Floats VideoWorker Protocol Media OrderedMap PeerDecode.
From S2P Require Import AdaptiveQuality BitrateController Diagnostics Connection ConnectionManager.

(** ** Libraries *)

(** RSA with PKCS#1 v1.5 padding; [seed] is the random generator. *)
Class Rsa (K P : Type) : Type := {
  rsa_public : K -> P;
  rsa_encrypt : Z -> P -> bytes -> option bytes;
  rsa_decrypt : K -> bytes -> option bytes;
  to_public_key_der : P -> option bytes;
  from_public_key_der : bytes -> option P;
}.

Class RsaLaws {K P : Type} {rsa : Rsa K P} : Prop := {
  rsa_round_trip : forall seed key data e,
    rsa_encrypt seed (rsa_public key) data = Some e -> rsa_decrypt key e = Some data;
  der_round_trip : forall p der, to_public_key_der p = Some der -> from_public_key_der der = Some p;
}.

Record AesPacket : Type := mkAesPacket { ap_key : bytes; ap_iv : bytes }.
Record RsaPacket : Type := mkRsaPacket { rp_public_key_der : bytes; rp_user_id : bytes }.

Class KeyWire : Type := {
  parse_aes : bytes -> option AesPacket;
  write_aes : AesPacket -> option bytes;
  parse_rsa : bytes -> option RsaPacket;
  write_rsa : RsaPacket -> option bytes;
  parse_diagnostics : bytes -> option DiagnosticsPacket;
  write_diagnostics : DiagnosticsPacket -> option bytes;
}.

Class KeyWireLaws {keys : KeyWire} : Prop := {
  parse_write_aes : forall p b, write_aes p = Some b -> parse_aes b = Some p;
  parse_write_rsa : forall p b, write_rsa p = Some b -> parse_rsa b = Some p;
  parse_write_diagnostics : forall p b, write_diagnostics p = Some b -> parse_diagnostics b = Some p;
}.

(** ** State *)

Record ClientOptions : Type := mkClientOptions {
  enable_e2ee : bool;
  enable_webtransport : bool;
  enable_diagnostics : bool;
  cu_user_id : string;
  cu_websocket_urls : list string;
  cu_webtransport_urls : list string;
  rtt_testing_period_ms : Z;
  cu_vad_threshold : option float;
  get_peer_video_canvas_id : string -> string;
  get_peer_screen_canvas_id : string -> string;
  has_on_meeting_info : bool;
  has_on_meeting_ended : bool;
  has_on_meeting_activated : bool;
  has_on_participant_admitted : bool;
  has_on_participant_rejected : bool;
  has_on_waiting_room_updated : bool;
  has_on_peer_left : bool;
  has_on_peer_joined : bool;
  has_on_speaking_changed : bool;
}.

#[export] Instance eta_ClientOptions : Eta ClientOptions := fun r =>
  mkClientOptions (enable_e2ee r) (enable_webtransport r) (enable_diagnostics r) (cu_user_id r)
    (cu_websocket_urls r) (cu_webtransport_urls r) (rtt_testing_period_ms r) (cu_vad_threshold r)
    (get_peer_video_canvas_id r) (get_peer_screen_canvas_id r) (has_on_meeting_info r)
    (has_on_meeting_ended r) (has_on_meeting_activated r) (has_on_participant_admitted r)
    (has_on_participant_rejected r) (has_on_waiting_room_updated r) (has_on_peer_left r)
    (has_on_peer_joined r) (has_on_speaking_changed r).

Record RsaWrapper {K P : Type} : Type := mkRsaWrapper {
  rw_enabled : bool;
  rw_pub_key : P;
  rw_key : K;
}.
Arguments RsaWrapper : clear implicits.

Section Client.
Context {A : Type} {browser : Browser A} {K P : Type} {rsa : Rsa K P}.
Context {wire : Wire} {media : MediaWire} {cipher : Cipher} {keys : KeyWire}.

(** The object and its [Inner]. *)
Record VideoCallClient : Type := mkClient {
  cl_options : ClientOptions;
  cl_controller : option CmSystem;
  cl_connection_state : ConnectionState;
  cl_aes : Aes128State;
  cl_rsa : RsaWrapper K P;
  peer_decode_manager : PeerDecodeManager A;
  cl_own_session_id : option Z;
  recent_peer_events : gmap (string * string) Z;
  force_camera_keyframe : bool;
  force_screen_keyframe : bool;
  congestion_step_down_requested : bool;
}.

#[global] Instance eta_Client : Eta VideoCallClient := fun r =>
  mkClient (cl_options r) (cl_controller r) (cl_connection_state r) (cl_aes r) (cl_rsa r)
    (peer_decode_manager r) (cl_own_session_id r) (recent_peer_events r) (force_camera_keyframe r)
    (force_screen_keyframe r) (congestion_step_down_requested r).

(** What the client does to the network, the sender diagnostics and the application. *)
Inductive client_effect : Type :=
| ClNet (e : net_effect)
| ClPeer (e : peer_effect)
| ClFeedback (packet : DiagnosticsPacket)
| OnPeerAdded (session_id : string)
| OnMeetingInfo (start_time_ms : float)
| OnMeetingEnded (end_time_ms : float) (message : string)
| OnMeetingActivated
| OnParticipantAdmitted
| OnParticipantRejected
| OnWaitingRoomUpdated
| OnPeerJoined (display_name user_id : string)
| OnPeerLeft (display_name user_id : string)
| OnConnected
| OnConnectionLost (error : string)
| OnSpeakingChanged (speaking : bool).

(** ** rsa.rs *)

(** [new]; [key] is the generated key, of 1024 bits when disabled. *)
Definition rsa_wrapper_new (key : K) (enabled : bool) : RsaWrapper K P :=
  mkRsaWrapper K P enabled (rsa_public key) key.

Definition wrapper_decrypt (data : bytes) (w : RsaWrapper K P) : option bytes :=
  if negb (rw_enabled w) then Some data else rsa_decrypt (rw_key w) data.

Definition encrypt_with_key (seed : Z) (data : bytes) (key : P) (w : RsaWrapper K P) : option bytes :=
  if negb (rw_enabled w) then Some data else rsa_encrypt seed key data.

(** ** Construction and connection *)

Definition create_peer_decoder_manager (opts : ClientOptions) : PeerDecodeManager A :=
  set_vad_threshold (cu_vad_threshold opts)
    ((if enable_diagnostics opts then new_with_diagnostics else pm_new)
       <| get_video_canvas_id := get_peer_video_canvas_id opts |>
       <| get_screen_canvas_id := get_peer_screen_canvas_id opts |>).

Definition client_new (random_key random_iv : bytes) (key : K) (opts : ClientOptions) : VideoCallClient :=
  mkClient opts None (CsFailed "Not connected" None) (aes_new random_key random_iv (enable_e2ee opts))
    (rsa_wrapper_new key (enable_e2ee opts))
    (set_send_packet_callback (cu_user_id opts) (create_peer_decoder_manager opts))
    None ∅ false false false.

Definition client_disconnect (c : VideoCallClient) : VideoCallClient :=
  c <| cl_controller := None |> <| cl_connection_state := CsFailed "Disconnected" None |>.

(** The callback for a new state. *)
Definition on_state_changed (iter : gmap Z (Peer A) -> list (Z * Peer A)) (state : ConnectionState)
    (c : VideoCallClient) : VideoCallClient * list client_effect :=
  let c := c <| cl_connection_state := state |> in
  match state with
  | CsFailed error _ =>
      let '(peers, out) := clear_all_peers iter (peer_decode_manager c) in
      (c <| peer_decode_manager := peers |>, (ClPeer <$> out) ++ [OnConnectionLost error])
  | CsConnected _ _ _ => (c, [OnConnected])
  | _ => (c, [])
  end.

Definition controller_state (now : Z) (c : VideoCallClient) : option ConnectionState :=
  s ← cl_controller c; Some (get_connection_state (F64.of_Z now) (sys_manager s)).

Definition manager_options (opts : ClientOptions) : ConnectionManagerOptions :=
  mkOptions (cu_websocket_urls opts)
    (if enable_webtransport opts then cu_webtransport_urls opts else [])
    (cu_user_id opts) (rtt_testing_period_ms opts).

(** The [bool] is [Ok]. The controller reports its first state while it is built. *)
Definition connect_with_rtt_testing (iter : gmap Z (Peer A) -> list (Z * Peer A)) (now : Z)
    (opens : bool -> string -> bool) (c : VideoCallClient)
    : VideoCallClient * list client_effect * bool :=
  let proceed c :=
    match controller_new (F64.of_Z now) opens (manager_options (cl_options c)) (cl_aes c) with
    | None => (c, [], false)
    | Some (s, effects) =>
        let '(c, out) :=
          foldl (fun '(c, out) e => match e with
                                    | CmState state => let '(c, o) := on_state_changed iter state c in (c, out ++ o)
                                    | _ => (c, out)
                                    end) (c, []) effects in
        (c <| cl_controller := Some s |>, out, true)
    end in
  match controller_state now c with
  | Some (CsFailed _ _) => proceed (client_disconnect c)
  | Some _ => (c, [], true)
  | None => proceed c
  end.

Definition update_server_urls (websocket_urls webtransport_urls : list string) (c : VideoCallClient)
    : VideoCallClient :=
  c <| cl_options := (cl_options c) <| cu_websocket_urls := websocket_urls |>
                                    <| cu_webtransport_urls := webtransport_urls |> |>.

(** ** Sending *)

(** [send_packet] and [send_media_packet]: errors are logged. *)
Definition client_send_packet (packet : PacketWrapper) (c : VideoCallClient) : list client_effect :=
  match cl_controller c with
  | Some s => ClNet <$> default [] (cm_send_packet packet (sys_manager s))
  | None => []
  end.

(** The peer table sends its keyframe requests through the client. *)
Definition deliver (c : VideoCallClient) (e : peer_effect) : list client_effect :=
  match e with SendPacket packet => client_send_packet packet c | _ => [ClPeer e] end.

(** [unwrap]: a packet that cannot be written panics. *)
Definition send_diagnostic_packet (packet : DiagnosticsPacket) (c : VideoCallClient)
    : option (list client_effect) :=
  data ← write_diagnostics packet;
  Some (client_send_packet
          (wrapper_default <| packet_type := DIAGNOSTICS |>
             <| pw_user_id := as_bytes (cu_user_id (cl_options c)) |> <| pw_data := data |>) c).

Definition send_public_key (c : VideoCallClient) : list client_effect :=
  if negb (enable_e2ee (cl_options c)) then []
  else
    let userid := as_bytes (cu_user_id (cl_options c)) in
    match (der ← to_public_key_der (rw_pub_key (cl_rsa c)); write_rsa (mkRsaPacket der userid)) with
    | Some data =>
        client_send_packet (wrapper_default <| packet_type := RSA_PUB_KEY |> <| pw_user_id := userid |>
                              <| pw_data := data |>) c
    | None => []
    end.

Definition serialize_aes_packet (c : VideoCallClient) : option bytes :=
  write_aes (mkAesPacket (aes_key (cl_aes c)) (aes_iv (cl_aes c))).

Definition parse_public_key (packet : RsaPacket) : option P := from_public_key_der (rp_public_key_der packet).

(** ** Inbound packets *)

(** [true] when the event was seen within 30 seconds. *)
Definition is_duplicate_peer_event (now : Z) (event_type target_user_id : string) (c : VideoCallClient)
    : VideoCallClient * bool :=
  let key := (event_type, target_user_id) in
  let recent := filter (fun '(_, ts) => now - ts < 30000) (recent_peer_events c) in
  match recent !! key with
  | None => (c <| recent_peer_events := <[key := now]> recent |>, false)
  | Some _ => (c <| recent_peer_events := recent |>, true)
  end.

Definition try_handle_keyframe_request (response : PacketWrapper) (c : VideoCallClient)
    : VideoCallClient * bool :=
  match parse_media (pw_data response) with
  | None => (c, false)
  | Some media_packet =>
      if negb (bool_decide (media_type_value (media_type media_packet) = Some KEYFRAME_REQUEST)) then (c, false)
      else
        let requested_stream := from_utf8_lossy (mp_data media_packet) in
        (if bool_decide (requested_stream = "VIDEO") then c <| force_camera_keyframe := true |>
         else if bool_decide (requested_stream = "SCREEN") then c <| force_screen_keyframe := true |>
         else c, true)
  end.

(** [AES_KEY]: the key of a peer. *)
Definition handle_aes_key (response : PacketWrapper) (c : VideoCallClient) : option VideoCallClient :=
  match (bytes ← wrapper_decrypt (pw_data response) (cl_rsa c); parse_aes bytes) with
  | None => Some c
  | Some aes_packet =>
      aes ← aes_from_vecs (ap_key aes_packet) (ap_iv aes_packet) (enable_e2ee (cl_options c));
      Some (c <| peer_decode_manager := (set_peer_aes (pw_session_id response) aes (peer_decode_manager c)).1 |>)
  end.

(** [RSA_PUB_KEY]: the own key, encrypted for the peer. *)
Definition handle_rsa_pub_key (seed : Z) (response : PacketWrapper) (c : VideoCallClient)
    : list client_effect :=
  match (rsa_packet ← parse_rsa (pw_data response);
         pub_key ← parse_public_key rsa_packet;
         aes_packet ← serialize_aes_packet c;
         encrypt_with_key seed aes_packet pub_key (cl_rsa c)) with
  | Some data =>
      client_send_packet (wrapper_default <| packet_type := AES_KEY |>
                            <| pw_user_id := as_bytes (cu_user_id (cl_options c)) |> <| pw_data := data |>) c
  | None => []
  end.

Definition handle_media (now : Z) (response : PacketWrapper) (c : VideoCallClient)
    : VideoCallClient * list client_effect :=
  let sid := pw_session_id response in
  let '(peers, out, r) := pm_decode now response (cu_user_id (cl_options c)) (peer_decode_manager c) in
  let c1 := c <| peer_decode_manager := peers |> in
  let effects := out ≫= deliver c1 in
  match r with
  | Err (SameUserPacket _) | Ok _ => (c1, effects)
  | Err _ =>
      let '(peers, out) := delete_peer sid peers in
      (c1 <| peer_decode_manager := peers |>, effects ++ (ClPeer <$> out))
  end.

Definition handle_session_assigned (sid : Z) (c : VideoCallClient) : VideoCallClient :=
  c <| cl_own_session_id := Some sid |>
    <| cl_controller := (fun s => mkSystem (set_own_session_id sid (sys_manager s)) (sys_loops s)) <$> cl_controller c |>.

(** A name to show for the target of a meeting event. *)
Definition event_display_name (packet : MeetingPacket) : string :=
  if bool_decide (mt_display_name packet = []) then from_utf8_lossy (mt_target_user_id packet)
  else from_utf8_lossy (mt_display_name packet).

(** A participant event about somebody else that was not seen already. *)
Definition should_emit (now : Z) (event : string) (packet : MeetingPacket) (c : VideoCallClient)
    : VideoCallClient * bool :=
  if bool_decide (mt_target_user_id packet = []) ||
     bool_decide (mt_target_user_id packet = as_bytes (cu_user_id (cl_options c)))
  then (c, false)
  else let '(c, duplicate) := is_duplicate_peer_event now event (from_utf8_lossy (mt_target_user_id packet)) c in
       (c, negb duplicate).

Definition handle_meeting (now : Z) (packet : MeetingPacket) (c : VideoCallClient)
    : VideoCallClient * list client_effect :=
  let opts := cl_options c in
  let ev := meeting_event_value (event_type packet) in
  let target_str := from_utf8_lossy (mt_target_user_id packet) in
  let targeted := bool_decide (mt_target_user_id packet = as_bytes (cu_user_id opts)) in
  if bool_decide (ev = Some MEETING_STARTED) then
    (c, if has_on_meeting_info opts then [OnMeetingInfo (F64.of_Z (mt_start_time_ms packet))] else [])
  else if bool_decide (ev = Some MEETING_ENDED) then
    (c, if has_on_meeting_ended opts then [OnMeetingEnded (F64.of_Z now) (mt_message packet)] else [])
  else if bool_decide (ev = Some PARTICIPANT_JOINED) then
    let display_name := event_display_name packet in
    let c := c <| peer_decode_manager :=
                    set_peer_display_name_by_user_id target_str display_name (peer_decode_manager c) |> in
    let '(c, emit) := should_emit now "joined" packet c in
    (c, if emit && has_on_peer_joined opts then [OnPeerJoined display_name target_str] else [])
  else if bool_decide (ev = Some PARTICIPANT_LEFT) then
    let '(peers, out) := if mt_session_id packet =? 0 then (peer_decode_manager c, [])
                         else delete_peer (mt_session_id packet) (peer_decode_manager c) in
    let '(c, emit) := should_emit now "left" packet (c <| peer_decode_manager := peers |>) in
    (c, (ClPeer <$> out) ++
        (if emit && has_on_peer_left opts then [OnPeerLeft (event_display_name packet) target_str] else []))
  else if bool_decide (ev = Some MEETING_ACTIVATED) then
    (c, if has_on_meeting_activated opts then [OnMeetingActivated] else [])
  else if bool_decide (ev = Some PARTICIPANT_ADMITTED) then
    (c, if targeted && has_on_participant_admitted opts then [OnParticipantAdmitted] else [])
  else if bool_decide (ev = Some PARTICIPANT_REJECTED) then
    (c, if targeted && has_on_participant_rejected opts then [OnParticipantRejected] else [])
  else if bool_decide (ev = Some WAITING_ROOM_UPDATED) then
    (c, if has_on_waiting_room_updated opts then [OnWaitingRoomUpdated] else [])
  else (c, []).

(** The packet's own handling; the [bool] is [false] on the early returns. *)
Definition dispatch (now seed : Z) (response : PacketWrapper) (c : VideoCallClient)
    : option (VideoCallClient * list client_effect * bool) :=
  let ty := packet_type_value (packet_type response) in
  if bool_decide (ty = Some AES_KEY) then
    if negb (enable_e2ee (cl_options c)) then Some (c, [], false)
    else c ← handle_aes_key response c; Some (c, [], true)
  else if bool_decide (ty = Some RSA_PUB_KEY) then
    if negb (enable_e2ee (cl_options c)) then Some (c, [], false)
    else Some (c, handle_rsa_pub_key seed response c, true)
  else if bool_decide (ty = Some MEDIA) then
    let '(c, handled) := try_handle_keyframe_request response c in
    if handled : bool then Some (c, [], false)
    else let '(c, out) := handle_media now response c in Some (c, out, true)
  else if bool_decide (ty = Some DIAGNOSTICS) then
    Some (c, match parse_diagnostics (pw_data response) with
             | Some packet => if enable_diagnostics (cl_options c) then [ClFeedback packet] else []
             | None => []
             end, true)
  else if bool_decide (ty = Some SESSION_ASSIGNED) then
    Some (handle_session_assigned (pw_session_id response) c, [], true)
  else if bool_decide (ty = Some MEETING) then
    match parse_meeting (pw_data response) with
    | Some packet => let '(c, out) := handle_meeting now packet c in Some (c, out, true)
    | None => Some (c, [], true)
    end
  else if bool_decide (ty = Some CONGESTION) then
    Some (if bool_decide (cl_own_session_id c = Some (pw_session_id response))
          then c <| congestion_step_down_requested := true |> else c, [], true)
  else Some (c, [], true).

Definition on_inbound_media (now seed : Z) (response : PacketWrapper) (c : VideoCallClient)
    : option (VideoCallClient * list client_effect) :=
  let '(peers, status) :=
    if is_system_user (pw_user_id response) || (pw_session_id response =? 0)
    then (peer_decode_manager c, NoChange)
    else ensure_peer (pw_session_id response) (from_utf8_lossy (pw_user_id response)) (peer_decode_manager c) in
  '(c, out, finished) ← dispatch now seed response (c <| peer_decode_manager := peers |>);
  match status with
  | Added sid =>
      if finished : bool then Some (c, out ++ OnPeerAdded (show_u64 sid) :: send_public_key c) else Some (c, out)
  | NoChange => Some (c, out)
  end.

(** ** The whole: the callbacks of the connection manager, timers and calls *)

Context (iter : gmap Z (Peer A) -> list (Z * Peer A)).
Context (iter_rtt : gmap string ServerRttMeasurement -> list (string * ServerRttMeasurement)).
Context (iter_conn : gmap string Connection -> list (string * Connection)).

(** What the manager reports, in order. *)
Fixpoint absorb (now seed : Z) (effects : list cm_effect) (c : VideoCallClient)
    : option (VideoCallClient * list client_effect) :=
  match effects with
  | [] => Some (c, [])
  | e :: effects =>
      '(c, out) ← match e with
                  | CmNet n => Some (c, [ClNet n])
                  | CmState state => Some (on_state_changed iter state c)
                  | CmInbound packet => on_inbound_media now seed packet c
                  end;
      '(c, more) ← absorb now seed effects c;
      Some (c, out ++ more)
  end.

Inductive client_event : Type :=
| CeManager (ev : cm_event)
| CePeerMonitor
| CeConnect (opens : bool -> string -> bool)
| CeDisconnect
| CeUpdateUrls (websocket_urls webtransport_urls : list string)
| CeSend (packet : PacketWrapper)
| CeDiagnostics (packet : DiagnosticsPacket)
| CeVisibility (peer_id : string) (visible : bool)
| CeSetSpeaking (speaking : bool).

Definition client_cm_event (now seed : Z) (ev : cm_event) (c : VideoCallClient)
    : option (VideoCallClient * list client_effect) :=
  match cl_controller c with
  | None => Some (c, [])
  | Some s =>
      let '(s, effects) := cm_step iter_rtt iter_conn s ev in
      absorb now seed effects (c <| cl_controller := Some s |>)
  end.

Definition client_set_peer_visibility (peer_id : string) (visible : bool) (c : VideoCallClient)
    : VideoCallClient :=
  match parse_u64 peer_id with
  | Some sid => c <| peer_decode_manager := set_peer_visibility sid visible (peer_decode_manager c) |>
  | None => c
  end.

Definition client_set_speaking (now seed : Z) (speaking : bool) (c : VideoCallClient)
    : option (VideoCallClient * list client_effect) :=
  '(c, out) ← client_cm_event now seed (EvSetSpeaking (F64.of_Z now) speaking) c;
  Some (c, out ++ if has_on_speaking_changed (cl_options c) then [OnSpeakingChanged speaking] else []).

Definition client_step (now seed : Z) (ev : client_event) (c : VideoCallClient)
    : option (VideoCallClient * list client_effect) :=
  match ev with
  | CeManager ev => client_cm_event now seed ev c
  | CePeerMonitor =>
      let '(peers, out) := run_peer_monitor (peer_decode_manager c) in
      Some (c <| peer_decode_manager := peers |>, ClPeer <$> out)
  | CeConnect opens => Some (connect_with_rtt_testing iter now opens c).1
  | CeDisconnect => Some (client_disconnect c, [])
  | CeUpdateUrls ws wt => Some (update_server_urls ws wt c, [])
  | CeSend packet => Some (c, client_send_packet packet c)
  | CeDiagnostics packet => out ← send_diagnostic_packet packet c; Some (c, out)
  | CeVisibility peer_id visible => Some (client_set_peer_visibility peer_id visible c, [])
  | CeSetSpeaking speaking => client_set_speaking now seed speaking c
  end.

(** ** Queries *)

Definition client_is_connected (c : VideoCallClient) : bool :=
  match cl_controller c with Some s => cm_is_connected (sys_manager s) | None => false end.

Definition is_reconnecting (now : Z) (c : VideoCallClient) : bool :=
  match controller_state now c with Some (CsReconnecting _ _) => true | _ => false end.

Definition sorted_peer_keys (c : VideoCallClient) : list string :=
  show_u64 <$> sorted_keys (peer_decode_manager c).

Definition peer_by_key (key : string) (c : VideoCallClient) : option (Peer A) :=
  sid ← parse_u64 key; get_peer sid (peer_decode_manager c).

Definition get_peer_user_id (session_id : string) (c : VideoCallClient) : option string :=
  pr_user_id <$> peer_by_key session_id c.

Definition is_awaiting_peer_screen_frame (key : string) (c : VideoCallClient) : bool :=
  match peer_by_key key c with
  | Some peer => wasm_is_waiting_for_keyframe (vp_decoder (pr_screen peer))
  | None => false
  end.

Definition is_video_enabled_for_peer (key : string) (c : VideoCallClient) : bool :=
  match peer_by_key key c with Some peer => pr_video_enabled peer | None => false end.
Definition is_screen_share_enabled_for_peer (key : string) (c : VideoCallClient) : bool :=
  match peer_by_key key c with Some peer => pr_screen_enabled peer | None => false end.
Definition is_audio_enabled_for_peer (key : string) (c : VideoCallClient) : bool :=
  match peer_by_key key c with Some peer => pr_audio_enabled peer | None => false end.

Definition has_peer_with_user_id (user_id : string) (c : VideoCallClient) : bool :=
  existsb (fun sid => match get_peer sid (peer_decode_manager c) with
                      | Some peer => bool_decide (pr_user_id peer = user_id)
                      | None => false
                      end) (sorted_keys (peer_decode_manager c)).

Definition get_rtt_measurements (c : VideoCallClient) : option (gmap string float) :=
  s ← cl_controller c; Some (omap ms_average_rtt (rtt_measurements (sys_manager s))).
End Client.
