(* ===== verification/ClientProps.v ===== *)
(** * Properties of the client object

    The key exchange gives the receiver the sender's key; arrivals and departures are
    announced once; and three ways in which a packet of another participant harms the
    client. *)
From Stdlib Require Import SpecFloat.
From S2P Require Import Prelude Floats VideoWorker Protocol DemoWire Media OrderedMap PeerDecode.
From S2P Require Import DemoMedia AdaptiveQuality BitrateController Diagnostics Connection.
From S2P Require Import ConnectionManager Client.

Section Props.
Context {A : Type} {browser : Browser A} {K P : Type} {rsa : Rsa K P}.
Context {wire : Wire} {media : MediaWire} {cipher : Cipher} {keys : KeyWire}.

Notation client := (VideoCallClient (A := A) (K := K) (P := P)).
Notation inbound := (on_inbound_media (A := A) (K := K) (P := P)).

(** ** The parts of a client that a packet leaves alone *)

(** The table after [ensure_peer]. *)
Definition ensured (r : PacketWrapper) (c : client) : PeerDecodeManager A * PeerStatus :=
  if is_system_user (pw_user_id r) || (pw_session_id r =? 0) then (peer_decode_manager c, NoChange)
  else ensure_peer (pw_session_id r) (from_utf8_lossy (pw_user_id r)) (peer_decode_manager c).

Lemma inbound_eq now seed r (c : client) :
  inbound now seed r c =
    '(c', out, finished) ← dispatch now seed r (c <| peer_decode_manager := (ensured r c).1 |>);
    match (ensured r c).2 with
    | Added sid => if finished : bool then Some (c', out ++ OnPeerAdded (show_u64 sid) :: send_public_key c')
                   else Some (c', out)
    | NoChange => Some (c', out)
    end.
Proof. unfold on_inbound_media, ensured. repeat case_match; simplify_eq/=; done. Qed.

Lemma get_insert {V} k (v : V) m : om_get k (om_insert k v m).1 = Some v.
Proof. unfold om_get, om_insert. destruct (om_map m !! k); simpl; by rewrite lookup_insert_eq. Qed.

(** A known peer is not added again. *)
Lemma ensured_known r (c : client) p :
  get_peer (pw_session_id r) (peer_decode_manager c) = Some p -> ensured r c = (peer_decode_manager c, NoChange).
Proof.
  unfold ensured, ensure_peer, get_peer, om_get, om_contains_key. intros E. case_match; [done |].
  by rewrite E.
Qed.

Lemma ensured_added r (c : client) sid :
  (ensured r c).2 = Added sid -> sid = pw_session_id r /\ get_peer sid (peer_decode_manager c) = None.
Proof.
  unfold ensured, ensure_peer, get_peer, om_get, om_contains_key. repeat case_match; intros; simplify_eq/=.
  split; [done |]. by destruct (om_map _ !! _).
Qed.

(** Packets to the network only. *)
Definition is_net (e : client_effect) : Prop := match e with ClNet _ => True | _ => False end.

Lemma send_is_net packet (c : client) : Forall is_net (client_send_packet packet c).
Proof. unfold client_send_packet. case_match; [|done]. by apply Forall_fmap, Forall_true. Qed.

Lemma public_key_is_net (c : client) : Forall is_net (send_public_key c).
Proof. unfold send_public_key. repeat case_match; try done. apply send_is_net. Qed.

Lemma rsa_reply_is_net seed r (c : client) : Forall is_net (handle_rsa_pub_key seed r c).
Proof. unfold handle_rsa_pub_key. case_match; [apply send_is_net | done]. Qed.

(** ** Arrivals and departures *)

(** An announcement about a user, named as in the table of recent events. *)
Definition announces (event user : string) (e : client_effect) : Prop :=
  match e with
  | OnPeerJoined _ u => event = "joined" /\ user = u
  | OnPeerLeft _ u => event = "left" /\ user = u
  | _ => False
  end.

Definition silent (e : client_effect) : Prop := forall event user, ~ announces event user e.

Lemma nets_silent out : Forall is_net out -> Forall silent out.
Proof. intros H. eapply Forall_impl; [exact H |]. intros [] He event user Ha; done. Qed.

Lemma optional_silent (b : bool) e : silent e -> Forall silent (if b then [e] else []).
Proof. intros He. destruct b; [by apply Forall_singleton | done]. Qed.

Lemma peers_silent out : Forall silent (ClPeer <$> out).
Proof. apply Forall_fmap, Forall_true. intros e event user []. Qed.

(** The table of recent events after a look-up at [now]. *)
Definition stamped (now : Z) (key : string * string) (recent recent' : gmap (string * string) Z) : Prop :=
  match recent' !! key with
  | Some ts => recent !! key = Some ts \/ (ts = now /\ forall ts0, recent !! key = Some ts0 -> 30000 <= now - ts0)
  | None => forall ts0, recent !! key = Some ts0 -> 30000 <= now - ts0
  end.

Lemma stamped_refl now key recent : stamped now key recent recent.
Proof. unfold stamped. destruct (recent !! key); [by left | done]. Qed.

Lemma duplicate_stamped now event user (c : client) key :
  let '(c', duplicate) := is_duplicate_peer_event now event user c in
  stamped now key (recent_peer_events c) (recent_peer_events c') /\
  (duplicate = false -> key = (event, user) ->
   recent_peer_events c' !! key = Some now /\
   forall ts0, recent_peer_events c !! key = Some ts0 -> 30000 <= now - ts0).
Proof.
  unfold is_duplicate_peer_event, stamped.
  set (recent := filter _ (recent_peer_events c)).
  assert (forall k, match recent !! k with
                    | Some ts => recent_peer_events c !! k = Some ts
                    | None => forall ts0, recent_peer_events c !! k = Some ts0 -> 30000 <= now - ts0
                    end) as Hr.
  { intros k. destruct (recent !! k) as [ts|] eqn:E.
    - by apply map_lookup_filter_Some in E as [? _].
    - intros ts0 E0. apply map_lookup_filter_None in E as [E|E]; [congruence |].
      specialize (E _ E0). simpl in E. lia. }
  pose proof (Hr key) as Hk. destruct (recent !! (event, user)) as [ts|] eqn:E; simpl.
  - split; [destruct (recent !! key); [by left | done] | done].
  - destruct (decide (key = (event, user))) as [->|Hne].
    + rewrite lookup_insert_eq. rewrite E in Hk. split; [by right | done].
    + rewrite lookup_insert_ne by done. split; [destruct (recent !! key); [by left | done] | done].
Qed.

(** One step of the table and what is announced with it. *)
Definition step_ok (now : Z) (c c' : client) (out : list client_effect) : Prop :=
  forall event user,
    stamped now (event, user) (recent_peer_events c) (recent_peer_events c') /\
    (forall e, e ∈ out -> announces event user e ->
       recent_peer_events c' !! (event, user) = Some now /\
       forall ts0, recent_peer_events c !! (event, user) = Some ts0 -> 30000 <= now - ts0) /\
    (forall l1 l2 l3 e1 e2, out = l1 ++ e1 :: l2 ++ e2 :: l3 -> announces event user e1 ->
       announces event user e2 -> False).

Lemma step_ok_silent now (c c' : client) out :
  recent_peer_events c' = recent_peer_events c -> Forall silent out -> step_ok now c c' out.
Proof.
  intros E Hs event user. rewrite E. split; [apply stamped_refl |]. rewrite Forall_forall in Hs. split.
  - intros e Hin Ha. by destruct (Hs e Hin event user).
  - intros l1 l2 l3 e1 e2 -> Ha _. eapply (Hs e1); [|exact Ha]. set_solver.
Qed.

(** One announcement after silent effects. *)
Lemma split_last_announcement event user pre x (l1 l2 l3 : list client_effect) e1 e2 :
  Forall silent pre -> pre ++ x = l1 ++ e1 :: l2 ++ e2 :: l3 -> (length x <= 1)%nat ->
  announces event user e1 -> False.
Proof.
  intros Hp E Hx Ha. assert (e1 ∈ pre ++ x) as Hin by (rewrite E; set_solver).
  assert (e1 ∉ pre) as Hn by (intros H; by apply (proj1 (Forall_forall _ _) Hp e1 H event user)).
  assert (length l1 < length pre)%nat as Hl.
  { apply (f_equal length) in E. rewrite !length_app in E. simpl in E. rewrite length_app in E. simpl in E. lia. }
  apply Hn. apply list_elem_of_lookup_2 with (i := length l1).
  rewrite <- (lookup_app_l pre x) by done. rewrite E. by apply list_lookup_middle.
Qed.

Lemma should_emit_ok now event packet (c c0 : client) pre (x : client_effect) (present : bool) :
  recent_peer_events c0 = recent_peer_events c -> Forall silent pre ->
  (forall event' user, announces event' user x ->
     event' = event /\ user = from_utf8_lossy (mt_target_user_id packet)) ->
  let '(c', emit) := should_emit now event packet c0 in
  step_ok now c c' (pre ++ if emit && present then [x] else []).
Proof.
  intros E Hp Hx. unfold should_emit. destruct (bool_decide _ || bool_decide _).
  { simpl. rewrite app_nil_r. by apply step_ok_silent. }
  pose proof (duplicate_stamped now event (from_utf8_lossy (mt_target_user_id packet)) c0) as Hd.
  destruct (is_duplicate_peer_event _ _ _ c0) as [c' duplicate]. intros event' user.
  destruct (Hd (event', user)) as [H1 H2]. rewrite E in H1, H2. split; [done |]. split.
  - intros e [Hin|Hin]%elem_of_app Ha.
    { by destruct (proj1 (Forall_forall _ _) Hp e Hin event' user). }
    destruct duplicate, present; simpl in Hin; try (by apply elem_of_nil in Hin).
    apply list_elem_of_singleton in Hin as ->. apply H2; [done |]. by destruct (Hx _ _ Ha) as [-> ->].
  - intros l1 l2 l3 e1 e2 Heq Ha _. eapply (split_last_announcement event' user); [exact Hp | exact Heq | | exact Ha].
    destruct (negb duplicate && present); simpl; lia.
Qed.

Lemma step_ok_pre now (c c0 c' : client) out :
  recent_peer_events c0 = recent_peer_events c -> step_ok now c0 c' out -> step_ok now c c' out.
Proof. intros E H event user. rewrite <- E. apply H. Qed.

Lemma step_ok_post now (c c' : client) out more :
  step_ok now c c' out -> Forall silent more -> step_ok now c c' (out ++ more).
Proof.
  intros H Hm event user. destruct (H event user) as (H1 & H2 & H3). split; [done | split].
  - intros e [Hin|Hin]%elem_of_app Ha; [by apply (H2 e) |].
    by destruct (proj1 (Forall_forall _ _) Hm e Hin event user).
  - intros l1 l2 l3 e1 e2 E A1 A2.
    assert (exists l4, out = l1 ++ e1 :: l2 ++ e2 :: l4) as [l4 Hl]; [|by apply (H3 l1 l2 l4 e1 e2)].
    replace (l1 ++ e1 :: l2 ++ e2 :: l3) with ((l1 ++ e1 :: l2 ++ [e2]) ++ l3) in E
      by (by rewrite <- !app_assoc; simpl; rewrite <- app_assoc).
    apply app_eq_inv in E as [(k & E1 & E2)|(k & E1 & E2)].
    + exists k. rewrite E1. by rewrite <- !app_assoc; simpl; rewrite <- app_assoc.
    + destruct (decide (k = [])) as [->|Hk].
      { exists []. rewrite app_nil_r in E1. by rewrite <- E1. }
      exfalso. destruct (exists_last Hk) as (k' & x & ->).
      assert (x = e2) as ->.
      { rewrite app_assoc, (app_comm_cons l2), (app_assoc l1) in E1. by apply app_inj_tail in E1 as [_ ?]. }
      assert (e2 ∈ more) as Hin by (rewrite E2; set_solver).
      exact (proj1 (Forall_forall _ _) Hm e2 Hin event user A2).
Qed.

Lemma meeting_ok now packet (c : client) :
  let '(c', out) := handle_meeting now packet c in step_ok now c c' out.
Proof.
  unfold handle_meeting. cbv zeta.
  do 2 (case_bool_decide; [apply step_ok_silent; [done |]; apply optional_silent; intros ? ? [] |]).
  case_bool_decide.
  { match goal with |- context [should_emit _ _ _ ?c0] =>
      pose proof (should_emit_ok now "joined" packet c c0 []
        (OnPeerJoined (event_display_name packet) (from_utf8_lossy (mt_target_user_id packet)))
        (has_on_peer_joined (cl_options c)) eq_refl ltac:(done) ltac:(intros ? ? [-> ->]; done)) as Hok end.
    destruct (should_emit _ _ _ _) as [c' emit]. exact Hok. }
  case_bool_decide.
  { destruct (if mt_session_id packet =? 0 then _ else _) as [peers out].
    match goal with |- context [should_emit _ _ _ ?c0] =>
      pose proof (should_emit_ok now "left" packet c c0 (ClPeer <$> out)
        (OnPeerLeft (event_display_name packet) (from_utf8_lossy (mt_target_user_id packet)))
        (has_on_peer_left (cl_options c)) eq_refl (peers_silent out) ltac:(intros ? ? [-> ->]; done)) as Hok end.
    destruct (should_emit _ _ _ _) as [c' emit]. exact Hok. }
  do 4 (case_bool_decide; [apply step_ok_silent; [done |]; apply optional_silent; intros ? ? [] |]).
  by apply step_ok_silent.
Qed.

Lemma deliver_silent (c : client) out : Forall silent (out ≫= deliver c).
Proof.
  apply Forall_forall. intros e (pe & He & _)%list_elem_of_bind. revert e He.
  apply Forall_forall. destruct pe; try (apply Forall_singleton; intros ? ? []).
  apply nets_silent, send_is_net.
Qed.

Lemma media_ok now r (c : client) :
  let '(c', out) := handle_media now r c in step_ok now c c' out.
Proof.
  unfold handle_media. destruct (pm_decode _ _ _ _) as [[peers out] res].
  assert (forall peers', step_ok now c (c <| peer_decode_manager := peers' |>)
    (out ≫= deliver (c <| peer_decode_manager := peers |>))) as Hok
    by (intros; apply step_ok_silent; [done | apply deliver_silent]).
  destruct res as [|[]]; try apply Hok.
  all: destruct (delete_peer _ peers) as [peers' out']; apply step_ok_post; [apply (Hok peers') | apply peers_silent].
Qed.

Lemma dispatch_ok now seed r (c c' : client) out finished :
  dispatch now seed r c = Some (c', out, finished) -> step_ok now c c' out.
Proof.
  unfold dispatch. cbv zeta.
  case_bool_decide.
  { case_match; [intros [= <- <- <-]; by apply step_ok_silent |].
    unfold handle_aes_key. case_match; cbn [mbind option_bind].
    - destruct (aes_from_vecs _ _ _); cbn [mbind option_bind]; [|done]. intros [= <- <- <-]. by apply step_ok_silent.
    - intros [= <- <- <-]. by apply step_ok_silent. }
  case_bool_decide.
  { case_match; intros [= <- <- <-]; apply step_ok_silent; try done. apply nets_silent, rsa_reply_is_net. }
  case_bool_decide.
  { assert (recent_peer_events (try_handle_keyframe_request r c).1 = recent_peer_events c) as Ek
      by (unfold try_handle_keyframe_request; repeat case_match; done).
    destruct (try_handle_keyframe_request r c) as [c1 handled]. simpl in Ek.
    destruct handled; [intros [= <- <- <-]; by apply step_ok_silent |].
    pose proof (media_ok now r c1) as Hm. destruct (handle_media now r c1) as [c2 o].
    intros [= <- <- <-]. by apply (step_ok_pre now c c1). }
  case_bool_decide.
  { intros [= <- <- <-]. apply step_ok_silent; [done |].
    destruct (parse_diagnostics _); [apply optional_silent; intros ? ? [] | done]. }
  case_bool_decide; [intros [= <- <- <-]; by apply step_ok_silent |].
  case_bool_decide.
  { destruct (parse_meeting _) as [packet|]; [|intros [= <- <- <-]; by apply step_ok_silent].
    pose proof (meeting_ok now packet c) as Hm. destruct (handle_meeting _ _ _). by intros [= <- <- <-]. }
  case_bool_decide; intros [= <- <- <-]; apply step_ok_silent; try done. by case_bool_decide.
Qed.

Lemma inbound_ok now seed r (c c' : client) out :
  inbound now seed r c = Some (c', out) -> step_ok now c c' out.
Proof.
  rewrite inbound_eq. destruct (dispatch _ _ _ _) as [[[c1 o] finished]|] eqn:E; cbn [mbind option_bind]; [|done].
  pose proof (step_ok_pre now c _ c1 o eq_refl (dispatch_ok _ _ _ _ _ _ _ E)) as Hok.
  destruct (ensured r c).2; [|by intros [= <- <-]]. destruct finished; intros [= <- <-]; [|done].
  apply step_ok_post; [done |]. apply Forall_cons. split; [intros ? ? [] |]. apply nets_silent, public_key_is_net.
Qed.

(** A sequence of packets, with the time of each; outputs carry their time. *)
Fixpoint inbound_run (packets : list (Z * Z * PacketWrapper)) (c : client) : option (list (Z * client_effect)) :=
  match packets with
  | [] => Some []
  | (now, seed, r) :: rest =>
      '(c, out) ← inbound now seed r c;
      more ← inbound_run rest c;
      Some ((pair now <$> out) ++ more)
  end.

Lemma sorted_times (p : Z * Z * PacketWrapper) packets :
  StronglySorted Z.le ((p :: packets).*1.*1) ->
  StronglySorted Z.le (packets.*1.*1) /\ Forall (fun q => p.1.1 <= q.1.1) packets.
Proof.
  rewrite !fmap_cons. intros [Hs Hall]%StronglySorted_inv. split; [done |].
  by rewrite !Forall_fmap in Hall.
Qed.

(** An earlier announcement is remembered, or it is long ago. *)
Definition remembered (event user : string) (t : Z) (c : client) (now : Z) : Prop :=
  (exists ts, recent_peer_events c !! (event, user) = Some ts /\ t <= ts) \/ 30000 <= now - t.

Lemma remembered_run event user t packets : forall c now out,
  remembered event user t c now -> Forall (fun p => now <= p.1.1) packets ->
  StronglySorted Z.le (packets.*1.*1) -> inbound_run packets c = Some out ->
  forall t2 e, (t2, e) ∈ out -> announces event user e -> 30000 <= t2 - t.
Proof.
  induction packets as [|[[at_ seed] r] packets IH]; intros c now out Hr Hnow Hs Hrun t2 e Hin Ha; simpl in Hrun.
  { injection Hrun as <-. by apply elem_of_nil in Hin. }
  destruct (inbound at_ seed r c) as [[c1 o]|] eqn:E; cbn [mbind option_bind] in Hrun; [|done].
  destruct (inbound_run packets c1) as [more|] eqn:Em; cbn [mbind option_bind] in Hrun; [|done].
  injection Hrun as <-. apply Forall_cons in Hnow as [Hn Hnow]. simpl in Hn.
  apply sorted_times in Hs as [Hs Hall].
  destruct (inbound_ok _ _ _ _ _ _ E event user) as (H1 & H2 & _).
  apply elem_of_app in Hin as [Hin|Hin].
  - apply list_elem_of_fmap in Hin as (e' & [= -> ->] & Hin). destruct (H2 e' Hin Ha) as [_ H].
    destruct Hr as [(ts & E0 & Hts)|Hr]; [specialize (H ts E0); lia | lia].
  - eapply (IH c1 at_ more); try done.
    + destruct Hr as [(ts & E0 & Hts)|Hr]; [|right; lia]. unfold stamped in H1. rewrite E0 in H1.
      destruct (recent_peer_events c1 !! (event, user)) as [ts'|] eqn:E1.
      * destruct H1 as [[= ->]|[-> H]]; [left; by exists ts' |]. specialize (H ts eq_refl). right. lia.
      * specialize (H1 ts eq_refl). right. lia.
Qed.

(** Nobody is announced twice. Whatever packets a client receives, on whatever
    connections and in whatever order, two notifications of the arrival (or of the
    departure) of the same user are at least thirty seconds apart. *)
Theorem announced_once (event user : string) (packets : list (Z * Z * PacketWrapper)) (c : client)
    (l1 l2 l3 : list (Z * client_effect)) (t1 t2 : Z) (e1 e2 : client_effect) :
  StronglySorted Z.le (packets.*1.*1) ->
  inbound_run packets c = Some (l1 ++ (t1, e1) :: l2 ++ (t2, e2) :: l3) ->
  announces event user e1 -> announces event user e2 -> 30000 <= t2 - t1.
Proof.
  revert c l1. induction packets as [|[[at_ seed] r] packets IH]; intros c l1 Hs Hrun A1 A2; simpl in Hrun.
  { injection Hrun as E. by destruct l1. }
  destruct (inbound at_ seed r c) as [[c1 o]|] eqn:E; cbn [mbind option_bind] in Hrun; [|done].
  destruct (inbound_run packets c1) as [more|] eqn:Em; cbn [mbind option_bind] in Hrun; [|done].
  injection Hrun as Hrun. apply sorted_times in Hs as [Hs Hall].
  destruct (inbound_ok _ _ _ _ _ _ E event user) as (H1 & H2 & H3).
  symmetry in Hrun. apply app_eq_inv in Hrun as [(k & -> & Ek)|(k & Ek & Em')].
  { apply (IH c1 k); [done | by rewrite Em, Ek | done | done]. }
  destruct k as [|[t1' e1'] k].
  { apply (IH c1 []); [done | simpl in Em'; by rewrite Em, <- Em' | done | done]. }
  injection Em' as <- <- Em'. assert (e1 ∈ o /\ t1 = at_) as [Ho ->].
  { assert ((t1, e1) ∈ pair at_ <$> o) as (e & [= -> ->] & ?)%list_elem_of_fmap by (rewrite Ek; set_solver). done. }
  assert ((t2, e2) ∈ more -> 30000 <= t2 - at_) as Hlater.
  { intros Hin. eapply (remembered_run event user at_ packets c1 at_ more); try done.
    left. exists at_. split; [apply (H2 e1 Ho A1) | lia]. }
  apply app_eq_inv in Em' as [(j & -> & Ej)|(j & -> & Ej)].
  { apply Hlater. rewrite Ej. set_solver. }
  destruct j as [|[t2' e2'] j]; [apply Hlater; simpl in Ej; rewrite <- Ej; set_solver |].
  injection Ej as <- <- Ej. exfalso.
  apply (f_equal (fmap snd)) in Ek. rewrite <- list_fmap_compose in Ek.
  assert (snd ∘ pair at_ <$> o = o) as Eo by (clear; induction o as [|x o IHo]; [done | by rewrite fmap_cons, IHo]).
  rewrite Eo, !fmap_app, !fmap_cons, fmap_app, fmap_cons in Ek. simpl in Ek.
  exact (H3 _ _ _ _ _ Ek A1 A2).
Qed.

(** ** The key exchange *)

(** A client on a connection that is up. *)
Definition online (c : client) (conn : Connection) : Prop :=
  exists s, cl_controller c = Some s /\ get_active_connection (sys_manager s) = Some conn /\
            is_connected conn = true.

Lemma online_sends (c : client) conn packet :
  online c conn -> client_send_packet packet c = [ClNet (NetStream (cn_task conn) packet)].
Proof.
  intros (s & E & Ea & Hup). unfold client_send_packet, cm_send_packet, conn_send_packet. rewrite E, Ea.
  cbn [fmap option_fmap option_map default]. by rewrite Hup.
Qed.

(** The packet by which a client publishes its key. *)
Lemma published_key {klaws : KeyWireLaws} {rlaws : RsaLaws} (b : client) t pk :
  ClNet (NetStream t pk) ∈ send_public_key b -> enable_e2ee (cl_options b) = true ->
  (packet ← parse_rsa (pw_data pk); parse_public_key packet) = Some (rw_pub_key (cl_rsa b)).
Proof.
  unfold send_public_key. intros Hin He. rewrite He in Hin. cbn [negb] in Hin.
  destruct (to_public_key_der _) as [der|] eqn:Ed; cbn [mbind option_bind] in Hin; [|by apply elem_of_nil in Hin].
  destruct (write_rsa _) as [data|] eqn:Ew; [|by apply elem_of_nil in Hin].
  assert (pw_data pk = data) as ->.
  { unfold client_send_packet in Hin. destruct (cl_controller b) as [s|]; [|by apply elem_of_nil in Hin].
    apply list_elem_of_fmap in Hin as (e & [= <-] & Hin). unfold cm_send_packet in Hin.
    destruct (get_active_connection _) as [conn|]; [|by apply elem_of_nil in Hin]. simpl in Hin.
    unfold conn_send_packet in Hin. destruct (is_connected conn); [|by apply elem_of_nil in Hin].
    by apply list_elem_of_singleton in Hin as [= -> ->]. }
  rewrite (parse_write_rsa _ _ Ew). cbn [mbind option_bind]. unfold parse_public_key. simpl.
  by apply der_round_trip.
Qed.

(** What a client answers to a public key. *)
Lemma key_answered (a : client) conn now seed r key secret data :
  enable_e2ee (cl_options a) = true -> rw_enabled (cl_rsa a) = true -> online a conn ->
  packet_type r = RSA_PUB_KEY -> (packet ← parse_rsa (pw_data r); parse_public_key packet) = Some key ->
  serialize_aes_packet a = Some secret -> rsa_encrypt seed key secret = Some data ->
  exists a' out reply, inbound now seed r a = Some (a', out) /\
    ClNet (NetStream (cn_task conn) reply) ∈ out /\ packet_type reply = AES_KEY /\ pw_data reply = data.
Proof.
  intros He Hr Hon Hty Hkey Hs Hd. rewrite inbound_eq. unfold dispatch. rewrite Hty.
  change (packet_type_value RSA_PUB_KEY) with (Some RSA_PUB_KEY).
  rewrite (bool_decide_false (Some RSA_PUB_KEY = Some AES_KEY)) by done. rewrite bool_decide_true by done.
  cbn [cl_options upd]. simpl. rewrite He. cbn [negb mbind option_bind].
  assert (handle_rsa_pub_key seed r (a <| peer_decode_manager := (ensured r a).1 |>) =
    [ClNet (NetStream (cn_task conn) (wrapper_default <| packet_type := AES_KEY |>
       <| pw_user_id := as_bytes (cu_user_id (cl_options a)) |> <| pw_data := data |>))]) as Eh.
  { unfold handle_rsa_pub_key. destruct (parse_rsa (pw_data r)) as [packet|]; [|done].
    cbn [mbind option_bind] in *. rewrite Hkey. cbn [mbind option_bind].
    change (serialize_aes_packet (a <| peer_decode_manager := (ensured r a).1 |>)) with (serialize_aes_packet a).
    rewrite Hs. cbn [mbind option_bind]. unfold encrypt_with_key. simpl. rewrite Hr. simpl. rewrite Hd.
    by apply (online_sends _ conn). }
  simpl in Eh. rewrite Eh.
  destruct (ensured r a).2; do 3 eexists; (split; [reflexivity | split; [left | done]]).
Qed.

(** What a client keeps of an answer. *)
Lemma key_kept (b : client) now seed r p secret key iv :
  enable_e2ee (cl_options b) = true -> packet_type r = AES_KEY ->
  get_peer (pw_session_id r) (peer_decode_manager b) = Some p ->
  wrapper_decrypt (pw_data r) (cl_rsa b) = Some secret -> parse_aes secret = Some (mkAesPacket key iv) ->
  length key = 16%nat -> length iv = 16%nat ->
  exists b' out p', inbound now seed r b = Some (b', out) /\
    get_peer (pw_session_id r) (peer_decode_manager b') = Some p' /\
    pr_aes p' = Some (mkAes128State true key iv).
Proof.
  intros He Hty Hp Hd Hparse Hk Hi. rewrite inbound_eq, (ensured_known r b p Hp). unfold dispatch. rewrite Hty.
  change (packet_type_value AES_KEY) with (Some AES_KEY). rewrite bool_decide_true by done.
  simpl. rewrite He. unfold handle_aes_key. simpl. rewrite Hd. cbn [mbind option_bind]. rewrite Hparse.
  unfold aes_from_vecs. simpl. rewrite bool_decide_true by done. rewrite He. cbn [mbind option_bind].
  do 3 eexists. split; [reflexivity |]. unfold set_peer_aes. rewrite Hp. simpl.
  unfold get_peer, update_peer, om_get, om_update in *. simpl. rewrite lookup_alter_eq, Hp. done.
Qed.

(** C22: the key exchange works. When Bob publishes his RSA key and the packet reaches
    Alice, she answers with an [AES_KEY] packet; when that reaches Bob under a session
    he has a peer for, Bob holds a key for that session that decrypts whatever Alice
    encrypts. *)
Theorem key_exchange {klaws : KeyWireLaws} {rlaws : RsaLaws} {claws : CipherLaws}
    (a b : client) (conn : Connection) (k : K) (t now seed now' seed' : Z)
    (pk to_alice to_bob : PacketWrapper) (secret data : bytes) (p : Peer A) :
  enable_e2ee (cl_options a) = true -> enable_e2ee (cl_options b) = true ->
  rw_enabled (cl_rsa a) = true -> cl_rsa b = rsa_wrapper_new k true ->
  aes_enabled (cl_aes a) = true -> aes_wf (cl_aes a) -> online a conn ->
  ClNet (NetStream t pk) ∈ send_public_key b ->
  packet_type to_alice = RSA_PUB_KEY -> pw_data to_alice = pw_data pk ->
  serialize_aes_packet a = Some secret -> rsa_encrypt seed (rsa_public k) secret = Some data ->
  packet_type to_bob = AES_KEY -> pw_data to_bob = data ->
  get_peer (pw_session_id to_bob) (peer_decode_manager b) = Some p ->
  (exists a' out reply, inbound now seed to_alice a = Some (a', out) /\
     ClNet (NetStream (cn_task conn) reply) ∈ out /\ packet_type reply = AES_KEY /\ pw_data reply = data) /\
  exists b' out p' aes, inbound now' seed' to_bob b = Some (b', out) /\
    get_peer (pw_session_id to_bob) (peer_decode_manager b') = Some p' /\ pr_aes p' = Some aes /\
    forall plain sent, aes_encrypt (cl_aes a) plain = Some sent -> aes_decrypt aes sent = Some plain.
Proof.
  intros Hea Heb Hra Hrb Hon Hwf Honl Hpk Hta Hda Hs Hd Htb Hdb Hp. split.
  - eapply key_answered; try done. rewrite Hda. rewrite (published_key b t pk Hpk Heb), Hrb. done.
  - destruct (key_kept b now' seed' to_bob p secret (aes_key (cl_aes a)) (aes_iv (cl_aes a))) as (b' & out & p' & H1 & H2 & H3).
    1-3: done.
    + rewrite Hdb, Hrb. unfold wrapper_decrypt. simpl. by eapply rsa_round_trip.
    + by apply parse_write_aes.
    + apply Hwf.
    + apply Hwf.
    + replace (mkAes128State true (aes_key (cl_aes a)) (aes_iv (cl_aes a))) with (cl_aes a) in H3
        by (destruct (cl_aes a); simpl in *; by subst).
      exists b', out, p', (cl_aes a). split; [done | split; [done | split; [done |]]]. intros plain sent.
      by apply aes_round_trip.
Qed.

(** ** Harmful packets *)

Definition not_added (e : client_effect) : Prop := match e with OnPeerAdded _ => False | _ => True end.

Lemma nets_not_added out : Forall is_net out -> Forall not_added out.
Proof. intros H. eapply Forall_impl; [exact H |]. by intros []. Qed.

Lemma optional_not_added (b : bool) e : not_added e -> Forall not_added (if b then [e] else []).
Proof. intros He. destruct b; [by apply Forall_singleton | done]. Qed.

Lemma peers_not_added out : Forall not_added (ClPeer <$> out).
Proof. by apply Forall_fmap, Forall_true. Qed.

Lemma meeting_not_added now packet (c : client) : Forall not_added (handle_meeting now packet c).2.
Proof.
  unfold handle_meeting. cbv zeta. repeat (case_bool_decide; [|]); try done.
  all: try (by apply optional_not_added).
  - destruct (should_emit _ _ _ _). by apply optional_not_added.
  - destruct (if mt_session_id packet =? 0 then _ else _). destruct (should_emit _ _ _ _).
    apply Forall_app. split; [apply peers_not_added | by apply optional_not_added].
Qed.

Lemma media_not_added now r (c : client) : Forall not_added (handle_media now r c).2.
Proof.
  unfold handle_media. destruct (pm_decode _ _ _ _) as [[peers out] res].
  assert (forall c' : client, Forall not_added (out ≫= deliver c')) as Hd.
  { intros c'. apply Forall_forall. intros e (pe & He & _)%list_elem_of_bind. revert e He. apply Forall_forall.
    destruct pe; try (by apply Forall_singleton). apply nets_not_added, send_is_net. }
  destruct res as [|[]]; try apply Hd.
  all: destruct (delete_peer _ peers); apply Forall_app; split; [apply Hd | apply peers_not_added].
Qed.

Lemma dispatch_not_added now seed r (c c' : client) out finished :
  dispatch now seed r c = Some (c', out, finished) -> Forall not_added out.
Proof.
  unfold dispatch. cbv zeta. case_bool_decide.
  { case_match; [by intros [= <- <- <-] |]. destruct (handle_aes_key r c); cbn [mbind option_bind]; [|done].
    by intros [= <- <- <-]. }
  case_bool_decide; [case_match; intros [= <- <- <-]; [done |]; apply nets_not_added, rsa_reply_is_net |].
  case_bool_decide.
  { destruct (try_handle_keyframe_request r c) as [c1 []]; [by intros [= <- <- <-] |].
    pose proof (media_not_added now r c1) as Hm. destruct (handle_media now r c1). by intros [= <- <- <-]. }
  case_bool_decide.
  { intros [= <- <- <-]. destruct (parse_diagnostics _); [by apply optional_not_added | done]. }
  case_bool_decide; [by intros [= <- <- <-] |]. case_bool_decide; [|by case_bool_decide; intros [= <- <- <-]].
  destruct (parse_meeting _) as [packet|]; [|by intros [= <- <- <-]].
  pose proof (meeting_not_added now packet c) as Hm. destruct (handle_meeting _ _ _). by intros [= <- <- <-].
Qed.

(** A keyframe request hides its sender. When the first packet of a session is a
    keyframe request the peer enters the table, but the application is not told, and
    no later packet makes up for it as long as the peer stays in the table. *)
Theorem keyframe_request_hides_peer (now seed : Z) (r : PacketWrapper) (c c1 : client)
    (request : MediaPacket) (out : list client_effect) :
  packet_type r = MEDIA -> parse_media (pw_data r) = Some request -> media_type request = KEYFRAME_REQUEST ->
  (ensured r c).2 = Added (pw_session_id r) -> inbound now seed r c = Some (c1, out) ->
  out = [] /\ is_Some (get_peer (pw_session_id r) (peer_decode_manager c1)) /\
  forall now' seed' r' c2 out', inbound now' seed' r' c1 = Some (c2, out') ->
    pw_session_id r' = pw_session_id r -> forall sid, OnPeerAdded sid ∉ out'.
Proof.
  intros Hty Hparse Hkf Hadd. rewrite inbound_eq. unfold dispatch. rewrite Hty.
  change (packet_type_value MEDIA) with (Some MEDIA).
  rewrite (bool_decide_false (Some MEDIA = Some AES_KEY)), (bool_decide_false (Some MEDIA = Some RSA_PUB_KEY)) by done.
  rewrite bool_decide_true by done. unfold try_handle_keyframe_request. rewrite Hparse, Hkf.
  change (media_type_value KEYFRAME_REQUEST) with (Some KEYFRAME_REQUEST).
  rewrite bool_decide_true by done. cbn [negb mbind option_bind]. rewrite Hadd.
  intros [= <- <-].
  match goal with |- context [get_peer _ (peer_decode_manager ?x)] => set (c1 := x) end.
  assert (peer_decode_manager c1 = (ensured r c).1) as E1 by (subst c1; by repeat case_bool_decide).
  assert (is_Some (get_peer (pw_session_id r) (peer_decode_manager c1))) as [p Hp].
  { rewrite E1. clear c1 E1. unfold ensured, ensure_peer in *. destruct (_ || _); [done |].
    destruct (om_contains_key _ _); [done |]. unfold add_peer in *.
    destruct (peer_new _ _ _ _ _ _); cbn [mbind option_bind] in *; [|done]. eexists. apply get_insert. }
  split; [done |]. split; [by exists p |]. intros now' seed' r' c2 out' Hin Hsid sid.
  rewrite inbound_eq in Hin. rewrite (ensured_known r' c1 p) in Hin by (by rewrite Hsid).
  destruct (dispatch _ _ _ _) as [[[c' o] fin]|] eqn:Ed; cbn [mbind option_bind] in Hin; [|done].
  injection Hin as <- <-. intros Hel.
  exact (proj1 (Forall_forall _ _) (dispatch_not_added _ _ _ _ _ _ _ Ed) _ Hel).
Qed.

(** A malformed key crashes its receiver. Anybody who knows a client's public key
    can make the client panic: an AES key or vector of a length other than sixteen,
    encrypted for the client, is copied into an array of sixteen bytes. *)
Theorem malformed_key_crashes {klaws : KeyWireLaws} {rlaws : RsaLaws}
    (c : client) (k : K) (key iv plain data : bytes) (now seed s : Z) (r : PacketWrapper) :
  enable_e2ee (cl_options c) = true -> cl_rsa c = rsa_wrapper_new k true ->
  write_aes (mkAesPacket key iv) = Some plain -> rsa_encrypt s (rsa_public k) plain = Some data ->
  packet_type r = AES_KEY -> pw_data r = data -> (length key <> 16 \/ length iv <> 16)%nat ->
  inbound now seed r c = None.
Proof.
  intros He Hr Hw Hd Hty Hdata Hlen. rewrite inbound_eq. unfold dispatch. rewrite Hty.
  change (packet_type_value AES_KEY) with (Some AES_KEY). rewrite bool_decide_true by done.
  simpl. rewrite He. unfold handle_aes_key, wrapper_decrypt. simpl. rewrite Hr. simpl. rewrite Hdata.
  rewrite (rsa_round_trip _ _ _ _ Hd). cbn [mbind option_bind]. rewrite (parse_write_aes _ _ Hw).
  unfold aes_from_vecs. simpl. rewrite bool_decide_false; [done |]. lia.
Qed.
End Props.

(** ** Concrete runs *)

#[export] Instance Metrics_eq_dec : EqDecision Metrics.
Proof. solve_decision. Defined.
#[export] Instance Metrics_countable : Countable Metrics.
Proof.
  apply (inj_countable' (fun m => (fps_received m, bitrate_kbps m)) (fun '(a, b) => mkMetrics a b)). by intros [].
Defined.

#[export] Instance DiagnosticsPacket_eq_dec : EqDecision DiagnosticsPacket.
Proof. solve_decision. Defined.
#[export] Instance DiagnosticsPacket_countable : Countable DiagnosticsPacket.
Proof.
  apply (inj_countable'
    (fun d => (dg_stream_id d, dg_sender_id d, dg_target_id d, dg_timestamp_ms d, dg_media_type d,
               dg_video_metrics d, dg_audio_metrics d))
    (fun '(a, b, c, d, e, f, g) => mkDiagnostics a b c d e f g)).
  by intros [].
Defined.

(** RSA with keys that are numbers: every byte shifted by the key. *)
Definition demo_rsa : Rsa Z Z := {|
  rsa_public := fun k => k;
  rsa_encrypt := fun seed p data => Some ((fun b => b + p) <$> data);
  rsa_decrypt := fun k data => Some ((fun b => b - k) <$> data);
  to_public_key_der := fun p => Some [p];
  from_public_key_der := head;
|}.

Lemma demo_rsa_laws : RsaLaws (rsa := demo_rsa).
Proof.
  split; [|by intros p der [= <-]]. intros seed key data e [= <-]. simpl. f_equal.
  rewrite <- list_fmap_compose. rewrite <- (list_fmap_id data) at 2. apply list_fmap_ext. intros _ b _. simpl. lia.
Qed.

Definition demo_keys : KeyWire := {|
  parse_aes := fun b => '(key, rest) ← read_prefixed b; Some (mkAesPacket key rest);
  write_aes := fun p => Some (prefixed (ap_key p) ++ ap_iv p);
  parse_rsa := fun b => '(der, rest) ← read_prefixed b; Some (mkRsaPacket der rest);
  write_rsa := fun p => Some (prefixed (rp_public_key_der p) ++ rp_user_id p);
  parse_diagnostics := fun b => match b with [Zpos code] => decode code | _ => None end;
  write_diagnostics := fun p => Some [Zpos (encode p)];
|}.

Lemma demo_keys_laws : KeyWireLaws (keys := demo_keys).
Proof.
  split.
  - intros [k i] b [= <-].
    change (('(key, rest) ← read_prefixed (prefixed k ++ i); Some (mkAesPacket key rest)) = Some (mkAesPacket k i)).
    by rewrite read_prefixed_app.
  - intros [d u] b [= <-].
    change (('(der, rest) ← read_prefixed (prefixed d ++ u); Some (mkRsaPacket der rest)) = Some (mkRsaPacket d u)).
    by rewrite read_prefixed_app.
  - intros p b [= <-]. unfold parse_diagnostics. cbn [demo_keys]. apply decode_encode.
Qed.

#[local] Existing Instance demo_wire.
#[local] Existing Instance demo_media.
#[local] Existing Instance demo_cipher.
#[local] Existing Instance demo_cipher_laws.
#[local] Existing Instance demo_browser.
#[local] Existing Instance demo_rsa.
#[local] Existing Instance demo_rsa_laws.
#[local] Existing Instance demo_keys.
#[local] Existing Instance demo_keys_laws.

Definition demo_client_options (e2ee : bool) (user_id : string) : ClientOptions :=
  mkClientOptions e2ee true false user_id ["wss://one"] [] 3000 None (fun s => s) (fun s => s)
    true true true true true true true true true.

(** A manager whose only connection is up. *)
Definition demo_link : CmSystem :=
  mkSystem
    (mkCM {[ "ws_0" := (connect 4 "wss://one") <| cn_status := Connected |> ]} (Some "ws_0") ∅
       (ElElected "ws_0" (F64.of_Z 0)) [] (mkOptions ["wss://one"] [] "x" 3000) (aes_new [] [] false)
       None ∅ PhIdle None 0 false None false 5) [].

Definition demo_client (e2ee : bool) (user_id : string) (secret : Z) (peers : list (Z * string))
    : VideoCallClient (A := demo_audio) (K := Z) (P := Z) :=
  let c := client_new (replicate 16 secret) (replicate 16 secret) (100 + secret) (demo_client_options e2ee user_id) in
  c <| cl_controller := Some demo_link |>
    <| peer_decode_manager :=
         foldl (fun m '(sid, uid) => (ensure_peer sid uid m).1) (peer_decode_manager c) peers |>.

Definition alice := demo_client true "alice" 7 [(2, "bob")].
Definition bob := demo_client true "bob" 8 [(1, "alice")].

Definition bob_key_packet : PacketWrapper :=
  mkPacketWrapper RSA_PUB_KEY (as_bytes "bob") (1 :: 108 :: as_bytes "bob") 2.
Definition alice_secret : bytes := 16 :: replicate 32 7.
Definition alice_answer : PacketWrapper :=
  mkPacketWrapper AES_KEY (as_bytes "alice") ((fun b => b + 108) <$> alice_secret) 1.
Definition alice_of_bob : Peer demo_audio :=
  default (default (mkPeer (false, []) video_new video_new 0 "" "" "" "" None 0 0 false false false false
                      (F64.of_Z 0) None false false None false None None None None 0 0)
             (peer_new "" "" 0 "" None None)) (get_peer 1 (peer_decode_manager bob)).

Lemma key_exchange_witness :
  (exists a' out reply, on_inbound_media 1000 5 bob_key_packet alice = Some (a', out) /\
     ClNet (NetStream 4 reply) ∈ out /\ packet_type reply = AES_KEY) /\
  exists b' out p' aes, on_inbound_media 1010 6 alice_answer bob = Some (b', out) /\
    get_peer 1 (peer_decode_manager b') = Some p' /\ pr_aes p' = Some aes /\
    forall plain sent, aes_encrypt (cl_aes alice) plain = Some sent -> aes_decrypt aes sent = Some plain.
Proof.
  destruct (key_exchange alice bob ((connect 4 "wss://one") <| cn_status := Connected |>) 108 4 1000 5 1010 6
    (mkPacketWrapper RSA_PUB_KEY (as_bytes "bob") (1 :: 108 :: as_bytes "bob") 0) bob_key_packet alice_answer
    alice_secret ((fun b => b + 108) <$> alice_secret) alice_of_bob)
    as [(a' & out & reply & H1 & H2 & H3 & _) H]; try (vm_compute; reflexivity).
  - split; vm_compute; reflexivity.
  - exists demo_link. split; [|split]; vm_compute; reflexivity.
  - vm_compute. left.
  - split; [|exact H]. exists a', out, reply. exact (conj H1 (conj H2 H3)).
Defined.

(** A joins twice within ten seconds, announced by both transports. *)
Definition joined_packet : PacketWrapper :=
  mkPacketWrapper MEETING (as_bytes SYSTEM_USER_ID)
    (demo_write_meeting (meeting_default <| event_type := PARTICIPANT_JOINED |>
       <| mt_target_user_id := as_bytes "carol" |>)) 0.

Definition joins : list (Z * Z * PacketWrapper) :=
  (fun t => (t, 0, joined_packet)) <$> [1000; 1020; 9000; 40000].

Lemma announced_once_witness :
  inbound_run joins alice = Some [(1000, OnPeerJoined "carol" "carol"); (40000, OnPeerJoined "carol" "carol")] /\
  30000 <= 40000 - 1000.
Proof.
  assert (inbound_run joins alice =
    Some [(1000, OnPeerJoined "carol" "carol"); (40000, OnPeerJoined "carol" "carol")]) as E
    by (vm_compute; reflexivity).
  assert (StronglySorted Z.le (joins.*1.*1)) as Hs by (vm_compute; repeat constructor; discriminate).
  exact (conj E (announced_once "joined" "carol" joins alice [] [] [] 1000 40000
    (OnPeerJoined "carol" "carol") (OnPeerJoined "carol" "carol") Hs E (conj eq_refl eq_refl) (conj eq_refl eq_refl))).
Defined.

(** The first packet of session 3 is a keyframe request. *)
Definition first_request : PacketWrapper :=
  mkPacketWrapper MEDIA (as_bytes "dave")
    (demo_write_media (media_default <| media_type := KEYFRAME_REQUEST |> <| mp_data := as_bytes "VIDEO" |>)) 3.

Definition after_request : VideoCallClient (A := demo_audio) (K := Z) (P := Z) :=
  (alice <| force_camera_keyframe := true |>)
    <| peer_decode_manager := (ensured first_request alice).1 |>.

Lemma request_hides_witness :
  on_inbound_media 1000 0 first_request alice = Some (after_request, []) /\
  is_Some (get_peer 3 (peer_decode_manager after_request)).
Proof.
  assert (on_inbound_media 1000 0 first_request alice = Some (after_request, [])) as E by (vm_compute; reflexivity).
  destruct (keyframe_request_hides_peer 1000 0 first_request alice after_request
    (media_default <| media_type := KEYFRAME_REQUEST |> <| mp_data := as_bytes "VIDEO" |>) []) as (_ & H & _);
    [vm_compute; reflexivity .. |].
  exact (conj E H).
Defined.

(** A key of one byte, encrypted for Bob. *)
Definition short_key : PacketWrapper := mkPacketWrapper AES_KEY (as_bytes "eve") [109; 115; 115] 9.

Lemma malformed_key_witness : on_inbound_media 1000 0 short_key bob = None.
Proof.
  apply (malformed_key_crashes bob 108 [7] [7] [1; 7; 7] [109; 115; 115] 1000 0 0 short_key);
    try (vm_compute; reflexivity).
  left. simpl. lia.
Defined.
