(* ===== verification/ConnectionMetrics.v ===== *)
(** * Connection metrics of the servers

    actix-api/src/server_diagnostics.rs, the task that counts the traffic of every
    connection of a media server and publishes it, and bin/metrics_server_snapshot.rs, the
    service that collects these reports and exports gauges to Prometheus.

    A gauge is the map of its series, from the values of its labels to the last value
    set; label names are those of actix-api/src/metrics.rs. The encoding of the packets
    is the class [ConnectionWire]. *)
From Stdlib Require Import Ascii.
From S2P Require Import Prelude Floats Protocol Media.

(** ** The packets *)

Definition UNKNOWN_EVENT : Z := 0.
Definition CONNECTION_STARTED : Z := 1.
Definition CONNECTION_ENDED : Z := 2.
Definition DATA_TRANSFERRED : Z := 3.

Record ConnectionMetadata : Type := mkMetadata {
  md_session_id : string;
  md_user_id : bytes;
  md_meeting_id : string;
  md_protocol : string;
  md_server_instance : string;
  md_region : string;
}.

Record DataTransferInfo : Type := mkTransfer { dt_bytes_sent : Z; dt_bytes_received : Z }.

Record ServerConnectionPacket : Type := mkConnectionPacket {
  sp_event_type : Z;
  sp_timestamp_ms : Z;
  sp_connection : option ConnectionMetadata;
  sp_data_transfer : option DataTransferInfo;
  sp_connection_duration_ms : Z;
  sp_is_reconnection : bool;
}.

Class ConnectionWire : Type := {
  write_connection : ServerConnectionPacket -> option bytes;
  parse_connection : bytes -> option ServerConnectionPacket;
}.

(** ** server_diagnostics.rs *)

Inductive TrackerMessage : Type :=
| ConnectionStarted (session_id : Z) (user_id meeting_id protocol : string)
| ConnectionEnded (session_id : Z)
| DataSent (session_id n : Z)
| DataReceived (session_id n : Z).

Record ConnectionInfo : Type := mkConnectionInfo {
  ci_session_id : Z;
  ci_user_id : string;
  ci_meeting_id : string;
  ci_protocol : string;
  ci_start_time : Z;
  ci_bytes_sent : Z;
  ci_bytes_received : Z;
  ci_last_data_report : Z;
}.

#[export] Instance eta_ConnectionInfo : Eta ConnectionInfo := fun r =>
  mkConnectionInfo (ci_session_id r) (ci_user_id r) (ci_meeting_id r) (ci_protocol r) (ci_start_time r)
    (ci_bytes_sent r) (ci_bytes_received r) (ci_last_data_report r).

Record ServerDiagnostics : Type := mkServerDiagnostics {
  sd_connections : gmap Z ConnectionInfo;
  sd_reconnections : gmap (string * string) Z;
  sd_server_instance : string;
  sd_region : string;
  sd_service_type : string;
}.

#[export] Instance eta_ServerDiagnostics : Eta ServerDiagnostics := fun r =>
  mkServerDiagnostics (sd_connections r) (sd_reconnections r) (sd_server_instance r) (sd_region r) (sd_service_type r).

(** The arguments are the environment variables, [None] when unset. *)
Definition diagnostics_new (hostname server_id region service_type : option string) : ServerDiagnostics :=
  mkServerDiagnostics ∅ ∅ (default "server-unknown" (match hostname with Some h => Some h | None => server_id end))
    (default "us-east" region) (default "websocket" service_type).

Section Diagnostics.
Context {wire : ConnectionWire}.

Definition create_metadata (session_id : Z) (user_id meeting_id protocol : string) (st : ServerDiagnostics)
    : ConnectionMetadata :=
  mkMetadata (show_u64 session_id) (as_bytes user_id) meeting_id protocol (sd_server_instance st) (sd_region st).

Definition publish_event (packet : ServerConnectionPacket) (st : ServerDiagnostics) : list (string * bytes) :=
  match write_connection packet with
  | Some payload =>
      [("server.connections." +:+ sd_region st +:+ "." +:+ sd_service_type st +:+ "." +:+ sd_server_instance st, payload)]
  | None => []
  end.

Definition connection_started (now now_ms session_id : Z) (user_id meeting_id protocol : string) (st : ServerDiagnostics)
    : ServerDiagnostics * list (string * bytes) :=
  let key := (user_id, meeting_id) in
  let is_reconnection := bool_decide (is_Some (sd_reconnections st !! key)) in
  let count := default 0 (sd_reconnections st !! key) +u64 1 in
  let info := mkConnectionInfo session_id user_id meeting_id protocol now 0 0 now in
  let st' := st <| sd_reconnections := <[key := count]> (sd_reconnections st) |>
                <| sd_connections := <[session_id := info]> (sd_connections st) |> in
  (st', publish_event (mkConnectionPacket CONNECTION_STARTED now_ms
          (Some (create_metadata session_id user_id meeting_id protocol st)) None 0 is_reconnection) st).

Definition connection_ended (now now_ms session_id : Z) (st : ServerDiagnostics)
    : ServerDiagnostics * list (string * bytes) :=
  match sd_connections st !! session_id with
  | Some info =>
      let duration_ms := wrap_u 64 (as_millis (duration_since now (ci_start_time info))) in
      (st <| sd_connections := delete session_id (sd_connections st) |>,
       publish_event (mkConnectionPacket CONNECTION_ENDED now_ms
         (Some (create_metadata (ci_session_id info) (ci_user_id info) (ci_meeting_id info) (ci_protocol info) st))
         (Some (mkTransfer (ci_bytes_sent info) (ci_bytes_received info))) duration_ms false) st)
  | None => (st, [])
  end.

Definition track_data_sent (session_id n : Z) (st : ServerDiagnostics) : ServerDiagnostics :=
  match sd_connections st !! session_id with
  | Some info =>
      st <| sd_connections := <[session_id := info <| ci_bytes_sent := ci_bytes_sent info +u64 n |>]> (sd_connections st) |>
  | None => st
  end.

Definition track_data_received (session_id n : Z) (st : ServerDiagnostics) : ServerDiagnostics :=
  match sd_connections st !! session_id with
  | Some info =>
      st <| sd_connections :=
              <[session_id := info <| ci_bytes_received := ci_bytes_received info +u64 n |>]> (sd_connections st) |>
  | None => st
  end.

Definition handle_message (now now_ms : Z) (msg : TrackerMessage) (st : ServerDiagnostics)
    : ServerDiagnostics * list (string * bytes) :=
  match msg with
  | ConnectionStarted s user meeting protocol => connection_started now now_ms s user meeting protocol st
  | ConnectionEnded s => connection_ended now now_ms s st
  | DataSent s n => (track_data_sent s n st, [])
  | DataReceived s n => (track_data_received s n st, [])
  end.

Definition report_one (now_ms : Z) (info : ConnectionInfo) (st : ServerDiagnostics) : list (string * bytes) :=
  if (0 <? ci_bytes_sent info) || (0 <? ci_bytes_received info) then
    publish_event (mkConnectionPacket DATA_TRANSFERRED now_ms
      (Some (create_metadata (ci_session_id info) (ci_user_id info) (ci_meeting_id info) (ci_protocol info) st))
      (Some (mkTransfer (ci_bytes_sent info) (ci_bytes_received info))) 0 false) st
  else [].

Context (iter : gmap Z ConnectionInfo -> list (Z * ConnectionInfo)).

Definition report_current_data_usage (now_ms : Z) (st : ServerDiagnostics) : list (string * bytes) :=
  flat_map (fun '(_, info) => report_one now_ms info st) (iter (sd_connections st)).

(** The message loop: a message, or a tick of the reporting interval. *)
Inductive tracker_event : Type :=
| Track (now now_ms : Z) (msg : TrackerMessage)
| Report (now_ms : Z).

Definition tracker_step (st : ServerDiagnostics) (ev : tracker_event) : ServerDiagnostics * list (string * bytes) :=
  match ev with
  | Track now now_ms msg => handle_message now now_ms msg st
  | Report now_ms => (st, report_current_data_usage now_ms st)
  end.
End Diagnostics.

(** ** metrics_server_snapshot.rs *)

Notation Gauge := (gmap (list string) float).

Record ConnectionData : Type := mkData { cd_value : float; cd_last_seen : Z }.

Record ServerSnapshot : Type := mkSnapshot {
  ss_last_seen : Z;
  ss_connections : gmap string ConnectionData;
  ss_unique_users : gmap string ConnectionData;
  ss_data_bytes : gmap string ConnectionData;
}.

#[export] Instance eta_ServerSnapshot : Eta ServerSnapshot := fun r =>
  mkSnapshot (ss_last_seen r) (ss_connections r) (ss_unique_users r) (ss_data_bytes r).

Record SnapshotServer : Type := mkSnapshotServer {
  sv_snapshots : gmap string ServerSnapshot;
  SERVER_CONNECTIONS_ACTIVE : Gauge;
  SERVER_UNIQUE_USERS_ACTIVE : Gauge;
  SERVER_PROTOCOL_CONNECTIONS : Gauge;
  SERVER_DATA_BYTES_TOTAL : Gauge;
  SERVER_CONNECTION_EVENTS_TOTAL : float;
}.

#[export] Instance eta_SnapshotServer : Eta SnapshotServer := fun r =>
  mkSnapshotServer (sv_snapshots r) (SERVER_CONNECTIONS_ACTIVE r) (SERVER_UNIQUE_USERS_ACTIVE r)
    (SERVER_PROTOCOL_CONNECTIONS r) (SERVER_DATA_BYTES_TOTAL r) (SERVER_CONNECTION_EVENTS_TOTAL r).

Definition snapshot_server_new : SnapshotServer := mkSnapshotServer ∅ ∅ ∅ ∅ ∅ (F64.of_Z 0).

(** [str::split] at a character. *)
Fixpoint split_at (c : ascii) (s : string) : list string :=
  match s with
  | EmptyString => [EmptyString]
  | String d s' =>
      if bool_decide (d = c) then EmptyString :: split_at c s'
      else match split_at c s' with
           | t :: ts => String d t :: ts
           | [] => [String d EmptyString]
           end
  end.

(** [gauge.with_label_values(labels).set(value)]. *)
Definition set_gauge (labels : list string) (value : float) (g : Gauge) : Gauge := <[labels := value]> g.

Section Snapshots.
Context {wire : ConnectionWire}.
(** The iteration orders of the two kinds of hash map. *)
Context (iter_servers : gmap string ServerSnapshot -> list (string * ServerSnapshot)).
Context (iter_entries : gmap string ConnectionData -> list (string * ConnectionData)).

Definition FRESHNESS : Z := from_secs 30.
Definition CONN_TIMEOUT : Z := from_secs 10.

(** The keys of entries that are too old. *)
Definition stale_keys (now : Z) (m : gmap string ConnectionData) : list string :=
  omap (fun '(key, d) => if CONN_TIMEOUT <? duration_since now (cd_last_seen d) then Some key else None) (iter_entries m).

(** The loops over the entries that are not stale. *)
Definition fresh_loop (f : string -> ConnectionData -> Gauge -> Gauge) (stale : list string)
    (m : gmap string ConnectionData) (g : Gauge) : Gauge :=
  foldl (fun g '(key, d) => if bool_decide (key ∈ stale) then g else f key d g) g (iter_entries m).

Definition set_connection (key : string) (d : ConnectionData) (g : Gauge) : Gauge :=
  match split_at "_" key with
  | p0 :: p1 :: p2 :: p3 :: p4 :: p5 :: _ => set_gauge [p0; p1; p2; p3; p4; p5] (cd_value d) g
  | _ => g
  end.

Definition set_user (key : string) (d : ConnectionData) (g : Gauge) : Gauge :=
  match split_at "@" key with
  | p0 :: p1 :: _ =>
      match split_at "_" p1 with
      | q0 :: q1 :: _ => set_gauge [p0; q0; q1] (cd_value d) g
      | _ => g
      end
  | _ => g
  end.

Definition set_protocol (key : string) (d : ConnectionData) (g : Gauge) : Gauge :=
  match split_at "_" key with
  | _ :: p1 :: p2 :: p3 :: _ :: p5 :: _ => set_gauge [p1; p2; p3; p5] (cd_value d) g
  | _ => g
  end.

Definition set_data (key : string) (d : ConnectionData) (g : Gauge) : Gauge :=
  match split_at "_" key with
  | p0 :: p1 :: p2 :: p3 :: p4 :: p5 :: p6 :: _ => set_gauge [p0; p1; p2; p3; p4; p5; p6] (cd_value d) g
  | _ => g
  end.

Definition aggregate_one (now : Z) (snapshot : ServerSnapshot) (sv : SnapshotServer) : SnapshotServer :=
  if FRESHNESS <? duration_since now (ss_last_seen snapshot) then sv
  else
    let connections_to_remove := stale_keys now (ss_connections snapshot) in
    let users_to_remove := stale_keys now (ss_unique_users snapshot) in
    let data_to_remove := stale_keys now (ss_data_bytes snapshot) in
    sv <| SERVER_CONNECTIONS_ACTIVE :=
            fresh_loop set_connection connections_to_remove (ss_connections snapshot) (SERVER_CONNECTIONS_ACTIVE sv) |>
       <| SERVER_UNIQUE_USERS_ACTIVE :=
            fresh_loop set_user users_to_remove (ss_unique_users snapshot) (SERVER_UNIQUE_USERS_ACTIVE sv) |>
       <| SERVER_PROTOCOL_CONNECTIONS :=
            fresh_loop set_protocol connections_to_remove (ss_connections snapshot) (SERVER_PROTOCOL_CONNECTIONS sv) |>
       <| SERVER_DATA_BYTES_TOTAL :=
            fresh_loop set_data data_to_remove (ss_data_bytes snapshot) (SERVER_DATA_BYTES_TOTAL sv) |>.

Definition aggregate_server_snapshots (now : Z) (sv : SnapshotServer) : SnapshotServer :=
  let sv0 := sv <| SERVER_CONNECTIONS_ACTIVE := ∅ |> <| SERVER_UNIQUE_USERS_ACTIVE := ∅ |>
                <| SERVER_PROTOCOL_CONNECTIONS := ∅ |> <| SERVER_DATA_BYTES_TOTAL := ∅ |> in
  foldl (fun sv '(_, snapshot) => aggregate_one now snapshot sv) sv0 (iter_servers (sv_snapshots sv0)).

(** [format!("{}_{}_{}_{}_{}_{}", ...)]. *)
Definition connection_key (conn : ConnectionMetadata) : string :=
  md_session_id conn +:+ "_" +:+ md_protocol conn +:+ "_" +:+ from_utf8_lossy (md_user_id conn) +:+ "_" +:+
  md_meeting_id conn +:+ "_" +:+ md_server_instance conn +:+ "_" +:+ md_region conn.

Definition user_key (conn : ConnectionMetadata) : string :=
  from_utf8_lossy (md_user_id conn) +:+ "@" +:+ md_meeting_id conn +:+ "_" +:+ md_region conn.

Definition update_connection_with_timestamp (now : Z) (packet : ServerConnectionPacket) (sv : SnapshotServer)
    : result SnapshotServer string :=
  match sp_connection packet with
  | None => Err "Missing connection metadata"
  | Some conn =>
      let server_id := md_server_instance conn in
      let snapshot := default (mkSnapshot now ∅ ∅ ∅) (sv_snapshots sv !! server_id) in
      let s1 := snapshot <| ss_last_seen := now |>
        <| ss_connections := <[connection_key conn := mkData (F64.of_Z 1) now]> (ss_connections snapshot) |>
        <| ss_unique_users := <[user_key conn := mkData (F64.of_Z 1) now]> (ss_unique_users snapshot) |> in
      let s2 :=
        match sp_data_transfer packet with
        | None => s1
        | Some dt =>
            let s := if 0 <? dt_bytes_sent dt
                     then s1 <| ss_data_bytes := <["sent_" +:+ connection_key conn := mkData (F64.of_Z (dt_bytes_sent dt)) now]>
                                                   (ss_data_bytes s1) |>
                     else s1 in
            if 0 <? dt_bytes_received dt
            then s <| ss_data_bytes := <["received_" +:+ connection_key conn := mkData (F64.of_Z (dt_bytes_received dt)) now]>
                                         (ss_data_bytes s) |>
            else s
        end in
      Ok (sv <| sv_snapshots := <[server_id := s2]> (sv_snapshots sv) |>)
  end.

(** The error is logged by the consumer, which goes on. *)
Definition handle_server_connection_message (now now_ms : Z) (payload : bytes) (sv : SnapshotServer)
    : result SnapshotServer string :=
  match parse_connection payload with
  | None => Err "Failed to parse"
  | Some packet =>
      if negb (Z.max 0 (now_ms - sp_timestamp_ms packet) <=? 30000) then Ok sv
      else
        let updated :=
          if (sp_event_type packet =? CONNECTION_STARTED) || (sp_event_type packet =? DATA_TRANSFERRED)
          then update_connection_with_timestamp now packet sv
          else Ok sv in
        match updated with
        | Ok sv => Ok (sv <| SERVER_CONNECTION_EVENTS_TOTAL := F64.add (SERVER_CONNECTION_EVENTS_TOTAL sv) (F64.of_Z 1) |>)
        | Err e => Err e
        end
  end.

Inductive metrics_event : Type :=
| Consume (now now_ms : Z) (payload : bytes)
| Scrape (now : Z).

Definition metrics_step (sv : SnapshotServer) (ev : metrics_event) : SnapshotServer * list unit :=
  match ev with
  | Consume now now_ms payload =>
      (match handle_server_connection_message now now_ms payload sv with Ok sv' => sv' | Err _ => sv end, [])
  | Scrape now => (aggregate_server_snapshots now sv, [])
  end.
End Snapshots.
