(* ===== verification/ConnectionMetricsProps.v ===== *)
(** * Properties of the connection metrics

    The traffic a server reports is what it counted; the exported gauge is the set of
    connections heard of lately, when no label has an underscore; and what goes wrong when
    a label does. *)
From Stdlib Require Import Ascii.
From S2P Require Import Prelude Floats Protocol TokenValidator Media ConnectionMetrics.

(** ** Counting *)

(** The bytes an event counts for a session, in each direction. *)
Definition sent_by (s : Z) (ev : tracker_event) : Z :=
  match ev with Track _ _ (DataSent s' n) => if s' =? s then n else 0 | _ => 0 end.

Definition received_by (s : Z) (ev : tracker_event) : Z :=
  match ev with Track _ _ (DataReceived s' n) => if s' =? s then n else 0 | _ => 0 end.

(** The session neither starts nor ends. *)
Definition goes_on (s : Z) (ev : tracker_event) : Prop :=
  match ev with
  | Track _ _ (ConnectionStarted s' _ _ _) | Track _ _ (ConnectionEnded s') => s' <> s
  | _ => True
  end.

Section Counting.
Context {wire : ConnectionWire}.
Context (iter : gmap Z ConnectionInfo -> list (Z * ConnectionInfo)).

Lemma wrap_add (x y : Z) : wrap_u 64 (wrap_u 64 x + y) = wrap_u 64 (x + y).
Proof. unfold wrap_u. by rewrite Zplus_mod_idemp_l. Qed.

Definition counted (info : ConnectionInfo) (sent received : Z) : ConnectionInfo :=
  info <| ci_bytes_sent := wrap_u 64 (ci_bytes_sent info + sent) |>
       <| ci_bytes_received := wrap_u 64 (ci_bytes_received info + received) |>.

Definition in_range (info : ConnectionInfo) : Prop :=
  wrap_u 64 (ci_bytes_sent info) = ci_bytes_sent info /\ wrap_u 64 (ci_bytes_received info) = ci_bytes_received info.

Lemma counted_zero info : in_range info -> counted info 0 0 = info.
Proof. intros [H1 H2]. destruct info. unfold counted. simpl in *. by rewrite !Z.add_0_r, H1, H2. Qed.

Lemma tracker_step_counts s ev st info :
  goes_on s ev -> in_range info -> sd_connections st !! s = Some info ->
  let st' := (tracker_step iter st ev).1 in
  sd_connections st' !! s = Some (counted info (sent_by s ev) (received_by s ev)) /\
  sd_server_instance st' = sd_server_instance st /\ sd_region st' = sd_region st /\
  sd_service_type st' = sd_service_type st.
Proof.
  intros Hg Hr E. pose proof (counted_zero info Hr) as Hz.
  destruct ev as [now now_ms [s' u m p|s'|s' n|s' n]|now_ms]; simpl in *; rewrite ?Hz; try done.
  - by rewrite lookup_insert_ne.
  - unfold connection_ended. destruct (sd_connections st !! s'); simpl; [by rewrite lookup_delete_ne|done].
  - unfold track_data_sent. destruct (Z.eqb_spec s' s) as [->|Hne].
    + rewrite E. simpl. rewrite lookup_insert_eq. split_and!; [|done..]. f_equal. destruct info, Hr. unfold counted.
      simpl in *. by rewrite Z.add_0_r; f_equal.
    + rewrite Hz. destruct (sd_connections st !! s'); simpl; [by rewrite lookup_insert_ne|done].
  - unfold track_data_received. destruct (Z.eqb_spec s' s) as [->|Hne].
    + rewrite E. simpl. rewrite lookup_insert_eq. split_and!; [|done..]. f_equal. destruct info, Hr. unfold counted.
      simpl in *. by rewrite Z.add_0_r; f_equal.
    + rewrite Hz. destruct (sd_connections st !! s'); simpl; [by rewrite lookup_insert_ne|done].
Qed.

Lemma tracker_run_counts s evs : forall st info,
  Forall (goes_on s) evs -> in_range info -> sd_connections st !! s = Some info ->
  let st' := (run (tracker_step iter) st evs).1 in
  sd_connections st' !! s = Some (counted info (sumZ (sent_by s <$> evs)) (sumZ (received_by s <$> evs))) /\
  sd_server_instance st' = sd_server_instance st /\ sd_region st' = sd_region st /\
  sd_service_type st' = sd_service_type st.
Proof.
  induction evs as [|ev evs IH]; intros st info Hg Hr E; simpl; [by rewrite counted_zero|].
  apply Forall_cons in Hg as [Hg Hgs]. destruct (tracker_step_counts s ev st info Hg Hr E) as (E1 & I1 & R1 & T1).
  destruct (tracker_step iter st ev) as [st1 o1]. simpl in *.
  assert (in_range (counted info (sent_by s ev) (received_by s ev))) as Hr1.
  { unfold in_range, counted. simpl. unfold wrap_u. by rewrite !Zmod_mod. }
  destruct (IH st1 _ Hgs Hr1 E1) as (E2 & I2 & R2 & T2).
  destruct (run (tracker_step iter) st1 evs) as [st2 o2]. simpl in *. split_and!; [|congruence..].
  rewrite E2. f_equal. unfold counted. simpl. by rewrite !wrap_add, !Z.add_assoc.
Qed.

(** The traffic that is reported is the traffic that was counted. Whatever happens to
    other connections and however often reports are made in between, the end of a
    connection publishes one packet with the connection's identity, its duration and
    exactly the bytes counted for it in each direction since its start (modulo [2^64]),
    and forgets the connection. *)
Theorem traffic_is_accounted (st : ServerDiagnostics) (s now now_ms now' now_ms' : Z) (user meeting protocol : string)
    (evs : list tracker_event) :
  Forall (goes_on s) evs ->
  let st1 := (tracker_step iter st (Track now now_ms (ConnectionStarted s user meeting protocol))).1 in
  let st2 := (run (tracker_step iter) st1 evs).1 in
  tracker_step iter st2 (Track now' now_ms' (ConnectionEnded s)) =
    (st2 <| sd_connections := delete s (sd_connections st2) |>,
     publish_event (mkConnectionPacket CONNECTION_ENDED now_ms'
       (Some (create_metadata s user meeting protocol st))
       (Some (mkTransfer (wrap_u 64 (sumZ (sent_by s <$> evs))) (wrap_u 64 (sumZ (received_by s <$> evs)))))
       (wrap_u 64 (as_millis (duration_since now' now))) false) st).
Proof.
  intros Hg st1 st2.
  destruct (tracker_run_counts s evs st1 (mkConnectionInfo s user meeting protocol now 0 0 now) Hg) as (E & I & R & T);
    [done|apply lookup_insert_eq|]. fold st2 in E, I, R, T.
  simpl. unfold connection_ended. rewrite E. simpl. f_equal. unfold publish_event, create_metadata. simpl.
  rewrite I, R, T. done.
Qed.
End Counting.

(** ** Labels joined and split *)

Definition plain_label (s : string) : Prop := all_chars (fun c => c <> "_"%char) s.

Lemma split_at_plain c s : all_chars (fun d => d <> c) s -> split_at c s = [s].
Proof.
  induction s as [|d s IH]; simpl; [done|]. intros [Hd Hs]. rewrite bool_decide_false by done. by rewrite IH.
Qed.

Lemma split_at_app c s t : all_chars (fun d => d <> c) s -> split_at c (s +:+ String c EmptyString +:+ t) = s :: split_at c t.
Proof.
  induction s as [|d s IH]; simpl; [by rewrite bool_decide_true|]. intros [Hd Hs].
  rewrite bool_decide_false by done. simpl in IH. by rewrite IH.
Qed.

Definition conn_labels (conn : ConnectionMetadata) : list string :=
  [md_session_id conn; md_protocol conn; from_utf8_lossy (md_user_id conn); md_meeting_id conn;
   md_server_instance conn; md_region conn].

Definition plain_conn (conn : ConnectionMetadata) : Prop := Forall plain_label (conn_labels conn).

(** Splitting a key of plain labels gives the labels back. *)
Lemma split_connection_key conn : plain_conn conn -> split_at "_" (connection_key conn) = conn_labels conn.
Proof.
  unfold plain_conn, conn_labels, connection_key. rewrite !Forall_cons. intros (H1 & H2 & H3 & H4 & H5 & H6 & _).
  rewrite !(split_at_app "_") by done. by rewrite split_at_plain.
Qed.

Lemma connection_key_labels c c' : conn_labels c' = conn_labels c -> connection_key c' = connection_key c.
Proof. unfold conn_labels, connection_key. by intros [= -> -> -> -> -> ->]. Qed.

Lemma connection_key_inj c c' : plain_conn c -> plain_conn c' -> connection_key c' = connection_key c ->
  conn_labels c' = conn_labels c.
Proof. intros H H' E. apply split_connection_key in H, H'. congruence. Qed.

(** ** The gauge of connections *)

Definition ONE : float := F64.of_Z 1.

(** A gauge with the value one for the given labels and no other series. *)
Definition gauge_is (g : Gauge) (S : list string -> Prop) : Prop := forall l v, g !! l = Some v <-> v = ONE /\ S l.

Lemma gauge_is_empty : gauge_is ∅ (fun _ => False).
Proof. intros l v. rewrite lookup_empty. naive_solver. Qed.

Lemma gauge_is_proper g S S' : (forall l, S l <-> S' l) -> gauge_is g S -> gauge_is g S'.
Proof. intros HS H l v. by rewrite (H l v), HS. Qed.

Lemma gauge_is_insert g S l0 : gauge_is g S -> gauge_is (<[l0 := ONE]> g) (fun l => S l \/ l = l0).
Proof.
  intros H l v. rewrite lookup_insert_Some, (H l v). destruct (decide (l = l0)) as [->|Hne]; [|naive_solver].
  split; [intros [[_ <-]|[[] _]]; auto|]. intros [-> _]. by left.
Qed.

Lemma gauge_is_fold {A} (f : Gauge -> A -> Gauge) (T : A -> list string -> Prop) xs :
  (forall g S x, x ∈ xs -> gauge_is g S -> gauge_is (f g x) (fun l => S l \/ T x l)) ->
  forall g S, gauge_is g S -> gauge_is (foldl f g xs) (fun l => S l \/ exists x, x ∈ xs /\ T x l).
Proof.
  induction xs as [|x xs IH]; intros Hf g S Hg; simpl.
  - eapply gauge_is_proper; [|exact Hg]. intros l. split; [by left|]. intros [|(x & Hx & _)]; [done|set_solver].
  - eapply gauge_is_proper; [|apply IH; [intros; apply Hf; [by right|done]|apply Hf; [by left|exact Hg]]].
    intros l. simpl. split.
    + intros [[H|H]|(y & Hy & H)]; [by left|right; exists x; set_solver|right; exists y; set_solver].
    + intros [H|(y & [->|Hy]%elem_of_cons & H)]; [by left; left|by left; right|right; by exists y].
Qed.

Section Gauges.
Context {wire : ConnectionWire}.
Context (iter_servers : gmap string ServerSnapshot -> list (string * ServerSnapshot)).
Context (iter_entries : gmap string ConnectionData -> list (string * ConnectionData)).

(** Iterating a hash map visits its entries, in some order. *)
Definition visits : Prop := (forall m, iter_servers m ≡ₚ map_to_list m) /\ (forall m, iter_entries m ≡ₚ map_to_list m).

Definition entry_stale (now : Z) (d : ConnectionData) : Prop := CONN_TIMEOUT < duration_since now (cd_last_seen d).

Lemma elem_entries m k d : visits -> (k, d) ∈ iter_entries m <-> m !! k = Some d.
Proof. intros [_ H]. by rewrite H, elem_of_map_to_list. Qed.

Lemma stale_keys_spec now m k d : visits -> m !! k = Some d -> k ∈ stale_keys iter_entries now m <-> entry_stale now d.
Proof.
  intros Hv E. unfold stale_keys, entry_stale. rewrite list_elem_of_omap. split.
  - intros ([k' d'] & Hin%elem_entries & Hs); [|done]. destruct (Z.ltb_spec CONN_TIMEOUT (duration_since now (cd_last_seen d'))); simplify_eq/=.
    done.
  - intros Hs. exists (k, d). split; [by apply elem_entries|]. by rewrite (proj2 (Z.ltb_lt _ _) Hs).
Qed.

(** Entries whose keys have six parts and whose value is one. *)
Definition six_parts (m : gmap string ConnectionData) : Prop :=
  forall k d, m !! k = Some d -> length (split_at "_" k) = 6%nat /\ cd_value d = ONE.

Lemma set_connection_six k d g : length (split_at "_" k) = 6%nat -> cd_value d = ONE ->
  set_connection k d g = <[split_at "_" k := ONE]> g.
Proof.
  intros Hl Hv. unfold set_connection, set_gauge. rewrite Hv.
  destruct (split_at "_" k) as [|p0 [|p1 [|p2 [|p3 [|p4 [|p5 [|]]]]]]]; done.
Qed.

Lemma fresh_loop_gauge now m g S : visits -> six_parts m -> gauge_is g S ->
  gauge_is (fresh_loop iter_entries set_connection (stale_keys iter_entries now m) m g)
    (fun l => S l \/ exists k d, m !! k = Some d /\ ~ entry_stale now d /\ split_at "_" k = l).
Proof.
  intros Hv H6 Hg. unfold fresh_loop.
  eapply gauge_is_proper; [|apply (gauge_is_fold _ (fun '(k, d) l => ~ entry_stale now d /\ split_at "_" k = l)); [|exact Hg]].
  - intros l. split; (intros [H|H]; [by left|right]).
    + destruct H as ([k d] & Hin%elem_entries & H); [|done]. by exists k, d.
    + destruct H as (k & d & E & H). exists (k, d). split; [by apply elem_entries|done].
  - intros g' S' [k d] Hin Hg'. apply elem_entries in Hin; [|done]. destruct (H6 k d Hin) as [Hl Hd].
    case_bool_decide as Hs; rewrite (stale_keys_spec now m k d Hv Hin) in Hs.
    + eapply gauge_is_proper; [|exact Hg']. naive_solver.
    + rewrite set_connection_six by done. eapply gauge_is_proper; [|by apply gauge_is_insert]. naive_solver.
Qed.

Definition server_fresh (now : Z) (ss : ServerSnapshot) : Prop := duration_since now (ss_last_seen ss) <= FRESHNESS.

Lemma aggregate_gauge now sv : visits ->
  (forall id ss, sv_snapshots sv !! id = Some ss -> six_parts (ss_connections ss)) ->
  gauge_is (SERVER_CONNECTIONS_ACTIVE (aggregate_server_snapshots iter_servers iter_entries now sv))
    (fun l => exists id ss k d, sv_snapshots sv !! id = Some ss /\ server_fresh now ss /\
       ss_connections ss !! k = Some d /\ ~ entry_stale now d /\ split_at "_" k = l).
Proof.
  intros Hv H6. unfold aggregate_server_snapshots. simpl.
  set (one := fun (g : Gauge) (p : string * ServerSnapshot) => if FRESHNESS <? duration_since now (ss_last_seen p.2) then g
    else fresh_loop iter_entries set_connection (stale_keys iter_entries now (ss_connections p.2)) (ss_connections p.2) g).
  assert (forall l sv0, SERVER_CONNECTIONS_ACTIVE (foldl (fun sv '(_, snapshot) => aggregate_one iter_entries now snapshot sv) sv0 l)
    = foldl one (SERVER_CONNECTIONS_ACTIVE sv0) l) as ->.
  { induction l as [|[id ss] l IH]; intros sv0; simpl; [done|]. rewrite IH. f_equal.
    unfold one, aggregate_one. simpl. by destruct (_ <? _). }
  simpl. eapply gauge_is_proper; [|apply (gauge_is_fold one (fun p l => server_fresh now p.2 /\ exists k d,
    ss_connections p.2 !! k = Some d /\ ~ entry_stale now d /\ split_at "_" k = l)); [|apply gauge_is_empty]].
  - intros l. destruct Hv as [Hs _]. split.
    + intros [[]|([id ss] & Hin & Hf & k & d & H)]. rewrite Hs, elem_of_map_to_list in Hin. by exists id, ss, k, d.
    + intros (id & ss & k & d & E & Hf & H). right. exists (id, ss). rewrite Hs, elem_of_map_to_list. eauto 10.
  - intros g S [id ss] Hin Hg. unfold one. simpl. pose proof Hv as [Hs _].
    rewrite Hs, elem_of_map_to_list in Hin. unfold server_fresh.
    destruct (Z.ltb_spec FRESHNESS (duration_since now (ss_last_seen ss))).
    + eapply gauge_is_proper; [|exact Hg]. intros l. split; [by left|]. intros [|[? _]]; [done|lia].
    + eapply gauge_is_proper; [|apply fresh_loop_gauge; [done|by eapply H6|exact Hg]]. naive_solver.
Qed.

Lemma aggregate_snapshots now sv :
  sv_snapshots (aggregate_server_snapshots iter_servers iter_entries now sv) = sv_snapshots sv.
Proof.
  unfold aggregate_server_snapshots. simpl.
  assert (forall l sv0, sv_snapshots (foldl (fun sv '(_, snapshot) => aggregate_one iter_entries now snapshot sv) sv0 l)
    = sv_snapshots sv0) as ->; [|done].
  induction l as [|[id ss] l IH]; intros sv0; simpl; [done|]. rewrite IH. unfold aggregate_one. by destruct (_ <? _).
Qed.

(** A report that is taken into account: when, and about which connection. *)
Definition accepted_report (ev : metrics_event) : option (Z * ConnectionMetadata) :=
  match ev with
  | Consume now now_ms payload =>
      match parse_connection payload with
      | Some packet =>
          if (Z.max 0 (now_ms - sp_timestamp_ms packet) <=? 30000) &&
             ((sp_event_type packet =? CONNECTION_STARTED) || (sp_event_type packet =? DATA_TRANSFERRED))
          then pair now <$> sp_connection packet else None
      | None => None
      end
  | Scrape _ => None
  end.

Definition report_times (evs : list metrics_event) : list Z := omap (fun ev => fst <$> accepted_report ev) evs.

(** When a connection was last heard of. *)
Definition hear (labels : list string) (last : option Z) (ev : metrics_event) : option Z :=
  match accepted_report ev with
  | Some (t, conn) => if decide (conn_labels conn = labels) then Some t else last
  | None => last
  end.

Definition last_heard (labels : list string) (evs : list metrics_event) : option Z := foldl (hear labels) None evs.

Record snapshots_ok (evs : list metrics_event) (sv : SnapshotServer) : Prop := {
  so_sound : forall id ss k d, sv_snapshots sv !! id = Some ss -> ss_connections ss !! k = Some d ->
    exists conn, plain_conn conn /\ k = connection_key conn /\ id = md_server_instance conn /\ cd_value d = ONE /\
      last_heard (conn_labels conn) evs = Some (cd_last_seen d) /\ cd_last_seen d <= ss_last_seen ss;
  so_complete : forall labels t, last_heard labels evs = Some t -> exists conn ss, conn_labels conn = labels /\ plain_conn conn /\
    sv_snapshots sv !! md_server_instance conn = Some ss /\ ss_connections ss !! connection_key conn = Some (mkData ONE t);
  so_times : forall id ss, sv_snapshots sv !! id = Some ss -> ss_last_seen ss ∈ report_times evs;
}.

(** What a consumed message changes, as far as connections are concerned. *)
Lemma consume_snapshots now now_ms payload sv :
  let sv' := (metrics_step iter_servers iter_entries sv (Consume now now_ms payload)).1 in
  match accepted_report (Consume now now_ms payload) with
  | None => sv_snapshots sv' = sv_snapshots sv
  | Some (t, conn) => t = now /\ exists ss, sv_snapshots sv' = <[md_server_instance conn := ss]> (sv_snapshots sv) /\
      ss_last_seen ss = now /\
      ss_connections ss = <[connection_key conn := mkData ONE now]>
        (default ∅ (ss_connections <$> sv_snapshots sv !! md_server_instance conn))
  end.
Proof.
  unfold metrics_step, handle_server_connection_message, accepted_report. simpl.
  destruct (parse_connection payload) as [packet|]; [|done].
  destruct (Z.max 0 (now_ms - sp_timestamp_ms packet) <=? 30000); simpl; [|done].
  destruct (_ || _); simpl; [|done]. unfold update_connection_with_timestamp.
  destruct (sp_connection packet) as [conn|]; [|done]. simpl. split; [done|].
  eexists. split; [reflexivity|].
  destruct (sp_data_transfer packet) as [[sent received]|]; simpl; [destruct (0 <? sent), (0 <? received)|];
    simpl; (split; [done|]); by destruct (sv_snapshots sv !! md_server_instance conn).
Qed.

Lemma last_heard_snoc labels evs ev : last_heard labels (evs ++ [ev]) = hear labels (last_heard labels evs) ev.
Proof. unfold last_heard. by rewrite foldl_app. Qed.

Lemma report_times_snoc evs ev : report_times (evs ++ [ev]) = report_times evs ++ option_list (fst <$> accepted_report ev).
Proof. unfold report_times. rewrite omap_app. simpl. by destruct (accepted_report ev). Qed.

Lemma labels_server c c' : conn_labels c' = conn_labels c -> md_server_instance c' = md_server_instance c.
Proof. by intros [=]. Qed.

Lemma snapshots_ok_quiet evs sv sv' ev :
  accepted_report ev = None -> sv_snapshots sv' = sv_snapshots sv -> snapshots_ok evs sv -> snapshots_ok (evs ++ [ev]) sv'.
Proof.
  intros Ea Es [H1 H2 H3]. assert (forall l, last_heard l (evs ++ [ev]) = last_heard l evs) as Hl.
  { intros l. rewrite last_heard_snoc. unfold hear. by rewrite Ea. }
  split; rewrite Es.
  - intros id ss k d E1 E2. destruct (H1 id ss k d E1 E2) as (conn & H). exists conn. by rewrite Hl.
  - intros labels t. rewrite Hl. apply H2.
  - intros id ss E. rewrite report_times_snoc, Ea, app_nil_r. by eapply H3.
Qed.

Lemma snapshots_ok_report evs sv sv' ev t conn ss :
  accepted_report ev = Some (t, conn) -> plain_conn conn -> Forall (fun t' => t' <= t) (report_times evs) ->
  sv_snapshots sv' = <[md_server_instance conn := ss]> (sv_snapshots sv) -> ss_last_seen ss = t ->
  ss_connections ss = <[connection_key conn := mkData ONE t]>
    (default ∅ (ss_connections <$> sv_snapshots sv !! md_server_instance conn)) ->
  snapshots_ok evs sv -> snapshots_ok (evs ++ [ev]) sv'.
Proof.
  intros Ea Hp Ht Es El Ec [H1 H2 H3].
  assert (forall l, last_heard l (evs ++ [ev]) = if decide (conn_labels conn = l) then Some t else last_heard l evs) as Hl.
  { intros l. rewrite last_heard_snoc. unfold hear. by rewrite Ea. }
  split; rewrite Es.
  - intros id ss0 k d [[<- <-]|[Hne E1]]%lookup_insert_Some E2.
    + rewrite Ec in E2. apply lookup_insert_Some in E2 as [[<- <-]|[Hk E2]].
      { exists conn. rewrite Hl, decide_True by done. rewrite El. by split_and!. }
      destruct (sv_snapshots sv !! md_server_instance conn) as [s0|] eqn:E0; [|done]. simpl in E2.
      destruct (H1 _ s0 k d E0 E2) as (c & Hc & -> & Hid & Hv & Hh & Hle). exists c.
      rewrite Hl, decide_False by (intros E; by apply Hk, connection_key_labels). split_and!; try done. rewrite El.
      eapply Z.le_trans; [exact Hle|]. exact (Forall_elem _ _ _ Ht (H3 _ _ E0)).
    + destruct (H1 id ss0 k d E1 E2) as (c & Hc & -> & Hid & H). exists c.
      rewrite Hl, decide_False; [done|]. intros E%labels_server. congruence.
  - intros labels t0. rewrite Hl. case_decide as El'; [intros [= <-]|intros Hh].
    + exists conn, ss. rewrite Ec, !lookup_insert_eq. done.
    + destruct (H2 labels t0 Hh) as (c & s0 & <- & Hc & E0 & Ek).
      destruct (decide (md_server_instance c = md_server_instance conn)) as [Eid|Hne].
      * exists c, ss. rewrite Eid, lookup_insert_eq, Ec. split_and!; [done..|]. rewrite lookup_insert_ne.
        { by rewrite <- Eid, E0. }
        intros E. apply El'. by apply connection_key_inj.
      * exists c, s0. by rewrite lookup_insert_ne.
  - intros id ss0. rewrite report_times_snoc, Ea. intros [[_ <-]|[_ E]]%lookup_insert_Some; [rewrite El; set_solver|].
    apply elem_of_app. left. by eapply H3.
Qed.

(** Reports about plain labels, in the order of the clock. *)
Definition reports_plain (evs : list metrics_event) : Prop :=
  Forall (fun ev => forall t conn, accepted_report ev = Some (t, conn) -> plain_conn conn) evs.

Lemma metrics_run_ok evs : reports_plain evs -> StronglySorted Z.le (report_times evs) ->
  snapshots_ok evs (run (metrics_step iter_servers iter_entries) snapshot_server_new evs).1.
Proof.
  induction evs as [|ev evs IH] using rev_ind; intros Hp Hs.
  { split; simpl; [done|done|]. intros id ss. by rewrite lookup_empty. }
  apply Forall_app in Hp as [Hp Hev]. apply Forall_cons in Hev as [Hev _]. rewrite report_times_snoc in Hs.
  apply StronglySorted_app in Hs as (Hlt & Hs & _). specialize (IH Hp Hs).
  rewrite run_app. destruct (run _ snapshot_server_new evs) as [sv out]. simpl in IH. cbn [run].
  pose proof (consume_snapshots) as Hc. destruct ev as [now now_ms payload|now].
  - specialize (Hc now now_ms payload sv). cbv zeta in Hc.
    destruct (metrics_step iter_servers iter_entries sv (Consume now now_ms payload)) as [sv' o] eqn:E. cbn [fst] in *.
    destruct (accepted_report (Consume now now_ms payload)) as [[t conn]|] eqn:Ea; [|by eapply snapshots_ok_quiet].
    destruct Hc as (-> & ss & E1 & E2 & E3). eapply snapshots_ok_report; try done.
    + by eapply Hev.
    + apply Forall_forall. intros t' Ht'. apply Hlt; [done|]. simpl. by left.
  - eapply snapshots_ok_quiet; [done| |exact IH]. simpl. apply aggregate_snapshots.
Qed.

(** C26: the exported gauge is the set of connections heard of lately. When the labels of
    the reports have no underscore and the clock does not go back, a scrape exports the
    value one for exactly the connections whose last report was taken within the last ten
    seconds, and no other series. *)
Theorem gauge_is_recent_connections (evs : list metrics_event) (now : Z) (labels : list string) :
  visits -> reports_plain evs -> StronglySorted Z.le (report_times evs) ->
  SERVER_CONNECTIONS_ACTIVE (run (metrics_step iter_servers iter_entries) snapshot_server_new (evs ++ [Scrape now])).1 !! labels =
    match last_heard labels evs with
    | Some t => if duration_since now t <=? CONN_TIMEOUT then Some ONE else None
    | None => None
    end.
Proof.
  intros Hv Hp Hs. pose proof (metrics_run_ok evs Hp Hs) as [H1 H2 H3]. rewrite run_app.
  destruct (run _ snapshot_server_new evs) as [sv out]. simpl in *.
  assert (forall id ss, sv_snapshots sv !! id = Some ss -> six_parts (ss_connections ss)) as H6.
  { intros id ss E k d Ek. destruct (H1 id ss k d E Ek) as (c & Hc & -> & _ & Hd & _). by rewrite split_connection_key. }
  pose proof (aggregate_gauge now sv Hv H6 labels) as Hg.
  destruct (SERVER_CONNECTIONS_ACTIVE _ !! labels) as [v|] eqn:E.
  - destruct (proj1 (Hg v) eq_refl) as (-> & id & ss & k & d & E1 & _ & E2 & Hf & <-).
    destruct (H1 id ss k d E1 E2) as (c & Hc & -> & _ & _ & Hh & _). rewrite split_connection_key, Hh by done.
    unfold entry_stale in Hf. by rewrite (proj2 (Z.leb_le _ _)) by lia.
  - destruct (last_heard labels evs) as [t|] eqn:Eh; [|done]. destruct (Z.leb_spec (duration_since now t) CONN_TIMEOUT); [|done].
    destruct (H2 labels t Eh) as (c & ss & <- & Hc & E1 & E2). destruct (H1 _ ss _ _ E1 E2) as (c' & _ & _ & _ & _ & _ & Hle).
    exfalso. cut (None = Some ONE); [done|]. apply Hg. split; [done|]. exists (md_server_instance c), ss, (connection_key c), (mkData ONE t).
    rewrite split_connection_key by done. split_and!; try done.
    + unfold server_fresh, duration_since, FRESHNESS, CONN_TIMEOUT, from_secs in *. simpl in *. lia.
    + unfold entry_stale. simpl. lia.
Qed.

(** *** Users *)

(** A user identified by an address without an underscore in its domain. *)
Definition email_like (u : string) : Prop := exists name domain, u = name +:+ "@" +:+ domain /\
  all_chars (fun c => c <> "@"%char) name /\ all_chars (fun c => c <> "@"%char /\ c <> "_"%char) domain.

Definition skipped (k : string) : Prop := forall d g, set_user k d g = g.

Lemma email_skipped conn : email_like (from_utf8_lossy (md_user_id conn)) -> skipped (user_key conn).
Proof.
  intros (name & domain & E & Hn & Hd) d g. unfold set_user, user_key. rewrite E, !str_app_assoc.
  rewrite (split_at_app "@") by done. rewrite (split_at_app "@") by (eapply all_chars_impl; [|exact Hd]; by intros c []).
  rewrite (split_at_plain "_") by (eapply all_chars_impl; [|exact Hd]; by intros c []). done.
Qed.

Lemma fresh_loop_skipped stale m g : visits -> (forall k d, m !! k = Some d -> skipped k) ->
  fresh_loop iter_entries set_user stale m g = g.
Proof.
  intros Hv Hm. unfold fresh_loop. assert (forall p, p ∈ iter_entries m -> skipped p.1) as Hs.
  { intros [k d] Hin%elem_entries; [|done]. by eapply Hm. }
  revert Hs. induction (iter_entries m) as [|[k d] l IH]; intros Hs; simpl; [done|].
  rewrite (Hs (k, d) ltac:(by left)). case_bool_decide; apply IH; intros p Hp; apply Hs; by right.
Qed.

Definition users_ok (sv : SnapshotServer) : Prop :=
  SERVER_UNIQUE_USERS_ACTIVE sv = ∅ /\
  forall id ss k d, sv_snapshots sv !! id = Some ss -> ss_unique_users ss !! k = Some d -> skipped k.

Lemma consume_users now now_ms payload sv :
  let sv' := (metrics_step iter_servers iter_entries sv (Consume now now_ms payload)).1 in
  SERVER_UNIQUE_USERS_ACTIVE sv' = SERVER_UNIQUE_USERS_ACTIVE sv /\
  forall id ss k d, sv_snapshots sv' !! id = Some ss -> ss_unique_users ss !! k = Some d ->
    (exists ss0, sv_snapshots sv !! id = Some ss0 /\ ss_unique_users ss0 !! k = Some d) \/
    exists t conn, accepted_report (Consume now now_ms payload) = Some (t, conn) /\ k = user_key conn.
Proof.
  unfold metrics_step, handle_server_connection_message, accepted_report. simpl.
  destruct (parse_connection payload) as [packet|]; [|by eauto].
  destruct (Z.max 0 (now_ms - sp_timestamp_ms packet) <=? 30000); simpl; [|by eauto].
  destruct (_ || _); simpl; [|by eauto]. unfold update_connection_with_timestamp.
  destruct (sp_connection packet) as [conn|]; [|by eauto]. simpl. split; [done|].
  intros id ss k d [[<- <-]|[_ E]]%lookup_insert_Some Ek; [|by eauto].
  assert ((<[user_key conn := mkData (F64.of_Z 1) now]>
    (ss_unique_users (default (mkSnapshot now ∅ ∅ ∅) (sv_snapshots sv !! md_server_instance conn)))) !! k = Some d) as Ek'.
  { destruct (sp_data_transfer packet) as [[sent received]|]; simpl in Ek; [destruct (0 <? sent), (0 <? received)|]; exact Ek. }
  apply lookup_insert_Some in Ek' as [[<- _]|[_ Ek']]; [by eauto|].
  destruct (sv_snapshots sv !! md_server_instance conn) as [s0|] eqn:E0; simpl in Ek'; [by eauto|done].
Qed.

Lemma aggregate_users now sv : visits -> users_ok sv -> users_ok (aggregate_server_snapshots iter_servers iter_entries now sv).
Proof.
  intros Hv [_ Hu]. split; [|by rewrite aggregate_snapshots]. unfold aggregate_server_snapshots. simpl.
  assert (forall p, p ∈ iter_servers (sv_snapshots sv) -> sv_snapshots sv !! p.1 = Some p.2) as Hs.
  { destruct Hv as [Hs _]. intros [id ss]. by rewrite Hs, elem_of_map_to_list. }
  revert Hs. cut (forall sv0, SERVER_UNIQUE_USERS_ACTIVE sv0 = ∅ ->
    (forall p, p ∈ iter_servers (sv_snapshots sv) -> sv_snapshots sv !! p.1 = Some p.2) ->
    SERVER_UNIQUE_USERS_ACTIVE (foldl (fun sv '(_, snapshot) => aggregate_one iter_entries now snapshot sv) sv0
      (iter_servers (sv_snapshots sv))) = ∅); [intros Hf; by apply Hf|].
  induction (iter_servers (sv_snapshots sv)) as [|[id ss] l IH]; intros sv0 H0 Hs; simpl; [done|].
  apply IH; [|intros p Hp; apply Hs; by right]. unfold aggregate_one. destruct (_ <? _); [done|]. simpl.
  rewrite fresh_loop_skipped, H0; [done|done|]. intros k d. eapply Hu. exact (Hs (id, ss) ltac:(by left)).
Qed.

Definition about_address (ev : metrics_event) : Prop :=
  forall t conn, accepted_report ev = Some (t, conn) -> email_like (from_utf8_lossy (md_user_id conn)).

(** Users with an address are never counted. As long as every report is about a user
    whose identity is an address (one at-sign, no underscore in the domain), whatever else
    it says and however often metrics are scraped, the gauge of unique users stays empty:
    the key of a user is split at the at-sign of the address itself. *)
Theorem email_users_not_counted (evs : list metrics_event) :
  visits -> Forall about_address evs ->
  SERVER_UNIQUE_USERS_ACTIVE (run (metrics_step iter_servers iter_entries) snapshot_server_new evs).1 = ∅.
Proof.
  intros Hv He. destruct (run_invariant_on (metrics_step iter_servers iter_entries) about_address users_ok (fun _ => True))
    with (es := evs) (s := snapshot_server_new) as [[Hu _] _]; [|done|by split|done].
  intros sv [now now_ms payload|now] Hev Hu; [|split; [by apply aggregate_users|constructor]].
  destruct (consume_users now now_ms payload sv) as [E Hc]. simpl in *. split; [|constructor].
  destruct Hu as [Hu Hk]. split; [congruence|]. intros id ss k d E1 E2.
  destruct (Hc id ss k d E1 E2) as [(s0 & E3 & E4)|(t & conn & Ha & ->)]; [by eapply Hk|].
  eapply email_skipped, Hev, Ha.
Qed.
End Gauges.

(** A meeting name with an underscore shifts the labels: the first part is taken for the
    meeting, the second for the server and the server for the region. *)
Lemma underscore_shifts_labels (conn : ConnectionMetadata) (a b : string) (v : float) (now : Z) (g : Gauge) :
  Forall plain_label [md_session_id conn; md_protocol conn; from_utf8_lossy (md_user_id conn); a; b; md_server_instance conn] ->
  md_meeting_id conn = a +:+ "_" +:+ b ->
  set_connection (connection_key conn) (mkData v now) g =
    <[[md_session_id conn; md_protocol conn; from_utf8_lossy (md_user_id conn); a; b; md_server_instance conn] := v]> g.
Proof.
  rewrite !Forall_cons. intros (H1 & H2 & H3 & H4 & H5 & H6 & _) E. unfold set_connection, connection_key. rewrite E, !str_app_assoc.
  rewrite !(split_at_app "_") by done. by destruct (split_at "_" (md_region conn)).
Qed.

(** ** Concrete runs *)

(** Two packets and an encoding that knows them. *)
Definition demo_conn : ConnectionMetadata :=
  mkMetadata "7" (as_bytes "alice@example.com") "standup" "websocket" "ws-1" "us-east".

Definition demo_started : ServerConnectionPacket :=
  mkConnectionPacket CONNECTION_STARTED 1000 (Some demo_conn) None 0 false.

Definition demo_transfer : ServerConnectionPacket :=
  mkConnectionPacket DATA_TRANSFERRED 6000 (Some demo_conn) (Some (mkTransfer 10 20)) 0 false.

Definition demo_connection_wire : ConnectionWire := {|
  write_connection := fun p => Some [sp_event_type p; sp_timestamp_ms p];
  parse_connection := fun b => if bool_decide (b = [CONNECTION_STARTED; 1000]) then Some demo_started
                               else if bool_decide (b = [DATA_TRANSFERRED; 6000]) then Some demo_transfer else None;
|}.

#[local] Existing Instance demo_connection_wire.

Definition demo_reports : list metrics_event :=
  [Consume (from_secs 1) 1000 [CONNECTION_STARTED; 1000]; Scrape (from_secs 2);
   Consume (from_secs 6) 6000 [DATA_TRANSFERRED; 6000]].

Lemma demo_accepted ev t conn : ev ∈ demo_reports -> accepted_report ev = Some (t, conn) -> conn = demo_conn.
Proof.
  unfold demo_reports. rewrite !elem_of_cons. intros [->|[->|[->|[]%not_elem_of_nil]]] H; vm_compute in H; by simplify_eq.
Qed.

(** The connection is exported ten seconds after its last report, and not later. *)
Lemma gauge_is_recent_witness :
  SERVER_CONNECTIONS_ACTIVE (run (metrics_step map_to_list map_to_list) snapshot_server_new
    (demo_reports ++ [Scrape (from_secs 16)])).1 !! conn_labels demo_conn = Some ONE /\
  SERVER_CONNECTIONS_ACTIVE (run (metrics_step map_to_list map_to_list) snapshot_server_new
    (demo_reports ++ [Scrape (from_secs 17)])).1 !! conn_labels demo_conn = None.
Proof.
  assert (reports_plain demo_reports) as Hp.
  { apply Forall_forall. intros ev Hev t conn Ha. rewrite (demo_accepted ev t conn Hev Ha).
    repeat constructor; vm_compute; repeat split; discriminate. }
  assert (StronglySorted Z.le (report_times demo_reports)) as Hs by (vm_compute; repeat constructor; discriminate).
  split.
  - rewrite (gauge_is_recent_connections map_to_list map_to_list demo_reports (from_secs 16) (conn_labels demo_conn)
      ltac:(split; reflexivity) Hp Hs). vm_compute. reflexivity.
  - rewrite (gauge_is_recent_connections map_to_list map_to_list demo_reports (from_secs 17) (conn_labels demo_conn)
      ltac:(split; reflexivity) Hp Hs). vm_compute. reflexivity.
Defined.

Lemma email_users_witness :
  SERVER_UNIQUE_USERS_ACTIVE (run (metrics_step map_to_list map_to_list) snapshot_server_new
    (demo_reports ++ [Scrape (from_secs 7)])).1 = ∅.
Proof.
  apply (email_users_not_counted map_to_list map_to_list); [split; reflexivity|].
  apply Forall_forall. intros ev Hev t conn Ha.
  assert (conn = demo_conn) as ->.
  { apply elem_of_app in Hev as [Hev|Hev]; [by eapply demo_accepted|]. by apply list_elem_of_singleton in Hev as ->. }
  exists "alice"%string, "example.com"%string. split; [vm_compute; reflexivity|].
  vm_compute. repeat split; discriminate.
Defined.

(** Alice's connection sends 10 and receives 20 bytes while Bob's sends 5. *)
Lemma traffic_witness :
  let st := diagnostics_new None None None None in
  let st1 := (tracker_step map_to_list st (Track 0 1000 (ConnectionStarted 7 "alice" "standup" "websocket"))).1 in
  let st2 := (run (tracker_step map_to_list) st1
    [Track 1 1000 (DataSent 7 10); Track 1 1000 (ConnectionStarted 8 "bob" "standup" "websocket");
     Track 1 1000 (DataSent 8 5); Report 1000; Track 1 1000 (DataReceived 7 20)]).1 in
  (tracker_step map_to_list st2 (Track (from_secs 3) 4000 (ConnectionEnded 7))).2 =
    publish_event (mkConnectionPacket CONNECTION_ENDED 4000 (Some (create_metadata 7 "alice" "standup" "websocket" st))
      (Some (mkTransfer 10 20)) 3000 false) st.
Proof.
  intros st st1 st2. unfold st2, st1.
  rewrite (traffic_is_accounted map_to_list st 7 0 1000 (from_secs 3) 4000 "alice" "standup" "websocket"
    [Track 1 1000 (DataSent 7 10); Track 1 1000 (ConnectionStarted 8 "bob" "standup" "websocket");
     Track 1 1000 (DataSent 8 5); Report 1000; Track 1 1000 (DataReceived 7 20)]); [vm_compute; reflexivity|].
  repeat constructor; discriminate.
Defined.
