(* ===== verification/HealthMetrics.v ===== *)
(** * Health metrics of the clients

    actix-api/src/client_diagnostics.rs, which publishes the health packets of clients to
    NATS, and bin/metrics_server.rs, which turns them into Prometheus gauges and removes
    the series of sessions that have fallen silent.

    The gauges of actix-api/src/metrics.rs are one map of series, from the name of the
    metric and the values of its labels to the last value set. *)
From S2P Require Import Prelude Floats Protocol Media.

(** ** The gauges (metrics.rs) *)

Definition PEER_CAN_LISTEN : string := "videocall_peer_can_listen".
Definition PEER_CAN_SEE : string := "videocall_peer_can_see".
Definition NETEQ_AUDIO_BUFFER_MS : string := "videocall_neteq_audio_buffer_ms".
Definition NETEQ_PACKETS_AWAITING_DECODE : string := "videocall_neteq_packets_awaiting_decode".
Definition NETEQ_PACKETS_PER_SEC : string := "videocall_neteq_packets_per_sec".
Definition NETEQ_NORMAL_OPS_PER_SEC : string := "videocall_neteq_normal_ops_per_sec".
Definition NETEQ_EXPAND_OPS_PER_SEC : string := "videocall_neteq_expand_ops_per_sec".
Definition NETEQ_ACCELERATE_OPS_PER_SEC : string := "videocall_neteq_accelerate_ops_per_sec".
Definition NETEQ_FAST_ACCELERATE_OPS_PER_SEC : string := "videocall_neteq_fast_accelerate_ops_per_sec".
Definition NETEQ_PREEMPTIVE_EXPAND_OPS_PER_SEC : string := "videocall_neteq_preemptive_expand_ops_per_sec".
Definition NETEQ_MERGE_OPS_PER_SEC : string := "videocall_neteq_merge_ops_per_sec".
Definition NETEQ_COMFORT_NOISE_OPS_PER_SEC : string := "videocall_neteq_comfort_noise_ops_per_sec".
Definition NETEQ_DTMF_OPS_PER_SEC : string := "videocall_neteq_dtmf_ops_per_sec".
Definition NETEQ_UNDEFINED_OPS_PER_SEC : string := "videocall_neteq_undefined_ops_per_sec".
Definition ACTIVE_SESSIONS_TOTAL : string := "videocall_active_sessions_total".
Definition MEETING_PARTICIPANTS : string := "videocall_meeting_participants".
Definition PEER_CONNECTIONS_TOTAL : string := "videocall_peer_connections_total".
Definition VIDEO_PACKETS_BUFFERED : string := "videocall_video_packets_buffered".
Definition VIDEO_FPS : string := "videocall_video_fps".
Definition PEER_AUDIO_ENABLED : string := "videocall_peer_audio_enabled".
Definition PEER_VIDEO_ENABLED : string := "videocall_peer_video_enabled".
Definition SELF_AUDIO_ENABLED : string := "videocall_self_audio_enabled".
Definition SELF_VIDEO_ENABLED : string := "videocall_self_video_enabled".
Definition CLIENT_ACTIVE_SERVER_RTT_MS : string := "videocall_client_active_server_rtt_ms".
Definition CLIENT_ACTIVE_SERVER : string := "videocall_client_active_server".

(** ** Health packets *)

Record NetEqOperationCounters : Type := mkCounters {
  normal_per_sec : float;
  expand_per_sec : float;
  accelerate_per_sec : float;
  fast_accelerate_per_sec : float;
  preemptive_expand_per_sec : float;
  merge_per_sec : float;
  comfort_noise_per_sec : float;
  dtmf_per_sec : float;
  undefined_per_sec : float;
}.

Record NetEqNetwork : Type := mkNetEqNetwork { operation_counters : option NetEqOperationCounters }.

Record NetEqStats : Type := mkNetEqStats {
  hn_current_buffer_size_ms : float;
  hn_packets_awaiting_decode : float;
  hn_network : option NetEqNetwork;
  hn_packets_per_sec : float;
}.

Record VideoStats : Type := mkVideoStats {
  hv_fps_received : float;
  hv_frames_buffered : float;
  hv_frames_decoded : Z;
  hv_bitrate_kbps : Z;
}.

Record PeerStats : Type := mkPeerStats {
  can_listen : bool;
  can_see : bool;
  hp_audio_enabled : bool;
  hp_video_enabled : bool;
  neteq_stats : option NetEqStats;
  video_stats : option VideoStats;
}.

Record HealthPacket : Type := mkHealthPacket {
  hp_session_id : string;
  hp_meeting_id : string;
  hp_reporting_user_id : bytes;
  hp_timestamp_ms : Z;
  hp_reporting_audio_enabled : bool;
  hp_reporting_video_enabled : bool;
  hp_peer_stats : gmap string PeerStats;
  hp_active_server_url : string;
  hp_active_server_type : string;
  hp_active_server_rtt_ms : float;
}.

Class HealthWire : Type := {
  write_health : HealthPacket -> option bytes;
  parse_health : bytes -> option HealthPacket;
}.

(** ** client_diagnostics.rs *)

Section Publish.
Context {wire : Wire} {health : HealthWire}.

(** The environment variables [REGION], [SERVICE_TYPE] and [SERVER_ID], [None] when unset. *)
Context (region service_type server_id : option string).

Definition publish_health_to_nats (health_data : HealthPacket) : list (string * bytes) :=
  match write_health health_data with
  | Some payload =>
      [("health.diagnostics." +:+ default "us-east" region +:+ "." +:+ default "websocket" service_type +:+ "." +:+
        default "server-1" server_id, payload)]
  | None => []
  end.

Definition process_health_packet_bytes (data : bytes) : list (string * bytes) :=
  match parse_wrapper data with
  | Some w =>
      if packet_type w =? HEALTH then
        match parse_health (pw_data w) with
        | Some health_data => publish_health_to_nats health_data
        | None => []
        end
      else []
  | None => []
  end.
End Publish.

(** ** metrics_server.rs *)

Record SessionInfo : Type := mkSessionInfo {
  si_session_id : string;
  si_meeting_id : string;
  si_reporting_user_id : string;
  si_last_seen : Z;
  to_peers : gset string;
  peer_ids : gset string;
  active_servers : gset (string * string);
}.

#[export] Instance eta_SessionInfo : Eta SessionInfo := fun r =>
  mkSessionInfo (si_session_id r) (si_meeting_id r) (si_reporting_user_id r) (si_last_seen r) (to_peers r) (peer_ids r)
    (active_servers r).

(** The JSON kept per topic. *)
Record HealthEntry : Type := mkHealthEntry {
  he_session_id : string;
  he_meeting_id : string;
  he_reporting_user_id : string;
  he_timestamp_ms : Z;
}.

Record MetricsServer : Type := mkMetricsServer {
  session_tracker : gmap string SessionInfo;
  series : gmap (string * list string) float;
  health_store : gmap string HealthEntry;
}.

#[export] Instance eta_MetricsServer : Eta MetricsServer := fun r =>
  mkMetricsServer (session_tracker r) (series r) (health_store r).

Definition metrics_server_new : MetricsServer := mkMetricsServer ∅ ∅ ∅.

(** [METRIC.with_label_values(labels).set(v)] and [METRIC.remove_label_values(labels)]. *)
Definition set_series (metric : string) (labels : list string) (v : float) (w : MetricsServer) : MetricsServer :=
  w <| series := <[(metric, labels) := v]> (series w) |>.

Definition remove_series (metric : string) (labels : list string) (w : MetricsServer) : MetricsServer :=
  w <| series := delete (metric, labels) (series w) |>.

(** [if let Some(info) = tracker.get_mut(&key) { ... }]. *)
Definition track (key : string) (f : SessionInfo -> SessionInfo) (w : MetricsServer) : MetricsServer :=
  w <| session_tracker := alter f key (session_tracker w) |>.

Definition flag (b : bool) : float := if b then F64.of_Z 1 else F64.of_Z 0.

(** [x != 0.0]. *)
Definition nonzero (x : float) : bool := negb (SpecFloat.SFeqb x (F64.of_Z 0)).

(** The metrics removed for each peer a session has reported about. *)
Definition TO_PEER_METRICS : list string :=
  [PEER_CAN_LISTEN; PEER_CAN_SEE; VIDEO_FPS; VIDEO_PACKETS_BUFFERED; NETEQ_AUDIO_BUFFER_MS;
   NETEQ_PACKETS_AWAITING_DECODE; NETEQ_PACKETS_PER_SEC; NETEQ_NORMAL_OPS_PER_SEC; NETEQ_EXPAND_OPS_PER_SEC;
   NETEQ_ACCELERATE_OPS_PER_SEC; NETEQ_FAST_ACCELERATE_OPS_PER_SEC; NETEQ_PREEMPTIVE_EXPAND_OPS_PER_SEC;
   NETEQ_MERGE_OPS_PER_SEC; NETEQ_COMFORT_NOISE_OPS_PER_SEC; NETEQ_DTMF_OPS_PER_SEC; NETEQ_UNDEFINED_OPS_PER_SEC].

(** The order in which the sets are visited does not matter to removals. *)
Definition remove_session_metrics (info : SessionInfo) (w : MetricsServer) : MetricsServer :=
  let meeting := si_meeting_id info in
  let session := si_session_id info in
  let user := si_reporting_user_id info in
  let w := remove_series ACTIVE_SESSIONS_TOTAL [meeting; session] w in
  let w := remove_series SELF_AUDIO_ENABLED [meeting; user] w in
  let w := remove_series SELF_VIDEO_ENABLED [meeting; user] w in
  let w := foldl (fun w '(url, ty) =>
             remove_series CLIENT_ACTIVE_SERVER_RTT_MS [meeting; session; user; url; ty]
               (remove_series CLIENT_ACTIVE_SERVER [meeting; session; user; url; ty] w)) w (elements (active_servers info)) in
  let w := foldl (fun w peer_id => remove_series PEER_CONNECTIONS_TOTAL [meeting; peer_id] w) w (elements (peer_ids info)) in
  foldl (fun w to_peer =>
    foldl (fun w metric => remove_series metric [meeting; session; user; to_peer] w) w TO_PEER_METRICS)
    w (elements (to_peers info)).

Definition or_unknown (s : string) : string := if bool_decide (s = EmptyString) then "unknown" else s.

Definition reporting_user (p : HealthPacket) : string :=
  if bool_decide (hp_reporting_user_id p = []) then "unknown" else from_utf8_lossy (hp_reporting_user_id p).

Definition session_key (meeting session user : string) : string := meeting +:+ "_" +:+ session +:+ "_" +:+ user.

Section MetricsServer.
Context {health : HealthWire}.
Context (iter_tracker : gmap string SessionInfo -> list (string * SessionInfo)).
Context (iter_peers : gmap string PeerStats -> list (string * PeerStats)).

Definition STALE_AFTER : Z := from_secs 30.

Definition cleanup_stale_sessions (now : Z) (w : MetricsServer) : MetricsServer :=
  let to_remove := omap (fun '(key, info) =>
    if STALE_AFTER <? duration_since now (si_last_seen info) then Some key else None) (iter_tracker (session_tracker w)) in
  foldl (fun w key =>
    match session_tracker w !! key with
    | Some info => remove_session_metrics info (w <| session_tracker := delete key (session_tracker w) |>)
    | None => w
    end) w to_remove.

(** The operation counters of one peer. *)
Definition set_operations (labels : list string) (c : NetEqOperationCounters) (w : MetricsServer) : MetricsServer :=
  let w := set_series NETEQ_NORMAL_OPS_PER_SEC labels (normal_per_sec c) w in
  let w := set_series NETEQ_EXPAND_OPS_PER_SEC labels (expand_per_sec c) w in
  let w := set_series NETEQ_ACCELERATE_OPS_PER_SEC labels (accelerate_per_sec c) w in
  let w := set_series NETEQ_FAST_ACCELERATE_OPS_PER_SEC labels (fast_accelerate_per_sec c) w in
  let w := set_series NETEQ_PREEMPTIVE_EXPAND_OPS_PER_SEC labels (preemptive_expand_per_sec c) w in
  let w := set_series NETEQ_MERGE_OPS_PER_SEC labels (merge_per_sec c) w in
  let w := set_series NETEQ_COMFORT_NOISE_OPS_PER_SEC labels (comfort_noise_per_sec c) w in
  let w := set_series NETEQ_DTMF_OPS_PER_SEC labels (dtmf_per_sec c) w in
  set_series NETEQ_UNDEFINED_OPS_PER_SEC labels (undefined_per_sec c) w.

Definition set_neteq (key peer_id : string) (labels : list string) (n : NetEqStats) (w : MetricsServer) : MetricsServer :=
  let tracked metric v w :=
    if nonzero v
    then track key (fun i => i <| to_peers := {[peer_id]} ∪ to_peers i |>) (set_series metric labels v w)
    else w in
  let w := tracked NETEQ_AUDIO_BUFFER_MS (hn_current_buffer_size_ms n) w in
  let w := tracked NETEQ_PACKETS_AWAITING_DECODE (hn_packets_awaiting_decode n) w in
  let w := tracked NETEQ_PACKETS_PER_SEC (hn_packets_per_sec n) w in
  match hn_network n with
  | Some network => match operation_counters network with Some c => set_operations labels c w | None => w end
  | None => w
  end.

Definition set_video (labels : list string) (v : VideoStats) (w : MetricsServer) : MetricsServer :=
  let w := if nonzero (hv_fps_received v) then set_series VIDEO_FPS labels (hv_fps_received v) w else w in
  if nonzero (hv_frames_buffered v) then set_series VIDEO_PACKETS_BUFFERED labels (hv_frames_buffered v) w else w.

Definition process_peer (meeting session user : string) (w : MetricsServer) (p : string * PeerStats) : MetricsServer :=
  let '(peer_id, d) := p in
  let key := session_key meeting session user in
  let labels := [meeting; session; user; peer_id] in
  let to_peer i := i <| to_peers := {[peer_id]} ∪ to_peers i |> in
  let w := set_series PEER_CONNECTIONS_TOTAL [meeting; peer_id] (F64.of_Z 1) w in
  let w := track key (fun i => i <| peer_ids := {[peer_id]} ∪ peer_ids i |>) w in
  let w := track key to_peer (set_series PEER_CAN_LISTEN labels (flag (can_listen d)) w) in
  let w := track key to_peer (set_series PEER_CAN_SEE labels (flag (can_see d)) w) in
  let w := match neteq_stats d with Some n => set_neteq key peer_id labels n w | None => w end in
  let w := match video_stats d with Some v => set_video labels v w | None => w end in
  let w := set_series PEER_AUDIO_ENABLED labels (flag (hp_audio_enabled d)) w in
  set_series PEER_VIDEO_ENABLED labels (flag (hp_video_enabled d)) w.

(** The session's server, when it is known. *)
Definition process_server (meeting session user : string) (p : HealthPacket) (w : MetricsServer) : MetricsServer :=
  if bool_decide (hp_active_server_url p = EmptyString) then w
  else
    let url := hp_active_server_url p in
    let ty := or_unknown (hp_active_server_type p) in
    let labels := [meeting; session; user; url; ty] in
    let w := set_series CLIENT_ACTIVE_SERVER labels (F64.of_Z 1) w in
    let w := if nonzero (hp_active_server_rtt_ms p)
             then set_series CLIENT_ACTIVE_SERVER_RTT_MS labels (hp_active_server_rtt_ms p) w else w in
    track (session_key meeting session user) (fun i => i <| active_servers := {[(url, ty)]} ∪ active_servers i |>) w.

(** The session is inserted first, so the test that it is active always succeeds. *)
Definition process_health_packet_to_metrics_pb (now : Z) (p : HealthPacket) (w : MetricsServer) : MetricsServer :=
  let meeting := or_unknown (hp_meeting_id p) in
  let session := or_unknown (hp_session_id p) in
  let user := reporting_user p in
  let key := session_key meeting session user in
  let w := w <| session_tracker := <[key := mkSessionInfo session meeting user now ∅ ∅ ∅]> (session_tracker w) |> in
  if bool_decide (is_Some (session_tracker w !! key)) then
    let w := process_server meeting session user p w in
    let w := set_series ACTIVE_SESSIONS_TOTAL [meeting; session] (F64.of_Z 1) w in
    let w := set_series SELF_AUDIO_ENABLED [meeting; user] (flag (hp_reporting_audio_enabled p)) w in
    let w := set_series SELF_VIDEO_ENABLED [meeting; user] (flag (hp_reporting_video_enabled p)) w in
    if bool_decide (hp_peer_stats p = ∅) then w
    else
      let peers := iter_peers (hp_peer_stats p) in
      let w := foldl (process_peer meeting session user) w peers in
      set_series MEETING_PARTICIPANTS [meeting] (F64.of_Z (Z.of_nat (length peers))) w
  else w.

Definition handle_health_message (now now_ms : Z) (topic : string) (payload : bytes) (w : MetricsServer)
    : result MetricsServer string :=
  match parse_health payload with
  | None => Err "Failed to parse"
  | Some p =>
      let is_fresh := Z.max 0 (now_ms - hp_timestamp_ms p) <=? 30000 in
      let w := if is_fresh then process_health_packet_to_metrics_pb now p w else w in
      Ok (w <| health_store := <[topic := mkHealthEntry (hp_session_id p) (hp_meeting_id p) (reporting_user p)
                                   (hp_timestamp_ms p)]> (health_store w) |>)
  end.

Inductive health_event : Type :=
| HealthMessage (now now_ms : Z) (topic : string) (payload : bytes)
| HealthScrape (now : Z).

Definition health_step (w : MetricsServer) (ev : health_event) : MetricsServer * list unit :=
  match ev with
  | HealthMessage now now_ms topic payload =>
      (match handle_health_message now now_ms topic payload w with Ok w' => w' | Err _ => w end, [])
  | HealthScrape now => (cleanup_stale_sessions now w, [])
  end.
End MetricsServer.
