(* ===== verification/HealthMetricsProps.v ===== *)
(** * Properties of the health metrics

    What a packet publishes and what is remembered of it, what the cleanup of a silent
    session removes, and what it leaves behind. *)
From S2P Require Import Prelude Floats Protocol Media HealthMetrics.

(** ** What a packet writes *)

Definition identity (p : HealthPacket) : string * string * string :=
  (or_unknown (hp_meeting_id p), or_unknown (hp_session_id p), reporting_user p).

Definition key_of (id : string * string * string) : string := session_key id.1.1 id.1.2 id.2.

Definition peer_labels (id : string * string * string) (peer : string) : list string := [id.1.1; id.1.2; id.2; peer].

Definition optional {A} (b : bool) (x : A) : list A := if b then [x] else [].

Definition neteq_writes (labels : list string) (n : NetEqStats) : list (string * list string * float) :=
  optional (nonzero (hn_current_buffer_size_ms n)) (NETEQ_AUDIO_BUFFER_MS, labels, hn_current_buffer_size_ms n) ++
  optional (nonzero (hn_packets_awaiting_decode n)) (NETEQ_PACKETS_AWAITING_DECODE, labels, hn_packets_awaiting_decode n) ++
  optional (nonzero (hn_packets_per_sec n)) (NETEQ_PACKETS_PER_SEC, labels, hn_packets_per_sec n) ++
  match hn_network n with
  | Some network =>
      match operation_counters network with
      | Some c =>
          [(NETEQ_NORMAL_OPS_PER_SEC, labels, normal_per_sec c); (NETEQ_EXPAND_OPS_PER_SEC, labels, expand_per_sec c);
           (NETEQ_ACCELERATE_OPS_PER_SEC, labels, accelerate_per_sec c);
           (NETEQ_FAST_ACCELERATE_OPS_PER_SEC, labels, fast_accelerate_per_sec c);
           (NETEQ_PREEMPTIVE_EXPAND_OPS_PER_SEC, labels, preemptive_expand_per_sec c);
           (NETEQ_MERGE_OPS_PER_SEC, labels, merge_per_sec c);
           (NETEQ_COMFORT_NOISE_OPS_PER_SEC, labels, comfort_noise_per_sec c);
           (NETEQ_DTMF_OPS_PER_SEC, labels, dtmf_per_sec c); (NETEQ_UNDEFINED_OPS_PER_SEC, labels, undefined_per_sec c)]
      | None => []
      end
  | None => []
  end.

Definition video_writes (labels : list string) (v : VideoStats) : list (string * list string * float) :=
  optional (nonzero (hv_fps_received v)) (VIDEO_FPS, labels, hv_fps_received v) ++
  optional (nonzero (hv_frames_buffered v)) (VIDEO_PACKETS_BUFFERED, labels, hv_frames_buffered v).

Definition peer_writes (id : string * string * string) (x : string * PeerStats) : list (string * list string * float) :=
  let labels := peer_labels id x.1 in
  [(PEER_CONNECTIONS_TOTAL, [id.1.1; x.1], F64.of_Z 1); (PEER_CAN_LISTEN, labels, flag (can_listen x.2));
   (PEER_CAN_SEE, labels, flag (can_see x.2))] ++
  match neteq_stats x.2 with Some n => neteq_writes labels n | None => [] end ++
  match video_stats x.2 with Some v => video_writes labels v | None => [] end ++
  [(PEER_AUDIO_ENABLED, labels, flag (hp_audio_enabled x.2)); (PEER_VIDEO_ENABLED, labels, flag (hp_video_enabled x.2))].

Definition apply_writes (l : list (string * list string * float)) (m : gmap (string * list string) float)
    : gmap (string * list string) float := foldl (fun m x => <[x.1 := x.2]> m) m l.

Lemma apply_writes_app l l' m : apply_writes (l ++ l') m = apply_writes l' (apply_writes l m).
Proof. apply foldl_app. Qed.

Lemma apply_writes_Some l m k v : apply_writes l m !! k = Some v -> m !! k = Some v \/ k ∈ l.*1.
Proof.
  revert m. induction l as [|[k' v'] l IH]; intros m; simpl; [by left|]. intros [H|H]%IH; [|by right; right].
  apply lookup_insert_Some in H as [[<- _]|[_ H]]; [right; left|by left].
Qed.

Lemma apply_writes_kept l m k : is_Some (m !! k) \/ k ∈ l.*1 -> is_Some (apply_writes l m !! k).
Proof.
  revert m. induction l as [|[k' v'] l IH]; intros m; simpl; [intros [|[]%not_elem_of_nil]; done|].
  intros H. apply IH. destruct (decide (k = k')) as [->|Hne]; [left; rewrite lookup_insert_eq; eauto|].
  rewrite lookup_insert_ne by done. set_solver.
Qed.

Lemma set_neteq_eq key peer labels n w :
  set_neteq key peer labels n w =
    w <| series := apply_writes (neteq_writes labels n) (series w) |>
      <| session_tracker := if nonzero (hn_current_buffer_size_ms n) || nonzero (hn_packets_awaiting_decode n) ||
                               nonzero (hn_packets_per_sec n)
                            then alter (fun i => i <| to_peers := {[peer]} ∪ to_peers i |>) key (session_tracker w)
                            else session_tracker w |>.
Proof.
  assert (forall t, alter (fun i => i <| to_peers := {[peer]} ∪ to_peers i |>) key
    (alter (fun i => i <| to_peers := {[peer]} ∪ to_peers i |>) key t) =
    alter (fun i => i <| to_peers := {[peer]} ∪ to_peers i |>) key (t : gmap string SessionInfo)) as Hidem.
  { intros t. apply map_eq. intros j. destruct (decide (key = j)) as [<-|Hne]; [|by rewrite !lookup_alter_ne].
    rewrite !lookup_alter_eq. destruct (t !! key); [|done]. simpl. by rewrite (assoc_L (∪)), union_idemp_L. }
  unfold set_neteq, neteq_writes, apply_writes, track, set_series. destruct w as [tr se st].
  destruct (nonzero (hn_current_buffer_size_ms n)), (nonzero (hn_packets_awaiting_decode n)), (nonzero (hn_packets_per_sec n));
    destruct (hn_network n) as [[[c|]]|]; simpl; rewrite ?Hidem; done.
Qed.

Definition with_peer (peer : string) (i : SessionInfo) : SessionInfo :=
  i <| peer_ids := {[peer]} ∪ peer_ids i |> <| to_peers := {[peer]} ∪ to_peers i |>.

Lemma process_peer_eq id x w info : session_tracker w !! key_of id = Some info ->
  let w' := process_peer id.1.1 id.1.2 id.2 w x in
  series w' = apply_writes (peer_writes id x) (series w) /\
  session_tracker w' = <[key_of id := with_peer x.1 info]> (session_tracker w).
Proof.
  intros E. destruct x as [peer d]. unfold process_peer. fold (key_of id). simpl.
  set (w1 := track (key_of id) _ (set_series PEER_CAN_SEE _ _ _)).
  assert (session_tracker w1 = <[key_of id := with_peer peer info]> (session_tracker w) /\
    series w1 = apply_writes [(PEER_CONNECTIONS_TOTAL, [id.1.1; peer], F64.of_Z 1);
      (PEER_CAN_LISTEN, peer_labels id peer, flag (can_listen d)); (PEER_CAN_SEE, peer_labels id peer, flag (can_see d))] (series w))
    as [Et Es].
  { split; [|done]. unfold w1, track, set_series. simpl. apply map_eq. intros j.
    destruct (decide (key_of id = j)) as [<-|Hne]; [|by rewrite !lookup_alter_ne, lookup_insert_ne].
    rewrite !lookup_alter_eq, lookup_insert_eq, E. simpl. unfold with_peer. destruct info. simpl.
    by rewrite (assoc_L (∪)), union_idemp_L. }
  assert (forall w2 : MetricsServer, session_tracker w2 = <[key_of id := with_peer peer info]> (session_tracker w) ->
    alter (fun i => i <| to_peers := {[peer]} ∪ to_peers i |>) (key_of id) (session_tracker w2) = session_tracker w2) as Hid.
  { intros w2 ->. apply map_eq. intros j. destruct (decide (key_of id = j)) as [<-|Hne]; [|by rewrite lookup_alter_ne].
    rewrite lookup_alter_eq, lookup_insert_eq. unfold with_peer. destruct info. simpl. by rewrite (assoc_L (∪)), union_idemp_L. }
  clearbody w1. unfold peer_writes. simpl. destruct (neteq_stats d) as [n|].
  - rewrite set_neteq_eq. destruct (video_stats d) as [v|]; unfold video_writes, set_video, set_series.
    + destruct (nonzero (hv_fps_received v)), (nonzero (hv_frames_buffered v)); simpl;
        rewrite ?apply_writes_app, Es; (split; [done|]); rewrite ?Hid by done; by destruct (_ || _).
    + simpl. rewrite ?apply_writes_app, Es. split; [done|]. rewrite ?Hid by done. by destruct (_ || _).
  - destruct (video_stats d) as [v|]; unfold video_writes, set_video, set_series.
    + destruct (nonzero (hv_fps_received v)), (nonzero (hv_frames_buffered v)); simpl; by rewrite Es.
    + simpl. by rewrite Es.
Qed.

Definition with_peers (peers : list string) (i : SessionInfo) : SessionInfo :=
  i <| peer_ids := list_to_set peers ∪ peer_ids i |> <| to_peers := list_to_set peers ∪ to_peers i |>.

Lemma process_peers_eq id xs : forall w info, session_tracker w !! key_of id = Some info ->
  let w' := foldl (process_peer id.1.1 id.1.2 id.2) w xs in
  series w' = apply_writes (flat_map (peer_writes id) xs) (series w) /\
  session_tracker w' = <[key_of id := with_peers xs.*1 info]> (session_tracker w).
Proof.
  induction xs as [|x xs IH]; intros w info E; simpl.
  - split; [done|]. rewrite insert_id; [done|]. rewrite E. f_equal. destruct info. unfold with_peers. simpl.
    by rewrite !(left_id_L ∅ (∪)).
  - destruct (process_peer_eq id x w info E) as [E1 E2].
    destruct (IH (process_peer id.1.1 id.1.2 id.2 w x) (with_peer x.1 info)) as [E3 E4]; [by rewrite E2, lookup_insert_eq|].
    rewrite E3, E4, E1, E2, apply_writes_app, insert_insert_eq. split; [done|]. f_equal.
    unfold with_peers, with_peer. destruct info. simpl. f_equal; set_solver.
Qed.

Section Packets.
Context {health : HealthWire}.
Context (iter_tracker : gmap string SessionInfo -> list (string * SessionInfo)).
Context (iter_peers : gmap string PeerStats -> list (string * PeerStats)).

Definition server_of (p : HealthPacket) : string * string := (hp_active_server_url p, or_unknown (hp_active_server_type p)).

Definition has_server (p : HealthPacket) : bool := negb (bool_decide (hp_active_server_url p = EmptyString)).

Definition server_labels (p : HealthPacket) : list string :=
  [(identity p).1.1; (identity p).1.2; (identity p).2; (server_of p).1; (server_of p).2].

Definition server_writes (p : HealthPacket) : list (string * list string * float) :=
  if has_server p then (CLIENT_ACTIVE_SERVER, server_labels p, F64.of_Z 1) ::
    optional (nonzero (hp_active_server_rtt_ms p)) (CLIENT_ACTIVE_SERVER_RTT_MS, server_labels p, hp_active_server_rtt_ms p)
  else [].

Definition packet_writes (p : HealthPacket) : list (string * list string * float) :=
  let id := identity p in
  server_writes p ++
  [(ACTIVE_SESSIONS_TOTAL, [id.1.1; id.1.2], F64.of_Z 1);
   (SELF_AUDIO_ENABLED, [id.1.1; id.2], flag (hp_reporting_audio_enabled p));
   (SELF_VIDEO_ENABLED, [id.1.1; id.2], flag (hp_reporting_video_enabled p))] ++
  if bool_decide (hp_peer_stats p = ∅) then []
  else flat_map (peer_writes id) (iter_peers (hp_peer_stats p)) ++
       [(MEETING_PARTICIPANTS, [id.1.1], F64.of_Z (Z.of_nat (length (iter_peers (hp_peer_stats p)))))].

(** What is remembered of a session: what its last packet told. *)
Definition packet_info (now : Z) (p : HealthPacket) : SessionInfo :=
  let id := identity p in
  mkSessionInfo id.1.2 id.1.1 id.2 now (dom (hp_peer_stats p)) (dom (hp_peer_stats p))
    (if has_server p then {[server_of p]} else ∅).

Lemma process_server_eq p w i : active_servers i = ∅ ->
  session_tracker w !! key_of (identity p) = Some i ->
  let w' := process_server (identity p).1.1 (identity p).1.2 (identity p).2 p w in
  series w' = apply_writes (server_writes p) (series w) /\
  session_tracker w' =
    <[key_of (identity p) := i <| active_servers := if has_server p then {[server_of p]} else ∅ |>]> (session_tracker w).
Proof.
  intros Hi E. unfold process_server, server_writes, has_server. case_bool_decide as Hu; simpl.
  - split; [done|]. rewrite insert_id; [done|]. rewrite E. f_equal. destruct i. simpl in *. by subst.
  - unfold track, set_series. simpl.
    change (session_key (or_unknown (hp_meeting_id p)) (or_unknown (hp_session_id p)) (reporting_user p)) with (key_of (identity p)).
    split; [by destruct (nonzero _)|].
    apply map_eq. intros j. destruct (decide (key_of (identity p) = j)) as [<-|Hne].
    + rewrite lookup_insert_eq. destruct (nonzero _); simpl; rewrite lookup_alter_eq, E; simpl; rewrite Hi, (right_id_L ∅ (∪)); done.
    + rewrite lookup_insert_ne by done. destruct (nonzero _); simpl; by rewrite lookup_alter_ne.
Qed.

Lemma process_eq now p w : (forall m, iter_peers m ≡ₚ map_to_list m) ->
  let w' := process_health_packet_to_metrics_pb iter_peers now p w in
  series w' = apply_writes (packet_writes p) (series w) /\
  session_tracker w' = <[key_of (identity p) := packet_info now p]> (session_tracker w).
Proof.
  intros Hit. unfold process_health_packet_to_metrics_pb. simpl.
  change (session_key (or_unknown (hp_meeting_id p)) (or_unknown (hp_session_id p)) (reporting_user p)) with (key_of (identity p)).
  rewrite bool_decide_true by (rewrite lookup_insert_eq; eauto).
  set (i0 := mkSessionInfo _ _ _ now ∅ ∅ ∅). set (w0 := mkMetricsServer (<[key_of (identity p) := i0]> (session_tracker w)) _ _).
  destruct (process_server_eq p w0 i0 eq_refl (lookup_insert_eq _ _ _)) as [E1 E2]. simpl in E1, E2.
  rewrite insert_insert_eq in E2. set (w1 := process_server _ _ _ p w0) in *. clearbody w1.
  set (w2 := set_series SELF_VIDEO_ENABLED _ _ _).
  assert (series w2 = apply_writes (server_writes p ++ [(ACTIVE_SESSIONS_TOTAL, [(identity p).1.1; (identity p).1.2], F64.of_Z 1);
    (SELF_AUDIO_ENABLED, [(identity p).1.1; (identity p).2], flag (hp_reporting_audio_enabled p));
    (SELF_VIDEO_ENABLED, [(identity p).1.1; (identity p).2], flag (hp_reporting_video_enabled p))]) (series w)) as E3.
  { rewrite apply_writes_app, <- E1. done. }
  assert (session_tracker w2 = session_tracker w1) as E4 by done. clearbody w2.
  unfold packet_writes. rewrite app_assoc, apply_writes_app, <- E3.
  case_bool_decide as Hp; simpl.
  - split; [done|]. rewrite E4, E2. f_equal. unfold packet_info, i0. rewrite Hp, dom_empty_L. done.
  - edestruct (process_peers_eq (identity p) (iter_peers (hp_peer_stats p)) w2) as [E5 E6].
    { rewrite E4, E2. apply lookup_insert_eq. }
    rewrite apply_writes_app. simpl in E5, E6. rewrite E5, E6, E4, E2, insert_insert_eq. split; [done|]. f_equal.
    assert (list_to_set (iter_peers (hp_peer_stats p)).*1 =@{gset string} dom (hp_peer_stats p)) as Hd.
    { apply set_eq. intros x. rewrite elem_of_list_to_set, Hit, elem_of_dom, list_elem_of_fmap. split.
      - intros ([k d] & -> & H%elem_of_map_to_list). simpl. eauto.
      - intros [d H]. exists (x, d). by rewrite elem_of_map_to_list. }
    unfold with_peers, packet_info, i0. simpl. rewrite Hd, (right_id_L ∅ (∪)). done.
Qed.

(** ** What a cleanup removes *)

Definition removals (i : SessionInfo) : list (string * list string) :=
  let id := (si_meeting_id i, si_session_id i, si_reporting_user_id i) in
  [(ACTIVE_SESSIONS_TOTAL, [id.1.1; id.1.2]); (SELF_AUDIO_ENABLED, [id.1.1; id.2]); (SELF_VIDEO_ENABLED, [id.1.1; id.2])] ++
  flat_map (fun '(url, ty) => [(CLIENT_ACTIVE_SERVER, [id.1.1; id.1.2; id.2; url; ty]);
                               (CLIENT_ACTIVE_SERVER_RTT_MS, [id.1.1; id.1.2; id.2; url; ty])]) (elements (active_servers i)) ++
  ((fun peer => (PEER_CONNECTIONS_TOTAL, [id.1.1; peer])) <$> elements (peer_ids i)) ++
  flat_map (fun peer => (fun metric => (metric, peer_labels id peer)) <$> TO_PEER_METRICS) (elements (to_peers i)).

Definition apply_removals (l : list (string * list string)) (w : MetricsServer) : MetricsServer :=
  foldl (fun w k => remove_series k.1 k.2 w) w l.

Lemma apply_removals_eq l w : apply_removals l w = w <| series := foldl (fun m k => delete k m) (series w) l |>.
Proof.
  unfold apply_removals. revert w. induction l as [|[metric labels] l IH]; intros w; simpl; [by destruct w|]. by rewrite IH.
Qed.

Lemma removals_lookup (l : list (string * list string)) (m : gmap (string * list string) float) (k : string * list string) (v : float) :
  foldl (fun m k => delete k m) m l !! k = Some v <-> m !! k = Some v /\ k ∉ l.
Proof.
  revert m. induction l as [|k' l IH]; intros m; simpl; [set_solver|]. rewrite IH, lookup_delete_Some. set_solver.
Qed.

Lemma foldl_flat_map {A B C} (f : C -> B -> C) (g : A -> list B) xs c :
  foldl f c (flat_map g xs) = foldl (fun c x => foldl f c (g x)) c xs.
Proof. revert c. induction xs as [|x xs IH]; intros c; simpl; [done|]. by rewrite foldl_app, IH. Qed.

Lemma remove_session_eq i w : remove_session_metrics i w = apply_removals (removals i) w.
Proof.
  unfold remove_session_metrics, removals, apply_removals. rewrite !foldl_app, !foldl_flat_map, foldl_fmap. simpl.
  assert (forall {A B} (f g : A -> B -> A) xs a a', (forall a x, f a x = g a x) -> a = a' -> foldl f a xs = foldl g a' xs) as Hext.
  { intros A B f g xs. induction xs as [|x xs IH]; intros a a' Hfg ->; simpl; [done|]. apply IH; [done|apply Hfg]. }
  apply Hext; [done|]. apply Hext; [done|]. apply Hext; [|done]. by intros w' [url ty].
Qed.

Lemma elem_of_flat_map {A B} (f : A -> list B) xs y : y ∈ flat_map f xs <-> exists x, x ∈ xs /\ y ∈ f x.
Proof.
  rewrite list_elem_of_In, in_flat_map. setoid_rewrite list_elem_of_In. done.
Qed.

Definition id_of (i : SessionInfo) : string * string * string := (si_meeting_id i, si_session_id i, si_reporting_user_id i).

Lemma labels_inj id id' peer peer' : peer_labels id peer = peer_labels id' peer' -> id = id' /\ peer = peer'.
Proof. destruct id as [[] ], id' as [[] ]. unfold peer_labels. simpl. by intros [= -> -> -> ->]. Qed.

(** A series of a peer is removed only for a session of that identity that tracks the peer. *)
Lemma peer_removals i metric id peer : (metric, peer_labels id peer) ∈ removals i -> id = id_of i /\ peer ∈ to_peers i.
Proof.
  unfold removals. rewrite !elem_of_app, !elem_of_flat_map, list_elem_of_fmap.
  intros [H|[([url ty] & _ & H)|[(x & H & _)|(x & Hx & H)]]].
  - rewrite !elem_of_cons in H. destruct H as [H|[H|[H|[]%not_elem_of_nil]]]; discriminate.
  - rewrite !elem_of_cons in H. destruct H as [H|[H|[]%not_elem_of_nil]]; discriminate.
  - discriminate.
  - apply list_elem_of_fmap in H as (m & H & _). apply (f_equal snd) in H. apply (labels_inj _ (id_of i)) in H as [-> ->]. by rewrite <- elem_of_elements.
Qed.

(** The metrics no cleanup removes. *)
Definition KEPT_METRICS : list string := [PEER_AUDIO_ENABLED; PEER_VIDEO_ENABLED; MEETING_PARTICIPANTS].

Lemma kept_not_removed i metric labels : metric ∈ KEPT_METRICS -> (metric, labels) ∉ removals i.
Proof.
  intros Hm. unfold removals. rewrite !elem_of_app, !elem_of_flat_map, list_elem_of_fmap.
  assert (forall m l, m ∉ KEPT_METRICS -> (metric, labels) <> (m, l)) as Hne by (intros m l Hn [= -> _]; done).
  intros [H|[([url ty] & _ & H)|[(x & H & _)|(x & Hx & H)]]].
  - rewrite !elem_of_cons in H. destruct H as [H|[H|[H|[]%not_elem_of_nil]]]; revert H; apply Hne; apply (bool_decide_unpack _); vm_compute; exact I.
  - rewrite !elem_of_cons in H. destruct H as [H|[H|[]%not_elem_of_nil]]; revert H; apply Hne; apply (bool_decide_unpack _); vm_compute; exact I.
  - revert H. apply Hne. apply (bool_decide_unpack _); vm_compute; exact I.
  - apply list_elem_of_fmap in H as (m & H & Hin). revert H. apply Hne. revert m Hin. apply Forall_forall. apply (bool_decide_unpack _); vm_compute; exact I.
Qed.

Lemma peer_writes_keys id x metric labels : (metric, labels) ∈ (peer_writes id x).*1 ->
  metric ∈ KEPT_METRICS \/ (metric, labels) = (PEER_CONNECTIONS_TOTAL, [id.1.1; x.1]) \/
  metric ∈ TO_PEER_METRICS /\ labels = peer_labels id x.1.
Proof.
  assert (Forall (fun k => k.1 ∈ KEPT_METRICS \/ k = (PEER_CONNECTIONS_TOTAL, [id.1.1; x.1]) \/
    k.1 ∈ TO_PEER_METRICS /\ k.2 = peer_labels id x.1) (peer_writes id x).*1) as H.
  { assert (forall b m (v : float) l, m ∈ TO_PEER_METRICS -> l = peer_labels id x.1 ->
      Forall (fun k : string * list string => k.1 ∈ KEPT_METRICS \/ k = (PEER_CONNECTIONS_TOTAL, [id.1.1; x.1]) \/
        k.1 ∈ TO_PEER_METRICS /\ k.2 = peer_labels id x.1) (optional b (m, l, v)).*1) as Ho
      by (intros [] m v l Hm Hl; simpl; [apply Forall_singleton; by eauto|constructor]).
    unfold peer_writes, neteq_writes, video_writes.
    destruct (neteq_stats x.2) as [[b aw [[[c|]]|] pps]|], (video_stats x.2) as [[fps fb fd kb]|];
      rewrite !fmap_app, ?Forall_app; split_and?;
      first [by apply Ho; [apply (bool_decide_unpack _); vm_compute|] | idtac].
    all: rewrite ?fmap_cons, ?fmap_nil; repeat (apply Forall_cons; split);
      try (by right; left); try (right; right; split; [apply (bool_decide_unpack _); vm_compute; exact I|done]);
      try (left; apply (bool_decide_unpack _); vm_compute; exact I); try constructor. }
  intros Hin. by apply (proj1 (Forall_forall _ _) H) in Hin.
Qed.

(** Everything a packet writes, but for those metrics, is among the removals of the session
    the packet leaves in the tracker. *)
Lemma packet_writes_removed now p metric labels : (forall m, iter_peers m ≡ₚ map_to_list m) ->
  (metric, labels) ∈ (packet_writes p).*1 -> metric ∉ KEPT_METRICS -> (metric, labels) ∈ removals (packet_info now p).
Proof.
  intros Hit Hin Hk. unfold packet_writes in Hin. rewrite !fmap_app, !elem_of_app in Hin. unfold removals. rewrite !elem_of_app.
  destruct Hin as [H|[H|H]].
  - right; left. unfold server_writes in H. simpl. destruct (has_server p); [|by apply not_elem_of_nil in H].
    apply elem_of_flat_map. exists (server_of p). rewrite elements_singleton. split; [by left|].
    unfold optional in H. change (server_of p) with (hp_active_server_url p, or_unknown (hp_active_server_type p)). cbv iota beta.
    rewrite !elem_of_cons. simpl in H. apply elem_of_cons in H as [->|H]; [by left|].
    right; left. destruct (nonzero _); simpl in H; [by apply list_elem_of_singleton in H|by apply not_elem_of_nil in H].
  - left. exact H.
  - right; right. case_bool_decide as He; [by apply not_elem_of_nil in H|]. rewrite fmap_app, elem_of_app in H.
    destruct H as [H|H].
    + apply list_elem_of_fmap in H as ([[m l] v] & E & H). simpl in E. apply elem_of_flat_map in H as (x & Hx & H).
      assert ((metric, labels) ∈ (peer_writes (identity p) x).*1) as Hw by (rewrite E; apply list_elem_of_fmap; exists (m, l, v); done).
      assert (x.1 ∈ elements (dom (hp_peer_stats p))) as Hd.
      { rewrite Hit in Hx. destruct x as [k d]. apply elem_of_map_to_list in Hx. apply elem_of_elements, elem_of_dom. by exists d. }
      apply peer_writes_keys in Hw as [Hw|[->|[Hw ->]]]; [done| |].
      * left. apply list_elem_of_fmap. eexists; split; [|exact Hd]. done.
      * right. apply elem_of_flat_map. exists x.1. split; [exact Hd|]. apply list_elem_of_fmap. by eauto.
    + apply list_elem_of_singleton in H. injection H as -> _. exfalso. apply Hk. apply (bool_decide_unpack _). vm_compute. exact I.
Qed.

(** *** The sweep *)

Definition stale (now : Z) (i : SessionInfo) : Prop := STALE_AFTER < duration_since now (si_last_seen i).

Definition sweep (w : MetricsServer) (key : string) : MetricsServer :=
  match session_tracker w !! key with
  | Some info => remove_session_metrics info (w <| session_tracker := delete key (session_tracker w) |>)
  | None => w
  end.

Lemma remove_session_facts i w : session_tracker (remove_session_metrics i w) = session_tracker w /\
  forall k v, series (remove_session_metrics i w) !! k = Some v <-> series w !! k = Some v /\ k ∉ removals i.
Proof. rewrite remove_session_eq, apply_removals_eq. generalize (removals i). intros l. split; [done|]. intros k v. apply removals_lookup. Qed.

Lemma sweep_all ks : forall w, let w' := foldl sweep w ks in
  (forall key i, session_tracker w' !! key = Some i <-> session_tracker w !! key = Some i /\ key ∉ ks) /\
  (forall k v, series w' !! k = Some v <->
     series w !! k = Some v /\ forall key i, key ∈ ks -> session_tracker w !! key = Some i -> k ∉ removals i).
Proof.
  induction ks as [|key ks IH]; intros w; simpl; [set_solver|].
  destruct (IH (sweep w key)) as [H1 H2]. simpl in H1, H2.
  assert (session_tracker (sweep w key) = delete key (session_tracker w) /\
    forall k v, series (sweep w key) !! k = Some v <->
      series w !! k = Some v /\ forall i, session_tracker w !! key = Some i -> k ∉ removals i) as [E1 E2].
  { unfold sweep. destruct (session_tracker w !! key) as [i|] eqn:E.
    - destruct (remove_session_facts i (w <| session_tracker := delete key (session_tracker w) |>)) as [-> Hr].
      split; [done|]. intros k v. rewrite Hr. split; intros [Ha Hb]; (split; [exact Ha|]); [by intros i' [= <-]|by apply Hb].
    - split; [by rewrite delete_id|]. intros k v. split; [intros H; by split|by intros [H _]]. }
  split.
  - intros key' i. rewrite H1, E1, lookup_delete_Some, not_elem_of_cons. naive_solver.
  - intros k v. rewrite H2, E2, E1. setoid_rewrite elem_of_cons. setoid_rewrite lookup_delete_Some. split.
    + intros [[Ha Hb] Hc]. split; [done|]. intros key' i [->|Hin] E; [by apply Hb|].
      destruct (decide (key = key')) as [->|Hne]; [by apply Hb|]. by eapply Hc.
    + intros [Ha Hb]. split; [split; [done|]|]; [intros i; apply Hb; by left|]. intros key' i Hin [_ E]. eapply Hb; [by right|done].
Qed.

Definition visits_sessions : Prop :=
  (forall m, iter_tracker m ≡ₚ map_to_list m) /\ (forall m, iter_peers m ≡ₚ map_to_list m).

Lemma cleanup_eq now w : visits_sessions -> let w' := cleanup_stale_sessions iter_tracker now w in
  (forall key i, session_tracker w' !! key = Some i <-> session_tracker w !! key = Some i /\ ~ stale now i) /\
  (forall k v, series w' !! k = Some v <->
     series w !! k = Some v /\ forall key i, session_tracker w !! key = Some i -> stale now i -> k ∉ removals i).
Proof.
  intros [Hv _]. unfold cleanup_stale_sessions. set (ks := omap _ _).
  assert (forall key, key ∈ ks <-> exists i, session_tracker w !! key = Some i /\ stale now i) as Hks.
  { intros key. unfold ks, stale. rewrite list_elem_of_omap. split.
    - intros ([k i] & Hin & E). rewrite Hv in Hin. apply elem_of_map_to_list in Hin.
      destruct (Z.ltb_spec STALE_AFTER (duration_since now (si_last_seen i))); simplify_eq. eauto.
    - intros (i & E & Hs). exists (key, i). split; [by rewrite Hv, elem_of_map_to_list|]. by rewrite (proj2 (Z.ltb_lt _ _)). }
  change (foldl _ w ks) with (foldl sweep w ks). clearbody ks. destruct (sweep_all ks w) as [H1 H2]. split.
  - intros key i. rewrite H1, Hks. split; intros [E Hn]; (split; [done|]); [intros Hs; apply Hn; eauto|].
    intros (i' & E' & Hs). by simplify_eq.
  - intros k v. rewrite H2. setoid_rewrite Hks. naive_solver.
Qed.

(** A silent session is cleaned up, except for three metrics. When the last packet of
    a session was taken more than thirty seconds before a scrape, the scrape forgets the
    session and removes every series that packet wrote, but for the audio and video state
    of the peers it reported and the number of participants, which stay. *)
Theorem stale_session_is_cleaned (w : MetricsServer) (p : HealthPacket) (t now : Z) :
  visits_sessions -> STALE_AFTER < duration_since now t ->
  let w' := cleanup_stale_sessions iter_tracker now (process_health_packet_to_metrics_pb iter_peers t p w) in
  session_tracker w' !! key_of (identity p) = None /\
  forall metric labels, (metric, labels) ∈ (packet_writes p).*1 ->
    is_Some (series w' !! (metric, labels)) <-> metric ∈ KEPT_METRICS.
Proof.
  intros Hv Ht. destruct (process_eq t p w (proj2 Hv)) as [E1 E2].
  destruct (cleanup_eq now (process_health_packet_to_metrics_pb iter_peers t p w) Hv) as [H1 H2].
  cbv zeta in *. rewrite E2 in H1, H2. split.
  - apply eq_None_not_Some. intros [i Hi]. apply H1 in Hi as [Hi Hn]. rewrite lookup_insert_eq in Hi. simplify_eq. by apply Hn.
  - intros metric labels Hin. split.
    + intros [v [_ Hv']%H2]. destruct (decide (metric ∈ KEPT_METRICS)) as [|Hk]; [done|]. exfalso.
      eapply Hv'; [apply lookup_insert_eq|exact Ht|]. by apply packet_writes_removed; [apply Hv|..].
    + intros Hk. destruct (apply_writes_kept (packet_writes p) (series w) (metric, labels) (or_intror Hin)) as [v E].
      exists v. apply H2. rewrite E1. split; [done|]. intros key i _ _. by apply kept_not_removed.
Qed.

(** ** Peers that leave *)

(** The packet taken in by a message: parsed and not older than thirty seconds. *)
Definition accepted_health (ev : health_event) : option (Z * HealthPacket) :=
  match ev with
  | HealthMessage now now_ms _ payload =>
      match parse_health payload with
      | Some p => if Z.max 0 (now_ms - hp_timestamp_ms p) <=? 30000 then Some (now, p) else None
      | None => None
      end
  | HealthScrape _ => None
  end.

Definition reports (id : string * string * string) (peer : string) (ev : health_event) : Prop :=
  exists now p, accepted_health ev = Some (now, p) /\ identity p = id /\ peer ∈ dom (hp_peer_stats p).

Lemma health_step_message w now now_ms topic payload :
  let w' := (health_step iter_tracker iter_peers w (HealthMessage now now_ms topic payload)).1 in
  match accepted_health (HealthMessage now now_ms topic payload) with
  | Some (t, p) => series w' = series (process_health_packet_to_metrics_pb iter_peers t p w) /\
                   session_tracker w' = session_tracker (process_health_packet_to_metrics_pb iter_peers t p w)
  | None => series w' = series w /\ session_tracker w' = session_tracker w
  end.
Proof.
  unfold health_step, handle_health_message, accepted_health. destruct (parse_health payload); [|done]. by destruct (_ <=? _).
Qed.

(** The tracker knows each session under the key of its identity. *)
Definition tracker_ok (w : MetricsServer) : Prop :=
  forall key i, session_tracker w !! key = Some i -> key = key_of (id_of i).

(** The series of a peer is there and no tracked session would remove it. *)
Definition orphan (id : string * string * string) (peer : string) (w : MetricsServer) : Prop :=
  is_Some (series w !! (PEER_CAN_LISTEN, peer_labels id peer)) /\
  forall key i, session_tracker w !! key = Some i -> id_of i = id -> peer ∉ to_peers i.

Lemma tracker_step_ok w ev : visits_sessions -> tracker_ok w -> tracker_ok (health_step iter_tracker iter_peers w ev).1.
Proof.
  intros Hv Hw. destruct ev as [now now_ms topic payload|now].
  - pose proof (health_step_message w now now_ms topic payload) as H. cbv zeta in H.
    destruct (accepted_health _) as [[t p]|]; destruct H as [_ E]; intros key i; rewrite E; [|apply Hw].
    rewrite (proj2 (process_eq t p w (proj2 Hv))). intros [[<- <-]|[_ Hi]]%lookup_insert_Some; [|by apply Hw].
    reflexivity.
  - intros key i [Hi _]%cleanup_eq; [|done]. by apply Hw.
Qed.

Lemma orphan_step id peer w ev : visits_sessions -> ~ reports id peer ev -> orphan id peer w ->
  orphan id peer (health_step iter_tracker iter_peers w ev).1.
Proof.
  intros Hv Hr [Hs Ht]. destruct ev as [now now_ms topic payload|now].
  - pose proof (health_step_message w now now_ms topic payload) as H. cbv zeta in H.
    destruct (accepted_health _) as [[t p]|] eqn:Ea; destruct H as [E1 E2]; unfold orphan; rewrite E1, E2; [|done].
    destruct (process_eq t p w (proj2 Hv)) as [-> ->]. split; [apply apply_writes_kept; by left|].
    intros key i [[<- <-]|[_ Hi]]%lookup_insert_Some Eid; [|by eapply Ht]. intros Hin. apply Hr. exists t, p.
    split_and!; [done| |exact Hin]. rewrite <- Eid. reflexivity.
  - destruct (cleanup_eq now w Hv) as [H1 H2]. split.
    + destruct Hs as [v Hs]. exists v. apply H2. split; [done|]. intros key i Hi _ Hin.
      apply peer_removals in Hin as [-> Hin]. by eapply Ht.
    + intros key i [Hi _]%H1. by eapply Ht.
Qed.

Lemma listen_written p peer : visits_sessions -> peer ∈ dom (hp_peer_stats p) ->
  (PEER_CAN_LISTEN, peer_labels (identity p) peer) ∈ (packet_writes p).*1.
Proof.
  intros [_ Hit] [d Hd]%elem_of_dom. unfold packet_writes. rewrite bool_decide_false by (intros E; by rewrite E in Hd).
  rewrite !fmap_app, !elem_of_app. right; right; left. apply list_elem_of_fmap. eexists (_, _, _). split; [reflexivity|].
  apply elem_of_flat_map. exists (peer, d). split; [by rewrite Hit, elem_of_map_to_list|]. right. left.
Qed.

Lemma health_step_accepted w ev t p : visits_sessions -> accepted_health ev = Some (t, p) ->
  let w' := (health_step iter_tracker iter_peers w ev).1 in
  series w' = apply_writes (packet_writes p) (series w) /\
  session_tracker w' = <[key_of (identity p) := packet_info t p]> (session_tracker w).
Proof.
  intros Hv Ea. destruct ev as [now now_ms topic payload|]; [|done].
  pose proof (health_step_message w now now_ms topic payload) as H. rewrite Ea in H. cbv zeta in *. destruct H as [-> ->].
  apply process_eq, Hv.
Qed.

Lemma orphan_arises w e1 e2 t1 t2 p1 p2 peer : visits_sessions -> tracker_ok w ->
  accepted_health e1 = Some (t1, p1) -> peer ∈ dom (hp_peer_stats p1) ->
  accepted_health e2 = Some (t2, p2) -> identity p2 = identity p1 -> peer ∉ dom (hp_peer_stats p2) ->
  let step := health_step iter_tracker iter_peers in
  orphan (identity p1) peer (step (step w e1).1 e2).1.
Proof.
  intros Hv Hw E1 H1 E2 Eid H2 step. set (w1 := (step w e1).1).
  assert (tracker_ok (step w1 e2).1) as Hok by (apply tracker_step_ok; [done|by apply tracker_step_ok]).
  pose proof (health_step_accepted w e1 t1 p1 Hv E1) as [Es1 _]. fold step in Es1. fold w1 in Es1.
  pose proof (health_step_accepted w1 e2 t2 p2 Hv E2) as [Es2 Et2]. fold step in Es2, Et2. split.
  - rewrite Es2. apply apply_writes_kept. left. rewrite Es1. apply apply_writes_kept. right. by apply listen_written.
  - intros key i Hi Ei. pose proof (Hok key i Hi) as ->. rewrite Et2, Ei, Eid, lookup_insert_eq in Hi.
    injection Hi as <-. exact H2.
Qed.

Lemma run_fst {S I O} (step : S -> I -> S * list O) w e es : (run step w (e :: es)).1 = (run step (step w e).1 es).1.
Proof. simpl. destruct (step w e) as [w1 o1]. simpl. by destruct (run step w1 es). Qed.

(** The series of a peer that left is never removed. Once a packet of a session has
    reported a peer and the session's next packet does not, the series of that peer is
    exported from then on, through every later packet that does not report the peer and
    every scrape, however long the session has been silent: each packet replaces what is
    remembered of the session, and only what is remembered is removed. *)
Theorem departed_peer_leaks (evs0 evs : list health_event) (e1 e2 : health_event) (t1 t2 : Z) (p1 p2 : HealthPacket) (peer : string) :
  visits_sessions ->
  accepted_health e1 = Some (t1, p1) -> peer ∈ dom (hp_peer_stats p1) ->
  accepted_health e2 = Some (t2, p2) -> identity p2 = identity p1 -> peer ∉ dom (hp_peer_stats p2) ->
  Forall (fun ev => ~ reports (identity p1) peer ev) evs ->
  is_Some (series (run (health_step iter_tracker iter_peers) metrics_server_new (evs0 ++ [e1; e2] ++ evs)).1
    !! (PEER_CAN_LISTEN, peer_labels (identity p1) peer)).
Proof.
  intros Hv Ea1 Hp1 Ea2 Eid Hp2 Hevs. rewrite run_app.
  destruct (run_invariant_on (health_step iter_tracker iter_peers) (fun _ => True) tracker_ok (fun _ => True))
    with (es := evs0) (s := metrics_server_new) as [Hok _];
    [intros w ev _ Hw; pose proof (tracker_step_ok w ev Hv Hw) as H; destruct (health_step _ _ w ev); split; [done|by apply Forall_true]|by apply Forall_true|by intros key i|].
  destruct (run _ metrics_server_new evs0) as [w0 o0]. simpl in Hok.
  pose proof (orphan_arises w0 e1 e2 t1 t2 p1 p2 peer Hv Hok Ea1 Hp1 Ea2 Eid Hp2) as Ho. cbv zeta in Ho.
  destruct (run_invariant_on (health_step iter_tracker iter_peers) (fun ev => ~ reports (identity p1) peer ev)
    (orphan (identity p1) peer) (fun _ => True)) with (es := evs)
    (s := (health_step iter_tracker iter_peers (health_step iter_tracker iter_peers w0 e1).1 e2).1) as [[Hf _] _]; [|done..|].
  - intros w ev Hev Hw. pose proof (orphan_step _ _ _ _ Hv Hev Hw) as H. destruct (health_step _ _ w ev). split; [done|by apply Forall_true].
  - rewrite <- !run_fst in Hf. change ([e1; e2] ++ evs) with (e1 :: e2 :: evs). by destruct (run _ w0 _).
Qed.
End Packets.

(** ** Concrete runs *)

Definition demo_peer : PeerStats := mkPeerStats true true true false None None.

(** Alice sees Bob, and in her next packet nobody. *)
Definition demo_sees_bob : HealthPacket :=
  mkHealthPacket "7" "standup" (as_bytes "alice") 1000 true true {["bob" := demo_peer]} "https://relay" "webtransport" (F64.of_Z 20).

Definition demo_alone : HealthPacket :=
  mkHealthPacket "7" "standup" (as_bytes "alice") 6000 true true ∅ "https://relay" "webtransport" (F64.of_Z 20).

Definition demo_health_wire : HealthWire := {|
  write_health := fun p => Some [hp_timestamp_ms p];
  parse_health := fun b => if bool_decide (b = [1000]) then Some demo_sees_bob
                           else if bool_decide (b = [6000]) then Some demo_alone else None;
|}.

#[local] Existing Instance demo_health_wire.

Lemma stale_session_witness :
  let w' := cleanup_stale_sessions map_to_list (from_secs 32)
    (process_health_packet_to_metrics_pb map_to_list (from_secs 1) demo_sees_bob metrics_server_new) in
  session_tracker w' !! "standup_7_alice"%string = None /\
  ~ is_Some (series w' !! (PEER_CAN_LISTEN, ["standup"; "7"; "alice"; "bob"]%string)) /\
  is_Some (series w' !! (PEER_AUDIO_ENABLED, ["standup"; "7"; "alice"; "bob"]%string)).
Proof.
  intros w'. destruct (stale_session_is_cleaned map_to_list map_to_list metrics_server_new demo_sees_bob (from_secs 1)
    (from_secs 32)) as [H1 H2]; [by split|by vm_compute|]. fold w' in H1, H2. split_and!.
  - exact H1.
  - rewrite H2; apply (bool_decide_unpack _); vm_compute; exact I.
  - apply H2; apply (bool_decide_unpack _); vm_compute; exact I.
Defined.

(** An hour after Alice's last packet her session is gone and Bob's series is still there. *)
Lemma departed_peer_witness :
  is_Some (series (run (health_step map_to_list map_to_list) metrics_server_new
    ([] ++ [HealthMessage (from_secs 1) 1000 "health.diagnostics.a" [1000]; HealthMessage (from_secs 6) 6000 "health.diagnostics.a" [6000]] ++
     [HealthScrape (from_secs 60); HealthScrape (from_secs 3600)])).1
    !! (PEER_CAN_LISTEN, peer_labels (identity demo_sees_bob) "bob")).
Proof.
  eapply (departed_peer_leaks map_to_list map_to_list [] _ _ _ (from_secs 1) (from_secs 6) demo_sees_bob demo_alone "bob").
  - by split.
  - vm_compute. reflexivity.
  - apply (bool_decide_unpack _). vm_compute. exact I.
  - vm_compute. reflexivity.
  - reflexivity.
  - apply (bool_decide_unpack _). vm_compute. exact I.
  - repeat constructor; intros (now & p & E & _); discriminate.
Defined.
