(* ===== verification/HealthReporter.v ===== *)
(** * Health reports of the client

    videocall-diagnostics/src/lib.rs, the bus on which the parts of a client publish what
    they measure; the parts that publish what the reports are made of
    (diagnostics_manager.rs, peer_decode_manager.rs, connection_manager.rs,
    neteq_audio_decoder.rs); and videocall-client/src/health_reporter.rs, which keeps what
    it hears about each peer and sends it to the server from time to time.

    The bus drops its oldest events when it is full, so a run of the reporter is over any
    sequence of events. JSON values are the class [Json]. The cells of the reporter are
    borrowed only between two awaits, so no borrow fails. *)
From Stdlib Require Import Ascii.
From S2P Require Import Prelude Floats Protocol Media PeerDecode Diagnostics Connection ConnectionManager HealthMetrics.

(** ** The bus (videocall-diagnostics) *)

Inductive MetricValue : Type :=
| MI64 (v : Z)
| MU64 (v : Z)
| MF64 (v : float)
| MText (v : string).

Record Metric : Type := metric { m_name : string; m_value : MetricValue }.

Record DiagEvent : Type := mkDiagEvent {
  subsystem : string;
  ev_stream_id : option string;
  ev_ts_ms : Z;
  ev_metrics : list Metric;
}.

Definition flag_u64 (b : bool) : MetricValue := MU64 (if b then 1 else 0).

(** ** JSON values

    [serde_json::Value], with [json_set] for the assignment [v[key] = x] to an object. *)

Class Json : Type := {
  Value : Type;
  parse_json : string -> option Value;
  json_empty : Value;
  is_object : Value -> bool;
  json_get : string -> Value -> option Value;
  json_set : string -> Value -> Value -> Value;
  json_f64 : float -> Value;
  json_u64 : Z -> Value;
  json_as_f64 : Value -> option float;
  json_as_u64 : Value -> option Z;
}.

Definition is_finite (x : float) : bool :=
  match x with SpecFloat.S754_zero _ | SpecFloat.S754_finite _ _ _ => true | _ => false end.

(** A number that is not finite becomes the value null. *)
Class JsonLaws {json : Json} : Prop := {
  empty_is_object : is_object json_empty = true;
  get_empty : forall k, json_get k json_empty = None;
  set_is_object : forall k v o, is_object o = true -> is_object (json_set k v o) = true;
  get_set : forall k v o, is_object o = true -> json_get k (json_set k v o) = Some v;
  get_set_ne : forall k k' v o, is_object o = true -> k <> k' -> json_get k (json_set k' v o) = json_get k o;
  as_f64_of_f64 : forall x, json_as_f64 (json_f64 x) = if is_finite x then Some x else None;
  as_f64_of_u64 : forall n, 0 <= n < 2 ^ 64 -> json_as_f64 (json_u64 n) = Some (F64.of_Z n);
  as_u64_of_u64 : forall n, 0 <= n < 2 ^ 64 -> json_as_u64 (json_u64 n) = Some n;
}.

(** ** What is published *)

(** [format!("{:?}", media_type)]. *)
Definition media_type_name (media_type : Z) : string :=
  if media_type =? VIDEO then "VIDEO"
  else if media_type =? AUDIO then "AUDIO"
  else if media_type =? SCREEN then "SCREEN"
  else if media_type =? HEARTBEAT then "HEARTBEAT"
  else if media_type =? RTT then "RTT"
  else if media_type =? KEYFRAME_REQUEST then "KEYFRAME_REQUEST"
  else "MEDIA_TYPE_UNKNOWN".

(** The events of [send_diagnostic_packets] for one stream. *)
Definition diagnostics_events (now_ms : Z) (e : diag_effect) : list DiagEvent :=
  match e with
  | BroadcastDecoder fps bitrate media_type from_peer to_peer =>
      [mkDiagEvent "decoder" None now_ms
         [metric "fps" (MF64 fps); metric "bitrate_kbps" (MF64 bitrate);
          metric "media_type" (MText (media_type_name media_type));
          metric "from_peer" (MText from_peer); metric "to_peer" (MText to_peer)]]
  | BroadcastVideo fps bitrate from_peer to_peer =>
      [mkDiagEvent "video" None now_ms
         [metric "fps_received" (MF64 fps); metric "bitrate_kbps" (MF64 bitrate);
          metric "from_peer" (MText from_peer); metric "to_peer" (MText to_peer)]]
  | _ => []
  end.

(** [broadcast_peer_status]. *)
Definition status_event (e : peer_effect) : list DiagEvent :=
  match e with
  | PeerStatusEvent ts_ms to_peer audio video screen speaking level =>
      [mkDiagEvent "peer_status" None ts_ms
         [metric "to_peer" (MText to_peer); metric "audio_enabled" (flag_u64 audio);
          metric "video_enabled" (flag_u64 video); metric "screen_enabled" (flag_u64 screen);
          metric "is_speaking" (flag_u64 speaking); metric "audio_level" (MF64 (F64.of_f32 level))]]
  | _ => []
  end.

Definition server_type_name (is_webtransport : bool) : string :=
  if is_webtransport then "webtransport" else "websocket".

(** [report_diagnostics] of the connection manager. *)
Section Servers.
Context (iter : gmap string ServerRttMeasurement -> list (string * ServerRttMeasurement)).

Definition election_metrics (now : float) (m : ConnectionManager) : list Metric :=
  match election_state m with
  | ElTesting start_time duration_ms _ =>
      let elapsed := F64.sub now start_time in
      let progress := F32.of_f64 (fmin (F64.div elapsed (F64.of_Z duration_ms)) (F64.of_Z 1)) in
      [metric "election_state" (MText "testing"); metric "election_progress" (MF64 (F64.of_f32 progress));
       metric "servers_total" (MU64 (Z.of_nat (size (connections m))))]
  | ElElected connection_id elected_at =>
      [metric "election_state" (MText "elected"); metric "active_connection_id" (MText connection_id);
       metric "elected_at" (MF64 elected_at)] ++
      match rtt_measurements m !! connection_id with
      | Some measurement =>
          match ms_average_rtt measurement with
          | Some avg_rtt =>
              [metric "active_server_rtt" (MF64 avg_rtt); metric "active_server_url" (MText (ms_url measurement));
               metric "active_server_type" (MText (server_type_name (ms_is_webtransport measurement)))]
          | None => []
          end
      | None => []
      end
  | ElFailed reason failed_at =>
      [metric "election_state" (MText "failed"); metric "failure_reason" (MText reason); metric "failed_at" (MF64 failed_at)]
  end.

Definition server_metrics (m : ConnectionManager) (connection_id : string) (measurement : ServerRttMeasurement) : list Metric :=
  let connected := match connections m !! connection_id with Some c => is_connected c | None => false end in
  let status := if ms_active measurement then "active"
                else if connected then (if bool_decide (is_Some (ms_average_rtt measurement)) then "testing" else "connected")
                else "connecting" in
  [metric "server_url" (MText (ms_url measurement));
   metric "server_type" (MText (server_type_name (ms_is_webtransport measurement)));
   metric "server_status" (MText status); metric "server_active" (flag_u64 (ms_active measurement));
   metric "server_connected" (flag_u64 connected);
   metric "measurement_count" (MU64 (Z.of_nat (length (ms_measurements measurement))))] ++
  match ms_average_rtt measurement with Some avg_rtt => [metric "server_rtt" (MF64 avg_rtt)] | None => [] end.

Definition report_diagnostics (now : float) (now_ms : Z) (m : ConnectionManager) : list DiagEvent :=
  mkDiagEvent "connection_manager" None now_ms (election_metrics now m) ::
  ((fun '(connection_id, measurement) =>
      mkDiagEvent "connection_manager" (Some (ms_connection_id measurement)) now_ms (server_metrics m connection_id measurement))
   <$> iter (rtt_measurements m)).
End Servers.

Section NetEqEvents.
Context {json : Json}.

Definition neteq_event (now_ms : Z) (peer_id : string) (m : Metric) : DiagEvent :=
  mkDiagEvent "neteq" (Some ("current_user->" +:+ peer_id)) now_ms
    [m; metric "reporting_peer" (MText "current_user"); metric "target_peer" (MText peer_id)].

(** [emit_jitter_metrics] and [emit_buffer_metrics]: a metric for each field that is there. *)
Definition emit_field (now_ms : Z) (peer_id field name : string) (v : Value) : list DiagEvent :=
  match json_get field v ≫= json_as_u64 with
  | Some n => [neteq_event now_ms peer_id (metric name (MU64 n))]
  | None => []
  end.

Definition emit_jitter_metrics (now_ms : Z) (peer_id : string) (parsed : Value) : list DiagEvent :=
  match json_get "lifetime" parsed with
  | Some lifetime =>
      emit_field now_ms peer_id "jitter_buffer_delay_ms" "jitter_buffer_delay_ms" lifetime ++
      emit_field now_ms peer_id "jitter_buffer_target_delay_ms" "jitter_buffer_target_delay_ms" lifetime
  | None => []
  end.

Definition emit_buffer_metrics (now_ms : Z) (peer_id : string) (parsed : Value) : list DiagEvent :=
  match json_get "network" parsed with
  | Some network =>
      emit_field now_ms peer_id "current_buffer_size_ms" "audio_buffer_ms" network ++
      emit_field now_ms peer_id "packets_awaiting_decode" "packets_awaiting_decode" network
  | None => []
  end.

(** [handle_stats_message], from the text of the statistics on. *)
Definition neteq_stats_events (now_ms : Z) (peer_id json_str : string) : list DiagEvent :=
  neteq_event now_ms peer_id (metric "stats_json" (MText json_str)) ::
  match parse_json json_str with
  | Some parsed => emit_jitter_metrics now_ms peer_id parsed ++ emit_buffer_metrics now_ms peer_id parsed
  | None => []
  end.
End NetEqEvents.

(** ** health_reporter.rs *)

Record PeerHealthData {json : Json} : Type := mkPeerHealth {
  pd_peer_id : string;
  last_neteq_stats : option Value;
  last_video_stats : option Value;
  pd_can_listen : bool;
  pd_can_see : bool;
  last_update_ms : Z;
}.

#[export] Instance eta_PeerHealthData {json : Json} : Eta PeerHealthData := fun r =>
  mkPeerHealth _ (pd_peer_id r) (last_neteq_stats r) (last_video_stats r) (pd_can_listen r) (pd_can_see r) (last_update_ms r).

Record HealthReporter {json : Json} : Type := mkHealthReporter {
  hr_session_id : string;
  hr_meeting_id : string;
  hr_reporting_peer : string;
  peer_health_data : gmap string PeerHealthData;
  hr_send_packet_callback : bool;
  health_interval_ms : Z;
  reporting_audio_enabled : bool;
  reporting_video_enabled : bool;
  active_server_url : option string;
  active_server_type : option string;
  active_server_rtt_ms : option float;
}.

#[export] Instance eta_HealthReporter {json : Json} : Eta HealthReporter := fun r =>
  mkHealthReporter _ (hr_session_id r) (hr_meeting_id r) (hr_reporting_peer r) (peer_health_data r)
    (hr_send_packet_callback r) (health_interval_ms r) (reporting_audio_enabled r) (reporting_video_enabled r)
    (active_server_url r) (active_server_type r) (active_server_rtt_ms r).

(** What the reporting task copies when it starts. *)
Record ReportLoop : Type := mkReportLoop {
  rl_session_id : string;
  rl_meeting_id : string;
  rl_reporting_peer : string;
  rl_interval_ms : Z;
}.

(** [s.split("->")]. *)
Fixpoint split_arrow (s : string) : list string :=
  match s with
  | EmptyString => [EmptyString]
  | String c rest =>
      let whole := match split_arrow rest with h :: t => String c h :: t | [] => [String c EmptyString] end in
      match rest with
      | String c' rest' => if Ascii.eqb c "-" && Ascii.eqb c' ">" then EmptyString :: split_arrow rest' else whole
      | EmptyString => whole
      end
  end.

(** [s.contains(p)]. *)
Fixpoint str_contains (p s : string) : bool :=
  String.prefix p s || match s with EmptyString => false | String _ rest => str_contains p rest end.

(** [x > 0.0]. *)
Definition is_positive_f64 (x : float) : bool := flt (F64.of_Z 0) x.

Section Reporter.
Context {json : Json}.

Definition peer_health_new (peer_id : string) : PeerHealthData := mkPeerHealth _ peer_id None None false false 0.

Definition update_audio_stats (now_ms : Z) (stats : Value) (d : PeerHealthData) : PeerHealthData :=
  d <| last_neteq_stats := Some stats |> <| pd_can_listen := true |> <| last_update_ms := now_ms |>.

Definition update_video_stats (now_ms : Z) (stats : Value) (d : PeerHealthData) : PeerHealthData :=
  d <| last_video_stats := Some stats |> <| pd_can_see := true |> <| last_update_ms := now_ms |>.

Definition mark_audio_timeout (d : PeerHealthData) : PeerHealthData := d <| pd_can_listen := false |>.
Definition mark_video_timeout (d : PeerHealthData) : PeerHealthData := d <| pd_can_see := false |>.

Definition health_reporter_new (session_id reporting_peer : string) (interval_ms : Z) : HealthReporter :=
  mkHealthReporter _ session_id EmptyString reporting_peer ∅ false interval_ms false false None None None.

(** The reporter of a client, with its callback set and its two tasks started. *)
Definition client_reporter (now_secs : Z) (user_id meeting_id : string) (interval_ms : option Z) : HealthReporter :=
  (health_reporter_new ("session_" +:+ show_u64 now_secs) user_id (default 5000 interval_ms))
    <| hr_meeting_id := meeting_id |> <| hr_send_packet_callback := true |>.

(** *** The subscription *)

Definition sender_metric (r : HealthReporter) (m : Metric) : HealthReporter :=
  match m_value m with
  | MU64 v =>
      if String.eqb (m_name m) "sender_audio_enabled" then r <| reporting_audio_enabled := 0 <? v |>
      else if String.eqb (m_name m) "sender_video_enabled" then r <| reporting_video_enabled := 0 <? v |>
      else r
  | _ => r
  end.

Definition server_metric (r : HealthReporter) (m : Metric) : HealthReporter :=
  if String.eqb (m_name m) "active_server_url" then
    match m_value m with MText v => r <| active_server_url := Some v |> | _ => r end
  else if String.eqb (m_name m) "active_server_type" then
    match m_value m with MText v => r <| active_server_type := Some v |> | _ => r end
  else if String.eqb (m_name m) "active_server_rtt" then
    match m_value m with MF64 v => r <| active_server_rtt_ms := Some v |> | _ => r end
  else r.

(** The reporting and the target peer, from the metrics or from the stream. *)
Definition peer_fields (acc : option string * option string) (m : Metric) : option string * option string :=
  match m_value m with
  | MText s =>
      if String.eqb (m_name m) "from_peer" then (Some s, acc.2)
      else if String.eqb (m_name m) "to_peer" then (acc.1, Some s)
      else acc
  | _ => acc
  end.

Definition event_peers (event : DiagEvent) : string * string :=
  let '(reporting, target) := foldl peer_fields (None, None) (ev_metrics event) in
  let '(reporting, target) :=
    if bool_decide (reporting = None) || bool_decide (target = None) then
      match ev_stream_id event with
      | Some sid =>
          match split_arrow sid with
          | [a; b] => (Some (default a reporting), Some (default b target))
          | _ => (reporting, target)
          end
      | None => (reporting, target)
      end
    else (reporting, target) in
  (default "unknown" reporting, default "unknown" target).

Definition neteq_metric (now_ms : Z) (d : PeerHealthData) (m : Metric) : PeerHealthData :=
  if String.eqb (m_name m) "stats_json" then
    match m_value m with
    | MText json_str =>
        match parse_json json_str with
        | Some v => (update_audio_stats now_ms v d) <| pd_can_listen := true |>
        | None => d
        end
    | _ => d
    end
  else if String.eqb (m_name m) "audio_buffer_ms" then
    match m_value m with MU64 buffer_ms => d <| pd_can_listen := 0 <? buffer_ms |> | _ => d end
  else d.

Definition decoder_metric (d : PeerHealthData) (m : Metric) : PeerHealthData :=
  if String.eqb (m_name m) "fps" then
    match m_value m with MF64 fps => d <| pd_can_see := is_positive_f64 fps |> | _ => d end
  else if String.eqb (m_name m) "media_type" then
    match m_value m with
    | MText media_type =>
        if str_contains "AUDIO" media_type then d <| pd_can_listen := true |>
        else if str_contains "VIDEO" media_type || str_contains "SCREEN" media_type then d <| pd_can_see := true |>
        else d
    | _ => d
    end
  else d.

Definition status_metric (d : PeerHealthData) (m : Metric) : PeerHealthData :=
  match m_value m with
  | MU64 v =>
      if String.eqb (m_name m) "audio_enabled" then d <| pd_can_listen := 0 <? v |>
      else if String.eqb (m_name m) "video_enabled" then d <| pd_can_see := 0 <? v |>
      else d
  | _ => d
  end.

(** The statistics being built and the peer they are for. *)
Definition video_metric (acc : Value * PeerHealthData) (m : Metric) : Value * PeerHealthData :=
  let '(video_stats, d) := acc in
  if String.eqb (m_name m) "fps_received" then
    match m_value m with
    | MF64 fps => (json_set "fps_received" (json_f64 fps) video_stats, d <| pd_can_see := is_positive_f64 fps |>)
    | _ => acc
    end
  else if String.eqb (m_name m) "frames_buffered" || String.eqb (m_name m) "packets_buffered" then
    match m_value m with
    | MU64 v => (json_set "frames_buffered" (json_u64 v) video_stats, d)
    | MF64 v => (json_set "frames_buffered" (json_f64 v) video_stats, d)
    | _ => acc
    end
  else if String.eqb (m_name m) "frames_decoded" then
    match m_value m with MU64 v => (json_set "frames_decoded" (json_u64 v) video_stats, d) | _ => acc end
  else if String.eqb (m_name m) "bitrate_kbps" then
    match m_value m with MU64 v => (json_set "bitrate_kbps" (json_u64 v) video_stats, d) | _ => acc end
  else acc.

Definition video_update (now_ms : Z) (event : DiagEvent) (d : PeerHealthData) : PeerHealthData :=
  let video_stats := match last_video_stats d with
                     | Some v => if is_object v then v else json_empty
                     | None => json_empty
                     end in
  let video_stats := json_set "timestamp_ms" (json_u64 (ev_ts_ms event)) video_stats in
  let '(video_stats, d) := foldl video_metric (video_stats, d) (ev_metrics event) in
  update_video_stats now_ms video_stats d.

(** What an event does to the data of its target, when it is of a subsystem that matters. *)
Definition event_update (now_ms : Z) (event : DiagEvent) : option (PeerHealthData -> PeerHealthData) :=
  if String.eqb (subsystem event) "neteq" then Some (fun d => foldl (neteq_metric now_ms) d (ev_metrics event))
  else if String.eqb (subsystem event) "decoder" then Some (fun d => foldl decoder_metric d (ev_metrics event))
  else if String.eqb (subsystem event) "sender" then None
  else if String.eqb (subsystem event) "peer_status" then Some (fun d => foldl status_metric d (ev_metrics event))
  else if String.eqb (subsystem event) "video_decoder" || String.eqb (subsystem event) "video"
  then Some (video_update now_ms event)
  else None.

Definition process_diagnostics_event (now_ms : Z) (event : DiagEvent) (health_map : gmap string PeerHealthData)
    : gmap string PeerHealthData :=
  let target_peer := (event_peers event).2 in
  match event_update now_ms event with
  | Some f => <[target_peer := f (default (peer_health_new target_peer) (health_map !! target_peer))]> health_map
  | None => health_map
  end.

(** One event of the subscription. *)
Definition on_diagnostics_event (now_ms : Z) (event : DiagEvent) (r : HealthReporter) : HealthReporter :=
  let r := if String.eqb (subsystem event) "sender" then foldl sender_metric r (ev_metrics event) else r in
  let r := if String.eqb (subsystem event) "connection_manager" then foldl server_metric r (ev_metrics event) else r in
  r <| peer_health_data := process_diagnostics_event now_ms event (peer_health_data r) |>.

(** *** The reports *)

Definition field_f64 (key : string) (v : Value) : float := default (F64.of_Z 0) (json_get key v ≫= json_as_f64).
Definition field_u64 (key : string) (v : Value) : Z := default 0 (json_get key v ≫= json_as_u64).

Definition counters_of (v : Value) : NetEqOperationCounters :=
  mkCounters (field_f64 "normal_per_sec" v) (field_f64 "expand_per_sec" v) (field_f64 "accelerate_per_sec" v)
    (field_f64 "fast_accelerate_per_sec" v) (field_f64 "preemptive_expand_per_sec" v) (field_f64 "merge_per_sec" v)
    (field_f64 "comfort_noise_per_sec" v) (field_f64 "dtmf_per_sec" v) (field_f64 "undefined_per_sec" v).

Definition neteq_of (v : Value) : NetEqStats :=
  mkNetEqStats (field_f64 "current_buffer_size_ms" v) (field_f64 "packets_awaiting_decode" v)
    ((fun network => mkNetEqNetwork (counters_of <$> json_get "operation_counters" network)) <$> json_get "network" v)
    (field_f64 "packets_per_sec" v).

Definition video_of (v : Value) : VideoStats :=
  mkVideoStats (field_f64 "fps_received" v) (field_f64 "frames_buffered" v) (field_u64 "frames_decoded" v)
    (field_u64 "bitrate_kbps" v).

Definition peer_stats_of (d : PeerHealthData) : PeerStats :=
  mkPeerStats (pd_can_listen d) (pd_can_see d) (pd_can_listen d) (pd_can_see d)
    (neteq_of <$> last_neteq_stats d) (video_of <$> last_video_stats d).

Definition health_packet (now_ms : Z) (l : ReportLoop) (r : HealthReporter) : HealthPacket :=
  mkHealthPacket (rl_session_id l) (rl_meeting_id l) (as_bytes (rl_reporting_peer l)) now_ms
    (reporting_audio_enabled r) (reporting_video_enabled r) (peer_stats_of <$> peer_health_data r)
    (default EmptyString (active_server_url r)) (default EmptyString (active_server_type r))
    (default (F64.of_Z 0) (active_server_rtt_ms r)).

Context {health : HealthWire}.

Definition create_health_packet (now_ms : Z) (l : ReportLoop) (r : HealthReporter) : option PacketWrapper :=
  if bool_decide (peer_health_data r = ∅) then None
  else Some (wrapper_default <| packet_type := HEALTH |> <| pw_user_id := as_bytes (rl_reporting_peer l) |>
               <| pw_data := default [] (write_health (health_packet now_ms l r)) |>).

Definition start_health_reporting (r : HealthReporter) : option ReportLoop :=
  if hr_send_packet_callback r
  then Some (mkReportLoop (hr_session_id r) (hr_meeting_id r) (hr_reporting_peer r) (health_interval_ms r))
  else None.

Definition remove_peer (peer_id : string) (r : HealthReporter) : HealthReporter :=
  r <| peer_health_data := delete peer_id (peer_health_data r) |>.

(** *** Runs *)

Inductive reporter_event : Type :=
| RpEvent (now_ms : Z) (event : DiagEvent)
| RpTick (now_ms : Z)
| RpRemovePeer (peer_id : string)
| RpAudio (enabled : bool)
| RpVideo (enabled : bool).

Definition reporter_step (l : ReportLoop) (r : HealthReporter) (ev : reporter_event) : HealthReporter * list PacketWrapper :=
  match ev with
  | RpEvent now_ms event => (on_diagnostics_event now_ms event r, [])
  | RpTick now_ms => (r, option_list (create_health_packet now_ms l r))
  | RpRemovePeer peer_id => (remove_peer peer_id r, [])
  | RpAudio enabled => (r <| reporting_audio_enabled := enabled |>, [])
  | RpVideo enabled => (r <| reporting_video_enabled := enabled |>, [])
  end.
End Reporter.
