(* ===== verification/HealthReporterProps.v ===== *)
(** * Properties of the health reports

    From the diagnostics bus of a client to the gauges of the metrics server: what is said
    about a peer depends on the events about that peer alone, and what a report says is
    what the gauges show. *)
From Stdlib Require Import Ascii.
From S2P Require Import Prelude Floats Protocol DemoWire Media DemoMedia SessionLogic PeerDecode Diagnostics Connection ConnectionManager HealthMetrics HealthMetricsProps HealthReporter.

(** ** What a packet writes about a peer *)

Lemma apply_writes_agree (l : list (string * list string * float)) m k v :
  (k, v) ∈ l -> (forall v', (k, v') ∈ l -> v' = v) -> apply_writes l m !! k = Some v.
Proof.
  revert m. induction l as [|[k' v'] l IH] using rev_ind; intros m Hin Hall; [by apply not_elem_of_nil in Hin|].
  rewrite apply_writes_app. simpl. destruct (decide (k' = k)) as [->|Hne].
  - rewrite lookup_insert_eq. f_equal. apply Hall. apply elem_of_app. right. by left.
  - rewrite lookup_insert_ne by done. apply IH.
    + apply elem_of_app in Hin as [Hin|Hin]; [done|]. apply list_elem_of_singleton in Hin. congruence.
    + intros v0 H0. apply Hall, elem_of_app. by left.
Qed.

(** The metrics every report sets for each peer, with what they are set to. *)
Definition peer_gauges (d : PeerStats) : list (string * float) :=
  [(PEER_CAN_LISTEN, flag (can_listen d)); (PEER_CAN_SEE, flag (can_see d));
   (PEER_AUDIO_ENABLED, flag (hp_audio_enabled d)); (PEER_VIDEO_ENABLED, flag (hp_video_enabled d))].

Definition GAUGES : list string := [PEER_CAN_LISTEN; PEER_CAN_SEE; PEER_AUDIO_ENABLED; PEER_VIDEO_ENABLED].

Ltac closed := apply (bool_decide_unpack _); vm_compute; exact I.

Lemma peer_gauges_inj d metric v v' : (metric, v) ∈ peer_gauges d -> (metric, v') ∈ peer_gauges d -> v' = v.
Proof.
  assert (NoDup (peer_gauges d).*1) as Hnd by (change (NoDup GAUGES); closed).
  intros H H'. apply (elem_of_list_to_map_1 (M := gmap string)) in H; [|done].
  apply (elem_of_list_to_map_1 (M := gmap string)) in H'; [|done]. congruence.
Qed.

(** A write to one of these gauges is of the value it shows. *)
Definition gauge_write (id : string * string * string) (x : string * PeerStats) (w : string * list string * float) : Prop :=
  w.1.1 ∉ GAUGES \/ (w.1.1, w.2) ∈ peer_gauges x.2 /\ w.1.2 = peer_labels id x.1.

Lemma peer_writes_gauges id x : Forall (gauge_write id x) (peer_writes id x).
Proof.
  assert (forall b m l v, m ∉ GAUGES -> Forall (gauge_write id x) (optional b (m, l, v))) as Ho
    by (intros [] m l v Hm; simpl; [apply Forall_singleton; by left|constructor]).
  unfold peer_writes, neteq_writes, video_writes.
  destruct (neteq_stats x.2) as [[b aw [[[c|]]|] pps]|], (video_stats x.2) as [[fps fb fd kb]|];
    rewrite ?Forall_app; split_and?; first [apply Ho; closed|idtac].
  all: repeat (apply Forall_cons; split); try apply Forall_nil; try done.
  all: first [left; closed|right; split; [|done]; unfold peer_gauges; rewrite !elem_of_cons; tauto].
Qed.

Lemma peer_gauges_written id x metric v : (metric, v) ∈ peer_gauges x.2 ->
  (metric, peer_labels id x.1, v) ∈ peer_writes id x.
Proof.
  unfold peer_writes, peer_gauges. rewrite !elem_of_app, !elem_of_cons.
  intros [[= -> ->]|[[= -> ->]|[[= -> ->]|[[= -> ->]|[]%not_elem_of_nil]]]]; tauto.
Qed.

Section Gauges.
Context (iter_peers : gmap string PeerStats -> list (string * PeerStats)).
Hypothesis visits_peers : forall m, iter_peers m ≡ₚ map_to_list m.

Lemma packet_gauge p peer d metric v m : hp_peer_stats p !! peer = Some d -> (metric, v) ∈ peer_gauges d ->
  apply_writes (packet_writes iter_peers p) m !! (metric, peer_labels (identity p) peer) = Some v.
Proof.
  intros Hp Hg. assert (metric ∈ GAUGES) as HG by (apply (list_elem_of_fmap_2 fst) in Hg; exact Hg).
  assert (bool_decide (hp_peer_stats p = ∅) = false) as He by (apply bool_decide_false; intros E; by rewrite E in Hp).
  apply apply_writes_agree; unfold packet_writes; rewrite He; rewrite ?elem_of_app.
  - right; right; left. apply elem_of_flat_map. exists (peer, d). rewrite visits_peers, elem_of_map_to_list. split; [done|].
    exact (peer_gauges_written (identity p) (peer, d) metric v Hg).
  - intros v'. rewrite !elem_of_app. intros [H|[H|[H|H]]].
    + exfalso. unfold server_writes, optional in H. destruct (has_server p); [|by apply not_elem_of_nil in H].
      apply elem_of_cons in H as [H|H]; [discriminate|]. destruct (nonzero _); [|by apply not_elem_of_nil in H].
      apply list_elem_of_singleton in H. discriminate.
    + exfalso. rewrite !elem_of_cons in H. destruct H as [H|[H|[H|[]%not_elem_of_nil]]]; discriminate.
    + apply elem_of_flat_map in H as ([peer' d'] & Hx & H). rewrite visits_peers, elem_of_map_to_list in Hx.
      pose proof (proj1 (Forall_forall _ _) (peer_writes_gauges (identity p) (peer', d')) _ H) as [Hn|[Hw Hl]]; [done|].
      apply labels_inj in Hl as [_ Hl]. simpl in Hl. subst peer'.
      rewrite Hp in Hx. injection Hx as <-. by eapply peer_gauges_inj.
    + exfalso. apply list_elem_of_singleton in H. injection H as -> _ _. revert HG. apply (bool_decide_unpack _). vm_compute. exact I.
Qed.

Lemma process_gauge now p w peer d metric v : hp_peer_stats p !! peer = Some d -> (metric, v) ∈ peer_gauges d ->
  series (process_health_packet_to_metrics_pb iter_peers now p w) !! (metric, peer_labels (identity p) peer) = Some v.
Proof. intros Hp Hg. destruct (process_eq iter_peers now p w visits_peers) as [-> _]. by apply (packet_gauge p peer d). Qed.
End Gauges.

(** ** From the reporter to the gauges *)

Section Reports.
Context {wire : Wire} {laws : WireLaws} {json : Json} {jlaws : JsonLaws} {health : HealthWire}.
Context (iter_tracker : gmap string SessionInfo -> list (string * SessionInfo)).
Context (iter_peers : gmap string PeerStats -> list (string * PeerStats)).

(** What is written parses back. *)
Definition health_round_trip : Prop := forall p b, write_health p = Some b -> parse_health b = Some p.

(** A report of the client as the media server and then the metrics server take it in. *)
Definition forwarded (region service_type server_id : option string) (now : Z) (data : bytes) (s : SessionLogic)
    : list (string * bytes) :=
  let '(_, _, effects) := handle_inbound now data s in
  effects ≫= fun e => match e with ProcessHealth data => process_health_packet_bytes region service_type server_id data | _ => [] end.

Definition health_topic (region service_type server_id : option string) : string :=
  "health.diagnostics." +:+ default "us-east" region +:+ "." +:+ default "websocket" service_type +:+ "." +:+
  default "server-1" server_id.

Lemma report_forwarded region service_type server_id now t l r s w data payload :
  create_health_packet t l r = Some w -> write_health (health_packet t l r) = Some payload -> health_round_trip ->
  write_wrapper w = Some data ->
  (handle_inbound now data s).1 = (s, Processed) /\
  forwarded region service_type server_id now data s = [(health_topic region service_type server_id, payload)].
Proof.
  intros Ew Ep Hh Ed. apply parse_write_wrapper in Ed. unfold create_health_packet in Ew. rewrite Ep in Ew.
  case_bool_decide; [done|]. injection Ew as <-.
  unfold forwarded, handle_inbound, classify_packet. rewrite Ed. simpl. unfold process_health_packet_bytes.
  rewrite Ed. simpl. rewrite (Hh _ _ Ep). unfold publish_health_to_nats. by rewrite Ep.
Qed.

(** What the gauges say about a peer: whether it can be heard and seen. *)
Definition shows (mw : MetricsServer) (l : ReportLoop) (peer : string) (listen see : bool) : Prop :=
  let labels := [or_unknown (rl_meeting_id l); or_unknown (rl_session_id l);
                 (if bool_decide (as_bytes (rl_reporting_peer l) = []) then "unknown"%string
                  else from_utf8_lossy (as_bytes (rl_reporting_peer l))); peer] in
  series mw !! (PEER_CAN_LISTEN, labels) = Some (flag listen) /\
  series mw !! (PEER_CAN_SEE, labels) = Some (flag see).

Lemma report_shown server_now server_ms topic t l r payload mw :
  (forall m, iter_peers m ≡ₚ map_to_list m) ->
  write_health (health_packet t l r) = Some payload -> health_round_trip -> Z.max 0 (server_ms - t) <= 30000 ->
  exists mw', handle_health_message iter_peers server_now server_ms topic payload mw = Ok mw' /\
    forall peer d, peer_health_data r !! peer = Some d -> shows mw' l peer (pd_can_listen d) (pd_can_see d).
Proof.
  intros Hv Ep Hh Ht. unfold handle_health_message. rewrite (Hh _ _ Ep).
  change (hp_timestamp_ms (health_packet t l r)) with t. rewrite (proj2 (Z.leb_le _ _) Ht). eexists. split; [reflexivity|].
  intros peer d Hd. assert (hp_peer_stats (health_packet t l r) !! peer = Some (peer_stats_of d)) as Hs
    by (unfold health_packet; cbn [hp_peer_stats]; by rewrite lookup_fmap, Hd).
  pose proof (fun metric v => process_gauge iter_peers Hv server_now (health_packet t l r) mw peer _ metric v Hs) as Hg.
  split; [apply (Hg PEER_CAN_LISTEN)|apply (Hg PEER_CAN_SEE)]; unfold peer_gauges; rewrite !elem_of_cons; tauto.
Qed.

(** C34: what a report says is what the gauges show. The packet a client's health reporter
    sends passes through the session of the media server, which keeps it from the room and
    publishes its contents once; the metrics server, if it takes the message within thirty
    seconds of the report, then shows for every peer the reporter knows whether it can be
    heard and seen. *)
Theorem health_reaches_gauges (region service_type server_id : option string) (now server_now server_ms t : Z)
    (l : ReportLoop) (r : HealthReporter) (s : SessionLogic) (w : PacketWrapper) (data payload : bytes) (mw : MetricsServer) :
  (forall m, iter_peers m ≡ₚ map_to_list m) -> health_round_trip ->
  create_health_packet t l r = Some w -> write_health (health_packet t l r) = Some payload ->
  write_wrapper w = Some data -> Z.max 0 (server_ms - t) <= 30000 ->
  (handle_inbound now data s).1 = (s, Processed) /\
  exists topic mw', forwarded region service_type server_id now data s = [(topic, payload)] /\
    handle_health_message iter_peers server_now server_ms topic payload mw = Ok mw' /\
    forall peer d, peer_health_data r !! peer = Some d -> shows mw' l peer (pd_can_listen d) (pd_can_see d).
Proof.
  intros Hv Hh Ew Ep Ed Ht.
  destruct (report_forwarded region service_type server_id now t l r s w data payload Ew Ep Hh Ed) as [E1 E2].
  split; [done|]. destruct (report_shown server_now server_ms (health_topic region service_type server_id) t l r payload mw Hv Ep Hh Ht)
    as (mw' & E3 & H). by exists (health_topic region service_type server_id), mw'.
Qed.

(** ** What is known of a peer *)

(** The event is about the peer. *)
Definition concerns (peer : string) (ev : reporter_event) : Prop :=
  match ev with
  | RpEvent _ event => (event_peers event).2 = peer
  | RpRemovePeer peer_id => peer_id = peer
  | _ => False
  end.

#[local] Instance concerns_dec peer ev : Decision (concerns peer ev).
Proof. destruct ev; simpl; apply _. Defined.

Lemma sender_metrics_data r ms : peer_health_data (foldl sender_metric r ms) = peer_health_data r.
Proof.
  revert r. induction ms as [|m ms IH]; intros r; simpl; [done|]. rewrite IH. unfold sender_metric.
  destruct (m_value m); try done. by repeat destruct (String.eqb _ _).
Qed.

Lemma server_metrics_data r ms : peer_health_data (foldl server_metric r ms) = peer_health_data r.
Proof.
  revert r. induction ms as [|m ms IH]; intros r; simpl; [done|]. rewrite IH. unfold server_metric.
  repeat destruct (String.eqb _ _); by destruct (m_value m).
Qed.

Lemma on_event_data now_ms event r :
  peer_health_data (on_diagnostics_event now_ms event r) = process_diagnostics_event now_ms event (peer_health_data r).
Proof.
  unfold on_diagnostics_event. simpl. f_equal.
  destruct (String.eqb (subsystem event) "sender"), (String.eqb (subsystem event) "connection_manager");
    by rewrite ?server_metrics_data, ?sender_metrics_data.
Qed.

Lemma unconcerned l r peer ev : ~ concerns peer ev ->
  peer_health_data (reporter_step l r ev).1 !! peer = peer_health_data r !! peer.
Proof.
  destruct ev as [now_ms event| |peer_id| |]; cbn [reporter_step fst concerns]; intros Hn; try done.
  - rewrite on_event_data. unfold process_diagnostics_event. destruct (event_update now_ms event); [|done].
    by rewrite lookup_insert_ne.
  - unfold remove_peer. simpl. by rewrite lookup_delete_ne.
Qed.

Lemma concerned l r r' peer ev : peer_health_data r !! peer = peer_health_data r' !! peer ->
  peer_health_data (reporter_step l r ev).1 !! peer = peer_health_data (reporter_step l r' ev).1 !! peer.
Proof.
  intros E. destruct (decide (concerns peer ev)) as [Hc|Hn]; [|by rewrite !unconcerned].
  destruct ev as [now_ms event| |peer_id| |]; cbn [reporter_step fst concerns] in *; try done.
  - subst peer. rewrite !on_event_data. unfold process_diagnostics_event. destruct (event_update now_ms event); [|done].
    by rewrite !lookup_insert_eq, E.
  - subst peer. unfold remove_peer. simpl. by rewrite !lookup_delete_eq.
Qed.

(** What the reporter knows of a peer depends on the events about that peer alone. *)
Theorem peers_are_independent (l : ReportLoop) (r : HealthReporter) (peer : string) (evs : list reporter_event) :
  peer_health_data (run (reporter_step l) r evs).1 !! peer =
  peer_health_data (run (reporter_step l) r (filter (concerns peer) evs)).1 !! peer.
Proof.
  assert (forall r', peer_health_data r !! peer = peer_health_data r' !! peer ->
    peer_health_data (run (reporter_step l) r evs).1 !! peer =
    peer_health_data (run (reporter_step l) r' (filter (concerns peer) evs)).1 !! peer) as H; [|by apply H].
  revert r. induction evs as [|ev evs IH]; intros r r' E; [done|]. rewrite run_fst.
  destruct (decide (concerns peer ev)) as [Hc|Hn].
  - rewrite filter_cons_True, run_fst by done. apply IH. by apply concerned.
  - rewrite filter_cons_False by done. apply IH. by rewrite unconcerned.
Qed.

(** ** The elected server *)

Definition deliver (now_ms : Z) (r : HealthReporter) (events : list DiagEvent) : HealthReporter :=
  foldl (fun r event => on_diagnostics_event now_ms event r) r events.

Lemma server_event_ignored now_ms m id measurement r :
  on_diagnostics_event now_ms (mkDiagEvent "connection_manager" (Some (ms_connection_id measurement)) now_ms
    (server_metrics m id measurement)) r = r.
Proof. unfold on_diagnostics_event, server_metrics. by destruct (ms_average_rtt measurement), r. Qed.

(** Once the connection manager has published its state, a report names the elected server,
    its kind and its round trip time, as far as one has been measured. *)
Theorem elected_server_is_reported (iter : gmap string ServerRttMeasurement -> list (string * ServerRttMeasurement))
    (now : float) (now_ms t : Z) (m : ConnectionManager) (id : string) (elected_at rtt : float)
    (measurement : ServerRttMeasurement) (l : ReportLoop) (r : HealthReporter) :
  election_state m = ElElected id elected_at -> rtt_measurements m !! id = Some measurement ->
  ms_average_rtt measurement = Some rtt ->
  let p := health_packet t l (deliver now_ms r (report_diagnostics iter now now_ms m)) in
  hp_active_server_url p = ms_url measurement /\
  hp_active_server_type p = server_type_name (ms_is_webtransport measurement) /\
  hp_active_server_rtt_ms p = rtt.
Proof.
  intros Ee Em Er. unfold report_diagnostics, deliver. simpl.
  assert (forall ms r0, foldl (fun r event => on_diagnostics_event now_ms event r) r0
    ((fun '(connection_id, measurement) => mkDiagEvent "connection_manager" (Some (ms_connection_id measurement)) now_ms
        (server_metrics m connection_id measurement)) <$> ms) = r0) as Hms.
  { induction ms as [|[i ms0] ms IH]; intros r0; [done|]. cbn [fmap list_fmap foldl]. by rewrite server_event_ignored. }
  rewrite Hms. unfold election_metrics. by rewrite Ee, Em, Er.
Qed.

(** ** A frame rate of any stream makes a peer visible *)

Lemma video_event_sees now_ms event r : subsystem event = "video"%string ->
  exists d, peer_health_data (on_diagnostics_event now_ms event r) !! (event_peers event).2 = Some (video_update now_ms event d).
Proof.
  intros Es. rewrite on_event_data. unfold process_diagnostics_event, event_update. rewrite Es. simpl.
  rewrite lookup_insert_eq. by eexists.
Qed.

Lemma field_set k x v : is_object v = true -> is_finite x = true -> field_f64 k (json_set k (json_f64 x) v) = x.
Proof. intros Ho Hx. unfold field_f64. rewrite get_set by done. simpl. by rewrite as_f64_of_f64, Hx. Qed.

(** What is known of a peer after an event of its streams: it is seen, at that rate. *)
Definition seen_at (fps : float) (d : PeerHealthData) : Prop :=
  pd_can_see d = true /\
  (is_finite fps = true -> exists v, last_video_stats d = Some v /\ hv_fps_received (video_of v) = fps).

Lemma stream_events_see now w peer stream now_ms r :
  exists d, peer_health_data (deliver now_ms r (stream_effects now w peer stream ≫= diagnostics_events now_ms)) !! peer = Some d /\
    seen_at (ft_fps stream.2) d.
Proof.
  destruct stream as [media_type tr]. set (ev := mkDiagEvent "video" None now_ms [metric "fps_received" (MF64 (ft_fps tr));
    metric "bitrate_kbps" (MF64 (ft_current_bitrate tr)); metric "from_peer" (MText (dk_userid w)); metric "to_peer" (MText peer)]).
  assert (exists e, stream_effects now w peer (media_type, tr) ≫= diagnostics_events now_ms = [e; ev]) as [e ->]
    by (unfold stream_effects; destruct (dk_packet_handler w); eexists; reflexivity).
  unfold deliver. cbn [foldl]. destruct (video_event_sees now_ms ev (on_diagnostics_event now_ms e r) eq_refl) as [d Hd].
  eexists. split; [exact Hd|]. clear Hd. split; [by unfold video_update; destruct (foldl video_metric _ _)|].
  intros Hf. eexists. split; [reflexivity|]. apply field_set; [|done]. apply set_is_object.
  destruct (last_video_stats d) as [v|]; [destruct (is_object v) eqn:E|]; auto using empty_is_object.
Qed.

Lemma unconcerned_run l r peer evs : Forall (fun ev => ~ concerns peer ev) evs ->
  peer_health_data (run (reporter_step l) r evs).1 !! peer = peer_health_data r !! peer.
Proof.
  intros H. revert r. induction H as [|ev evs Hn _ IH]; intros r; [done|]. by rewrite run_fst, IH, unconcerned.
Qed.

(** A peer that is only heard is reported as seen. Whatever the kind of the stream and
    whatever its frame rate, zero included, once the client's diagnostics have published
    what they measure of a stream of a peer, every report sent until the next event about
    that peer says, and the metrics server then shows, that the peer can be seen, and gives
    the rate of that stream as the frame rate of the peer's video. *)
Theorem any_stream_is_seen (now : float) (w : DiagnosticWorker) (peer : string) (stream : Z * FpsTracker)
    (now_ms server_now server_ms t : Z) (topic : string) (l : ReportLoop) (r : HealthReporter) (evs : list reporter_event)
    (payload : bytes) (mw : MetricsServer) :
  let r1 := deliver now_ms r (stream_effects now w peer stream ≫= diagnostics_events now_ms) in
  let r2 := (run (reporter_step l) r1 evs).1 in
  Forall (fun ev => ~ concerns peer ev) evs ->
  (forall m, iter_peers m ≡ₚ map_to_list m) -> health_round_trip ->
  write_health (health_packet t l r2) = Some payload -> Z.max 0 (server_ms - t) <= 30000 ->
  (exists mw' listen, handle_health_message iter_peers server_now server_ms topic payload mw = Ok mw' /\
    shows mw' l peer listen true) /\
  (is_finite (ft_fps stream.2) = true -> exists ps vs, hp_peer_stats (health_packet t l r2) !! peer = Some ps /\
    video_stats ps = Some vs /\ hv_fps_received vs = ft_fps stream.2).
Proof.
  intros r1 r2 Hevs Hv Hh Ep Ht. destruct (stream_events_see now w peer stream now_ms r) as (d & Hd & Hs & Hf).
  fold r1 in Hd. rewrite <- (unconcerned_run l r1 peer evs Hevs) in Hd. fold r2 in Hd. split.
  - destruct (report_shown server_now server_ms topic t l r2 payload mw Hv Ep Hh Ht) as (mw' & E & H).
    exists mw', (pd_can_listen d). split; [done|]. rewrite <- Hs. by apply H.
  - intros Hx. destruct (Hf Hx) as (v & Ev & Efps). exists (peer_stats_of d), (video_of v).
    split_and!; [|unfold peer_stats_of; cbn [video_stats]; by rewrite Ev|done].
    unfold health_packet. cbn [hp_peer_stats]. by rewrite lookup_fmap, Hd.
Qed.
End Reports.

(** ** Concrete reports *)

Inductive demo_json : Type :=
| JNull
| JF64 (x : float)
| JU64 (n : Z)
| JObject (fields : list (string * demo_json)).

#[local] Instance demo_values : Json := {|
  Value := demo_json;
  parse_json := fun _ => Some (JObject []);
  json_empty := JObject [];
  is_object := fun v => match v with JObject _ => true | _ => false end;
  json_get := fun k v => match v with JObject l => snd ∘ snd <$> list_find (fun p => p.1 = k) l | _ => None end;
  json_set := fun k x v => match v with JObject l => JObject ((k, x) :: l) | _ => v end;
  json_f64 := fun x => if is_finite x then JF64 x else JNull;
  json_u64 := JU64;
  json_as_f64 := fun v => match v with JF64 x => Some x | JU64 n => Some (F64.of_Z n) | _ => None end;
  json_as_u64 := fun v => match v with JU64 n => Some n | _ => None end;
|}.

#[local] Instance demo_values_laws : JsonLaws.
Proof.
  split; try done.
  - by intros k v [].
  - intros k v []; try done. intros _. simpl. by rewrite decide_True.
  - intros k k' v []; try done. intros _ Hne. simpl. rewrite decide_False by done. simpl.
    by destruct (list_find _ fields) as [[i p]|].
  - intros x. simpl. by destruct (is_finite x).
Qed.

#[local] Instance Counters_eq_dec : EqDecision NetEqOperationCounters.
Proof. solve_decision. Defined.
#[local] Instance Counters_countable : Countable NetEqOperationCounters.
Proof.
  apply (inj_countable' (fun c => (normal_per_sec c, expand_per_sec c, accelerate_per_sec c, fast_accelerate_per_sec c,
      preemptive_expand_per_sec c, merge_per_sec c, comfort_noise_per_sec c, dtmf_per_sec c, undefined_per_sec c))
    (fun '(a, b, c, d, e, f, g, h, i) => mkCounters a b c d e f g h i)). by intros [].
Defined.
#[local] Instance Network_eq_dec : EqDecision NetEqNetwork.
Proof. solve_decision. Defined.
#[local] Instance Network_countable : Countable NetEqNetwork.
Proof. apply (inj_countable' operation_counters mkNetEqNetwork). by intros []. Defined.
#[local] Instance NetEqStats_eq_dec : EqDecision NetEqStats.
Proof. solve_decision. Defined.
#[local] Instance NetEqStats_countable : Countable NetEqStats.
Proof.
  apply (inj_countable' (fun n => (hn_current_buffer_size_ms n, hn_packets_awaiting_decode n, hn_network n, hn_packets_per_sec n))
    (fun '(a, b, c, d) => mkNetEqStats a b c d)). by intros [].
Defined.
#[local] Instance VideoStats_eq_dec : EqDecision VideoStats.
Proof. solve_decision. Defined.
#[local] Instance VideoStats_countable : Countable VideoStats.
Proof.
  apply (inj_countable' (fun v => (hv_fps_received v, hv_frames_buffered v, hv_frames_decoded v, hv_bitrate_kbps v))
    (fun '(a, b, c, d) => mkVideoStats a b c d)). by intros [].
Defined.
#[local] Instance PeerStats_eq_dec : EqDecision PeerStats.
Proof. solve_decision. Defined.
#[local] Instance PeerStats_countable : Countable PeerStats.
Proof.
  apply (inj_countable' (fun p => (can_listen p, can_see p, hp_audio_enabled p, hp_video_enabled p, neteq_stats p, video_stats p))
    (fun '(a, b, c, d, e, f) => mkPeerStats a b c d e f)). by intros [].
Defined.
#[local] Instance HealthPacket_eq_dec : EqDecision HealthPacket.
Proof. solve_decision. Defined.
#[local] Instance HealthPacket_countable : Countable HealthPacket.
Proof.
  apply (inj_countable' (fun p => (hp_session_id p, hp_meeting_id p, hp_reporting_user_id p, hp_timestamp_ms p,
      hp_reporting_audio_enabled p, hp_reporting_video_enabled p, hp_peer_stats p, hp_active_server_url p,
      hp_active_server_type p, hp_active_server_rtt_ms p))
    (fun '(a, b, c, d, e, f, g, h, i, j) => mkHealthPacket a b c d e f g h i j)). by intros [].
Defined.

(** A packet as one number. *)
#[local] Instance demo_packets : HealthWire := {|
  write_health := fun p => Some [Zpos (encode p)];
  parse_health := fun b => match b with [Zpos n] => decode n | _ => None end;
|}.

Lemma demo_packets_round_trip : health_round_trip.
Proof. intros p b [= <-]. simpl. apply decode_encode. Qed.

(** Alice hears and sees Bob. *)
Definition demo_loop : ReportLoop := mkReportLoop "session_1" "standup" "alice" 5000.

Definition demo_reporter : HealthReporter :=
  deliver 900 (client_reporter 1 "alice" "standup" None)
    [mkDiagEvent "peer_status" None 900 [metric "to_peer" (MText "bob"); metric "audio_enabled" (MU64 1); metric "video_enabled" (MU64 1)]].

Lemma health_reaches_witness :
  let s := session_new 7 "standup" "alice" "Alice" false 0 in
  exists w data payload topic mw',
    create_health_packet 1000 demo_loop demo_reporter = Some w /\ write_wrapper (Wire := demo_wire) w = Some data /\
    forwarded (wire := demo_wire) None None None 0 data s = [(topic, payload)] /\
    handle_health_message map_to_list 0 2000 topic payload metrics_server_new = Ok mw' /\
    shows mw' demo_loop "bob" true true.
Proof.
  intros s. set (payload := [Zpos (encode (health_packet 1000 demo_loop demo_reporter))]).
  set (w := wrapper_default <| packet_type := HEALTH |> <| pw_user_id := as_bytes "alice" |> <| pw_data := payload |>).
  destruct (health_reaches_gauges (laws := demo_laws) map_to_list None None None 0 0 2000 1000 demo_loop demo_reporter s w
    (demo_write_wrapper w) payload metrics_server_new) as (_ & topic & mw' & E1 & E2 & H).
  - reflexivity.
  - exact demo_packets_round_trip.
  - reflexivity.
  - reflexivity.
  - reflexivity.
  - discriminate.
  - exists w, (demo_write_wrapper w), payload, topic, mw'. split; [reflexivity|]. split; [reflexivity|]. split; [exact E1|].
    split; [exact E2|]. exact (H "bob" (mkPeerHealth _ "bob" None None true true 0) eq_refl).
Defined.

(** Bob only speaks, and is silent at that: a rate of zero. *)
Lemma any_stream_witness :
  let stream := (AUDIO, tracker_new (F64.of_Z 0) AUDIO) in
  let worker := diagnostic_worker_new (F64.of_Z 0) "alice" in
  let r := deliver 900 (client_reporter 1 "alice" "standup" None)
    (stream_effects (F64.of_Z 0) worker "bob" stream ≫= diagnostics_events 900) in
  exists mw' listen,
    handle_health_message map_to_list 0 2000 "topic" [Zpos (encode (health_packet 1000 demo_loop r))] metrics_server_new = Ok mw' /\
    shows mw' demo_loop "bob" listen true.
Proof.
  intros stream worker r.
  apply (any_stream_is_seen map_to_list (F64.of_Z 0) worker "bob" stream 900 0 2000 1000 "topic" demo_loop
    (client_reporter 1 "alice" "standup" None) [] [Zpos (encode (health_packet 1000 demo_loop r))] metrics_server_new).
  - constructor.
  - reflexivity.
  - exact demo_packets_round_trip.
  - reflexivity.
  - discriminate.
Defined.
