(* ===== verification/Microphone.v ===== *)
(** * The microphone encoder

    videocall-client/src/encode/microphone_encoder.rs with encode/encoder_state.rs,
    audio_constants.rs and the part of audio_worklet_codec.rs it uses: packets of encoded
    audio, with an optional redundant copy of the previous frame, voice activity, and the
    life of the capture tasks that [start] spawns.

    A capture task awaits the microphone and then runs until its monitor, which polls every
    50 ms, sees that the encoder is disabled or that the device is being switched. The
    awaits of one start (the stream, the worklet) are one event, at which the task either
    runs or has failed, before or after its worklet node was made. [None] is a panic. *)
From S2P Require Import Prelude Floats Protocol Media AdaptiveQuality.

(** ** audio_constants.rs *)

Definition DEFAULT_VAD_THRESHOLD : float := F32.lit 2 1000.
Definition RMS_LOUD_SPEECH_CEILING : float := F32.lit 10 100.
Definition AUDIO_LEVEL_DELTA_THRESHOLD : float := F32.lit 2 100.

(** [f32::EPSILON] is 2^-23. *)
Definition F32_EPSILON : float := F32.lit 1 8388608.

Definition rms_to_intensity (rms vad_threshold : float) : float :=
  let range := fmax (F32.sub RMS_LOUD_SPEECH_CEILING vad_threshold) F32_EPSILON in
  let linear := if flt rms vad_threshold then F32.of_Z 0
                else fclamp (F32.div (F32.sub rms vad_threshold) range) (F32.of_Z 0) (F32.of_Z 1) in
  F32.sqrt linear.

(** The root mean square both sides compute, in the order of the loop. *)
Definition sum_squares (samples : list float) : float :=
  foldl (fun sum sample => F32.add sum (F32.mul sample sample)) (F32.of_Z 0) samples.

Definition root_mean_square (samples : list float) : float :=
  F32.sqrt (F32.div (sum_squares samples) (F32.of_Z (Z.of_nat (length samples)))).

(** ** adaptive_quality_constants.rs: redundancy *)

Definition AUDIO_REDUNDANCY_ENABLED : bool := false.
Definition OPUS_FRAME_DURATION_MS : Z := 20.
Definition AUDIO_RED_FORMAT : string := "opus-red".
Definition AUDIO_RED_SEQ_HISTORY_SIZE : nat := 64.

(** ** encoder_state.rs *)

Record EncoderState : Type := mkEncoderState {
  es_enabled : bool;
  es_selected : option string;
  es_switching : bool;
}.

#[export] Instance eta_EncoderState : Eta EncoderState := fun r =>
  mkEncoderState (es_enabled r) (es_selected r) (es_switching r).

Definition encoder_state_new : EncoderState := mkEncoderState false None false.

Definition es_set_enabled (value : bool) (s : EncoderState) : EncoderState * bool :=
  if Bool.eqb value (es_enabled s) then (s, false) else (s <| es_enabled := value |>, true).

Definition es_select (device : string) (s : EncoderState) : EncoderState * bool :=
  let s := s <| es_selected := Some device |> in
  if es_enabled s then (s <| es_switching := true |>, true) else (s, false).

Definition es_stop (s : EncoderState) : EncoderState := s <| es_enabled := false |> <| es_switching := false |>.

(** ** Packets *)

Record PreviousAudioFrame : Type := mkPreviousFrame { pf_data : bytes; pf_sequence : Z }.

(** [u32::to_le_bytes] and [u32::from_le_bytes]. *)
Fixpoint to_le_bytes (n : nat) (z : Z) : bytes :=
  match n with
  | O => []
  | S n => z mod 256 :: to_le_bytes n (z / 256)
  end.

Fixpoint from_le_bytes (b : bytes) : Z :=
  match b with
  | [] => 0
  | x :: b => x + 256 * from_le_bytes b
  end.

Definition pack_redundant_audio (primary : bytes) (redundant : PreviousAudioFrame) : bytes :=
  let primary_len := wrap_u 32 (Z.of_nat (length primary)) in
  let redundant_seq := wrap_u 32 (pf_sequence redundant) in
  to_le_bytes 4 primary_len ++ primary ++ to_le_bytes 4 redundant_seq ++ pf_data redundant.

Section Packets.
Context {wire : Wire} {media : MediaWire} {cipher : Cipher}.

(** The packet before it is written and encrypted. *)
Definition audio_media_packet (now_ms : Z) (chunk : bytes) (sequence : Z) (previous : option PreviousAudioFrame) : MediaPacket :=
  let '(data, format) := match previous with
                         | Some prev => (pack_redundant_audio chunk prev, AUDIO_RED_FORMAT)
                         | None => (chunk, EmptyString)
                         end in
  media_default <| media_type := AUDIO |> <| frame_type := chunk_type_str true |> <| mp_data := data |>
    <| mp_timestamp := F64.of_Z now_ms |>
    <| audio_metadata := Some (mkAudioMetadata format 0 0 (F32.of_Z 0) sequence) |>.

Definition transform_audio_chunk (now_ms : Z) (chunk : bytes) (user_id : string) (sequence : Z) (aes : Aes128State)
    (previous : option PreviousAudioFrame) : option PacketWrapper :=
  data ← write_media (audio_media_packet now_ms chunk sequence previous);
  encrypted ← aes_encrypt aes data;
  Some (wrapper_default <| pw_data := encrypted |> <| pw_user_id := as_bytes user_id |> <| packet_type := MEDIA |>).

(** *** The handler of the worklet's messages *)

(** The state its closure keeps. *)
Record AudioHandler : Type := mkAudioHandler {
  ah_sequence_number : Z;
  ah_previous_frame : option PreviousAudioFrame;
}.

Definition audio_handler_new : AudioHandler := mkAudioHandler 0 None.

(** A message: its field "message" when it is a string, its field "page" when it is an array
    of bytes. *)
Record WorkletMessage : Type := mkWorkletMessage { wm_message : option string; wm_page : option bytes }.

(** [redundancy] is [AUDIO_REDUNDANCY_ENABLED], a constant that can be switched on. *)
Definition audio_output_handler_with (redundancy : bool) (now_ms : Z) (enabled fec : bool) (user_id : string)
    (aes : Aes128State) (chunk : WorkletMessage) (h : AudioHandler) : option (AudioHandler * list PacketWrapper) :=
  if negb enabled then Some (h, [])
  else if match wm_message chunk with Some msg => negb (String.eqb msg "page") | None => false end then Some (h, [])
  else
    match wm_page chunk with
    | Some data =>
        let use_redundancy := redundancy && fec && bool_decide (is_Some (ah_previous_frame h)) in
        let red_ref := if use_redundancy then ah_previous_frame h else None in
        packet ← transform_audio_chunk now_ms data user_id (ah_sequence_number h) aes red_ref;
        Some (mkAudioHandler (ah_sequence_number h +u64 1) (Some (mkPreviousFrame data (ah_sequence_number h))), [packet])
    | None => Some (h, [])
    end.

Definition audio_output_handler (now_ms : Z) (enabled fec : bool) (user_id : string) (aes : Aes128State)
    (chunk : WorkletMessage) (h : AudioHandler) : option (AudioHandler * list PacketWrapper) :=
  audio_output_handler_with AUDIO_REDUNDANCY_ENABLED now_ms enabled fec user_id aes chunk h.
End Packets.

(** ** The encoder *)

Inductive mic_phase : Type := Requesting | Running.

#[export] Instance mic_phase_eq_dec : EqDecision mic_phase.
Proof. solve_decision. Defined.

Record MicTask : Type := mkMicTask {
  tk_device : string;
  tk_phase : mic_phase;
  tk_handler : AudioHandler;
  tk_prev_level : float;
}.

#[export] Instance eta_MicTask : Eta MicTask := fun r =>
  mkMicTask (tk_device r) (tk_phase r) (tk_handler r) (tk_prev_level r).

(** [me_codec] is the task whose worklet node the shared cell holds, [me_vad] the one whose
    interval is in the holder. *)
Record MicrophoneEncoder : Type := mkMicrophone {
  me_state : EncoderState;
  me_codec : option Z;
  me_is_speaking : bool;
  me_vad : option Z;
  me_vad_threshold : float;
  me_tier_enable_fec : bool;
  me_tasks : gmap Z MicTask;
  me_next_task : Z;
}.

#[export] Instance eta_Microphone : Eta MicrophoneEncoder := fun r =>
  mkMicrophone (me_state r) (me_codec r) (me_is_speaking r) (me_vad r) (me_vad_threshold r) (me_tier_enable_fec r)
    (me_tasks r) (me_next_task r).

Inductive mic_effect : Type :=
| MicSend (packet : PacketWrapper)
| MicSpeaking (speaking : bool)
| MicLevel (level : float)
| MicCodec (task : Z) (command : string)
| MicTrackStopped (task : Z)
| MicFailed.

Definition microphone_new (vad_threshold : option float) (fec : bool) : MicrophoneEncoder :=
  mkMicrophone encoder_state_new None false None (default DEFAULT_VAD_THRESHOLD vad_threshold) fec ∅ 0.

(** A message to the worklet fails when there is no node. *)
Definition codec_send (command : string) (m : MicrophoneEncoder) : list mic_effect :=
  match me_codec m with Some task => [MicCodec task command] | None => [] end.

Definition codec_destroy (m : MicrophoneEncoder) : MicrophoneEncoder * list mic_effect :=
  (m <| me_codec := None |>, codec_send "flush" m ++ codec_send "done" m ++ codec_send "close" m).

(** [drop] of the interval, and the reset of what the client shows. *)
Definition silence_vad (m : MicrophoneEncoder) : MicrophoneEncoder * list mic_effect :=
  (m <| me_vad := None |> <| me_is_speaking := false |>, [MicSpeaking false; MicLevel (F32.of_Z 0)]).

Definition mic_set_enabled (value : bool) (m : MicrophoneEncoder) : MicrophoneEncoder * list mic_effect * bool :=
  let '(s, is_changed) := es_set_enabled value (me_state m) in
  let m := m <| me_state := s |> in
  if is_changed then
    if value then (m, codec_send "start" m, true)
    else let '(m', effects) := silence_vad m in (m', codec_send "stop" m ++ effects, true)
  else (m, [], false).

Definition mic_select (device : string) (m : MicrophoneEncoder) : MicrophoneEncoder * bool :=
  let '(s, needs_start) := es_select device (me_state m) in (m <| me_state := s |>, needs_start).

Definition mic_stop (m : MicrophoneEncoder) : MicrophoneEncoder * list mic_effect :=
  let m := m <| me_state := es_stop (me_state m) |> in
  let '(m, e1) := codec_destroy m in
  let '(m, e2) := silence_vad m in
  (m, e1 ++ e2).

Definition mic_start (m : MicrophoneEncoder) : MicrophoneEncoder * list mic_effect :=
  match es_selected (me_state m) with
  | None => (m, [])
  | Some device =>
      if negb (es_enabled (me_state m)) then (m, [])
      else
        let '(m, effects) := if es_switching (me_state m) && bool_decide (is_Some (me_codec m))
                             then mic_stop m else (m, []) in
        if es_enabled (me_state m) && bool_decide (is_Some (me_codec m)) then (m, effects)
        else (m <| me_tasks := <[me_next_task m := mkMicTask device Requesting audio_handler_new (F32.of_Z 0)]> (me_tasks m) |>
                <| me_next_task := me_next_task m + 1 |>, effects)
  end.

Definition on_task (task : Z) (phase : mic_phase) (m : MicrophoneEncoder) : option MicTask :=
  match me_tasks m !! task with
  | Some t => if bool_decide (tk_phase t = phase) then Some t else None
  | None => None
  end.

(** The microphone was granted and the audio graph is connected. *)
Definition mic_granted (task : Z) (m : MicrophoneEncoder) : MicrophoneEncoder * list mic_effect :=
  match on_task task Requesting m with
  | Some t => (m <| me_tasks := <[task := t <| tk_phase := Running |>]> (me_tasks m) |>
                 <| me_codec := Some task |> <| me_vad := Some task |>, [MicCodec task "init"])
  | None => (m, [])
  end.

Definition mic_denied (task : Z) (m : MicrophoneEncoder) : MicrophoneEncoder * list mic_effect :=
  match on_task task Requesting m with
  | Some _ => (m <| me_tasks := delete task (me_tasks m) |>, [MicFailed])
  | None => (m, [])
  end.

(** The microphone was granted and the worklet made, but the audio graph cannot be built:
    the node stays in the shared cell and the track is not stopped. *)
Definition mic_graph_failed (task : Z) (m : MicrophoneEncoder) : MicrophoneEncoder * list mic_effect :=
  match on_task task Requesting m with
  | Some _ => (m <| me_tasks := delete task (me_tasks m) |> <| me_codec := Some task |>, [MicCodec task "init"; MicFailed])
  | None => (m, [])
  end.

(** One turn of the monitor. *)
Definition mic_monitor (task : Z) (m : MicrophoneEncoder) : MicrophoneEncoder * list mic_effect :=
  match on_task task Running m with
  | Some _ =>
      if negb (es_enabled (me_state m)) || es_switching (me_state m) then
        let m := m <| me_state := (me_state m) <| es_switching := false |> |> in
        let '(m, e1) := silence_vad m in
        let '(m, e2) := codec_destroy m in
        (m <| me_tasks := delete task (me_tasks m) |>, e1 ++ [MicTrackStopped task] ++ e2)
      else (m, [])
  | None => (m, [])
  end.

(** One turn of the interval that detects speech, on the samples of the analyser. *)
Definition mic_vad_tick (samples : list float) (m : MicrophoneEncoder) : MicrophoneEncoder * list mic_effect :=
  match me_vad m ≫= (fun task => (fun t => (task, t)) <$> me_tasks m !! task) with
  | Some (task, t) =>
      let set_level level := m <| me_tasks := <[task := t <| tk_prev_level := level |>]> (me_tasks m) |> in
      if negb (es_enabled (me_state m)) || es_switching (me_state m) then
        if flt (F32.of_Z 0) (tk_prev_level t) then (set_level (F32.of_Z 0), [MicLevel (F32.of_Z 0)]) else (m, [])
      else
        let rms := root_mean_square samples in
        let speaking := flt (me_vad_threshold m) rms in
        let intensity := rms_to_intensity rms (me_vad_threshold m) in
        let '(m, e1) := if flt AUDIO_LEVEL_DELTA_THRESHOLD (fabs (F32.sub intensity (tk_prev_level t)))
                        then (set_level intensity, [MicLevel intensity]) else (m, []) in
        if Bool.eqb speaking (me_is_speaking m) then (m, e1)
        else (m <| me_is_speaking := speaking |>, e1 ++ [MicSpeaking speaking])
  | None => (m, [])
  end.

Section Microphone.
Context {wire : Wire} {media : MediaWire} {cipher : Cipher}.
Context (user_id : string) (aes : Aes128State).

(** A message of a task's worklet node. *)
Definition mic_chunk (now_ms task : Z) (chunk : WorkletMessage) (m : MicrophoneEncoder)
    : option (MicrophoneEncoder * list mic_effect) :=
  match on_task task Running m with
  | Some t =>
      match audio_output_handler now_ms (es_enabled (me_state m)) (me_tier_enable_fec m) user_id aes chunk (tk_handler t) with
      | Some (h, packets) => Some (m <| me_tasks := <[task := t <| tk_handler := h |>]> (me_tasks m) |>, MicSend <$> packets)
      | None => None
      end
  | None => Some (m, [])
  end.

Inductive mic_event : Type :=
| MeEnable (value : bool)
| MeSelect (device : string)
| MeStart
| MeStop
| MeGranted (task : Z)
| MeDenied (task : Z)
| MeGraphFailed (task : Z)
| MeMonitor (task : Z)
| MeVad (samples : list float)
| MeChunk (now_ms task : Z) (chunk : WorkletMessage)
| MeTierFec (fec : bool).

(** The outer [option] is a panic of the chunk handler, after which the state is kept. *)
Definition mic_step (m : MicrophoneEncoder) (ev : mic_event) : MicrophoneEncoder * list mic_effect :=
  match ev with
  | MeEnable value => let '(m, effects, _) := mic_set_enabled value m in (m, effects)
  | MeSelect device => ((mic_select device m).1, [])
  | MeStart => mic_start m
  | MeStop => mic_stop m
  | MeGranted task => mic_granted task m
  | MeDenied task => mic_denied task m
  | MeGraphFailed task => mic_graph_failed task m
  | MeMonitor task => mic_monitor task m
  | MeVad samples => mic_vad_tick samples m
  | MeChunk now_ms task chunk => default (m, []) (mic_chunk now_ms task chunk m)
  | MeTierFec fec => (m <| me_tier_enable_fec := fec |>, [])
  end.
End Microphone.
