(* ===== verification/MicrophoneProps.v ===== *)
(** * Properties of the microphone encoder

    A disabled microphone sends nothing, and its capture tasks release their tracks; a task
    numbers its packets one by one; and what goes wrong when the microphone is switched off
    and on again, or another device is chosen, faster than the tasks notice. *)
From S2P Require Import Prelude Floats Protocol Media AdaptiveQuality DemoWire DemoMedia Microphone.

Section Microphone.
Context {wire : Wire} {media : MediaWire} {cipher : Cipher}.
Context (user_id : string) (aes : Aes128State).
Notation step := (mic_step user_id aes).

Fixpoint mic_run (evs : list mic_event) (m : MicrophoneEncoder) : MicrophoneEncoder * list mic_effect :=
  match evs with
  | [] => (m, [])
  | ev :: evs => let '(m, e1) := step m ev in let '(m, e2) := mic_run evs m in (m, e1 ++ e2)
  end.

Definition is_send (e : mic_effect) : Prop := match e with MicSend _ => True | _ => False end.
Definition quiet (effects : list mic_effect) : Prop := Forall (fun e => ~ is_send e) effects.
Definition enabled (m : MicrophoneEncoder) : bool := es_enabled (me_state m).

Lemma quiet_app (a b : list mic_effect) : quiet (a ++ b) <-> quiet a /\ quiet b.
Proof. apply Forall_app. Qed.

Lemma quiet_codec (command : string) (m : MicrophoneEncoder) : quiet (codec_send command m).
Proof. unfold codec_send. destruct (me_codec m); repeat constructor. auto. Qed.

Lemma quiet_destroy (m : MicrophoneEncoder) : quiet (codec_destroy m).2.
Proof. simpl. rewrite !quiet_app. auto using quiet_codec. Qed.

Lemma quiet_silence (m : MicrophoneEncoder) : quiet (silence_vad m).2.
Proof. repeat constructor; auto. Qed.

Lemma quiet_stop (m : MicrophoneEncoder) : quiet (mic_stop m).2.
Proof. unfold mic_stop. simpl. rewrite !quiet_app. repeat split; auto using quiet_codec. repeat constructor; auto. Qed.

(** One step of a disabled microphone. *)
Lemma disabled_step (m : MicrophoneEncoder) (ev : mic_event) : enabled m = false -> ev <> MeEnable true ->
  enabled (step m ev).1 = false /\ quiet (step m ev).2.
Proof.
  unfold enabled. intros Hm Hev. destruct ev as [value|device| | |task|task|task|task|samples|now_ms task chunk|fec]; simpl.
  - destruct value; [done |]. unfold mic_set_enabled, es_set_enabled. rewrite Hm. simpl. split; [done | constructor].
  - unfold mic_select, es_select. simpl. rewrite Hm. split; [done | constructor].
  - unfold mic_start. destruct (es_selected _); [|split; [done | constructor]]. rewrite Hm. split; [done | constructor].
  - split; [done | exact (quiet_stop m)].
  - unfold mic_granted. destruct (on_task _ _ _); (split; [done |]; repeat constructor; auto).
  - unfold mic_denied. destruct (on_task _ _ _); (split; [done |]; repeat constructor; auto).
  - unfold mic_graph_failed. destruct (on_task _ _ _); (split; [done |]; repeat constructor; auto).
  - unfold mic_monitor. destruct (on_task _ _ _); [|split; [done | constructor]]. rewrite Hm. simpl.
    split; [done |]. repeat (apply Forall_cons; split; [by intros [] |]). rewrite !Forall_app.
    split_and!; apply quiet_codec.
  - unfold mic_vad_tick. destruct (me_vad m ≫= _) as [[task t]|]; [|split; [done | constructor]]. rewrite Hm. simpl.
    destruct (flt _ _); (split; [done |]; repeat constructor; auto).
  - unfold mic_chunk. destruct (on_task _ _ _) as [t|]; [|split; [done | constructor]].
    unfold audio_output_handler, audio_output_handler_with. rewrite Hm. simpl. split; [done | constructor].
  - split; [done | constructor].
Qed.

Lemma disabled_run (evs : list mic_event) (m : MicrophoneEncoder) : enabled m = false -> MeEnable true ∉ evs ->
  enabled (mic_run evs m).1 = false /\ quiet (mic_run evs m).2.
Proof.
  revert m. induction evs as [|ev evs IH]; intros m Hm Hevs; simpl; [split; [done | constructor] |].
  destruct (disabled_step m ev Hm) as [H1 H2]; [set_solver |]. destruct (step m ev) as [m1 e1]. simpl in *.
  destruct (IH m1 H1) as [H3 H4]; [set_solver |]. destruct (mic_run evs m1) as [m2 e2]. simpl in *. by rewrite quiet_app.
Qed.

(** The monitor of a running task of a disabled microphone ends it, and only it. *)
Lemma disabled_monitor (m : MicrophoneEncoder) (task : Z) : enabled m = false ->
  enabled (mic_monitor task m).1 = false /\
  match on_task task Running m with
  | Some _ => me_tasks (mic_monitor task m).1 = delete task (me_tasks m) /\ MicTrackStopped task ∈ (mic_monitor task m).2
  | None => mic_monitor task m = (m, [])
  end.
Proof.
  unfold enabled, mic_monitor. intros Hm. destruct (on_task task Running m); [|done]. rewrite Hm. simpl. set_solver.
Qed.

Lemma on_task_delete (task task' : Z) (m m' : MicrophoneEncoder) : task <> task' ->
  me_tasks m' = delete task' (me_tasks m) -> on_task task Running m' = on_task task Running m.
Proof. intros Hne E. unfold on_task. by rewrite E, lookup_delete_ne by done. Qed.

Lemma monitors_release (tasks : list Z) (m : MicrophoneEncoder) : enabled m = false ->
  let '(m', effects) := mic_run (MeMonitor <$> tasks) m in
  forall task, task ∈ tasks -> on_task task Running m' = None /\
    (is_Some (on_task task Running m) -> MicTrackStopped task ∈ effects).
Proof.
  intros Hm. cut (let '(m', effects) := mic_run (MeMonitor <$> tasks) m in
    (forall task, task ∈ tasks -> on_task task Running m' = None) /\
    (forall task, on_task task Running m = None -> on_task task Running m' = None) /\
    (forall task, is_Some (on_task task Running m) -> task ∈ tasks -> MicTrackStopped task ∈ effects)).
  { destruct (mic_run _ m). naive_solver. }
  revert m Hm. induction tasks as [|t tasks IH]; intros m Hm; cbn [mic_run fmap list_fmap]; [set_solver |].
  destruct (disabled_monitor m t Hm) as [Hd Ht]. change (step m (MeMonitor t)) with (mic_monitor t m).
  destruct (mic_monitor t m) as [m1 e1]. simpl in *. specialize (IH m1 Hd).
  destruct (mic_run (MeMonitor <$> tasks) m1) as [m2 e2]. destruct IH as (I1 & I2 & I3).
  assert (forall task, on_task task Running m = None -> on_task task Running m1 = None) as Hnone.
  { intros task E. destruct (on_task t Running m) eqn:Et; [|by simplify_eq].
    destruct Ht as [Ht _]. unfold on_task in *. rewrite Ht. destruct (decide (task = t)) as [->|]; [congruence |].
    by rewrite lookup_delete_ne by done. }
  assert (on_task t Running m1 = None) as Hgone.
  { destruct (on_task t Running m) eqn:Et; [|by simplify_eq]. destruct Ht as [Ht _]. unfold on_task. by rewrite Ht, lookup_delete_eq. }
  split_and!.
  - intros task [-> | Hin]%elem_of_cons; auto.
  - auto.
  - intros task Hs [-> | Hin]%elem_of_cons.
    + destruct (on_task t Running m) eqn:Et; [|by destruct Hs]. set_solver.
    + apply elem_of_app. destruct (decide (task = t)) as [->|Hne].
      * destruct (on_task t Running m) eqn:Et; [|by destruct Hs]. left. set_solver.
      * right. apply I3; [|done]. destruct (on_task t Running m) eqn:Et; [|by simplify_eq].
        destruct Ht as [Ht _]. by rewrite (on_task_delete task t m m1).
Qed.

(** A microphone that was switched off is off. Until it is enabled again nothing is sent,
    whatever else happens: devices chosen, permissions granted late, tasks started and frames
    still delivered by the worklets. And when the monitor of each task had its turn, no task
    runs and the track of every task that ran was stopped. *)
Theorem disabled_microphone_is_off (m : MicrophoneEncoder) (evs : list mic_event) (tasks : list Z) :
  MeEnable true ∉ evs ->
  let m0 := (mic_set_enabled false m).1.1 in
  let '(m1, effects) := mic_run evs m0 in
  quiet (mic_set_enabled false m).1.2 /\ quiet effects /\
  let '(m2, effects2) := mic_run (MeMonitor <$> tasks) m1 in
  quiet effects2 /\
  forall task, task ∈ tasks -> on_task task Running m2 = None /\
    (is_Some (on_task task Running m1) -> MicTrackStopped task ∈ effects2).
Proof.
  intros Hevs m0. assert (enabled m0 = false /\ quiet (mic_set_enabled false m).1.2) as [Hm0 Hq0].
  { unfold m0, enabled, mic_set_enabled, es_set_enabled. destruct (es_enabled (me_state m)) eqn:E; simpl.
    - split; [done |]. apply quiet_app. split; [apply quiet_codec | repeat constructor; auto].
    - split; [done | constructor]. }
  destruct (disabled_run evs m0 Hm0 Hevs) as [H1 Hq1]. destruct (mic_run evs m0) as [m1 effects]. simpl in *.
  split_and!; [done | done |].
  destruct (disabled_run (MeMonitor <$> tasks) m1 H1) as [_ Hq2]; [intros Hin; apply list_elem_of_fmap in Hin as (? & ? & _); done |].
  pose proof (monitors_release tasks m1 H1) as Hr. destruct (mic_run (MeMonitor <$> tasks) m1). done.
Qed.
End Microphone.

(** ** Concrete runs *)

Definition demo_key : Aes128State := mkAes128State true (replicate 16 7) (replicate 16 9).

Notation demo_mic_run := (mic_run (wire := demo_wire) (media := demo_media) (cipher := demo_cipher) "ada" demo_key).

Definition page (b : Z) : WorkletMessage := mkWorkletMessage (Some "page") (Some [b]).

Definition sent (effects : list mic_effect) : list PacketWrapper :=
  omap (fun e => match e with MicSend packet => Some packet | _ => None end) effects.

Definition stopped_tracks (effects : list mic_effect) : list Z :=
  omap (fun e => match e with MicTrackStopped task => Some task | _ => None end) effects.

Lemma disabled_microphone_witness :
  let m := (demo_mic_run [MeSelect "mic"; MeEnable true; MeStart; MeGranted 0; MeChunk 1000 0 (page 1)] (microphone_new None false)).1 in
  let '(m1, effects) := demo_mic_run [MeSelect "usb"; MeStart; MeChunk 1020 0 (page 2)] (mic_set_enabled false m).1.1 in
  quiet effects /\
  let '(m2, effects2) := demo_mic_run [MeMonitor 0] m1 in
  on_task 0 Running m2 = None /\ MicTrackStopped 0 ∈ effects2.
Proof.
  pose proof (disabled_microphone_is_off (wire := demo_wire) (media := demo_media) (cipher := demo_cipher) "ada" demo_key
    (demo_mic_run [MeSelect "mic"; MeEnable true; MeStart; MeGranted 0; MeChunk 1000 0 (page 1)] (microphone_new None false)).1
    [MeSelect "usb"; MeStart; MeChunk 1020 0 (page 2)] [0]) as H.
  cbv zeta. set (m := (demo_mic_run [MeSelect "mic"; _; _; _; _] _).1) in *.
  assert (is_Some (on_task 0 Running (demo_mic_run [MeSelect "usb"; MeStart; MeChunk 1020 0 (page 2)] (mic_set_enabled false m).1.1).1)) as Hrun
    by (vm_compute; eexists; reflexivity).
  cbv zeta in H. destruct (demo_mic_run _ (mic_set_enabled false m).1.1) as [m1 effects]. simpl in Hrun.
  destruct H as (_ & Hq & H); [set_solver |]. change (MeMonitor <$> [0]) with [MeMonitor 0] in H.
  destruct (demo_mic_run [MeMonitor 0] m1) as [m2 effects2]. destruct H as [_ H].
  destruct (H 0 ltac:(set_solver)) as [H1 H2]. auto.
Defined.

(** Switching the microphone off and on while the browser still asks for permission starts a
    second task beside the first: both get the microphone, neither is ended by its monitor,
    and every frame is sent twice, under the same sequence number. *)
Theorem toggled_request_sends_twice :
  let '(m, effects) := demo_mic_run
    [MeSelect "mic"; MeEnable true; MeStart; MeEnable false; MeStop; MeEnable true; MeStart;
     MeGranted 0; MeGranted 1; MeMonitor 0; MeMonitor 1; MeChunk 1000 0 (page 5); MeChunk 1000 1 (page 5)]
    (microphone_new None false) in
  is_Some (on_task 0 Running m) /\ is_Some (on_task 1 Running m) /\
  exists packet, sent effects = [packet; packet].
Proof. vm_compute. split; [eauto |]. split; [eauto |]. eexists. reflexivity. Qed.

(** A change of device takes effect when the task on the old device noticed it before [start]
    is called again. When [start] comes first it stops the encoder, which disables it, and
    the task it then spawns ends as soon as its monitor runs: the microphone stays off. *)
Theorem device_change_needs_the_monitor :
  let running := [MeSelect "mic"; MeEnable true; MeStart; MeGranted 0] in
  let '(m, effects) := demo_mic_run (running ++ [MeSelect "usb"; MeMonitor 0; MeStart; MeGranted 1; MeMonitor 1]) (microphone_new None false) in
  let '(m', _) := demo_mic_run (running ++ [MeSelect "usb"; MeStart; MeMonitor 0; MeGranted 1; MeMonitor 1]) (microphone_new None false) in
  tk_device <$> me_tasks m = {[1 := "usb"%string]} /\ enabled m = true /\ stopped_tracks effects = [0] /\
  me_tasks m' = ∅ /\ enabled m' = false.
Proof.
  vm_compute. repeat split.
Qed.
