(* ===== verification/VideoEncoders.v ===== *)
(** * The camera and screen encoders

    videocall-client/src/encode/camera_encoder.rs and encode/screen_encoder.rs: the tasks that
    [start] spawns, their loops around the encoder of the browser, and the handlers of the
    encoded chunks. The tasks that adapt the settings are in BitrateController.v; here they
    store into the shared cells.

    A task opens its source over several awaits, which are one event with its outcome: the
    cells are read only after the last of them. Then it reads frames: between two reads
    nothing else runs, so that handling a frame and the top of the next turn are one event. A
    failing call of the encoder is only logged. An exception that nothing catches ends a task
    without any of its cleanup; the chunks still in its encoder are handled. *)
From S2P Require Import Prelude Floats Protocol Media AdaptiveQuality Microphone.

(** ** What both encoders do *)

Inductive VideoSource : Type := CameraSource | ScreenSource.

Record EncoderConfig : Type := mkEncoderConfig { cfg_width : Z; cfg_height : Z; cfg_bitrate : Z }.

#[export] Instance eta_EncoderConfig : Eta EncoderConfig := fun r =>
  mkEncoderConfig (cfg_width r) (cfg_height r) (cfg_bitrate r).

(** The cells an encoder shares with its tasks and with the client. *)
Record VideoCells : Type := mkVideoCells {
  vc_state : EncoderState;
  vc_current_bitrate : Z;
  vc_current_fps : Z;
  vc_tier_max_width : Z;
  vc_tier_max_height : Z;
  vc_tier_keyframe_interval : Z;
  vc_force_keyframe : bool;
}.

#[export] Instance eta_VideoCells : Eta VideoCells := fun r =>
  mkVideoCells (vc_state r) (vc_current_bitrate r) (vc_current_fps r) (vc_tier_max_width r) (vc_tier_max_height r)
    (vc_tier_keyframe_interval r) (vc_force_keyframe r).

Definition cells_new (bitrate_kbps : Z) (tiers : list VideoQualityTier) : option VideoCells :=
  default_tier ← tiers !! 0%nat;
  Some (mkVideoCells encoder_state_new bitrate_kbps 0 (vt_max_width default_tier) (vt_max_height default_tier)
          (vt_keyframe_interval_frames default_tier) false).

(** The stores of the control task and of the client. *)
Definition store_settings (bitrate max_width max_height keyframe_interval : Z) (c : VideoCells) : VideoCells :=
  c <| vc_current_bitrate := bitrate |> <| vc_tier_max_width := max_width |> <| vc_tier_max_height := max_height |>
    <| vc_tier_keyframe_interval := keyframe_interval |>.

Definition request_keyframe (c : VideoCells) : VideoCells := c <| vc_force_keyframe := true |>.

(** The variables of a loop. [lo_config] is the configuration made before it. *)
Record EncodeLoop : Type := mkEncodeLoop {
  lo_config : EncoderConfig;
  lo_frame_counter : Z;
  lo_bitrate : Z;
  lo_width : Z;
  lo_height : Z;
  lo_keyframe_interval : Z;
  lo_tier_width : Z;
  lo_tier_height : Z;
}.

#[export] Instance eta_EncodeLoop : Eta EncodeLoop := fun r =>
  mkEncodeLoop (lo_config r) (lo_frame_counter r) (lo_bitrate r) (lo_width r) (lo_height r) (lo_keyframe_interval r)
    (lo_tier_width r) (lo_tier_height r).

(** The camera computes its first bitrate as a float, the screen in 32 bits. *)
Definition loop_new (source : VideoSource) (width height : Z) (c : VideoCells) : EncodeLoop :=
  let local_bitrate := vc_current_bitrate c *u32 1000 in
  let bitrate := match source with CameraSource => vc_current_bitrate c * 1000 | ScreenSource => local_bitrate end in
  mkEncodeLoop (mkEncoderConfig width height bitrate) 0 local_bitrate width height
    (vc_tier_keyframe_interval c) (vc_tier_max_width c) (vc_tier_max_height c).

Definition current_config (l : EncodeLoop) : EncoderConfig := mkEncoderConfig (lo_width l) (lo_height l) (lo_bitrate l).

Definition loop_stops (c : VideoCells) : bool := negb (es_enabled (vc_state c)) || es_switching (vc_state c).

Definition tier_dims_changed (c : VideoCells) (l : EncodeLoop) : bool :=
  negb (vc_tier_max_width c =? lo_tier_width l) || negb (vc_tier_max_height c =? lo_tier_height l).

(** A new tier constrains the dimensions. With the configurations that are applied. *)
Definition follow_tier (c : VideoCells) (l : EncodeLoop) : EncodeLoop * list EncoderConfig :=
  if tier_dims_changed c l then
    let l := l <| lo_tier_width := vc_tier_max_width c |> <| lo_tier_height := vc_tier_max_height c |> in
    let l := l <| lo_width := Z.min (lo_width l) (lo_tier_width l) |> <| lo_height := Z.min (lo_height l) (lo_tier_height l) |> in
    (l, [current_config l])
  else (l, []).

(** The camera changes the configuration of its start, the screen makes a new one. *)
Definition follow_bitrate (source : VideoSource) (tier_changed : bool) (c : VideoCells) (l : EncodeLoop)
    : EncodeLoop * list EncoderConfig :=
  let new_bitrate := vc_current_bitrate c *u32 1000 in
  if new_bitrate =? lo_bitrate l then (l, [])
  else
    let l := l <| lo_bitrate := new_bitrate |> in
    if tier_changed then (l, [])
    else match source with
         | CameraSource => let l := l <| lo_config := (lo_config l) <| cfg_bitrate := new_bitrate |> |> in (l, [lo_config l])
         | ScreenSource => (l, [current_config l])
         end.

(** A turn up to its read, when it is not the last. *)
Definition loop_settings (source : VideoSource) (c : VideoCells) (l : EncodeLoop) : EncodeLoop * list EncoderConfig :=
  let changed := tier_dims_changed c l in
  let '(l, configs1) := follow_tier c l in
  let l := l <| lo_keyframe_interval := vc_tier_keyframe_interval c |> in
  let '(l, configs2) := follow_bitrate source changed c l in
  (l, configs1 ++ configs2).

Definition clamp_dim (dim max : Z) : Z := if 0 <? dim then Z.min dim max else dim.

(** A frame follows the dimensions of its source, within the tier. *)
Definition follow_frame (width height : Z) (l : EncodeLoop) : EncodeLoop * list EncoderConfig :=
  let width := clamp_dim width (lo_tier_width l) in
  let height := clamp_dim height (lo_tier_height l) in
  if (0 <? width) && (0 <? height) && (negb (width =? lo_width l) || negb (height =? lo_height l)) then
    let l := l <| lo_width := width |> <| lo_height := height |> in (l, [current_config l])
  else (l, []).

Definition is_periodic_keyframe (l : EncodeLoop) : bool :=
  (0 <? lo_keyframe_interval l) && (lo_frame_counter l mod lo_keyframe_interval l =? 0).

(** With whether the frame is encoded as a keyframe. *)
Definition encode_frame (width height : Z) (c : VideoCells) (l : EncodeLoop)
    : VideoCells * EncodeLoop * list EncoderConfig * bool :=
  let '(l, configs) := follow_frame width height l in
  let pli_requested := vc_force_keyframe c in
  (c <| vc_force_keyframe := false |>, l <| lo_frame_counter := lo_frame_counter l +u32 1 |>, configs,
   is_periodic_keyframe l || pli_requested).

(** The state of the closure that handles encoded chunks. *)
Record ChunkHandler : Type := mkChunkHandler {
  ch_buffer : bytes;
  ch_sequence_number : Z;
  ch_last_chunk_time : float;
  ch_chunks_in_last_second : Z;
}.

#[export] Instance eta_ChunkHandler : Eta ChunkHandler := fun r =>
  mkChunkHandler (ch_buffer r) (ch_sequence_number r) (ch_last_chunk_time r) (ch_chunks_in_last_second r).

Definition chunk_handler_new (now : float) : ChunkHandler := mkChunkHandler [] 0 now 0.

(** The frame rate of the chunks, stored once a second. *)
Definition count_chunk (now : float) (h : ChunkHandler) (c : VideoCells) : ChunkHandler * VideoCells :=
  let h := h <| ch_chunks_in_last_second := ch_chunks_in_last_second h +u32 1 |> in
  if fle (F64.of_Z 1000) (F64.sub now (ch_last_chunk_time h)) then
    (h <| ch_chunks_in_last_second := 0 |> <| ch_last_chunk_time := now |>,
     c <| vc_current_fps := ch_chunks_in_last_second h |>)
  else (h, c).

Inductive video_effect : Type :=
| VeConfigure (task : Z) (config : EncoderConfig)
| VeEncode (task : Z) (key_frame : bool)
| VeTrackStopped (task : Z)
| VeEncoderClosed (task : Z)
| VeSend (packet : PacketWrapper)
| VeError (task : Z)
| VeThrown (task : Z).

(** A task is opening its source, reads frames, or was ended by an exception. *)
Inductive task_phase : Type := Opening | Encoding (l : EncodeLoop) | Thrown.

Definition phase_loop (p : task_phase) : option EncodeLoop := match p with Encoding l => Some l | _ => None end.

Section Chunks.
Context {wire : Wire} {media : MediaWire} {cipher : Cipher}.
Context (codec : Z) (user_id : string) (aes : Aes128State).

(** [copied] is whether the browser copied the chunk into the buffer. [None] is a panic. *)
Definition output_handler (source : VideoSource) (now : float) (copied : bool) (chunk : EncodedVideoChunk)
    (h : ChunkHandler) (c : VideoCells) : option (ChunkHandler * VideoCells * PacketWrapper) :=
  let '(h, c) := count_chunk now h c in
  let byte_length := length (ck_bytes chunk) in
  let buffer := ch_buffer h ++ replicate (byte_length - length (ch_buffer h)) 0 in
  packet ← match source with
           | CameraSource => transform_video_chunk codec copied chunk (ch_sequence_number h) buffer user_id aes
           | ScreenSource => transform_screen_chunk codec copied chunk (ch_sequence_number h) buffer user_id aes
           end;
  let buffer := if copied then ck_bytes chunk ++ drop byte_length buffer else buffer in
  Some (h <| ch_buffer := buffer |> <| ch_sequence_number := ch_sequence_number h +u64 1 |>, c, packet).
End Chunks.

(** ** camera_encoder.rs *)

Record CameraTask : Type := mkCameraTask {
  ct_device : string;
  ct_phase : task_phase;
  ct_handler : ChunkHandler;
}.

#[export] Instance eta_CameraTask : Eta CameraTask := fun r => mkCameraTask (ct_device r) (ct_phase r) (ct_handler r).

Record CameraEncoder : Type := mkCamera {
  ca_cells : VideoCells;
  ca_tasks : gmap Z CameraTask;
  ca_next_task : Z;
}.

#[export] Instance eta_Camera : Eta CameraEncoder := fun r => mkCamera (ca_cells r) (ca_tasks r) (ca_next_task r).

Definition camera_new (initial_bitrate : Z) : option CameraEncoder :=
  cells ← cells_new initial_bitrate VIDEO_QUALITY_TIERS; Some (mkCamera cells ∅ 0).

Definition camera_set_enabled (value : bool) (ca : CameraEncoder) : CameraEncoder * bool :=
  let '(s, changed) := es_set_enabled value (vc_state (ca_cells ca)) in
  (ca <| ca_cells := (ca_cells ca) <| vc_state := s |> |>, changed).

Definition camera_select (device : string) (ca : CameraEncoder) : CameraEncoder * bool :=
  let '(s, needs_start) := es_select device (vc_state (ca_cells ca)) in
  (ca <| ca_cells := (ca_cells ca) <| vc_state := s |> |>, needs_start).

Definition camera_stop (ca : CameraEncoder) : CameraEncoder :=
  ca <| ca_cells := (ca_cells ca) <| vc_state := es_stop (vc_state (ca_cells ca)) |> |>.

(** Nothing happens without a device; whether the encoder is enabled is not looked at. *)
Definition camera_start (now : float) (ca : CameraEncoder) : CameraEncoder :=
  match es_selected (vc_state (ca_cells ca)) with
  | None => ca
  | Some device =>
      ca <| ca_tasks := <[ca_next_task ca := mkCameraTask device Opening (chunk_handler_new now)]> (ca_tasks ca) |>
         <| ca_next_task := ca_next_task ca + 1 |>
  end.

(** How the opening ends: the video element is missing or the camera is not given; the camera
    was opened but there is no encoder, or no size or processor; or frames can be read. *)
Inductive camera_outcome : Type := CameraRefused | CameraNoEncoder | CameraBroken | CameraReady (width height : Z).

(** The top of a turn: the last one stops the camera. *)
Definition camera_turn (task : Z) (t : CameraTask) (l : EncodeLoop) (ca : CameraEncoder) : CameraEncoder * list video_effect :=
  if loop_stops (ca_cells ca) then
    (ca <| ca_cells := (ca_cells ca) <| vc_state := (vc_state (ca_cells ca)) <| es_switching := false |> |> |>
        <| ca_tasks := delete task (ca_tasks ca) |>, [VeTrackStopped task; VeEncoderClosed task])
  else
    let '(l, configs) := loop_settings CameraSource (ca_cells ca) l in
    (ca <| ca_tasks := <[task := t <| ct_phase := Encoding l |>]> (ca_tasks ca) |>, VeConfigure task <$> configs).

Definition camera_opened (task : Z) (outcome : camera_outcome) (ca : CameraEncoder) : CameraEncoder * list video_effect :=
  match ca_tasks ca !! task with
  | Some (mkCameraTask device Opening handler as t) =>
      match outcome with
      | CameraRefused | CameraNoEncoder => (ca <| ca_tasks := delete task (ca_tasks ca) |>, [VeError task])
      | CameraBroken => (ca <| ca_tasks := <[task := t <| ct_phase := Thrown |>]> (ca_tasks ca) |>, [VeThrown task])
      | CameraReady width height =>
          let l := loop_new CameraSource width height (ca_cells ca) in
          let '(ca, effects) := camera_turn task t l ca in
          (ca, VeConfigure task (lo_config l) :: effects)
      end
  | _ => (ca, [])
  end.

Definition camera_encoding (task : Z) (ca : CameraEncoder) : option (CameraTask * EncodeLoop) :=
  t ← ca_tasks ca !! task; l ← phase_loop (ct_phase t); Some (t, l).

Definition camera_frame (task width height : Z) (ca : CameraEncoder) : CameraEncoder * list video_effect :=
  match camera_encoding task ca with
  | Some (t, l) =>
      let '(cells, l, configs, key_frame) := encode_frame width height (ca_cells ca) l in
      let '(ca, effects) := camera_turn task t l (ca <| ca_cells := cells |>) in
      (ca, (VeConfigure task <$> configs) ++ VeEncode task key_frame :: effects)
  | None => (ca, [])
  end.

(** A failed read is logged, and the loop goes on. *)
Definition camera_read_failed (task : Z) (ca : CameraEncoder) : CameraEncoder * list video_effect :=
  match camera_encoding task ca with
  | Some (t, l) => camera_turn task t l ca
  | None => (ca, [])
  end.

(** The stream of frames has ended: the value is undefined, and reading its width throws. *)
Definition camera_stream_ended (task : Z) (ca : CameraEncoder) : CameraEncoder * list video_effect :=
  match camera_encoding task ca with
  | Some (t, l) => (ca <| ca_tasks := <[task := t <| ct_phase := Thrown |>]> (ca_tasks ca) |>, [VeThrown task])
  | None => (ca, [])
  end.

Section Camera.
Context {wire : Wire} {media : MediaWire} {cipher : Cipher}.
Context (codec : Z) (user_id : string) (aes : Aes128State).

(** A chunk of a task's encoder, which exists once the task has opened its camera. *)
Definition camera_chunk (task : Z) (now : float) (copied : bool) (chunk : EncodedVideoChunk) (ca : CameraEncoder)
    : option (CameraEncoder * list video_effect) :=
  match ca_tasks ca !! task with
  | Some (mkCameraTask device (Encoding _ | Thrown) handler as t) =>
      '(h, cells, packet) ← output_handler codec user_id aes CameraSource now copied chunk handler (ca_cells ca);
      Some (ca <| ca_cells := cells |> <| ca_tasks := <[task := t <| ct_handler := h |>]> (ca_tasks ca) |>, [VeSend packet])
  | _ => Some (ca, [])
  end.

Inductive cam_event : Type :=
| CaEnable (value : bool)
| CaSelect (device : string)
| CaStop
| CaStart (now : float)
| CaOpened (task : Z) (outcome : camera_outcome)
| CaFrame (task width height : Z)
| CaReadFailed (task : Z)
| CaStreamEnded (task : Z)
| CaChunk (task : Z) (now : float) (copied : bool) (chunk : EncodedVideoChunk)
| CaSettings (bitrate max_width max_height keyframe_interval : Z)
| CaKeyframeRequested.

(** After a panic of the chunk handler the state is kept. *)
Definition camera_step (ca : CameraEncoder) (ev : cam_event) : CameraEncoder * list video_effect :=
  match ev with
  | CaEnable value => ((camera_set_enabled value ca).1, [])
  | CaSelect device => ((camera_select device ca).1, [])
  | CaStop => (camera_stop ca, [])
  | CaStart now => (camera_start now ca, [])
  | CaOpened task outcome => camera_opened task outcome ca
  | CaFrame task width height => camera_frame task width height ca
  | CaReadFailed task => camera_read_failed task ca
  | CaStreamEnded task => camera_stream_ended task ca
  | CaChunk task now copied chunk => default (ca, []) (camera_chunk task now copied chunk ca)
  | CaSettings bitrate max_width max_height keyframe_interval =>
      (ca <| ca_cells := store_settings bitrate max_width max_height keyframe_interval (ca_cells ca) |>, [])
  | CaKeyframeRequested => (ca <| ca_cells := request_keyframe (ca_cells ca) |>, [])
  end.

Fixpoint camera_run (evs : list cam_event) (ca : CameraEncoder) : CameraEncoder * list video_effect :=
  match evs with
  | [] => (ca, [])
  | ev :: evs => let '(ca, e1) := camera_step ca ev in let '(ca, e2) := camera_run evs ca in (ca, e1 ++ e2)
  end.
End Camera.

(** ** screen_encoder.rs *)

(** A stream is named by the task that opened it. *)
Inductive ScreenShareEvent : Type := Started (stream : Z) | Cancelled | Stopped | Failed.

Record ScreenTask : Type := mkScreenTask { st_phase : task_phase; st_handler : ChunkHandler }.

#[export] Instance eta_ScreenTask : Eta ScreenTask := fun r => mkScreenTask (st_phase r) (st_handler r).

Record ScreenEncoder : Type := mkScreen {
  sc_cells : VideoCells;
  sc_screen_stream : option Z;
  sc_active_video_track : option Z;
  sc_tasks : gmap Z ScreenTask;
  sc_next_task : Z;
}.

#[export] Instance eta_Screen : Eta ScreenEncoder := fun r =>
  mkScreen (sc_cells r) (sc_screen_stream r) (sc_active_video_track r) (sc_tasks r) (sc_next_task r).

Inductive screen_effect : Type :=
| ScVideo (e : video_effect)
| ScActiveStopped (task : Z)
| ScStreamStopped (stream : Z)
| ScEvent (e : ScreenShareEvent)
| ScAnnounce (enabled : bool).

Definition screen_new (bitrate_kbps : Z) : option ScreenEncoder :=
  cells ← cells_new bitrate_kbps SCREEN_QUALITY_TIERS; Some (mkScreen cells None None ∅ 0).

Definition set_sharing (enabled : bool) (s : ScreenEncoder) : ScreenEncoder :=
  s <| sc_cells := (sc_cells s) <| vc_state := (vc_state (sc_cells s)) <| es_enabled := enabled |> |> |>.

Definition screen_set_enabled (value : bool) (s : ScreenEncoder) : ScreenEncoder * bool :=
  let '(st, changed) := es_set_enabled value (vc_state (sc_cells s)) in
  (s <| sc_cells := (sc_cells s) <| vc_state := st |> |>, changed).

Definition screen_stop (s : ScreenEncoder) : ScreenEncoder * list screen_effect :=
  let track := match sc_active_video_track s with Some task => [ScActiveStopped task] | None => [] end in
  let stream := match sc_screen_stream s with Some stream => [ScStreamStopped stream; ScEvent Stopped] | None => [] end in
  (s <| sc_cells := (sc_cells s) <| vc_state := es_stop (vc_state (sc_cells s)) |> |>
     <| sc_active_video_track := None |> <| sc_screen_stream := None |>,
   ScAnnounce false :: track ++ stream).

Definition screen_start (s : ScreenEncoder) : ScreenEncoder :=
  let s := set_sharing true s in
  s <| sc_tasks := <[sc_next_task s := mkScreenTask Opening (chunk_handler_new (F64.of_Z 0))]> (sc_tasks s) |>
    <| sc_next_task := sc_next_task s + 1 |>.

(** How the opening ends: no media devices at all; the user cancelled, or the browser failed;
    the screen was given, but there is no encoder, no size, a configuration that is refused or
    no processor; or frames can be read. *)
Inductive screen_outcome : Type :=
| ScreenNoDevices
| ScreenCancelled
| ScreenFailed
| ScreenNoEncoder
| ScreenNoSize
| ScreenRefused
| ScreenNoProcessor (width height : Z)
| ScreenReady (now : float) (width height : Z).

(** What follows the loop. *)
Definition screen_finish (task : Z) (s : ScreenEncoder) : ScreenEncoder * list screen_effect :=
  let s := s <| sc_active_video_track := None |> <| sc_tasks := delete task (sc_tasks s) |> in
  let stopped := [ScVideo (VeTrackStopped task); ScStreamStopped task] in
  if es_enabled (vc_state (sc_cells s)) then (set_sharing false s, stopped ++ [ScAnnounce false; ScEvent Stopped])
  else (s, stopped).

Definition screen_turn (task : Z) (t : ScreenTask) (l : EncodeLoop) (s : ScreenEncoder) : ScreenEncoder * list screen_effect :=
  if loop_stops (sc_cells s) then
    let s := s <| sc_cells := (sc_cells s) <| vc_state := (vc_state (sc_cells s)) <| es_switching := false |> |> |> in
    let '(s, effects) := screen_finish task s in
    (s, ScVideo (VeTrackStopped task) :: ScVideo (VeEncoderClosed task) :: effects)
  else
    let '(l, configs) := loop_settings ScreenSource (sc_cells s) l in
    (s <| sc_tasks := <[task := t <| st_phase := Encoding l |>]> (sc_tasks s) |>, ScVideo ∘ VeConfigure task <$> configs).

(** [cleanup_on_error]. *)
Definition cleanup_on_error (task : Z) (s : ScreenEncoder) : ScreenEncoder * list screen_effect :=
  (set_sharing false s <| sc_tasks := delete task (sc_tasks s) |>, [ScStreamStopped task; ScEvent Failed]).

Definition screen_opened (task : Z) (outcome : screen_outcome) (s : ScreenEncoder) : ScreenEncoder * list screen_effect :=
  match sc_tasks s !! task with
  | Some (mkScreenTask Opening handler as t) =>
      let dead s := s <| sc_tasks := <[task := t <| st_phase := Thrown |>]> (sc_tasks s) |> in
      let given := s <| sc_screen_stream := Some task |> in
      let tracked := given <| sc_active_video_track := Some task |> in
      match outcome with
      | ScreenNoDevices => (dead s, [ScVideo (VeThrown task)])
      | ScreenCancelled => (set_sharing false s <| sc_tasks := delete task (sc_tasks s) |>, [ScEvent Cancelled])
      | ScreenFailed => (set_sharing false s <| sc_tasks := delete task (sc_tasks s) |>, [ScEvent Failed])
      | ScreenNoEncoder => cleanup_on_error task given
      | ScreenNoSize => (dead tracked, [ScVideo (VeThrown task)])
      | ScreenRefused => cleanup_on_error task tracked
      | ScreenNoProcessor width height =>
          let '(s, effects) := cleanup_on_error task tracked in
          (s, ScVideo (VeConfigure task (lo_config (loop_new ScreenSource width height (sc_cells s)))) :: effects)
      | ScreenReady now width height =>
          let l := loop_new ScreenSource width height (sc_cells s) in
          let '(s, effects) := screen_turn task (t <| st_handler := chunk_handler_new now |>) l tracked in
          (s, ScVideo (VeConfigure task (lo_config l)) :: ScAnnounce true :: ScEvent (Started task) :: effects)
      end
  | _ => (s, [])
  end.

Definition screen_encoding (task : Z) (s : ScreenEncoder) : option (ScreenTask * EncodeLoop) :=
  t ← sc_tasks s !! task; l ← phase_loop (st_phase t); Some (t, l).

Definition screen_frame (task width height : Z) (s : ScreenEncoder) : ScreenEncoder * list screen_effect :=
  match screen_encoding task s with
  | Some (t, l) =>
      let '(cells, l, configs, key_frame) := encode_frame width height (sc_cells s) l in
      let '(s, effects) := screen_turn task t l (s <| sc_cells := cells |>) in
      (s, (ScVideo ∘ VeConfigure task <$> configs) ++ ScVideo (VeEncode task key_frame) :: effects)
  | None => (s, [])
  end.

(** The stream has ended, or a read failed: the loop ends with its encoder open. *)
Definition screen_stream_ended (task : Z) (s : ScreenEncoder) : ScreenEncoder * list screen_effect :=
  match screen_encoding task s with
  | Some _ => screen_finish task s
  | None => (s, [])
  end.

(** The user stops sharing in the browser: the handler of the track, while the loop runs. *)
Definition screen_onended (task : Z) (s : ScreenEncoder) : ScreenEncoder * list screen_effect :=
  match screen_encoding task s with
  | Some _ => (set_sharing false s, [ScAnnounce false; ScEvent Stopped])
  | None => (s, [])
  end.

Section Screen.
Context {wire : Wire} {media : MediaWire} {cipher : Cipher}.
Context (codec : Z) (user_id : string) (aes : Aes128State).

Definition screen_chunk (task : Z) (now : float) (copied : bool) (chunk : EncodedVideoChunk) (s : ScreenEncoder)
    : option (ScreenEncoder * list screen_effect) :=
  match screen_encoding task s with
  | Some (t, _) =>
      '(h, cells, packet) ← output_handler codec user_id aes ScreenSource now copied chunk (st_handler t) (sc_cells s);
      Some (s <| sc_cells := cells |> <| sc_tasks := <[task := t <| st_handler := h |>]> (sc_tasks s) |>,
            [ScVideo (VeSend packet)])
  | None => Some (s, [])
  end.

Inductive scr_event : Type :=
| ScEnable (value : bool)
| ScStop
| ScStart
| ScOpened (task : Z) (outcome : screen_outcome)
| ScFrame (task width height : Z)
| ScStreamEnded (task : Z)
| ScOnEnded (task : Z)
| ScChunk (task : Z) (now : float) (copied : bool) (chunk : EncodedVideoChunk)
| ScSettings (bitrate max_width max_height keyframe_interval : Z)
| ScKeyframeRequested.

Definition screen_step (s : ScreenEncoder) (ev : scr_event) : ScreenEncoder * list screen_effect :=
  match ev with
  | ScEnable value => ((screen_set_enabled value s).1, [])
  | ScStop => screen_stop s
  | ScStart => (screen_start s, [])
  | ScOpened task outcome => screen_opened task outcome s
  | ScFrame task width height => screen_frame task width height s
  | ScStreamEnded task => screen_stream_ended task s
  | ScOnEnded task => screen_onended task s
  | ScChunk task now copied chunk => default (s, []) (screen_chunk task now copied chunk s)
  | ScSettings bitrate max_width max_height keyframe_interval =>
      (s <| sc_cells := store_settings bitrate max_width max_height keyframe_interval (sc_cells s) |>, [])
  | ScKeyframeRequested => (s <| sc_cells := request_keyframe (sc_cells s) |>, [])
  end.

Fixpoint screen_run (evs : list scr_event) (s : ScreenEncoder) : ScreenEncoder * list screen_effect :=
  match evs with
  | [] => (s, [])
  | ev :: evs => let '(s, e1) := screen_step s ev in let '(s, e2) := screen_run evs s in (s, e1 ++ e2)
  end.
End Screen.
