(* ===== verification/VideoEncoderProps.v ===== *)
(** * Properties of the camera and screen encoders

    What the loops apply to the encoder of the browser, when keyframes are made, and when the
    camera and the screen are off. *)
From S2P Require Import Prelude Floats VideoWorker Protocol DemoWire Media OrderedMap PeerDecode DemoMedia AdaptiveQuality.
From S2P Require Import BitrateController Diagnostics Connection ConnectionManager Client ClientProps Microphone MicrophoneProps VideoEncoders.

(** ** The configuration of the encoder *)

(** The turns of a loop that goes on: at each a frame is read and encoded, then the cells,
    which may have changed meanwhile, are followed. With the configurations, in order. *)
Fixpoint loop_run (source : VideoSource) (turns : list (Z * Z * VideoCells)) (l : EncodeLoop) : EncodeLoop * list EncoderConfig :=
  match turns with
  | [] => (l, [])
  | (width, height, c) :: turns =>
      let '(l, configs1) := follow_frame width height l in
      let '(l, configs2) := loop_settings source c (l <| lo_frame_counter := lo_frame_counter l +u32 1 |>) in
      let '(l, configs3) := loop_run source turns l in
      (l, configs1 ++ configs2 ++ configs3)
  end.

(** What the encoder was last configured to. *)
Definition applied (config : EncoderConfig) (configs : list EncoderConfig) : EncoderConfig := default config (last configs).

Lemma applied_app (config : EncoderConfig) (xs ys : list EncoderConfig) : applied config (xs ++ ys) = applied (applied config xs) ys.
Proof. unfold applied. rewrite last_app. by destruct (last ys). Qed.

Lemma applied_cons (config x : EncoderConfig) : applied config [x] = x.
Proof. done. Qed.

Definition separately (c : VideoCells) (l : EncodeLoop) : bool :=
  negb (tier_dims_changed c l) || (vc_current_bitrate c *u32 1000 =? lo_bitrate l).

Lemma follow_frame_applied (width height : Z) (config : EncoderConfig) (l : EncodeLoop) :
  config = current_config l ->
  let '(l', configs) := follow_frame width height l in
  applied config configs = current_config l' /\ lo_bitrate l' = lo_bitrate l /\
  lo_tier_width l' = lo_tier_width l /\ lo_tier_height l' = lo_tier_height l /\
  (0 < clamp_dim width (lo_tier_width l) -> 0 < clamp_dim height (lo_tier_height l) ->
   lo_width l' = clamp_dim width (lo_tier_width l) /\ lo_height l' = clamp_dim height (lo_tier_height l)).
Proof.
  intros ->. unfold follow_frame. cbn zeta. destruct (_ && _ && _) eqn:E; [by split_and! |].
  split_and!; [done..|]. intros Hw Hh.
  apply andb_false_iff in E as [E%andb_false_iff | E].
  - destruct E as [E | E]; apply Z.ltb_ge in E; lia.
  - apply orb_false_iff in E as [E1%negb_false_iff%Z.eqb_eq E2%negb_false_iff%Z.eqb_eq]. done.
Qed.

Lemma loop_settings_applied (c : VideoCells) (config : EncoderConfig) (l : EncodeLoop) :
  config = current_config l -> separately c l = true ->
  let '(l', configs) := loop_settings ScreenSource c l in
  applied config configs = current_config l' /\ lo_bitrate l' = vc_current_bitrate c *u32 1000 /\
  lo_tier_width l' = vc_tier_max_width c /\ lo_tier_height l' = vc_tier_max_height c /\
  lo_width l' <= lo_width l /\ lo_height l' <= lo_height l.
Proof.
  intros -> Hs. unfold loop_settings, follow_tier, follow_bitrate, separately in *.
  destruct (tier_dims_changed c l) eqn:Et; simpl in *.
  - rewrite Hs. simpl. apply Z.eqb_eq in Hs. split_and!; try done; lia.
  - unfold tier_dims_changed in Et. apply orb_false_iff in Et as [E1%negb_false_iff%Z.eqb_eq E2%negb_false_iff%Z.eqb_eq].
    destruct (_ =? lo_bitrate l) eqn:Eb; simpl.
    + apply Z.eqb_eq in Eb. split_and!; try done; lia.
    + split_and!; try done; lia.
Qed.

(** The loop has followed these cells. *)
Definition synced (c : VideoCells) (l : EncodeLoop) : Prop :=
  lo_bitrate l = vc_current_bitrate c *u32 1000 /\ lo_tier_width l = vc_tier_max_width c /\ lo_tier_height l = vc_tier_max_height c.

Definition same_dims (c c' : VideoCells) : Prop :=
  vc_tier_max_width c' = vc_tier_max_width c /\ vc_tier_max_height c' = vc_tier_max_height c.

(** From one turn to the next the tier or the bitrate is as before. *)
Fixpoint one_at_a_time (c : VideoCells) (turns : list (Z * Z * VideoCells)) : Prop :=
  match turns with
  | [] => True
  | (_, _, c') :: turns => (same_dims c c' \/ vc_current_bitrate c' = vc_current_bitrate c) /\ one_at_a_time c' turns
  end.

Definition last_cells (c : VideoCells) (turns : list (Z * Z * VideoCells)) : VideoCells := default c (snd <$> last turns).

Lemma last_cells_cons (c : VideoCells) (turn : Z * Z * VideoCells) (turns : list (Z * Z * VideoCells)) :
  last_cells c (turn :: turns) = last_cells turn.2 turns.
Proof. unfold last_cells. rewrite last_cons. by destruct (last turns). Qed.

Lemma synced_unchanged (c c' : VideoCells) (l : EncodeLoop) : synced c l -> same_dims c c' -> tier_dims_changed c' l = false.
Proof. intros (_ & H1 & H2) [H3 H4]. unfold tier_dims_changed. by rewrite H1, H2, H3, H4, !Z.eqb_refl. Qed.

Lemma separately_of (c c' : VideoCells) (l : EncodeLoop) :
  synced c l -> same_dims c c' \/ vc_current_bitrate c' = vc_current_bitrate c -> separately c' l = true.
Proof.
  intros Hs [H | H]; unfold separately.
  - by rewrite (synced_unchanged c c' l).
  - destruct Hs as (-> & _). rewrite H, Z.eqb_refl. apply orb_true_r.
Qed.

Definition positive_turn (turn : Z * Z * VideoCells) : Prop :=
  let '(width, height, c) := turn in 0 < width /\ 0 < height /\ 0 < vc_tier_max_width c /\ 0 < vc_tier_max_height c.

(** One turn of the screen's loop. *)
Lemma screen_turn_applied (c c' : VideoCells) (width height : Z) (l : EncodeLoop) :
  synced c l -> 0 < vc_tier_max_width c -> 0 < vc_tier_max_height c -> positive_turn (width, height, c') ->
  same_dims c c' \/ vc_current_bitrate c' = vc_current_bitrate c ->
  let '(l1, configs1) := follow_frame width height l in
  let '(l2, configs2) := loop_settings ScreenSource c' (l1 <| lo_frame_counter := lo_frame_counter l1 +u32 1 |>) in
  applied (current_config l) (configs1 ++ configs2) = current_config l2 /\ synced c' l2 /\
  lo_width l2 <= vc_tier_max_width c' /\ lo_height l2 <= vc_tier_max_height c'.
Proof.
  intros Hs Hw0 Hh0 (Hw & Hh & Hw' & Hh') Hc. pose proof (follow_frame_applied width height _ l eq_refl) as Hf.
  destruct (follow_frame width height l) as [l1 configs1] eqn:E1. destruct Hf as (Ha & Hb & Htw & Hth & Hd).
  assert (synced c l1) as Hs1 by (destruct Hs as (? & ? & ?); unfold synced; rewrite Hb, Htw, Hth; done).
  pose proof (loop_settings_applied c' _ (l1 <| lo_frame_counter := lo_frame_counter l1 +u32 1 |>) eq_refl) as Hl.
  destruct (loop_settings _ _ _) as [l2 configs2] eqn:E2. destruct Hl as (Ha2 & Hb2 & Hw2 & Hh2 & Hm1 & Hm2).
  { by apply (separately_of c). }
  rewrite applied_app, Ha. simpl in *. split_and!; [exact Ha2 | done | |].
  all: destruct Hs as (_ & Hsw & Hsh); rewrite Hsw, Hsh in Hd; unfold clamp_dim in Hd;
    rewrite (proj2 (Z.ltb_lt 0 width)), (proj2 (Z.ltb_lt 0 height)) in Hd by done.
  all: destruct Hd as [Hd1 Hd2]; [lia | lia |].
  - clear Ha2. unfold loop_settings, follow_tier in E2. destruct (tier_dims_changed c' _) eqn:Et.
    + unfold follow_bitrate in E2. repeat case_match; simplify_eq/=; lia.
    + unfold tier_dims_changed in Et. apply orb_false_iff in Et as [Et1%negb_false_iff%Z.eqb_eq _]. simpl in Et1. lia.
  - clear Ha2. unfold loop_settings, follow_tier in E2. destruct (tier_dims_changed c' _) eqn:Et.
    + unfold follow_bitrate in E2. repeat case_match; simplify_eq/=; lia.
    + unfold tier_dims_changed in Et. apply orb_false_iff in Et as [_ Et2%negb_false_iff%Z.eqb_eq]. simpl in Et2. lia.
Qed.

(** The screen's encoder follows its settings: as long as the tier and the bitrate do not
    change between the same two frames, after every turn the encoder is configured to the
    bitrate of the cells and to dimensions within the tier, whatever sizes the frames have. *)
Theorem screen_encoder_follows_settings (turns : list (Z * Z * VideoCells)) (c : VideoCells) (l : EncodeLoop) :
  synced c l -> 0 < vc_tier_max_width c -> 0 < vc_tier_max_height c -> Forall positive_turn turns -> one_at_a_time c turns -> turns <> [] ->
  let config := applied (current_config l) (loop_run ScreenSource turns l).2 in
  cfg_bitrate config = vc_current_bitrate (last_cells c turns) *u32 1000 /\
  cfg_width config <= vc_tier_max_width (last_cells c turns) /\ cfg_height config <= vc_tier_max_height (last_cells c turns).
Proof.
  intros Hs Hw Hh Hp Ho Hne. revert c l Hs Hw Hh Ho. induction Hp as [|[[width height] c'] turns Hx Hp IH]; intros c l Hs Hw Hh Ho; [done |].
  destruct Ho as [Hc Ho]. rewrite last_cells_cons. cbn [snd loop_run].
  pose proof (screen_turn_applied c c' width height l Hs Hw Hh Hx Hc) as Ht.
  destruct (follow_frame width height l) as [l1 configs1]. destruct (loop_settings _ _ _) as [l2 configs2].
  destruct Ht as (Ha & Hs2 & Hw2 & Hh2). destruct Hx as (_ & _ & Hw' & Hh').
  destruct turns as [|turn turns].
  - simpl. rewrite app_nil_r. rewrite Ha. simpl. destruct Hs2 as (-> & _). done.
  - destruct (loop_run ScreenSource (turn :: turns) l2) as [l3 configs3] eqn:E3.
    cbn zeta. cbn [snd]. rewrite app_assoc, applied_app, Ha.
    specialize (IH ltac:(done) c' l2 Hs2 Hw' Hh' Ho). rewrite E3 in IH. exact IH.
Qed.

(** Nothing is configured while the cells are the same and the frames fit. *)
Lemma steady (source : VideoSource) (turns : list (Z * Z * VideoCells)) (c : VideoCells) (l : EncodeLoop) :
  synced c l ->
  Forall (fun '(width, height, c') => same_dims c c' /\ vc_current_bitrate c' = vc_current_bitrate c /\
                                      clamp_dim width (lo_tier_width l) = lo_width l /\ clamp_dim height (lo_tier_height l) = lo_height l) turns ->
  (loop_run source turns l).2 = [].
Proof.
  intros Hs Ht. revert l Hs Ht. induction turns as [|[[width height] c'] turns IH]; intros l Hs Ht; [done |].
  apply Forall_cons in Ht as [(Hd & Hb & Hw & Hh) Ht]. cbn [loop_run].
  assert (follow_frame width height l = (l, [])) as ->
    by (unfold follow_frame; rewrite Hw, Hh, !Z.eqb_refl; by rewrite andb_false_r).
  unfold loop_settings, follow_tier. rewrite (synced_unchanged c c') by done.
  unfold follow_bitrate. destruct Hs as (Hsb & Hsw & Hsh). cbn [lo_bitrate]. simpl. rewrite Hb, Hsb, Z.eqb_refl. simpl.
  match goal with |- context [loop_run source turns ?l'] => specialize (IH l') end.
  destruct (loop_run source turns _) as [l3 configs3]. simpl in *. rewrite IH; [done | done |].
  eapply Forall_impl; [exact Ht |]. intros [[? ?] ?]. naive_solver.
Qed.

(** When the bitrate changes together with the tier, as it does when the quality steps down,
    the encoder of either source gets the dimensions of the new tier with the old bitrate; it
    keeps it for as long as the settings stay and the frames fit. *)
Theorem tier_change_loses_bitrate (source : VideoSource) (c c' : VideoCells) (l : EncodeLoop) (turns : list (Z * Z * VideoCells)) :
  synced c l -> ~ same_dims c c' ->
  let '(l1, configs) := loop_settings source c' l in
  Forall (fun '(width, height, c'') => c'' = c' /\ clamp_dim width (vc_tier_max_width c') = lo_width l1 /\
                                       clamp_dim height (vc_tier_max_height c') = lo_height l1) turns ->
  applied (current_config l) (configs ++ (loop_run source turns l1).2) =
    mkEncoderConfig (Z.min (lo_width l) (vc_tier_max_width c')) (Z.min (lo_height l) (vc_tier_max_height c'))
      (vc_current_bitrate c *u32 1000).
Proof.
  intros Hs Hd. assert (tier_dims_changed c' l = true) as Hch.
  { destruct (tier_dims_changed c' l) eqn:E; [done |]. destruct Hd. unfold tier_dims_changed in E. destruct Hs as (_ & H1 & H2).
    apply orb_false_iff in E as [E1%negb_false_iff%Z.eqb_eq E2%negb_false_iff%Z.eqb_eq]. split; congruence. }
  destruct (loop_settings source c' l) as [l1 configs] eqn:E. intros Ht.
  assert (synced c' l1 /\ configs = [mkEncoderConfig (Z.min (lo_width l) (vc_tier_max_width c'))
      (Z.min (lo_height l) (vc_tier_max_height c')) (vc_current_bitrate c *u32 1000)]) as [Hs1 ->].
  { unfold loop_settings, follow_tier, follow_bitrate in E. rewrite Hch in E. destruct Hs as (Hsb & _). simpl in E. unfold current_config in E.
    destruct (_ =? _) eqn:Eb in E; simplify_eq/=; rewrite Hsb; unfold synced; simpl; split; try done.
    apply Z.eqb_eq in Eb. split_and!; [congruence | done..]. }
  rewrite (steady source turns c' l1 Hs1); [done |]. destruct Hs1 as (_ & -> & ->).
  eapply Forall_impl; [exact Ht |]. intros [[? ?] ?] (-> & ? & ?). by split_and!.
Qed.

(** A change of the bitrate alone gives the camera's encoder the size the camera had when it
    was opened, whatever the tier allows, until the tier or the size of the frames changes. *)
Theorem bitrate_change_undoes_tier (c c' : VideoCells) (l : EncodeLoop) (turns : list (Z * Z * VideoCells)) :
  synced c l -> same_dims c c' -> vc_current_bitrate c' *u32 1000 <> vc_current_bitrate c *u32 1000 ->
  Forall (fun '(width, height, c'') => c'' = c' /\ clamp_dim width (lo_tier_width l) = lo_width l /\
                                       clamp_dim height (lo_tier_height l) = lo_height l) turns ->
  let '(l1, configs) := loop_settings CameraSource c' l in
  applied (current_config l) (configs ++ (loop_run CameraSource turns l1).2) =
    mkEncoderConfig (cfg_width (lo_config l)) (cfg_height (lo_config l)) (vc_current_bitrate c' *u32 1000).
Proof.
  intros Hs Hd Hb Ht. destruct (loop_settings CameraSource c' l) as [l1 configs] eqn:E.
  unfold loop_settings, follow_tier in E. rewrite (synced_unchanged c c') in E by done.
  unfold follow_bitrate in E. simpl in E. destruct Hs as (Hsb & Hsw & Hsh). rewrite Hsb, (proj2 (Z.eqb_neq _ _) Hb) in E. simplify_eq/=.
  rewrite (steady CameraSource turns c'); [done | |].
  - destruct Hd. unfold synced. simpl. split_and!; congruence.
  - simpl. eapply Forall_impl; [exact Ht |]. intros [[? ?] ?] (-> & ? & ?). by split_and!.
Qed.

(** ** The camera is off *)

Definition encodes (task : Z) (e : video_effect) : bool := match e with VeEncode t _ => t =? task | _ => false end.

Definition encoded (task : Z) (effects : list video_effect) : nat := length (List.filter (encodes task) effects).

Lemma encoded_app (task : Z) (xs ys : list video_effect) : encoded task (xs ++ ys) = (encoded task xs + encoded task ys)%nat.
Proof. unfold encoded. by rewrite List.filter_app, length_app. Qed.

Lemma encoded_configs (task t : Z) (configs : list EncoderConfig) : encoded task (VeConfigure t <$> configs) = 0%nat.
Proof. by induction configs. Qed.

(** The frames a task can still encode when the encoder is disabled. *)
Definition remaining (task : Z) (ca : CameraEncoder) : nat := if camera_encoding task ca then 1 else 0.

Definition enabling (ev : cam_event) : bool := match ev with CaEnable true => true | _ => false end.

Definition camera_enabled (ca : CameraEncoder) : bool := es_enabled (vc_state (ca_cells ca)).

Lemma remaining_le (task : Z) (ca ca' : CameraEncoder) :
  (forall t, ca_tasks ca' !! task = Some t -> phase_loop (ct_phase t) <> None -> exists t', ca_tasks ca !! task = Some t' /\ phase_loop (ct_phase t') <> None) ->
  (remaining task ca' <= remaining task ca)%nat.
Proof.
  intros H. unfold remaining, camera_encoding. destruct (ca_tasks ca' !! task) as [t|] eqn:E; simpl; [|lia].
  destruct (phase_loop (ct_phase t)) eqn:Ep; simpl; [|lia]. destruct (H t eq_refl) as (t' & -> & Hp); [congruence |].
  simpl. destruct (phase_loop (ct_phase t')); [simpl; lia | done].
Qed.

Lemma remaining_delete (task k : Z) (ca ca' : CameraEncoder) :
  ca_tasks ca' = delete k (ca_tasks ca) -> (remaining task ca' <= remaining task ca)%nat.
Proof. intros E. apply remaining_le. rewrite E. intros t [? Ht]%lookup_delete_Some Hp. eauto. Qed.

Lemma remaining_insert (task k : Z) (t : CameraTask) (ca ca' : CameraEncoder) :
  ca_tasks ca' = <[k := t]> (ca_tasks ca) -> (phase_loop (ct_phase t) <> None -> camera_encoding k ca <> None) ->
  (remaining task ca' <= remaining task ca)%nat.
Proof.
  intros E Hk. apply remaining_le. rewrite E. intros t' [[-> ->]|[_ Ht]]%lookup_insert_Some Hp; [|eauto].
  specialize (Hk Hp). unfold camera_encoding in Hk. destruct (ca_tasks ca !! task) as [u|]; [|done]. exists u. split; [done |].
  intros Hu. simpl in Hk. by rewrite Hu in Hk.
Qed.

Section Camera.
Context {wire : Wire} {media : MediaWire} {cipher : Cipher}.
Context (codec : Z) (user_id : string) (aes : Aes128State).

Notation step := (camera_step codec user_id aes).
Notation run := (camera_run codec user_id aes).

(** At the top of a turn a disabled task is gone. *)
Lemma camera_turn_disabled (task : Z) (t : CameraTask) (l : EncodeLoop) (ca : CameraEncoder) :
  camera_enabled ca = false ->
  camera_turn task t l ca =
    (ca <| ca_cells := (ca_cells ca) <| vc_state := (vc_state (ca_cells ca)) <| es_switching := false |> |> |>
        <| ca_tasks := delete task (ca_tasks ca) |>, [VeTrackStopped task; VeEncoderClosed task]).
Proof. unfold camera_enabled, camera_turn, loop_stops. by intros ->. Qed.

Lemma output_handler_state (source : VideoSource) (now : float) (copied : bool) (chunk : EncodedVideoChunk)
    (h h' : ChunkHandler) (c c' : VideoCells) (packet : PacketWrapper) :
  output_handler codec user_id aes source now copied chunk h c = Some (h', c', packet) ->
  vc_state c' = vc_state c /\ vc_force_keyframe c' = vc_force_keyframe c.
Proof.
  unfold output_handler, count_chunk. intros H. destruct (fle _ _); simpl in H;
    destruct source; apply bind_Some in H as (p & _ & H); simplify_eq/=; done.
Qed.

(** A step that does not enable keeps the encoder disabled, and encodes only what a task had
    left. *)
Lemma camera_disabled_step (task : Z) (ca : CameraEncoder) (ev : cam_event) :
  camera_enabled ca = false -> enabling ev = false ->
  let '(ca', effects) := step ca ev in
  camera_enabled ca' = false /\ (encoded task effects + remaining task ca' <= remaining task ca)%nat.
Proof.
  intros Hd He. destruct ev as [value|device| |now|k outcome|k width height|k|k|k now copied chunk|? ? ? ?|]; simpl in *.
  - destruct value; [done |]. unfold camera_set_enabled, es_set_enabled, camera_enabled in *. rewrite Hd. simpl. done.
  - unfold camera_select, es_select, camera_enabled in *. simpl. rewrite Hd. done.
  - done.
  - unfold camera_start. destruct (es_selected _); [|done]. split; [done |]. by eapply remaining_insert.
  - unfold camera_opened. destruct (ca_tasks ca !! k) as [[device [|l|] handler]|] eqn:Ek; [|done..].
    destruct outcome as [| | |width height].
    1,2: split; [done |]; by eapply remaining_delete.
    + split; [done |]. by eapply remaining_insert.
    + rewrite camera_turn_disabled by done. split; [done |]. by eapply remaining_delete.
  - unfold camera_frame. destruct (camera_encoding k ca) as [[t l]|] eqn:Ek; [|done].
    unfold encode_frame. destruct (follow_frame width height l) as [l1 configs]. rewrite camera_turn_disabled by done.
    split; [done |]. rewrite encoded_app, encoded_configs. simpl. unfold encoded. simpl.
    destruct (Z.eqb_spec k task) as [->|Hne]; simpl.
    + unfold remaining at 2. rewrite Ek. unfold remaining, camera_encoding. simpl. rewrite lookup_delete_eq. simpl. lia.
    + by eapply remaining_delete.
  - unfold camera_read_failed. destruct (camera_encoding k ca) as [[t l]|] eqn:Ek; [|done].
    rewrite camera_turn_disabled by done. split; [done |]. by eapply remaining_delete.
  - unfold camera_stream_ended. destruct (camera_encoding k ca) as [[t l]|] eqn:Ek; [|done].
    split; [done |]. by eapply remaining_insert.
  - unfold camera_chunk. destruct (ca_tasks ca !! k) as [[device phase handler]|] eqn:Ek; [|done].
    destruct phase as [|l|]; [done | |]; destruct (output_handler _ _ _ _ _ _ _ _ _) as [[[h cells] packet]|] eqn:Ho; try done;
      apply output_handler_state in Ho as [Hst _]; simpl; unfold camera_enabled in *; simpl; rewrite Hst;
      (split; [done |]); eapply remaining_insert; try done; simpl; unfold camera_encoding; by rewrite Ek.
  - done.
  - done.
Qed.
(** Tasks are numbered. *)
Definition tasks_fresh (ca : CameraEncoder) : Prop := forall k, is_Some (ca_tasks ca !! k) -> k < ca_next_task ca.

Lemma fresh_delete (k : Z) (ca ca' : CameraEncoder) :
  tasks_fresh ca -> ca_tasks ca' = delete k (ca_tasks ca) -> ca_next_task ca' = ca_next_task ca -> tasks_fresh ca'.
Proof. intros H E1 E2 j [t Ht]. rewrite E1 in Ht. apply lookup_delete_Some in Ht as [_ Ht]. rewrite E2. by apply H. Qed.

Lemma fresh_insert (k : Z) (t : CameraTask) (ca ca' : CameraEncoder) :
  tasks_fresh ca -> ca_tasks ca' = <[k := t]> (ca_tasks ca) -> is_Some (ca_tasks ca !! k) -> ca_next_task ca' = ca_next_task ca -> tasks_fresh ca'.
Proof.
  intros H E1 Hk E2 j [u Hu]. rewrite E1 in Hu. rewrite E2. apply lookup_insert_Some in Hu as [[-> _]|[_ Hu]]; by apply H.
Qed.

Lemma camera_encoding_Some (task : Z) (ca : CameraEncoder) (t : CameraTask) (l : EncodeLoop) :
  camera_encoding task ca = Some (t, l) <-> ca_tasks ca !! task = Some t /\ ct_phase t = Encoding l.
Proof.
  unfold camera_encoding, phase_loop. destruct (ca_tasks ca !! task) as [u|]; simpl; [|naive_solver].
  destruct (ct_phase u) eqn:Eu; simpl; naive_solver congruence.
Qed.

Lemma camera_turn_fresh (task : Z) (t : CameraTask) (l : EncodeLoop) (ca : CameraEncoder) :
  tasks_fresh ca -> is_Some (ca_tasks ca !! task) -> tasks_fresh (camera_turn task t l ca).1.
Proof.
  intros H Hk. unfold camera_turn. destruct (loop_stops _); [by eapply fresh_delete |].
  destruct (loop_settings _ _ _). by eapply fresh_insert.
Qed.

Lemma fresh_step (ca : CameraEncoder) (ev : cam_event) : tasks_fresh ca -> tasks_fresh (step ca ev).1.
Proof.
  intros H. destruct ev as [value|device| |now|k outcome|k width height|k|k|k now copied chunk|? ? ? ?|]; simpl.
  - unfold camera_set_enabled. by destruct (es_set_enabled _ _).
  - unfold camera_select. by destruct (es_select _ _).
  - done.
  - unfold camera_start. destruct (es_selected _) as [device|]; [|done]. intros j [u Hu]. simpl in *.
    apply lookup_insert_Some in Hu as [[<- _]|[_ Hu]]; [lia |]. pose proof (H j (mk_is_Some _ _ Hu)). lia.
  - unfold camera_opened. destruct (ca_tasks ca !! k) as [[device [|l|] handler]|] eqn:Ek; [|done..].
    destruct outcome as [| | |width height]; [by eapply fresh_delete.. | by eapply fresh_insert |].
    match goal with |- context [camera_turn k ?t ?l ca] => pose proof (camera_turn_fresh k t l ca H (mk_is_Some _ _ Ek)) end.
    by destruct (camera_turn _ _ _ _).
  - unfold camera_frame. destruct (camera_encoding k ca) as [[t l]|] eqn:Ek; [|done].
    apply camera_encoding_Some in Ek as [Ek _]. destruct (encode_frame _ _ _ _) as [[[cells l1] configs] key].
    match goal with |- context [camera_turn k t l1 ?ca1] => pose proof (camera_turn_fresh k t l1 ca1 H (mk_is_Some _ _ Ek)) as Ht end.
    by destruct (camera_turn k t l1 _).
  - unfold camera_read_failed. destruct (camera_encoding k ca) as [[t l]|] eqn:Ek; [|done].
    apply camera_encoding_Some in Ek as [Ek _]. by apply camera_turn_fresh.
  - unfold camera_stream_ended. destruct (camera_encoding k ca) as [[t l]|] eqn:Ek; [|done].
    apply camera_encoding_Some in Ek as [Ek _]. by eapply fresh_insert.
  - unfold camera_chunk. destruct (ca_tasks ca !! k) as [[device [|l|] handler]|] eqn:Ek; [done | | |done].
    all: destruct (output_handler _ _ _ _ _ _ _ _ _) as [[[h cells] packet]|]; [|done]; by eapply fresh_insert.
  - done.
  - done.
Qed.

Lemma camera_run_app (evs1 evs2 : list cam_event) (ca : CameraEncoder) :
  run (evs1 ++ evs2) ca =
  let '(ca1, e1) := run evs1 ca in let '(ca2, e2) := run evs2 ca1 in (ca2, e1 ++ e2).
Proof.
  revert ca. induction evs1 as [|ev evs1 IH]; intros ca; simpl; [by destruct (run evs2 ca) |].
  destruct (step ca ev) as [ca1 e1]. rewrite IH. destruct (run evs1 ca1) as [ca2 e2]. destruct (run evs2 ca2) as [ca3 e3].
  by rewrite app_assoc.
Qed.

Lemma fresh_run (evs : list cam_event) (ca : CameraEncoder) : tasks_fresh ca -> tasks_fresh (run evs ca).1.
Proof.
  revert ca. induction evs as [|ev evs IH]; intros ca H; simpl; [done |]. pose proof (fresh_step ca ev H) as H1.
  destruct (step ca ev) as [ca1 e1]. specialize (IH ca1 H1). by destruct (run evs ca1).
Qed.

Lemma camera_disabled_run (task : Z) (evs : list cam_event) (ca : CameraEncoder) :
  camera_enabled ca = false -> Forall (fun ev => enabling ev = false) evs ->
  let '(ca', effects) := run evs ca in
  camera_enabled ca' = false /\ (encoded task effects + remaining task ca' <= remaining task ca)%nat.
Proof.
  revert ca. induction evs as [|ev evs IH]; intros ca Hd Hq; simpl; [done |]. apply Forall_cons in Hq as [He Hq].
  pose proof (camera_disabled_step task ca ev Hd He) as H. destruct (step ca ev) as [ca1 e1]. destruct H as [Hd1 H1].
  specialize (IH ca1 Hd1 Hq). destruct (run evs ca1) as [ca2 e2]. destruct IH as [Hd2 H2]. split; [done |].
  rewrite encoded_app. lia.
Qed.

(** The events at which the loop of a task wakes up. *)
Definition wakes (task : Z) (ev : cam_event) : bool :=
  match ev with CaFrame k _ _ | CaReadFailed k => k =? task | _ => false end.

Definition throws (task : Z) (ev : cam_event) : bool := match ev with CaStreamEnded k => k =? task | _ => false end.

(** A task of a disabled encoder waits for its frame, and then turns the camera off. *)
Lemma disabled_task_step (task : Z) (ca : CameraEncoder) (ev : cam_event) :
  camera_enabled ca = false -> tasks_fresh ca -> camera_encoding task ca <> None -> throws task ev = false ->
  if wakes task ev then VeTrackStopped task ∈ (step ca ev).2 else camera_encoding task (step ca ev).1 <> None.
Proof.
  intros Hd Hf Hk Ht. destruct (camera_encoding task ca) as [[t l]|] eqn:Ek; [|done]. clear Hk.
  pose proof (proj1 (camera_encoding_Some _ _ _ _) Ek) as [Elk Eph].
  assert (forall ca' : CameraEncoder, ca_tasks ca' = ca_tasks ca -> camera_encoding task ca' <> None) as Hsame
    by (intros ca' E; unfold camera_encoding in *; rewrite E, Ek; done).
  assert (forall k (ca' : CameraEncoder), k <> task -> ca_tasks ca' = delete k (ca_tasks ca) -> camera_encoding task ca' <> None) as Hdel
    by (intros k ca' Hk E; unfold camera_encoding in *; by rewrite E, lookup_delete_ne, Ek).
  assert (forall k u (ca' : CameraEncoder), k <> task -> ca_tasks ca' = <[k := u]> (ca_tasks ca) -> camera_encoding task ca' <> None) as Hins
    by (intros k u ca' Hk E; unfold camera_encoding in *; by rewrite E, lookup_insert_ne, Ek).
  destruct ev as [value|device| |now|k outcome|k width height|k|k|k now copied chunk|? ? ? ?|]; simpl in *.
  - unfold camera_set_enabled. destruct (es_set_enabled _ _). by apply Hsame.
  - unfold camera_select. destruct (es_select _ _). by apply Hsame.
  - by apply Hsame.
  - unfold camera_start. destruct (es_selected _); [|by apply Hsame]. eapply Hins; [|done].
    pose proof (Hf task (mk_is_Some _ _ Elk)). lia.
  - unfold camera_opened. destruct (ca_tasks ca !! k) as [[device [|l'|] handler]|] eqn:Ek'; [|by apply Hsame..].
    assert (k <> task) by (intros ->; rewrite Elk in Ek'; by simplify_eq/=).
    destruct outcome; [by eapply Hdel.. | by eapply Hins |]. rewrite camera_turn_disabled by done. by eapply Hdel.
  - unfold camera_frame. destruct (Z.eqb_spec k task) as [->|Hne].
    + rewrite Ek. destruct (encode_frame _ _ _ _) as [[[cells l1] configs] key] eqn:Ee.
      assert (camera_enabled (ca <| ca_cells := cells |>) = false) as Hd1.
      { unfold encode_frame in Ee. destruct (follow_frame _ _ _). simplify_eq/=. done. }
      rewrite (camera_turn_disabled _ _ _ _ Hd1). simpl. set_solver.
    + destruct (camera_encoding k ca) as [[t' l']|]; [|by apply Hsame].
      destruct (encode_frame _ _ _ _) as [[[cells l1] configs] key] eqn:Ee.
      assert (camera_enabled (ca <| ca_cells := cells |>) = false) as Hd1.
      { unfold encode_frame in Ee. destruct (follow_frame _ _ _). simplify_eq/=. done. }
      rewrite (camera_turn_disabled _ _ _ _ Hd1). by eapply Hdel.
  - unfold camera_read_failed. destruct (Z.eqb_spec k task) as [->|Hne].
    + rewrite Ek, camera_turn_disabled by done. set_solver.
    + destruct (camera_encoding k ca) as [[t' l']|]; [|by apply Hsame]. rewrite camera_turn_disabled by done. by eapply Hdel.
  - unfold camera_stream_ended. apply Z.eqb_neq in Ht. destruct (camera_encoding k ca) as [[t' l']|]; [|by apply Hsame]. by eapply Hins.
  - unfold camera_chunk. destruct (ca_tasks ca !! k) as [[device phase handler]|] eqn:Ek'; [|by apply Hsame].
    destruct phase as [|l'|]; [by apply Hsame | |];
      destruct (output_handler _ _ _ _ _ _ _ _ _) as [[[h cells] packet]|]; simpl; try by apply Hsame.
    all: destruct (decide (k = task)) as [->|Hne]; [|by eapply Hins].
    all: rewrite Elk in Ek'; unfold camera_encoding; simpl; rewrite lookup_insert_eq; simpl; simplify_eq/=; done.
  - by apply Hsame.
  - by apply Hsame.
Qed.

Lemma disabled_task_run (task : Z) (evs : list cam_event) (ca : CameraEncoder) :
  camera_enabled ca = false -> tasks_fresh ca -> camera_encoding task ca <> None ->
  Forall (fun ev => enabling ev = false /\ throws task ev = false) evs -> Exists (fun ev => wakes task ev = true) evs ->
  VeTrackStopped task ∈ (run evs ca).2.
Proof.
  intros Hd Hf Hk Hq Hw. revert ca Hd Hf Hk. induction Hq as [|ev evs [He Ht] Hq IH]; intros ca Hd Hf Hk; [by inv Hw |].
  simpl. pose proof (disabled_task_step task ca ev Hd Hf Hk Ht) as H1. pose proof (camera_disabled_step task ca ev Hd He) as H2.
  pose proof (fresh_step ca ev Hf) as H3. destruct (step ca ev) as [ca1 e1]. simpl in *. destruct (run evs ca1) as [ca2 e2] eqn:E.
  simpl. apply elem_of_app. destruct (wakes task ev) eqn:Ew; [by left |]. right.
  inv Hw; [congruence |]. destruct H2 as [Hd1 _]. specialize (IH ltac:(done) ca1 Hd1 H3 H1). by rewrite E in IH.
Qed.

(** Once the camera is stopped it is off. However it was used before, and whatever happens
    until it is enabled again (devices chosen, tasks started, cameras granted late), each task
    encodes at most one more frame, and only if it was encoding; and when that frame comes, or
    its read fails, the task stops the track of its camera. *)
Theorem stopped_camera_is_off (initial_bitrate : Z) (ca0 : CameraEncoder) (before evs : list cam_event) (task : Z) :
  camera_new initial_bitrate = Some ca0 -> Forall (fun ev => enabling ev = false) evs ->
  let ca := (run before ca0).1 in
  let effects := (run (CaStop :: evs) ca).2 in
  (encoded task effects <= if camera_encoding task ca then 1 else 0)%nat /\
  (camera_encoding task ca <> None -> Forall (fun ev => throws task ev = false) evs -> Exists (fun ev => wakes task ev = true) evs ->
   VeTrackStopped task ∈ effects).
Proof.
  intros Hnew Hq ca effects. assert (tasks_fresh ca) as Hf.
  { apply fresh_run. unfold camera_new in Hnew. destruct (cells_new _ _) as [cells|]; [|done]. simplify_eq/=. intros k [t Ht].
    simpl in Ht. by rewrite lookup_empty in Ht. }
  assert (effects = (run evs (camera_stop ca)).2) as -> by (unfold effects; simpl; by destruct (run evs (camera_stop ca))).
  split.
  - pose proof (camera_disabled_run task evs (camera_stop ca) eq_refl Hq) as H. destruct (run evs (camera_stop ca)) as [ca' effects'].
    destruct H as [_ H]. change (remaining task (camera_stop ca)) with (remaining task ca) in H. unfold remaining in *. simpl in *. lia.
  - intros Hk Ht Hw. apply disabled_task_run; [done | done | done | | done]. apply Forall_and. by split.
Qed.
End Camera.

(** ** Keyframes *)

Definition key_of (e : video_effect) : option bool := match e with VeEncode _ key => Some key | _ => None end.

(** Whether the first frame of a run was encoded as a keyframe. *)
Definition first_key (effects : list video_effect) : option bool := head (omap key_of effects).

Definition video_of (e : screen_effect) : option video_effect := match e with ScVideo e => Some e | _ => None end.

Lemma keys_app (xs ys : list video_effect) : omap key_of (xs ++ ys) = omap key_of xs ++ omap key_of ys.
Proof. apply omap_app. Qed.

Lemma keys_configs (task : Z) (configs : list EncoderConfig) : omap key_of (VeConfigure task <$> configs) = [].
Proof. by induction configs. Qed.

Lemma video_configs (task : Z) (configs : list EncoderConfig) :
  omap video_of (ScVideo ∘ VeConfigure task <$> configs) = VeConfigure task <$> configs.
Proof. induction configs; simpl; [done | by f_equal]. Qed.

(** A request waits for a frame: a part of a run leaves it pending and encodes nothing, or
    encodes a keyframe first. *)
Definition keeps_request (pending : bool) (effects : list video_effect) : Prop :=
  omap key_of effects = [] /\ pending = true \/ first_key effects = Some true.

Lemma keeps_request_app (pending1 pending2 : bool) (xs ys : list video_effect) :
  keeps_request pending1 xs -> (pending1 = true -> keeps_request pending2 ys) -> keeps_request pending2 (xs ++ ys).
Proof.
  unfold keeps_request, first_key. rewrite keys_app. intros [[-> Hp] | H] Hy; [by apply Hy |].
  right. by destruct (omap key_of xs).
Qed.

Lemma encode_frame_key (width height : Z) (c : VideoCells) (l : EncodeLoop) :
  vc_force_keyframe c = true -> (encode_frame width height c l).2 = true.
Proof. intros H. unfold encode_frame. destruct (follow_frame _ _ _). simpl. rewrite H. apply orb_true_r. Qed.

Section Keyframes.
Context {A : Type} {browser : Browser A} {K P : Type} {rsa : Rsa K P}.
Context {wire : Wire} {media : MediaWire} {cipher : Cipher} {keys : KeyWire} {laws : MediaWireLaws}.
Context (codec : Z) (user_id : string) (aes : Aes128State).

Lemma camera_turn_keeps (task : Z) (t : CameraTask) (l : EncodeLoop) (ca : CameraEncoder) :
  let '(ca', effects) := camera_turn task t l ca in
  omap key_of effects = [] /\ vc_force_keyframe (ca_cells ca') = vc_force_keyframe (ca_cells ca).
Proof.
  unfold camera_turn. destruct (loop_stops _); [done |]. destruct (loop_settings _ _ _) as [l' configs]. by rewrite keys_configs.
Qed.

Lemma camera_frame_key (task width height : Z) (ca : CameraEncoder) :
  vc_force_keyframe (ca_cells ca) = true -> camera_encoding task ca <> None ->
  first_key (camera_frame task width height ca).2 = Some true.
Proof.
  intros Hp Hk. unfold camera_frame. destruct (camera_encoding task ca) as [[t l]|]; [|done].
  pose proof (encode_frame_key width height (ca_cells ca) l Hp) as Hkey. destruct (encode_frame _ _ _ _) as [[[cells l1] configs] key].
  destruct (camera_turn _ _ _ _). simpl in *. unfold first_key. rewrite keys_app, keys_configs. simpl. by rewrite Hkey.
Qed.

Lemma camera_keeps_request (ca : CameraEncoder) (ev : cam_event) :
  vc_force_keyframe (ca_cells ca) = true ->
  let '(ca', effects) := camera_step codec user_id aes ca ev in keeps_request (vc_force_keyframe (ca_cells ca')) effects.
Proof.
  intros Hp. assert (forall effects, omap key_of effects = [] -> keeps_request true effects) as Hno by (intros; by left).
  destruct ev as [value|device| |now|k outcome|k width height|k|k|k now copied chunk|? ? ? ?|]; simpl.
  - unfold camera_set_enabled. destruct (es_set_enabled _ _). simpl. rewrite Hp. by apply Hno.
  - unfold camera_select. destruct (es_select _ _). simpl. rewrite Hp. by apply Hno.
  - rewrite Hp. by apply Hno.
  - unfold camera_start. destruct (es_selected _); simpl; rewrite Hp; by apply Hno.
  - unfold camera_opened. destruct (ca_tasks ca !! k) as [[device [|l|] handler]|]; try (rewrite Hp; by apply Hno).
    destruct outcome; simpl; try (rewrite Hp; by apply Hno).
    match goal with |- context [camera_turn k ?t ?l ca] => pose proof (camera_turn_keeps k t l ca) as H end.
    destruct (camera_turn _ _ _ _). destruct H as [He ->]. rewrite Hp. by apply Hno.
  - destruct (camera_encoding k ca) as [tl|] eqn:Ek.
    + pose proof (camera_frame_key k width height ca Hp) as H. destruct (camera_frame _ _ _ _). right. apply H. by rewrite Ek.
    + unfold camera_frame. rewrite Ek, Hp. by apply Hno.
  - unfold camera_read_failed. destruct (camera_encoding k ca) as [[t l]|]; [|rewrite Hp; by apply Hno].
    pose proof (camera_turn_keeps k t l ca) as H. destruct (camera_turn _ _ _ _). destruct H as [He ->]. rewrite Hp. by apply Hno.
  - unfold camera_stream_ended. destruct (camera_encoding k ca) as [[t l]|]; simpl; rewrite Hp; by apply Hno.
  - unfold camera_chunk. destruct (ca_tasks ca !! k) as [[device [|l|] handler]|]; simpl; try (rewrite Hp; by apply Hno).
    all: destruct (output_handler _ _ _ _ _ _ _ _ _) as [[[h cells] packet]|] eqn:Ho; simpl; try (rewrite Hp; by apply Hno).
    all: apply output_handler_state in Ho as [_ ->]; rewrite Hp; by apply Hno.
  - rewrite Hp. by apply Hno.
  - by apply Hno.
Qed.

Lemma camera_run_keeps_request (evs : list cam_event) (ca : CameraEncoder) :
  vc_force_keyframe (ca_cells ca) = true ->
  let '(ca', effects) := camera_run codec user_id aes evs ca in keeps_request (vc_force_keyframe (ca_cells ca')) effects.
Proof.
  revert ca. induction evs as [|ev evs IH]; intros ca Hp; simpl; [by left |].
  pose proof (camera_keeps_request ca ev Hp) as H. destruct (camera_step _ _ _ ca ev) as [ca1 e1].
  specialize (IH ca1). destruct (camera_run _ _ _ evs ca1) as [ca2 e2]. by eapply keeps_request_app.
Qed.

(** The same for the screen. *)
Lemma screen_turn_keeps (task : Z) (t : ScreenTask) (l : EncodeLoop) (s : ScreenEncoder) :
  let '(s', effects) := screen_turn task t l s in
  omap key_of (omap video_of effects) = [] /\ vc_force_keyframe (sc_cells s') = vc_force_keyframe (sc_cells s).
Proof.
  unfold screen_turn, screen_finish. destruct (loop_stops _).
  - simpl. destruct (es_enabled _); done.
  - destruct (loop_settings _ _ _) as [l' configs]. by rewrite video_configs, keys_configs.
Qed.

Lemma screen_frame_key (task width height : Z) (s : ScreenEncoder) :
  vc_force_keyframe (sc_cells s) = true -> screen_encoding task s <> None ->
  first_key (omap video_of (screen_frame task width height s).2) = Some true.
Proof.
  intros Hp Hk. unfold screen_frame. destruct (screen_encoding task s) as [[t l]|]; [|done].
  pose proof (encode_frame_key width height (sc_cells s) l Hp) as Hkey. destruct (encode_frame _ _ _ _) as [[[cells l1] configs] key].
  destruct (screen_turn _ _ _ _). simpl in *. unfold first_key. rewrite omap_app, video_configs, keys_app, keys_configs. simpl. by rewrite Hkey.
Qed.

Lemma screen_keeps_request (s : ScreenEncoder) (ev : scr_event) :
  vc_force_keyframe (sc_cells s) = true ->
  let '(s', effects) := screen_step codec user_id aes s ev in keeps_request (vc_force_keyframe (sc_cells s')) (omap video_of effects).
Proof.
  intros Hp. assert (forall effects, omap key_of effects = [] -> keeps_request true effects) as Hno by (intros; by left).
  destruct ev as [value| | |k outcome|k width height|k|k|k now copied chunk|? ? ? ?|]; simpl.
  - unfold screen_set_enabled. destruct (es_set_enabled _ _). simpl. rewrite Hp. by apply Hno.
  - rewrite Hp. apply Hno. by destruct (sc_active_video_track s), (sc_screen_stream s).
  - rewrite Hp. by apply Hno.
  - unfold screen_opened. destruct (sc_tasks s !! k) as [[[|l|] handler]|]; try (rewrite Hp; by apply Hno).
    destruct outcome; simpl; try (rewrite Hp; by apply Hno).
    match goal with |- context [screen_turn k ?t ?l ?s1] => pose proof (screen_turn_keeps k t l s1) as H end.
    destruct (screen_turn _ _ _ _). destruct H as [He ->]. simpl in *. rewrite Hp. by apply Hno.
  - destruct (screen_encoding k s) as [tl|] eqn:Ek.
    + pose proof (screen_frame_key k width height s Hp) as H. destruct (screen_frame _ _ _ _). right. apply H. by rewrite Ek.
    + unfold screen_frame. rewrite Ek, Hp. by apply Hno.
  - unfold screen_stream_ended, screen_finish. destruct (screen_encoding k s); simpl; [destruct (es_enabled _); simpl|]; rewrite Hp; by apply Hno.
  - unfold screen_onended. destruct (screen_encoding k s); simpl; rewrite Hp; by apply Hno.
  - unfold screen_chunk. destruct (screen_encoding k s) as [[t l]|]; simpl; [|rewrite Hp; by apply Hno].
    destruct (output_handler _ _ _ _ _ _ _ _ _) as [[[h cells] packet]|] eqn:Ho; simpl; [|rewrite Hp; by apply Hno].
    apply output_handler_state in Ho as [_ ->]. rewrite Hp. by apply Hno.
  - rewrite Hp. by apply Hno.
  - by apply Hno.
Qed.

Lemma screen_run_keeps_request (evs : list scr_event) (s : ScreenEncoder) :
  vc_force_keyframe (sc_cells s) = true ->
  let '(s', effects) := screen_run codec user_id aes evs s in keeps_request (vc_force_keyframe (sc_cells s')) (omap video_of effects).
Proof.
  revert s. induction evs as [|ev evs IH]; intros s Hp; simpl; [by left |].
  pose proof (screen_keeps_request s ev Hp) as H. destruct (screen_step _ _ _ s ev) as [s1 e1].
  specialize (IH s1). destruct (screen_run _ _ _ evs s1) as [s2 e2]. rewrite omap_app. by eapply keeps_request_app.
Qed.
(** A request that reaches a client raises the flag of the stream it names. *)
Lemma request_raises_flag (now seed : Z) (r : PacketWrapper) (c : VideoCallClient (A := A) (K := K) (P := P)) (request : MediaPacket) (name : string) :
  packet_type r = MEDIA -> parse_media (pw_data r) = Some request -> media_type request = KEYFRAME_REQUEST ->
  from_utf8_lossy (mp_data request) = name ->
  exists c' out, on_inbound_media now seed r c = Some (c', out) /\
    (name = "VIDEO"%string -> force_camera_keyframe c' = true) /\ (name = "SCREEN"%string -> force_screen_keyframe c' = true).
Proof.
  intros Hty Hparse Hkf Hname. rewrite inbound_eq. unfold dispatch. rewrite Hty.
  change (packet_type_value MEDIA) with (Some MEDIA).
  rewrite (bool_decide_false (Some MEDIA = Some AES_KEY)), (bool_decide_false (Some MEDIA = Some RSA_PUB_KEY)) by done.
  rewrite bool_decide_true by done. unfold try_handle_keyframe_request. rewrite Hparse, Hkf.
  change (media_type_value KEYFRAME_REQUEST) with (Some KEYFRAME_REQUEST).
  rewrite bool_decide_true by done. cbn [negb mbind option_bind]. rewrite Hname.
  destruct (ensured r c).2; (do 2 eexists; split; [reflexivity |]); split; intros ->; done.
Qed.

(** C32: A keyframe that is requested is encoded. The packet with which a peer table asks for a
    keyframe of a participant's camera or screen, once that participant's client has received
    it, makes the next frame of the stream a keyframe: whatever the encoder goes through
    before (new settings, other cameras, a camera stopped and started), the first frame that
    any of its tasks encodes is one. *)
Theorem requested_keyframe_is_encoded (m : PeerDecodeManager A) (uid : string) (stream : Z) (packet r : PacketWrapper)
    (now seed : Z) (c : VideoCallClient (A := A) (K := K) (P := P)) :
  send_keyframe_request uid stream m = [SendPacket packet] -> pw_data r = pw_data packet -> packet_type r = packet_type packet ->
  exists c' out, on_inbound_media now seed r c = Some (c', out) /\
  (stream = VIDEO -> forall ca evs task width height, vc_force_keyframe (ca_cells ca) = force_camera_keyframe c' ->
   let '(ca1, effects) := camera_run codec user_id aes evs ca in
   camera_encoding task ca1 <> None ->
   first_key (effects ++ (camera_step codec user_id aes ca1 (CaFrame task width height)).2) = Some true) /\
  (stream = SCREEN -> forall s evs task width height, vc_force_keyframe (sc_cells s) = force_screen_keyframe c' ->
   let '(s1, effects) := screen_run codec user_id aes evs s in
   screen_encoding task s1 <> None ->
   first_key (omap video_of (effects ++ (screen_step codec user_id aes s1 (ScFrame task width height)).2)) = Some true).
Proof.
  intros Hsend Hdata Hty. unfold send_keyframe_request in Hsend. destruct (negb _); [done |].
  destruct (stream_name stream) as [name|] eqn:En; [|done]. destruct (write_media _) as [data|] eqn:Ew; [|done].
  injection Hsend as <-. simpl in Hdata, Hty. apply parse_write_media in Ew. rewrite <- Hdata in Ew.
  destruct (request_raises_flag now seed r c _ (from_utf8_lossy name) Hty Ew eq_refl eq_refl) as (c' & out & Hin & Hv & Hs).
  exists c', out. split; [done |]. split; intros ->; injection En as <-.
  - intros ca evs task width height Hflag. specialize (Hv ltac:(vm_compute; reflexivity)).
    pose proof (camera_run_keeps_request evs ca ltac:(congruence)) as H. destruct (camera_run _ _ _ evs ca) as [ca1 effects].
    intros Hk. unfold first_key. rewrite keys_app. destruct H as [[-> Hp] | H].
    + exact (camera_frame_key task width height ca1 Hp Hk).
    + unfold first_key in H. by destruct (omap key_of effects).
  - intros s evs task width height Hflag. specialize (Hs ltac:(vm_compute; reflexivity)).
    pose proof (screen_run_keeps_request evs s ltac:(congruence)) as H. destruct (screen_run _ _ _ evs s) as [s1 effects].
    intros Hk. unfold first_key. rewrite omap_app, keys_app. destruct H as [[-> Hp] | H].
    + exact (screen_frame_key task width height s1 Hp Hk).
    + unfold first_key in H. by destruct (omap key_of (omap video_of effects)).
Qed.
End Keyframes.

(** ** Concrete runs *)

#[local] Existing Instance demo_wire.
#[local] Existing Instance demo_media.
#[local] Existing Instance demo_cipher.
#[local] Existing Instance demo_browser.
#[local] Existing Instance demo_rsa.
#[local] Existing Instance demo_keys.
#[local] Existing Instance demo_media_laws.

Definition demo_camera : CameraEncoder := default (mkCamera (mkVideoCells encoder_state_new 0 0 0 0 0 false) ∅ 0) (camera_new 500).

Definition camera_on : list cam_event :=
  [CaSelect "cam"; CaEnable true; CaStart (F64.of_Z 0); CaOpened 0 (CameraReady 1280 720); CaFrame 0 1280 720; CaFrame 0 1280 720].

Lemma stopped_camera_is_off_witness :
  camera_new 500 = Some demo_camera /\
  VeTrackStopped 0 ∈ (camera_run 0 "ada" demo_key
    [CaStop; CaSelect "other"; CaFrame 0 1280 720]
    (camera_run 0 "ada" demo_key camera_on demo_camera).1).2.
Proof.
  split; [vm_compute; reflexivity |].
  apply (stopped_camera_is_off 0 "ada" demo_key 500 demo_camera camera_on
    [CaSelect "other"; CaFrame 0 1280 720] 0).
  - vm_compute. reflexivity.
  - repeat constructor.
  - vm_compute. discriminate.
  - repeat constructor.
  - apply Exists_cons. right. apply Exists_cons. left. reflexivity.
Defined.

(** Bob asks for a keyframe of Alice's camera, which is in the middle of its interval. *)
Definition keyframe_packet : PacketWrapper :=
  mkPacketWrapper MEDIA (as_bytes "bob")
    (demo_write_media (media_default <| media_type := KEYFRAME_REQUEST |> <| mp_user_id := as_bytes "alice" |> <| mp_data := as_bytes "VIDEO" |>)) 0.

Definition camera_asked : CameraEncoder :=
  (camera_run 0 "alice" demo_key (camera_on ++ [CaKeyframeRequested]) demo_camera).1.

Lemma requested_keyframe_is_encoded_witness :
  send_keyframe_request "alice" VIDEO (peer_decode_manager bob) = [SendPacket keyframe_packet] /\
  let '(ca, effects) := camera_run 0 "alice" demo_key
    [CaSettings 400 640 360 60] camera_asked in
  first_key (effects ++ (camera_step 0 "alice" demo_key ca
    (CaFrame 0 1280 720)).2) = Some true.
Proof.
  assert (send_keyframe_request "alice" VIDEO (peer_decode_manager bob) = [SendPacket keyframe_packet]) as E
    by (vm_cast_no_check (eq_refl [SendPacket keyframe_packet])).
  split; [exact E |].
  destruct (requested_keyframe_is_encoded 0 "alice" demo_key (peer_decode_manager bob) "alice" VIDEO keyframe_packet
    (mkPacketWrapper MEDIA (as_bytes "bob") (pw_data keyframe_packet) 2) 1000 0 alice E eq_refl eq_refl) as (c' & out & Hin & Hv & _).
  assert (force_camera_keyframe ∘ fst <$> on_inbound_media 1000 0 (mkPacketWrapper MEDIA (as_bytes "bob") (pw_data keyframe_packet) 2) alice = Some true) as Hc
    by (vm_compute; reflexivity).
  rewrite Hin in Hc. injection Hc as Hc.
  assert (bool_decide (is_Some (camera_encoding 0 (camera_run 0 "alice" demo_key [CaSettings 400 640 360 60] camera_asked).1)) = true) as Hk
    by (vm_compute; reflexivity).
  assert (vc_force_keyframe (ca_cells camera_asked) = true) as Hf by (vm_compute; reflexivity).
  pose proof (Hv eq_refl camera_asked [CaSettings 400 640 360 60] 0 1280 720 (eq_trans Hf (eq_sym Hc))) as H.
  destruct (camera_run 0 "alice" demo_key [CaSettings 400 640 360 60] camera_asked) as [ca effects].
  apply H. apply bool_decide_eq_true in Hk as [x Hx]. simpl in Hx. by rewrite Hx.
Defined.
