(* ===== verification/ScreenShareProps.v ===== *)
(** * What is said of a screen share

    The peers and the application are told when a screen is shared. When the screen encoder is
    used by one task at a time they know whether it is; a screen that is picked after the
    encoder was stopped is announced for good. *)
From S2P Require Import Prelude Floats Protocol DemoWire Media DemoMedia AdaptiveQuality Microphone MicrophoneProps VideoEncoders VideoEncoderProps.

Definition announce_of (e : screen_effect) : option bool := match e with ScAnnounce b => Some b | _ => None end.
Definition active_of (e : screen_effect) : option bool :=
  match e with ScEvent (Started _) => Some true | ScEvent _ => Some false | _ => None end.

(** Whether the peers were last told, and the application was last told, that a screen is
    shared. *)
Definition announced (before : bool) (effects : list screen_effect) : bool := default before (last (omap announce_of effects)).
Definition active (before : bool) (effects : list screen_effect) : bool := default before (last (omap active_of effects)).

Lemma announced_app (b : bool) (xs ys : list screen_effect) : announced b (xs ++ ys) = announced (announced b xs) ys.
Proof. unfold announced. rewrite omap_app, last_app. by destruct (last (omap announce_of ys)). Qed.

Lemma active_app (b : bool) (xs ys : list screen_effect) : active b (xs ++ ys) = active (active b xs) ys.
Proof. unfold active. rewrite omap_app, last_app. by destruct (last (omap active_of ys)). Qed.

Lemma quiet_configs (b : bool) (task : Z) (configs : list EncoderConfig) (effects : list screen_effect) :
  announced b ((ScVideo ∘ VeConfigure task <$> configs) ++ effects) = announced b effects /\
  active b ((ScVideo ∘ VeConfigure task <$> configs) ++ effects) = active b effects.
Proof. unfold announced, active. rewrite !omap_app. by induction configs. Qed.

Definition live (t : ScreenTask) : Prop := st_phase t <> Thrown.

Definition sharing (s : ScreenEncoder) : bool := es_enabled (vc_state (sc_cells s)).

Definition no_live_task (s : ScreenEncoder) : Prop := forall k t, sc_tasks s !! k = Some t -> ~ live t.

(** The encoder is used by one task at a time, as the page uses it: it is started and
    enabled when no task is left, not stopped while the user picks a screen, and disabled
    only when no task is left or by the pair of calls with which the page ends a share,
    [set_enabled(false)] and at once [stop()]; [rest] are the events that follow. *)
Definition orderly (s : ScreenEncoder) (ev : scr_event) (rest : list scr_event) : Prop :=
  match ev with
  | ScStart | ScEnable true => no_live_task s
  | ScEnable false => head rest = Some ScStop \/ no_live_task s
  | ScStop => forall k t, sc_tasks s !! k = Some t -> st_phase t <> Opening
  | _ => True
  end.

(** [b]: the peers were told that a screen is shared. *)
Record share_ok (b : bool) (s : ScreenEncoder) : Prop := mk_share_ok {
  so_switching : es_switching (vc_state (sc_cells s)) = false;
  so_single : forall k k' t t', sc_tasks s !! k = Some t -> sc_tasks s !! k' = Some t' -> live t -> live t' -> k = k';
  so_opening : forall k t, sc_tasks s !! k = Some t -> st_phase t = Opening -> sharing s = true;
  so_announced : b = true <-> sharing s = true /\ exists k, screen_encoding k s <> None;
  so_stream : b = true -> is_Some (sc_screen_stream s);
}.

Lemma screen_encoding_Some (k : Z) (s : ScreenEncoder) (t : ScreenTask) (l : EncodeLoop) :
  screen_encoding k s = Some (t, l) <-> sc_tasks s !! k = Some t /\ st_phase t = Encoding l.
Proof.
  unfold screen_encoding, phase_loop. destruct (sc_tasks s !! k) as [u|]; simpl; [|naive_solver].
  destruct (st_phase u) eqn:Eu; simpl; naive_solver congruence.
Qed.

Lemma encoding_live (k : Z) (s : ScreenEncoder) : screen_encoding k s <> None -> exists t l, sc_tasks s !! k = Some t /\ st_phase t = Encoding l.
Proof. destruct (screen_encoding k s) as [[t l]|] eqn:E; [|done]. apply screen_encoding_Some in E. eauto. Qed.

(** The one live task is gone, or dead. *)
Lemma share_ok_done (k : Z) (s s' : ScreenEncoder) (b : bool) (t : ScreenTask) :
  share_ok b s -> sc_tasks s !! k = Some t -> live t -> es_switching (vc_state (sc_cells s')) = false ->
  (sc_tasks s' = delete k (sc_tasks s) \/ exists u, ~ live u /\ sc_tasks s' = <[k := u]> (sc_tasks s)) -> share_ok false s'.
Proof.
  intros H Hk Hl Hsw Ht. assert (forall j u, sc_tasks s' !! j = Some u -> ~ live u) as Hnone.
  { intros j u Hj Hu. destruct Ht as [E | (u' & Hu' & E)]; rewrite E in Hj.
    - apply lookup_delete_Some in Hj as [Hne Hj]. exact (Hne (so_single b s H k j t u Hk Hj Hl Hu)).
    - apply lookup_insert_Some in Hj as [[_ ->]|[Hne Hj]]; [done |]. exact (Hne (so_single b s H k j t u Hk Hj Hl Hu)). }
  constructor; [done | | | | done].
  - intros j j' u u' Hj _ Hu _. by destruct (Hnone j u Hj).
  - intros j u Hj Hu. destruct (Hnone j u Hj). unfold live. by rewrite Hu.
  - split; [done |]. intros (_ & j & Hj). apply encoding_live in Hj as (u & l & Hj & Hu). destruct (Hnone j u Hj). unfold live. by rewrite Hu.
Qed.

(** The tasks are the same, and so is what the others know, or the sharing is over. *)
Lemma share_ok_same (b : bool) (s s' : ScreenEncoder) :
  share_ok b s -> sc_tasks s' = sc_tasks s -> vc_state (sc_cells s') = vc_state (sc_cells s) -> sc_screen_stream s' = sc_screen_stream s -> share_ok b s'.
Proof.
  intros [H1 H2 H3 H4 H5] Et Es Ec. unfold sharing, screen_encoding in *. constructor; unfold sharing, screen_encoding; rewrite ?Et, ?Es, ?Ec; done.
Qed.

Lemma share_ok_off (b : bool) (s s' : ScreenEncoder) :
  share_ok b s -> sc_tasks s' = sc_tasks s -> (forall k t, sc_tasks s !! k = Some t -> st_phase t <> Opening) ->
  sharing s' = false -> es_switching (vc_state (sc_cells s')) = false -> share_ok false s'.
Proof.
  intros H Et Ho Hs Hsw. constructor; rewrite ?Et; [done | by apply (so_single b s) | | | done].
  - intros k t Hk Hp. by destruct (Ho k t Hk).
  - rewrite Hs. naive_solver.
Qed.

(** A live task goes on encoding. *)
Lemma share_ok_encoding (b : bool) (k : Z) (s s' : ScreenEncoder) (t t' : ScreenTask) (l : EncodeLoop) :
  share_ok b s -> sc_tasks s !! k = Some t -> live t -> sc_tasks s' = <[k := t']> (sc_tasks s) -> st_phase t' = Encoding l ->
  vc_state (sc_cells s') = vc_state (sc_cells s) -> (sharing s = true -> is_Some (sc_screen_stream s')) -> share_ok (sharing s) s'.
Proof.
  intros H Hk Hl Et Ht' Es Hst. assert (sharing s' = sharing s) as Hs by (unfold sharing; by rewrite Es).
  constructor; [rewrite Es; apply (so_switching b s H) | | | | done].
  - intros j j' u u'. rewrite Et. intros [[<- <-]|[? Hj]]%lookup_insert_Some [[<- <-]|[? Hj']]%lookup_insert_Some Hu Hu'; [done | | |].
    + exact (so_single b s H k j' t u' Hk Hj' Hl Hu').
    + exact (so_single b s H j k u t Hj Hk Hu Hl).
    + exact (so_single b s H j j' u u' Hj Hj' Hu Hu').
  - intros j u. rewrite Et, Hs. intros [[<- <-]|[Hne Hj]]%lookup_insert_Some Hu; [congruence |].
    exact (so_opening b s H j u Hj Hu).
  - rewrite Hs. split; [|tauto]. intros E. split; [done |]. exists k. unfold screen_encoding. rewrite Et, lookup_insert_eq. simpl. by rewrite Ht'.
Qed.

Lemma encoding_announced (b : bool) (k : Z) (s : ScreenEncoder) (t : ScreenTask) (l : EncodeLoop) :
  share_ok b s -> sc_tasks s !! k = Some t -> st_phase t = Encoding l -> b = sharing s.
Proof.
  intros H Hk Ht. destruct b; [by destruct (proj1 (so_announced _ _ H) eq_refl) as [-> _] |]. destruct (sharing s) eqn:E; [|done].
  apply (so_announced _ _ H). split; [done |]. exists k. unfold screen_encoding. rewrite Hk. simpl. by rewrite Ht.
Qed.

Section Sharing.
Context {wire : Wire} {media : MediaWire} {cipher : Cipher}.
Context (codec : Z) (user_id : string) (aes : Aes128State).

(** A share goes on as it should. *)
Definition shares (b : bool) (out : ScreenEncoder * list screen_effect) : Prop :=
  share_ok (announced b out.2) out.1 /\ active b out.2 = announced b out.2.

(** The loop of the live task ends. *)
Lemma screen_finish_shares (b : bool) (k : Z) (s : ScreenEncoder) (t : ScreenTask) (l : EncodeLoop) (before : list screen_effect) :
  share_ok b s -> sc_tasks s !! k = Some t -> st_phase t = Encoding l -> announced b before = b -> active b before = b ->
  shares b ((screen_finish k s).1, before ++ (screen_finish k s).2).
Proof.
  intros H Hk Ht Hb1 Hb2. assert (live t) as Hl by (unfold live; by rewrite Ht).
  pose proof (encoding_announced b k s t l H Hk Ht) as Hbs.
  unfold shares, screen_finish. unfold sharing in Hbs. simpl. destruct (es_enabled _) eqn:Ee; cbn [fst snd].
  - rewrite announced_app, active_app, Hb1, Hb2. unfold announced, active. simpl. split; [|done].
    eapply (share_ok_done k s); [done | done | done | | by left]. exact (so_switching _ _ H).
  - rewrite announced_app, active_app, Hb1, Hb2. unfold announced, active. simpl. subst b. split; [|done].
    eapply (share_ok_done k s); [done | done | done | | by left]. exact (so_switching _ _ H).
Qed.

(** A turn of the loop of the live task, after a frame. *)
Lemma screen_turn_shares (b : bool) (k : Z) (s : ScreenEncoder) (t : ScreenTask) (l l' : EncodeLoop) (before : list screen_effect) :
  share_ok b s -> sc_tasks s !! k = Some t -> st_phase t = Encoding l -> announced b before = b -> active b before = b ->
  shares b ((screen_turn k t l' s).1, before ++ (screen_turn k t l' s).2).
Proof.
  intros H Hk Ht Hb1 Hb2. assert (live t) as Hl by (unfold live; by rewrite Ht).
  unfold screen_turn, loop_stops. rewrite (so_switching _ _ H), orb_false_r. destruct (es_enabled _) eqn:Ee; simpl.
  - destruct (loop_settings _ _ _) as [l1 configs]. unfold shares. simpl. rewrite announced_app, active_app, Hb1, Hb2.
    destruct (quiet_configs b k configs []) as [-> ->] || (rewrite <- (app_nil_r (_ <$> configs)); destruct (quiet_configs b k configs []) as [-> ->]).
    unfold announced, active. simpl. split; [|done].
    assert (b = true) as ->.
    { by rewrite (encoding_announced b k s t l H Hk Ht). }
    replace true with (sharing s) by done. eapply (share_ok_encoding true k s _ t); [done | done | done | done | done | done |].
    intros _. simpl. by apply (so_stream _ _ H).
  - match goal with |- context [screen_finish k ?x] => set (s0 := x) end. assert (share_ok b s0) as H0.
    { eapply share_ok_same; [exact H | done | | done]. unfold s0. simpl. pose proof (so_switching _ _ H) as Hsw.
      destruct (vc_state (sc_cells s)). simpl in *. by subst. }
    pose proof (screen_finish_shares b k s0 t l (before ++ [ScVideo (VeTrackStopped k); ScVideo (VeEncoderClosed k)]) H0 Hk Ht) as Hf.
    destruct (screen_finish k s0) as [s1 e1]. simpl in Hf. rewrite <- app_assoc in Hf. apply Hf.
    all: rewrite ?announced_app, ?active_app, ?Hb1, ?Hb2; done.
Qed.

(** Without a live task nothing is announced. *)
Lemma idle_unannounced (b : bool) (s : ScreenEncoder) : share_ok b s -> no_live_task s -> b = false.
Proof.
  intros H Ho. destruct b; [|done]. destruct (proj1 (so_announced _ _ H) eq_refl) as (_ & k & Hk).
  apply encoding_live in Hk as (t & l & Hk & Ht). destruct (Ho k t Hk). unfold live. by rewrite Ht.
Qed.

(** A new task. *)
Lemma screen_start_shares (b : bool) (s : ScreenEncoder) :
  share_ok b s -> no_live_task s -> shares b (screen_start s, []).
Proof.
  intros H Ho. pose proof (idle_unannounced b s H Ho). subst b.
  unfold shares, screen_start. simpl. split; [|done]. unfold announced. simpl.
  assert (forall j u, sc_tasks (screen_start s) !! j = Some u -> live u -> j = sc_next_task s /\ st_phase u = Opening) as Hone.
  { intros j u. unfold screen_start. simpl. intros [[<- <-]|[_ Hj]]%lookup_insert_Some Hu; [done |]. by destruct (Ho j u Hj). }
  constructor; simpl; [exact (so_switching _ _ H) | | done | | done].
  + intros j j' u u' Hj Hj' Hu Hu'. destruct (Hone j u Hj Hu) as [-> _]. by destruct (Hone j' u' Hj' Hu') as [-> _].
  + split; [done |]. intros (_ & j & Hj). apply encoding_live in Hj as (u & l & Hj & Hu).
    destruct (Hone j u Hj) as [_ E]; [unfold live; by rewrite Hu | congruence].
Qed.

(** The outcome of its opening. *)
Lemma screen_opened_shares (b : bool) (k : Z) (outcome : screen_outcome) (s : ScreenEncoder) :
  share_ok b s -> shares b (screen_opened k outcome s).
Proof.
  intros H.
  unfold screen_opened. destruct (sc_tasks s !! k) as [[[|l|] handler]|] eqn:Ek; [|by split..].
  assert (b = false) as ->.
  { destruct b; [|done]. destruct (proj1 (so_announced _ _ H) eq_refl) as (_ & j & Hj). apply encoding_live in Hj as (u & l & Hj & Hu).
    rewrite (so_single _ _ H j k u _ Hj Ek) in Hj; [rewrite Ek in Hj; by simplify_eq/= | unfold live; by rewrite Hu | done]. }
  pose proof (so_switching _ _ H) as Hsw. pose proof (so_opening _ _ H k _ Ek eq_refl) as Hen.
  assert (forall s', es_switching (vc_state (sc_cells s')) = false -> (sc_tasks s' = delete k (sc_tasks s) \/
    exists u, ~ live u /\ sc_tasks s' = <[k := u]> (sc_tasks s)) -> share_ok false s') as Hdone
    by (intros s' E1 E2; by eapply (share_ok_done k s)).
  assert (forall h, exists u, ~ live u /\ <[k := mkScreenTask Thrown h]> (sc_tasks s) = <[k := u]> (sc_tasks s)) as Hdead
    by (intros h; eexists; split; [|reflexivity]; unfold live; simpl; tauto).
  destruct outcome as [| | | | | |w h|now w h]; simpl; try (split; [apply Hdone; [exact Hsw | by (left + (right; apply Hdead))] | done]).
  unfold screen_turn, loop_stops. simpl. unfold sharing in Hen. rewrite Hsw, Hen. simpl. destruct (loop_settings _ _ _) as [l1 configs].
  unfold shares. simpl. rewrite <- (app_nil_r (_ <$> configs)).
  change (ScVideo ?x :: ScAnnounce true :: ?y :: ?rest) with ([ScVideo x; ScAnnounce true; y] ++ rest).
  rewrite announced_app, active_app. destruct (quiet_configs true k configs []) as [Q1 Q2]. unfold announced at 2, active at 2. simpl.
  rewrite Q1, Q2. unfold announced, active. simpl. split; [|done].
  replace true with (sharing s) by done. eapply (share_ok_encoding false k s); [done | exact Ek | done | done | done | done |]. by eexists.
Qed.

Lemma disable_idle_shares (b : bool) (s : ScreenEncoder) :
  share_ok b s -> no_live_task s -> shares b ((screen_set_enabled false s).1, []).
Proof.
  intros H Ho. pose proof (idle_unannounced b s H Ho). subst b. split; [|done].
  assert (vc_state (sc_cells (screen_set_enabled false s).1) = (vc_state (sc_cells s)) <| es_enabled := false |>) as Es.
  { unfold screen_set_enabled, es_set_enabled. destruct (vc_state (sc_cells s)) as [[] ? ?]; done. }
  unfold announced. simpl. eapply (share_ok_off false s); [exact H | | | unfold sharing; by rewrite Es | rewrite Es; apply (so_switching _ _ H)].
  - unfold screen_set_enabled. by destruct (es_set_enabled _ _).
  - intros k t Hk Ht. destruct (Ho k t Hk). unfold live. by rewrite Ht.
Qed.

Lemma share_step (b : bool) (s : ScreenEncoder) (ev : scr_event) :
  share_ok b s -> (ev = ScEnable false -> no_live_task s) -> orderly s ev [] -> shares b (screen_step codec user_id aes s ev).
Proof.
  intros H Hdis Ho. destruct ev as [value| | |k outcome|k width height|k|k|k now copied chunk|? ? ? ?|]; simpl in *.
  - destruct value; [|apply disable_idle_shares; auto]. unfold screen_set_enabled, es_set_enabled. destruct (es_enabled (vc_state (sc_cells s))) eqn:Ee; simpl.
    + split; [|done]. eapply share_ok_same; [exact H | done..].
    + split; [|done]. unfold announced. simpl. assert (b = false) as ->.
      { destruct b; [|done]. destruct (proj1 (so_announced _ _ H) eq_refl) as [E _]. unfold sharing in E. congruence. }
      constructor; simpl; [exact (so_switching _ _ H) | exact (so_single _ _ H) | done | | done].
      split; [done |]. intros (_ & k & Hk). apply encoding_live in Hk as (t & l & Hk & Ht). destruct (Ho k t Hk). unfold live. by rewrite Ht.
  - unfold shares, screen_stop. simpl. assert (announced b (ScAnnounce false ::
      match sc_active_video_track s with Some task => [ScActiveStopped task] | None => [] end ++
      match sc_screen_stream s with Some stream => [ScStreamStopped stream; ScEvent Stopped] | None => [] end) = false) as Ha
      by (by destruct (sc_active_video_track s), (sc_screen_stream s)).
    rewrite Ha. split; [by apply (share_ok_off b s) |]. unfold active. destruct (sc_active_video_track s), (sc_screen_stream s) eqn:Es; simpl; try done.
    all: destruct b; [|done]; destruct (so_stream _ _ H eq_refl); congruence.
  - by apply screen_start_shares.
  - by apply screen_opened_shares.
  - unfold screen_frame. destruct (screen_encoding k s) as [[t l]|] eqn:Ek; [|by split].
    apply screen_encoding_Some in Ek as [Ek Ht]. unfold encode_frame. destruct (follow_frame _ _ _) as [l1 configs].
    match goal with |- context [screen_turn k t ?l2 ?s1] =>
      pose proof (screen_turn_shares b k s1 t l l2 ((ScVideo ∘ VeConfigure k <$> configs) ++ [ScVideo (VeEncode k (is_periodic_keyframe l1 || vc_force_keyframe (sc_cells s)))])) as Hf;
      destruct (screen_turn k t l2 s1) as [s2 e2] end.
    simpl in Hf. rewrite <- app_assoc in Hf. destruct (quiet_configs b k configs [ScVideo (VeEncode k (is_periodic_keyframe l1 || vc_force_keyframe (sc_cells s)))]) as [Q1 Q2].
    apply Hf; [|done|done|by rewrite Q1|by rewrite Q2]. eapply share_ok_same; [exact H | done..].
  - unfold screen_stream_ended. destruct (screen_encoding k s) as [[t l]|] eqn:Ek; [|by split].
    apply screen_encoding_Some in Ek as [Ek Ht]. pose proof (screen_finish_shares b k s t l [] H Ek Ht eq_refl eq_refl) as Hf.
    simpl in Hf. by destruct (screen_finish k s).
  - unfold screen_onended. destruct (screen_encoding k s) as [[t l]|] eqn:Ek; [|by split]. split; [|done]. unfold announced. simpl.
    apply screen_encoding_Some in Ek as [Ek Ht]. eapply share_ok_off; [exact H | done | | done | exact (so_switching _ _ H)].
    intros j u Hj Hu. rewrite (so_single _ _ H j k u t Hj Ek) in Hj; [|unfold live; by rewrite Hu | unfold live; by rewrite Ht].
    rewrite Ek in Hj. simplify_eq/=. congruence.
  - unfold screen_chunk. destruct (screen_encoding k s) as [[t l]|] eqn:Ek; [|by split].
    destruct (output_handler _ _ _ _ _ _ _ _ _) as [[[h cells] packet]|] eqn:Ho'; [|by split].
    apply output_handler_state in Ho' as [Hst _]. apply screen_encoding_Some in Ek as [Ek Ht]. simpl. split; [|done]. unfold announced. simpl.
    assert (live t) as Hl by (unfold live; by rewrite Ht).
    rewrite (encoding_announced b k s t l H Ek Ht). eapply (share_ok_encoding b k s); [done | exact Ek | done | done | exact Ht | exact Hst |].
    intros Hs. apply (so_stream b s H). rewrite (encoding_announced b k s t l H Ek Ht). exact Hs.
  - split; [|done]. eapply share_ok_same; [exact H | done..].
  - split; [|done]. eapply share_ok_same; [exact H | done..].
Qed.

Fixpoint orderly_run (evs : list scr_event) (s : ScreenEncoder) : Prop :=
  match evs with
  | [] => True
  | ev :: evs => orderly s ev evs /\ orderly_run evs (screen_step codec user_id aes s ev).1
  end.

(** [stop] disables the encoder itself. *)
Lemma stop_after_disable (s : ScreenEncoder) : screen_stop (screen_set_enabled false s).1 = screen_stop s.
Proof.
  unfold screen_set_enabled, es_set_enabled. destruct s as [[[en sw sel] ? ? ? ? ? ?] ? ? ? ?]. simpl. by destruct en.
Qed.

Lemma share_run (evs : list scr_event) (b : bool) (s : ScreenEncoder) :
  share_ok b s -> orderly_run evs s -> shares b (screen_run codec user_id aes evs s).
Proof.
  revert b s. induction evs as [|ev evs IH]; intros b s H Ho; [by split |]. destruct Ho as [Hev Ho].
  assert ((ev = ScEnable false /\ head evs = Some ScStop) \/ (ev = ScEnable false -> no_live_task s)) as [[-> Hstop]|Hdis].
  { destruct ev as [[]| | | | | | | | |]; try (right; discriminate). destruct Hev; auto. }
  - destruct evs as [|? evs]; [done |]. simpl in Hstop. injection Hstop as ->.
    assert (orderly_run (ScStop :: evs) s) as Ho'.
    { destruct Ho as [H1 H2]. cbn [screen_step fst] in H1, H2. rewrite stop_after_disable in H2. split; [|done].
      simpl in *. unfold screen_set_enabled in H1. by destruct (es_set_enabled _ _). }
    pose proof (IH b s H Ho') as Hs. cbn [screen_run screen_step] in *.
    rewrite stop_after_disable. destruct (screen_stop s) as [s1 e1]. by destruct (screen_run _ _ _ evs s1).
  - assert (orderly s ev []) as Hev' by (destruct ev as [[]| | | | | | | | |]; try exact Hev; right; by apply Hdis).
    simpl. pose proof (share_step b s ev H Hdis Hev') as [H1 H2].
    destruct (screen_step _ _ _ s ev) as [s1 e1]. simpl in *.
    destruct (IH _ s1 H1 Ho) as [H3 H4]. destruct (screen_run _ _ _ evs s1) as [s2 e2]. unfold shares. simpl in *.
    rewrite announced_app, active_app, H2. by split.
Qed.

(** C33: The others know whether a screen is shared. Over any orderly use of the screen encoder
    (started and enabled when no task of before is left, not stopped while the user picks a
    screen, and a share ended by [set_enabled(false)] followed at once by [stop()], as the
    page does it, by [stop()] alone, by the browser's button or by the end of the stream), the
    peers were last told that a screen is shared exactly when the encoder is enabled and a task
    reads frames, and the application was last told the same. *)
Theorem share_is_announced (bitrate : Z) (s0 : ScreenEncoder) (evs : list scr_event) :
  screen_new bitrate = Some s0 -> orderly_run evs s0 ->
  let '(s, effects) := screen_run codec user_id aes evs s0 in
  (announced false effects = true <-> sharing s = true /\ exists task, screen_encoding task s <> None) /\
  active false effects = announced false effects.
Proof.
  intros Hnew Ho. assert (share_ok false s0) as H0.
  { unfold screen_new in Hnew. destruct (cells_new _ _) as [cells|] eqn:Ec; [|done]. simplify_eq/=.
    unfold cells_new in Ec. simpl in Ec. simplify_eq/=. constructor; simpl; [done | | | | done].
    - intros k k' t t' Ht. by rewrite lookup_empty in Ht.
    - intros k t Ht. by rewrite lookup_empty in Ht.
    - split; [done |]. intros (_ & k & Hk). by destruct Hk. }
  pose proof (share_run evs false s0 H0 Ho) as [H1 H2]. destruct (screen_run _ _ _ evs s0) as [s effects].
  split; [|done]. exact (so_announced _ _ H1).
Qed.

(** A screen that is picked after [stop] is announced to the peers and to the application,
    although the task ends at once; neither is told that it has ended. *)
Theorem late_screen_stays_announced (s : ScreenEncoder) (task : Z) (t : ScreenTask) (now : float) (width height : Z) :
  sc_tasks s !! task = Some t -> st_phase t = Opening ->
  let '(s1, effects) := screen_run codec user_id aes [ScStop; ScOpened task (ScreenReady now width height)] s in
  sharing s1 = false /\ sc_tasks s1 !! task = None /\ announced false effects = true /\ active false effects = true.
Proof.
  intros Hk Ht. destruct t as [phase handler]. simpl in Ht. subst phase.
  assert (forall s1 e1, screen_step codec user_id aes s ScStop = (s1, e1) ->
    sc_tasks s1 = sc_tasks s /\ vc_state (sc_cells s1) = es_stop (vc_state (sc_cells s)) /\ e1 = (screen_stop s).2) as Hstop
    by (intros s1 e1 [= <- <-]; done).
  cbn [screen_run]. destruct (screen_step _ _ _ s ScStop) as [s1 e1]. destruct (Hstop _ _ eq_refl) as (Et & Es & _). clear Hstop.
  cbn [screen_step]. unfold screen_opened. rewrite Et, Hk. unfold screen_turn, loop_stops, screen_finish. simpl. rewrite Es. simpl.
  rewrite announced_app, active_app. rewrite lookup_delete_eq. unfold announced at 1, active at 1. simpl. unfold sharing. simpl. by rewrite ?Es.
Qed.
End Sharing.

(** ** A concrete run *)

#[local] Existing Instance demo_wire.
#[local] Existing Instance demo_media.
#[local] Existing Instance demo_cipher.

Definition demo_screen : ScreenEncoder := default (mkScreen (mkVideoCells encoder_state_new 0 0 0 0 0 false) None None ∅ 0) (screen_new 500).

(** The page starts a share and ends it. *)
Definition share_on : list scr_event :=
  [ScEnable true; ScStart; ScOpened 0 (ScreenReady (F64.of_Z 0) 1920 1080); ScFrame 0 1920 1080].
Definition share_off : list scr_event := share_on ++ [ScEnable false; ScStop; ScFrame 0 1920 1080].

Lemma share_is_announced_witness :
  (let '(s, effects) := screen_run 0 "ada" demo_key share_on demo_screen in
   announced false effects = true /\ exists task, screen_encoding task s <> None) /\
  (let '(s, effects) := screen_run 0 "ada" demo_key share_off demo_screen in
   active false effects = announced false effects /\ sharing s = false).
Proof.
  assert (orderly_run 0 "ada" demo_key share_on demo_screen) as Hon.
  { simpl. split_and!; try done. all: intros k t Hk; vm_compute in Hk; discriminate. }
  assert (orderly_run 0 "ada" demo_key share_off demo_screen) as Hoff.
  { simpl. split_and!; try done; [..|by left|]; intros k t Hk; vm_compute in Hk; try discriminate.
    destruct k as [|k|k]; [|by destruct k..]. injection Hk as <-. discriminate. }
  pose proof (share_is_announced 0 "ada" demo_key 500 demo_screen share_on ltac:(vm_compute; reflexivity) Hon) as H1.
  pose proof (share_is_announced 0 "ada" demo_key 500 demo_screen share_off ltac:(vm_compute; reflexivity) Hoff) as H2.
  assert (announced false (screen_run 0 "ada" demo_key share_on demo_screen).2 = true) as E
    by (vm_compute; reflexivity).
  assert (sharing (screen_run 0 "ada" demo_key share_off demo_screen).1 = false) as E2 by (vm_compute; reflexivity).
  destruct (screen_run _ _ _ share_on _) as [s effects], (screen_run _ _ _ share_off _) as [s2 effects2]. simpl in E, E2.
  destruct H1 as [H1 _], H2 as [_ H2]. split; (split; [assumption |]); [by apply H1 | exact E2].
Defined.
