(* ===== verification/Devices.v ===== *)
(** * Media devices and the host that uses them

    videocall-client/src/media_devices/media_device_list.rs, the lists of microphones,
    cameras and speakers with the selected one of each; and dioxus-ui/src/components/host.rs,
    which connects the lists with the three encoders and the speakers with the client, with
    the state of the screen share in components/attendants.rs. What host.rs draws and the
    texts of the encoder settings are left out.

    The browser enumerates devices asynchronously: [load] and a change of devices start an
    enumeration, whose result is a later event. The selections that a change compares with
    are those of the moment when the browser reported it. The cells of the two lists are
    shared between the object and its closures. *)
From S2P Require Import Prelude Floats Protocol Media Microphone VideoEncoders.

(** ** media_device_list.rs *)

Inductive MediaDeviceKind : Type := Audioinput | Videoinput | Audiooutput.

#[export] Instance MediaDeviceKind_eq_dec : EqDecision MediaDeviceKind.
Proof. solve_decision. Defined.

Record MediaDeviceInfo : Type := mkMediaDevice { md_kind : MediaDeviceKind; md_device_id : string }.

Record SelectableDevices : Type := mkSelectable {
  sd_devices : list MediaDeviceInfo;
  sd_selected : option string;
}.

#[export] Instance eta_Selectable : Eta SelectableDevices := fun r => mkSelectable (sd_devices r) (sd_selected r).

Definition sd_new : SelectableDevices := mkSelectable [] None.

Definition has_device (device_id : string) (devices : list MediaDeviceInfo) : bool :=
  existsb (fun device => String.eqb (md_device_id device) device_id) devices.

(** With the calls of [on_selected]: one for each entry with this id. *)
Definition sd_select (device_id : string) (s : SelectableDevices) : SelectableDevices * list string :=
  (if has_device device_id (sd_devices s) then s <| sd_selected := Some device_id |> else s,
   omap (fun device => if String.eqb (md_device_id device) device_id then Some device_id else None) (sd_devices s)).

Definition sd_set_devices (devices : list MediaDeviceInfo) (s : SelectableDevices) : SelectableDevices :=
  s <| sd_devices := devices |>.

(** The id of the selected device; the first device is the default. *)
Definition selected_id (s : SelectableDevices) : string :=
  match sd_selected s with
  | Some selected => selected
  | None => match sd_devices s with device :: _ => md_device_id device | [] => EmptyString end
  end.

Record MediaDeviceList : Type := mkMediaDeviceList {
  audio_inputs : SelectableDevices;
  video_inputs : SelectableDevices;
  audio_outputs : SelectableDevices;
  ml_listening : bool;
}.

#[export] Instance eta_MediaDeviceList : Eta MediaDeviceList := fun r =>
  mkMediaDeviceList (audio_inputs r) (video_inputs r) (audio_outputs r) (ml_listening r).

Definition media_device_list_new : MediaDeviceList := mkMediaDeviceList sd_new sd_new sd_new false.

Definition of_kind (kind : MediaDeviceKind) (devices : list MediaDeviceInfo) : list MediaDeviceInfo :=
  filter (fun device => md_kind device = kind) devices.

(** The lists replaced by what was enumerated. *)
Definition replace_lists (devices : list MediaDeviceInfo) (m : MediaDeviceList) : MediaDeviceList :=
  m <| audio_inputs := sd_set_devices (of_kind Audioinput devices) (audio_inputs m) |>
    <| video_inputs := sd_set_devices (of_kind Videoinput devices) (video_inputs m) |>
    <| audio_outputs := sd_set_devices (of_kind Audiooutput devices) (audio_outputs m) |>.

(** [load] installs the listener and starts an enumeration. *)
Definition ml_load (m : MediaDeviceList) : MediaDeviceList := m <| ml_listening := true |>.

(** What follows [on_loaded] when the enumeration of [load] is done: the calls of
    [on_selected]. The selection itself is not set. *)
Definition loaded_selections (m : MediaDeviceList) : list (MediaDeviceKind * string) :=
  let first kind s := match sd_devices s with device :: _ => [(kind, md_device_id device)] | [] => [] end in
  first Audioinput (audio_inputs m) ++ first Videoinput (video_inputs m) ++ first Audiooutput (audio_outputs m).

(** The selections read when the browser reports a change. *)
Record Selections : Type := mkSelections { cur_audio : string; cur_video : string; cur_output : string }.

Definition current_selections (m : MediaDeviceList) : Selections :=
  let cur s := default EmptyString (sd_selected s) in
  mkSelections (cur (audio_inputs m)) (cur (video_inputs m)) (cur (audio_outputs m)).

Definition device_ids (s : SelectableDevices) : list string := md_device_id <$> sd_devices s.

(** Whether the lists changed, by their ids. *)
Definition lists_changed (old new : MediaDeviceList) : bool :=
  negb (bool_decide (device_ids (audio_inputs old) = device_ids (audio_inputs new))) ||
  negb (bool_decide (device_ids (video_inputs old) = device_ids (video_inputs new))) ||
  negb (bool_decide (device_ids (audio_outputs old) = device_ids (audio_outputs new))).

(** The first device of an enumerated list, when the selection of before is gone. *)
Definition reselect (current : string) (devices : list MediaDeviceInfo) (s : SelectableDevices) : SelectableDevices * list string :=
  if negb (String.eqb current EmptyString) && has_device current devices then (s, [])
  else match devices with
       | device :: _ => (s <| sd_selected := Some (md_device_id device) |>, [md_device_id device])
       | [] => (s, [])
       end.

Definition reselect_all (cur : Selections) (devices : list MediaDeviceInfo) (m : MediaDeviceList)
    : MediaDeviceList * list (MediaDeviceKind * string) :=
  let '(a, ea) := reselect (cur_audio cur) (of_kind Audioinput devices) (audio_inputs m) in
  let '(v, ev) := reselect (cur_video cur) (of_kind Videoinput devices) (video_inputs m) in
  let '(o, eo) := reselect (cur_output cur) (of_kind Audiooutput devices) (audio_outputs m) in
  (m <| audio_inputs := a |> <| video_inputs := v |> <| audio_outputs := o |>,
   (pair Audioinput <$> ea) ++ (pair Videoinput <$> ev) ++ (pair Audiooutput <$> eo)).

(** The enumeration of a change is done. [on_devices_changed] runs after the lists were
    replaced and before the selections are; [callback] is what it does to a state [S] in
    which [get] and [put] find the lists. *)
Definition change_done {S : Type} (get : S -> MediaDeviceList) (put : MediaDeviceList -> S -> S) (callback : S -> S)
    (cur : Selections) (devices : list MediaDeviceInfo) (s : S) : S * list (MediaDeviceKind * string) :=
  let old := get s in
  let s := put (replace_lists devices old) s in
  let s := if lists_changed old (get s) then callback s else s in
  let '(m, emitted) := reselect_all cur devices (get s) in
  (put m s, emitted).

(** ** host.rs *)

(** [ho_loads] and [ho_changes] are the enumerations under way, the timers the timeouts that
    will start an encoder. *)
Record Host : Type := mkHost {
  ho_media : MediaDeviceList;
  ho_camera : CameraEncoder;
  ho_mic : MicrophoneEncoder;
  ho_screen : ScreenEncoder;
  ho_prev_share_screen : bool;
  ho_prev_mic_enabled : bool;
  ho_prev_video_enabled : bool;
  ho_loads : nat;
  ho_changes : list Selections;
  ho_camera_timers : nat;
  ho_mic_timers : nat;
  ho_screen_timers : nat;
  ho_speaker : option string;
}.

#[export] Instance eta_Host : Eta Host := fun r =>
  mkHost (ho_media r) (ho_camera r) (ho_mic r) (ho_screen r) (ho_prev_share_screen r) (ho_prev_mic_enabled r)
    (ho_prev_video_enabled r) (ho_loads r) (ho_changes r) (ho_camera_timers r) (ho_mic_timers r) (ho_screen_timers r) (ho_speaker r).

Inductive host_effect : Type :=
| HeMic (e : mic_effect)
| HeCamera (e : video_effect)
| HeScreen (e : screen_effect)
| HeAudioEnabled (enabled : bool)
| HeVideoEnabled (enabled : bool).

(** The host when its lists were told to load. *)
Definition host_new (video_bitrate screen_bitrate : Z) (vad : option float) (fec : bool) : option Host :=
  camera ← camera_new video_bitrate;
  screen ← screen_new screen_bitrate;
  Some (mkHost (ml_load media_device_list_new) camera (microphone_new vad fec) screen false false false 1 [] 0 0 0 None).

Definition with_audio_inputs (f : SelectableDevices -> SelectableDevices * list string) (h : Host) : Host :=
  h <| ho_media := (ho_media h) <| audio_inputs := (f (audio_inputs (ho_media h))).1 |> |>.

Definition with_video_inputs (f : SelectableDevices -> SelectableDevices * list string) (h : Host) : Host :=
  h <| ho_media := (ho_media h) <| video_inputs := (f (video_inputs (ho_media h))).1 |> |>.

Definition with_audio_outputs (f : SelectableDevices -> SelectableDevices * list string) (h : Host) : Host :=
  h <| ho_media := (ho_media h) <| audio_outputs := (f (audio_outputs (ho_media h))).1 |> |>.

(** The devices were loaded: the two parts of the callback, for the camera and for the
    microphone. *)
Definition loaded_camera (video_id : string) (h : Host) : Host :=
  if String.eqb video_id EmptyString then h
  else
    let h := with_video_inputs (sd_select video_id) h in
    if ho_prev_video_enabled h then
      let camera := (camera_select video_id (camera_stop (ho_camera h))).1 in
      h <| ho_camera := (camera_set_enabled true camera).1 |> <| ho_camera_timers := S (ho_camera_timers h) |>
    else h <| ho_camera := (camera_select video_id (ho_camera h)).1 |>.

Definition loaded_microphone (audio_id : string) (h : Host) : Host * list mic_effect :=
  if String.eqb audio_id EmptyString then (h, [])
  else
    let h := with_audio_inputs (sd_select audio_id) h in
    if ho_prev_mic_enabled h then
      let '(mic, e1) := mic_stop (ho_mic h) in
      let '(mic, _) := mic_select audio_id mic in
      let '(mic, e2, _) := mic_set_enabled true mic in
      (h <| ho_mic := mic |> <| ho_mic_timers := S (ho_mic_timers h) |>, e1 ++ e2)
    else
      let '(mic, _) := mic_select audio_id (ho_mic h) in
      (h <| ho_mic := mic |>, []).

Definition on_loaded (h : Host) : Host * list host_effect :=
  let video_id := selected_id (video_inputs (ho_media h)) in
  let audio_id := selected_id (audio_inputs (ho_media h)) in
  let '(h, effects) := loaded_microphone audio_id (loaded_camera video_id h) in
  (h, HeMic <$> effects).

(** The callback of a change of devices, with its parts; [speaker_ok] tells whether the client
    accepts the speaker. *)
Definition changed_microphone (audio_device_id : string) (h : Host) : Host * bool :=
  if String.eqb audio_device_id EmptyString then (h, false)
  else
    let h := with_audio_inputs (sd_select audio_device_id) h in
    let '(mic, needs_start) := mic_select audio_device_id (ho_mic h) in
    (h <| ho_mic := mic |>, needs_start).

Definition changed_camera (video_device_id : string) (h : Host) : Host * bool :=
  if String.eqb video_device_id EmptyString then (h, false)
  else
    let h := with_video_inputs (sd_select video_device_id) h in
    let '(camera, needs_start) := camera_select video_device_id (ho_camera h) in
    (h <| ho_camera := camera |>, needs_start).

Definition changed_speaker (speaker_ok : bool) (speaker_device_id : string) (h : Host) : Host :=
  if String.eqb speaker_device_id EmptyString then h
  else
    let h := with_audio_outputs (sd_select speaker_device_id) h in
    if speaker_ok then h <| ho_speaker := Some speaker_device_id |> else h.

Definition on_devices_changed (speaker_ok : bool) (h : Host) : Host :=
  let audio_device_id := selected_id (audio_inputs (ho_media h)) in
  let video_device_id := selected_id (video_inputs (ho_media h)) in
  let speaker_device_id := selected_id (audio_outputs (ho_media h)) in
  let '(h, mic_needs_start) := changed_microphone audio_device_id h in
  let '(h, cam_needs_start) := changed_camera video_device_id h in
  let h := changed_speaker speaker_ok speaker_device_id h in
  let h := if mic_needs_start then h <| ho_mic_timers := S (ho_mic_timers h) |> else h in
  if cam_needs_start then h <| ho_camera_timers := S (ho_camera_timers h) |> else h.

(** The properties of the component, each when it differs from the one of before. *)
Definition on_share_prop (share_screen : bool) (h : Host) : Host * list host_effect :=
  if Bool.eqb (ho_prev_share_screen h) share_screen then (h, [])
  else
    let h := h <| ho_prev_share_screen := share_screen |> in
    if share_screen then
      (h <| ho_screen := (screen_set_enabled true (ho_screen h)).1 |> <| ho_screen_timers := S (ho_screen_timers h) |>, [])
    else
      let '(screen, effects) := screen_stop (screen_set_enabled false (ho_screen h)).1 in
      (h <| ho_screen := screen |>, HeScreen <$> effects).

Definition on_mic_prop (mic_enabled : bool) (h : Host) : Host * list host_effect :=
  if Bool.eqb (ho_prev_mic_enabled h) mic_enabled then (h, [])
  else
    let h := h <| ho_prev_mic_enabled := mic_enabled |> in
    let '(mic, effects) :=
      if mic_enabled then
        let device_id := selected_id (audio_inputs (ho_media h)) in
        let mic := if String.eqb device_id EmptyString then ho_mic h else (mic_select device_id (ho_mic h)).1 in
        let '(mic, e1, _) := mic_set_enabled true mic in
        let '(mic, e2) := mic_start mic in
        (mic, e1 ++ e2)
      else
        let '(mic, e1, _) := mic_set_enabled false (ho_mic h) in
        let '(mic, e2) := mic_stop mic in
        (mic, e1 ++ e2) in
    (h <| ho_mic := mic |>, (HeMic <$> effects) ++ [HeAudioEnabled mic_enabled]).

Definition on_video_prop (video_enabled : bool) (now : float) (h : Host) : Host * list host_effect :=
  if Bool.eqb (ho_prev_video_enabled h) video_enabled then (h, [])
  else
    let h := h <| ho_prev_video_enabled := video_enabled |> in
    let camera :=
      if video_enabled then
        let device_id := selected_id (video_inputs (ho_media h)) in
        let camera := if String.eqb device_id EmptyString then ho_camera h else (camera_select device_id (ho_camera h)).1 in
        camera_start now (camera_set_enabled true camera).1
      else camera_stop (camera_set_enabled false (ho_camera h)).1 in
    (h <| ho_camera := camera |>, [HeVideoEnabled video_enabled]).

(** A rendering of the component, with its properties. *)
Definition host_render (reload share_screen mic_enabled video_enabled : bool) (now : float) (h : Host) : Host * list host_effect :=
  let h := if reload then h <| ho_media := ml_load (ho_media h) |> <| ho_loads := S (ho_loads h) |> else h in
  let '(h, e1) := on_share_prop share_screen h in
  let '(h, e2) := on_mic_prop mic_enabled h in
  let '(h, e3) := on_video_prop video_enabled now h in
  (h, e1 ++ e2 ++ e3).

(** Every second the flags of the connection are stored again. *)
Definition reaffirm (h : Host) : list host_effect := [HeAudioEnabled (ho_prev_mic_enabled h); HeVideoEnabled (ho_prev_video_enabled h)].

(** The user picks a microphone, a camera or a speaker. *)
Definition on_mic_change (device_id : string) (h : Host) : Host :=
  let h := with_audio_inputs (sd_select device_id) h in
  let '(mic, needs) := mic_select device_id (ho_mic h) in
  let h := h <| ho_mic := mic |> in
  if needs : bool then h <| ho_mic_timers := S (ho_mic_timers h) |> else h.

Definition on_cam_change (device_id : string) (h : Host) : Host :=
  let h := with_video_inputs (sd_select device_id) h in
  let '(camera, needs) := camera_select device_id (ho_camera h) in
  let h := h <| ho_camera := camera |> in
  if needs : bool then h <| ho_camera_timers := S (ho_camera_timers h) |> else h.

Definition on_speaker_change (speaker_ok : bool) (device_id : string) (h : Host) : Host :=
  let h := with_audio_outputs (sd_select device_id) h in
  if speaker_ok then h <| ho_speaker := Some device_id |> else h.

Section Host.
Context {wire : Wire} {media : MediaWire} {cipher : Cipher}.
Context (codec : Z) (user_id : string) (aes : Aes128State).

(** What the tasks of the encoders do by themselves, and the client to their cells. *)
Definition mic_own_event (ev : mic_event) : bool :=
  match ev with
  | MeGranted _ | MeDenied _ | MeGraphFailed _ | MeMonitor _ | MeVad _ | MeChunk _ _ _ | MeTierFec _ => true
  | _ => false
  end.

Definition camera_own_event (ev : cam_event) : bool :=
  match ev with CaEnable _ | CaSelect _ | CaStop | CaStart _ => false | _ => true end.

Definition screen_own_event (ev : scr_event) : bool :=
  match ev with ScEnable _ | ScStop | ScStart => false | _ => true end.

Inductive host_event : Type :=
| HoLoadDone (devices : list MediaDeviceInfo)
| HoDeviceChange
| HoChangeDone (devices : list MediaDeviceInfo) (speaker_ok : bool)
| HoRender (reload share_screen mic_enabled video_enabled : bool) (now : float)
| HoReaffirm
| HoMicChange (device_id : string)
| HoCamChange (device_id : string)
| HoSpeakerChange (device_id : string) (speaker_ok : bool)
| HoMicTimer
| HoCameraTimer (now : float)
| HoScreenTimer
| HoMicEvent (ev : mic_event)
| HoCameraEvent (ev : cam_event)
| HoScreenEvent (ev : scr_event).

(** Enumerations finish in the order in which they were started. *)
Definition host_step (h : Host) (ev : host_event) : Host * list host_effect :=
  match ev with
  | HoLoadDone devices =>
      match ho_loads h with
      | S n => on_loaded (h <| ho_loads := n |> <| ho_media := replace_lists devices (ho_media h) |>)
      | O => (h, [])
      end
  | HoDeviceChange =>
      if ml_listening (ho_media h) then (h <| ho_changes := ho_changes h ++ [current_selections (ho_media h)] |>, []) else (h, [])
  | HoChangeDone devices speaker_ok =>
      match ho_changes h with
      | cur :: rest => ((change_done ho_media (fun m h => h <| ho_media := m |>) (on_devices_changed speaker_ok) cur devices
                           (h <| ho_changes := rest |>)).1, [])
      | [] => (h, [])
      end
  | HoRender reload share_screen mic_enabled video_enabled now => host_render reload share_screen mic_enabled video_enabled now h
  | HoReaffirm => (h, reaffirm h)
  | HoMicChange device_id => (on_mic_change device_id h, [])
  | HoCamChange device_id => (on_cam_change device_id h, [])
  | HoSpeakerChange device_id speaker_ok => (on_speaker_change speaker_ok device_id h, [])
  | HoMicTimer =>
      match ho_mic_timers h with
      | S n => let '(mic, effects) := mic_start (ho_mic h) in (h <| ho_mic_timers := n |> <| ho_mic := mic |>, HeMic <$> effects)
      | O => (h, [])
      end
  | HoCameraTimer now =>
      match ho_camera_timers h with
      | S n => (h <| ho_camera_timers := n |> <| ho_camera := camera_start now (ho_camera h) |>, [])
      | O => (h, [])
      end
  | HoScreenTimer =>
      match ho_screen_timers h with
      | S n => (h <| ho_screen_timers := n |> <| ho_screen := screen_start (ho_screen h) |>, [])
      | O => (h, [])
      end
  | HoMicEvent ev =>
      if mic_own_event ev then let '(mic, effects) := mic_step user_id aes (ho_mic h) ev in (h <| ho_mic := mic |>, HeMic <$> effects) else (h, [])
  | HoCameraEvent ev =>
      if camera_own_event ev
      then let '(camera, effects) := camera_step codec user_id aes (ho_camera h) ev in (h <| ho_camera := camera |>, HeCamera <$> effects)
      else (h, [])
  | HoScreenEvent ev =>
      if screen_own_event ev
      then let '(screen, effects) := screen_step codec user_id aes (ho_screen h) ev in (h <| ho_screen := screen |>, HeScreen <$> effects)
      else (h, [])
  end.
End Host.

(** ** attendants.rs: the state of the screen share *)

Inductive ScreenShareState : Type := ShareIdle | ShareRequesting | ShareActive.

Definition is_sharing (s : ScreenShareState) : bool := match s with ShareIdle => false | _ => true end.

(** The button, which is disabled while a screen is requested. *)
Definition share_click (s : ScreenShareState) : ScreenShareState :=
  match s with ShareIdle => ShareRequesting | ShareRequesting => ShareRequesting | ShareActive => ShareIdle end.

Definition on_screen_share_state (e : ScreenShareEvent) : ScreenShareState :=
  match e with Started _ => ShareActive | Cancelled | Stopped | Failed => ShareIdle end.

(** The page and its host: a click, a rendering of the host with the state of the page, and
    the host's own events. Each event of the screen encoder sets the state. *)
Inductive page_event : Type :=
| PgClick
| PgRender (mic_enabled video_enabled : bool) (now : float)
| PgHost (ev : host_event).

Section Page.
Context {wire : Wire} {media : MediaWire} {cipher : Cipher}.
Context (codec : Z) (user_id : string) (aes : Aes128State).

Definition share_events (effects : list host_effect) : list ScreenShareEvent :=
  omap (fun e => match e with HeScreen (ScEvent e) => Some e | _ => None end) effects.

Definition page_step (p : ScreenShareState * Host) (ev : page_event) : (ScreenShareState * Host) * list host_effect :=
  let '(s, h) := p in
  match ev with
  | PgClick => ((share_click s, h), [])
  | PgRender mic_enabled video_enabled now =>
      let '(h, effects) := host_step codec user_id aes h (HoRender false (is_sharing s) mic_enabled video_enabled now) in
      ((foldl (fun _ => on_screen_share_state) s (share_events effects), h), effects)
  | PgHost ev =>
      let '(h, effects) := host_step codec user_id aes h ev in
      ((foldl (fun _ => on_screen_share_state) s (share_events effects), h), effects)
  end.
End Page.
