(* ===== verification/DevicesProps.v ===== *)
(** * Properties of the device lists and of the host

    After a change of devices the selection is a device that exists, and a device in use stays
    selected; but the host is told of the change before the selection moved, and starts the
    microphone again on the device that is gone. What is switched off in the host is off,
    except a screen whose timeout is pending. *)
From S2P Require Import Prelude Floats Protocol Media AdaptiveQuality Microphone VideoEncoders Devices DemoWire DemoMedia MicrophoneProps VideoEncoderProps.

Lemma has_device_spec (device_id : string) (devices : list MediaDeviceInfo) :
  has_device device_id devices = true <-> device_id ∈ md_device_id <$> devices.
Proof.
  unfold has_device. rewrite existsb_exists, list_elem_of_fmap. split.
  - intros (d & Hin & <-%String.eqb_eq). exists d. split; [done |]. by apply list_elem_of_In.
  - intros (d & -> & Hin). exists d. rewrite String.eqb_refl. by apply list_elem_of_In in Hin.
Qed.

(** Selecting again, when the selection was read before and not moved since. *)
Lemma reselect_valid (devices : list MediaDeviceInfo) (s : SelectableDevices) : devices <> [] ->
  let s' := (reselect (default EmptyString (sd_selected s)) devices s).1 in
  selected_id s' ∈ md_device_id <$> devices /\
  (forall a, sd_selected s = Some a -> a <> EmptyString -> a ∈ md_device_id <$> devices -> selected_id s' = a).
Proof.
  intros Hne. unfold reselect. destruct (String.eqb_spec (default EmptyString (sd_selected s)) EmptyString) as [He|He]; simpl.
  - destruct devices as [|d devices]; [done |]. simpl. split; [set_solver |]. intros a Ha Hna. rewrite Ha in He. done.
  - destruct (has_device _ devices) eqn:Eh.
    + apply has_device_spec in Eh. simpl. destruct (sd_selected s) as [a|] eqn:Es; [|done]. unfold selected_id. rewrite Es.
      simpl in Eh. split; [done |]. by intros ? [= ->].
    + destruct devices as [|d devices]; [done |]. simpl. split; [set_solver |].
      intros a Ha _ Hin. rewrite Ha in Eh. cbn [default] in Eh. apply (has_device_spec a (d :: devices)) in Hin. unfold default, id in Eh. congruence.
Qed.

(** A change of devices with nothing in between: in each list that is not empty the selection
    is a listed device, and a selected device that is still listed stays selected. *)
Theorem change_keeps_selections_valid (m : MediaDeviceList) (devices : list MediaDeviceInfo) :
  let m' := (change_done (fun m => m) (fun m _ => m) (fun m => m) (current_selections m) devices m).1 in
  forall kind s s', (kind, s, s') ∈ [(Audioinput, audio_inputs m, audio_inputs m'); (Videoinput, video_inputs m, video_inputs m');
                                     (Audiooutput, audio_outputs m, audio_outputs m')] ->
  sd_devices s' = of_kind kind devices /\
  (of_kind kind devices <> [] ->
   selected_id s' ∈ md_device_id <$> of_kind kind devices /\
   (forall a, sd_selected s = Some a -> a <> EmptyString -> a ∈ md_device_id <$> of_kind kind devices -> selected_id s' = a)).
Proof.
  intros m' kind s s' Hin.
  assert (exists s0, sd_selected s0 = sd_selected s /\ sd_devices s0 = of_kind kind devices /\
    s' = (reselect (default EmptyString (sd_selected s)) (of_kind kind devices) s0).1) as (s0 & E1 & E2 & ->).
  { unfold m', change_done, reselect_all in Hin. cbn zeta in Hin.
    set (m1 := if lists_changed m (replace_lists devices m) then replace_lists devices m else replace_lists devices m) in Hin.
    assert (m1 = replace_lists devices m) as Hm1 by (unfold m1; by destruct (lists_changed _ _)). rewrite Hm1 in Hin.
    destruct (reselect (cur_audio _) _ _) as [a ea] eqn:Ea. destruct (reselect (cur_video _) _ _) as [v ev] eqn:Ev.
    destruct (reselect (cur_output _) _ _) as [o eo] eqn:Eo. simpl in Hin.
    rewrite !elem_of_cons, elem_of_nil in Hin. destruct Hin as [[= -> -> ->] | [[= -> -> ->] | [[= -> -> ->] | []]]].
    - eexists (sd_set_devices _ (audio_inputs m)). split_and!; [done | done |]. simpl in Ea. unfold current_selections in Ea. simpl in Ea. by rewrite Ea.
    - eexists (sd_set_devices _ (video_inputs m)). split_and!; [done | done |]. simpl in Ev. unfold current_selections in Ev. simpl in Ev. by rewrite Ev.
    - eexists (sd_set_devices _ (audio_outputs m)). split_and!; [done | done |]. simpl in Eo. unfold current_selections in Eo. simpl in Eo. by rewrite Eo. }
  rewrite <- E1. split.
  - unfold reselect. destruct (_ && _); [done |]. by destruct (of_kind kind devices).
  - intros Hne. exact (reselect_valid _ s0 Hne).
Qed.

Section Host.
Context {wire : Wire} {media : MediaWire} {cipher : Cipher}.
Context (codec : Z) (user_id : string) (aes : Aes128State).

Fixpoint host_run (evs : list host_event) (h : Host) : Host * list host_effect :=
  match evs with
  | [] => (h, [])
  | ev :: evs => let '(h, e1) := host_step codec user_id aes h ev in let '(h, e2) := host_run evs h in (h, e1 ++ e2)
  end.

(** What the parts of the callback leave alone. *)
Lemma changed_camera_keeps (id : string) (h : Host) :
  ho_mic (changed_camera id h).1 = ho_mic h /\ ho_mic_timers (changed_camera id h).1 = ho_mic_timers h /\
  audio_inputs (ho_media (changed_camera id h).1) = audio_inputs (ho_media h).
Proof. unfold changed_camera, camera_select. destruct (String.eqb _ _); [done |]. by destruct (es_select _ _). Qed.

Lemma changed_speaker_keeps (speaker_ok : bool) (id : string) (h : Host) :
  let h' := changed_speaker speaker_ok id h in
  ho_mic h' = ho_mic h /\ ho_mic_timers h' = ho_mic_timers h /\ audio_inputs (ho_media h') = audio_inputs (ho_media h) /\
  ho_camera h' = ho_camera h /\ ho_prev_mic_enabled h' = ho_prev_mic_enabled h /\ ho_prev_video_enabled h' = ho_prev_video_enabled h.
Proof. unfold changed_speaker. destruct (String.eqb _ _); [done |]. by destruct speaker_ok. Qed.

(** What the callback of a change does to the microphone when the selected one is not listed. *)
Lemma changed_selects_missing (speaker_ok : bool) (h : Host) (a : string) :
  sd_selected (audio_inputs (ho_media h)) = Some a -> a <> EmptyString ->
  has_device a (sd_devices (audio_inputs (ho_media h))) = false -> es_enabled (me_state (ho_mic h)) = true ->
  let h' := on_devices_changed speaker_ok h in
  ho_mic h' = (mic_select a (ho_mic h)).1 /\ ho_mic_timers h' = S (ho_mic_timers h) /\
  audio_inputs (ho_media h') = audio_inputs (ho_media h).
Proof.
  intros Hs Ha Hd He h'. assert (selected_id (audio_inputs (ho_media h)) = a) as Hid by (unfold selected_id; by rewrite Hs).
  unfold h', on_devices_changed, changed_microphone. rewrite Hid, (proj2 (String.eqb_neq a EmptyString)) by done.
  unfold mic_select, es_select. simpl. rewrite He. simpl.
  match goal with |- context [changed_camera ?v ?h1] => destruct (changed_camera_keeps v h1) as (M1 & M2 & M3) end.
  destruct (changed_camera _ _) as [h2 b2]. simpl in M1, M2, M3.
  match goal with |- context [changed_speaker speaker_ok ?o h2] => destruct (changed_speaker_keeps speaker_ok o h2) as (N1 & N2 & N3 & _) end.
  set (h3 := changed_speaker _ _ _) in *.
  rewrite Hd in M3. destruct b2; simpl; rewrite N1, N2, N3, M1, M2, M3; done.
Qed.

(** The browser reports that the microphone in use is gone. The list moves its selection to a
    device that exists, but the host has asked for the selection before that: when the task on
    the old device has ended and the timeout is over, the microphone is requested from the
    device that is gone. *)
Theorem unplugged_microphone_is_requested_again (h : Host) (a : string) (cur : Selections) (rest : list Selections)
    (first : MediaDeviceInfo) (more devices : list MediaDeviceInfo) (task : Z) (t : MicTask) (speaker_ok : bool) :
  ho_changes h = cur :: rest -> cur_audio cur = a -> sd_selected (audio_inputs (ho_media h)) = Some a -> a <> EmptyString ->
  has_device a (sd_devices (audio_inputs (ho_media h))) = true ->
  of_kind Audioinput devices = first :: more -> has_device a (of_kind Audioinput devices) = false ->
  es_enabled (me_state (ho_mic h)) = true -> on_task task Running (ho_mic h) = Some t ->
  let h' := (host_run [HoChangeDone devices speaker_ok; HoMicEvent (MeMonitor task); HoMicTimer] h).1 in
  selected_id (audio_inputs (ho_media h')) = md_device_id first /\ md_device_id first <> a /\
  me_tasks (ho_mic h') =
    <[me_next_task (ho_mic h) := mkMicTask a Requesting audio_handler_new (F32.of_Z 0)]> (delete task (me_tasks (ho_mic h))).
Proof.
  intros Hc Hcur Hs Ha Hold Hdev Hgone He Ht h'.
  assert (md_device_id first <> a) as Hne.
  { intros E. rewrite Hdev in Hgone. simpl in Hgone. rewrite E, String.eqb_refl in Hgone. done. }
  set (h1 := (h <| ho_changes := rest |>) <| ho_media := replace_lists devices (ho_media h) |>).
  assert (lists_changed (ho_media h) (ho_media h1) = true) as Hch.
  { unfold lists_changed. rewrite bool_decide_false; [done |]. intros E. apply has_device_spec in Hold.
    change (md_device_id <$> sd_devices (audio_inputs (ho_media h))) with (device_ids (audio_inputs (ho_media h))) in Hold.
    rewrite E in Hold. apply (has_device_spec a (of_kind Audioinput devices)) in Hold. congruence. }
  destruct (changed_selects_missing speaker_ok h1 a) as (Hm & Htm & Hau); [done | done | exact Hgone | done |].
  set (h2 := on_devices_changed speaker_ok h1) in *.
  assert (exists media, audio_inputs media = (audio_inputs (ho_media h2)) <| sd_selected := Some (md_device_id first) |> /\
    (host_step codec user_id aes h (HoChangeDone devices speaker_ok)).1 = h2 <| ho_media := media |> /\
    (host_step codec user_id aes h (HoChangeDone devices speaker_ok)).2 = []) as (media' & Hmed & Hstep & Heff).
  { unfold host_step. rewrite Hc. unfold change_done. cbn zeta.
    change (ho_media (h <| ho_changes := rest |>)) with (ho_media h). fold h1. rewrite Hch. fold h2. unfold reselect_all.
    rewrite Hcur, Hdev. unfold reselect at 1. rewrite Hdev in Hgone. rewrite Hgone, andb_false_r.
    destruct (reselect (cur_video cur) _ _) as [v ev]. destruct (reselect (cur_output cur) _ _) as [o eo].
    eexists. split_and!; [|reflexivity | reflexivity]. done. }
  unfold h'. cbn [host_run]. destruct (host_step codec user_id aes h (HoChangeDone devices speaker_ok)) as [h3 e3].
  simpl in Hstep, Heff. subst e3.
  assert (ho_mic h3 = (mic_select a (ho_mic h)).1) as Hmic by (rewrite Hstep; exact Hm).
  assert (ho_mic_timers h3 = S (ho_mic_timers h)) as Htimers by (rewrite Hstep; exact Htm).
  assert (selected_id (audio_inputs (ho_media h3)) = md_device_id first) as Hsel
    by (rewrite Hstep; unfold selected_id; simpl; by rewrite Hmed).
  clear Hstep Hm Htm. unfold mic_select, es_select in Hmic. simpl in Hmic. rewrite He in Hmic. simpl in Hmic.
  unfold host_step. cbn [mic_own_event mic_step]. unfold mic_monitor.
  replace (on_task task Running (ho_mic h3)) with (Some t) by (rewrite Hmic; unfold on_task in *; simpl; by rewrite Ht).
  rewrite Hmic. simpl. rewrite Htimers. unfold mic_start. simpl. done.
Qed.
(** ** What is switched off *)

Definition mic_of (e : host_effect) : option mic_effect := match e with HeMic e => Some e | _ => None end.
Definition camera_of (e : host_effect) : option video_effect := match e with HeCamera e => Some e | _ => None end.

Lemma mics (es : list mic_effect) : omap mic_of (HeMic <$> es) = es /\ omap camera_of (HeMic <$> es) = [].
Proof. split; induction es; simpl; try done; by f_equal. Qed.

Lemma cameras (es : list video_effect) : omap mic_of (HeCamera <$> es) = [] /\ omap camera_of (HeCamera <$> es) = es.
Proof. split; induction es; simpl; try done; by f_equal. Qed.

Lemma screens (es : list screen_effect) : omap mic_of (HeScreen <$> es) = [] /\ omap camera_of (HeScreen <$> es) = [].
Proof. by induction es. Qed.

(** What a step does to the microphone and to the camera are events of theirs. *)
Record acts (h : Host) (ev : host_event) (out : Host * list host_effect) (mes : list mic_event) (ces : list cam_event) : Prop := mk_acts {
  ac_mic : mic_run user_id aes mes (ho_mic h) = (ho_mic out.1, omap mic_of out.2);
  ac_camera : camera_run codec user_id aes ces (ho_camera h) = (ho_camera out.1, omap camera_of out.2);
  ac_mic_on : MeEnable true ∈ mes -> ho_prev_mic_enabled out.1 = true;
  ac_camera_on : Exists (fun ev => enabling ev = true) ces -> ho_prev_video_enabled out.1 = true;
  ac_mic_off : ho_prev_mic_enabled h = true -> ho_prev_mic_enabled out.1 = false -> enabled (ho_mic out.1) = false;
  ac_camera_off : ho_prev_video_enabled h = true -> ho_prev_video_enabled out.1 = false -> camera_enabled (ho_camera out.1) = false;
  ac_prev : match ev with
            | HoRender _ _ mic video _ => ho_prev_mic_enabled out.1 = mic /\ ho_prev_video_enabled out.1 = video
            | _ => ho_prev_mic_enabled out.1 = ho_prev_mic_enabled h /\ ho_prev_video_enabled out.1 = ho_prev_video_enabled h
            end;
}.

Lemma acts_plain (h : Host) (ev : host_event) (out : Host * list host_effect) (mes : list mic_event) (ces : list cam_event) :
  mic_run user_id aes mes (ho_mic h) = (ho_mic out.1, omap mic_of out.2) ->
  camera_run codec user_id aes ces (ho_camera h) = (ho_camera out.1, omap camera_of out.2) ->
  (MeEnable true ∈ mes -> ho_prev_mic_enabled out.1 = true) ->
  (Exists (fun ev => enabling ev = true) ces -> ho_prev_video_enabled out.1 = true) ->
  match ev with HoRender _ _ _ _ _ => False | _ => True end ->
  ho_prev_mic_enabled out.1 = ho_prev_mic_enabled h -> ho_prev_video_enabled out.1 = ho_prev_video_enabled h -> acts h ev out mes ces.
Proof. intros H1 H2 H3 H4 Hr H5 H6. constructor; try done; [congruence | congruence |]. by destruct ev. Qed.

(** The three parts of a rendering. *)
Lemma share_prop_acts (share : bool) (h : Host) :
  let '(h', effects) := on_share_prop share h in
  ho_mic h' = ho_mic h /\ ho_camera h' = ho_camera h /\ ho_media h' = ho_media h /\
  ho_prev_mic_enabled h' = ho_prev_mic_enabled h /\ ho_prev_video_enabled h' = ho_prev_video_enabled h /\
  omap mic_of effects = [] /\ omap camera_of effects = [].
Proof.
  unfold on_share_prop. destruct (Bool.eqb _ _); [done |]. destruct share; [done |].
  destruct (screen_stop _) as [screen es]. split_and!; try done; apply screens.
Qed.

Lemma mic_prop_acts (mic : bool) (h : Host) :
  let '(h', effects) := on_mic_prop mic h in
  exists mes, mic_run user_id aes mes (ho_mic h) = (ho_mic h', omap mic_of effects) /\ (MeEnable true ∈ mes -> mic = true) /\
  (ho_prev_mic_enabled h = true -> mic = false -> enabled (ho_mic h') = false) /\
  ho_camera h' = ho_camera h /\ ho_prev_mic_enabled h' = mic /\ ho_prev_video_enabled h' = ho_prev_video_enabled h /\
  omap camera_of effects = [].
Proof.
  unfold on_mic_prop. destruct (Bool.eqb (ho_prev_mic_enabled h) mic) eqn:Eb.
  { apply Bool.eqb_prop in Eb. exists []. split_and!; try done; [set_solver | congruence]. }
  destruct mic.
  - set (id := selected_id _). set (m := if String.eqb id EmptyString then _ else _).
    destruct (mic_set_enabled true m) as [[m1 e1] b1] eqn:E1. destruct (mic_start m1) as [m2 e2] eqn:E2. cbn iota.
    exists ((if String.eqb id EmptyString then [] else [MeSelect id]) ++ [MeEnable true; MeStart]).
    assert (mic_run user_id aes [MeEnable true; MeStart] m = (m2, e1 ++ e2)) as Hrun by (simpl; by rewrite E1, E2, app_nil_r).
    rewrite !omap_app. destruct (mics (e1 ++ e2)) as [-> ->]. split_and!; try done.
    unfold m in Hrun. destruct (String.eqb id EmptyString); cbn [app mic_run mic_step]; simpl in Hrun |- *; rewrite Hrun; simpl; by rewrite app_nil_r.
  - match goal with |- context [mic_set_enabled false ?x] => change x with (ho_mic h) end.
    destruct (mic_set_enabled false (ho_mic h)) as [[m1 e1] b1] eqn:E1. destruct (mic_stop m1) as [m2 e2] eqn:E2. cbn iota.
    exists [MeEnable false; MeStop]. rewrite !omap_app. destruct (mics (e1 ++ e2)) as [-> ->].
    split_and!; try done; [|set_solver |].
    + cbn [mic_run mic_step]. rewrite E1, E2. simpl. by rewrite !app_nil_r.
    + intros _ _. unfold mic_stop in E2. simpl in E2. by injection E2 as <- <-.
Qed.

Lemma video_prop_acts (video : bool) (now : float) (h : Host) :
  let '(h', effects) := on_video_prop video now h in
  exists ces, camera_run codec user_id aes ces (ho_camera h) = (ho_camera h', omap camera_of effects) /\
  (Exists (fun ev => enabling ev = true) ces -> video = true) /\
  (ho_prev_video_enabled h = true -> video = false -> camera_enabled (ho_camera h') = false) /\
  ho_mic h' = ho_mic h /\ ho_prev_video_enabled h' = video /\ ho_prev_mic_enabled h' = ho_prev_mic_enabled h /\ omap mic_of effects = [].
Proof.
  unfold on_video_prop. destruct (Bool.eqb (ho_prev_video_enabled h) video) eqn:Eb.
  { apply Bool.eqb_prop in Eb. exists []. split_and!; try done; [intros H; inv H | congruence]. }
  destruct video.
  - set (id := selected_id _). exists ((if String.eqb id EmptyString then [] else [CaSelect id]) ++ [CaEnable true; CaStart now]).
    destruct (String.eqb id EmptyString); by split_and!.
  - exists [CaEnable false; CaStop]. split_and!; try done. rewrite !Exists_cons, Exists_nil. simpl. naive_solver.
Qed.
Lemma render_acts (reload share mic video : bool) (now : float) (h : Host) :
  exists mes ces, acts h (HoRender reload share mic video now) (host_render reload share mic video now h) mes ces.
Proof.
  unfold host_render. set (h0 := if reload then _ else h).
  assert (ho_mic h0 = ho_mic h /\ ho_camera h0 = ho_camera h /\ ho_prev_mic_enabled h0 = ho_prev_mic_enabled h /\
    ho_prev_video_enabled h0 = ho_prev_video_enabled h) as (R1 & R2 & R3 & R4) by (unfold h0; by destruct reload).
  pose proof (share_prop_acts share h0) as H1. destruct (on_share_prop share h0) as [h1 e1].
  destruct H1 as (A1 & A2 & _ & A3 & A4 & A5 & A6).
  pose proof (mic_prop_acts mic h1) as H2. destruct (on_mic_prop mic h1) as [h2 e2].
  destruct H2 as (mes & B1 & B2 & B3 & B4 & B5 & B6 & B7).
  pose proof (video_prop_acts video now h2) as H3. destruct (on_video_prop video now h2) as [h3 e3].
  destruct H3 as (ces & C1 & C2 & C3 & C4 & C5 & C6 & C7).
  exists mes, ces. constructor; simpl; rewrite ?omap_app, ?A5, ?A6, ?B7, ?C7, ?app_nil_r, ?app_nil_l.
  - rewrite <- R1, <- A1, C4. exact B1.
  - rewrite <- R2, <- A2, <- B4. exact C1.
  - rewrite C6, B5. exact B2.
  - rewrite C5. exact C2.
  - rewrite <- R3, <- A3, C6, B5, C4. exact B3.
  - rewrite <- R4, <- A4, <- B6, C5. exact C3.
  - split; [by rewrite C6 | done].
Qed.

Lemma loaded_acts (h : Host) (ev : host_event) (h0 : Host) :
  ho_mic h0 = ho_mic h -> ho_camera h0 = ho_camera h -> ho_prev_mic_enabled h0 = ho_prev_mic_enabled h ->
  ho_prev_video_enabled h0 = ho_prev_video_enabled h -> match ev with HoRender _ _ _ _ _ => False | _ => True end ->
  exists mes ces, acts h ev (on_loaded h0) mes ces.
Proof.
  intros R1 R2 R3 R4 Hev. unfold on_loaded. set (v := selected_id (video_inputs _)). set (a := selected_id (audio_inputs _)). clearbody v a.
  assert (exists ces, camera_run codec user_id aes ces (ho_camera h) = (ho_camera (loaded_camera v h0), []) /\
    (Exists (fun ev => enabling ev = true) ces -> ho_prev_video_enabled h = true) /\
    ho_mic (loaded_camera v h0) = ho_mic h /\ ho_prev_mic_enabled (loaded_camera v h0) = ho_prev_mic_enabled h /\
    ho_prev_video_enabled (loaded_camera v h0) = ho_prev_video_enabled h) as (ces & C1 & C2 & C3 & C4 & C5).
  { unfold loaded_camera. destruct (String.eqb v EmptyString).
    - exists []. rewrite R2. split_and!; try done. intros H; inv H.
    - simpl. destruct (ho_prev_video_enabled h0) eqn:Ev.
      + exists [CaStop; CaSelect v; CaEnable true]. rewrite <- R2. by split_and!.
      + exists [CaSelect v]. rewrite <- R2. split_and!; try done. rewrite Exists_cons, Exists_nil. simpl. naive_solver. }
  set (h1 := loaded_camera v h0) in *. clearbody h1.
  assert (exists mes, mic_run user_id aes mes (ho_mic h) = (ho_mic (loaded_microphone a h1).1, (loaded_microphone a h1).2) /\
    (MeEnable true ∈ mes -> ho_prev_mic_enabled h = true) /\ ho_camera (loaded_microphone a h1).1 = ho_camera h1 /\
    ho_prev_mic_enabled (loaded_microphone a h1).1 = ho_prev_mic_enabled h1 /\
    ho_prev_video_enabled (loaded_microphone a h1).1 = ho_prev_video_enabled h1) as (mes & M1 & M2 & M3 & M4 & M5).
  { unfold loaded_microphone. destruct (String.eqb a EmptyString).
    - exists []. simpl. rewrite C3. split_and!; try done. set_solver.
    - cbn zeta. change (ho_prev_mic_enabled (with_audio_inputs (sd_select a) h1)) with (ho_prev_mic_enabled h1).
      destruct (ho_prev_mic_enabled h1) eqn:Em.
      + exists [MeStop; MeSelect a; MeEnable true]. rewrite <- C3. cbn [mic_run mic_step].
        change (ho_mic (with_audio_inputs (sd_select a) h1)) with (ho_mic h1).
        destruct (mic_stop (ho_mic h1)) as [m1 e1]. destruct (mic_select a m1) as [m2 b2]. cbn [fst].
        destruct (mic_set_enabled true m2) as [[m3 e3] b3]. split_and!; try done; simpl; by rewrite ?app_nil_r.
      + exists [MeSelect a]. rewrite <- C3. cbn [mic_run mic_step]. change (ho_mic (with_audio_inputs (sd_select a) h1)) with (ho_mic h1).
        destruct (mic_select a (ho_mic h1)) as [m2 b2]. simpl. split_and!; try done. set_solver. }
  destruct (loaded_microphone a h1) as [h2 e2]. exists mes, ces. simpl in *. destruct (mics e2) as [E1 E2].
  apply acts_plain; simpl; rewrite ?E1, ?E2, ?M3, ?M4, ?M5; try done; congruence || (intros; rewrite ?C4, ?C5; auto).
Qed.
Lemma changed_acts (speaker_ok : bool) (h h0 : Host) (ev : host_event) :
  ho_mic h0 = ho_mic h -> ho_camera h0 = ho_camera h -> ho_prev_mic_enabled h0 = ho_prev_mic_enabled h ->
  ho_prev_video_enabled h0 = ho_prev_video_enabled h -> match ev with HoRender _ _ _ _ _ => False | _ => True end ->
  exists mes ces, acts h ev (on_devices_changed speaker_ok h0, []) mes ces.
Proof.
  intros R1 R2 R3 R4 Hev. unfold on_devices_changed.
  set (a := selected_id (audio_inputs _)). set (v := selected_id (video_inputs _)). set (o := selected_id (audio_outputs _)). clearbody a v o.
  assert (exists mes, mic_run user_id aes mes (ho_mic h) = (ho_mic (changed_microphone a h0).1, []) /\ MeEnable true ∉ mes /\
    ho_camera (changed_microphone a h0).1 = ho_camera h /\ ho_prev_mic_enabled (changed_microphone a h0).1 = ho_prev_mic_enabled h /\
    ho_prev_video_enabled (changed_microphone a h0).1 = ho_prev_video_enabled h) as (mes & M1 & M2 & M3 & M4 & M5).
  { unfold changed_microphone, mic_select. destruct (String.eqb a EmptyString).
    - exists []. simpl. rewrite R1. split_and!; try done. set_solver.
    - exists [MeSelect a]. simpl. unfold mic_select. rewrite <- R1. destruct (es_select _ _). split_and!; try done. set_solver. }
  destruct (changed_microphone a h0) as [h1 b1]. simpl in M1, M3, M4, M5.
  assert (exists ces, camera_run codec user_id aes ces (ho_camera h) = (ho_camera (changed_camera v h1).1, []) /\
    ~ Exists (fun ev => enabling ev = true) ces /\ ho_mic (changed_camera v h1).1 = ho_mic h1 /\
    ho_prev_mic_enabled (changed_camera v h1).1 = ho_prev_mic_enabled h1 /\
    ho_prev_video_enabled (changed_camera v h1).1 = ho_prev_video_enabled h1) as (ces & C1 & C2 & C3 & C4 & C5).
  { unfold changed_camera, camera_select. destruct (String.eqb v EmptyString).
    - exists []. simpl. rewrite M3. split_and!; try done. intros H. inv H.
    - exists [CaSelect v]. simpl. unfold camera_select. rewrite <- M3. destruct (es_select _ _). split_and!; try done.
      rewrite Exists_cons, Exists_nil. simpl. naive_solver. }
  destruct (changed_camera v h1) as [h2 b2]. simpl in C1, C3, C4, C5.
  destruct (changed_speaker_keeps speaker_ok o h2) as (N1 & _ & _ & N2 & N3 & N4). set (h3 := changed_speaker _ _ _) in *.
  exists mes, ces. apply acts_plain; try done; destruct b1, b2; simpl; congruence.
Qed.

Lemma step_acts (h : Host) (ev : host_event) : exists mes ces, acts h ev (host_step codec user_id aes h ev) mes ces.
Proof.
  assert (forall out : Host * list host_effect, ho_mic out.1 = ho_mic h -> ho_camera out.1 = ho_camera h ->
    ho_prev_mic_enabled out.1 = ho_prev_mic_enabled h -> ho_prev_video_enabled out.1 = ho_prev_video_enabled h ->
    omap mic_of out.2 = [] -> omap camera_of out.2 = [] -> match ev with HoRender _ _ _ _ _ => False | _ => True end ->
    exists mes ces, acts h ev out mes ces) as Hid.
  { intros out E1 E2 E3 E4 E5 E6 Hev. exists [], []. apply acts_plain; try done; simpl; rewrite ?E1, ?E2, ?E5, ?E6; try done; [set_solver | intros H; inv H]. }
  assert (forall (out : Host * list host_effect) me, match ev with HoRender _ _ _ _ _ => False | _ => True end -> me <> MeEnable true ->
    (ho_mic out.1, omap mic_of out.2) = mic_step user_id aes (ho_mic h) me -> ho_camera out.1 = ho_camera h -> omap camera_of out.2 = [] ->
    ho_prev_mic_enabled out.1 = ho_prev_mic_enabled h -> ho_prev_video_enabled out.1 = ho_prev_video_enabled h ->
    exists mes ces, acts h ev out mes ces) as Hmic.
  { intros out me Hev Hme E1 E2 E3 E4 E5. exists [me], []. apply acts_plain; try done; simpl; rewrite ?E2, ?E3; try done; [|set_solver | intros H; inv H].
    rewrite <- E1. by rewrite app_nil_r. }
  assert (forall (out : Host * list host_effect) ce, match ev with HoRender _ _ _ _ _ => False | _ => True end -> enabling ce = false ->
    (ho_camera out.1, omap camera_of out.2) = camera_step codec user_id aes (ho_camera h) ce -> ho_mic out.1 = ho_mic h -> omap mic_of out.2 = [] ->
    ho_prev_mic_enabled out.1 = ho_prev_mic_enabled h -> ho_prev_video_enabled out.1 = ho_prev_video_enabled h ->
    exists mes ces, acts h ev out mes ces) as Hcam.
  { intros out ce Hev Hce E1 E2 E3 E4 E5. exists [], [ce]. apply acts_plain; try done; simpl; rewrite ?E2, ?E3; try done;
      [|set_solver | rewrite Exists_cons, Exists_nil; naive_solver congruence].
    rewrite <- E1. by rewrite app_nil_r. }
  destruct ev as [devices| |devices speaker_ok|reload share mic video now| |device|device|device speaker_ok| |now| |ev|ev|ev]; cbn [host_step].
  - destruct (ho_loads h); [by apply Hid |]. by apply loaded_acts.
  - destruct (ml_listening _); by apply Hid.
  - destruct (ho_changes h) as [|cur rest]; [by apply Hid |]. unfold change_done. cbn zeta.
    destruct (lists_changed _ _).
    + destruct (changed_acts speaker_ok h (h <| ho_changes := rest |> <| ho_media := replace_lists devices (ho_media (h <| ho_changes := rest |>)) |>)
        (HoChangeDone devices speaker_ok)) as (mes & ces & [A1 A2 A3 A4 A5 A6 A7]); try done.
      destruct (reselect_all _ _ _) as [m e]. exists mes, ces. by constructor.
    + destruct (reselect_all _ _ _) as [m e]. by apply Hid.
  - apply render_acts.
  - by apply Hid.
  - apply (Hmic _ (MeSelect device)); try done; unfold on_mic_change, with_audio_inputs, mic_select; simpl; unfold mic_select; simpl;
      destruct (es_select _ _) as [st b]; by destruct b.
  - apply (Hcam _ (CaSelect device)); try done; unfold on_cam_change, with_video_inputs, camera_select; simpl; unfold camera_select; simpl;
      destruct (es_select _ _) as [st b]; by destruct b.
  - unfold on_speaker_change. destruct speaker_ok; by apply Hid.
  - destruct (ho_mic_timers h); [by apply Hid |]. destruct (mic_start (ho_mic h)) as [m e] eqn:E. destruct (mics e) as [E1 E2].
    apply (Hmic _ MeStart); try done. simpl. by rewrite E, E1.
  - destruct (ho_camera_timers h); [by apply Hid |]. by apply (Hcam _ (CaStart now)).
  - destruct (ho_screen_timers h); by apply Hid.
  - destruct (mic_own_event ev) eqn:Eo; [|by apply Hid]. destruct (mic_step user_id aes (ho_mic h) ev) as [m e] eqn:E. destruct (mics e) as [E1 E2].
    apply (Hmic _ ev); try done; [by intros -> | simpl; by rewrite E, E1].
  - destruct (camera_own_event ev) eqn:Eo; [|by apply Hid]. destruct (camera_step codec user_id aes (ho_camera h) ev) as [c e] eqn:E.
    destruct (cameras e) as [E1 E2]. apply (Hcam _ ev); try done; [by destruct ev | simpl; by rewrite E, E2].
  - destruct (screen_own_event ev) eqn:Eo; [|by apply Hid]. destruct (screen_step codec user_id aes (ho_screen h) ev) as [c e] eqn:E.
    destruct (screens e) as [E1 E2]. by apply Hid.
Qed.
Lemma never_enabling (ces : list cam_event) (P : Prop) :
  (Exists (fun ev => enabling ev = true) ces -> P) -> ~ P -> Forall (fun ev => enabling ev = false) ces.
Proof.
  intros H HP. apply Forall_forall. intros ce Hce. destruct (enabling ce) eqn:Ee; [|done]. destruct HP. apply H, Exists_exists. eauto.
Qed.

(** An encoder that is enabled was switched on. *)
Definition switched (h : Host) : Prop :=
  (enabled (ho_mic h) = true -> ho_prev_mic_enabled h = true) /\ (camera_enabled (ho_camera h) = true -> ho_prev_video_enabled h = true).

Definition off (h : Host) : Prop :=
  ho_prev_mic_enabled h = false /\ enabled (ho_mic h) = false /\ ho_prev_video_enabled h = false /\ camera_enabled (ho_camera h) = false.

Lemma switched_step (h : Host) (ev : host_event) : switched h -> switched (host_step codec user_id aes h ev).1.
Proof.
  intros [Hm Hc]. destruct (step_acts h ev) as (mes & ces & [A1 A2 A3 A4 A5 A6 A7]). split; intros He.
  - destruct (ho_prev_mic_enabled (host_step codec user_id aes h ev).1) eqn:E; [done |].
    destruct (ho_prev_mic_enabled h) eqn:Eh; [specialize (A5 eq_refl eq_refl); congruence |].
    assert (enabled (ho_mic h) = false) as Hd by (destruct (enabled (ho_mic h)); [by specialize (Hm eq_refl) | done]).
    destruct (disabled_run user_id aes mes (ho_mic h) Hd) as [H1 _]; [intros Hin; specialize (A3 Hin); congruence |].
    rewrite A1 in H1. simpl in H1. congruence.
  - destruct (ho_prev_video_enabled (host_step codec user_id aes h ev).1) eqn:E; [done |].
    destruct (ho_prev_video_enabled h) eqn:Eh; [specialize (A6 eq_refl eq_refl); congruence |].
    assert (camera_enabled (ho_camera h) = false) as Hd by (destruct (camera_enabled (ho_camera h)); [by specialize (Hc eq_refl) | done]).
    pose proof (camera_disabled_run codec user_id aes 0 ces (ho_camera h) Hd) as H1. rewrite A2 in H1. destruct H1 as [H1 _]; [|congruence].
    apply (never_enabling _ _ A4). congruence.
Qed.

Lemma host_run_app (evs1 evs2 : list host_event) (h : Host) :
  host_run (evs1 ++ evs2) h = let '(h1, e1) := host_run evs1 h in let '(h2, e2) := host_run evs2 h1 in (h2, e1 ++ e2).
Proof.
  revert h. induction evs1 as [|ev evs1 IH]; intros h; simpl; [by destruct (host_run evs2 h) |].
  destruct (host_step _ _ _ h ev) as [h1 e1]. rewrite IH. destruct (host_run evs1 h1) as [h2 e2]. destruct (host_run evs2 h2). by rewrite app_assoc.
Qed.

Lemma switched_run (evs : list host_event) (h : Host) : switched h -> switched (host_run evs h).1.
Proof.
  revert h. induction evs as [|ev evs IH]; intros h H; [done |]. simpl. pose proof (switched_step h ev H) as H1.
  destruct (host_step _ _ _ h ev) as [h1 e1]. specialize (IH h1 H1). by destruct (host_run evs h1).
Qed.

(** A rendering with both switches off, and what follows until one is on. *)
Definition stays_off (ev : host_event) : Prop := match ev with HoRender _ _ mic video _ => mic = false /\ video = false | _ => True end.

Lemma render_off (reload share : bool) (now : float) (h : Host) :
  switched h -> off (host_step codec user_id aes h (HoRender reload share false false now)).1.
Proof.
  intros H. pose proof (switched_step h (HoRender reload share false false now) H) as [H1 H2].
  destruct (step_acts h (HoRender reload share false false now)) as (mes & ces & [_ _ _ _ _ _ [P1 P2]]).
  unfold off. rewrite P1, P2 in *. split_and!; try done.
  - by destruct (enabled _); [specialize (H1 eq_refl) |].
  - by destruct (camera_enabled _); [specialize (H2 eq_refl) |].
Qed.

Lemma off_step (task : Z) (h : Host) (ev : host_event) : off h -> stays_off ev ->
  let '(h', effects) := host_step codec user_id aes h ev in
  off h' /\ quiet (omap mic_of effects) /\
  (encoded task (omap camera_of effects) + remaining task (ho_camera h') <= remaining task (ho_camera h))%nat.
Proof.
  intros (O1 & O2 & O3 & O4) Hs. destruct (step_acts h ev) as (mes & ces & [A1 A2 A3 A4 _ _ A7]).
  destruct (host_step codec user_id aes h ev) as [h' effects]. simpl in *.
  assert (ho_prev_mic_enabled h' = false /\ ho_prev_video_enabled h' = false) as [P1 P2].
  { destruct ev; try (destruct A7; split; congruence). destruct Hs, A7. split; congruence. }
  destruct (disabled_run user_id aes mes (ho_mic h) O2) as [M1 M2]; [intros Hin; specialize (A3 Hin); congruence |].
  pose proof (camera_disabled_run codec user_id aes task ces (ho_camera h) O4) as C. rewrite A1 in M1, M2. rewrite A2 in C. destruct C as [C1 C2].
  { apply (never_enabling _ _ A4). congruence. }
  by split_and!.
Qed.

Lemma off_run (task : Z) (evs : list host_event) (h : Host) : off h -> Forall stays_off evs ->
  let '(h', effects) := host_run evs h in
  quiet (omap mic_of effects) /\
  (encoded task (omap camera_of effects) + remaining task (ho_camera h') <= remaining task (ho_camera h))%nat.
Proof.
  intros Ho Hs. revert h Ho. induction Hs as [|ev evs Hev Hs IH]; intros h Ho; simpl; [split; [constructor | done] |].
  pose proof (off_step task h ev Ho Hev) as H1. destruct (host_step codec user_id aes h ev) as [h1 e1]. destruct H1 as (O1 & Q1 & N1).
  specialize (IH h1 O1). destruct (host_run evs h1) as [h2 e2]. destruct IH as [Q2 N2]. rewrite !omap_app, encoded_app, quiet_app. split; [done | lia].
Qed.

(** C30: What the user switches off is off. However the host was used before, once it is drawn
    with the microphone and the camera off, then whatever happens until one of them is switched
    on again (devices enumerated late, unplugged and chosen, timeouts that start encoders,
    permissions granted late, frames still under way), no audio is sent, and each camera task
    encodes at most one more frame, and only if it was encoding. *)
Theorem switched_off_is_off (video_bitrate screen_bitrate : Z) (vad : option float) (fec : bool) (h0 : Host)
    (before evs : list host_event) (reload share : bool) (now : float) (task : Z) :
  host_new video_bitrate screen_bitrate vad fec = Some h0 -> Forall stays_off evs ->
  let h := (host_run (before ++ [HoRender reload share false false now]) h0).1 in
  let effects := (host_run evs h).2 in
  quiet (omap mic_of effects) /\
  (encoded task (omap camera_of effects) <= if camera_encoding task (ho_camera h) then 1 else 0)%nat.
Proof.
  intros Hnew Hs h effects. assert (off h) as Ho.
  { unfold h. rewrite host_run_app. assert (switched (host_run before h0).1) as Hsw.
    { apply switched_run. unfold host_new in Hnew. apply bind_Some in Hnew as (camera & Hc & Hnew).
      apply bind_Some in Hnew as (screen & _ & [= <-]). unfold camera_new in Hc. apply bind_Some in Hc as (cells & Hcells & [= <-]).
      unfold cells_new in Hcells. simpl in Hcells. injection Hcells as <-. by split. }
    destruct (host_run before h0) as [h1 e1]. simpl in Hsw. pose proof (render_off reload share now h1 Hsw) as H.
    cbn [host_run]. by destruct (host_step _ _ _ h1 _). }
  pose proof (off_run task evs h Ho Hs) as H. unfold effects. destruct (host_run evs h) as [h' es]. destruct H as [Q N].
  split; [done |]. simpl. unfold remaining in N. lia.
Qed.

(** Not so the screen: the timeout of one second that starts it also enables it, so that a
    share that was switched off within the second asks for a screen all the same. *)
Theorem screen_timeout_restarts (h : Host) (n : nat) :
  ho_prev_share_screen h = true -> ho_screen_timers h = S n ->
  let h' := (host_run [HoRender false false (ho_prev_mic_enabled h) (ho_prev_video_enabled h) (F64.of_Z 0); HoScreenTimer] h).1 in
  ho_prev_share_screen h' = false /\ es_enabled (vc_state (sc_cells (ho_screen h'))) = true /\
  st_phase <$> sc_tasks (ho_screen h') !! sc_next_task (ho_screen h) = Some Opening.
Proof.
  intros Hp Hn. cbn [host_run host_step]. unfold host_render, on_share_prop. cbn zeta. rewrite Hp. simpl.
  unfold on_mic_prop, on_video_prop. simpl. rewrite !eqb_reflx. simpl. rewrite Hn. simpl.
  unfold screen_set_enabled. destruct (es_set_enabled _ _) as [st b]. simpl. by rewrite lookup_insert_eq.
Qed.
End Host.

(** ** Concrete runs *)

#[local] Existing Instance demo_wire.
#[local] Existing Instance demo_media.
#[local] Existing Instance demo_cipher.

Definition mic_device (id : string) : MediaDeviceInfo := mkMediaDevice Audioinput id.
Definition cam_device (id : string) : MediaDeviceInfo := mkMediaDevice Videoinput id.

Definition demo_host : Host :=
  default (mkHost media_device_list_new demo_camera (microphone_new None false) (mkScreen (ca_cells demo_camera) None None ∅ 0) false false false 0 [] 0 0 0 None)
    (host_new 500 500 None false).

(** The headset is in use when it is unplugged. *)
Definition unplugged : list host_event :=
  [HoLoadDone [mic_device "headset"; mic_device "builtin"]; HoRender false false true false (F64.of_Z 0); HoMicEvent (MeGranted 0);
   HoDeviceChange; HoChangeDone [mic_device "builtin"] true; HoMicEvent (MeMonitor 0); HoMicTimer].

Example unplugged_run :
  let h := (host_run 0 "ada" demo_key unplugged demo_host).1 in
  selected_id (audio_inputs (ho_media h)) = "builtin"%string /\ (tk_device <$> me_tasks (ho_mic h)) = {[1 := "headset"%string]}.
Proof. vm_compute. split; reflexivity. Qed.

(** The camera and the microphone are on before the devices are known. *)
Definition both_on : list host_event :=
  [HoRender false false true true (F64.of_Z 0); HoLoadDone [mic_device "headset"; cam_device "webcam"]; HoMicTimer; HoCameraTimer (F64.of_Z 500);
   HoMicEvent (MeGranted 0); HoCameraEvent (CaOpened 0 (CameraReady 1280 720)); HoCameraEvent (CaFrame 0 1280 720)].

Definition late_events : list host_event :=
  [HoCameraEvent (CaFrame 0 1280 720); HoCameraTimer (F64.of_Z 900); HoMicEvent (MeChunk 900 0 (mkWorkletMessage (Some "page"%string) (Some [1; 2])));
   HoDeviceChange; HoChangeDone [cam_device "other"] true].

Lemma switched_off_is_off_witness :
  let h := (host_run 0 "ada" demo_key (both_on ++ [HoRender false false false false (F64.of_Z 800)]) demo_host).1 in
  let effects := (host_run 0 "ada" demo_key late_events h).2 in
  camera_encoding 0 (ho_camera h) <> None /\ encoded 0 (omap camera_of effects) = 1%nat /\
  quiet (omap mic_of effects) /\ (encoded 0 (omap camera_of effects) <= if camera_encoding 0 (ho_camera h) then 1 else 0)%nat.
Proof.
  cbn zeta. split; [vm_compute; discriminate |]. split; [vm_compute; reflexivity |].
  apply (switched_off_is_off 0 "ada" demo_key 500 500 None false demo_host both_on late_events false false (F64.of_Z 800) 0).
  - vm_compute. reflexivity.
  - repeat constructor.
Defined.

(** A screen is shared, the share ended, and another one asked for before the first task has
    noticed. The task, enabled again by then, ends the new share when its stream ends: the page
    goes back to idle, and yet the timeout of the new share asks for a screen. *)
Definition quick_reshare : list page_event :=
  [PgClick; PgRender false false (F64.of_Z 0); PgHost HoScreenTimer; PgHost (HoScreenEvent (ScOpened 0 (ScreenReady (F64.of_Z 2000) 1920 1080)));
   PgClick; PgRender false false (F64.of_Z 3000); PgClick; PgRender false false (F64.of_Z 3400); PgHost (HoScreenEvent (ScStreamEnded 0));
   PgRender false false (F64.of_Z 3500); PgHost HoScreenTimer].

Example quick_reshare_run :
  let '(s, h) := foldl (fun p ev => (page_step 0 "ada" demo_key p ev).1) (ShareIdle, demo_host) quick_reshare in
  s = ShareIdle /\ ho_prev_share_screen h = false /\ es_enabled (vc_state (sc_cells (ho_screen h))) = true /\
  st_phase <$> sc_tasks (ho_screen h) = {[1 := Opening]}.
Proof. vm_compute. repeat split; reflexivity. Qed.
