(* ===== verification/Attendants.v ===== *)
(** * The meeting page

    videocall-client/src/media_devices/media_device_access.rs, the permission to use the
    devices; and what dioxus-ui/src/components/attendants.rs decides: entering a meeting and
    switching the microphone and the camera on, reconnecting, the notices of arrivals and
    departures, the media state of the peers, the stack of shared screens and the grid of
    tiles. The state of the own screen share is in Devices.v; what is drawn is left out, and
    so are the sounds, which are effects here.

    A request for permission and a refreshed room token are answered by later events. The
    variant with room tokens is modelled. *)
From S2P Require Import Prelude Floats Protocol Media PeerDecode Diagnostics Connection ConnectionManager HealthMetrics HealthReporter Client.

(** ** media_device_access.rs *)

Inductive MediaAccessKind : Type := AudioCheck | VideoCheck | BothCheck.

Inductive MediaPermissionsErrorState : Type := NoDevice | PermissionDenied | OtherError.

Inductive PermissionState : Type := PermissionUnknown | Granted | Denied (e : MediaPermissionsErrorState).

Record MediaPermission : Type := mkPermission { perm_audio : PermissionState; perm_video : PermissionState }.

Record MediaDeviceAccess : Type := mkDeviceAccess { mda_current_permission : MediaPermission }.

Definition mda_new : MediaDeviceAccess := mkDeviceAccess (mkPermission PermissionUnknown PermissionUnknown).

Definition is_granted (device : MediaAccessKind) (a : MediaDeviceAccess) : bool :=
  match device with
  | AudioCheck => match perm_audio (mda_current_permission a) with Granted => true | _ => false end
  | VideoCheck => match perm_video (mda_current_permission a) with Granted => true | _ => false end
  | BothCheck => true
  end.

(** An error of the browser, by its name. *)
Definition permission_error (name : option string) : MediaPermissionsErrorState :=
  match name with
  | Some n => if String.eqb n "NotFoundError" then NoDevice
              else if String.eqb n "NotAllowedError" then PermissionDenied else OtherError
  | None => OtherError
  end.

(** What the browser answers: a stream, or an error. *)
Inductive browser_answer : Type := GotStream | GotError (name : option string).

Definition request_permission (answer : browser_answer) : PermissionState :=
  match answer with GotStream => Granted | GotError name => Denied (permission_error name) end.

Definition request_media_permission (audio video : browser_answer) : MediaPermission :=
  mkPermission (request_permission audio) (request_permission video).

(** ** Entering a meeting *)

(** [en_requests] counts the requests under way. *)
Record Entry : Type := mkEntry {
  en_mda : MediaDeviceAccess;
  en_requests : nat;
  mic_enabled : bool;
  video_enabled : bool;
  pending_mic_enable : bool;
  pending_video_enable : bool;
  mic_error : option MediaPermissionsErrorState;
  video_error : option MediaPermissionsErrorState;
  media_access_granted : bool;
  meeting_joined : bool;
  show_device_warning : bool;
  device_was_denied : bool;
  reload_devices_counter : Z;
  session_loaded : bool;
  connecting : bool;
}.

#[export] Instance eta_Entry : Eta Entry := fun r =>
  mkEntry (en_mda r) (en_requests r) (mic_enabled r) (video_enabled r) (pending_mic_enable r) (pending_video_enable r) (mic_error r)
    (video_error r) (media_access_granted r) (meeting_joined r) (show_device_warning r) (device_was_denied r) (reload_devices_counter r)
    (session_loaded r) (connecting r).

Definition entry_new : Entry := mkEntry mda_new 0 false false false false None None false false false false 0 false false.

(** [EnClearError] takes away the message about the connection; [EnLeave] leaves the meeting
    at the server and goes to the first page. *)
Inductive entry_effect : Type := EnConnect | EnDisconnect | EnClearError | EnLeave.

Definition request (e : Entry) : Entry := e <| en_requests := S (en_requests e) |>.

Definition denied (p : PermissionState) : option MediaPermissionsErrorState := match p with Denied e => Some e | _ => None end.

Definition granted (p : PermissionState) : bool := match p with Granted => true | _ => false end.

(** The parts of the callback of a request: the errors it notes, the switch-ons that waited
    for it, what becomes of the meeting, and the devices that are listed again. *)
Definition note_errors (permit : MediaPermission) (e : Entry) : Entry :=
  e <| media_access_granted := true |> <| mic_error := denied (perm_audio permit) |> <| video_error := denied (perm_video permit) |>.

Definition fulfil_mic (permit : MediaPermission) (e : Entry) : Entry :=
  if granted (perm_audio permit) && pending_mic_enable e then e <| mic_enabled := true |> <| pending_mic_enable := false |> else e.

Definition fulfil_video (permit : MediaPermission) (e : Entry) : Entry :=
  if granted (perm_video permit) && pending_video_enable e then e <| video_enabled := true |> <| pending_video_enable := false |> else e.

Definition drop_mic (e : Entry) : Entry :=
  match mic_error e with Some _ => e <| mic_enabled := false |> <| pending_mic_enable := false |> | None => e end.

Definition drop_video (e : Entry) : Entry :=
  match video_error e with Some _ => e <| video_enabled := false |> <| pending_video_enable := false |> | None => e end.

Definition settle (e : Entry) : Entry * list entry_effect :=
  if session_loaded e || connecting e then (drop_video (drop_mic e), [])
  else
    match mic_error e, video_error e with
    | None, None => (e <| connecting := true |> <| meeting_joined := true |>, [EnConnect])
    | _, _ => (e <| show_device_warning := true |> <| meeting_joined := false |>, [])
    end.

Definition list_devices_again (e : Entry) : Entry :=
  if device_was_denied e then e <| device_was_denied := false |> <| reload_devices_counter := reload_devices_counter e +u32 1 |> else e.

Definition on_result (permit : MediaPermission) (e : Entry) : Entry * list entry_effect :=
  let '(e, effects) := settle (fulfil_video permit (fulfil_mic permit (note_errors permit e))) in
  (list_devices_again e, EnClearError :: effects).

(** The window is focused again. *)
Definition on_focus (e : Entry) : Entry :=
  if session_loaded e || connecting e then e
  else
    let is_denied err := match err with Some PermissionDenied => true | _ => false end in
    request (if is_denied (mic_error e) || is_denied (video_error e) then e <| device_was_denied := true |> else e).

Definition mic_click (e : Entry) : Entry :=
  if negb (mic_enabled e) then
    if is_granted AudioCheck (en_mda e) then e <| mic_enabled := true |>
    else request (e <| pending_mic_enable := true |>)
  else e <| mic_enabled := false |>.

Definition video_click (e : Entry) : Entry :=
  if negb (video_enabled e) then
    if is_granted VideoCheck (en_mda e) then e <| video_enabled := true |>
    else request (e <| pending_video_enable := true |>)
  else e <| video_enabled := false |>.

(** The button of the warning about devices. *)
Definition warning_ok (e : Entry) : Entry * list entry_effect :=
  (e <| show_device_warning := false |> <| meeting_joined := true |>, [EnConnect]).

Definition hang_up (connected : bool) (e : Entry) : Entry * list entry_effect :=
  (e <| meeting_joined := false |> <| mic_enabled := false |> <| video_enabled := false |> <| pending_mic_enable := false |>
     <| pending_video_enable := false |>, (if connected then [EnDisconnect] else []) ++ [EnLeave]).

Inductive entry_event : Type :=
| EnJoinClick
| EnResult (audio video : browser_answer)
| EnFocus
| EnMicClick
| EnVideoClick
| EnMicFailed
| EnCameraFailed
| EnWarningOk
| EnConnected
| EnHangUp (connected : bool).

#[export] Instance browser_answer_eq_dec : EqDecision browser_answer.
Proof. solve_decision. Defined.

#[export] Instance entry_event_eq_dec : EqDecision entry_event.
Proof. solve_decision. Defined.

Definition entry_step (e : Entry) (ev : entry_event) : Entry * list entry_effect :=
  match ev with
  | EnJoinClick => (request e, [])
  | EnResult audio video =>
      match en_requests e with
      | S n => on_result (request_media_permission audio video) (e <| en_requests := n |>)
      | O => (e, [])
      end
  | EnFocus => (on_focus e, [])
  | EnMicClick => (mic_click e, [])
  | EnVideoClick => (video_click e, [])
  | EnMicFailed => (e <| mic_enabled := false |>, [])
  | EnCameraFailed => (e <| video_enabled := false |>, [])
  | EnWarningOk => if show_device_warning e then warning_ok e else (e, [])
  | EnConnected => (e <| session_loaded := true |>, [])
  | EnHangUp connected => hang_up connected e
  end.

(** ** Reconnecting *)

Definition MAX_RECONNECT_ATTEMPTS : Z := 10.
Definition MAX_DELAY_MS : Z := 16000.

(** [u32::saturating_mul] of 1000 and [u32::saturating_pow] of 2. *)
Definition sat_u32 (x : Z) : Z := Z.min x (2 ^ 32 - 1).

(** [random] is [Math.random()]. *)
Definition reconnect_delay_ms (attempt : Z) (random : float) : option Z :=
  if MAX_RECONNECT_ATTEMPTS <=? attempt then None
  else
    let base := Z.min (sat_u32 (1000 * sat_u32 (2 ^ attempt))) MAX_DELAY_MS in
    let jitter := F64.mul (F64.sub (F64.mul random (F64.lit 5 10)) (F64.lit 25 100)) (F64.of_Z base) in
    Some (as_u 32 (fmax (F64.add (F64.of_Z base) jitter) (F64.of_Z 500))).

(** Attempts that wait for their timeout, and attempts that wait for their token. *)
Record Reconnect : Type := mkReconnect {
  rc_waiting : list Z;
  rc_refreshing : list Z;
  connection_error : option string;
  meeting_ended_message : option string;
}.

#[export] Instance eta_Reconnect : Eta Reconnect := fun r =>
  mkReconnect (rc_waiting r) (rc_refreshing r) (connection_error r) (meeting_ended_message r).

Inductive refresh_result : Type := RefreshOk (token : string) | MeetingNotActive | RefreshFailed (error : string).

Inductive reconnect_effect : Type :=
| RcTimeout (delay_ms : Z)
| RcRefresh
| RcConnect (token : string).

Definition GAVE_UP : string := "Unable to reconnect after multiple attempts. Please refresh the page.".

Definition schedule_reconnect (attempt : Z) (random : float) (r : Reconnect) : Reconnect * list reconnect_effect :=
  match reconnect_delay_ms attempt random with
  | Some delay_ms => (r <| rc_waiting := rc_waiting r ++ [attempt] |>, [RcTimeout delay_ms])
  | None => (r <| connection_error := Some GAVE_UP |>, [])
  end.

Definition on_connection_lost (random : float) (r : Reconnect) : Reconnect * list reconnect_effect :=
  schedule_reconnect 0 random (r <| connection_error := Some "Connection lost, reconnecting..."%string |>).

(** The client is there from the start; a failed [connect] is only logged. *)
Definition on_refreshed (result : refresh_result) (attempt : Z) (random : float) (r : Reconnect) : Reconnect * list reconnect_effect :=
  match result with
  | RefreshOk token => (r <| connection_error := None |>, [RcConnect token])
  | MeetingNotActive => (r <| meeting_ended_message := Some "The meeting has ended."%string |>, [])
  | RefreshFailed error =>
      schedule_reconnect (attempt +u32 1) random
        (r <| connection_error := Some ("Connection lost, retrying... (" +:+ error +:+ ")") |>)
  end.

Inductive reconnect_event : Type :=
| RcLost (random : float)
| RcTimer (i : nat)
| RcRefreshed (i : nat) (result : refresh_result) (random : float)
| RcConnected.

Definition reconnect_step (r : Reconnect) (ev : reconnect_event) : Reconnect * list reconnect_effect :=
  match ev with
  | RcLost random => on_connection_lost random r
  | RcTimer i =>
      match rc_waiting r !! i with
      | Some attempt => (r <| rc_waiting := delete i (rc_waiting r) |> <| rc_refreshing := rc_refreshing r ++ [attempt] |>, [RcRefresh])
      | None => (r, [])
      end
  | RcRefreshed i result random =>
      match rc_refreshing r !! i with
      | Some attempt => on_refreshed result attempt random (r <| rc_refreshing := delete i (rc_refreshing r) |>)
      | None => (r, [])
      end
  | RcConnected => (r <| connection_error := None |>, [])
  end.

(** ** Notices of arrivals and departures *)

Record Toast : Type := mkToast { to_id : Z; to_name : string; to_user_id : string; to_joined : bool }.

(** [ts_sounds] are the departures whose sound is due, [ts_removals] the notices that will be
    taken away. *)
Record Toasts : Type := mkToasts {
  peer_toasts : list Toast;
  toast_counter : Z;
  ts_sounds : list Z;
  ts_removals : list Z;
}.

#[export] Instance eta_Toasts : Eta Toasts := fun r => mkToasts (peer_toasts r) (toast_counter r) (ts_sounds r) (ts_removals r).

Definition toasts_new : Toasts := mkToasts [] 0 [] [].

Inductive toast_effect : Type := PlayJoined | PlayLeft.

Definition push_toast (display_name user_id : string) (joined : bool) (t : Toasts) : Toasts :=
  let id := toast_counter t in
  t <| toast_counter := id +u64 1 |> <| peer_toasts := peer_toasts t ++ [mkToast id display_name user_id joined] |>
    <| ts_removals := ts_removals t ++ [id] |>.

(** [reconnecting] and [known] are the answers of the client: is it reconnecting, and does it
    know the user. *)
Definition on_peer_left (reconnecting known : bool) (display_name user_id : string) (t : Toasts) : Toasts :=
  if reconnecting || negb known then t
  else push_toast display_name user_id false (t <| ts_sounds := ts_sounds t ++ [toast_counter t] |>).

Definition on_peer_joined (reconnecting known : bool) (display_name user_id : string) (t : Toasts) : Toasts * list toast_effect :=
  let current := filter (fun toast => to_joined toast = true \/ to_user_id toast <> user_id) (peer_toasts t) in
  let t := t <| peer_toasts := current |> in
  if reconnecting || known then (t, []) else (push_toast display_name user_id true t, [PlayJoined]).

Inductive toast_event : Type :=
| ToSound (i : nat)
| ToRemoval (i : nat).

(** The timeouts of half a second and of eight seconds. *)
Definition toast_timer (t : Toasts) (ev : toast_event) : Toasts * list toast_effect :=
  match ev with
  | ToSound i =>
      match ts_sounds t !! i with
      | Some id => (t <| ts_sounds := delete i (ts_sounds t) |>,
                    if existsb (fun toast => to_id toast =? id) (peer_toasts t) then [PlayLeft] else [])
      | None => (t, [])
      end
  | ToRemoval i =>
      match ts_removals t !! i with
      | Some id => (t <| ts_removals := delete i (ts_removals t) |> <| peer_toasts := filter (fun toast => to_id toast <> id) (peer_toasts t) |>, [])
      | None => (t, [])
      end
  end.

Section Notices.
Context {A : Type} {K P : Type}.

(** [has_peer_with_user_id] of the client object: its inner state cannot be read while it is
    borrowed for writing, and then the answer is no. *)
Definition asks_for_peer (borrowed : bool) (user_id : string) (c : VideoCallClient (A := A) (K := K) (P := P)) : bool :=
  if borrowed then false else has_peer_with_user_id user_id c.

(** What the page does with what the client reports. The client calls back while it handles a
    packet, with its inner state borrowed for writing. *)
Definition on_client_effect (now : Z) (c : VideoCallClient (A := A) (K := K) (P := P)) (t : Toasts) (e : client_effect) : Toasts * list toast_effect :=
  match e with
  | OnPeerLeft display_name user_id =>
      (on_peer_left (is_reconnecting now c) (asks_for_peer true user_id c) display_name user_id t, [])
  | OnPeerJoined display_name user_id =>
      on_peer_joined (is_reconnecting now c) (asks_for_peer true user_id c) display_name user_id t
  | _ => (t, [])
  end.
End Notices.

(** ** The media state of the peers *)

Record PeerMediaState : Type := mkMediaState { ms_audio_enabled : bool; ms_video_enabled : bool; ms_screen_enabled : bool }.

#[export] Instance PeerMediaState_eq_dec : EqDecision PeerMediaState.
Proof. solve_decision. Defined.

Definition media_metric (acc : option string * PeerMediaState) (m : Metric) : option string * PeerMediaState :=
  let '(to_peer, s) := acc in
  match m_value m with
  | MText p => if String.eqb (m_name m) "to_peer" then (Some p, s) else acc
  | MU64 v =>
      let on := negb (v =? 0) in
      if String.eqb (m_name m) "audio_enabled" then (to_peer, mkMediaState on (ms_video_enabled s) (ms_screen_enabled s))
      else if String.eqb (m_name m) "video_enabled" then (to_peer, mkMediaState (ms_audio_enabled s) on (ms_screen_enabled s))
      else if String.eqb (m_name m) "screen_enabled" then (to_peer, mkMediaState (ms_audio_enabled s) (ms_video_enabled s) on)
      else acc
  | _ => acc
  end.

Definition parse_peer_status_event (evt : DiagEvent) : option (string * PeerMediaState) :=
  let '(to_peer, s) := foldl media_metric (None, mkMediaState false false false) (ev_metrics evt) in
  id ← to_peer; Some (id, s).

(** [screen_share_version] is raised when the layout has to follow. *)
Record PeerStatuses : Type := mkStatuses { peer_status_map : gmap string PeerMediaState; screen_share_version : Z }.

Definition on_diagnostics (evt : DiagEvent) (p : PeerStatuses) : PeerStatuses :=
  if negb (String.eqb (subsystem evt) "peer_status") then p
  else
    match parse_peer_status_event evt with
    | None => p
    | Some (peer_id, state) =>
        let bump := match peer_status_map p !! peer_id with
                    | Some old => negb (Bool.eqb (ms_screen_enabled old) (ms_screen_enabled state))
                    | None => ms_screen_enabled state
                    end in
        mkStatuses (<[peer_id := state]> (peer_status_map p))
          (if bump then screen_share_version p +u32 1 else screen_share_version p)
    end.

Definition on_peer_removed (peer_id : string) (p : PeerStatuses) : PeerStatuses :=
  mkStatuses (delete peer_id (peer_status_map p)) (screen_share_version p).

(** ** The stack of shared screens *)

Definition screen_share_stack (peers : list string) (sharing : string -> bool) (stack : list string) : list string :=
  let kept := filter (fun pid => pid ∈ peers /\ sharing pid = true) stack in
  foldl (fun stack pid => if sharing pid && bool_decide (pid ∉ stack) then stack ++ [pid] else stack) kept peers.

Definition active_screen_sharer (stack : list string) : option string := last stack.

(** What a render does to the stack. *)
Definition render_stack {A K P : Type} (c : VideoCallClient (A := A) (K := K) (P := P)) (stack : list string) : list string :=
  screen_share_stack (sorted_peer_keys c) (fun pid => is_screen_share_enabled_for_peer pid c) stack.

(** ** The grid *)

Definition PADDING : float := F64.mul (F64.of_Z 16) (F64.of_Z 2).
Definition GAP : float := F64.of_Z 10.
Definition MAX_ASPECT : float := F64.of_Z 2.
Definition F64_MAX : float := F64.of_Z ((2 ^ 53 - 1) * 2 ^ 971).
Definition CANVAS_LIMIT : Z := 20.

Definition div_ceil (n d : Z) : Z := if n mod d =? 0 then n / d else n / d + 1.

(** The size of a tile when [n] of them stand in [cols] columns; [None] when there is none. *)
Definition tile_size (n : Z) (avail_w avail_h : float) (cols : Z) : option (float * float) :=
  let rows := div_ceil n cols in
  let side avail count := F64.div (F64.sub avail (F64.mul GAP (F64.sub (F64.of_Z count) (F64.of_Z 1)))) (F64.of_Z count) in
  let tile_w := side avail_w cols in
  let tile_h := side avail_h rows in
  if fle tile_w (F64.of_Z 0) || fle tile_h (F64.of_Z 0) then None else Some (tile_w, tile_h).

(** The area of a tile whose shape is not too long. *)
Definition tile_area (n : Z) (avail_w avail_h : float) (cols : Z) : option float :=
  '(tile_w, tile_h) ← tile_size n avail_w avail_h cols;
  let aspect := F64.div tile_w tile_h in
  if fle (F64.div (F64.of_Z 1) MAX_ASPECT) aspect && fle aspect MAX_ASPECT then Some (F64.mul tile_w tile_h) else None.

(** How far a tile is from a square. *)
Definition tile_delta (n : Z) (avail_w avail_h : float) (cols : Z) : option float :=
  '(tile_w, tile_h) ← tile_size n avail_w avail_h cols;
  Some (fabs (F64.sub (F64.div tile_w tile_h) (F64.of_Z 1))).

(** [==]. *)
Definition feq (x y : float) : bool := fle x y && fle y x.

(** One of the two loops: the columns and rows with the best value by [better]. *)
Definition best_columns (n : Z) (value : Z -> option float) (better : float -> float -> bool) (start : Z * Z * float) (range : list Z) : Z * Z * float :=
  foldl (fun best cols => match value cols with
                          | Some v => if better v best.2 then (cols, div_ceil n cols, v) else best
                          | None => best
                          end) start range.

(** What the padding leaves of a side of the container. *)
Definition avail (side : float) : float := fmax (F64.sub side PADDING) (F64.of_Z 1).

Definition compute_grid (n : Z) (container_w container_h : float) : Z * Z :=
  if n =? 0 then (1, 1)
  else if n =? 1 then (1, 1)
  else if n =? 2 then (if fle container_h container_w then (2, 1) else (1, 2))
  else if (n =? 3) || (n =? 4) then (2, 2)
  else
    let avail_w := avail container_w in
    let avail_h := avail container_h in
    let range := seqZ 1 n in
    let best := best_columns n (tile_area n avail_w avail_h) (fun v best => flt best v) (1, n, F64.of_Z 0) range in
    let best := if feq best.2 (F64.of_Z 0)
                then best_columns n (tile_delta n avail_w avail_h) (fun v best => flt v best) (best.1, F64_MAX) range
                else best in
    best.1.

(** The grid of a render: at most [CANVAS_LIMIT] tiles. *)
Definition render_grid {A K P : Type} (c : VideoCallClient (A := A) (K := K) (P := P)) (container_w container_h : float) : Z * Z :=
  compute_grid (Z.min (Z.of_nat (length (sorted_peer_keys c))) CANVAS_LIMIT) container_w container_h.
