(* ===== verification/AttendantsProps.v ===== *)
(** * Properties of the meeting page

    The microphone is on only when the user asked for it and the browser agreed, with no
    hang-up since; the page asks for tokens at most ten times per loss and then says that it
    gave up; the grid holds every tile, wastes no row, and has the largest tiles of an
    acceptable shape; the stack of shared screens holds exactly the sharing peers, and the
    screen that was shown before comes back when a later one stops. And what does not work:
    no notice of a departure ever appears, and a permission is never remembered. *)
From Stdlib Require Import SpecFloat.
From S2P Require Import Prelude Floats Protocol Media OrderedMap PeerDecode Diagnostics Connection ConnectionManager HealthMetrics HealthReporter AdaptiveQuality Client Attendants.

(** ** Entering a meeting *)

Definition entry_run : Entry -> list entry_event -> Entry * list entry_effect := run entry_step.

(** The parts of the callback that say nothing about the microphone. *)
Lemma settle_mic (e : Entry) :
  let e' := (settle e).1 in
  en_mda e' = en_mda e /\ (pending_mic_enable e' = true -> pending_mic_enable e = true) /\ (mic_enabled e' = true -> mic_enabled e = true).
Proof. unfold settle, drop_video, drop_mic. destruct (_ || _), (mic_error e) eqn:E1, (video_error e) eqn:E2; simpl; rewrite ?E1, ?E2; done. Qed.

Lemma list_devices_again_mic (e : Entry) :
  let e' := list_devices_again e in
  en_mda e' = en_mda e /\ pending_mic_enable e' = pending_mic_enable e /\ mic_enabled e' = mic_enabled e.
Proof. unfold list_devices_again. by destruct (device_was_denied e). Qed.

Lemma fulfil_video_mic (permit : MediaPermission) (e : Entry) :
  let e' := fulfil_video permit e in
  en_mda e' = en_mda e /\ pending_mic_enable e' = pending_mic_enable e /\ mic_enabled e' = mic_enabled e.
Proof. unfold fulfil_video. by destruct (_ && _). Qed.

Lemma on_result_mic (permit : MediaPermission) (e : Entry) :
  let e' := (on_result permit e).1 in
  en_mda e' = en_mda e /\ (pending_mic_enable e' = true -> pending_mic_enable e = true) /\
  (mic_enabled e' = true -> mic_enabled e = true \/ (perm_audio permit = Granted /\ pending_mic_enable e = true)).
Proof.
  unfold on_result. set (e1 := fulfil_mic permit (note_errors permit e)).
  destruct (fulfil_video_mic permit e1) as (F1 & F2 & F3). destruct (settle_mic (fulfil_video permit e1)) as (S1 & S2 & S3).
  destruct (settle (fulfil_video permit e1)) as [e2 effects]. simpl in *. destruct (list_devices_again_mic e2) as (L1 & L2 & L3).
  rewrite L1, L2, L3, S1, F1. rewrite F2 in S2. rewrite F3 in S3.
  split_and!; [|clear S3; intros H%S2|clear S2; intros H%S3]; revert H || idtac; unfold e1, fulfil_mic; simpl;
    destruct (perm_audio permit), (pending_mic_enable e) eqn:Ep; simpl; rewrite ?Ep; auto.
Qed.

(** A result changes nothing of the permission that is remembered. *)
Lemma entry_step_mda (e : Entry) (ev : entry_event) : en_mda (entry_step e ev).1 = en_mda e.
Proof.
  destruct ev as [|audio video| | | | | | | |connected]; simpl; try done.
  - destruct (en_requests e) as [|n]; [done |]. by destruct (on_result_mic (request_media_permission audio video) (e <| en_requests := n |>)).
  - unfold on_focus. crush.
  - unfold mic_click. crush.
  - unfold video_click. crush.
  - by destruct (show_device_warning e).
Qed.

(** The remembered permission stays unknown: neither device is ever taken as granted, so every
    switch-on asks the browser again, for both devices. *)
Theorem permission_is_never_remembered (evs : list entry_event) :
  let e := (entry_run entry_new evs).1 in
  is_granted AudioCheck (en_mda e) = false /\ is_granted VideoCheck (en_mda e) = false /\
  (mic_enabled e = false -> en_requests (mic_click e) = S (en_requests e)) /\
  (video_enabled e = false -> en_requests (video_click e) = S (en_requests e)).
Proof.
  intros e. assert (en_mda e = mda_new) as H.
  { apply (run_invariant entry_step (fun e => en_mda e = mda_new) (fun _ => True)); [|done].
    intros s i Hs. pose proof (entry_step_mda s i) as H. destruct (entry_step s i) as [s' o]. simpl in H.
    split; [congruence | by apply Forall_true]. }
  unfold mic_click, video_click. rewrite H. split_and!; [done.. | |]; intros ->; done.
Qed.

(** The clicks and answers that account for the state of the microphone. *)
Definition asked_for_mic (evs : list entry_event) : Prop :=
  exists before since, evs = before ++ EnMicClick :: since /\ Forall (fun ev => forall c, ev <> EnHangUp c) since.

Definition allowed_mic (evs : list entry_event) : Prop :=
  exists asked video since, evs = asked ++ EnResult GotStream video :: since /\ asked_for_mic asked /\
    Forall (fun ev => ev <> EnMicFailed /\ forall c, ev <> EnHangUp c) since.

Lemma asked_snoc (evs : list entry_event) (ev : entry_event) :
  (forall c, ev <> EnHangUp c) -> asked_for_mic evs -> asked_for_mic (evs ++ [ev]).
Proof.
  intros Hev (b & s & -> & Hs). exists b, (s ++ [ev]). rewrite <- app_assoc. split; [done |]. apply Forall_app. auto.
Qed.

Lemma allowed_snoc (evs : list entry_event) (ev : entry_event) :
  ev <> EnMicFailed -> (forall c, ev <> EnHangUp c) -> allowed_mic evs -> allowed_mic (evs ++ [ev]).
Proof.
  intros Hf Hev (b & v & s & -> & Ha & Hs). exists b, v, (s ++ [ev]). rewrite <- app_assoc. split_and!; [done.. |].
  apply Forall_app. auto.
Qed.

Definition mic_accounted (evs : list entry_event) (e : Entry) : Prop :=
  en_mda e = mda_new /\ (pending_mic_enable e = true -> asked_for_mic evs) /\ (mic_enabled e = true -> allowed_mic evs).

Lemma entry_step_accounted (evs : list entry_event) (e : Entry) (ev : entry_event) :
  mic_accounted evs e -> mic_accounted (evs ++ [ev]) (entry_step e ev).1.
Proof.
  intros (Hm & Hp & He). split; [by rewrite entry_step_mda |].
  assert ((forall c, ev <> EnHangUp c) -> pending_mic_enable e = true -> asked_for_mic (evs ++ [ev])) as Hp' by (intros; apply asked_snoc; auto).
  assert (ev <> EnMicFailed -> (forall c, ev <> EnHangUp c) -> mic_enabled e = true -> allowed_mic (evs ++ [ev])) as He'
    by (intros; apply allowed_snoc; auto).
  destruct ev as [|audio video| | | | | | | |connected]; simpl in *; auto.
  - destruct (en_requests e) as [|n]; [auto |].
    destruct (on_result_mic (request_media_permission audio video) (e <| en_requests := n |>)) as (_ & H1 & H2). split; [auto |].
    intros H%H2. simpl in H. destruct H as [H|[Ha H]]; [auto |]. destruct audio; [|done].
    exists evs, video, []. auto.
  - unfold on_focus. crush.
  - unfold mic_click. rewrite Hm. destruct (mic_enabled e) eqn:Ee; simpl; [split; auto; done |].
    split; [|rewrite Ee; auto; done]. intros _. exists evs, []. auto.
  - unfold video_click. crush.
  - split; [auto | done].
  - crush.
  - by split.
Qed.

(** C31: whenever the microphone is on, the user clicked for it and later the browser answered with
    a stream of the microphone; there was no hang-up since the click, and no failure of the
    microphone since the answer. *)
Theorem microphone_needs_click_and_consent (evs : list entry_event) :
  mic_enabled (entry_run entry_new evs).1 = true -> allowed_mic evs.
Proof.
  enough (mic_accounted evs (entry_run entry_new evs).1) as H by apply H.
  induction evs as [|ev evs IH] using rev_ind; [by split_and! |].
  unfold entry_run in *. rewrite run_app. destruct (run entry_step entry_new evs) as [e o]. simpl in *.
  pose proof (entry_step_accounted evs e ev IH) as H. by destruct (entry_step e ev).
Qed.

Lemma microphone_needs_click_and_consent_witness :
  let evs := [EnJoinClick; EnResult GotStream (GotError (Some "NotFoundError"%string)); EnWarningOk; EnConnected;
              EnMicClick; EnResult GotStream (GotError (Some "NotFoundError"%string))] in
  mic_enabled (entry_run entry_new evs).1 = true /\ allowed_mic evs.
Proof. intros evs. split; [reflexivity | apply microphone_needs_click_and_consent; reflexivity]. Defined.

(** A result connects only from a page that is neither connecting nor connected, and never
    again: all other connections are those of the warning's button. *)
Definition connects (effects : list entry_effect) : nat :=
  length (filter (fun f => match f with EnConnect => true | _ => false end = true) effects).

Definition accepted (e : Entry) (ev : entry_event) : nat :=
  match ev with EnWarningOk => if show_device_warning e then 1 else 0 | _ => 0 end.

Lemma on_result_connects (permit : MediaPermission) (e : Entry) :
  let '(e', o) := on_result permit e in
  (connects o + (if connecting e then 1 else 0) = if connecting e' then 1 else 0)%nat.
Proof.
  unfold on_result.
  assert (connecting (fulfil_video permit (fulfil_mic permit (note_errors permit e))) = connecting e) as Hc.
  { unfold fulfil_video, fulfil_mic. by do 2 destruct (_ && _). }
  set (e1 := fulfil_video _ _) in *. clearbody e1. rewrite <- Hc. clear Hc e.
  destruct (settle e1) as [e2 o] eqn:Es. assert (connecting (list_devices_again e2) = connecting e2) as ->
    by (unfold list_devices_again; by destruct (device_was_denied e2)).
  revert Es. unfold settle, drop_video, drop_mic.
  destruct (session_loaded e1), (connecting e1) eqn:Ec, (mic_error e1) eqn:E1, (video_error e1) eqn:E2; simpl;
    rewrite ?E1, ?E2; intros [= <- <-]; simpl; by rewrite ?Ec.
Qed.

(** The page connects once for all the results, and once more for each accepted warning. *)
Theorem connections_of_the_page (evs : list entry_event) (e : Entry) :
  let '(e', o) := entry_run e evs in
  (connects o + (if connecting e then 1 else 0) <= (if connecting e' then 1 else 0) + length (filter (.= EnWarningOk) evs))%nat.
Proof.
  revert e. induction evs as [|ev evs IH]; intros e; simpl; [lia |]. unfold entry_run in *. simpl.
  assert (let '(e', o) := entry_step e ev in
    connects o + (if connecting e then 1 else 0) <= (if connecting e' then 1 else 0) + if decide (ev = EnWarningOk) then 1 else 0)%nat as Hs.
  { case_decide as Hw; [subst; simpl; destruct (show_device_warning e); simpl; lia |].
    destruct ev as [|audio video| | | | | | | |connected]; simpl; try lia; try done.
    - destruct (en_requests e) as [|n]; simpl; [lia |].
      pose proof (on_result_connects (request_media_permission audio video) (e <| en_requests := n |>)) as H.
      destruct (on_result _ _) as [e' o]. simpl in H. lia.
    - unfold on_focus. destruct (_ || _); [simpl; lia |]. destruct (_ || _); simpl; lia.
    - unfold mic_click. destruct (negb _); [destruct (is_granted _ _) |]; simpl; lia.
    - unfold video_click. destruct (negb _); [destruct (is_granted _ _) |]; simpl; lia.
    - destruct connected; simpl; lia. }
  destruct (entry_step e ev) as [e1 o1]. specialize (IH e1). destruct (run entry_step e1 evs) as [e2 o2].
  unfold connects in *. rewrite filter_app, length_app. rewrite filter_cons. destruct (decide (ev = EnWarningOk)); simpl; lia.
Qed.

(** The warning's button does not note that the page is connecting: a window that is focused
    before the connection stands asks for the devices again, and the answer connects a second
    time, or takes the user out of the meeting. *)
Theorem accepted_warning_is_not_noted (connects_again : bool) :
  let no_camera := GotError (Some "NotFoundError"%string) in
  let '(e, o) := entry_run entry_new
    [EnJoinClick; EnResult GotStream no_camera; EnWarningOk; EnFocus; EnResult GotStream (if connects_again then GotStream else no_camera)] in
  if connects_again then connects o = 2%nat /\ meeting_joined e = true else connects o = 1%nat /\ meeting_joined e = false.
Proof. destruct connects_again; by vm_compute. Qed.

(** ** Reconnecting *)

Definition reconnect_run : Reconnect -> list reconnect_event -> Reconnect * list reconnect_effect := run reconnect_step.

Definition is_refresh (f : reconnect_effect) : bool := match f with RcRefresh => true | _ => false end.

Definition refreshes (effects : list reconnect_effect) : Z := Z.of_nat (length (filter (fun f => is_refresh f = true) effects)).

Definition losses (evs : list reconnect_event) : Z :=
  Z.of_nat (length (filter (fun ev => match ev with RcLost _ => true | _ => false end = true) evs)).

(** The refreshes that the attempts under way can still make. *)
Definition left_of (limit : Z) (attempts : list Z) : Z := sumZ ((fun a => limit - a) <$> attempts).
Arguments left_of : simpl never.

Definition refreshes_left (r : Reconnect) : Z :=
  left_of MAX_RECONNECT_ATTEMPTS (rc_waiting r) + left_of (MAX_RECONNECT_ATTEMPTS - 1) (rc_refreshing r).

Definition attempts_valid (r : Reconnect) : Prop :=
  Forall (fun a => 0 <= a < MAX_RECONNECT_ATTEMPTS) (rc_waiting r) /\ Forall (fun a => 0 <= a < MAX_RECONNECT_ATTEMPTS) (rc_refreshing r).

Lemma left_of_snoc (limit a : Z) (l : list Z) : left_of limit (l ++ [a]) = left_of limit l + (limit - a).
Proof. unfold left_of. rewrite fmap_app, sumZ_app. simpl. lia. Qed.

Lemma left_of_delete (limit a : Z) (l : list Z) (i : nat) : l !! i = Some a -> left_of limit l = limit - a + left_of limit (delete i l).
Proof. intros H. unfold left_of. by rewrite (sumZ_perm _ _ (fmap_Permutation _ _ _ (delete_Permutation l i a H))). Qed.

Lemma Forall_delete {T : Type} (Q : T -> Prop) (l : list T) (i : nat) : Forall Q l -> Forall Q (delete i l).
Proof. intros H. rewrite delete_take_drop. apply Forall_app. split; [by apply Forall_take | by apply Forall_drop]. Qed.

Lemma schedule_reconnect_left (attempt : Z) (random : float) (r : Reconnect) :
  0 <= attempt <= MAX_RECONNECT_ATTEMPTS -> attempts_valid r ->
  let '(r', o) := schedule_reconnect attempt random r in
  attempts_valid r' /\ refreshes o = 0 /\ refreshes_left r' = refreshes_left r + (MAX_RECONNECT_ATTEMPTS - attempt).
Proof.
  intros Ha [Hw Hr]. unfold schedule_reconnect, reconnect_delay_ms. destruct (Z.leb_spec MAX_RECONNECT_ATTEMPTS attempt); simpl.
  - split_and!; [done.. |]. unfold refreshes_left. simpl. lia.
  - split; [split; simpl; [apply Forall_app_2; [done | apply Forall_singleton; lia] | done] |]. split; [done |].
    unfold refreshes_left. simpl. rewrite left_of_snoc. lia.
Qed.

Lemma losses_one (ev : reconnect_event) : losses [ev] = match ev with RcLost _ => 1 | _ => 0 end.
Proof. by destruct ev. Qed.

Lemma refreshes_one (f : reconnect_effect) : refreshes [f] = if is_refresh f then 1 else 0.
Proof. by destruct f. Qed.

Lemma reconnect_step_left (r : Reconnect) (ev : reconnect_event) : attempts_valid r ->
  let '(r', o) := reconnect_step r ev in
  attempts_valid r' /\ refreshes o + refreshes_left r' <= refreshes_left r + MAX_RECONNECT_ATTEMPTS * losses [ev].
Proof.
  intros Hv. pose proof Hv as [Hw Hr]. rewrite losses_one. destruct ev as [random|i|i result random|]; cbn [reconnect_step].
  - set (r1 := r <| connection_error := Some "Connection lost, reconnecting..."%string |>).
    change (on_connection_lost random r) with (schedule_reconnect 0 random r1).
    pose proof (schedule_reconnect_left 0 random r1) as H. destruct (schedule_reconnect _ _ _) as [r' o]. destruct H as (H1 & H2 & H3); [unfold MAX_RECONNECT_ATTEMPTS; lia | done |].
    split; [done |]. change (refreshes_left r1) with (refreshes_left r) in H3. lia.
  - destruct (rc_waiting r !! i) as [a|] eqn:E; [|split; [done | change (refreshes []) with 0; lia]].
    pose proof (Forall_lookup_1 _ _ _ _ Hw E) as Ha. simpl in Ha.
    split; [split; simpl; [by apply Forall_delete | apply Forall_app_2; [done | apply Forall_singleton; lia]] |].
    rewrite refreshes_one. unfold refreshes_left. simpl. rewrite (left_of_delete _ _ _ _ E), left_of_snoc. lia.
  - destruct (rc_refreshing r !! i) as [a|] eqn:E; [|split; [done | change (refreshes []) with 0; lia]].
    pose proof (Forall_lookup_1 _ _ _ _ Hr E) as Ha. simpl in Ha. set (r1 := r <| rc_refreshing := delete i (rc_refreshing r) |>).
    assert (attempts_valid r1) as Hv1 by (split; simpl; [done | by apply Forall_delete]).
    assert (refreshes_left r = MAX_RECONNECT_ATTEMPTS - 1 - a + refreshes_left r1) as HL
      by (unfold refreshes_left; simpl; rewrite (left_of_delete _ _ (rc_refreshing r) _ E); lia).
    destruct result as [token| |error]; cbn [on_refreshed].
    1-2: split; [done |]; rewrite ?refreshes_one; change (refreshes []) with 0; change (refreshes_left (upd _ _ r1)) with (refreshes_left r1); simpl; lia.
    set (r2 := r1 <| connection_error := Some ("Connection lost, retrying... (" +:+ error +:+ ")") |>).
    pose proof (schedule_reconnect_left (a +u32 1) random r2) as H.
    rewrite wrap_u_small in * by (unfold u_in; unfold MAX_RECONNECT_ATTEMPTS in *; lia).
    destruct (schedule_reconnect _ _ _) as [r' o]. destruct H as (H1 & H2 & H3); [lia | done |].
    split; [done |]. change (refreshes_left r2) with (refreshes_left r1) in H3. lia.
  - split; [done |]. change (refreshes []) with 0. change (refreshes_left (upd _ _ r)) with (refreshes_left r). lia.
Qed.

Definition reconnect_new : Reconnect := mkReconnect [] [] None None.

(** However timers and answers interleave, the page asks for at most ten tokens per loss of
    the connection. *)
Theorem refreshes_are_bounded (evs : list reconnect_event) :
  refreshes (reconnect_run reconnect_new evs).2 <= MAX_RECONNECT_ATTEMPTS * losses evs.
Proof.
  enough (let '(r, o) := reconnect_run reconnect_new evs in
          attempts_valid r /\ refreshes o + refreshes_left r <= MAX_RECONNECT_ATTEMPTS * losses evs) as H.
  { destruct (reconnect_run reconnect_new evs) as [r o]. simpl. destruct H as [[Hw Hr] H].
    enough (0 <= refreshes_left r) by lia. unfold refreshes_left, left_of.
    apply Z.add_nonneg_nonneg; apply sumZ_nonneg, Forall_fmap; eapply Forall_impl; eauto; simpl; lia. }
  induction evs as [|ev evs IH] using rev_ind; [done |].
  unfold reconnect_run in *. rewrite run_app. destruct (run reconnect_step reconnect_new evs) as [r o]. simpl.
  destruct IH as [Hv Hb]. pose proof (reconnect_step_left r ev Hv) as H. destruct (reconnect_step r ev) as [r' o']. destruct H as [Hv' H].
  split; [done |]. unfold refreshes, losses in *. rewrite !filter_app, !length_app in *. simpl in *. lia.
Qed.

(** While the page says that it is reconnecting, an attempt is under way; it stops without one
    only when it said that it gave up, or that the meeting has ended. *)
Theorem reconnecting_message_is_true (evs : list reconnect_event) (message : string) :
  let r := (reconnect_run reconnect_new evs).1 in
  connection_error r = Some message -> message = GAVE_UP \/ rc_waiting r ++ rc_refreshing r <> [] \/ is_Some (meeting_ended_message r).
Proof.
  intros r. revert message.
  apply (run_invariant reconnect_step (fun r => forall message, connection_error r = Some message ->
    message = GAVE_UP \/ rc_waiting r ++ rc_refreshing r <> [] \/ is_Some (meeting_ended_message r)) (fun _ => True)); [|done].
  clear. intros r ev Hr.
  assert (forall attempt random r message, connection_error (schedule_reconnect attempt random r).1 = Some message ->
    message = GAVE_UP \/ rc_waiting (schedule_reconnect attempt random r).1 ++ rc_refreshing r <> []) as Hs.
  { clear. intros attempt random r message. unfold schedule_reconnect. destruct (reconnect_delay_ms _ _) as [d|]; simpl.
    - intros _. right. rewrite <- app_assoc. by destruct (rc_waiting r).
    - intros [= <-]. by left. }
  assert (forall attempt random r, rc_refreshing (schedule_reconnect attempt random r).1 = rc_refreshing r) as Hf
    by (clear; intros; unfold schedule_reconnect; by destruct (reconnect_delay_ms _ _)).
  enough (forall message, connection_error (reconnect_step r ev).1 = Some message -> message = GAVE_UP \/
    rc_waiting (reconnect_step r ev).1 ++ rc_refreshing (reconnect_step r ev).1 <> [] \/ is_Some (meeting_ended_message (reconnect_step r ev).1)) as H.
  { destruct (reconnect_step r ev). split; [done | by apply Forall_true]. }
  destruct ev as [random|i|i result random|]; cbn [reconnect_step].
  - unfold on_connection_lost. intros message H. rewrite Hf. destruct (Hs _ _ _ _ H); auto.
  - destruct (rc_waiting r !! i) as [a|] eqn:E; [|done]. intros message _. right. left. simpl. intros [_ [_ [=]]%app_eq_nil]%app_eq_nil.
  - destruct (rc_refreshing r !! i) as [a|] eqn:E; [|done]. destruct result as [token| |error]; cbn [on_refreshed]; [done | by eauto |].
    intros message H. rewrite Hf. destruct (Hs _ _ _ _ H); auto.
  - done.
Qed.

Lemma reconnecting_message_is_true_witness :
  connection_error (reconnect_run reconnect_new [RcLost (F64.of_Z 0)]).1 = Some "Connection lost, reconnecting..."%string /\
  ("Connection lost, reconnecting..."%string = GAVE_UP \/
   rc_waiting (reconnect_run reconnect_new [RcLost (F64.of_Z 0)]).1 ++ rc_refreshing (reconnect_run reconnect_new [RcLost (F64.of_Z 0)]).1 <> [] \/
   is_Some (meeting_ended_message (reconnect_run reconnect_new [RcLost (F64.of_Z 0)]).1)).
Proof. split; [vm_compute; reflexivity | apply reconnecting_message_is_true; vm_compute; reflexivity]. Defined.

(** The events of an attempt that fails: its timer, and an answer that is an error. *)
Definition failed_attempt (f : string * float) : list reconnect_event := [RcTimer 0; RcRefreshed 0 (RefreshFailed f.1) f.2].

Definition retrying (error : string) : option string := Some ("Connection lost, retrying... (" +:+ error +:+ ")").

Lemma failed_attempt_state (attempt : Z) (error ended : option string) (err : string) (random : float) :
  (reconnect_run (mkReconnect [attempt] [] error ended) (failed_attempt (err, random))).1 =
  (schedule_reconnect (attempt +u32 1) random (mkReconnect [] [] (retrying err) ended)).1.
Proof.
  unfold reconnect_run, failed_attempt. cbn [run fst snd].
  assert (reconnect_step (mkReconnect [attempt] [] error ended) (RcTimer 0) = (mkReconnect [] [attempt] error ended, [RcRefresh])) as -> by reflexivity.
  assert (reconnect_step (mkReconnect [] [attempt] error ended) (RcRefreshed 0 (RefreshFailed err) random) =
    schedule_reconnect (attempt +u32 1) random (mkReconnect [] [] (retrying err) ended)) as -> by reflexivity.
  by destruct (schedule_reconnect _ _ _).
Qed.

Lemma reconnect_run_app (r : Reconnect) (evs evs' : list reconnect_event) :
  (reconnect_run r (evs ++ evs')).1 = (reconnect_run (reconnect_run r evs).1 evs').1.
Proof. unfold reconnect_run. rewrite run_app. destruct (run reconnect_step r evs) as [r' o]. simpl. by destruct (run _ _ evs'). Qed.

Lemma failures_from (failures : list (string * float)) (attempt : Z) (error ended : option string) :
  0 <= attempt -> attempt + Z.of_nat (length failures) = MAX_RECONNECT_ATTEMPTS -> failures <> [] ->
  (reconnect_run (mkReconnect [attempt] [] error ended) (mbind failed_attempt failures)).1 = mkReconnect [] [] (Some GAVE_UP) ended.
Proof.
  revert attempt error. induction failures as [|[err random] failures IH]; intros attempt error Ha Hl Hn; [done |].
  change (mbind failed_attempt ((err, random) :: failures)) with (failed_attempt (err, random) ++ mbind failed_attempt failures).
  rewrite reconnect_run_app, failed_attempt_state. simpl length in Hl.
  rewrite wrap_u_small by (unfold u_in, MAX_RECONNECT_ATTEMPTS in *; lia).
  unfold schedule_reconnect, reconnect_delay_ms. destruct failures as [|f failures].
  - rewrite (proj2 (Z.leb_le _ _)) by (simpl in Hl; lia). done.
  - rewrite (proj2 (Z.leb_gt _ _)) by (simpl in Hl; lia).
    apply (IH (attempt + 1) (retrying err)); [lia | simpl in *; lia | done].
Qed.

(** After a loss and ten failed attempts in a row, whatever the errors and the delays, the page
    says that it gave up and nothing is under way. *)
Theorem gives_up_after_ten (random : float) (failures : list (string * float)) :
  Z.of_nat (length failures) = MAX_RECONNECT_ATTEMPTS ->
  (reconnect_run reconnect_new (RcLost random :: mbind failed_attempt failures)).1 = mkReconnect [] [] (Some GAVE_UP) None.
Proof.
  intros Hl. change (RcLost random :: mbind failed_attempt failures) with ([RcLost random] ++ mbind failed_attempt failures).
  rewrite reconnect_run_app. apply (failures_from failures 0); [done | done |]. by destruct failures.
Qed.

Lemma gives_up_after_ten_witness :
  Z.of_nat (length (replicate 10 ("timeout"%string, F64.lit 1 2))) = MAX_RECONNECT_ATTEMPTS /\
  (reconnect_run reconnect_new (RcLost (F64.of_Z 0) :: mbind failed_attempt (replicate 10 ("timeout"%string, F64.lit 1 2)))).1 =
    mkReconnect [] [] (Some GAVE_UP) None.
Proof. split; [reflexivity | apply gives_up_after_ten; reflexivity]. Defined.

(** ** Notices *)

Section Notices.
Context {A K P : Type}.

(** What reaches the notices: a report of the client, at a time, and the timeouts. *)
Definition notice_event : Type := (Z * VideoCallClient (A := A) (K := K) (P := P) * client_effect) + toast_event.

Definition notice_step (t : Toasts) (ev : notice_event) : Toasts * list toast_effect :=
  match ev with
  | inl (now, c, e) => on_client_effect now c t e
  | inr timer => toast_timer t timer
  end.

(** The client reports a departure while its state is borrowed, so the page takes the one who
    left for somebody it does not know: in no execution does a notice of a departure appear or
    its sound play. The notices that appear are those of arrivals, each with its removal due. *)
Theorem departures_are_never_shown (evs : list notice_event) :
  let '(t, sounds) := run notice_step toasts_new evs in
  Forall (fun toast => to_joined toast = true /\ to_id toast ∈ ts_removals t) (peer_toasts t) /\ ts_sounds t = [] /\ Forall (.= PlayJoined) sounds.
Proof.
  pose (Inv := fun t => Forall (fun toast => to_joined toast = true /\ to_id toast ∈ ts_removals t) (peer_toasts t) /\ ts_sounds t = []).
  enough (Inv (run notice_step toasts_new evs).1 /\ Forall (.= PlayJoined) (run notice_step toasts_new evs).2) as [[H1 H2] H3]
    by (by destruct (run notice_step toasts_new evs)).
  apply run_invariant; [|by split; [apply Forall_nil |]]. clear evs.
  intros t ev [Ht Hs]. destruct ev as [[[now c] e]|[i|i]]; simpl.
  - destruct e; simpl; try (split; [by split | by apply Forall_nil]).
    + unfold on_peer_joined. rewrite orb_false_r. destruct (is_reconnecting now c).
      * split; [split; simpl; [by apply Forall_filter_sub | done] | by apply Forall_nil].
      * split; [|by apply Forall_singleton]. split; [|done]. simpl. apply Forall_app_2.
        -- apply Forall_filter_sub. eapply Forall_impl; [exact Ht |]. intros x [? ?]. set_solver.
        -- apply Forall_singleton. simpl. set_solver.
    + unfold on_peer_left. rewrite orb_true_r. split; [by split | by apply Forall_nil].
  - rewrite Hs. simpl. split; [by split | by apply Forall_nil].
  - destruct (ts_removals t !! i) as [id|] eqn:E; simpl; [|split; [by split | by apply Forall_nil]].
    split; [|by apply Forall_nil]. split; [|done]. simpl. apply Forall_forall. intros x [Hx Hin]%list_elem_of_filter.
    destruct (Forall_elem _ _ _ Ht Hin) as [Hj Hr]. split; [done |].
    rewrite (delete_Permutation _ _ _ E), elem_of_cons in Hr. by destruct Hr.
Qed.
End Notices.

(** ** The media state of the peers *)

(** The page reads back what the client broadcasts about a peer. *)
Theorem peer_status_is_understood (ts_ms : Z) (to_peer : string) (audio video screen speaking : bool) (level : float) :
  parse_peer_status_event <$> status_event (PeerStatusEvent ts_ms to_peer audio video screen speaking level) =
    [Some (to_peer, mkMediaState audio video screen)].
Proof. by destruct audio, video, screen, speaking. Qed.

Definition shares (p : PeerStatuses) (peer_id : string) : bool :=
  match peer_status_map p !! peer_id with Some s => ms_screen_enabled s | None => false end.

(** An event changes the version of the layout exactly when it changes who shares a screen. *)
Theorem layout_follows_sharing (evt : DiagEvent) (p : PeerStatuses) :
  u_in 32 (screen_share_version p) ->
  screen_share_version (on_diagnostics evt p) = screen_share_version p <-> forall id, shares (on_diagnostics evt p) id = shares p id.
Proof.
  intros Hv. unfold on_diagnostics. destruct (negb _); [done |]. destruct (parse_peer_status_event evt) as [[peer s]|]; [|done].
  assert (screen_share_version p +u32 1 <> screen_share_version p) as Hne.
  { unfold wrap_u, u_in in *. destruct (decide (screen_share_version p = 2 ^ 32 - 1)) as [->|]; [done |]. rewrite Z.mod_small; lia. }
  set (p' := mkStatuses (<[peer := s]> (peer_status_map p)) _).
  assert (shares p' peer = ms_screen_enabled s) as Hs by (unfold shares, p'; simpl; by rewrite lookup_insert_eq).
  assert (forall id, id <> peer -> shares p' id = shares p id) as Ho by (intros id Hid; unfold shares, p'; simpl; by rewrite lookup_insert_ne).
  assert (match peer_status_map p !! peer with Some old => negb (Bool.eqb (ms_screen_enabled old) (ms_screen_enabled s)) | None => ms_screen_enabled s end
    = negb (Bool.eqb (shares p peer) (ms_screen_enabled s))) as Hb.
  { unfold shares. destruct (peer_status_map p !! peer); [done |]. by destruct (ms_screen_enabled s). }
  simpl. rewrite Hb. destruct (Bool.eqb (shares p peer) (ms_screen_enabled s)) eqn:E; simpl.
  - apply Bool.eqb_prop in E. split; [|done]. intros _ id. destruct (decide (id = peer)) as [->|]; [congruence | auto].
  - split; [done |]. intros H. specialize (H peer). apply Bool.eqb_false_iff in E. congruence.
Qed.

Lemma layout_follows_sharing_witness :
  u_in 32 0 /\
  (screen_share_version (on_diagnostics (mkDiagEvent "peer_status" None 0 []) (mkStatuses ∅ 0)) = 0 <->
   forall id, shares (on_diagnostics (mkDiagEvent "peer_status" None 0 []) (mkStatuses ∅ 0)) id = shares (mkStatuses ∅ 0) id).
Proof. split; [done | apply (layout_follows_sharing _ (mkStatuses ∅ 0)); done]. Defined.

(** ** The stack of shared screens *)

Lemma filter_iff_on {T : Type} (Q R : T -> Prop) `{!forall x, Decision (Q x), !forall x, Decision (R x)} (l : list T) :
  (forall x, x ∈ l -> Q x <-> R x) -> filter Q l = filter R l.
Proof.
  induction l as [|x l IH]; intros Hqr; [done |]. rewrite !filter_cons, IH by (intros; apply Hqr; set_solver).
  specialize (Hqr x ltac:(set_solver)). destruct (decide (Q x)), (decide (R x)); tauto || done.
Qed.

Section Stack.
Context (peers : list string) (sharing : string -> bool).
Hypothesis Hpeers : NoDup peers.

Definition kept (stack : list string) : list string := filter (fun pid => pid ∈ peers /\ sharing pid = true) stack.
Definition arrived (stack : list string) : list string := filter (fun pid => sharing pid = true /\ pid ∉ stack) peers.

(** The stack is what remains of the old one in its order, then the new sharers in the order of
    the peers. *)
Lemma screen_share_stack_shape (stack : list string) : screen_share_stack peers sharing stack = kept stack ++ arrived stack.
Proof.
  unfold screen_share_stack. fold (kept stack).
  assert (arrived stack = filter (fun pid => sharing pid = true /\ pid ∉ kept stack) peers) as ->.
  { unfold arrived, kept. apply filter_iff_on. intros pid Hpid. rewrite list_elem_of_filter. tauto. }
  generalize (kept stack). clear stack. revert Hpeers. generalize peers at 1 2 3. intros l. induction l as [|pid l IH]; intros Hn acc; [by rewrite app_nil_r |].
  apply NoDup_cons in Hn as [Hn1 Hn2]. simpl. rewrite IH by done. clear IH. rewrite filter_cons.
  destruct (decide (sharing pid = true /\ pid ∉ acc)) as [[Es Hin]|Hno].
  - rewrite Es, (bool_decide_true _ Hin). cbn [andb]. rewrite <- app_assoc. simpl. do 2 f_equal.
    apply filter_iff_on. intros x Hx. rewrite elem_of_app, list_elem_of_singleton. set_solver.
  - assert (sharing pid && bool_decide (pid ∉ acc) = false) as ->; [|done].
    destruct (sharing pid); [|done]. apply bool_decide_false. tauto.
Qed.
(** Exactly the peers that share a screen are on the stack, each once. *)
Theorem stack_is_the_sharers (stack : list string) : NoDup stack ->
  NoDup (screen_share_stack peers sharing stack) /\
  (forall pid, pid ∈ screen_share_stack peers sharing stack <-> pid ∈ peers /\ sharing pid = true) /\
  (active_screen_sharer (screen_share_stack peers sharing stack) = None <-> forall pid, pid ∈ peers -> sharing pid = false).
Proof.
  intros Hs.
  assert (forall pid, pid ∈ screen_share_stack peers sharing stack <-> pid ∈ peers /\ sharing pid = true) as Hin.
  { intros pid. rewrite screen_share_stack_shape, elem_of_app. unfold kept, arrived. rewrite !list_elem_of_filter.
    destruct (decide (pid ∈ stack)); tauto. }
  split_and!; [|done |].
  - rewrite screen_share_stack_shape. apply NoDup_app. split_and!; [by apply NoDup_filter | |by apply NoDup_filter].
    intros pid [_ H1]%list_elem_of_filter [[_ H2] _]%list_elem_of_filter. done.
  - unfold active_screen_sharer. rewrite last_None. split.
    + intros H pid Hpid. apply not_true_iff_false. intros Hsh. assert (pid ∈ screen_share_stack peers sharing stack) as Hc by (by apply Hin).
      rewrite H in Hc. by apply not_elem_of_nil in Hc.
    + intros H. apply elem_of_nil_inv. intros pid [Hp Hsh]%Hin. rewrite H in Hsh; done.
Qed.
End Stack.

(** A peer that starts to share is shown, and the screen that was shown before comes back when
    it stops or leaves, if that one is still shared; those below it on the stack do not move. *)
Theorem previous_screen_comes_back (peers peers' : list string) (sharing sharing' : string -> bool) (stack : list string) (new : string) :
  NoDup peers -> NoDup peers' -> new ∉ stack ->
  (forall pid, pid ∈ peers /\ sharing pid = true <-> pid ∈ stack \/ pid = new) ->
  (forall pid, pid ∈ peers' /\ sharing' pid = true <-> pid ∈ stack) ->
  let shown := screen_share_stack peers sharing stack in
  active_screen_sharer shown = Some new /\ screen_share_stack peers' sharing' shown = stack.
Proof.
  intros Hn Hn' Hnew Hsh Hsh' shown.
  assert (shown = stack ++ [new]) as ->.
  { unfold shown. rewrite screen_share_stack_shape by done. f_equal.
    - apply filter_keep_all. apply Forall_forall. intros pid Hp. apply Hsh. by left.
    - unfold arrived. symmetry. apply Permutation_singleton_l, NoDup_Permutation; [apply NoDup_singleton | by apply NoDup_filter |].
      intros pid. rewrite list_elem_of_filter, list_elem_of_singleton. specialize (Hsh pid). set_solver. }
  split; [by apply last_snoc |]. rewrite screen_share_stack_shape by done. unfold kept, arrived. rewrite filter_app.
  rewrite (filter_keep_all _ stack) by (apply Forall_forall; intros pid Hp; by apply Hsh').
  rewrite (filter_keep_none _ [new]) by (apply Forall_singleton; intros H; by apply Hsh' in H).
  rewrite (filter_keep_none _ peers'); [by rewrite !app_nil_r |].
  apply Forall_forall. intros pid Hp [H1 H2]. specialize (Hsh' pid). set_solver.
Qed.

Lemma previous_screen_comes_back_witness :
  let peers := ["7"%string; "8"%string; "9"%string] in
  let stack := ["8"%string] in
  let shown := screen_share_stack peers (fun pid => bool_decide (pid <> "9"%string)) stack in
  active_screen_sharer shown = Some "7"%string /\ screen_share_stack peers (fun pid => bool_decide (pid = "8"%string)) shown = stack.
Proof.
  intros peers stack shown. apply previous_screen_comes_back.
  1-2: by apply (bool_decide_unpack _); vm_compute.
  - by apply (bool_decide_unpack _); vm_compute.
  - intros pid. unfold peers, stack. rewrite bool_decide_eq_true. set_solver.
  - intros pid. unfold peers, stack. rewrite bool_decide_eq_true. set_solver.
Defined.

(** ** The grid *)

(** A grid holds [n] tiles, and would not with a row less. *)
Definition grid_fits (n : Z) (grid : Z * Z) : Prop :=
  let '(cols, rows) := grid in
  1 <= cols /\ 1 <= rows /\ n <= cols * rows /\ (rows - 1) * cols < n.

Lemma div_ceil_fits (n cols : Z) : 1 <= n -> 1 <= cols -> grid_fits n (cols, div_ceil n cols).
Proof.
  intros Hn Hc. unfold grid_fits, div_ceil. pose proof (Z.div_mod n cols ltac:(lia)). pose proof (Z.mod_pos_bound n cols ltac:(lia)).
  assert (0 <= n / cols) by (apply Z.div_pos; lia). destruct (Z.eqb_spec (n mod cols) 0); nia.
Qed.

Lemma best_columns_invariant (n : Z) (value : Z -> option float) (better : float -> float -> bool) (Q : Z * Z * float -> Prop) (range : list Z) :
  (forall cols v, cols ∈ range -> value cols = Some v -> Q (cols, div_ceil n cols, v)) ->
  forall start, Q start -> Q (best_columns n value better start range).
Proof.
  unfold best_columns. intros HQ. induction range as [|cols range IH]; intros start Hs; simpl; [done |].
  apply IH; [intros; apply HQ; [set_solver | done] |].
  destruct (value cols) as [v|] eqn:E; [|done]. destruct (better v start.2); [|done]. apply HQ; [set_solver | done].
Qed.

(** Every tile has a place and no row stays empty, whatever the size of the container. *)
Theorem grid_holds_the_tiles (n : Z) (w h : float) : 1 <= n -> grid_fits n (compute_grid n w h).
Proof.
  intros Hn. unfold compute_grid.
  destruct (Z.eqb_spec n 0); [lia |]. destruct (Z.eqb_spec n 1); [subst; simpl; lia |].
  destruct (Z.eqb_spec n 2); [subst; destruct (fle h w); simpl; lia |].
  destruct (Z.eqb_spec n 3); [subst; simpl; lia |]. destruct (Z.eqb_spec n 4); [subst; simpl; lia |]. cbn [orb].
  assert (forall value better start, grid_fits n start.1 -> grid_fits n (best_columns n value better start (seqZ 1 n)).1) as Hb.
  { intros value better start Hs. apply (best_columns_invariant n value better (fun b => grid_fits n b.1)); [|done].
    intros cols v [Hc _]%elem_of_seqZ _. by apply div_ceil_fits. }
  assert (grid_fits n (1, n)) by (simpl; lia).
  cbn zeta. destruct (feq _ _); repeat (apply Hb; cbn [fst]); done.
Qed.

Lemma grid_holds_the_tiles_witness : 1 <= 7 /\ grid_fits 7 (compute_grid 7 (F64.of_Z 1920) (F64.of_Z 1080)).
Proof. split; [lia | apply grid_holds_the_tiles; lia]. Defined.

Lemma best_columns_largest (n : Z) (value : Z -> option float) (range : list Z) (start : Z * Z * float) : is_nan start.2 = false ->
  let best := best_columns n value (fun v best => flt best v) start range in
  fle start.2 best.2 = true /\ forall cols v, cols ∈ range -> value cols = Some v -> is_nan v = false -> fle v best.2 = true.
Proof.
  unfold best_columns. revert start. induction range as [|cols range IH]; intros start Hs; simpl; [by split; [apply fle_refl | set_solver] |].
  set (next := match value cols with Some _ => _ | None => _ end).
  assert (is_nan next.2 = false /\ fle start.2 next.2 = true /\ forall v, value cols = Some v -> is_nan v = false -> fle v next.2 = true)
    as (N1 & N2 & N3).
  { unfold next. destruct (value cols) as [v|]; [|split_and!; [done | by apply fle_refl | done]].
    destruct (flt start.2 v) eqn:Ef; simpl.
    - apply flt_fle in Ef. pose proof (proj1 (fle_key _ _) Ef) as (_ & Hv & _). split_and!; [done | done |]. intros v' [= ->] _. by apply fle_refl.
    - split_and!; [done | by apply fle_refl |]. intros v' [= ->] Hv. by apply fle_total. }
  destruct (IH next N1) as [I1 I2]. split; [by eapply fle_trans |].
  intros c v [->|Hc]%elem_of_cons Hv Hn; [eapply fle_trans; eauto | eauto].
Qed.

(** From five tiles on: when some number of columns gives tiles of an acceptable shape and a
    positive area, the grid that is chosen gives tiles of an acceptable shape that are at
    least as large. *)
Theorem grid_has_the_largest_tiles (n cols : Z) (w h area : float) : 5 <= n -> 1 <= cols <= n ->
  tile_area n (avail w) (avail h) cols = Some area -> flt (F64.of_Z 0) area = true ->
  exists chosen best, compute_grid n w h = (chosen, div_ceil n chosen) /\
    tile_area n (avail w) (avail h) chosen = Some best /\ fle area best = true.
Proof.
  intros Hn Hc Ha Hp. unfold compute_grid. rewrite !(proj2 (Z.eqb_neq _ _)) by lia. cbn [orb]. cbn zeta.
  set (value := tile_area n (avail w) (avail h)) in *. set (better := fun v best => flt best v).
  set (best := best_columns n value better (1, n, F64.of_Z 0) (seqZ 1 n)).
  assert (is_nan area = false) as Hna by (apply flt_fle, fle_key in Hp; apply Hp).
  destruct (best_columns_largest n value (seqZ 1 n) (1, n, F64.of_Z 0) eq_refl) as [_ Hbest].
  specialize (Hbest cols area ltac:(apply elem_of_seqZ; lia) Ha Hna). fold better best in Hbest.
  assert (best = (1, n, F64.of_Z 0) \/ value best.1.1 = Some best.2 /\ best.1.2 = div_ceil n best.1.1) as Hshape.
  { unfold best. apply (best_columns_invariant n value better (fun b => b = (1, n, F64.of_Z 0) \/ value b.1.1 = Some b.2 /\ b.1.2 = div_ceil n b.1.1)); [|by left].
    intros c v _ Hv. right. done. }
  assert (fle best.2 (F64.of_Z 0) = false) as Hpos.
  { apply not_true_iff_false. intros Hle. assert (fle area (F64.of_Z 0) = true) as Hz by (by eapply fle_trans). by rewrite (fle_not_flt _ _ Hz) in Hp. }
  destruct Hshape as [He|[Hv Hr]]; [by rewrite He in Hpos |].
  unfold feq. rewrite Hpos. cbn [andb]. exists best.1.1, best.2. split_and!; [|done | done]. rewrite <- Hr. by destruct best as [[c r] a].
Qed.

Lemma grid_has_the_largest_tiles_witness :
  let w := F64.of_Z 1000 in let h := F64.of_Z 800 in
  exists chosen best, compute_grid 6 w h = (chosen, div_ceil 6 chosen) /\
    tile_area 6 (avail w) (avail h) chosen = Some best /\
    fle (default S754_nan (tile_area 6 (avail w) (avail h) 2)) best = true.
Proof. intros w h. apply (grid_has_the_largest_tiles 6 2); [lia | lia | vm_compute; reflexivity | vm_compute; reflexivity]. Defined.

(** The page with its client: a render puts on the stack exactly the peers of the client that
    share a screen, each once. *)
Corollary render_shows_the_sharers {A K P : Type} (c : VideoCallClient (A := A) (K := K) (P := P)) (stack : list string) :
  om_wf (connected_peers (peer_decode_manager c)) -> Forall (fun sid => 0 <= sid) (sorted_keys (peer_decode_manager c)) -> NoDup stack ->
  NoDup (render_stack c stack) /\
  forall pid, pid ∈ render_stack c stack <-> pid ∈ sorted_peer_keys c /\ is_screen_share_enabled_for_peer pid c = true.
Proof.
  intros [Hs _] Hk Hn. destruct (stack_is_the_sharers (sorted_peer_keys c) (fun pid => is_screen_share_enabled_for_peer pid c)) with stack
    as (H1 & H2 & _); [|done | done].
  unfold sorted_peer_keys. apply lt_sorted_nodup in Hs. apply (NoDup_fmap_2_strong show_u64); [|exact Hs].
  intros x y Hx Hy. apply show_u64_inj; by apply (Forall_elem _ _ _ Hk).
Qed.
