(* ===== verification/AudioReceiver.v ===== *)
(** * Receiving audio

    videocall-client/src/decode/neteq_audio_decoder.rs, the decoder of a peer's audio on the
    main thread; neteq/src/bin/neteq_worker.rs, the worker that runs NetEq for it; and
    neteq/src/web.rs, the wrapper of the engine they use. The two threads exchange messages
    over two ports, each a queue.

    The clock of the engine ([Instant], nanoseconds) and the clock of the browser ([Date],
    an integral number of milliseconds) are two arguments. The differences of [Date]s are
    small integers, whose arithmetic in double precision is exact. [None] is a panic. *)
From S2P Require Import Prelude Floats Protocol Media Statistics PacketBuffer DelayManager TimeStretch NetEq VideoWorker PeerDecode HealthReporter Microphone.

(** ** Messages *)

Inductive WorkerMsg : Type :=
| WInit (rate chans : Z)
| WInsert (seq ts : Z) (data : bytes)
| WFlush
| WClear
| WClose
| WMute (mute : bool)
| WSetDiagnostics (enabled : bool).

#[export] Instance worker_msg_eq_dec : EqDecision WorkerMsg.
Proof. solve_decision. Defined.

(** What a worker posts: [WorkerReady], a Float32Array, or the object with its statistics. *)
Inductive WorkerPost : Type :=
| PostReady (mute_state : bool)
| PostPcm (pcm : list float)
| PostStats (stats : NetEqStats).

(** ** web.rs *)

Inductive WebError : Type :=
| NotInitialized
| EngineError (e : NetEqError).

Section Web.
Context {D : Type} `{!AudioDecoder D}.
Notation engine := (NetEq D Accelerator PreemptiveExpander).

Record WebNetEq : Type := mkWebNetEq {
  wn_neteq : option engine;
  wn_sample_rate : Z;
  wn_channels : Z;
  wn_additional_delay_ms : Z;
}.

Definition web_new (rate chans additional_delay : Z) : WebNetEq := mkWebNetEq None rate chans additional_delay.

Definition web_config (w : WebNetEq) : NetEqConfig :=
  mkNetEqConfig (wn_sample_rate w) (wn_channels w) 200 0 0 (wn_additional_delay_ms w) false false
    delay_config_default smart_flush_default.

Definition OPUS_PAYLOAD_TYPE : Z := 111.

Definition web_set (w : WebNetEq) (ne : engine) : WebNetEq :=
  mkWebNetEq (Some ne) (wn_sample_rate w) (wn_channels w) (wn_additional_delay_ms w).

(** [decoder] is the outcome of creating the Opus decoder of the browser. *)
Definition web_init (now : Z) (decoder : result D NetEqError) (w : WebNetEq) : WebNetEq * result unit NetEqError :=
  match ne_new (web_config w) now with
  | Ok ne =>
      match decoder with
      | Ok dec => (web_set w (register_decoder OPUS_PAYLOAD_TYPE dec ne), Ok tt)
      | Err e => (w, Err e)
      end
  | Err e => (w, Err e)
  end.

Definition web_is_initialized (w : WebNetEq) : bool := bool_decide (is_Some (wn_neteq w)).

(** The packet of one message. *)
Definition web_packet (now seq ts : Z) (data : bytes) (w : WebNetEq) : AudioPacket :=
  packet_new (mkRtpHeader seq ts 0x12345678 OPUS_PAYLOAD_TYPE false) data (wn_sample_rate w) (wn_channels w) 20 now.

Definition web_insert_packet (now seq ts : Z) (data : bytes) (w : WebNetEq) : option (WebNetEq * result unit WebError) :=
  match wn_neteq w with
  | None => Some (w, Err NotInitialized)
  | Some ne =>
      '(ne, r) ← ne_insert_packet now (web_packet now seq ts data w) ne;
      Some (web_set w ne, match r with Ok _ => Ok tt | Err e => Err (EngineError e) end)
  end.

Definition web_get_audio (now : Z) (w : WebNetEq) : option (WebNetEq * result (list float) WebError) :=
  match wn_neteq w with
  | None => Some (w, Err NotInitialized)
  | Some ne =>
      '(ne, r) ← get_audio now ne;
      Some (web_set w ne, match r with Ok frame => Ok (samples frame) | Err e => Err (EngineError e) end)
  end.

Definition web_get_statistics (w : WebNetEq) : result NetEqStats WebError :=
  match wn_neteq w with Some ne => Ok (get_statistics ne) | None => Err NotInitialized end.

(** ** neteq_worker.rs *)

(** The statics, whether the engine is still being made, and whether the scope was closed. *)
Record Worker : Type := mkWorker {
  wk_neteq : option WebNetEq;
  wk_is_muted : bool;
  wk_diagnostics_enabled : bool;
  wk_start_time : Z;
  wk_last_production_time : Z;
  wk_total_frames_produced : Z;
  wk_timing_adjustments : Z;
  wk_last_timing_log : Z;
  wk_starting : bool;
  wk_closed : bool;
}.

#[export] Instance eta_Worker : Eta Worker := fun r =>
  mkWorker (wk_neteq r) (wk_is_muted r) (wk_diagnostics_enabled r) (wk_start_time r) (wk_last_production_time r)
    (wk_total_frames_produced r) (wk_timing_adjustments r) (wk_last_timing_log r) (wk_starting r) (wk_closed r).

(** The worker after [start]: its handlers are installed and the engine is being made. *)
Definition worker_started : Worker := mkWorker None true true 0 0 0 0 0 true false.

(** The engine made by [start] is ready, or failed. *)
Definition worker_init (now : Z) (decoder : result D NetEqError) (w : Worker) : Worker * list WorkerPost :=
  let w := w <| wk_starting := false |> in
  match web_init now decoder (web_new 48000 1 80) with
  | (eq, Ok _) => (w <| wk_neteq := Some eq |>, [PostReady (wk_is_muted w)])
  | (_, Err _) => (w, [])
  end.

Definition handle_message (now : Z) (msg : WorkerMsg) (w : Worker) : option Worker :=
  match msg with
  | WInit _ _ => Some w
  | WInsert seq ts data =>
      match wk_neteq w with
      | Some eq => '(eq, _) ← web_insert_packet now seq ts data eq; Some (w <| wk_neteq := Some eq |>)
      | None => Some w
      end
  | WFlush => Some w
  | WClear => Some (w <| wk_neteq := None |>)
  | WClose => Some (w <| wk_closed := true |>)
  | WMute mute => Some (w <| wk_is_muted := mute |>)
  | WSetDiagnostics enabled => Some (w <| wk_diagnostics_enabled := enabled |>)
  end.

Definition stats_timer (w : Worker) : list WorkerPost :=
  if wk_diagnostics_enabled w then
    match wk_neteq w with
    | Some eq => match web_get_statistics eq with Ok stats => [PostStats stats] | Err _ => [] end
    | None => []
    end
  else [].

(** Pulling one frame out of the engine, if there is an engine; [true] when one was got. *)
Definition produce_frame (now : Z) (w : Worker) : option (Worker * list WorkerPost * bool) :=
  match wk_neteq w with
  | Some eq =>
      '(eq, r) ← web_get_audio now eq;
      let w := w <| wk_neteq := Some eq |> in
      match r with
      | Ok pcm => Some (w <| wk_total_frames_produced := wk_total_frames_produced w +u64 1 |>, [PostPcm pcm], true)
      | Err _ => Some (w, [], false)
      end
  | None => Some (w, [], false)
  end.

(** The frames due at 100 Hz since the first turn of the timer. *)
Definition expected_total_frames (date : Z) (w : Worker) : Z := Z.max 0 ((date - wk_start_time w) ÷ 10).

Definition frames_behind (date : Z) (w : Worker) : Z :=
  wrap_i 32 (sat_sub (expected_total_frames date w) (wk_total_frames_produced w)).

(** The audio timer. *)
Definition audio_timer (now date : Z) (w : Worker) : option (Worker * list WorkerPost) :=
  if wk_start_time w =? 0 then
    let w := w <| wk_start_time := date |> <| wk_last_production_time := date |> in
    if wk_is_muted w then Some (w, [])
    else '(w, posts, _) ← produce_frame now w; Some (w, posts)
  else
    let behind := frames_behind date w in
    let '(w, should_produce) :=
      if wk_is_muted w then (w <| wk_total_frames_produced := expected_total_frames date w |>, false)
      else (w, (0 <? behind) || (10 <=? date - wk_last_production_time w)) in
    let w := if 5000 <? date - wk_last_timing_log w then w <| wk_last_timing_log := date |> else w in
    if should_produce then
      '(w, posts, got) ← produce_frame now w;
      if (got : bool) then
        let w := w <| wk_last_production_time := date |> in
        Some (if 1 <? behind then w <| wk_timing_adjustments := wk_timing_adjustments w +i32 1 |> else w, posts)
      else Some (w, posts)
    else Some (w, []).
End Web.
Arguments WebNetEq : clear implicits.
Arguments Worker : clear implicits.

(** ** neteq_audio_decoder.rs *)

Definition AUDIO_SAMPLE_RATE : Z := 48000.
Definition AUDIO_CHANNELS : Z := 1.

(** [nd_port] holds the messages posted to the worker that it has not taken yet. *)
Record NetEqAudioPeerDecoder : Type := mkNetEqDecoder {
  nd_decoded : bool;
  nd_peer_id : string;
  nd_pending_messages : list WorkerMsg;
  nd_worker_ready : bool;
  nd_speaking : bool;
  nd_audio_level : float;
  nd_received_sequences : list Z;
  nd_vad_threshold : float;
  nd_port : list WorkerMsg;
}.

#[export] Instance eta_NetEqDecoder : Eta NetEqAudioPeerDecoder := fun r =>
  mkNetEqDecoder (nd_decoded r) (nd_peer_id r) (nd_pending_messages r) (nd_worker_ready r) (nd_speaking r)
    (nd_audio_level r) (nd_received_sequences r) (nd_vad_threshold r) (nd_port r).

Definition send_message_immediate (msg : WorkerMsg) (d : NetEqAudioPeerDecoder) : NetEqAudioPeerDecoder :=
  d <| nd_port := nd_port d ++ [msg] |>.

Definition send_worker_message (msg : WorkerMsg) (d : NetEqAudioPeerDecoder) : NetEqAudioPeerDecoder :=
  if nd_worker_ready d then send_message_immediate msg d
  else d <| nd_pending_messages := nd_pending_messages d ++ [msg] |>.

Definition record_sequence (seq : Z) (d : NetEqAudioPeerDecoder) : NetEqAudioPeerDecoder :=
  let received := if bool_decide (AUDIO_RED_SEQ_HISTORY_SIZE <= length (nd_received_sequences d))%nat
                  then tail (nd_received_sequences d) else nd_received_sequences d in
  d <| nd_received_sequences := received ++ [seq] |>.

Definition has_sequence (seq : Z) (d : NetEqAudioPeerDecoder) : bool := existsb (Z.eqb seq) (nd_received_sequences d).

Definition MAX_PRIMARY_LEN : Z := 10000.

Definition unpack_red_audio (data : bytes) : option (bytes * Z * bytes) :=
  if bool_decide (length data < 8)%nat then None
  else
    let primary_len := from_le_bytes (take 4 data) in
    if MAX_PRIMARY_LEN <? primary_len then None
    else
      let redundant_seq_offset := (4 + Z.to_nat primary_len)%nat in
      if bool_decide (length data < redundant_seq_offset + 4)%nat then None
      else
        Some (take (Z.to_nat primary_len) (drop 4 data), from_le_bytes (take 4 (drop redundant_seq_offset data)),
              drop (redundant_seq_offset + 4) data).

Definition nd_set_muted (mute : bool) (d : NetEqAudioPeerDecoder) : NetEqAudioPeerDecoder :=
  send_worker_message (WMute mute) d.

Definition nd_flush (d : NetEqAudioPeerDecoder) : NetEqAudioPeerDecoder := send_worker_message WFlush d.

(** [new_with_mute_state], once the worker and the audio context were got. The timer it
    sets posts [WInit] 10 ms later. *)
Definition new_with_mute_state (peer_id : string) (initial_muted : bool) (vad_threshold : option float)
    : NetEqAudioPeerDecoder :=
  let d := mkNetEqDecoder false peer_id [] false false (F32.of_Z 0) [] (default DEFAULT_VAD_THRESHOLD vad_threshold) [] in
  send_worker_message (WSetDiagnostics true) (nd_set_muted initial_muted d).

Definition new_with_muted_state (peer_id : string) (vad_threshold : option float) : NetEqAudioPeerDecoder :=
  new_with_mute_state peer_id true vad_threshold.

(** The callback of that timer. *)
Definition post_init (d : NetEqAudioPeerDecoder) : NetEqAudioPeerDecoder :=
  send_message_immediate (WInit AUDIO_SAMPLE_RATE AUDIO_CHANNELS) d.

(** The messages of a packet that carries a copy of the frame before it. *)
Definition decode_red (packet : MediaPacket) (seq : Z) (d : NetEqAudioPeerDecoder) : NetEqAudioPeerDecoder :=
  let ts := as_u 32 (mp_timestamp packet) in
  match unpack_red_audio (mp_data packet) with
  | Some (primary, redundant_seq, redundant_data) =>
      let d := if has_sequence redundant_seq d then d
               else send_worker_message (WInsert (wrap_u 16 redundant_seq) (sat_sub ts OPUS_FRAME_DURATION_MS) redundant_data)
                      (record_sequence redundant_seq d) in
      send_worker_message (WInsert (wrap_u 16 seq) ts primary) d
  | None => send_worker_message (WInsert (wrap_u 16 seq) ts (mp_data packet)) d
  end.

Definition nd_decode (packet : MediaPacket) (d : NetEqAudioPeerDecoder) : NetEqAudioPeerDecoder * DecodeStatus :=
  match audio_metadata packet with
  | Some audio_meta =>
      let seq := am_sequence audio_meta in
      let d := record_sequence seq d in
      let is_red := String.eqb (audio_format audio_meta) AUDIO_RED_FORMAT in
      let d := if is_red then decode_red packet seq d
               else send_worker_message (WInsert (wrap_u 16 seq) (as_u 32 (mp_timestamp packet)) (mp_data packet)) d in
      (d <| nd_decoded := true |>, mkDecodeStatus true (negb (nd_decoded d)))
  | None => (d, SKIPPED)
  end.

(** *** Messages of the worker *)

Definition calculate_rms (pcm : list float) : float :=
  if bool_decide (length pcm = 0%nat) then F32.of_Z 0 else root_mean_square pcm.

(** What the handler does beside changing the decoder: events on the bus, and samples for
    the player. *)
Inductive audio_effect : Type :=
| AudioEvent (event : DiagEvent)
| PlayPcm (pcm : list float).

Definition speaking_event (now_ms : Z) (peer_id : string) (is_speaking : bool) (intensity : float) : DiagEvent :=
  mkDiagEvent "peer_speaking" (Some ("speaking->" +:+ peer_id)) now_ms
    [metric "to_peer" (MText peer_id); metric "speaking" (flag_u64 is_speaking);
     metric "audio_level" (MF64 (F64.of_f32 intensity))].

Definition handle_pcm_data (now_ms : Z) (pcm : list float) (d : NetEqAudioPeerDecoder)
    : NetEqAudioPeerDecoder * list audio_effect :=
  let rms := calculate_rms pcm in
  let is_speaking := flt (nd_vad_threshold d) rms in
  let intensity := rms_to_intensity rms (nd_vad_threshold d) in
  let level_changed := flt AUDIO_LEVEL_DELTA_THRESHOLD (fabs (F32.sub intensity (nd_audio_level d))) in
  if negb (Bool.eqb is_speaking (nd_speaking d)) || level_changed then
    (d <| nd_speaking := is_speaking |> <| nd_audio_level := intensity |>,
     [AudioEvent (speaking_event now_ms (nd_peer_id d) is_speaking intensity); PlayPcm pcm])
  else (d, [PlayPcm pcm]).

(** The handler of the worker's messages; [stringify] is the text of the statistics, when
    the browser gives one. *)
Definition on_worker_message {json : Json} (stringify : NetEqStats -> option string) (now_ms : Z) (post : WorkerPost)
    (d : NetEqAudioPeerDecoder) : NetEqAudioPeerDecoder * list audio_effect :=
  match post with
  | PostPcm pcm => handle_pcm_data now_ms pcm d
  | PostReady _ =>
      (foldl (fun d msg => send_message_immediate msg d)
         (d <| nd_worker_ready := true |> <| nd_pending_messages := [] |>) (nd_pending_messages d), [])
  | PostStats stats =>
      match stringify stats with
      | Some json_str => (d, AudioEvent <$> neteq_stats_events now_ms (nd_peer_id d) json_str)
      | None => (d, [])
      end
  end.

(** The decoder as the audio decoder of a peer. The rest of the browser is given;
    [available] tells whether the worker and the audio context can be created. *)
Definition neteq_browser (canvas : string -> option Z) (context_2d : Z -> bool) (post : WorkerMessage -> bool)
    (available : bool) : Browser NetEqAudioPeerDecoder := {|
  get_canvas := canvas;
  has_2d_context := context_2d;
  can_post := post;
  create_audio_peer_decoder peer_id vad := if available then Some (new_with_muted_state peer_id vad) else None;
  audio_decode packet d := let '(d, status) := nd_decode packet d in (d, Some status);
  audio_flush := nd_flush;
  audio_set_muted := nd_set_muted;
|}.

(** ** The two threads *)

Section Link.
Context {D : Type} `{!AudioDecoder D} {json : Json} (stringify : NetEqStats -> option string).

(** [lk_posts] are the posts of the worker that the main thread has not taken yet. *)
Record AudioLink : Type := mkAudioLink {
  lk_decoder : NetEqAudioPeerDecoder;
  lk_worker : Worker D;
  lk_posts : list WorkerPost;
}.

Inductive link_event : Type :=
| LkDecode (packet : MediaPacket)
| LkFlush
| LkSetMuted (mute : bool)
| LkInitTimer
| LkEngineReady (now : Z) (decoder : result D NetEqError)
| LkToWorker (now : Z)
| LkToMain (now_ms : Z)
| LkAudioTimer (now date : Z)
| LkStatsTimer.

Definition link_new (peer_id : string) (initial_muted : bool) (vad_threshold : option float) : AudioLink :=
  mkAudioLink (new_with_mute_state peer_id initial_muted vad_threshold) worker_started [].

(** A step, with the message the worker handled and the effects on the main thread. A closed
    worker does nothing more; the engine is made once. *)
Definition link_step (ev : link_event) (l : AudioLink) : option (AudioLink * option WorkerMsg * list audio_effect) :=
  let 'mkAudioLink d w posts := l in
  match ev with
  | LkDecode packet => Some (mkAudioLink (nd_decode packet d).1 w posts, None, [])
  | LkFlush => Some (mkAudioLink (nd_flush d) w posts, None, [])
  | LkSetMuted mute => Some (mkAudioLink (nd_set_muted mute d) w posts, None, [])
  | LkInitTimer => Some (mkAudioLink (post_init d) w posts, None, [])
  | LkEngineReady now decoder =>
      if wk_closed w || negb (wk_starting w) then Some (l, None, [])
      else let '(w, new) := worker_init now decoder w in Some (mkAudioLink d w (posts ++ new), None, [])
  | LkToWorker now =>
      match nd_port d with
      | msg :: port =>
          if wk_closed w then Some (l, None, [])
          else w ← handle_message now msg w; Some (mkAudioLink (d <| nd_port := port |>) w posts, Some msg, [])
      | [] => Some (l, None, [])
      end
  | LkToMain now_ms =>
      match posts with
      | post :: posts =>
          let '(d, effects) := on_worker_message stringify now_ms post d in
          Some (mkAudioLink d w posts, None, effects)
      | [] => Some (l, None, [])
      end
  | LkAudioTimer now date =>
      if wk_closed w then Some (l, None, [])
      else '(w, new) ← audio_timer now date w; Some (mkAudioLink d w (posts ++ new), None, [])
  | LkStatsTimer =>
      if wk_closed w then Some (l, None, []) else Some (mkAudioLink d w (posts ++ stats_timer w), None, [])
  end.

(** A run, with the messages handled and the effects, in order. *)
Fixpoint link_run (evs : list link_event) (l : AudioLink) : option (AudioLink * list WorkerMsg * list audio_effect) :=
  match evs with
  | [] => Some (l, [], [])
  | ev :: evs =>
      '(l, handled, effects) ← link_step ev l;
      '(l, handled', effects') ← link_run evs l;
      Some (l, option_list handled ++ handled', effects ++ effects')
  end.
End Link.
Arguments AudioLink : clear implicits.
Arguments link_event : clear implicits.
