(* ===== verification/AudioLinkProps.v ===== *)
(** * The main thread and the worker of a peer's audio

    What the decoder of a peer asks for reaches an engine that is ready, in order and once;
    the worker keeps the pace of 100 frames a second; and the engine plays frames in the
    order in which they arrived. The theorems are over any interleaving of the two threads. *)
From S2P Require Import Prelude Floats Protocol Media Statistics PacketBuffer PacketBufferProps DelayManager TimeStretch NetEq NetEqProps PeerDecode HealthReporter Microphone AudioReceiver AudioProps.

(** The messages that are not [WInit], which the worker ignores. *)
Definition is_request (msg : WorkerMsg) : Prop := match msg with WInit _ _ => False | _ => True end.

#[export] Instance is_request_dec (msg : WorkerMsg) : Decision (is_request msg).
Proof. destruct msg; simpl; apply _. Defined.

(** What the decoder sends: it never clears or closes a worker. *)
Definition harmless (msg : WorkerMsg) : Prop := match msg with WClear | WClose => False | _ => True end.

Section Link.
Context {D : Type} `{!AudioDecoder D} {json : Json} (stringify : NetEqStats -> option string).
Notation engine := (NetEq D Accelerator PreemptiveExpander).
Notation link := (AudioLink D).
Notation event := (link_event D).

(** ** The specification of the queue *)

(** The decoder of a worker that was always ready: it posts what it is asked for at once. *)
Definition direct_step (ev : event) (d : NetEqAudioPeerDecoder) : NetEqAudioPeerDecoder :=
  match ev with
  | LkDecode packet => (nd_decode packet d).1
  | LkFlush => nd_flush d
  | LkSetMuted mute => nd_set_muted mute d
  | _ => d
  end.

Definition direct_new (peer_id : string) (initial_muted : bool) (vad : option float) : NetEqAudioPeerDecoder :=
  let d := new_with_mute_state peer_id initial_muted vad in
  d <| nd_worker_ready := true |> <| nd_port := nd_pending_messages d |> <| nd_pending_messages := [] |>.

(** All that was asked for. *)
Definition requests (peer_id : string) (initial_muted : bool) (vad : option float) (evs : list event) : list WorkerMsg :=
  nd_port (foldl (fun d ev => direct_step ev d) (direct_new peer_id initial_muted vad) evs).

(** [ds] is the decoder of the specification, [handled] what the worker has handled. *)
Record queued (ds : NetEqAudioPeerDecoder) (handled : list WorkerMsg) (d : NetEqAudioPeerDecoder) : Prop := mkQueued {
  qd_ready : nd_worker_ready ds = true;
  qd_history : nd_received_sequences d = nd_received_sequences ds;
  qd_queue : queue_ok d;
  qd_requests : nd_port ds = filter is_request handled ++ filter is_request (nd_port d) ++ nd_pending_messages d;
  qd_harmless : Forall harmless (nd_port d ++ nd_pending_messages d);
  qd_waiting : nd_worker_ready d = false -> filter is_request (nd_port d) = [];
  qd_pending : Forall is_request (nd_pending_messages d);
}.

Lemma queued_send (ds d : NetEqAudioPeerDecoder) (handled : list WorkerMsg) (msg : WorkerMsg) :
  is_request msg -> harmless msg -> queued ds handled d ->
  queued (send_worker_message msg ds) handled (send_worker_message msg d).
Proof.
  intros Hm Hh [H1 H2 H3 H4 H5 H6 H7]. destruct (send_outbox msg d H3) as (_ & Hq & Hr).
  unfold send_worker_message at 1. rewrite H1. unfold send_message_immediate.
  unfold send_worker_message, send_message_immediate in *. destruct (nd_worker_ready d) eqn:E; split; simpl; try done.
  - rewrite (H3 E), !app_nil_r in *. rewrite H4, filter_app, filter_cons_True, filter_nil, app_assoc by done. done.
  - rewrite (H3 E), app_nil_r in *. apply Forall_app. auto.
  - congruence.
  - by rewrite H4, <- !app_assoc.
  - rewrite app_assoc. apply Forall_app. auto.
  - auto.
  - apply Forall_app. auto.
Qed.

Lemma queued_record (ds d : NetEqAudioPeerDecoder) (handled : list WorkerMsg) (s : Z) :
  queued ds handled d -> queued (record_sequence s ds) handled (record_sequence s d).
Proof. intros [H1 H2 H3 H4 H5 H6 H7]. split; try done. unfold record_sequence. by rewrite H2. Qed.

Lemma queued_decoded (ds d : NetEqAudioPeerDecoder) (handled : list WorkerMsg) (b b' : bool) :
  queued ds handled d -> queued (ds <| nd_decoded := b |>) handled (d <| nd_decoded := b' |>).
Proof. intros [H1 H2 H3 H4 H5 H6 H7]. by split. Qed.

Lemma queued_decode (ds d : NetEqAudioPeerDecoder) (handled : list WorkerMsg) (packet : MediaPacket) :
  queued ds handled d -> queued (nd_decode packet ds).1 handled (nd_decode packet d).1.
Proof.
  intros Hq. unfold nd_decode. destruct (audio_metadata packet) as [meta|]; [|done]. simpl.
  apply queued_decoded. pose proof (queued_record _ _ _ (am_sequence meta) Hq) as Hr.
  destruct (String.eqb _ _); [|by apply queued_send].
  unfold decode_red. destruct (unpack_red_audio _) as [[[primary seq] data]|]; [|by apply queued_send].
  apply queued_send; [done | done |]. unfold has_sequence. rewrite (qd_history _ _ _ Hr).
  destruct (existsb _ _); [done |]. apply queued_send; [done | done |]. by apply queued_record.
Qed.

Lemma queued_direct (ds d : NetEqAudioPeerDecoder) (handled : list WorkerMsg) (ev : event) :
  queued ds handled d -> queued (direct_step ev ds) handled (direct_step ev d).
Proof. intros Hq. destruct ev; simpl; auto using queued_decode; by apply queued_send. Qed.

(** The worker says that it is ready: the pending messages are posted behind the others. *)
Lemma queued_ready (ds d : NetEqAudioPeerDecoder) (handled : list WorkerMsg) (now_ms : Z) (b : bool) :
  queued ds handled d -> queued ds handled (on_worker_message stringify now_ms (PostReady b) d).1.
Proof.
  intros [H1 H2 H3 H4 H5 H6 H7]. simpl. set (d0 := d <| nd_worker_ready := true |> <| nd_pending_messages := [] |>).
  assert (forall msgs d, foldl (fun d msg => send_message_immediate msg d) d msgs = d <| nd_port := nd_port d ++ msgs |>) as ->.
  { intros msgs. induction msgs as [|m msgs IH]; intros [? ? ? ? ? ? ? ? port]; simpl; [by rewrite app_nil_r |].
    rewrite IH. simpl. by rewrite <- app_assoc. }
  split; simpl; try done.
  - rewrite app_nil_r, filter_app, H4. do 2 f_equal.
    clear -H7. induction H7; [done |]. rewrite filter_cons_True by done. congruence.
  - by rewrite app_nil_r.
Qed.

(** Samples and statistics leave the queues alone. *)
Lemma queued_pcm (ds d : NetEqAudioPeerDecoder) (handled : list WorkerMsg) (now_ms : Z) (pcm : list float) :
  queued ds handled d -> queued ds handled (handle_pcm_data now_ms pcm d).1 /\
  nd_worker_ready (handle_pcm_data now_ms pcm d).1 = nd_worker_ready d.
Proof. intros [H1 H2 H3 H4 H5 H6 H7]. unfold handle_pcm_data. destruct (_ || _); (split; [by split | done]). Qed.

(** The worker takes a message off its port. *)
Lemma queued_take (ds d : NetEqAudioPeerDecoder) (handled port : list WorkerMsg) (msg : WorkerMsg) :
  queued ds handled d -> nd_port d = msg :: port ->
  queued ds (handled ++ [msg]) (d <| nd_port := port |>) /\ harmless msg /\ (is_request msg -> nd_worker_ready d = true).
Proof.
  intros [H1 H2 H3 H4 H5 H6 H7] Ep. rewrite Ep in *. apply Forall_app in H5 as [Ha Hb]. apply Forall_cons in Ha as [Hm Ha].
  split_and!; [|done |].
  - split; simpl; try done.
    + rewrite H4, filter_app, <- !app_assoc. f_equal. destruct (decide (is_request msg)).
      * by rewrite !filter_cons_True by done.
      * by rewrite !filter_cons_False by done.
    + by apply Forall_app.
    + intros E. specialize (H6 E). rewrite filter_cons in H6. destruct (decide (is_request msg)); done.
  - intros Hreq. destruct (nd_worker_ready d); [done |]. specialize (H6 eq_refl). by rewrite filter_cons_True in H6.
Qed.

(** ** The worker *)

Definition overlap : nat := calculate_overlap_length 48000.

(** The engine a worker makes, after any use of it. *)
Definition engine_ok (eq : WebNetEq D) : Prop :=
  wn_sample_rate eq = 48000 /\ wn_channels eq = 1 /\
  exists ne, wn_neteq eq = Some ne /\ ne_wf acc_inv (pre_inv overlap) overlap ne /\
    nc_sample_rate (config ne) = 48000 /\ nc_channels (config ne) = 1.

Definition engines_ok (w : Worker D) : Prop := forall eq, wk_neteq w = Some eq -> engine_ok eq.

(** What pulling a frame and handling a message keep. *)
Definition same_flags (w w' : Worker D) : Prop :=
  wk_is_muted w' = wk_is_muted w /\ wk_starting w' = wk_starting w /\ wk_closed w' = wk_closed w /\
  (is_Some (wk_neteq w') <-> is_Some (wk_neteq w)).

Lemma web_init_ok (now : Z) (decoder : result D NetEqError) (eq : WebNetEq D) (r : unit) :
  web_init now decoder (web_new 48000 1 80) = (eq, Ok r) -> engine_ok eq.
Proof.
  unfold web_init. destruct (ne_new _ now) as [ne|] eqn:E; [|done]. destruct decoder as [dec|]; [|done]. intros [= <- _].
  apply ne_new_wf in E as [Hwf Hc]; [|vm_compute; reflexivity].
  split_and!; [done | done |]. eexists. split; [reflexivity |].
  destruct (ne_step_wf _ _ _ ne _ (step_register OPUS_PAYLOAD_TYPE dec ne) Hwf) as [Hwf' Hc'].
  split; [exact Hwf' |]. rewrite Hc', Hc. done.
Qed.

Lemma web_insert_ok (now seq ts : Z) (data : bytes) (eq eq' : WebNetEq D) (r : result unit WebError) :
  web_insert_packet now seq ts data eq = Some (eq', r) -> engine_ok eq -> engine_ok eq'.
Proof.
  intros E (Hr & Hc & ne & Hn & Hwf & Hr' & Hc'). unfold web_insert_packet in E. rewrite Hn in E.
  destruct (ne_insert_packet _ _ ne) as [[ne' r']|] eqn:Ei; [|done]. simplify_eq/=.
  apply (insert_wf acc_inv (pre_inv overlap) overlap) in Ei as [Hwf' Hcfg]; [|done].
  split_and!; [done | done |]. exists ne'. rewrite Hcfg. done.
Qed.

Lemma web_get_audio_ok (now : Z) (eq : WebNetEq D) : engine_ok eq ->
  exists eq' pcm, web_get_audio now eq = Some (eq', Ok pcm) /\ engine_ok eq' /\ length pcm = 480%nat.
Proof.
  intros (Hr & Hc & ne & Hn & Hwf & Hr' & Hc'). unfold web_get_audio. rewrite Hn.
  destruct (get_audio_ok _ _ _ now ne Hwf) as (ne' & frame & -> & Hl & Hwf' & Hcfg). simpl.
  eexists _, _. split; [reflexivity |]. split.
  - split_and!; [done | done |]. exists ne'. rewrite Hcfg. done.
  - rewrite Hl, (nw_frame _ _ _ _ Hwf), Hr', Hc'. done.
Qed.

(** Pulling a frame always succeeds, and gives one when there is an engine. *)
Lemma produce_frame_ok (now : Z) (w : Worker D) : engines_ok w ->
  exists w' posts, produce_frame now w = Some (w', posts, bool_decide (is_Some (wk_neteq w))) /\
    engines_ok w' /\ same_flags w w' /\
    wk_total_frames_produced w' = (if bool_decide (is_Some (wk_neteq w)) then wk_total_frames_produced w +u64 1
                                   else wk_total_frames_produced w) /\
    wk_start_time w' = wk_start_time w /\ wk_last_production_time w' = wk_last_production_time w /\
    Forall (fun post => exists pcm, post = PostPcm pcm /\ length pcm = 480%nat) posts /\
    length posts = if bool_decide (is_Some (wk_neteq w)) then 1%nat else 0%nat.
Proof.
  intros Hw. unfold produce_frame. destruct (wk_neteq w) as [eq|] eqn:E.
  - destruct (web_get_audio_ok now eq (Hw eq E)) as (eq' & pcm & -> & Hok & Hl). simpl.
    eexists _, _. split; [reflexivity |].
    split_and!; try done; simpl.
    + intros eq1 [= <-]. done.
    + repeat constructor. eauto.
  - eexists _, _. split; [reflexivity |]. rewrite !bool_decide_false by (intros [? ?]; done). done.
Qed.

Definition full_frame (post : WorkerPost) : Prop := exists pcm, post = PostPcm pcm /\ length pcm = 480%nat.

(** The times a turn of the timer leaves: the first turn, the date of the last frame, and
    the frames accounted for. *)
Definition timer_times (date : Z) (w : Worker D) : Z * Z * Z :=
  let engine := bool_decide (is_Some (wk_neteq w)) in
  let total := wk_total_frames_produced w in
  let more := if engine then total +u64 1 else total in
  if wk_start_time w =? 0 then (date, date, if wk_is_muted w then total else more)
  else if wk_is_muted w then (wk_start_time w, wk_last_production_time w, expected_total_frames date w)
  else if (0 <? frames_behind date w) || (10 <=? date - wk_last_production_time w) then
    (wk_start_time w, if engine then date else wk_last_production_time w, more)
  else (wk_start_time w, wk_last_production_time w, total).

(** A turn of the audio timer never fails. It posts only full frames, none when muted. *)
Lemma audio_timer_ok (now date : Z) (w : Worker D) : engines_ok w ->
  exists w' posts, audio_timer now date w = Some (w', posts) /\
    engines_ok w' /\ same_flags w w' /\ Forall full_frame posts /\ (wk_is_muted w = true -> posts = []) /\
    (wk_start_time w', wk_last_production_time w', wk_total_frames_produced w') = timer_times date w.
Proof.
  intros Hw. unfold audio_timer, timer_times. destruct (wk_start_time w =? 0).
  - set (w1 := w <| wk_start_time := date |> <| wk_last_production_time := date |>).
    change (wk_is_muted w1) with (wk_is_muted w). destruct (wk_is_muted w) eqn:Em.
    + eexists _, _. split; [reflexivity |]. split_and!; done.
    + destruct (produce_frame_ok now w1 Hw) as (w' & posts & -> & H1 & H2 & H3 & H4 & H5 & H6 & _). simpl.
      eexists _, _. split; [reflexivity |]. split_and!; [done | exact H2 | done | done |]. rewrite H3, H4, H5. done.
  - set (behind := frames_behind date w). destruct (wk_is_muted w) eqn:Em.
    + destruct (5000 <? _); (eexists _, _; split; [reflexivity |]; by split_and!).
    + set (w1 := if 5000 <? date - wk_last_timing_log w then w <| wk_last_timing_log := date |> else w).
      assert (engines_ok w1 /\ same_flags w w1 /\ wk_total_frames_produced w1 = wk_total_frames_produced w /\
        wk_start_time w1 = wk_start_time w /\ wk_last_production_time w1 = wk_last_production_time w /\
        wk_neteq w1 = wk_neteq w) as (G1 & G2 & G3 & G4 & G5 & G6) by (unfold w1; by destruct (_ <? _)).
      destruct ((0 <? behind) || _).
      * destruct (produce_frame_ok now w1 G1) as (w' & posts & -> & H1 & H2 & H3 & H4 & H5 & H6 & _). simpl.
        rewrite G6 in *. rewrite G3 in H3. rewrite G4 in H4. rewrite G5 in H5.
        assert (same_flags w w') as Hf by (unfold same_flags in *; destruct G2 as (?&?&?&?), H2 as (?&?&?&?); split_and!; congruence || tauto).
        destruct (bool_decide (is_Some (wk_neteq w))) eqn:Eb; [destruct (1 <? behind)|];
          (eexists _, _; split; [reflexivity |]; split_and!; try done; simpl; congruence).
      * eexists _, _. split; [reflexivity |]. split_and!; try done; congruence.
Qed.

(** ** The two threads together *)

Record link_inv (ds : NetEqAudioPeerDecoder) (handled : list WorkerMsg) (l : link) : Prop := mkLinkInv {
  li_queued : queued ds handled (lk_decoder l);
  li_open : wk_closed (lk_worker l) = false;
  li_ready : nd_worker_ready (lk_decoder l) = true \/ (exists b, PostReady b ∈ lk_posts l) -> is_Some (wk_neteq (lk_worker l));
  li_engines : engines_ok (lk_worker l);
  li_muted : wk_neteq (lk_worker l) = None -> wk_is_muted (lk_worker l) = true;
}.

(** A step of the worker that keeps its flags and posts no [PostReady]. *)
Lemma link_inv_worker (ds d : NetEqAudioPeerDecoder) (handled : list WorkerMsg) (w w' : Worker D) (posts new : list WorkerPost) :
  link_inv ds handled (mkAudioLink d w posts) -> engines_ok w' -> same_flags w w' -> (forall b, PostReady b ∉ new) ->
  link_inv ds handled (mkAudioLink d w' (posts ++ new)).
Proof.
  intros [H1 H2 H3 H4 H5] He (Hm & _ & Hc & Hs) Hn. simpl in *. split; simpl; [done | congruence | | done |].
  - intros H. apply Hs, H3. destruct H as [H | [b Hb]]; [by left |]. apply elem_of_app in Hb as [Hb | Hb]; [eauto | by destruct (Hn b)].
  - intros E. rewrite Hm. apply H5. destruct (wk_neteq w); [|done]. destruct Hs as [_ Hs]. destruct Hs as [? Hs]; [eauto | congruence].
Qed.

(** The main thread asks for something. *)
Lemma link_inv_direct (ds d : NetEqAudioPeerDecoder) (handled : list WorkerMsg) (w : Worker D) (posts : list WorkerPost) (ev : event) :
  link_inv ds handled (mkAudioLink d w posts) ->
  link_inv (direct_step ev ds) handled (mkAudioLink (direct_step ev d) w posts).
Proof.
  intros [H1 H2 H3 H4 H5]. simpl in *. split; simpl; [by apply queued_direct | done | | done | done].
  intros H. apply H3. destruct H as [H | H]; [left | by right]. revert H.
  assert (forall msg d, nd_worker_ready (send_worker_message msg d) = nd_worker_ready d) as Hs
    by (intros msg d'; unfold send_worker_message; by destruct (nd_worker_ready d') eqn:E).
  destruct ev; simpl; try done; [|by unfold nd_flush, nd_set_muted; rewrite Hs..]. unfold nd_decode. destruct (audio_metadata packet) as [meta|]; [|done].
  simpl. destruct (String.eqb _ _); [|by rewrite Hs]. unfold decode_red.
  destruct (unpack_red_audio _) as [[[? ?] ?]|]; rewrite Hs; [|done]. destruct (has_sequence _ _); [done | by rewrite Hs].
Qed.

(** Handling a message of the decoder keeps a worker that has an engine. *)
Lemma handle_message_ok (now : Z) (msg : WorkerMsg) (w w' : Worker D) :
  handle_message now msg w = Some w' -> harmless msg -> (is_request msg -> is_Some (wk_neteq w)) -> engines_ok w ->
  engines_ok w' /\ wk_closed w' = wk_closed w /\ (is_Some (wk_neteq w) <-> is_Some (wk_neteq w')) /\
  (wk_neteq w' = None -> wk_is_muted w' = wk_is_muted w).
Proof.
  intros E Hh Hr Hw. destruct msg; simpl in *; try done; simplify_eq; try done.
  - destruct (Hr I) as [eq Eq]. rewrite Eq in E. destruct (web_insert_packet _ _ _ _ eq) as [[eq' r]|] eqn:Ei; simplify_eq/=.
    split_and!; [|done | by rewrite Eq; split; eauto | done]. intros eq1 [= <-]. eapply web_insert_ok; [exact Ei | by apply Hw].
  - split_and!; [done | done | done |]. simpl. intros E. destruct (Hr I) as [? ?]. congruence.
Qed.

Lemma link_step_inv (ds : NetEqAudioPeerDecoder) (handled : list WorkerMsg) (l l' : link) (ev : event)
    (msg : option WorkerMsg) (effects : list audio_effect) :
  link_inv ds handled l -> link_step stringify ev l = Some (l', msg, effects) ->
  link_inv (direct_step ev ds) (handled ++ option_list msg) l'.
Proof.
  intros Hi E. destruct l as [d w posts]. pose proof Hi as [Hq Hopen Hready Hengines Hmuted]. simpl in *.
  destruct ev; simpl in E; simplify_eq; simpl; rewrite ?app_nil_r.
  - by apply (link_inv_direct ds d handled w posts (LkDecode packet)).
  - by apply (link_inv_direct ds d handled w posts LkFlush).
  - by apply (link_inv_direct ds d handled w posts (LkSetMuted mute)).
  - destruct Hq as [H1 H2 H3 H4 H5 H6 H7]. split; [|done..]. simpl. split; simpl; try done.
    + rewrite filter_app, filter_cons_False, filter_nil, app_nil_r by (by intros []). done.
    + rewrite <- app_assoc. apply Forall_app in H5 as [Ha Hb]. apply Forall_app. by repeat constructor.
    + intros E. rewrite filter_app, filter_cons_False, filter_nil, app_nil_r by (by intros []). auto.
  - rewrite Hopen in E. simpl in E. destruct (wk_starting w); simpl in E; [|by simplify_eq; rewrite app_nil_r].
    unfold worker_init in E. destruct (web_init now decoder _) as [eq [r|e]] eqn:Ew; simplify_eq; simpl; rewrite ?app_nil_r.
    + split; simpl; [done | done | eauto | | done]. intros eq1 [= <-]. by eapply web_init_ok.
    + done.
  - destruct (nd_port d) as [|m port] eqn:Ep; [by simplify_eq; rewrite app_nil_r |]. rewrite Hopen in E.
    destruct (handle_message now m w) as [w1|] eqn:Em; simplify_eq/=.
    destruct (queued_take ds d handled port m Hq Ep) as (Hq' & Hh & Hreq).
    destruct (handle_message_ok now m w w1 Em Hh) as (He & Hc & Hs & Hmu); [by auto | done |].
    split; simpl; [done | congruence | | done |].
    + intros H. apply Hs, Hready. exact H.
    + intros E. rewrite (Hmu E). apply Hmuted. destruct (wk_neteq w); [|done]. destruct Hs as [Hs _]. destruct Hs; [eauto | congruence].
  - destruct posts as [|post posts]; [by simplify_eq; rewrite app_nil_r |].
    destruct (on_worker_message stringify now_ms post d) as [d1 effects1] eqn:Ed. simplify_eq. simpl. rewrite app_nil_r.
    assert (queued ds handled d1 /\ (nd_worker_ready d1 = true -> nd_worker_ready d = true \/ exists b, post = PostReady b)) as [Hq' Hr'].
    { destruct post as [b|pcm|stats].
      - pose proof (queued_ready ds d handled now_ms b Hq) as H. rewrite Ed in H. eauto.
      - destruct (queued_pcm ds d handled now_ms pcm Hq) as [H1 H2]. simpl in Ed. rewrite Ed in H1, H2. simpl in *.
        split; [done |]. rewrite H2. auto.
      - simpl in Ed. destruct (stringify stats); simplify_eq; auto. }
    split; simpl; [done | done | | done | done]. intros [H | [b Hb]]; apply Hready.
    + destruct (Hr' H) as [? | [b ->]]; [by left |]. right. exists b. set_solver.
    + right. exists b. set_solver.
  - rewrite Hopen in E. destruct (audio_timer_ok now date w Hengines) as (w1 & new & Et & He & Hs & Hf & _). rewrite Et in E. simplify_eq/=.
    rewrite app_nil_r. eapply link_inv_worker; [exact Hi | done | done |]. intros b Hb. rewrite Forall_forall in Hf.
    by destruct (Hf _ Hb) as (? & ? & _).
  - rewrite Hopen in E. simplify_eq/=. rewrite app_nil_r. eapply link_inv_worker; [exact Hi | done | by split_and! |].
    intros b Hb. unfold stats_timer in Hb. destruct (wk_diagnostics_enabled w); [|set_solver].
    destruct (wk_neteq w); [|set_solver]. destruct (web_get_statistics _); set_solver.
Qed.

Lemma link_run_inv (evs : list event) (ds : NetEqAudioPeerDecoder) (handled : list WorkerMsg) (l l' : link)
    (more : list WorkerMsg) (effects : list audio_effect) :
  link_inv ds handled l -> link_run stringify evs l = Some (l', more, effects) ->
  link_inv (foldl (fun d ev => direct_step ev d) ds evs) (handled ++ more) l'.
Proof.
  revert ds handled l more effects. induction evs as [|ev evs IH]; intros ds handled l more effects Hi E; simpl in E.
  - simplify_eq. by rewrite app_nil_r.
  - destruct (link_step stringify ev l) as [[[l1 msg] e1]|] eqn:Es; [|done]. simpl in E.
    destruct (link_run stringify evs l1) as [[[l2 more2] e2]|] eqn:Er; [|done]. simplify_eq/=.
    rewrite app_assoc. eapply IH; [|exact Er]. by eapply link_step_inv.
Qed.

Lemma link_new_inv (peer_id : string) (initial_muted : bool) (vad : option float) :
  link_inv (direct_new peer_id initial_muted vad) [] (link_new peer_id initial_muted vad).
Proof.
  split; simpl; try done.
  - split; simpl; try done; repeat constructor.
  - intros [H | [b Hb]]; [done | set_solver].
Qed.

(** C27: what a decoder asks for reaches its engine. However the threads interleave, the
    messages asked for (mute, flush and insert, as a decoder whose worker was always ready
    would have posted them) are those the worker has handled, then those on its port, then
    those still pending: none is lost, none is repeated and none overtakes another. A message
    that waits on the port finds an engine, the worker is never closed, and once the worker
    was heard to be ready nothing is pending. *)
Theorem requests_reach_the_engine (peer_id : string) (initial_muted : bool) (vad : option float) (evs : list event)
    (l : link) (handled : list WorkerMsg) (effects : list audio_effect) :
  link_run stringify evs (link_new peer_id initial_muted vad) = Some (l, handled, effects) ->
  requests peer_id initial_muted vad evs =
    filter is_request handled ++ filter is_request (nd_port (lk_decoder l)) ++ nd_pending_messages (lk_decoder l) /\
  (forall msg, msg ∈ nd_port (lk_decoder l) -> is_request msg ->
    exists eq ne, wk_neteq (lk_worker l) = Some eq /\ wn_neteq eq = Some ne) /\
  wk_closed (lk_worker l) = false /\
  (nd_worker_ready (lk_decoder l) = true -> nd_pending_messages (lk_decoder l) = []).
Proof.
  intros E. pose proof (link_run_inv evs _ _ _ _ _ _ (link_new_inv peer_id initial_muted vad) E) as [Hq Hc Hr He Hm].
  split_and!; [exact (qd_requests _ _ _ Hq) | | done | exact (qd_queue _ _ _ Hq)].
  intros msg Hin Hreq. assert (nd_worker_ready (lk_decoder l) = true) as Hw.
  { destruct (nd_worker_ready (lk_decoder l)) eqn:Ew; [done |]. pose proof (qd_waiting _ _ _ Hq Ew) as Hf.
    assert (msg ∈ filter is_request (nd_port (lk_decoder l))) as H by (by apply list_elem_of_filter).
    rewrite Hf in H. set_solver. }
  destruct (Hr (or_introl Hw)) as [eq Eq]. destruct (He eq Eq) as (_ & _ & ne & En & _). eauto.
Qed.

(** ** Pace *)

(** The turns of the audio timer come in order, at most 10 ms apart; [prev] is the date of
    the last one. *)
Fixpoint steady (prev : option Z) (evs : list event) : Prop :=
  match evs with
  | [] => True
  | LkAudioTimer _ date :: evs =>
      0 < date < 2 ^ 62 /\ match prev with Some t => t <= date <= t + 10 | None => True end /\ steady (Some date) evs
  | _ :: evs => steady prev evs
  end.

Definition last_tick (prev : option Z) (evs : list event) : option Z :=
  foldl (fun prev ev => match ev with LkAudioTimer _ date => Some date | _ => prev end) prev evs.

Definition times (w : Worker D) : Z * Z * Z := (wk_start_time w, wk_last_production_time w, wk_total_frames_produced w).

(** The frames due [10 * n] ms after the first turn. *)
Definition due (start date : Z) : Z := (date - start) / 10.

Definition pace (prev : option Z) (w : Worker D) : Prop :=
  let '(start, last, total) := times w in
  match prev with
  | None => start = 0 /\ total = 0
  | Some t => 0 < start <= last /\ last <= t < 2 ^ 62 /\ due start t <= total <= due start t + 1 /\
              (total <= due start last + 1 \/ total <= due start t)
  end.

Lemma due_mono (start a b : Z) : a <= b -> due start a <= due start b.
Proof. intros. apply Z.div_le_mono; lia. Qed.

Lemma due_next (start a : Z) : due start (a + 10) = due start a + 1.
Proof. unfold due. replace (a + 10 - start) with ((a - start) + 1 * 10) by lia. apply Z.div_add. lia. Qed.

Lemma expected_due (date : Z) (w : Worker D) : wk_start_time w <= date -> expected_total_frames date w = due (wk_start_time w) date.
Proof.
  intros H. unfold expected_total_frames, due. rewrite Z.quot_div_nonneg by lia.
  pose proof (Z.div_pos (date - wk_start_time w) 10). lia.
Qed.

Lemma pace_tick (prev : option Z) (date : Z) (w w' : Worker D) :
  pace prev w -> 0 < date < 2 ^ 62 -> match prev with Some t => t <= date <= t + 10 | None => True end ->
  (wk_neteq w = None -> wk_is_muted w = true) -> times w' = timer_times date w -> pace (Some date) w'.
Proof.
  intros Hp Hd Hgap Hm Ht. unfold pace in *. rewrite Ht. unfold timer_times, times in *.
  destruct prev as [t|].
  - destruct Hp as (Hs & Hl & Htot & Hor). rewrite (proj2 (Z.eqb_neq _ _)) by lia.
    set (start := wk_start_time w) in *. set (last := wk_last_production_time w) in *. set (total := wk_total_frames_produced w) in *.
    pose proof (due_mono start t date ltac:(lia)). pose proof (due_mono start date (t + 10) ltac:(lia)) as Hnext.
    rewrite due_next in Hnext. assert (0 <= due start t) by (apply Z.div_pos; lia).
    assert (due start date < 2 ^ 62) by (apply Z.div_lt_upper_bound; lia).
    unfold frames_behind. rewrite expected_due by (fold start; lia). fold start total. unfold sat_sub.
    rewrite (wrap_u_small 64) by (unfold u_in; lia).
    replace (wrap_i 32 (Z.max 0 (due start date - total))) with (Z.max 0 (due start date - total)).
    2: { assert (Z.max 0 (due start date - total) = 0 \/ Z.max 0 (due start date - total) = 1) as [-> | ->] by lia; done. }
    destruct (wk_is_muted w) eqn:Em; [lia |].
    rewrite bool_decide_true by (destruct (wk_neteq w); [eauto | naive_solver]).
    destruct (Z.ltb_spec 0 (Z.max 0 (due start date - total))); simpl; [lia |].
    destruct (Z.leb_spec 10 (date - last)); [|lia].
    pose proof (due_mono start (last + 10) date ltac:(lia)) as Hlast. rewrite due_next in Hlast. lia.
  - destruct Hp as [Hs Ht0]. rewrite Hs, Ht0. simpl. unfold due. rewrite Z.sub_diag, Z.div_0_l by lia.
    destruct (wk_is_muted w) eqn:Em; [lia |]. rewrite bool_decide_true by (destruct (wk_neteq w); [eauto | naive_solver]).
    change (wrap_u 64 (0 + 1)) with 1. lia.
Qed.

(** Only the audio timer changes the times. *)
Lemma link_step_times (l l' : link) (ev : event) (msg : option WorkerMsg) (effects : list audio_effect) :
  link_step stringify ev l = Some (l', msg, effects) -> match ev with LkAudioTimer _ _ => False | _ => True end ->
  times (lk_worker l') = times (lk_worker l).
Proof.
  intros E Hev. destruct l as [d w posts]. destruct ev; simpl in E; simplify_eq; try done.
  - destruct (_ || _); simplify_eq; [done |]. unfold worker_init in E. destruct (web_init now decoder _) as [eq [r|e]]; by simplify_eq.
  - destruct (nd_port d) as [|m port]; simplify_eq; [done |]. destruct (wk_closed w); simplify_eq; [done |].
    destruct (handle_message now m w) as [w1|] eqn:Em; simplify_eq/=. destruct m; simpl in Em; simplify_eq; try done.
    destruct (wk_neteq w); simplify_eq; [|done]. by destruct (web_insert_packet _ _ _ _ _) as [[eq r]|]; simplify_eq/=.
  - destruct posts as [|post posts]; simplify_eq; [done |]. by destruct (on_worker_message _ _ _ _); simplify_eq.
  - by destruct (wk_closed w); simplify_eq.
Qed.

Lemma pace_times (prev : option Z) (w w' : Worker D) : times w' = times w -> pace prev w -> pace prev w'.
Proof. intros E. unfold pace. by rewrite E. Qed.

Lemma link_run_pace (evs : list event) (prev : option Z) (ds : NetEqAudioPeerDecoder) (handled : list WorkerMsg) (l l' : link)
    (more : list WorkerMsg) (effects : list audio_effect) :
  link_inv ds handled l -> link_run stringify evs l = Some (l', more, effects) -> steady prev evs ->
  pace prev (lk_worker l) -> pace (last_tick prev evs) (lk_worker l').
Proof.
  revert prev ds handled l more effects. induction evs as [|ev evs IH]; intros prev ds handled l more effects Hi E Hst Hp; simpl in E.
  - by simplify_eq.
  - destruct (link_step stringify ev l) as [[[l1 msg] e1]|] eqn:Es; [|done]. simpl in E.
    destruct (link_run stringify evs l1) as [[[l2 more2] e2]|] eqn:Er; [|done]. simplify_eq/=.
    pose proof (link_step_inv _ _ _ _ _ _ _ Hi Es) as Hi1.
    destruct ev; try (eapply (IH prev); [exact Hi1 | exact Er | exact Hst |]; eapply pace_times; [|exact Hp];
      exact (link_step_times l l1 _ msg e1 Es I)).
    destruct Hst as (Hd & Hgap & Hst). apply (IH (Some date) _ _ _ _ _ Hi1 Er Hst).
    destruct l as [d w posts]. destruct Hi as [_ Hopen _ Hengines Hmuted]. simpl in *. rewrite Hopen in Es.
    destruct (audio_timer_ok now date w Hengines) as (w1 & new & Et & _ & _ & _ & _ & Htimes). rewrite Et in Es. simplify_eq/=.
    by eapply pace_tick.
Qed.

(** C28: the worker keeps the pace. Whatever messages arrive and however it is muted and
    unmuted, when the turns of its timer are at most 10 ms apart the frames it has accounted
    for are those due at 100 a second since its first turn, or one more. Its next turn never
    fails, whatever the dates, and posts only frames of 480 samples, none of them when it is muted. *)
Theorem playback_keeps_pace (peer_id : string) (initial_muted : bool) (vad : option float) (evs : list event)
    (l : link) (handled : list WorkerMsg) (effects : list audio_effect) (t : Z) :
  link_run stringify evs (link_new peer_id initial_muted vad) = Some (l, handled, effects) ->
  steady None evs -> last_tick None evs = Some t ->
  let w := lk_worker l in
  expected_total_frames t w <= wk_total_frames_produced w <= expected_total_frames t w + 1 /\
  forall now date, exists w' posts, audio_timer now date w = Some (w', posts) /\ Forall full_frame posts /\
    (wk_is_muted w = true -> posts = []).
Proof.
  intros E Hst Hl w. pose proof (link_new_inv peer_id initial_muted vad) as Hi. split.
  - assert (pace None (lk_worker (link_new (D := D) peer_id initial_muted vad))) as Hp by done.
    pose proof (link_run_pace evs None _ _ _ _ _ _ Hi E Hst Hp) as H. rewrite Hl in H. unfold pace, times in H. fold w in H.
    rewrite expected_due by lia. lia.
  - intros now date. pose proof (link_run_inv evs _ _ _ _ _ _ Hi E) as [_ _ _ He _].
    destruct (audio_timer_ok now date w He) as (w' & posts & Et & _ & _ & Hf & Hm & _). eauto.
Qed.
End Link.
