(* ===== verification/AudioOrder.v ===== *)
(** * The order in which audio is played

    The engine keeps its packets by timestamp and, among packets of the same timestamp, in
    the order of their arrival. The timestamp a decoder gives them is the sender's clock in
    milliseconds since 1970 converted to 32 bits, which saturates: every packet has the same
    timestamp, a frame recovered from redundancy one 20 ms earlier. So the engine plays
    the recovered frames it holds first, and the others in the order of their arrival. *)
From S2P Require Import Prelude Floats Protocol Media Statistics PacketBuffer PacketBufferProps DelayManager TimeStretch NetEq NetEqProps PeerDecode HealthReporter HealthReporterProps Microphone AudioReceiver AudioProps AudioLinkProps.

Lemma sublist_fmap {A B : Type} (f : A -> B) (l k : list A) : l `sublist_of` k -> (f <$> l) `sublist_of` (f <$> k).
Proof. induction 1; simpl; by constructor. Qed.

(** ** Playing only removes packets *)

Section Shrinks.
Context {D A P : Type} `{!AudioDecoder D} `{!TimeStretcher A} `{!TimeStretcher P}.
Notation engine := (NetEq D A P).

Definition plays (ne ne' : engine) : Prop := shrinks (packet_buffer ne) (packet_buffer ne').

#[local] Instance plays_preorder : PreOrder plays.
Proof. split; [intros ne; apply shrinks_refl | intros a b c; apply shrinks_trans]. Qed.

Lemma fill_loop_plays (pkts : list AudioPacket) (filled : nat) (frame : AudioFrame) (ne : engine) :
  plays ne (fill_loop pkts filled frame ne).1.
Proof.
  revert filled frame ne. induction pkts as [|p pkts IH]; intros filled frame ne; simpl; (case_bool_decide; [|reflexivity]).
  - reflexivity.
  - unfold use_packet. destruct (decode_packet p (decoders ne)) as [decs s]. etransitivity; [|apply IH].
    split; simpl; [|done]. destruct (buffer (packet_buffer ne)); [done |]. by apply sublist_cons.
Qed.

Lemma decode_normal_plays (frame : AudioFrame) (ne : engine) : plays ne (decode_normal frame ne).1.
Proof. unfold decode_normal. etransitivity; [|apply fill_loop_plays]. by split. Qed.

Lemma put_back_plays (input : list float) (used : nat) (ne : engine) : plays ne (put_back input used ne).
Proof. unfold put_back. case_bool_decide; by split. Qed.

(** The engine after decoding, a stretcher and the samples it did not use. *)
Lemma stretched_plays (frame : AudioFrame) (ne ne1 ne2 : engine) (extended : AudioFrame) (used : nat) (f : engine -> engine) :
  decode_normal frame ne = (ne1, extended) -> packet_buffer (f ne1) = packet_buffer ne1 ->
  packet_buffer ne2 = packet_buffer (put_back (samples extended) used (f ne1)) -> plays ne ne2.
Proof.
  intros E Hf H2. pose proof (decode_normal_plays frame ne) as H. rewrite E in H. simpl in H.
  pose proof (put_back_plays (samples extended) used (f ne1)) as Hp. unfold plays in *. rewrite H2, Hf in *.
  by eapply shrinks_trans.
Qed.

Lemma accelerate_plays (frame frame' : AudioFrame) (fast : bool) (ne ne' : engine) :
  decode_accelerate frame fast ne = Some (ne', frame') -> plays ne ne'.
Proof.
  unfold decode_accelerate. intros E. destruct (for_test_no_time_stretching _).
  - injection E as E. pose proof (decode_normal_plays frame ne) as H. by rewrite E in H.
  - destruct (accelerate_lengths _ _ _) as [n r]. destruct (decode_normal _ ne) as [ne1 ext] eqn:Ed.
    destruct (process _ _ fast _) as [[[acc out] x]|]; [|done]. cbn [mbind option_bind] in E.
    destruct (slice _ _ out) as [first|]; [|done]. injection E as <- _.
    by eapply (stretched_plays _ _ _ _ _ (get_used_input_samples acc) (fun ne1 => ne1 <| accelerate := acc |>)).
Qed.

Lemma preemptive_plays (frame frame' : AudioFrame) (ne ne' : engine) :
  decode_preemptive_expand frame ne = Some (ne', frame') -> plays ne ne'.
Proof.
  unfold decode_preemptive_expand. intros E. destruct (for_test_no_time_stretching _).
  - injection E as E. pose proof (decode_normal_plays frame ne) as H. by rewrite E in H.
  - destruct (decode_normal _ ne) as [ne1 ext] eqn:Ed.
    destruct (process _ _ false _) as [[[pre out] x]|]; [|done]. cbn [mbind option_bind] in E.
    destruct (slice _ _ out) as [first|]; [|done]. injection E as <- _.
    by eapply (stretched_plays _ _ _ _ _ (get_used_input_samples pre) (fun ne1 => ne1 <| preemptive_expand := pre |>)).
Qed.

Lemma expand_plays (frame frame' : AudioFrame) (phase : ExpandPhase) (ne ne' : engine) :
  decode_expand frame phase ne = Some (ne', frame') -> plays ne ne'.
Proof.
  unfold decode_expand. intros E. destruct (decode_normal _ ne) as [ne1 ext] eqn:Ed.
  destruct (expander_process _ _ phase _) as [[[ex out] x]|]; [|done]. cbn [mbind option_bind] in E. injection E as <- _.
  by eapply (stretched_plays _ _ _ _ _ (exp_used_input_samples ex) (fun ne1 => ne1 <| expand := ex |>)).
Qed.

Lemma perform_plays (op : Operation) (frame frame' : AudioFrame) (ne ne' : engine) :
  perform op frame ne = Some (ne', frame') -> plays ne ne'.
Proof.
  pose proof (decode_normal_plays frame ne) as Hn.
  destruct op; simpl; intros E; eauto using accelerate_plays, preemptive_plays, expand_plays.
  - injection E as E. by rewrite E in Hn.
  - injection E as E. unfold decode_merge in E. by rewrite E in Hn.
  - unfold return_time_stretch_buffer in E. destruct (leftover_time_stretched_samples ne); [by simplify_eq |].
    destruct (slice _ _ _); simplify_eq/=. by split.
  - unfold generate_comfort_noise in E. destruct (noise _ _ _). injection E as <- _. by split.
  - injection E as <- _. reflexivity.
  - injection E as <- _. reflexivity.
Qed.

Lemma get_decision_plays (now : Z) (ne : engine) : packet_buffer (get_decision now ne).1 = packet_buffer ne.
Proof. unfold get_decision. repeat (case_match; try done). Qed.

Lemma get_audio_plays (now : Z) (ne ne' : engine) (r : result AudioFrame NetEqError) :
  get_audio now ne = Some (ne', r) -> plays ne ne'.
Proof.
  unfold get_audio. assert (packet_buffer (maybe_roll_packet_rate now ne) = packet_buffer ne) as Hr
    by (unfold maybe_roll_packet_rate; by destruct (_ <=? _)).
  set (ne0 := maybe_roll_packet_rate now ne) in *. intros E. unfold plays. rewrite <- Hr.
  destruct (bypass_mode (config ne0)).
  - unfold bypass_audio in E. injection E as <- _. apply shrinks_refl.
  - pose proof (get_decision_plays now ne0) as Hd. destruct (get_decision now ne0) as [ne1 op]. simpl in Hd. rewrite <- Hd.
    destruct (perform op _ _) as [[ne2 frame2]|] eqn:Ep; [|done]. cbn [mbind option_bind] in E.
    apply perform_plays in Ep. destruct (record_decode_operation _ _ _); [|done]. cbn [mbind option_bind] in E.
    injection E as <- _. exact Ep.
Qed.
End Shrinks.

Lemma filter_sublist_mono {A : Type} (P : A -> Prop) `{!forall x, Decision (P x)} (l k : list A) :
  l `sublist_of` k -> filter P l `sublist_of` filter P k.
Proof. induction 1; [done | rewrite !filter_cons; case_decide; by try constructor..]. Qed.

(** ** A new packet goes behind those of its timestamp *)

Lemma stamped_insert (t : Z) (p : AudioPacket) (buf : list AudioPacket) :
  ordered buf ->
  let n := upper_bound (ts p) buf in
  filter (fun q => ts q = t) (take n buf ++ p :: drop n buf) =
    filter (fun q => ts q = t) buf ++ (if decide (ts p = t) then [p] else []).
Proof.
  intros Ho n. rewrite <- (take_drop n buf) at 3. rewrite !filter_app, filter_cons.
  destruct (decide (ts p = t)) as [<-|Hne]; [|by rewrite app_nil_r].
  assert (filter (fun q => ts q = ts p) (drop n buf) = []) as ->; [|by rewrite app_nil_r].
  apply filter_keep_none. apply Forall_forall. intros x Hx Ex.
  apply list_elem_of_lookup in Hx as [i Hi]. rewrite lookup_drop in Hi.
  pose proof (upper_bound_lookup (ts p) buf _ _ Ho Hi). unfold n in *. lia.
Qed.

Lemma insert_behind (now t : Z) (p : AudioPacket) (pb pb' : PacketBuffer) (s s' : StatisticsCalculator)
    (r : result BufferReturnCode NetEqError) :
  insert_packet now p t pb s = Some (pb', s', r) -> pb_wf pb -> (1 <= max_packets pb)%nat -> 0 < sample_rate p ->
  pb_wf pb' /\ max_packets pb' = max_packets pb /\
  forall stamp, filter (fun q => ts q = stamp) (buffer pb') `sublist_of`
    filter (fun q => ts q = stamp) (buffer pb) ++ (if decide (ts p = stamp) then [p] else []).
Proof.
  intros E Hwf Hmax Hrate.
  destruct (insert_packet_spec now t p pb s Hwf Hmax Hrate) as (pb1 & s1 & k1 & E1 & Hwf1 & Hm1 & _).
  rewrite E in E1. simplify_eq. split_and!; [done | done |]. intros stamp. unfold insert_packet in E.
  destruct (make_room_spec now t pb s Hwf Hmax) as (pb2 & s2 & Er & Hsh & _). rewrite Er in E.
  pose proof (shrinks_wf _ _ Hsh Hwf) as Hwf2. destruct Hsh as [Hsub _].
  destruct (place_packet_spec p pb2 s2 (pbw_ordered _ Hwf2)) as (pb3 & s3 & Ep & ->). rewrite Ep in E. simplify_eq.
  pose proof (filter_sublist_mono (fun q => ts q = stamp) _ _ Hsub) as Hf.
  destruct (is_duplicate _ _ _); [by apply sublist_inserts_r |]. simpl.
  rewrite stamped_insert by apply Hwf2. by apply sublist_app.
Qed.

(** An ordered buffer with two timestamps is the packets of the first, then the others. *)
Lemma two_stamps (a b : Z) (buf : list AudioPacket) :
  a < b -> ordered buf -> Forall (fun q => ts q = a \/ ts q = b) buf ->
  buf = filter (fun q => ts q = a) buf ++ filter (fun q => ts q = b) buf.
Proof.
  intros Hab. induction buf as [|q buf IH]; intros Ho Hs; [done |].
  apply ordered_cons in Ho as [Ho Hq]. apply Forall_cons in Hs as [Hs1 Hs]. rewrite !filter_cons.
  destruct Hs1 as [E|E]; rewrite E.
  - rewrite decide_True, decide_False by lia. simpl. f_equal. auto.
  - rewrite decide_False, decide_True by lia.
    assert (filter (fun x => ts x = a) buf = []) as Ha.
    { apply filter_keep_none. eapply Forall_impl; [exact Hq |]. unfold ts_le. simpl; lia. }
    specialize (IH Ho Hs). rewrite Ha in IH |- *. simpl in *. by f_equal.
Qed.

Section Order.
Context {D : Type} `{!AudioDecoder D} {json : Json} (stringify : NetEqStats -> option string).
Notation engine := (NetEq D Accelerator PreemptiveExpander).
Notation link := (AudioLink D).
Notation event := (link_event D).

(** The frames an engine holds, the next to be played first. *)
Definition frame_in (p : AudioPacket) : Z * bytes := (sequence_number (header p), payload p).
Definition waiting_frames (ne : engine) : list (Z * bytes) := frame_in <$> buffer (packet_buffer ne).

(** Those of a timestamp, and the frames that came with this timestamp. *)
Definition stamped_frames (t : Z) (ne : engine) : list (Z * bytes) :=
  frame_in <$> filter (fun p => ts p = t) (buffer (packet_buffer ne)).

Definition came_stamped (t : Z) (msg : WorkerMsg) : option (Z * bytes) :=
  match msg with WInsert seq t' data => if t' =? t then Some (seq, data) else None | _ => None end.

(** An engine whose packets of a timestamp are in the order in which they came. *)
Definition arrived (handled : list WorkerMsg) (ne : engine) : Prop :=
  pb_wf (packet_buffer ne) /\ max_packets (packet_buffer ne) = 200%nat /\
  forall t, stamped_frames t ne `sublist_of` omap (came_stamped t) handled.

Lemma arrived_plays (handled : list WorkerMsg) (ne ne' : engine) : plays ne ne' -> arrived handled ne -> arrived handled ne'.
Proof.
  intros Hp (H1 & H2 & H3). pose proof Hp as [Hs Hm]. split_and!; [by eapply shrinks_wf | congruence |].
  intros t. etransitivity; [|apply H3]. apply sublist_fmap. by apply filter_sublist_mono.
Qed.

Lemma arrived_insert (now seq t : Z) (data : bytes) (handled : list WorkerMsg) (eq : WebNetEq D) (ne ne' : engine)
    (r : result unit NetEqError) : wn_sample_rate eq = 48000 ->
  ne_insert_packet now (web_packet now seq t data eq) ne = Some (ne', r) ->
  arrived handled ne -> arrived (handled ++ [WInsert seq t data]) ne'.
Proof.
  intros Hrate E (H1 & H2 & H3). unfold ne_insert_packet in E.
  set (ne0 := maybe_roll_packet_rate now _) in E.
  assert (packet_buffer ne0 = packet_buffer ne) as Hb by (unfold ne0, maybe_roll_packet_rate; by destruct (_ <=? _)).
  assert (forall ne1 : engine, packet_buffer ne1 = packet_buffer ne -> arrived (handled ++ [WInsert seq t data]) ne1) as Hsame.
  { intros ne1 E1. unfold arrived, stamped_frames. rewrite E1. split_and!; [done.. |]. intros t'.
    rewrite omap_app. apply sublist_inserts_r. apply H3. }
  destruct (bypass_mode (config ne0)).
  - destruct (decoders ne0 !! _); [|by simplify_eq; auto]. destruct (decode _ _) as [dec' [pcm|e]]; simplify_eq; by apply Hsame.
  - destruct (dm_update _ _ _ _ _) as [[dm [[]|e]]|]; [..|done]; cbn [mbind option_bind] in E; [|by simplify_eq; apply Hsame].
    destruct (insert_packet _ _ _ _ _) as [[[pb st] r']|] eqn:Ei; [|done]. cbn [mbind option_bind] in E.
    simpl in Ei. rewrite Hb in Ei. apply insert_behind in Ei as (Hwf & Hm & Hf); [|done | lia | simpl; lia].
    assert (arrived (handled ++ [WInsert seq t data]) (ne <| packet_buffer := pb |>)) as Ha.
    { split_and!; simpl; [done | congruence |]. intros t'. unfold stamped_frames. simpl.
      etransitivity; [apply sublist_fmap, Hf |]. rewrite fmap_app, omap_app. apply sublist_app; [apply H3 |].
      change (ts (web_packet now seq t data eq)) with t. simpl.
      destruct (decide (t = t')) as [->|Hne]; [by rewrite Z.eqb_refl |].
      by rewrite (proj2 (Z.eqb_neq t t') Hne). }
    destruct r'; simplify_eq; exact Ha.
Qed.

(** The timestamps with which a decoder inserts the frames of a packet: its own frame, and
    the copy of the frame before it, stamped one frame earlier. *)
Definition own_stamp (packet : MediaPacket) : Z := as_u 32 (mp_timestamp packet).

Definition is_red (packet : MediaPacket) : bool :=
  match audio_metadata packet with Some meta => String.eqb (audio_format meta) AUDIO_RED_FORMAT | None => false end.

Definition stamps_in (stamp : Z -> Prop) (ev : event) : Prop :=
  match ev with
  | LkDecode packet => stamp (own_stamp packet) /\
      (is_red packet = true -> stamp (sat_sub (own_stamp packet) OPUS_FRAME_DURATION_MS))
  | _ => True
  end.

(** A time that does not fit into 32 bits: any time after 19 February 1970. *)
Definition after_1970 (ev : event) : Prop :=
  match ev with LkDecode packet => own_stamp packet = u_max 32 | _ => True end.

(** A packet without redundancy. *)
Definition without_red (ev : event) : Prop :=
  match ev with LkDecode packet => is_red packet = false | _ => True end.

Definition msg_stamp (stamp : Z -> Prop) (msg : WorkerMsg) : Prop :=
  match msg with WInsert _ t _ => stamp t | _ => True end.

Definition engine_arrived (handled : list WorkerMsg) (w : Worker D) : Prop :=
  forall eq, wk_neteq w = Some eq -> wn_sample_rate eq = 48000 /\
    exists ne, wn_neteq eq = Some ne /\ arrived handled ne.

Record order_inv (stamp : Z -> Prop) (handled : list WorkerMsg) (l : link) : Prop := mkOrderInv {
  oi_messages : Forall (msg_stamp stamp) (outbox (lk_decoder l));
  oi_handled : Forall (msg_stamp stamp) handled;
  oi_engine : engine_arrived handled (lk_worker l);
}.

Lemma send_stamps (stamp : Z -> Prop) (msg : WorkerMsg) (d : NetEqAudioPeerDecoder) :
  msg_stamp stamp msg -> Forall (msg_stamp stamp) (outbox d) -> Forall (msg_stamp stamp) (outbox (send_worker_message msg d)).
Proof.
  unfold outbox. intros Hm H. apply Forall_app in H as [H1 H2]. unfold send_worker_message, send_message_immediate.
  destruct (nd_worker_ready d); simpl; apply Forall_app; (split; [|done]) || (split; [done |]); apply Forall_app; auto.
Qed.

Lemma direct_stamps (stamp : Z -> Prop) (ev : event) (d : NetEqAudioPeerDecoder) :
  stamps_in stamp ev -> Forall (msg_stamp stamp) (outbox d) -> Forall (msg_stamp stamp) (outbox (direct_step ev d)).
Proof.
  intros Hp H. destruct ev; simpl; try done; [|by apply send_stamps..].
  unfold nd_decode. destruct Hp as [Ht Hr]. unfold is_red, own_stamp in *.
  destruct (audio_metadata packet) as [meta|]; [|done]. simpl.
  destruct (audio_format meta =? AUDIO_RED_FORMAT)%string; [|by apply send_stamps]. specialize (Hr eq_refl).
  unfold decode_red. destruct (unpack_red_audio _) as [[[primary rseq] rdata]|]; [|by apply send_stamps].
  apply send_stamps; [done |]. destruct (has_sequence _ _); [done |]. by apply send_stamps.
Qed.

(** What a worker that pulls frames keeps. *)
Lemma produce_order (now : Z) (handled : list WorkerMsg) (w w' : Worker D) (posts : list WorkerPost) (got : bool) :
  produce_frame now w = Some (w', posts, got) ->
  engine_arrived handled w ->
  engine_arrived handled w'.
Proof.
  unfold produce_frame. intros E H eq' Eq'. destruct (wk_neteq w) as [eq|] eqn:Ew; [|simplify_eq; congruence].
  destruct (H eq Ew) as (Hr & ne & En & Ha). unfold web_get_audio in E. rewrite En in E.
  destruct (get_audio now ne) as [[ne1 r]|] eqn:Eg; [|done]. simpl in E.
  apply get_audio_plays in Eg. destruct r; simplify_eq/=; (split; [done |]; eexists; split; [reflexivity | by eapply arrived_plays]).
Qed.

Lemma timer_order (now date : Z) (handled : list WorkerMsg) (w w' : Worker D) (posts : list WorkerPost) :
  audio_timer now date w = Some (w', posts) ->
  engine_arrived handled w ->
  engine_arrived handled w'.
Proof.
  unfold audio_timer. intros E H. destruct (wk_start_time w =? 0).
  - set (w1 := w <| wk_start_time := date |> <| wk_last_production_time := date |>) in E.
    destruct (wk_is_muted w1); [by simplify_eq |].
    destruct (produce_frame now w1) as [[[w2 p2] got]|] eqn:Ep; simplify_eq/=. by eapply produce_order.
  - destruct (wk_is_muted w).
    + cbn zeta iota beta in E. simplify_eq. by destruct (5000 <? _).
    + set (w1 := if 5000 <? _ then _ else w) in E.
      assert (wk_neteq w1 = wk_neteq w) as Hw1 by (unfold w1; by destruct (5000 <? _)). 
      assert (engine_arrived handled w1) as H1 by (unfold engine_arrived; by rewrite Hw1).
      destruct (_ || _); [|by simplify_eq].
      destruct (produce_frame now w1) as [[[w2 p2] got]|] eqn:Ep; [|done]. cbn [mbind option_bind] in E.
      pose proof (produce_order now handled w1 w2 p2 got Ep H1) as H2.
      destruct got; [destruct (1 <? _)|]; by simplify_eq.
Qed.

Lemma arrived_more (handled : list WorkerMsg) (msg : WorkerMsg) (w : Worker D) :
  engine_arrived handled w -> engine_arrived (handled ++ [msg]) w.
Proof.
  intros H eq Eq. destruct (H eq Eq) as (Hr & ne & En & H1 & H2 & H3). split; [done |]. exists ne.
  split; [done |]. split_and!; try done. intros t. rewrite omap_app. by apply sublist_inserts_r.
Qed.

Lemma handle_order (now : Z) (handled : list WorkerMsg) (msg : WorkerMsg) (w w' : Worker D) :
  handle_message now msg w = Some w' -> engine_arrived handled w -> engine_arrived (handled ++ [msg]) w'.
Proof.
  intros E H. destruct msg; simpl in E; simplify_eq; try exact (arrived_more handled _ _ H).
  - destruct (wk_neteq w) as [eq|] eqn:Ew; [|by simplify_eq; apply arrived_more].
    destruct (H eq Ew) as (Hr & ne & En & Ha). unfold web_insert_packet in E. rewrite En in E.
    destruct (ne_insert_packet _ _ ne) as [[ne' r]|] eqn:Ei; [|done]. simpl in E. simplify_eq. intros eq' [= <-].
    split; [done |]. exists ne'. split; [done |]. by eapply arrived_insert.
  - by intros eq [=].
Qed.

Lemma ready_outbox (now_ms : Z) (post : WorkerPost) (d : NetEqAudioPeerDecoder) :
  outbox (on_worker_message stringify now_ms post d).1 = outbox d.
Proof.
  destruct post as [b|pcm|stats]; simpl.
  - assert (forall msgs d, foldl (fun d msg => send_message_immediate msg d) d msgs = d <| nd_port := nd_port d ++ msgs |>) as ->.
    { intros msgs. induction msgs as [|m msgs IH]; intros [? ? ? ? ? ? ? ? port]; simpl; [by rewrite app_nil_r |].
      rewrite IH. simpl. by rewrite <- app_assoc. }
    unfold outbox. simpl. by rewrite app_nil_r.
  - unfold handle_pcm_data. by destruct (_ || _).
  - by destruct (stringify stats).
Qed.

Lemma init_order (now : Z) (decoder : result D NetEqError) (handled : list WorkerMsg) (w : Worker D) :
  engine_arrived handled w -> engine_arrived handled (worker_init now decoder w).1.
Proof.
  intros H. unfold worker_init, web_init. destruct (ne_new _ now) as [ne|] eqn:En; [|done]. destruct decoder as [dec|e]; [|done].
  simpl. intros eq [= <-]. split; [done |]. eexists. split; [reflexivity |]. unfold ne_new in En. simpl in En. simplify_eq.
  split_and!; simpl; [split; simpl; [constructor | unfold pb_len; simpl; lia | constructor] | done | intros t; apply sublist_nil_l].
Qed.

Lemma link_step_order (stamp : Z -> Prop) (l l' : link) (ev : event) (handled : list WorkerMsg) (msg : option WorkerMsg)
    (effects : list audio_effect) :
  link_step stringify ev l = Some (l', msg, effects) -> stamps_in stamp ev -> order_inv stamp handled l ->
  order_inv stamp (handled ++ option_list msg) l'.
Proof.
  intros E Hp [H1 H0 H2]. destruct l as [d w posts]. simpl in *.
  destruct ev; simpl in E; simplify_eq; simpl; rewrite ?app_nil_r.
  - split; [by apply (direct_stamps _ (LkDecode packet)) | done..].
  - split; [by apply (direct_stamps _ LkFlush) | done..].
  - split; [by apply (direct_stamps _ (LkSetMuted mute)) | done..].
  - split; [|done..]. unfold outbox in *. simpl. rewrite <- app_assoc. apply Forall_app in H1 as [Ha Hb]. apply Forall_app. by repeat constructor.
  - destruct (_ || _); simplify_eq/=; rewrite ?app_nil_r; [done |].
    pose proof (init_order now decoder handled w H2) as H. destruct (worker_init _ _ _). simplify_eq/=. by rewrite app_nil_r.
  - destruct (nd_port d) as [|m port] eqn:Ep; simplify_eq/=; rewrite ?app_nil_r; [done |].
    destruct (wk_closed w); simplify_eq/=; rewrite ?app_nil_r; [done |].
    destruct (handle_message now m w) as [w1|] eqn:Em; simplify_eq/=. unfold outbox in H1. rewrite Ep in H1.
    apply Forall_cons in H1 as [Hm H1]. split; [done | apply Forall_app; by repeat constructor | by eapply handle_order].
  - destruct posts as [|post posts]; simplify_eq/=; rewrite ?app_nil_r; [done |].
    pose proof (ready_outbox now_ms post d) as H. destruct (on_worker_message _ _ _ _) as [d1 e1]. simplify_eq/=. rewrite app_nil_r.
    split; simpl; [by rewrite H | done..].
  - destruct (wk_closed w); simplify_eq/=; rewrite ?app_nil_r; [done |].
    destruct (audio_timer now date w) as [[w1 new]|] eqn:Et; simplify_eq/=. rewrite app_nil_r. split; [done | done | by eapply timer_order].
  - destruct (wk_closed w); simplify_eq/=; rewrite ?app_nil_r; done.
Qed.

Lemma link_run_order (stamp : Z -> Prop) (evs : list event) (l l' : link) (handled more : list WorkerMsg)
    (effects : list audio_effect) :
  link_run stringify evs l = Some (l', more, effects) -> Forall (stamps_in stamp) evs -> order_inv stamp handled l ->
  order_inv stamp (handled ++ more) l'.
Proof.
  revert handled l more effects. induction evs as [|ev evs IH]; intros handled l more effects E Hp Hi; simpl in E.
  - simplify_eq. by rewrite app_nil_r.
  - apply Forall_cons in Hp as [Hp Hps]. destruct (link_step stringify ev l) as [[[l1 msg] e1]|] eqn:Es; [|done]. simpl in E.
    destruct (link_run stringify evs l1) as [[[l2 more2] e2]|] eqn:Er; [|done]. simplify_eq/=.
    rewrite app_assoc. eapply IH; [exact Er | done |]. by eapply link_step_order.
Qed.

(** The timestamps of the engine's packets are those of the messages. *)
Lemma arrived_stamps (stamp : Z -> Prop) (handled : list WorkerMsg) (ne : engine) :
  arrived handled ne -> Forall (msg_stamp stamp) handled -> Forall (fun p => stamp (ts p)) (buffer (packet_buffer ne)).
Proof.
  intros (_ & _ & Ha) Hs. apply Forall_forall. intros p Hp.
  assert (frame_in p ∈ omap (came_stamped (ts p)) handled) as Hin.
  { eapply elem_of_sublist; [|apply Ha]. apply list_elem_of_fmap_2. by apply list_elem_of_filter. }
  apply list_elem_of_omap in Hin as (msg & Hmsg & E). pose proof (Forall_elem _ _ _ Hs Hmsg) as H.
  destruct msg as [|seq t data| | | | | ]; simpl in *; try done. destruct (Z.eqb_spec t (ts p)); [by subst | done].
Qed.

Lemma run_arrived (stamp : Z -> Prop) (peer_id : string) (initial_muted : bool) (vad : option float) (evs : list event)
    (l : link) (handled : list WorkerMsg) (effects : list audio_effect) (eq : WebNetEq D) (ne : engine) :
  link_run stringify evs (link_new peer_id initial_muted vad) = Some (l, handled, effects) ->
  Forall (stamps_in stamp) evs -> wk_neteq (lk_worker l) = Some eq -> wn_neteq eq = Some ne ->
  arrived handled ne /\ Forall (fun p => stamp (ts p)) (buffer (packet_buffer ne)).
Proof.
  intros E Hp Eq En. assert (order_inv stamp [] (link_new (D := D) peer_id initial_muted vad)) as Hi
    by (split; [by repeat constructor | done | by intros eq0 [=]]).
  pose proof (link_run_order stamp evs _ _ _ _ _ E Hp Hi) as [_ Hh H].
  destruct (H eq Eq) as (_ & ne' & En' & Ha). simplify_eq. split; [done | by eapply arrived_stamps].
Qed.

(** C40: audio is played in the order in which it arrives. The engine keeps its packets by
    timestamp to put late ones back into their place, but the time of a packet (sent after
    February 1970) does not fit into the 32 bits it is given, and every packet gets the
    latest timestamp there is, a frame recovered from the redundancy of a packet one 20 ms
    earlier. So at any moment the frames that wait in the engine, the next to be played
    first, are recovered frames in the order in which the worker was given them, then the
    packets' own frames in the order in which the worker was given them, whatever the
    sequence numbers; without redundant packets there are only the latter. *)
Theorem audio_plays_as_it_arrives (peer_id : string) (initial_muted : bool) (vad : option float) (evs : list event)
    (l : link) (handled : list WorkerMsg) (effects : list audio_effect) :
  link_run stringify evs (link_new peer_id initial_muted vad) = Some (l, handled, effects) -> Forall after_1970 evs ->
  forall eq ne, wk_neteq (lk_worker l) = Some eq -> wn_neteq eq = Some ne ->
  exists recovered own,
    waiting_frames ne = recovered ++ own /\
    recovered `sublist_of` omap (came_stamped (u_max 32 - OPUS_FRAME_DURATION_MS)) handled /\
    own `sublist_of` omap (came_stamped (u_max 32)) handled /\
    (Forall without_red evs -> recovered = []).
Proof.
  intros E Hp eq ne Eq En. set (M := u_max 32).
  assert (sat_sub M OPUS_FRAME_DURATION_MS = M - OPUS_FRAME_DURATION_MS) as Hsat by (vm_compute; reflexivity).
  assert (Forall (stamps_in (fun t => t = M - OPUS_FRAME_DURATION_MS \/ t = M)) evs) as H2.
  { eapply Forall_impl; [exact Hp |]. intros [] Hev; simpl in *; try done. rewrite Hev. fold M. auto. }
  destruct (run_arrived _ _ _ _ _ _ _ _ _ _ E H2 Eq En) as [(Hwf & _ & Ha) Hst].
  exists (stamped_frames (M - OPUS_FRAME_DURATION_MS) ne), (stamped_frames M ne).
  split_and!; [|apply Ha | apply Ha |].
  - unfold waiting_frames, stamped_frames. rewrite <- fmap_app. f_equal.
    apply two_stamps; [unfold OPUS_FRAME_DURATION_MS; lia | apply Hwf | done].
  - intros Hr. assert (Forall (stamps_in (fun t => t = M)) evs) as H3.
    { eapply Forall_impl; [apply Forall_and; exact (conj Hp Hr) |]. intros [] [H4 H5]; simpl in *; try done.
      split; [done |]. congruence. }
    destruct (run_arrived _ _ _ _ _ _ _ _ _ _ E H3 Eq En) as [_ Hst3]. unfold stamped_frames.
    rewrite filter_keep_none; [done |]. eapply Forall_impl; [exact Hst3 |]. simpl. intros p ->.
    unfold OPUS_FRAME_DURATION_MS. lia.
Qed.
End Order.

(** ** Witnesses *)

#[local] Existing Instance unit_decoder.
#[local] Existing Instance demo_values.

Definition no_text (stats : NetEqStats) : option string := None.

(** A frame sent in November 2023, 20 ms after the frame before. *)
Definition november_packet (k : Z) : MediaPacket := audio_media_packet (1700000000000 + 20 * k) [k] k None.

(** Frame 6 overtakes frame 5 while the worker starts. *)
Definition overtaken : list (link_event unit) :=
  [LkDecode (november_packet 6); LkDecode (november_packet 5); LkInitTimer; LkSetMuted false; LkToWorker 0;
   LkEngineReady 0 (Ok tt); LkToMain 0] ++ replicate 5 (LkToWorker 0).

(** The frame that overtook the other is played first. *)
Lemma audio_plays_witness :
  exists l handled effects eq ne,
    link_run no_text overtaken (link_new "7" true None) = Some (l, handled, effects) /\
    wk_neteq (lk_worker l) = Some eq /\ wn_neteq eq = Some ne /\ waiting_frames ne = [(6, [6]); (5, [5])] /\
    waiting_frames ne `sublist_of` omap (came_stamped (u_max 32)) handled.
Proof.
  destruct (link_run no_text overtaken (link_new "7" true None)) as [[[l handled] effects]|] eqn:E; [|vm_compute in E; discriminate].
  assert (Forall after_1970 overtaken) as Hp by (repeat constructor).
  assert (Forall without_red overtaken) as Hr by (repeat constructor).
  pose proof (audio_plays_as_it_arrives no_text "7" true None overtaken l handled effects E Hp) as H.
  assert ((fun eq => waiting_frames <$> wn_neteq eq) <$> wk_neteq (lk_worker l) = Some (Some [(6, [6]); (5, [5])])) as Hw.
  { vm_compute in E. injection E as <- _ _. vm_compute. reflexivity. }
  destruct (wk_neteq (lk_worker l)) as [eq|] eqn:Eq; [|discriminate Hw].
  destruct (wn_neteq eq) as [ne|] eqn:En; [|simpl in Hw; rewrite En in Hw; discriminate Hw].
  exists l, handled, effects, eq, ne. simpl in Hw. rewrite En in Hw. injection Hw as Hw.
  destruct (H eq ne eq_refl En) as (recovered & own & Ew & _ & Ho & Hn). rewrite (Hn Hr) in Ew. simpl in Ew.
  split; [reflexivity |]. split; [exact Eq |]. split; [exact En |]. split; [exact Hw |]. rewrite Ew. exact Ho.
Defined.

(** The messages of that run, all of them handled. *)
Lemma requests_reach_witness :
  exists l handled effects,
    link_run no_text overtaken (link_new "7" true None) = Some (l, handled, effects) /\
    requests "7" true None overtaken = filter is_request handled ++ filter is_request (nd_port (lk_decoder l)) ++ nd_pending_messages (lk_decoder l) /\
    wk_closed (lk_worker l) = false.
Proof.
  destruct (link_run no_text overtaken (link_new "7" true None)) as [[[l handled] effects]|] eqn:E; [|vm_compute in E; discriminate].
  destruct (requests_reach_the_engine no_text "7" true None overtaken l handled effects E) as (H & _ & Hc & _).
  exists l, handled, effects. split; [reflexivity |]. split; [exact H | exact Hc].
Defined.

(** Three turns of the timer after it: two frames, one of them due. *)
Definition first_turns : list (link_event unit) := overtaken ++ [LkAudioTimer 0 1000; LkAudioTimer 5000000 1005; LkAudioTimer 10000000 1010].

Lemma playback_pace_witness :
  exists l handled effects,
    link_run no_text first_turns (link_new "7" true None) = Some (l, handled, effects) /\
    expected_total_frames 1010 (lk_worker l) <= wk_total_frames_produced (lk_worker l) <= expected_total_frames 1010 (lk_worker l) + 1.
Proof.
  destruct (link_run no_text first_turns (link_new "7" true None)) as [[[l handled] effects]|] eqn:E; [|vm_compute in E; discriminate].
  destruct (playback_keeps_pace no_text "7" true None first_turns l handled effects 1010 E) as [H _].
  - vm_compute. repeat split; discriminate.
  - reflexivity.
  - exists l, handled, effects. split; [reflexivity | exact H].
Defined.

(** The frames waiting in the engine after packets with redundancy arrived in an order. *)
Definition after_red (ks : list Z) : option (list (Z * bytes)) :=
  let evs := [LkEngineReady 0 (Ok tt); LkToMain 0] ++
             (LkDecode ∘ red_packet (fun k => 1700000000000 + 20 * k) (fun k => [k]) <$> ks) ++ replicate 12 (LkToWorker 0) in
  '(l, _, _) ← link_run no_text evs (link_new (D := unit) "7" true None);
  eq ← wk_neteq (lk_worker l); waiting_frames <$> wn_neteq eq.

(** A recovered frame is stamped 20 ms before the rest, which all bear the same stamp: it is
    played before every frame that waits, not in its place. And the packet of a frame that
    was recovered, when it is only late, is taken in once more. *)
Theorem recovered_frames_jump_the_queue :
  after_red [0; 1; 2; 4] = Some [(3, [3]); (0, [0]); (1, [1]); (2, [2]); (4, [4])] /\
  after_red [0; 2; 1] = Some [(1, [1]); (0, [0]); (2, [2]); (1, [1])].
Proof. vm_compute. split; reflexivity. Qed.
