(* ===== verification/MeetingDb.v ===== *)
(** * The tables and queries of the meeting API
      (meeting-api/src/db/meetings.rs, db/participants.rs)

    The state is the two PostgreSQL tables of dbmate/db/migrations, each a finite map
    from its primary or unique key. A query is a value of [query X], [exec] its meaning:
    what the SQL text of the source does to the tables, with the constraints, column
    defaults and triggers of the schema, and what it returns. A query or a transaction
    of the source is one [exec], since the transactions lock the rows they read.

    [NOW()] is the argument [now], in microseconds. Rows come back in an order that
    PostgreSQL chooses: the argument [scan]. *)
From Stdlib Require Import Ascii.
From S2P Require Import Prelude.

(** ** Rows *)

(** The values the checks [chk_meeting_state] and [chk_participant_status] allow. *)
Inductive MeetingState : Type := Idle | Active | Ended.
Inductive ParticipantStatus : Type := Waiting | IsAdmitted | Rejected | Left.

#[export] Instance MeetingState_eq : EqDecision MeetingState.
Proof. solve_decision. Defined.
#[export] Instance ParticipantStatus_eq : EqDecision ParticipantStatus.
Proof. solve_decision. Defined.

Record MeetingRow : Type := mkMeetingRow {
  mr_id : Z;
  mr_room_id : string;
  mr_started_at : Z;
  mr_ended_at : option Z;
  mr_created_at : Z;
  mr_updated_at : Z;
  mr_deleted_at : option Z;
  mr_creator_id : option string;
  mr_password_hash : option string;
  mr_state : MeetingState;
  mr_attendees : list string;
  mr_host_display_name : option string;
  mr_waiting_room_enabled : bool;
}.

#[export] Instance eta_MeetingRow : Eta MeetingRow := fun r =>
  mkMeetingRow (mr_id r) (mr_room_id r) (mr_started_at r) (mr_ended_at r) (mr_created_at r)
    (mr_updated_at r) (mr_deleted_at r) (mr_creator_id r) (mr_password_hash r) (mr_state r)
    (mr_attendees r) (mr_host_display_name r) (mr_waiting_room_enabled r).

Record ParticipantRow : Type := mkParticipantRow {
  pt_id : Z;
  pt_meeting_id : Z;
  pt_user_id : string;
  pt_status : ParticipantStatus;
  pt_is_host : bool;
  pt_is_required : bool;
  pt_joined_at : Z;
  pt_admitted_at : option Z;
  pt_left_at : option Z;
  pt_created_at : Z;
  pt_updated_at : Z;
  pt_display_name : option string;
}.

#[export] Instance eta_ParticipantRow : Eta ParticipantRow := fun r =>
  mkParticipantRow (pt_id r) (pt_meeting_id r) (pt_user_id r) (pt_status r) (pt_is_host r)
    (pt_is_required r) (pt_joined_at r) (pt_admitted_at r) (pt_left_at r) (pt_created_at r)
    (pt_updated_at r) (pt_display_name r).

(** The tables, and the next values of their two [SERIAL] sequences. *)
Record Db : Type := mkDb {
  db_meetings : gmap Z MeetingRow;
  db_participants : gmap (Z * string) ParticipantRow;
  db_meeting_seq : Z;
  db_participant_seq : Z;
}.

#[export] Instance eta_Db : Eta Db := fun d =>
  mkDb (db_meetings d) (db_participants d) (db_meeting_seq d) (db_participant_seq d).

Definition empty_db : Db := mkDb ∅ ∅ 1 1.

(** What the code distinguishes of a [sqlx::Error]. *)
Inductive SqlError : Type :=
| UniqueViolation
| RowNotFound
| ForeignKeyViolation
| ValueTooLong
| CheckViolation
| SequenceExhausted
| ConnectionLost.

(** ** Columns *)

(** The number of characters of a text: its bytes less the continuation bytes. *)
Fixpoint char_length (s : string) : nat :=
  match s with
  | EmptyString => 0%nat
  | String c s' =>
      let n := N_of_ascii c in
      if ((128 <=? n) && (n <? 192))%N then char_length s' else S (char_length s')
  end.

Definition varchar_255 (s : string) : bool := (char_length s <=? 255)%nat.

Definition varchar_255_opt (s : option string) : bool := from_option varchar_255 true s.

Definition COALESCE {A : Type} (x y : option A) : option A :=
  match x with Some _ => x | None => y end.

(** The partial unique index on [room_id]. *)
Definition live (room : string) (r : MeetingRow) : Prop :=
  mr_room_id r = room /\ mr_deleted_at r = None.

#[export] Instance live_dec room r : Decision (live room r).
Proof. unfold live. apply _. Defined.

Definition live_rows (room : string) (d : Db) : list MeetingRow :=
  filter (live room) ((map_to_list (db_meetings d)).*2).

(** ** Writing rows, with the [updated_at] triggers *)

Definition update_meeting_row (now : Z) (id : Z) (f : MeetingRow -> MeetingRow) (d : Db) : Db :=
  d <| db_meetings := alter (fun r => (f r) <| mr_updated_at := now |>) id (db_meetings d) |>.

Definition put_participant (row : ParticipantRow) (d : Db) : Db :=
  d <| db_participants := <[(pt_meeting_id row, pt_user_id row) := row]> (db_participants d) |>.

(** [UPDATE meeting_participants SET ... WHERE meeting_id = $1 AND status = 'waiting']. *)
Definition admit_row (now : Z) (row : ParticipantRow) : ParticipantRow :=
  row <| pt_status := IsAdmitted |> <| pt_admitted_at := Some now |> <| pt_updated_at := now |>.

Definition waiting_in (meeting_id : Z) (row : ParticipantRow) : Prop :=
  pt_meeting_id row = meeting_id /\ pt_status row = Waiting.

#[export] Instance waiting_in_dec mid row : Decision (waiting_in mid row).
Proof. unfold waiting_in. apply _. Defined.

Definition admit_waiting (now : Z) (meeting_id : Z) (d : Db) : Db :=
  d <| db_participants :=
    (fun row => if decide (waiting_in meeting_id row) then admit_row now row else row)
      <$> db_participants d |>.

(** [INSERT INTO meeting_participants ... ON CONFLICT (meeting_id, user_id) DO UPDATE].
    The sequence advances also when the row exists. *)
Definition upsert (now : Z) (meeting_id : Z) (user_id : string) (display_name : option string)
    (fresh : ParticipantRow -> ParticipantRow) (existing : ParticipantRow -> ParticipantRow) (d : Db)
    : Db * result ParticipantRow SqlError :=
  let id := db_participant_seq d in
  let d' := d <| db_participant_seq := id + 1 |> in
  if 2 ^ 31 <=? id then (d, Err SequenceExhausted)
  else if negb (varchar_255 user_id && varchar_255_opt display_name) then (d', Err ValueTooLong)
  else
    match db_participants d !! (meeting_id, user_id) with
    | Some row =>
        let row' := (existing row) <| pt_display_name := COALESCE display_name (pt_display_name row) |>
                                 <| pt_updated_at := now |> in
        (put_participant row' d', Ok row')
    | None =>
        match db_meetings d !! meeting_id with
        | None => (d', Err ForeignKeyViolation)
        | Some _ =>
            let row := fresh (mkParticipantRow id meeting_id user_id Waiting false false now None None
                                now now display_name) in
            (put_participant row d', Ok row)
        end
    end.

(** ** The queries *)

Definition create_with_options (now : Z) (room_id creator_id : string) (password_hash : option string)
    (attendees : list string) (waiting_room_enabled : bool) (d : Db) : Db * result MeetingRow SqlError :=
  let id := db_meeting_seq d in
  let d' := d <| db_meeting_seq := id + 1 |> in
  if 2 ^ 31 <=? id then (d, Err SequenceExhausted)
  else if negb (varchar_255 room_id && varchar_255 creator_id && varchar_255_opt password_hash)
  then (d', Err ValueTooLong)
  else if (100 <? length attendees)%nat then (d', Err CheckViolation)
  else if bool_decide (live_rows room_id d <> []) then (d', Err UniqueViolation)
  else
    let row := mkMeetingRow id room_id now None now now None (Some creator_id) password_hash Idle
                 attendees None waiting_room_enabled in
    (d' <| db_meetings := <[id := row]> (db_meetings d) |>, Ok row).

Definition get_by_room_id (room_id : string) (d : Db) : option MeetingRow := head (live_rows room_id d).

Definition owned (creator_id : string) (r : MeetingRow) : Prop :=
  mr_deleted_at r = None /\ mr_creator_id r = Some creator_id.

#[export] Instance owned_dec creator r : Decision (owned creator r).
Proof. unfold owned. apply _. Defined.

Definition newer (r s : MeetingRow) : Prop := mr_created_at s <= mr_created_at r.

#[export] Instance newer_dec : RelDecision newer.
Proof. intros r s. unfold newer. apply _. Defined.

(** The update of [soft_delete] and of [update_waiting_room_enabled]:
    [WHERE room_id = $1 AND creator_id = $2 AND deleted_at IS NULL]. *)
Definition update_owned (now : Z) (room_id creator_id : string) (f : MeetingRow -> MeetingRow) (d : Db)
    : Db * option MeetingRow :=
  match filter (owned creator_id) (live_rows room_id d) with
  | [] => (d, None)
  | r :: _ => let d' := update_meeting_row now (mr_id r) f d in (d', db_meetings d' !! mr_id r)
  end.

Definition soft_delete (now : Z) (room_id creator_id : string) (d : Db) : Db * option MeetingRow :=
  update_owned now room_id creator_id (fun r => r <| mr_deleted_at := Some now |>) d.

Definition activate (now : Z) (meeting_id : Z) (d : Db) : Db :=
  update_meeting_row now meeting_id (fun r => r <| mr_state := Active |>) d.

Definition end_meeting (now : Z) (meeting_id : Z) (d : Db) : Db :=
  update_meeting_row now meeting_id (fun r => r <| mr_state := Ended |> <| mr_ended_at := Some now |>) d.

Definition set_host_display_name (now : Z) (meeting_id : Z) (display_name : string) (d : Db)
    : Db * result unit SqlError :=
  if negb (varchar_255 display_name) then (d, Err ValueTooLong)
  else (update_meeting_row now meeting_id (fun r => r <| mr_host_display_name := Some display_name |>) d, Ok tt).

Definition update_waiting_room_enabled (now : Z) (room_id creator_id : string) (enabled : bool) (d : Db)
    : Db * option MeetingRow :=
  let '(d, updated) :=
    update_owned now room_id creator_id (fun r => r <| mr_waiting_room_enabled := enabled |>) d in
  match updated with
  | Some row => (if negb enabled then admit_waiting now (mr_id row) d else d, updated)
  | None => (d, None)
  end.

Definition upsert_host (now : Z) (meeting_id : Z) (user_id : string) (display_name : option string) (d : Db)
    : Db * result ParticipantRow SqlError :=
  upsert now meeting_id user_id display_name
    (fun r => r <| pt_status := IsAdmitted |> <| pt_is_host := true |> <| pt_admitted_at := Some now |>)
    (fun r => r <| pt_status := IsAdmitted |> <| pt_is_host := true |> <| pt_admitted_at := Some now |>
                <| pt_left_at := None |>) d.

Definition join_attendee (now : Z) (meeting_id : Z) (user_id : string) (display_name : option string) (d : Db)
    : Db * result (bool * ParticipantRow * bool) SqlError :=
  match db_meetings d !! meeting_id with
  | None => (d, Err RowNotFound)
  | Some meeting =>
      let waiting_room_enabled := mr_waiting_room_enabled meeting in
      let '(d', r) :=
        if waiting_room_enabled then
          upsert now meeting_id user_id display_name
            (fun r => r <| pt_status := Waiting |>)
            (fun r => r <| pt_status := Waiting |> <| pt_left_at := None |>) d
        else
          upsert now meeting_id user_id display_name
            (fun r => r <| pt_status := IsAdmitted |> <| pt_admitted_at := Some now |>)
            (fun r => r <| pt_status := IsAdmitted |> <| pt_admitted_at := Some now |> <| pt_left_at := None |>) d in
      (d', row <-? r;; Ok (negb waiting_room_enabled, row, waiting_room_enabled))
  end.

(** The updates of one row under a condition on its status. *)
Definition update_where (now : Z) (meeting_id : Z) (user_id : string) (from : list ParticipantStatus)
    (f : ParticipantRow -> ParticipantRow) (d : Db) : Db * option ParticipantRow :=
  match db_participants d !! (meeting_id, user_id) with
  | Some row =>
      if decide (pt_status row ∈ from)
      then let row' := (f row) <| pt_updated_at := now |> in (put_participant row' d, Some row')
      else (d, None)
  | None => (d, None)
  end.

Definition admit_one (now : Z) (meeting_id : Z) (user_id : string) : Db -> Db * option ParticipantRow :=
  update_where now meeting_id user_id [Waiting] (admit_row now).

Definition reject (now : Z) (meeting_id : Z) (user_id : string) : Db -> Db * option ParticipantRow :=
  update_where now meeting_id user_id [Waiting] (fun r => r <| pt_status := Rejected |>).

Definition leave (now : Z) (meeting_id : Z) (user_id : string) : Db -> Db * option ParticipantRow :=
  update_where now meeting_id user_id [IsAdmitted; Waiting]
    (fun r => r <| pt_status := Left |> <| pt_left_at := Some now |>).

Definition get_status (meeting_id : Z) (user_id : string) (d : Db) : option ParticipantRow :=
  db_participants d !! (meeting_id, user_id).

Section Scans.
Context (scan_participants : gmap (Z * string) ParticipantRow -> list ((Z * string) * ParticipantRow)).
Context (scan_meetings : gmap Z MeetingRow -> list (Z * MeetingRow)).

Definition with_status (meeting_id : Z) (status : ParticipantStatus) (d : Db) : list ParticipantRow :=
  filter (fun r => pt_meeting_id r = meeting_id /\ pt_status r = status)
    ((scan_participants (db_participants d)).*2).

Definition get_waiting (meeting_id : Z) (d : Db) : list ParticipantRow := with_status meeting_id Waiting d.

Definition get_admitted (meeting_id : Z) (d : Db) : list ParticipantRow := with_status meeting_id IsAdmitted d.

Definition count_admitted (meeting_id : Z) (d : Db) : Z := Z.of_nat (length (with_status meeting_id IsAdmitted d)).

Definition count_waiting (meeting_id : Z) (d : Db) : Z := Z.of_nat (length (with_status meeting_id Waiting d)).

Definition admit_all (now : Z) (meeting_id : Z) (d : Db) : Db * list ParticipantRow :=
  (admit_waiting now meeting_id d, admit_row now <$> with_status meeting_id Waiting d).

Definition list_by_owner (creator_id : string) (limit offset : Z) (d : Db) : list MeetingRow :=
  take (Z.to_nat limit) (drop (Z.to_nat offset)
    (merge_sort newer (filter (owned creator_id) ((scan_meetings (db_meetings d)).*2)))).

Definition count_by_owner (creator_id : string) (d : Db) : Z :=
  Z.of_nat (length (filter (owned creator_id) ((scan_meetings (db_meetings d)).*2))).

(** ** Queries as values *)

Inductive query : Type -> Type :=
| QCreate (room_id creator_id : string) (password_hash : option string) (attendees : list string)
    (waiting_room_enabled : bool) : query MeetingRow
| QGetByRoomId (room_id : string) : query (option MeetingRow)
| QListByOwner (creator_id : string) (limit offset : Z) : query (list MeetingRow)
| QCountByOwner (creator_id : string) : query Z
| QSoftDelete (room_id creator_id : string) : query (option MeetingRow)
| QActivate (meeting_id : Z) : query unit
| QEndMeeting (meeting_id : Z) : query unit
| QSetHostDisplayName (meeting_id : Z) (display_name : string) : query unit
| QUpdateWaitingRoom (room_id creator_id : string) (enabled : bool) : query (option MeetingRow)
| QUpsertHost (meeting_id : Z) (user_id : string) (display_name : option string) : query ParticipantRow
| QJoinAttendee (meeting_id : Z) (user_id : string) (display_name : option string)
    : query (bool * ParticipantRow * bool)
| QGetWaiting (meeting_id : Z) : query (list ParticipantRow)
| QGetAdmitted (meeting_id : Z) : query (list ParticipantRow)
| QGetStatus (meeting_id : Z) (user_id : string) : query (option ParticipantRow)
| QAdmit (meeting_id : Z) (user_id : string) : query (option ParticipantRow)
| QAdmitAll (meeting_id : Z) : query (list ParticipantRow)
| QReject (meeting_id : Z) (user_id : string) : query (option ParticipantRow)
| QLeave (meeting_id : Z) (user_id : string) : query (option ParticipantRow)
| QCountAdmitted (meeting_id : Z) : query Z
| QCountWaiting (meeting_id : Z) : query Z.

Definition fetched {X : Type} (r : Db * X) : Db * result X SqlError := (r.1, Ok r.2).

Definition exec {X : Type} (now : Z) (q : query X) (d : Db) : Db * result X SqlError :=
  match q in query X return Db * result X SqlError with
  | QCreate room creator pw attendees enabled => create_with_options now room creator pw attendees enabled d
  | QGetByRoomId room => (d, Ok (get_by_room_id room d))
  | QListByOwner creator limit offset => (d, Ok (list_by_owner creator limit offset d))
  | QCountByOwner creator => (d, Ok (count_by_owner creator d))
  | QSoftDelete room creator => fetched (soft_delete now room creator d)
  | QActivate mid => (activate now mid d, Ok tt)
  | QEndMeeting mid => (end_meeting now mid d, Ok tt)
  | QSetHostDisplayName mid name => set_host_display_name now mid name d
  | QUpdateWaitingRoom room creator enabled => fetched (update_waiting_room_enabled now room creator enabled d)
  | QUpsertHost mid user name => upsert_host now mid user name d
  | QJoinAttendee mid user name => join_attendee now mid user name d
  | QGetWaiting mid => (d, Ok (get_waiting mid d))
  | QGetAdmitted mid => (d, Ok (get_admitted mid d))
  | QGetStatus mid user => (d, Ok (get_status mid user d))
  | QAdmit mid user => fetched (admit_one now mid user d)
  | QAdmitAll mid => fetched (admit_all now mid d)
  | QReject mid user => fetched (reject now mid user d)
  | QLeave mid user => fetched (leave now mid user d)
  | QCountAdmitted mid => (d, Ok (count_admitted mid d))
  | QCountWaiting mid => (d, Ok (count_waiting mid d))
  end.

(** How a query may end: served, or the connection is lost before or after the
    database has executed it. *)
Inductive outcome : Type := Served | LostBefore | LostAfter.

Definition attempt {X : Type} (o : outcome) (now : Z) (q : query X) (d : Db) : Db * result X SqlError :=
  match o with
  | Served => exec now q d
  | LostBefore => (d, Err ConnectionLost)
  | LostAfter => ((exec now q d).1, Err ConnectionLost)
  end.
End Scans.
