(* ===== verification/MeetingApi.v ===== *)
(** * The meeting API (meeting-api/src)

    The HTTP service that owns the meetings: auth.rs, token.rs, error.rs, nats_events.rs
    and the handlers of routes/meetings.rs, routes/participants.rs and
    routes/waiting_room.rs, over the tables of [MeetingDb].

    A handler is a program ([prog]): it stops at every await, so that the requests of
    different users interleave between any two queries. [api_step] runs one step of one
    request, drops a request whose client has gone, or accepts a new one.

    The JWT and password libraries are the class [Crypto]; the JSON encoding of bodies
    is left out, a body being the record it encodes. *)
From Stdlib Require Import Ascii.
From S2P Require Import Prelude Protocol TokenValidator Media MeetingDb.

(** ** Errors (error.rs, videocall-meeting-types/src/error.rs) *)

Record APIError : Type := mkAPIError {
  ae_code : string;
  ae_message : string;
  ae_engineering_error : option string;
}.

Record AppError : Type := mkAppError {
  ap_status : Z;
  ap_body : APIError;
}.

Definition app_error (status : Z) (code message : string) : AppError :=
  mkAppError status (mkAPIError code message None).

Definition unauthorized : AppError := app_error 401 "UNAUTHORIZED" "Authentication required.".

Definition unauthorized_msg (detail : string) : AppError :=
  mkAppError 401 (mkAPIError "UNAUTHORIZED" "Authentication required." (Some detail)).

Definition invalid_meeting_id (detail : string) : AppError :=
  app_error 400 "INVALID_MEETING_ID" ("Invalid meeting ID: " +:+ detail).

Definition too_many_attendees (count max : Z) : AppError :=
  app_error 400 "TOO_MANY_ATTENDEES"
    ("Too many attendees: " +:+ show_u64 count +:+ " provided, maximum is " +:+ show_u64 max).

Definition meeting_exists (meeting_id : string) : AppError :=
  app_error 409 "MEETING_EXISTS" ("Meeting with ID '" +:+ meeting_id +:+ "' already exists").

Definition meeting_not_found (meeting_id : string) : AppError :=
  app_error 404 "MEETING_NOT_FOUND" ("Meeting '" +:+ meeting_id +:+ "' not found").

Definition meeting_not_active (meeting_id : string) : AppError :=
  app_error 400 "MEETING_NOT_ACTIVE" ("Meeting '" +:+ meeting_id +:+ "' is not active. Host must join first.").

Definition not_host : AppError := app_error 403 "NOT_HOST" "Only the meeting host can perform this action".

Definition not_owner : AppError := app_error 403 "NOT_OWNER" "Only the meeting owner can perform this action".

Definition participant_not_found (user_id : string) : AppError :=
  app_error 404 "PARTICIPANT_NOT_FOUND" ("Participant '" +:+ user_id +:+ "' not found in waiting room").

Definition not_in_meeting : AppError := app_error 404 "NOT_IN_MEETING" "You have not joined this meeting".

Definition internal (detail : string) : AppError :=
  mkAppError 500 (mkAPIError "INTERNAL_ERROR" "Internal server error" (Some detail)).

(** ** Requests and responses (videocall-meeting-types/src) *)

Record CreateMeetingRequest : Type := mkCreateMeetingRequest {
  cq_meeting_id : option string;
  cq_attendees : list string;
  cq_password : option string;
  cq_waiting_room_enabled : option bool;
}.

Record CreateMeetingResponse : Type := mkCreateMeetingResponse {
  cr_meeting_id : string;
  cr_host : string;
  cr_created_at : Z;
  cr_state : string;
  cr_attendees : list string;
  cr_has_password : bool;
  cr_waiting_room_enabled : bool;
}.

Record ParticipantStatusResponse : Type := mkStatusResponse {
  ps_user_id : string;
  ps_display_name : option string;
  ps_status : string;
  ps_is_host : bool;
  ps_joined_at : Z;
  ps_admitted_at : option Z;
  ps_room_token : option string;
  ps_observer_token : option string;
  ps_waiting_room_enabled : option bool;
  ps_host_display_name : option string;
  ps_host_user_id : option string;
}.

#[export] Instance eta_StatusResponse : Eta ParticipantStatusResponse := fun r =>
  mkStatusResponse (ps_user_id r) (ps_display_name r) (ps_status r) (ps_is_host r) (ps_joined_at r)
    (ps_admitted_at r) (ps_room_token r) (ps_observer_token r) (ps_waiting_room_enabled r)
    (ps_host_display_name r) (ps_host_user_id r).

Record MeetingInfoResponse : Type := mkMeetingInfo {
  mi_meeting_id : string;
  mi_state : string;
  mi_host : string;
  mi_host_display_name : option string;
  mi_host_user_id : option string;
  mi_has_password : bool;
  mi_waiting_room_enabled : bool;
  mi_participant_count : Z;
  mi_waiting_count : Z;
  mi_started_at : Z;
  mi_ended_at : option Z;
  mi_your_status : option ParticipantStatusResponse;
}.

Record MeetingSummary : Type := mkMeetingSummary {
  ms_meeting_id : string;
  ms_host : option string;
  ms_state : string;
  ms_has_password : bool;
  ms_created_at : Z;
  ms_participant_count : Z;
  ms_started_at : Z;
  ms_ended_at : option Z;
  ms_waiting_count : Z;
  ms_waiting_room_enabled : bool;
}.

Record ListMeetingsResponse : Type := mkListMeetings {
  lm_meetings : list MeetingSummary;
  lm_total : Z;
  lm_limit : Z;
  lm_offset : Z;
}.

(** [DateTime::timestamp] and [timestamp_millis]. *)
Definition timestamp (t : Z) : Z := t / 1000000.
Definition timestamp_millis (t : Z) : Z := t / 1000.

Definition show_status (s : ParticipantStatus) : string :=
  match s with Waiting => "waiting" | IsAdmitted => "admitted" | Rejected => "rejected" | Left => "left" end.

Definition show_state (s : MeetingState) : string :=
  match s with Idle => "idle" | Active => "active" | Ended => "ended" end.

Definition into_participant_status (row : ParticipantRow) (room_token : option string)
    : ParticipantStatusResponse :=
  mkStatusResponse (pt_user_id row) (pt_display_name row) (show_status (pt_status row)) (pt_is_host row)
    (timestamp (pt_joined_at row)) (timestamp <$> pt_admitted_at row) room_token None None None None.

(** ** Tokens (token.rs) *)

Record SessionTokenClaims : Type := mkSessionClaims {
  st_sub : string;
  st_name : string;
  st_exp : Z;
  st_iat : Z;
  st_iss : string;
}.

(** The crates [jsonwebtoken] and [argon2]. Decoding reads the clock. *)
Class Crypto : Type := {
  encode_room : string -> RoomAccessTokenClaims -> result string string;
  encode_session : string -> SessionTokenClaims -> result string string;
  decode_session : Z -> string -> string -> result SessionTokenClaims string;
  hash_password : string -> string -> result string string;
  sql_message : SqlError -> string;
}.

Record AppState : Type := mkAppState {
  as_jwt_secret : string;
  as_token_ttl_secs : Z;
  as_session_ttl_secs : Z;
  as_cookie_name : string;
  as_nats : bool;
}.

Definition OBSERVER_TOKEN_TTL_SECS : Z := 1800.

Definition map_err {A E F : Type} (f : E -> F) (r : result A E) : result A F :=
  match r with Ok a => Ok a | Err e => Err (f e) end.

(** ** Programs *)

Inductive prog (R : Type) : Type :=
| Ret (r : R)
| Sql {X : Type} (q : query X) (k : result X SqlError -> prog R)
| Publish (subject : string) (payload : bytes) (k : prog R)
| Clock (k : Z -> prog R).
Arguments Ret {R} r.
Arguments Sql {R X} q k.
Arguments Publish {R} subject payload k.
Arguments Clock {R} k.

Fixpoint prog_bind {A B : Type} (p : prog A) (k : A -> prog B) : prog B :=
  match p with
  | Ret a => k a
  | Sql q c => Sql q (fun r => prog_bind (c r) k)
  | Publish s b c => Publish s b (prog_bind c k)
  | Clock c => Clock (fun now => prog_bind (c now) k)
  end.

(** [?] on the result of an async function. *)
Definition try_bind {A B : Type} (p : prog (result A AppError)) (k : A -> prog (result B AppError))
    : prog (result B AppError) :=
  prog_bind p (fun r => match r with Ok a => k a | Err e => Ret (Err e) end).

Notation "x <-! p ;; k" := (try_bind p (fun x => k))
  (at level 100, p at next level, right associativity) : mach_scope.

Notation "'do!' p ;; k" := (prog_bind p (fun _ => k))
  (at level 100, p at next level, right associativity) : mach_scope.

Definition ok_or {A : Type} (o : option A) (e : AppError) : prog (result A AppError) :=
  Ret (match o with Some a => Ok a | None => Err e end).

Definition lift {A : Type} (r : result A AppError) : prog (result A AppError) := Ret r.

Section Api.
Context {wire : Wire} {crypto : Crypto}.

Definition handler (A : Type) : Type := prog (result A AppError).

(** [From<sqlx::Error>]. *)
Definition from_sqlx (e : SqlError) : AppError := internal (sql_message e).

(** A query followed by [?]. *)
Definition ask {X : Type} (q : query X) : handler X := Sql q (fun r => Ret (map_err from_sqlx r)).

(** ** Token generation *)

Definition generate_session_token (now : Z) (secret user_id name : string) (ttl_secs : Z)
    : result string AppError :=
  let now := timestamp now in
  map_err (fun _ => internal "failed to generate session token")
    (encode_session secret (mkSessionClaims user_id name (wrap_i 64 (now + ttl_secs)) now ISSUER)).

Definition decode_session_token (now : Z) (secret token : string) : result SessionTokenClaims AppError :=
  map_err (fun _ => unauthorized_msg "invalid or expired session") (decode_session now secret token).

Definition room_claims (now ttl_secs : Z) (user_id room : string) (host : bool) (display_name : string)
    : RoomAccessTokenClaims :=
  mkClaims user_id room true host display_name false (wrap_i 64 (timestamp now + ttl_secs)) ISSUER.

Definition generate_room_token (secret : string) (ttl_secs : Z) (user_id room : string) (host : bool)
    (display_name : string) : handler string :=
  Clock (fun now =>
    lift (map_err (fun _ => internal "failed to generate room token")
      (encode_room secret (room_claims now ttl_secs user_id room host display_name)))).

Definition observer_claims (now : Z) (user_id room display_name : string) : RoomAccessTokenClaims :=
  mkClaims user_id room false false display_name true
    (wrap_i 64 (timestamp now + OBSERVER_TOKEN_TTL_SECS)) ISSUER.

Definition generate_observer_token (secret user_id room display_name : string) : handler string :=
  Clock (fun now =>
    lift (map_err (fun _ => internal "failed to generate observer token")
      (encode_room secret (observer_claims now user_id room display_name)))).

(** ** Authentication (auth.rs) *)

Definition ascii_whitespace (c : ascii) : bool :=
  let n := N_of_ascii c in ((9 <=? n) && (n <=? 13) || (n =? 32))%N.

Fixpoint trim_front (s : string) : string :=
  match s with
  | EmptyString => EmptyString
  | String c s' => if ascii_whitespace c then trim_front s' else s
  end.

Fixpoint trim_back (s : string) : string :=
  match s with
  | EmptyString => EmptyString
  | String c s' =>
      match trim_back s' with
      | EmptyString => if ascii_whitespace c then EmptyString else String c EmptyString
      | t => String c t
      end
  end.

Definition trim (s : string) : string := trim_back (trim_front s).

Fixpoint strip_prefix (prefix s : string) : option string :=
  match prefix, s with
  | EmptyString, _ => Some s
  | String p prefix', String c s' => if bool_decide (p = c) then strip_prefix prefix' s' else None
  | String _ _, EmptyString => None
  end.

Fixpoint split_semicolons (s : string) : list string :=
  match s with
  | EmptyString => [EmptyString]
  | String c s' =>
      if bool_decide (c = ";"%char) then EmptyString :: split_semicolons s'
      else match split_semicolons s' with
           | t :: ts => String c t :: ts
           | [] => [String c EmptyString]
           end
  end.

(** The two headers the extractor reads, when [to_str] accepts them. *)
Record Headers : Type := mkHeaders {
  hd_cookie : option string;
  hd_authorization : option string;
}.

Definition nonempty (s : string) : option string :=
  match s with EmptyString => None | _ => Some s end.

Fixpoint find_cookie (prefix : string) (pairs : list string) : option string :=
  match pairs with
  | [] => None
  | p :: pairs' =>
      match (v ← strip_prefix prefix (trim p); nonempty (trim v)) with
      | Some value => Some value
      | None => find_cookie prefix pairs'
      end
  end.

Definition extract_session_token (parts : Headers) (cookie_name : string) : option string :=
  match (h ← hd_cookie parts; find_cookie (cookie_name +:+ "=") (split_semicolons h)) with
  | Some value => Some value
  | None => a ← hd_authorization parts; t ← strip_prefix "Bearer " a; nonempty (trim t)
  end.

Record AuthUser : Type := mkAuthUser {
  au_user_id : string;
  au_name : string;
}.

Definition from_request_parts (now : Z) (parts : Headers) (st : AppState) : result AuthUser AppError :=
  token <-? match extract_session_token parts (as_cookie_name st) with
            | Some t => Ok t | None => Err unauthorized end;;
  claims <-? decode_session_token now (as_jwt_secret st) token;;
  Ok (mkAuthUser (st_sub claims) (st_name claims)).

(** ** Notifications (nats_events.rs) *)

Definition sanitize_char (c : ascii) : ascii :=
  if existsb (fun d => bool_decide (c = d))
       ["."; "*"; ">"; " "; "009"; "010"; "013"]%char then "_"%char else c.

Fixpoint sanitize_room_id (room_id : string) : string :=
  match room_id with
  | EmptyString => EmptyString
  | String c s => String (sanitize_char c) (sanitize_room_id s)
  end.

Definition room_system_subject (room_id : string) : string :=
  "room." +:+ sanitize_room_id room_id +:+ ".system".

Definition publish (nats : bool) (room_id : string) (packet : MeetingPacket) : prog unit :=
  if nats then Publish (room_system_subject room_id) (meeting_wrapper packet) (Ret tt) else Ret tt.

Definition publish_meeting_activated (nats : bool) (room_id : string) : prog unit :=
  publish nats room_id (meeting_default <| event_type := MEETING_ACTIVATED |> <| mt_room_id := room_id |>).

Definition publish_participant_admitted (nats : bool) (room_id target_user_id : string) : prog unit :=
  publish nats room_id (meeting_default <| event_type := PARTICIPANT_ADMITTED |> <| mt_room_id := room_id |>
    <| mt_target_user_id := as_bytes target_user_id |>).

Definition publish_participant_rejected (nats : bool) (room_id target_user_id : string) : prog unit :=
  publish nats room_id (meeting_default <| event_type := PARTICIPANT_REJECTED |> <| mt_room_id := room_id |>
    <| mt_target_user_id := as_bytes target_user_id |>).

Definition publish_waiting_room_updated (nats : bool) (room_id : string) : prog unit :=
  publish nats room_id (meeting_default <| event_type := WAITING_ROOM_UPDATED |> <| mt_room_id := room_id |>).

(** ** Meetings (routes/meetings.rs) *)

Definition MAX_ATTENDEES : nat := 100.

Definition VALID_ID_PATTERN : string := "^[a-zA-Z0-9_-]+$".

Definition validate_meeting_id (meeting_id : string) : result unit AppError :=
  if bool_decide (meeting_id = EmptyString) then Err (invalid_meeting_id "cannot be empty")
  else if (255 <? String.length meeting_id)%nat then Err (invalid_meeting_id "cannot exceed 255 characters")
  else if negb (valid_id meeting_id)
  then Err (invalid_meeting_id ("must match pattern: " +:+ VALID_ID_PATTERN))
  else Ok tt.

Definition CHARSET : string := "abcdefghijklmnopqrstuvwxyz0123456789".

(** Twelve draws of [gen_range(0..36)], the elements of [rng]. *)
Definition generate_meeting_id (rng : list nat) : string :=
  foldr (fun i s => match String.get i CHARSET with Some c => String c s | None => s end) EmptyString
    (take 12 rng).

(** The random choices of a request: the draws of a meeting id and a salt. *)
Record Random : Type := mkRandom {
  rd_draws : list nat;
  rd_salt : string;
}.

Definition hashed_password (salt : string) (password : option string) : result (option string) AppError :=
  match password with
  | Some pw =>
      if bool_decide (pw = EmptyString) then Ok None
      else map_err (fun e => internal ("password hash error: " +:+ e))
             (h <-? hash_password salt pw;; Ok (Some h))
  | None => Ok None
  end.

Definition create_meeting (st : AppState) (user_id : string) (body : CreateMeetingRequest) (random : Random)
    : handler CreateMeetingResponse :=
  meeting_id <-! lift match cq_meeting_id body with
                      | Some id => _ <-? validate_meeting_id id;; Ok id
                      | None => Ok (generate_meeting_id (rd_draws random))
                      end;;
  if (MAX_ATTENDEES <? length (cq_attendees body))%nat
  then Ret (Err (too_many_attendees (Z.of_nat (length (cq_attendees body))) (Z.of_nat MAX_ATTENDEES)))
  else
    password_hash <-! lift (hashed_password (rd_salt random) (cq_password body));;
    let waiting_room_enabled := default true (cq_waiting_room_enabled body) in
    row <-! Sql (QCreate meeting_id user_id password_hash (cq_attendees body) waiting_room_enabled)
      (fun r => Ret (map_err (fun e => match e with
                                       | UniqueViolation => meeting_exists meeting_id
                                       | other => from_sqlx other
                                       end) r));;
    Ret (Ok (mkCreateMeetingResponse (mr_room_id row) user_id (timestamp (mr_created_at row))
      (show_state (mr_state row)) (cq_attendees body) (bool_decide (is_Some password_hash))
      (mr_waiting_room_enabled row))).

Fixpoint summaries (rows : list MeetingRow) : handler (list MeetingSummary) :=
  match rows with
  | [] => Ret (Ok [])
  | row :: rows' =>
      participant_count <-! ask (QCountAdmitted (mr_id row));;
      waiting_count <-! ask (QCountWaiting (mr_id row));;
      rest <-! summaries rows';;
      Ret (Ok (mkMeetingSummary (mr_room_id row) (mr_creator_id row) (show_state (mr_state row))
        (bool_decide (is_Some (mr_password_hash row))) (timestamp (mr_created_at row)) participant_count
        (timestamp (mr_started_at row)) (timestamp <$> mr_ended_at row) waiting_count
        (mr_waiting_room_enabled row) :: rest))
  end.

Definition list_meetings (user_id : string) (limit offset : Z) : handler ListMeetingsResponse :=
  let limit := Z.max 1 (Z.min 100 limit) in
  let offset := Z.max offset 0 in
  rows <-! ask (QListByOwner user_id limit offset);;
  total <-! ask (QCountByOwner user_id);;
  meetings <-! summaries rows;;
  Ret (Ok (mkListMeetings meetings total limit offset)).

(** The response of four handlers, from a row that was read before. *)
Definition meeting_info (row : MeetingRow) (user_id : string) : handler MeetingInfoResponse :=
  your_status <-! ask (QGetStatus (mr_id row) user_id);;
  participant_count <-! ask (QCountAdmitted (mr_id row));;
  waiting_count <-! ask (QCountWaiting (mr_id row));;
  Ret (Ok (mkMeetingInfo (mr_room_id row) (show_state (mr_state row)) (default EmptyString (mr_creator_id row))
    (mr_host_display_name row) (mr_creator_id row) (bool_decide (is_Some (mr_password_hash row)))
    (mr_waiting_room_enabled row) participant_count waiting_count (timestamp_millis (mr_started_at row))
    (timestamp_millis <$> mr_ended_at row)
    ((fun p => into_participant_status p None) <$> your_status))).

(** [get_by_room_id(..).await?.ok_or_else(..)?]. *)
Definition find_meeting (meeting_id : string) : handler MeetingRow :=
  found <-! ask (QGetByRoomId meeting_id);;
  ok_or found (meeting_not_found meeting_id).

Definition get_meeting (user_id meeting_id : string) : handler MeetingInfoResponse :=
  row <-! find_meeting meeting_id;;
  meeting_info row user_id.

Definition is_creator (user_id : string) (row : MeetingRow) : bool :=
  bool_decide (mr_creator_id row = Some user_id).

Definition delete_meeting (user_id meeting_id : string) : handler string :=
  row <-! find_meeting meeting_id;;
  if negb (is_creator user_id row) then Ret (Err not_owner)
  else
    _ <-! ask (QSoftDelete meeting_id user_id);;
    Ret (Ok ("Meeting '" +:+ meeting_id +:+ "' has been deleted")).

Definition end_meeting_handler (user_id meeting_id : string) : handler MeetingInfoResponse :=
  meeting <-! find_meeting meeting_id;;
  if negb (is_creator user_id meeting) then Ret (Err not_owner)
  else if bool_decide (mr_state meeting = Ended) then meeting_info meeting user_id
  else
    _ <-! ask (QEndMeeting (mr_id meeting));;
    row <-! find_meeting meeting_id;;
    meeting_info row user_id.

Definition update_meeting (user_id meeting_id : string) (waiting_room_enabled : option bool)
    : handler MeetingInfoResponse :=
  row <-! match waiting_room_enabled with
          | Some enabled =>
              updated <-! ask (QUpdateWaitingRoom meeting_id user_id enabled);;
              match updated with
              | Some row => Ret (Ok row)
              | None =>
                  found <-! ask (QGetByRoomId meeting_id);;
                  Ret (Err (match found with Some _ => not_owner | None => meeting_not_found meeting_id end))
              end
          | None =>
              row <-! find_meeting meeting_id;;
              if negb (is_creator user_id row) then Ret (Err not_owner) else Ret (Ok row)
          end;;
  meeting_info row user_id.

(** ** Participants (routes/participants.rs) *)

Definition join_as_host (st : AppState) (user_id meeting_id : string) (display_name : option string)
    (meeting : MeetingRow) : handler ParticipantStatusResponse :=
  _ <-! (if negb (bool_decide (mr_state meeting = Active)) then
           _ <-! ask (QActivate (mr_id meeting));;
           do! publish_meeting_activated (as_nats st) meeting_id;; Ret (Ok tt)
         else Ret (Ok tt));;
  _ <-! match display_name with
        | Some dn => ask (QSetHostDisplayName (mr_id meeting) dn)
        | None => Ret (Ok tt)
        end;;
  row <-! ask (QUpsertHost (mr_id meeting) user_id display_name);;
  token <-! generate_room_token (as_jwt_secret st) (as_token_ttl_secs st) user_id meeting_id true
              (default user_id display_name);;
  Ret (Ok ((into_participant_status row (Some token))
    <| ps_waiting_room_enabled := Some (mr_waiting_room_enabled meeting) |>
    <| ps_host_display_name := COALESCE display_name (mr_host_display_name meeting) |>
    <| ps_host_user_id := mr_creator_id meeting |>)).

(** The meeting exists but is not active. *)
Definition wait_for_meeting (st : AppState) (user_id meeting_id : string) (display_name : option string)
    (meeting : MeetingRow) : handler ParticipantStatusResponse :=
  observer <-! generate_observer_token (as_jwt_secret st) user_id meeting_id (default user_id display_name);;
  Clock (fun now =>
    Ret (Ok (mkStatusResponse user_id display_name "waiting_for_meeting" false (timestamp now) None None
      (Some observer) (Some (mr_waiting_room_enabled meeting)) (mr_host_display_name meeting)
      (mr_creator_id meeting)))).

Definition join_as_attendee (st : AppState) (user_id meeting_id : string) (display_name : option string)
    (meeting : MeetingRow) : handler ParticipantStatusResponse :=
  joined <-! ask (QJoinAttendee (mr_id meeting) user_id display_name);;
  let '(auto_admitted, row, waiting_room_enabled) := joined in
  resp <-! (if (auto_admitted : bool) then
              token <-! generate_room_token (as_jwt_secret st) (as_token_ttl_secs st) user_id meeting_id false
                          (default user_id display_name);;
              Ret (Ok (into_participant_status row (Some token)))
            else
              observer <-! generate_observer_token (as_jwt_secret st) user_id meeting_id
                             (default user_id display_name);;
              do! publish_waiting_room_updated (as_nats st) meeting_id;;
              Ret (Ok ((into_participant_status row None) <| ps_observer_token := Some observer |>)));;
  Ret (Ok (resp <| ps_waiting_room_enabled := Some waiting_room_enabled |>
    <| ps_host_display_name := mr_host_display_name meeting |>
    <| ps_host_user_id := mr_creator_id meeting |>)).

Definition join_meeting (st : AppState) (user_id meeting_id : string) (body : option (option string))
    : handler ParticipantStatusResponse :=
  let display_name := mjoin body in
  found <-! ask (QGetByRoomId meeting_id);;
  meeting <-! match found with
              | Some m => Ret (Ok m)
              | None => ask (QCreate meeting_id user_id None [] true)
              end;;
  if is_creator user_id meeting then join_as_host st user_id meeting_id display_name meeting
  else if negb (bool_decide (mr_state meeting = Active))
  then wait_for_meeting st user_id meeting_id display_name meeting
  else join_as_attendee st user_id meeting_id display_name meeting.

Definition get_my_status (st : AppState) (user_id meeting_id : string) : handler ParticipantStatusResponse :=
  meeting <-! find_meeting meeting_id;;
  if bool_decide (mr_state meeting = Ended) then Ret (Err (meeting_not_active meeting_id))
  else
    found <-! ask (QGetStatus (mr_id meeting) user_id);;
    row <-! ok_or found not_in_meeting;;
    token <-! (if bool_decide (pt_status row = IsAdmitted) then
                 t <-! generate_room_token (as_jwt_secret st) (as_token_ttl_secs st) user_id meeting_id
                         (pt_is_host row) (default user_id (pt_display_name row));;
                 Ret (Ok (Some t))
               else Ret (Ok None));;
    Ret (Ok ((into_participant_status row token)
      <| ps_waiting_room_enabled := Some (mr_waiting_room_enabled meeting) |>
      <| ps_host_display_name := mr_host_display_name meeting |>
      <| ps_host_user_id := mr_creator_id meeting |>)).

Definition leave_meeting (user_id meeting_id : string) : handler ParticipantStatusResponse :=
  meeting <-! find_meeting meeting_id;;
  left <-! ask (QLeave (mr_id meeting) user_id);;
  row <-! ok_or left not_in_meeting;;
  _ <-! (if is_creator user_id meeting then ask (QEndMeeting (mr_id meeting))
         else
           remaining <-! ask (QCountAdmitted (mr_id meeting));;
           if remaining =? 0 then ask (QEndMeeting (mr_id meeting)) else Ret (Ok tt));;
  Ret (Ok (into_participant_status row None)).

Definition get_participants (user_id meeting_id : string) : handler (list ParticipantStatusResponse) :=
  meeting <-! find_meeting meeting_id;;
  found <-! ask (QGetStatus (mr_id meeting) user_id);;
  _ <-! ok_or found not_in_meeting;;
  rows <-! ask (QGetAdmitted (mr_id meeting));;
  Ret (Ok ((fun r => into_participant_status r None) <$> rows)).

(** ** The waiting room (routes/waiting_room.rs) *)

Definition require_host (meeting_id : Z) (user_id : string) : handler unit :=
  found <-! ask (QGetStatus meeting_id user_id);;
  row <-! ok_or found not_host;;
  if negb (bool_decide (pt_status row = IsAdmitted)) || negb (pt_is_host row)
  then Ret (Err not_host) else Ret (Ok tt).

Definition get_waiting_room (user_id meeting_id : string) : handler (list ParticipantStatusResponse) :=
  meeting <-! find_meeting meeting_id;;
  _ <-! require_host (mr_id meeting) user_id;;
  rows <-! ask (QGetWaiting (mr_id meeting));;
  Ret (Ok ((fun r => into_participant_status r None) <$> rows)).

Definition admit_participant (st : AppState) (user_id meeting_id target : string)
    : handler ParticipantStatusResponse :=
  meeting <-! find_meeting meeting_id;;
  _ <-! require_host (mr_id meeting) user_id;;
  admitted <-! ask (QAdmit (mr_id meeting) target);;
  row <-! ok_or admitted (participant_not_found target);;
  do! publish_participant_admitted (as_nats st) meeting_id target;;
  Ret (Ok (into_participant_status row None)).

Fixpoint publish_all_admitted (nats : bool) (meeting_id : string) (rows : list ParticipantRow) : prog unit :=
  match rows with
  | [] => Ret tt
  | row :: rows' =>
      do! publish_participant_admitted nats meeting_id (pt_user_id row);;
      publish_all_admitted nats meeting_id rows'
  end.

Definition admit_all_handler (st : AppState) (user_id meeting_id : string)
    : handler (list ParticipantStatusResponse) :=
  meeting <-! find_meeting meeting_id;;
  _ <-! require_host (mr_id meeting) user_id;;
  rows <-! ask (QAdmitAll (mr_id meeting));;
  do! publish_all_admitted (as_nats st) meeting_id rows;;
  Ret (Ok ((fun r => into_participant_status r None) <$> rows)).

Definition reject_participant (st : AppState) (user_id meeting_id target : string)
    : handler ParticipantStatusResponse :=
  meeting <-! find_meeting meeting_id;;
  _ <-! require_host (mr_id meeting) user_id;;
  rejected <-! ask (QReject (mr_id meeting) target);;
  row <-! ok_or rejected (participant_not_found target);;
  do! publish_participant_rejected (as_nats st) meeting_id target;;
  Ret (Ok (into_participant_status row None)).

(** ** The router (routes/mod.rs) *)

Inductive Endpoint : Type :=
| ListMeetings (limit offset : Z)
| CreateMeeting (body : CreateMeetingRequest) (random : Random)
| GetMeeting (meeting_id : string)
| DeleteMeeting (meeting_id : string)
| UpdateMeeting (meeting_id : string) (waiting_room_enabled : option bool)
| EndMeeting (meeting_id : string)
| JoinMeeting (meeting_id : string) (body : option (option string))
| LeaveMeeting (meeting_id : string)
| GetMyStatus (meeting_id : string)
| GetParticipants (meeting_id : string)
| GetWaitingRoom (meeting_id : string)
| AdmitParticipant (meeting_id user_id : string)
| AdmitAll (meeting_id : string)
| RejectParticipant (meeting_id user_id : string).

Inductive Body : Type :=
| BCreated (r : CreateMeetingResponse)
| BList (r : ListMeetingsResponse)
| BInfo (r : MeetingInfoResponse)
| BMessage (message : string)
| BStatus (r : ParticipantStatusResponse)
| BParticipants (l : list ParticipantStatusResponse).

Definition respond {A : Type} (f : A -> Body) (h : handler A) : handler Body :=
  a <-! h;; Ret (Ok (f a)).

Definition router (st : AppState) (user_id : string) (e : Endpoint) : handler Body :=
  match e with
  | ListMeetings limit offset => respond BList (list_meetings user_id limit offset)
  | CreateMeeting body random => respond BCreated (create_meeting st user_id body random)
  | GetMeeting id => respond BInfo (get_meeting user_id id)
  | DeleteMeeting id => respond BMessage (delete_meeting user_id id)
  | UpdateMeeting id enabled => respond BInfo (update_meeting user_id id enabled)
  | EndMeeting id => respond BInfo (end_meeting_handler user_id id)
  | JoinMeeting id body => respond BStatus (join_meeting st user_id id body)
  | LeaveMeeting id => respond BStatus (leave_meeting user_id id)
  | GetMyStatus id => respond BStatus (get_my_status st user_id id)
  | GetParticipants id => respond BParticipants (get_participants user_id id)
  | GetWaitingRoom id => respond BParticipants (get_waiting_room user_id id)
  | AdmitParticipant id target => respond BStatus (admit_participant st user_id id target)
  | AdmitAll id => respond BParticipants (admit_all_handler st user_id id)
  | RejectParticipant id target => respond BStatus (reject_participant st user_id id target)
  end.

(** ** Concurrent requests *)

Context (scan_participants : gmap (Z * string) ParticipantRow -> list ((Z * string) * ParticipantRow)).
Context (scan_meetings : gmap Z MeetingRow -> list (Z * MeetingRow)).

(** A request in flight: who makes it, what it asks for, what is left to do. *)
Record Flight : Type := mkFlight {
  fl_user : string;
  fl_endpoint : Endpoint;
  fl_rest : handler Body;
}.

Record Server : Type := mkServer {
  sv_db : Db;
  sv_flights : gmap Z Flight;
}.

Inductive api_event : Type :=
| Arrive (id : Z) (now : Z) (parts : Headers) (e : Endpoint)
| Step (id : Z) (o : outcome) (now : Z)
| Cancel (id : Z).

Inductive call : Type := | Call {X : Type} (q : query X) (r : result X SqlError).

Inductive api_output : Type :=
| Executed (user : string) (o : outcome) (c : call)
| Published (subject : string) (payload : bytes)
| Replied (user : string) (e : Endpoint) (reply : result Body AppError)
| Refused (e : AppError).

Definition set_flight (id : Z) (f : Flight) (s : Server) : Server :=
  mkServer (sv_db s) (<[id := f]> (sv_flights s)).

Definition flight_step (id : Z) (o : outcome) (now : Z) (f : Flight) (s : Server)
    : Server * list api_output :=
  let go rest := mkFlight (fl_user f) (fl_endpoint f) rest in
  match fl_rest f with
  | Ret reply => (mkServer (sv_db s) (delete id (sv_flights s)), [Replied (fl_user f) (fl_endpoint f) reply])
  | Sql q k =>
      let '(d, r) := attempt scan_participants scan_meetings o now q (sv_db s) in
      (mkServer d (<[id := go (k r)]> (sv_flights s)), [Executed (fl_user f) o (Call q r)])
  | Publish subject payload k => (set_flight id (go k) s, [Published subject payload])
  | Clock k => (set_flight id (go (k now)) s, [])
  end.

Definition api_step (st : AppState) (s : Server) (ev : api_event) : Server * list api_output :=
  match ev with
  | Arrive id now parts e =>
      match from_request_parts now parts st with
      | Err err => (s, [Refused err])
      | Ok user =>
          match sv_flights s !! id with
          | Some _ => (s, [])
          | None => (set_flight id (mkFlight (au_user_id user) e (router st (au_user_id user) e)) s, [])
          end
      end
  | Step id o now =>
      match sv_flights s !! id with
      | Some f => flight_step id o now f s
      | None => (s, [])
      end
  | Cancel id => (mkServer (sv_db s) (delete id (sv_flights s)), [])
  end.

End Api.
