(* ===== verification/DemoMeeting.v ===== *)
(** * A concrete meeting API, for the witnesses

    Tokens are the claims and the secret written out in bits, which is an instance of
    [Crypto]; the rows of a table come in the order of their keys. *)
From Stdlib Require Import Ascii.
From S2P Require Import Prelude Protocol DemoWire TokenValidator MeetingDb MeetingApi.

(** ** Bits *)

Fixpoint bits (p : positive) : string :=
  match p with
  | xH => EmptyString
  | xO p => String "0" (bits p)
  | xI p => String "1" (bits p)
  end.

Fixpoint unbits (s : string) : positive :=
  match s with
  | EmptyString => xH
  | String c s => if bool_decide (c = "1"%char) then xI (unbits s) else xO (unbits s)
  end.

Lemma unbits_bits p : unbits (bits p) = p.
Proof. induction p as [p IH|p IH|]; simpl; by rewrite ?IH. Qed.

(** ** Claims as numbers *)

#[export] Instance claims_eq : EqDecision RoomAccessTokenClaims.
Proof. solve_decision. Defined.

#[export] Instance claims_countable : Countable RoomAccessTokenClaims.
Proof.
  refine (inj_countable'
    (fun c => (sub c, tc_room c, room_join c, is_host c, tc_display_name c, tc_observer c, exp c, iss c))
    (fun '(a, b, c, d, e, f, g, h) => mkClaims a b c d e f g h) _).
  abstract (by intros []).
Defined.

#[export] Instance session_claims_eq : EqDecision SessionTokenClaims.
Proof. solve_decision. Defined.

#[export] Instance session_claims_countable : Countable SessionTokenClaims.
Proof.
  refine (inj_countable' (fun c => (st_sub c, st_name c, st_exp c, st_iat c, st_iss c))
    (fun '(a, b, c, d, e) => mkSessionClaims a b c d e) _).
  abstract (by intros []).
Defined.

Definition seal {A} `{Countable A} (secret : string) (a : A) : string := bits (encode (secret, a)).

Definition open_seal {A} `{Countable A} (secret token : string) : option A :=
  match decode (unbits token) with
  | Some (s, a) => if bool_decide (s = secret) then Some a else None
  | None => None
  end.

Lemma open_sealed {A} `{Countable A} secret (a : A) : open_seal secret (seal secret a) = Some a.
Proof. unfold open_seal, seal. rewrite unbits_bits, decode_encode. by rewrite bool_decide_true. Qed.

#[export] Instance demo_crypto : Crypto := {
  encode_room secret claims := Ok (seal secret claims);
  encode_session secret claims := Ok (seal secret claims);
  decode_session now secret token :=
    match open_seal secret token with
    | Some c => if timestamp now <? st_exp c then Ok c else Err "ExpiredSignature"%string
    | None => Err "InvalidToken"%string
    end;
  hash_password salt pw := Ok (salt +:+ pw);
  sql_message _ := "database error"%string;
}.

(** The media server's side. *)
Definition demo_jwt_decode (server_now : Z) (secret token : string) : result RoomAccessTokenClaims JwtError :=
  match open_seal secret token with
  | Some c => if server_now <? exp c then Ok c else Err ExpiredSignature
  | None => Err (OtherJwtError "InvalidToken")
  end.

Lemma demo_jwt_law server_now secret claims t :
  encode_room secret claims = Ok t -> iss claims = ISSUER -> server_now < exp claims ->
  demo_jwt_decode server_now secret t = Ok claims.
Proof.
  intros [= <-] _ Hexp. unfold demo_jwt_decode. rewrite open_sealed.
  by destruct (Z.ltb_spec server_now (exp claims)); [|lia].
Qed.

Lemma demo_encode_total secret claims : exists t, encode_room secret claims = Ok t.
Proof. by eexists. Qed.

(** ** A server and its requests *)

Definition demo_state : AppState := mkAppState "k" 600 3600 "session" true.

Definition demo_headers (user : string) : Headers :=
  mkHeaders (Some ("lang=en; session=" +:+ seal "k" (mkSessionClaims user user 4000 0 ISSUER))) None.

#[export] Existing Instance demo_wire.

Definition demo_step := api_step map_to_list map_to_list demo_state.

(** A request with its steps, all of them served. *)
Definition request (id now : Z) (user : string) (e : Endpoint) (steps : nat) : list api_event :=
  Arrive id now (demo_headers user) e :: replicate steps (Step id Served now).

(** Alice opens a room; Bob joins, is admitted, and asks for his status. *)
Definition demo_evs : list api_event :=
  request 1 1000000 "alice" (JoinMeeting "r" (Some (Some "Alice"%string))) 8 ++
  request 2 2000000 "bob" (JoinMeeting "r" None) 5 ++
  request 3 3000000 "alice" (AdmitParticipant "r" "bob") 5 ++
  request 4 4000000 "bob" (GetMyStatus "r") 4.

Definition status_reply (e : api_output) : option (string * Endpoint * ParticipantStatusResponse) :=
  match e with Replied u ep (Ok (BStatus r)) => Some (u, ep, r) | _ => None end.

Lemma status_reply_in (log : list api_output) l u ep r :
  omap status_reply log = l -> (u, ep, r) ∈ l -> Replied u ep (Ok (BStatus r)) ∈ log.
Proof.
  intros <- Hin. apply list_elem_of_omap in Hin as (e & He & Hs).
  destruct e as [| |u' ep' [[]|]|]; simplify_eq/=; done.
Qed.
