(* ===== verification/MeetingApiProps.v ===== *)
(** * Properties of the meeting API

    A small program logic for handlers whose queries interleave with those of other
    requests: [wp w p Q] says that [p], started in the world [w] (the tables and what has
    happened so far), only makes queries that are authorised, and ends with a reply
    that satisfies [Q], whatever other requests do in between. *)
From S2P Require Import Prelude Protocol TokenValidator Media MeetingDb MeetingApi DemoMeeting.

(** ** Worlds *)

Record world : Type := mkWorld {
  w_db : Db;
  w_log : list api_output;
}.

(** What no request ever changes: a meeting keeps its room and its creator. *)
Definition evolves (d d' : Db) : Prop :=
  forall id r, db_meetings d !! id = Some r ->
  exists r', db_meetings d' !! id = Some r' /\ mr_room_id r' = mr_room_id r /\
    mr_creator_id r' = mr_creator_id r /\ mr_id r' = mr_id r.

Definition extends (w w' : world) : Prop :=
  evolves (w_db w) (w_db w') /\ (forall e, e ∈ w_log w -> e ∈ w_log w').

(** The meeting [id] exists, in [room], made by [creator]. *)
Definition meeting_of (w : world) (id : Z) (room creator : string) : Prop :=
  exists r, db_meetings (w_db w) !! id = Some r /\ mr_room_id r = room /\ mr_creator_id r = Some creator.

Definition executed (w : world) (user : string) {X : Type} (q : query X) : Prop :=
  exists o r, o <> LostBefore /\ Executed user o (Call q r) ∈ w_log w.

(** The creator of a meeting has opened its waiting room altogether, or for [user]. *)
Definition opened (w : world) (room creator : string) : Prop :=
  executed w creator (QUpdateWaitingRoom room creator false) \/
  exists pw attendees, executed w creator (QCreate room creator pw attendees false).

Definition let_in (w : world) (id : Z) (room creator user : string) : Prop :=
  executed w creator (QAdmit id user) \/ executed w creator (QAdmitAll id) \/ opened w room creator.

(** ** The invariant *)

Record world_ok (w : world) : Prop := mkWorldOk {
  ok_meeting : forall id r, db_meetings (w_db w) !! id = Some r ->
    mr_id r = id /\ 0 < id < db_meeting_seq (w_db w) /\ is_Some (mr_creator_id r) /\
    (mr_waiting_room_enabled r = false ->
     forall c, mr_creator_id r = Some c -> opened w (mr_room_id r) c);
  ok_seq : 0 < db_meeting_seq (w_db w);
  ok_unique : forall id id' r r', db_meetings (w_db w) !! id = Some r -> db_meetings (w_db w) !! id' = Some r' ->
    mr_room_id r = mr_room_id r' -> mr_deleted_at r = None -> mr_deleted_at r' = None -> id = id';
  ok_participant : forall k p, db_participants (w_db w) !! k = Some p ->
    k = (pt_meeting_id p, pt_user_id p) /\
    exists m, db_meetings (w_db w) !! pt_meeting_id p = Some m /\
      (pt_is_host p = true -> mr_creator_id m = Some (pt_user_id p)) /\
      (pt_status p = Waiting -> mr_waiting_room_enabled m = true) /\
      (pt_status p = IsAdmitted -> mr_creator_id m = Some (pt_user_id p) \/
       forall c, mr_creator_id m = Some c -> let_in w (pt_meeting_id p) (mr_room_id m) c (pt_user_id p));
}.

(** ** What a user may ask of the database *)

Definition creator_of (w : world) (id : Z) (user : string) : Prop := exists room, meeting_of w id room user.

Definition authorised (w : world) (user : string) {X : Type} (q : query X) : Prop :=
  match q with
  | QCreate _ creator _ _ _ => creator = user
  | QSoftDelete _ creator | QUpdateWaitingRoom _ creator _ => creator = user
  | QActivate id | QSetHostDisplayName id _ => creator_of w id user
  | QUpsertHost id u _ => u = user /\ creator_of w id user
  | QJoinAttendee id u _ => u = user /\ exists room c, meeting_of w id room c /\ c <> user
  | QAdmit id _ | QAdmitAll id | QReject id _ => creator_of w id user
  | QLeave id u => u = user
  | _ => True
  end.

Section Logic.
Context (scan_participants : gmap (Z * string) ParticipantRow -> list ((Z * string) * ParticipantRow)).
Context (scan_meetings : gmap Z MeetingRow -> list (Z * MeetingRow)).

Definition after_query (w : world) (user : string) (o : outcome) (now : Z) {X : Type} (q : query X)
    : world * result X SqlError :=
  let '(d, r) := attempt scan_participants scan_meetings o now q (w_db w) in
  (mkWorld d (w_log w ++ [Executed user o (Call q r)]), r).

Fixpoint wp {R : Type} (user : string) (w : world) (p : prog R) (Q : world -> R -> Prop) : Prop :=
  match p with
  | Ret r => Q w r
  | Sql q k =>
      authorised w user q /\
      forall w1 o now, extends w w1 -> world_ok w1 ->
        let '(w2, r) := after_query w1 user o now q in
        world_ok w2 -> extends w1 w2 -> wp user w2 (k r) Q
  | Publish _ _ k => wp user w k Q
  | Clock k => forall now, wp user w (k now) Q
  end.

Lemma evolves_refl d : evolves d d.
Proof. intros id r Hr. by exists r. Qed.

Lemma evolves_trans d d' d'' : evolves d d' -> evolves d' d'' -> evolves d d''.
Proof.
  intros H1 H2 id r Hr. destruct (H1 id r Hr) as (r' & Hr' & E1 & E2 & E3).
  destruct (H2 id r' Hr') as (r'' & Hr'' & E4 & E5 & E6). exists r''. by rewrite E4, E5, E6.
Qed.

Lemma extends_refl w : extends w w.
Proof. split; [apply evolves_refl | done]. Qed.

Lemma extends_trans w w' w'' : extends w w' -> extends w' w'' -> extends w w''.
Proof. intros [] []. split; [by eapply evolves_trans | auto]. Qed.

Lemma meeting_of_mono w w' id room c : extends w w' -> meeting_of w id room c -> meeting_of w' id room c.
Proof.
  intros [He _] (r & Hr & <- & Hc). destruct (He id r Hr) as (r' & Hr' & E1 & E2 & _).
  exists r'. by rewrite E1, E2.
Qed.

Lemma executed_mono w w' u {X} (q : query X) : extends w w' -> executed w u q -> executed w' u q.
Proof. intros [_ Hl] (o & r & Ho & Hin). exists o, r. auto. Qed.

Lemma opened_mono w w' room c : extends w w' -> opened w room c -> opened w' room c.
Proof.
  intros He [H|(pw & a & H)]; [left | right; exists pw, a]; by eapply executed_mono.
Qed.

Lemma let_in_mono w w' id room c u : extends w w' -> let_in w id room c u -> let_in w' id room c u.
Proof.
  intros He [H|[H|H]]; [left | right; left | right; right];
    eauto using executed_mono, opened_mono.
Qed.

Lemma authorised_mono w w' u {X} (q : query X) : extends w w' -> authorised w u q -> authorised w' u q.
Proof.
  intros He. destruct q; simpl; try done;
    try (intros [room Hm]; exists room; by eapply meeting_of_mono).
  - intros [-> [room Hm]]. split; [done|]. exists room. by eapply meeting_of_mono.
  - intros [-> (room & c & Hm & Hc)]. split; [done|]. exists room, c. split; [by eapply meeting_of_mono | done].
Qed.

Lemma wp_mono {R} u w w' (p : prog R) Q : extends w w' ->
  (forall w1 w2 r, extends w1 w2 -> Q w1 r -> Q w2 r) -> wp u w p Q -> wp u w' p Q.
Proof.
  intros He HQ. revert w w' He. induction p as [r|X q k IH|s b k IH|k IH]; intros w w' He; simpl.
  - by apply HQ.
  - intros [Ha Hk]. split; [by eapply authorised_mono|].
    intros w1 o now He1. apply Hk. by eapply extends_trans.
  - by apply IH.
  - intros Hk now. eapply IH; eauto.
Qed.

Lemma wp_conseq {R} u w (p : prog R) (Q Q' : world -> R -> Prop) :
  (forall w' r, extends w w' -> Q w' r -> Q' w' r) -> wp u w p Q -> wp u w p Q'.
Proof.
  revert w. induction p as [r|X q k IH|s b k IH|k IH]; intros w HQ; simpl.
  - apply HQ, extends_refl.
  - intros [Ha Hk]. split; [done|]. intros w1 o now He Hok. specialize (Hk w1 o now He Hok).
    destruct (after_query w1 u o now q) as [w2 r]. intros Hok2 He2.
    apply IH; [|by apply Hk]. intros w' r' He'. apply HQ. by do 2 (eapply extends_trans; [done|]).
  - by apply IH.
  - intros Hk now. apply IH; auto.
Qed.

Lemma wp_bind {A B} u w (p : prog A) (k : A -> prog B) Q :
  wp u w p (fun w' a => wp u w' (k a) Q) -> wp u w (prog_bind p k) Q.
Proof.
  revert w. induction p as [r|X q c IH|s b c IH|c IH]; intros w; simpl; [done| |apply IH|].
  - intros [Ha Hk]. split; [done|]. intros w1 o now He Hok. specialize (Hk w1 o now He Hok).
    destruct (after_query w1 u o now q) as [w2 r]. intros Hok2 He2. apply IH; auto.
  - intros Hk now. apply IH, Hk.
Qed.

(** Errors end a handler with a reply that carries nothing. *)
Definition wpt {A : Type} (u : string) (w : world) (p : prog (result A AppError)) (Q : world -> A -> Prop) : Prop :=
  wp u w p (fun w' r => match r with Ok a => Q w' a | Err _ => True end).

Lemma wpt_bind {A B} u w (p : prog (result A AppError)) (k : A -> prog (result B AppError)) Q :
  wpt u w p (fun w' a => wpt u w' (k a) Q) -> wpt u w (try_bind p k) Q.
Proof.
  intros H. unfold wpt, try_bind. apply wp_bind. revert H. apply wp_conseq.
  by intros w' [a|e] _ H.
Qed.

Lemma wpt_conseq {A} u w (p : prog (result A AppError)) (Q Q' : world -> A -> Prop) :
  (forall w' r, extends w w' -> Q w' r -> Q' w' r) -> wpt u w p Q -> wpt u w p Q'.
Proof. intros H. apply wp_conseq. intros w' [a|e]; eauto. Qed.

Lemma wpt_ret {A} u w (a : A) (Q : world -> A -> Prop) : Q w a -> wpt u w (Ret (Ok a)) Q.
Proof. done. Qed.

Lemma wpt_err {A} u w (e : AppError) (Q : world -> A -> Prop) : wpt u w (Ret (Err e)) Q.
Proof. done. Qed.
End Logic.

#[global] Arguments wpt : simpl never.

(** ** Authorised queries keep the invariant *)

Lemma grown_log_ok w log : world_ok w -> (forall e, e ∈ w_log w -> e ∈ log) -> world_ok (mkWorld (w_db w) log).
Proof.
  intros [Hm Hs Hu Hp] Hl.
  assert (extends w (mkWorld (w_db w) log)) as He by (split; [apply evolves_refl | done]).
  constructor; [| exact Hs | exact Hu |]; simpl.
  - intros id r Hr. destruct (Hm id r Hr) as (? & ? & ? & Ho). split_and!; try done; try lia.
    intros Hd c Hc. eapply opened_mono; eauto.
  - intros k p Hk. destruct (Hp k p Hk) as (? & m & ? & ? & ? & Ha). split; [done|].
    exists m. split_and!; [done..|]. intros Hs'. destruct (Ha Hs') as [|Hin]; [by left|right].
    intros c Hc. eapply let_in_mono; eauto.
Qed.

(** Same log, other tables. *)
Lemma same_log_let_in w d id room c u : let_in w id room c u -> let_in (mkWorld d (w_log w)) id room c u.
Proof. done. Qed.

Section Keeps.
Context (log : list api_output).
Notation at_ d := (mkWorld d log).

Definition keeps_identity (f : MeetingRow -> MeetingRow) : Prop :=
  forall r, mr_id (f r) = mr_id r /\ mr_room_id (f r) = mr_room_id r /\ mr_creator_id (f r) = mr_creator_id r /\
    (mr_deleted_at (f r) = None -> mr_deleted_at r = None).

Lemma update_meeting_evolves now id f d : keeps_identity f -> evolves d (update_meeting_row now id f d).
Proof.
  intros Hf id' r Hr. destruct (decide (id' = id)) as [->|Hne].
  - exists ((f r) <| mr_updated_at := now |>). destruct (Hf r) as (? & ? & ? & _).
    split_and!; [|done..]. simpl. by rewrite lookup_alter_eq, Hr.
  - exists r. split_and!; [|done..]. simpl. by rewrite lookup_alter_ne.
Qed.

Lemma update_meeting_ok now id f d :
  keeps_identity f ->
  (forall r c, db_meetings d !! id = Some r -> mr_waiting_room_enabled (f r) = false ->
     mr_creator_id r = Some c -> opened (at_ d) (mr_room_id r) c) ->
  (forall r u p, db_meetings d !! id = Some r -> db_participants d !! (id, u) = Some p ->
     pt_status p = Waiting -> mr_waiting_room_enabled (f r) = true) ->
  world_ok (at_ d) -> world_ok (at_ (update_meeting_row now id f d)).
Proof.
  intros Hf Ho Hw [Hm Hs Hu Hp]. cbn [w_db] in Hm, Hs, Hu, Hp. set (d' := update_meeting_row now id f d).
  assert (forall id' r', db_meetings d' !! id' = Some r' ->
    exists r, db_meetings d !! id' = Some r /\
      (r' = r \/ (id' = id /\ r' = (f r) <| mr_updated_at := now |>))) as Hinv.
  { intros id' r'. unfold d'. simpl. destruct (decide (id' = id)) as [->|Hne].
    - rewrite lookup_alter_eq. destruct (db_meetings d !! id) as [r|]; simpl; [|done].
      intros [= <-]. eauto.
    - rewrite lookup_alter_ne by done. eauto. }
  constructor; simpl.
  - intros id' r' Hr'. destruct (Hinv id' r' Hr') as (r & Hr & Hcase).
    destruct (Hm id' r Hr) as (E1 & E2 & E3 & E4).
    destruct Hcase as [->|[-> ->]]; [tauto|].
    destruct (Hf r) as (F1 & F2 & F3 & F4). simpl. rewrite F1, F2, F3.
    split; [done|]. split; [done|]. split; [done|]. intros Hd c Hc. by eapply Ho.
  - exact Hs.
  - intros i j ri rj Hi Hj Hroom Hdi Hdj.
    destruct (Hinv i ri Hi) as (si & Hsi & Hci), (Hinv j rj Hj) as (sj & Hsj & Hcj).
    eapply (Hu i j si sj); try done.
    + destruct (Hf si) as (_ & Fi & _), (Hf sj) as (_ & Fj & _).
      destruct Hci as [->|[_ ->]], Hcj as [->|[_ ->]]; simpl in *; congruence.
    + destruct Hci as [->|[_ ->]]; [done|]. by apply (Hf si).
    + destruct Hcj as [->|[_ ->]]; [done|]. by apply (Hf sj).
  - intros k p Hk. destruct (Hp k p Hk) as (Ek & m & Em & E1 & E2 & E3). split; [done|].
    unfold d'. simpl. destruct (decide (pt_meeting_id p = id)) as [E|Hne].
    + rewrite E in *. rewrite lookup_alter_eq, Em. simpl. eexists. split; [done|].
      destruct (Hf m) as (F1 & F2 & F3 & F4). simpl. rewrite F2, F3. split_and!; [done| |done].
      intros Hst. eapply Hw; [done| |done]. by rewrite Ek in Hk.
    + rewrite lookup_alter_ne by done. exists m. by split_and!.
Qed.

Lemma put_participant_ok p d m :
  db_meetings d !! pt_meeting_id p = Some m ->
  (pt_is_host p = true -> mr_creator_id m = Some (pt_user_id p)) ->
  (pt_status p = Waiting -> mr_waiting_room_enabled m = true) ->
  (pt_status p = IsAdmitted -> mr_creator_id m = Some (pt_user_id p) \/
     forall c, mr_creator_id m = Some c -> let_in (at_ d) (pt_meeting_id p) (mr_room_id m) c (pt_user_id p)) ->
  world_ok (at_ d) -> world_ok (at_ (put_participant p d)).
Proof.
  intros Hm Hh Hw Ha [Hm' Hs Hu Hp]. constructor; simpl; [exact Hm' | exact Hs | exact Hu |].
  intros k q Hk. destruct (decide (k = (pt_meeting_id p, pt_user_id p))) as [->|Hne].
  - rewrite lookup_insert_eq in Hk. simplify_eq. split; [done|]. exists m. by split_and!.
  - rewrite lookup_insert_ne in Hk by done. exact (Hp k q Hk).
Qed.

(** A row of the table satisfies the conditions of [put_participant_ok]. *)
Lemma participant_ok d k p : world_ok (at_ d) -> db_participants d !! k = Some p ->
  k = (pt_meeting_id p, pt_user_id p) /\ exists m, db_meetings d !! pt_meeting_id p = Some m /\
    (pt_is_host p = true -> mr_creator_id m = Some (pt_user_id p)).
Proof.
  intros Hok Hk. destruct (ok_participant _ Hok k p Hk) as (E & m & Em & E1 & _). split; [done|]. by exists m.
Qed.

Lemma admit_waiting_ok now id d :
  (forall m c u, db_meetings d !! id = Some m -> mr_creator_id m = Some c ->
     let_in (at_ d) id (mr_room_id m) c u) ->
  world_ok (at_ d) -> world_ok (at_ (admit_waiting now id d)).
Proof.
  intros Hin [Hm Hs Hu Hp]. cbn [w_db] in Hm, Hs, Hu, Hp. constructor; simpl; [exact Hm | exact Hs | exact Hu |].
  intros k q. rewrite lookup_fmap. destruct (db_participants d !! k) as [p|] eqn:Ek; simpl; [|done].
  intros [= <-]. destruct (Hp k p Ek) as (E & m & Em & E1 & E2 & E3).
  destruct (decide (waiting_in id p)) as [[Ei Es]|]; [|by eauto 6].
  simpl. split; [done|]. exists m. split_and!; [done|done|done|].
  intros _. right. intros c Hc. rewrite Ei in *. by eapply Hin.
Qed.

Lemma sequence_ok d n : 0 < db_meeting_seq d -> world_ok (at_ d) ->
  world_ok (at_ (d <| db_participant_seq := n |>)) /\
  world_ok (at_ (d <| db_meeting_seq := db_meeting_seq d + 1 |>)).
Proof.
  intros H0 [Hm Hs Hu Hp]. split; constructor; simpl; try done; try lia.
  intros id r Hr. destruct (Hm id r Hr) as (? & ? & ? & ?). split_and!; try done; simpl in *; lia.
Qed.
Lemma same_meetings_evolve d d' : db_meetings d' = db_meetings d -> evolves d d'.
Proof. intros E id r Hr. exists r. by rewrite E. Qed.

(** What an upsert may write into the row of [(id, u)]. *)
Definition row_allowed (d : Db) (id : Z) (u : string) (f : ParticipantRow -> ParticipantRow) : Prop :=
  forall r, pt_meeting_id (f r) = pt_meeting_id r /\ pt_user_id (f r) = pt_user_id r /\
    forall m, db_meetings d !! id = Some m -> (pt_is_host r = true -> mr_creator_id m = Some u) ->
      (pt_is_host (f r) = true -> mr_creator_id m = Some u) /\
      (pt_status (f r) = Waiting -> mr_waiting_room_enabled m = true) /\
      (pt_status (f r) = IsAdmitted -> mr_creator_id m = Some u \/
         forall c, mr_creator_id m = Some c -> let_in (at_ d) id (mr_room_id m) c u).

Lemma upsert_ok now id u dn fresh existing d :
  row_allowed d id u fresh -> row_allowed d id u existing -> world_ok (at_ d) ->
  world_ok (at_ (upsert now id u dn fresh existing d).1) /\
  db_meetings (upsert now id u dn fresh existing d).1 = db_meetings d.
Proof.
  intros Hf He Hok. pose proof (ok_seq _ Hok) as Hs. cbn [w_db] in Hs.
  destruct (sequence_ok d (db_participant_seq d + 1) Hs Hok) as [Hok' _].
  unfold upsert. destruct (_ <=? _); [done|]. destruct (negb _); [done|].
  destruct (db_participants d !! (id, u)) as [row|] eqn:Er.
  - split; [|done]. destruct (ok_participant _ Hok _ _ Er) as (Ek & m & Em & E1 & _). simplify_eq.
    destruct (He row) as (F1 & F2 & F3). destruct (F3 m Em E1) as (G1 & G2 & G3).
    eapply (put_participant_ok _ _ m); [..|done]; simpl; rewrite ?F1, ?F2; done.
  - destruct (db_meetings d !! id) as [m|] eqn:Em; [|done]. split; [|done].
    match goal with |- context [fresh ?r] => destruct (Hf r) as (F1 & F2 & F3) end.
    destruct (F3 m Em) as (G1 & G2 & G3); [done|]. simpl in F1, F2.
    eapply (put_participant_ok _ _ m); [..|done]; rewrite ?F1, ?F2; done.
Qed.

Lemma update_where_ok now id u from f d :
  row_allowed d id u f -> world_ok (at_ d) ->
  world_ok (at_ (update_where now id u from f d).1) /\
  db_meetings (update_where now id u from f d).1 = db_meetings d.
Proof.
  intros Hf Hok. unfold update_where. destruct (db_participants d !! (id, u)) as [row|] eqn:Er; [|done].
  destruct (decide _); [|done]. split; [|done].
  destruct (ok_participant _ Hok _ _ Er) as (Ek & m & Em & E1 & _). simplify_eq.
  destruct (Hf row) as (F1 & F2 & F3). destruct (F3 m Em E1) as (G1 & G2 & G3).
  eapply (put_participant_ok _ _ m); [..|done]; simpl; rewrite ?F1, ?F2; done.
Qed.

Lemma found_live d room m : get_by_room_id room d = Some m -> m ∈ live_rows room d.
Proof.
  unfold get_by_room_id. destruct (live_rows room d); [done|]. simpl. intros [= ->]. by left.
Qed.

Lemma live_row_found d room r : world_ok (at_ d) -> r ∈ live_rows room d ->
  db_meetings d !! mr_id r = Some r /\ mr_room_id r = room /\ mr_deleted_at r = None.
Proof.
  intros Hok Hr. apply list_elem_of_filter in Hr as [[<- Hd] Hr].
  apply list_elem_of_fmap in Hr as ([id r'] & -> & Hin). simpl in *. apply elem_of_map_to_list in Hin.
  destruct (ok_meeting _ Hok id r' Hin) as (<- & _). done.
Qed.

Lemma update_owned_cases now room c f d : world_ok (at_ d) ->
  update_owned now room c f d = (d, None) \/
  exists r, db_meetings d !! mr_id r = Some r /\ mr_room_id r = room /\ mr_creator_id r = Some c /\
    update_owned now room c f d =
      (update_meeting_row now (mr_id r) f d, Some ((f r) <| mr_updated_at := now |>)).
Proof.
  intros Hok. unfold update_owned. destruct (filter _ _) as [|r l] eqn:E; [by left|right].
  assert (r ∈ filter (owned c) (live_rows room d)) as Hr by (rewrite E; by left).
  apply list_elem_of_filter in Hr as [[_ Hc] Hr]. apply live_row_found in Hr as (Hr & Hroom & _); [|done].
  exists r. split_and!; [done..|]. simpl. by rewrite lookup_alter_eq, Hr.
Qed.
End Keeps.

Lemma create_ok log now room c pw attendees enabled d :
  (enabled = false -> opened (mkWorld d log) room c) -> world_ok (mkWorld d log) ->
  world_ok (mkWorld (create_with_options now room c pw attendees enabled d).1 log) /\
  evolves d (create_with_options now room c pw attendees enabled d).1.
Proof.
  intros Ho Hok. pose proof (ok_seq _ Hok) as Hs. cbn [w_db] in Hs.
  destruct (sequence_ok log d 0 Hs Hok) as [_ Hok'].
  unfold create_with_options. do 3 (case_match; [split; [first [exact Hok | exact Hok'] | by apply same_meetings_evolve]|]).
  case_bool_decide as Hlive; [split; [done | by apply same_meetings_evolve]|].
  pose proof (ok_meeting _ Hok) as Hm. cbn [w_db] in Hm.
  assert (db_meetings d !! db_meeting_seq d = None) as Hfresh.
  { destruct (db_meetings d !! db_meeting_seq d) as [r|] eqn:E; [|done]. apply Hm in E. lia. }
  assert (forall id r, db_meetings d !! id = Some r -> mr_room_id r = room -> mr_deleted_at r <> None) as Hnone.
  { intros id r Hr Hroom Hd. assert (r ∈ live_rows room d) as Hin; [|by rewrite Hlive in Hin; inversion Hin].
    apply list_elem_of_filter. split; [by split|]. apply list_elem_of_fmap. exists (id, r).
    split; [done|]. by apply elem_of_map_to_list. }
  split.
  - constructor; simpl.
    + intros id r. destruct (decide (id = db_meeting_seq d)) as [->|Hne].
      * rewrite lookup_insert_eq. intros [= <-]. simpl. split; [done|]. split; [lia|]. split; [done|].
        intros He c' [= <-]. auto.
      * rewrite lookup_insert_ne by done. intros Hr. destruct (Hm id r Hr) as (? & ? & ? & ?).
        split; [done|]. split; [lia|]. split; done.
    + lia.
    + intros i j ri rj. destruct (decide (i = db_meeting_seq d)) as [->|Hi], (decide (j = db_meeting_seq d)) as [->|Hj];
        rewrite ?lookup_insert_eq, ?lookup_insert_ne by done; intros Hri Hrj; simplify_eq/=; try done.
      * intros Heq _ Hd. by destruct (Hnone j rj).
      * intros Heq Hd. by destruct (Hnone i ri).
      * eapply (ok_unique _ Hok); done.
    + intros k p Hk. destruct (ok_participant _ Hok k p Hk) as (Ek & m & Em & Hrest). split; [done|].
      exists m. split; [|done]. cbn [w_db] in Em. rewrite lookup_insert_ne; [done|]. intros E.
      rewrite <- E in Em. congruence.
  - intros id r Hr. exists r. split; [|done]. simpl. rewrite lookup_insert_ne; [done|]. intros E. congruence.
Qed.

Lemma toggle_ok log now room c enabled d :
  (enabled = false -> opened (mkWorld d log) room c) -> world_ok (mkWorld d log) ->
  world_ok (mkWorld (update_waiting_room_enabled now room c enabled d).1 log) /\
  evolves d (update_waiting_room_enabled now room c enabled d).1.
Proof.
  intros Ho Hok. unfold update_waiting_room_enabled.
  set (f := fun r : MeetingRow => r <| mr_waiting_room_enabled := enabled |>).
  assert (keeps_identity f) as Hf by done.
  destruct (update_owned_cases log now room c f d Hok) as [->|(r & Hr & Hroom & Hc & ->)];
    [split; [done | apply evolves_refl]|].
  cbn [fst snd]. change (mr_id ((f r) <| mr_updated_at := now |>)) with (mr_id r).
  destruct enabled; simpl negb; cbv iota.
  - split; [|by apply update_meeting_evolves]. apply update_meeting_ok; try done.
  - split; [|by apply update_meeting_evolves].
    change (admit_waiting now (mr_id r) (update_meeting_row now (mr_id r) f d))
      with (update_meeting_row now (mr_id r) f (admit_waiting now (mr_id r) d)).
    apply update_meeting_ok; [done| | |].
    + simpl. intros m c' Hm _ Hc'. rewrite Hr in Hm. simplify_eq. by apply Ho.
    + intros m u p _ Hp Hst. simpl in Hp. rewrite lookup_fmap in Hp.
      destruct (db_participants d !! (mr_id r, u)) as [p'|] eqn:Ep; simpl in Hp; [|done]. simplify_eq.
      destruct (ok_participant _ Hok _ _ Ep) as (Ek & _). simplify_eq.
      destruct (decide (waiting_in (mr_id r) p')) as [|Hn]; [done|]. destruct Hn. split; [congruence | done].
    + apply admit_waiting_ok; [|done]. intros m c' u Hm Hc'. rewrite Hr in Hm. simplify_eq.
      right. right. by apply Ho.
Qed.

(** An update that leaves the waiting room setting alone. *)
Lemma same_setting_ok log now id f d :
  keeps_identity f -> (forall r, mr_waiting_room_enabled (f r) = mr_waiting_room_enabled r) ->
  world_ok (mkWorld d log) ->
  world_ok (mkWorld (update_meeting_row now id f d) log) /\ evolves d (update_meeting_row now id f d).
Proof.
  intros Hf Hs Hok. split; [|by apply update_meeting_evolves]. apply update_meeting_ok; try done.
  - intros r c Hr. rewrite Hs. destruct (ok_meeting _ Hok _ _ Hr) as (_ & _ & _ & Ho). auto.
  - intros r u p Hr Hp Hst. rewrite Hs.
    destruct (ok_participant _ Hok _ _ Hp) as (Ek & m & Em & _ & Hw & _).
    injection Ek as -> ->. cbn [w_db] in Em. rewrite Hr in Em. injection Em as ->. auto.
Qed.

Lemma meetings_kept_ok log d d' :
  world_ok (mkWorld d' log) /\ db_meetings d' = db_meetings d -> world_ok (mkWorld d' log) /\ evolves d d'.
Proof. intros [H E]. split; [done | by apply same_meetings_evolve]. Qed.

Lemma join_ok log now id u dn d : world_ok (mkWorld d log) ->
  world_ok (mkWorld (join_attendee now id u dn d).1 log) /\
  db_meetings (join_attendee now id u dn d).1 = db_meetings d.
Proof.
  intros Hok. unfold join_attendee. destruct (db_meetings d !! id) as [m|] eqn:Em; [|done].
  assert (forall f, (forall r, pt_meeting_id (f r) = pt_meeting_id r /\ pt_user_id (f r) = pt_user_id r /\
      pt_is_host (f r) = pt_is_host r /\
      pt_status (f r) = if mr_waiting_room_enabled m then Waiting else IsAdmitted) ->
    row_allowed log d id u f) as Hallow.
  { intros f Hf r. destruct (Hf r) as (-> & -> & -> & ->). split_and!; [done..|].
    intros m' Hm' Hh. rewrite Em in Hm'. injection Hm' as <-. split; [done|].
    destruct (ok_meeting _ Hok _ _ Em) as (_ & _ & _ & Ho).
    destruct (mr_waiting_room_enabled m); split; try done. intros _. right. intros c Hc. right. right. auto. }
  destruct (mr_waiting_room_enabled m).
  - destruct (upsert _ _ _ _ _ _ _) as [d' r] eqn:Eu. cbn [fst]. change d' with (d', r).1. rewrite <- Eu.
    apply upsert_ok; [by apply Hallow.. | done].
  - destruct (upsert _ _ _ _ _ _ _) as [d' r] eqn:Eu. cbn [fst]. change d' with (d', r).1. rewrite <- Eu.
    apply upsert_ok; [by apply Hallow.. | done].
Qed.

Section Runs.
Context {wire : Wire} {crypto : Crypto}.
Context (scan_participants : gmap (Z * string) ParticipantRow -> list ((Z * string) * ParticipantRow)).
Context (scan_meetings : gmap Z MeetingRow -> list (Z * MeetingRow)).

Notation exec := (exec scan_participants scan_meetings).
Notation after_query := (after_query scan_participants scan_meetings).

Lemma exec_ok log user now d {X} (q : query X) :
  authorised (mkWorld d log) user q -> executed (mkWorld d log) user q -> world_ok (mkWorld d log) ->
  world_ok (mkWorld (exec now q d).1 log) /\ evolves d (exec now q d).1.
Proof.
  intros Ha He Hok.
  assert (world_ok (mkWorld d log) /\ evolves d d) as Hsame by (split; [done | apply evolves_refl]).
  assert (forall id room, meeting_of (mkWorld d log) id room user ->
    forall m, db_meetings d !! id = Some m -> mr_creator_id m = Some user) as Hcr.
  { intros id room (m & Hm & _ & Hc) m' Hm'. simpl in Hm. congruence. }
  destruct q; simpl in Ha |- *; try exact Hsame.
  - subst. apply create_ok; [|done]. intros ->. right. by exists password_hash, attendees.
  - subst. destruct (update_owned_cases log now room_id user (fun r => r <| mr_deleted_at := Some now |>) d Hok)
      as [E|(r & Hr & Hroom & Hc & E)]; unfold soft_delete; rewrite E; [done|].
    by apply same_setting_ok.
  - by apply same_setting_ok.
  - by apply same_setting_ok.
  - unfold set_host_display_name. case_match; [done|]. by apply same_setting_ok.
  - subst. apply toggle_ok; [|done]. intros ->. by left.
  - destruct Ha as [-> [room Hm]]. apply meetings_kept_ok, upsert_ok; try done;
      intros r; split_and!; try done; simpl; intros m Em _; split_and!; try done; eauto.
  - destruct Ha as [-> _]. by apply meetings_kept_ok, join_ok.
  - destruct Ha as [room Hm]. apply meetings_kept_ok, update_where_ok; [|done].
    intros r. split_and!; [done..|]. simpl. intros m Em Hh. split_and!; [done..|]. intros _. right.
    intros c Hc. left. rewrite (Hcr _ _ Hm m Em) in Hc. by injection Hc as <-.
  - destruct Ha as [room Hm]. split; [|by apply same_meetings_evolve]. apply admit_waiting_ok; [|done].
    intros m c u Em Hc. right. left. rewrite (Hcr _ _ Hm m Em) in Hc. by injection Hc as <-.
  - apply meetings_kept_ok, update_where_ok; [|done].
    intros r. split_and!; [done..|]. simpl. intros m Em Hh. by split_and!.
  - apply meetings_kept_ok, update_where_ok; [|done].
    intros r. split_and!; [done..|]. simpl. intros m Em Hh. by split_and!.
Qed.

Lemma after_query_ok w user o now {X} (q : query X) :
  authorised w user q -> world_ok w -> world_ok (after_query w user o now q).1 /\
  extends w (after_query w user o now q).1.
Proof.
  intros Ha Hok. unfold after_query, MeetingApiProps.after_query.
  destruct (attempt _ _ o now q (w_db w)) as [d r] eqn:E. simpl.
  set (log := w_log w ++ _).
  assert (forall e, e ∈ w_log w -> e ∈ log) as Hl by (intros e He; apply elem_of_app; by left).
  pose proof (grown_log_ok w log Hok Hl) as Hok'.
  assert (extends w (mkWorld (w_db w) log)) as Hext by (split; [apply evolves_refl | done]).
  assert (o <> LostBefore -> world_ok (mkWorld (exec now q (w_db w)).1 log) /\
    evolves (w_db w) (exec now q (w_db w)).1) as Hexec.
  { intros Ho. eapply exec_ok; [by eapply authorised_mono| |done]. exists o, r. split; [done|].
    apply elem_of_app. right. by left. }
  destruct o; simpl in E.
  - destruct Hexec as [H1 H2]; [done|]. rewrite E in H1, H2. split; [done | by split].
  - simplify_eq. done.
  - simplify_eq. destruct Hexec as [H1 H2]; [done|]. split; [done | by split].
Qed.

(** ** Rules for handlers *)

Notation wp := (wp scan_participants scan_meetings).
Notation wpt := (wpt scan_participants scan_meetings).

Lemma wpt_step {A B} u w (p : prog (result A AppError)) (k : A -> prog (result B AppError)) P Q :
  wpt u w p P -> (forall w' a, extends w w' -> P w' a -> wpt u w' (k a) Q) -> wpt u w (try_bind p k) Q.
Proof. intros Hp Hk. apply wpt_bind. revert Hp. apply wpt_conseq. eauto. Qed.

Lemma wpt_sql {X B} u w (q : query X) (f : SqlError -> AppError) (k : X -> prog (result B AppError)) Q :
  authorised w u q ->
  (forall w1 w2 now x, extends w w1 -> extends w w2 -> world_ok w1 -> world_ok w2 ->
     exec now q (w_db w1) = (w_db w2, Ok x) -> wpt u w2 (k x) Q) ->
  wpt u w (try_bind (Sql q (fun r => Ret (map_err f r))) k) Q.
Proof.
  intros Ha Hk. apply wpt_bind. split; [done|]. intros w1 o now He Hok.
  destruct (after_query w1 u o now q) as [w2 r] eqn:E. intros Hok2 He2.
  destruct r as [x|e]; simpl; [|done].
  unfold after_query, MeetingApiProps.after_query in E.
  destruct (attempt _ _ o now q (w_db w1)) as [d r] eqn:Ea. injection E as <- ->.
  eapply (Hk w1 _ now); eauto using extends_trans. destruct o; simplify_eq/=; done.
Qed.

Lemma wpt_ask {X B} u w (q : query X) (k : X -> prog (result B AppError)) Q :
  authorised w u q ->
  (forall w1 w2 now x, extends w w1 -> extends w w2 -> world_ok w1 -> world_ok w2 ->
     exec now q (w_db w1) = (w_db w2, Ok x) -> wpt u w2 (k x) Q) ->
  wpt u w (try_bind (ask q) k) Q.
Proof. apply wpt_sql. Qed.

(** A query whose result does not matter. *)
Lemma wpt_ask_ {X B} u w (q : query X) (k : X -> prog (result B AppError)) Q :
  authorised w u q -> (forall w' x, extends w w' -> world_ok w' -> wpt u w' (k x) Q) ->
  wpt u w (try_bind (ask q) k) Q.
Proof. intros Ha Hk. apply wpt_ask; [done|]. intros. by apply Hk. Qed.

Lemma wpt_ok_or {A B} u w (o : option A) e (k : A -> prog (result B AppError)) Q :
  (forall a, o = Some a -> wpt u w (k a) Q) -> wpt u w (try_bind (ok_or o e) k) Q.
Proof. intros H. destruct o as [a|]; [by apply H | done]. Qed.

Lemma wpt_lift {A B} u w (r : result A AppError) (k : A -> prog (result B AppError)) Q :
  (forall a, r = Ok a -> wpt u w (k a) Q) -> wpt u w (try_bind (lift r) k) Q.
Proof. intros H. destruct r as [a|]; [by apply H | done]. Qed.

Lemma wpt_ret_bind {A B} u w (a : A) (k : A -> prog (result B AppError)) Q :
  wpt u w (k a) Q -> wpt u w (try_bind (Ret (Ok a)) k) Q.
Proof. done. Qed.

Lemma try_bind_ret {A} (p : prog (result A AppError)) u w Q :
  wpt u w (try_bind p (fun a => Ret (Ok a))) Q -> wpt u w p Q.
Proof.
  unfold MeetingApiProps.wpt, try_bind. revert w. induction p as [r|X q k IH|s b k IH|k IH]; intros w; simpl.
  - by destruct r.
  - intros [Ha Hk]. split; [done|]. intros w1 o now He Hok. specialize (Hk w1 o now He Hok).
    destruct (after_query w1 u o now q) as [w2 r]. intros ??. apply IH; auto.
  - apply IH.
  - intros H now. by apply IH.
Qed.

Lemma wpt_publish {B} u w nats room packet (k : prog (result B AppError)) Q :
  wpt u w k Q -> wpt u w (do! publish nats room packet;; k) Q.
Proof. unfold publish. by destruct nats. Qed.

(** The row a handler works on is a row of the table. *)
Lemma found_meeting w room m : world_ok w -> get_by_room_id room (w_db w) = Some m ->
  exists c, mr_creator_id m = Some c /\ meeting_of w (mr_id m) room c.
Proof.
  intros Hok Hin%found_live.
  destruct w as [d log]. apply (live_row_found log) in Hin as (Hr & <- & _); [|done].
  destruct (ok_meeting _ Hok _ _ Hr) as (_ & _ & [c Hc] & _). exists c. split; [done|]. by exists m.
Qed.

Lemma wpt_find_meeting {B} u w room (k : MeetingRow -> prog (result B AppError)) Q :
  (forall w' m c, extends w w' -> world_ok w' -> mr_creator_id m = Some c -> meeting_of w' (mr_id m) room c ->
     wpt u w' (k m) Q) ->
  wpt u w (try_bind (find_meeting room) k) Q.
Proof.
  intros Hk. unfold find_meeting. apply wpt_bind. apply wpt_ask; [done|].
  intros w1 w2 now x He1 He2 Hok1 Hok2 Hx. simpl in Hx. simplify_eq.
  destruct (get_by_room_id room (w_db w1)) as [m|] eqn:E; [|done].
  rewrite H in E. destruct (found_meeting w2 room m Hok2 E) as (c & Hc & Hm). by eapply wpt_ret, Hk.
Qed.

(** [require_host] passes only for the creator. *)
Lemma wpt_require_host {B} u w id (k : unit -> prog (result B AppError)) Q :
  (forall w', extends w w' -> world_ok w' -> creator_of w' id u -> wpt u w' (k tt) Q) ->
  wpt u w (try_bind (require_host id u) k) Q.
Proof.
  intros Hk. unfold require_host. apply wpt_bind. apply wpt_ask; [done|].
  intros w1 w2 now x He1 He2 Hok1 Hok2 Hx. simpl in Hx. simplify_eq.
  apply wpt_ok_or. intros p E. rewrite H in E.
  destruct (negb (bool_decide (pt_status p = IsAdmitted)) || negb (pt_is_host p)) eqn:Eb; [done|].
  apply orb_false_iff in Eb as [_ Eh%negb_false_iff].
  destruct (ok_participant _ Hok2 _ _ E) as (Ek & m & Em & Hh & _). injection Ek as -> ->.
  apply wpt_ret, Hk; [done..|]. exists (mr_room_id m), m. auto.
Qed.

(** ** Every handler is well behaved *)

Context (st : AppState).

(** What a room token for [room] in a reply to [user] is worth. *)
Definition earned (w : world) (user room token : string) : Prop :=
  exists claims id c,
    encode_room (as_jwt_secret st) claims = Ok token /\ sub claims = user /\ tc_room claims = room /\
    iss claims = ISSUER /\ room_join claims = true /\ tc_observer claims = false /\ meeting_of w id room c /\
    (TokenValidator.is_host claims = true -> c = user) /\ (c = user \/ let_in w id room c user).

(** An observer token lets [user] watch [room], and nothing else. *)
Definition watches (user room token : string) : Prop :=
  exists claims, encode_room (as_jwt_secret st) claims = Ok token /\ sub claims = user /\ tc_room claims = room /\
    iss claims = ISSUER /\ room_join claims = false /\ tc_observer claims = true /\
    TokenValidator.is_host claims = false.

Definition status_ok (w : world) (user room : string) (r : ParticipantStatusResponse) : Prop :=
  (forall t, ps_room_token r = Some t -> earned w user room t) /\
  (forall t, ps_observer_token r = Some t -> watches user room t).

(** The room that a request names. *)
Definition asked_room (e : Endpoint) : string :=
  match e with
  | GetMeeting id | DeleteMeeting id | UpdateMeeting id _ | EndMeeting id | JoinMeeting id _ | LeaveMeeting id
  | GetMyStatus id | GetParticipants id | GetWaitingRoom id | AdmitParticipant id _ | AdmitAll id
  | RejectParticipant id _ => id
  | ListMeetings _ _ | CreateMeeting _ _ => EmptyString
  end.

Definition body_ok (user rm : string) (w : world) (b : Body) : Prop :=
  match b with
  | BStatus r => status_ok w user rm r
  | BParticipants l => Forall (fun r => ps_room_token r = None) l
  | BInfo i => forall r, mi_your_status i = Some r -> ps_room_token r = None
  | BCreated _ | BList _ | BMessage _ => True
  end.

Lemma earned_mono w w' u room t : extends w w' -> earned w u room t -> earned w' u room t.
Proof.
  intros He (claims & id & c & H1 & H2 & H3 & H0 & H4 & H5 & H6 & H7 & H8).
  exists claims, id, c. split_and!; try done; [by eapply meeting_of_mono|].
  destruct H8; [by left | right; by eapply let_in_mono].
Qed.

Lemma body_ok_mono u rm w w' b : extends w w' -> body_ok u rm w b -> body_ok u rm w' b.
Proof. intros He. destruct b; try done. intros [Hr Ho]. split; [|done]. intros t Ht. eapply earned_mono; eauto. Qed.

Lemma respond_ok {A} u rm w (f : A -> Body) (h : handler A) :
  wpt u w h (fun w' a => body_ok u rm w' (f a)) -> wpt u w (respond f h) (body_ok u rm).
Proof. intros H. eapply wpt_step; [exact H|]. intros w' a _ Ha. by apply wpt_ret. Qed.

Lemma no_token_ok w u rm row : status_ok w u rm (into_participant_status row None).
Proof. done. Qed.

Lemma generate_ok {B} u w secret ttl user room host dn (k : string -> handler B) Q :
  (forall t now, encode_room secret (room_claims now ttl user room host dn) = Ok t -> wpt u w (k t) Q) ->
  wpt u w (try_bind (generate_room_token secret ttl user room host dn) k) Q.
Proof.
  intros Hk now. unfold lift. simpl.
  destruct (encode_room secret (room_claims now ttl user room host dn)) as [t|e] eqn:E; simpl; [|done].
  by eapply Hk.
Qed.

Lemma observer_ok {B} u w user room dn (k : string -> handler B) Q :
  (forall t, watches user room t -> wpt u w (k t) Q) ->
  wpt u w (try_bind (generate_observer_token (as_jwt_secret st) user room dn) k) Q.
Proof.
  intros Hk now. unfold lift. simpl.
  destruct (encode_room (as_jwt_secret st) (observer_claims now user room dn)) as [t|e] eqn:E; simpl; [|done].
  apply Hk. by exists (observer_claims now user room dn).
Qed.

Lemma meeting_info_ok u rm w row user : wpt u w (meeting_info row user) (fun w' i => body_ok u rm w' (BInfo i)).
Proof.
  unfold meeting_info. do 3 (apply wpt_ask_; [done|]; intros ? ? _ _). apply wpt_ret.
  intros r Hr. simpl in Hr. by destruct x as [p|]; simplify_eq/=.
Qed.

Ltac hstep :=
  lazymatch goal with
  | |- wpt _ _ (try_bind (find_meeting _) _) _ => apply wpt_find_meeting; intros ? ? ? ? ? ? ?
  | |- wpt _ _ (try_bind (require_host _ _) _) _ => apply wpt_require_host; intros ? ? ? ?
  | |- wpt _ _ (try_bind (lift _) _) _ => apply wpt_lift; intros ? ?
  | |- wpt _ _ (try_bind (ok_or _ _) _) _ => apply wpt_ok_or; intros ? ?
  | |- wpt _ _ (try_bind (Ret (Ok _)) _) _ => apply wpt_ret_bind
  | |- wpt _ _ (try_bind (generate_observer_token _ _ _ _) _) _ => apply observer_ok; intros ? ?
  | |- wpt _ _ (try_bind (ask _) _) _ => apply wpt_ask_; [simpl; eauto | intros ? ? ? ?]
  | |- wpt _ _ (prog_bind _ _) _ => apply wpt_publish
  end.

Lemma create_meeting_ok u rm w body random :
  wpt u w (create_meeting st u body random) (fun w' r => body_ok u rm w' (BCreated r)).
Proof.
  unfold create_meeting. hstep. destruct (_ <? _)%nat; [done|]. hstep.
  apply wpt_sql; [done|]. intros. by apply wpt_ret.
Qed.

Lemma summaries_ok u w rows (Q : world -> list MeetingSummary -> Prop) :
  (forall w' l, extends w w' -> Q w' l) -> wpt u w (summaries rows) Q.
Proof.
  revert w Q. induction rows as [|row rows IH]; intros w Q HQ; simpl; [apply wpt_ret, HQ, extends_refl|].
  do 2 hstep. eapply wpt_step; [by apply (IH _ (fun _ _ => True))|]. intros w2 l He _. apply wpt_ret, HQ.
  by do 2 (eapply extends_trans; [done|]).
Qed.

Lemma list_meetings_ok u rm w user limit offset :
  wpt u w (list_meetings user limit offset) (fun w' r => body_ok u rm w' (BList r)).
Proof.
  unfold list_meetings. do 2 hstep. eapply wpt_step; [by apply (summaries_ok _ _ _ (fun _ _ => True))|].
  intros. by apply wpt_ret.
Qed.

Lemma get_meeting_ok u rm w user id : wpt u w (get_meeting user id) (fun w' r => body_ok u rm w' (BInfo r)).
Proof. unfold get_meeting. hstep. apply meeting_info_ok. Qed.

Lemma delete_meeting_ok u rm w id : wpt u w (delete_meeting u id) (fun w' r => body_ok u rm w' (BMessage r)).
Proof. unfold delete_meeting. hstep. destruct (negb _); [done|]. hstep. by apply wpt_ret. Qed.

Lemma end_meeting_ok u rm w id : wpt u w (end_meeting_handler u id) (fun w' r => body_ok u rm w' (BInfo r)).
Proof.
  unfold end_meeting_handler. hstep. destruct (negb _); [done|]. destruct (bool_decide _); [apply meeting_info_ok|].
  do 2 hstep. apply meeting_info_ok.
Qed.

Lemma update_meeting_ok' u rm w id enabled :
  wpt u w (update_meeting u id enabled) (fun w' r => body_ok u rm w' (BInfo r)).
Proof.
  unfold update_meeting. apply wpt_bind. destruct enabled as [b|].
  - hstep. destruct x as [row|]; [apply wpt_ret, meeting_info_ok|]. by hstep.
  - hstep. destruct (negb _); [done|]. apply wpt_ret, meeting_info_ok.
Qed.

Lemma leave_meeting_ok u rm w id : wpt u w (leave_meeting u id) (fun w' r => body_ok u rm w' (BStatus r)).
Proof.
  unfold leave_meeting. do 3 hstep. eapply (wpt_step _ _ _ _ (fun _ _ => True)).
  - destruct (is_creator u m); [apply try_bind_ret; by hstep|]. hstep.
    destruct (_ =? _); [apply try_bind_ret; by hstep | done].
  - intros. by apply wpt_ret.
Qed.

Lemma rows_ok u rm w (rows : list ParticipantRow) :
  body_ok u rm w (BParticipants ((fun r => into_participant_status r None) <$> rows)).
Proof. simpl. apply Forall_fmap, Forall_forall. done. Qed.

Lemma get_participants_ok u rm w user id :
  wpt u w (get_participants user id) (fun w' r => body_ok u rm w' (BParticipants r)).
Proof. unfold get_participants. do 4 hstep. apply wpt_ret, rows_ok. Qed.

Lemma get_waiting_room_ok u rm w id :
  wpt u w (get_waiting_room u id) (fun w' r => body_ok u rm w' (BParticipants r)).
Proof. unfold get_waiting_room. do 3 hstep. apply wpt_ret, rows_ok. Qed.

Lemma admit_participant_ok u rm w id target :
  wpt u w (admit_participant st u id target) (fun w' r => body_ok u rm w' (BStatus r)).
Proof. unfold admit_participant. do 5 hstep. by apply wpt_ret. Qed.

Lemma reject_participant_ok u rm w id target :
  wpt u w (reject_participant st u id target) (fun w' r => body_ok u rm w' (BStatus r)).
Proof. unfold reject_participant. do 5 hstep. by apply wpt_ret. Qed.

Lemma publish_all_ok {B} u w nats id rows (k : handler B) Q :
  wpt u w k Q -> wpt u w (do! publish_all_admitted nats id rows;; k) Q.
Proof.
  intros Hk. induction rows as [|row rows IH]; simpl; [done|]. unfold publish_participant_admitted, publish.
  by destruct nats.
Qed.

Lemma admit_all_ok u rm w id :
  wpt u w (admit_all_handler st u id) (fun w' r => body_ok u rm w' (BParticipants r)).
Proof. unfold admit_all_handler. do 3 hstep. apply publish_all_ok. apply wpt_ret, rows_ok. Qed.

Lemma is_creator_eq u m c : mr_creator_id m = Some c -> is_creator u m = bool_decide (c = u).
Proof. intros Hc. unfold is_creator. rewrite Hc. apply bool_decide_ext. split; congruence. Qed.

Lemma join_as_host_ok u w room dn m :
  meeting_of w (mr_id m) room u ->
  wpt u w (join_as_host st u room dn m) (fun w' r => body_ok u room w' (BStatus r)).
Proof.
  intros Hm. unfold join_as_host.
  apply (wpt_step _ _ _ _ (fun w' _ => meeting_of w' (mr_id m) room u)).
  { destruct (negb _); [|by apply wpt_ret]. hstep; [by exists room|]. apply wpt_publish.
    by eapply wpt_ret, meeting_of_mono. }
  intros w1 _ He1 Hm1. apply (wpt_step _ _ _ _ (fun w' _ => meeting_of w' (mr_id m) room u)).
  { destruct dn as [dn|]; [|by apply wpt_ret]. apply try_bind_ret. hstep; [by exists room|].
    by eapply wpt_ret, meeting_of_mono. }
  intros w2 _ He2 Hm2. hstep; [split; [done | by exists room]|]. apply generate_ok. intros t now Ht.
  apply wpt_ret. split; [|done]. intros t' [= <-].
  exists (room_claims now (as_token_ttl_secs st) u room true (default u dn)).
  exists (mr_id m), u. split_and!; try done; [by eapply meeting_of_mono | by left].
Qed.

Lemma wait_for_meeting_ok u w room dn m :
  wpt u w (wait_for_meeting st u room dn m) (fun w' r => body_ok u room w' (BStatus r)).
Proof. unfold wait_for_meeting. hstep. intros now. split; [done|]. intros t' Ht. simpl in Ht. by simplify_eq. Qed.

(** Whoever's row is admitted is the creator or has been let in. *)
Lemma admitted_row w id room c u p :
  world_ok w -> meeting_of w id room c -> db_participants (w_db w) !! (id, u) = Some p ->
  pt_status p = IsAdmitted -> c = u \/ let_in w id room c u.
Proof.
  intros Hok (m & Em & <- & Hc) Hp Hst. destruct (ok_participant _ Hok _ _ Hp) as (Ek & m' & Em' & _ & _ & Ha).
  injection Ek as -> ->. rewrite Em in Em'. injection Em' as <-.
  destruct (Ha Hst) as [Hu|Hin]; [left; congruence | right; by apply Hin].
Qed.

Lemma upsert_writes now id u dn fresh existing d d' row :
  upsert now id u dn fresh existing d = (d', Ok row) ->
  (forall r, pt_meeting_id (fresh r) = pt_meeting_id r /\ pt_user_id (fresh r) = pt_user_id r /\
             pt_meeting_id (existing r) = pt_meeting_id r /\ pt_user_id (existing r) = pt_user_id r) ->
  (forall k p, db_participants d !! k = Some p -> k = (pt_meeting_id p, pt_user_id p)) ->
  db_participants d' !! (id, u) = Some row.
Proof.
  intros Hup Hf Hk. unfold upsert in Hup. repeat (case_match; try done).
  - injection Hup as <- <-. simpl. apply Hk in H1. injection H1 as -> ->.
    destruct (Hf p) as (_ & _ & -> & ->). apply lookup_insert_eq.
  - injection Hup as <- <-. simpl.
    match goal with |- context [fresh ?r] => destruct (Hf r) as (-> & -> & _) end. apply lookup_insert_eq.
Qed.

(** An attendee who is admitted at once has an admitted row. *)
Lemma join_admits now id u dn w d' row enabled :
  world_ok w -> join_attendee now id u dn (w_db w) = (d', Ok (true, row, enabled)) ->
  exists p, db_participants d' !! (id, u) = Some p /\ pt_status p = IsAdmitted.
Proof.
  intros Hok. unfold join_attendee. destruct (db_meetings (w_db w) !! id) as [m|]; [|done].
  destruct (mr_waiting_room_enabled m).
  { destruct (upsert _ _ _ _ _ _ _) as [d r]. by destruct r. }
  destruct (upsert _ _ _ _ _ _ _) as [d [p|e]] eqn:E; simpl; [|done]. intros [= -> -> _].
  exists row. split.
  - eapply upsert_writes; [exact E | done |]. intros k q Hk. by apply (ok_participant _ Hok).
  - unfold upsert in E. repeat (case_match; try done); by simplify_eq.
Qed.

Lemma join_as_attendee_ok u w room dn m c :
  meeting_of w (mr_id m) room c -> c <> u ->
  wpt u w (join_as_attendee st u room dn m) (fun w' r => body_ok u room w' (BStatus r)).
Proof.
  intros Hm Hne. unfold join_as_attendee. apply wpt_ask; [simpl; split; [done|by exists room, c]|].
  intros w1 w2 now [[auto_admitted row] enabled] He1 He2 Hok1 Hok2 Hx.
  apply (wpt_step _ _ _ _ (fun w' r => status_ok w' u room r)).
  - destruct auto_admitted;
      [|hstep; apply wpt_publish, wpt_ret; split; [done | intros t' Ht'; simpl in Ht'; by simplify_eq]].
    apply generate_ok. intros t now' Ht. apply wpt_ret. split; [|done]. intros t' [= <-].
    exists (room_claims now' (as_token_ttl_secs st) u room false (default u dn)), (mr_id m), c.
    split_and!; try done; [by eapply meeting_of_mono|].
    destruct (join_admits _ _ _ _ _ _ _ _ Hok1 Hx) as (p & Hp & Hst).
    eapply admitted_row; [done | by eapply meeting_of_mono | done..].
  - intros w3 r _ Hr. by apply wpt_ret.
Qed.

Lemma created_row log now room c pw attendees enabled d d' row :
  create_with_options now room c pw attendees enabled d = (d', Ok row) ->
  mr_creator_id row = Some c /\ meeting_of (mkWorld d' log) (mr_id row) room c.
Proof.
  unfold create_with_options. repeat (case_match; try done). intros [= <- <-]. split; [done|].
  eexists. simpl. rewrite lookup_insert_eq. by split_and!.
Qed.

Lemma join_meeting_ok u w room body :
  wpt u w (join_meeting st u room body) (fun w' r => body_ok u room w' (BStatus r)).
Proof.
  unfold join_meeting. apply wpt_ask; [done|].
  intros w1 w2 now found He1 He2 Hok1 Hok2 Hx. simpl in Hx. injection Hx as E <-.
  apply (wpt_step _ _ _ _ (fun w' m => exists c, mr_creator_id m = Some c /\ meeting_of w' (mr_id m) room c)).
  - rewrite E. destruct (get_by_room_id room (w_db w2)) as [m|] eqn:Em.
    + apply wpt_ret. by apply found_meeting.
    + apply try_bind_ret, wpt_ask; [done|]. intros w3 w4 now' row _ _ _ _ Hrow.
      apply wpt_ret. exists u. destruct w4 as [d4 log4]. simpl in Hrow.
      by eapply created_row.
  - intros w3 m _ (c & Hc & Hm). rewrite (is_creator_eq u m c Hc). case_bool_decide as Hcu.
    + subst. by apply join_as_host_ok.
    + destruct (negb _); [apply wait_for_meeting_ok | by eapply join_as_attendee_ok].
Qed.

Lemma get_my_status_ok u w room :
  wpt u w (get_my_status st u room) (fun w' r => body_ok u room w' (BStatus r)).
Proof.
  unfold get_my_status. hstep. destruct (bool_decide _); [done|]. apply wpt_ask; [done|].
  intros w1 w2 now found He1 He2 Hok1 Hok2 Hx. simpl in Hx. injection Hx as E <-. rewrite E.
  apply wpt_ok_or. intros p Hp.
  apply (wpt_step _ _ _ _ (fun w' token => forall t, token = Some t -> earned w' u room t)).
  - case_bool_decide as Hst; [|by apply wpt_ret]. apply generate_ok. intros t now' Ht.
    apply wpt_ret. intros t' [= <-].
    exists (room_claims now' (as_token_ttl_secs st) u room (pt_is_host p) (default u (pt_display_name p))).
    exists (mr_id m), c.
    assert (meeting_of w2 (mr_id m) room c) as Hm by (by eapply meeting_of_mono).
    split_and!; try done; [|by eapply admitted_row].
    destruct (ok_participant _ Hok2 _ _ Hp) as (Ek & m' & Em' & Hh & _). injection Ek as E1 E2.
    intros Hhost. apply Hh in Hhost. destruct Hm as (m2 & Em2 & _ & Hc2). rewrite <- E1 in Em'. congruence.
  - intros w3 token _ Ht. apply wpt_ret. split; [|done]. intros t. simpl. auto.
Qed.

Lemma router_ok u w e : wpt u w (router st u e) (body_ok u (asked_room e)).
Proof.
  destruct e; apply respond_ok;
    auto using list_meetings_ok, create_meeting_ok, get_meeting_ok, delete_meeting_ok, update_meeting_ok',
      end_meeting_ok, join_meeting_ok, leave_meeting_ok, get_my_status_ok, get_participants_ok,
      get_waiting_room_ok, admit_participant_ok, admit_all_ok, reject_participant_ok.
Qed.

(** ** All interleavings *)

Notation api_step := (api_step scan_participants scan_meetings st).

(** What has happened so far was authorised, and what was replied was earned. *)
Definition entry_ok (w : world) (e : api_output) : Prop :=
  match e with
  | Executed user o (Call q r) => authorised w user q
  | Replied user ep (Ok b) => body_ok user (asked_room ep) w b
  | _ => True
  end.

Record server_ok (s : Server) (log : list api_output) : Prop := mkServerOk {
  so_world : world_ok (mkWorld (sv_db s) log);
  so_log : Forall (entry_ok (mkWorld (sv_db s) log)) log;
  so_flights : map_Forall (fun _ f => wpt (fl_user f) (mkWorld (sv_db s) log) (fl_rest f) (body_ok (fl_user f) (asked_room (fl_endpoint f))))
    (sv_flights s);
}.

Lemma entry_ok_mono w w' e : extends w w' -> entry_ok w e -> entry_ok w' e.
Proof.
  intros He. destruct e as [u o [X q r]| |u ep [b|]|]; simpl; eauto using authorised_mono, body_ok_mono.
Qed.

Lemma flight_mono u rm w w' (p : handler Body) : extends w w' -> wpt u w p (body_ok u rm) -> wpt u w' p (body_ok u rm).
Proof. intros He. apply wp_mono; [done|]. intros w1 w2 [b|] H; [by apply body_ok_mono | done]. Qed.

(** The world after a step whose outputs are [new]. *)
Lemma server_ok_step s s' log new :
  server_ok s log -> extends (mkWorld (sv_db s) log) (mkWorld (sv_db s') (log ++ new)) ->
  world_ok (mkWorld (sv_db s') (log ++ new)) ->
  Forall (entry_ok (mkWorld (sv_db s') (log ++ new))) new ->
  (forall id f, sv_flights s' !! id = Some f -> sv_flights s !! id = Some f \/
     wpt (fl_user f) (mkWorld (sv_db s') (log ++ new)) (fl_rest f) (body_ok (fl_user f) (asked_room (fl_endpoint f)))) ->
  server_ok s' (log ++ new).
Proof.
  intros [Hw Hl Hf] He Hw' Hnew Hfl. constructor; [done| |].
  - apply Forall_app. split; [|done]. eapply Forall_impl; [exact Hl|]. intros e. by apply entry_ok_mono.
  - intros id f Hid. destruct (Hfl id f Hid) as [Hold|]; [|done]. eapply flight_mono; [exact He|]. by apply Hf in Hold.
Qed.

Lemma log_grows d log new : extends (mkWorld d log) (mkWorld d (log ++ new)).
Proof. split; [apply evolves_refl|]. intros e He. apply elem_of_app. by left. Qed.

Lemma flight_step_ok id o now f s log :
  server_ok s log -> sv_flights s !! id = Some f ->
  let '(s', new) := flight_step scan_participants scan_meetings id o now f s in server_ok s' (log ++ new).
Proof.
  intros Hok Hid. pose proof (so_flights _ _ Hok id f Hid) as Hf. simpl in Hf. unfold flight_step.
  pose proof (so_world _ _ Hok) as Hw.
  assert (forall new, world_ok (mkWorld (sv_db s) (log ++ new))) as Hw'.
  { intros new. apply (grown_log_ok _ _ Hw). intros e He. apply elem_of_app. by left. }
  destruct (fl_rest f) as [r|X q k|subject payload k|k].
  - eapply server_ok_step; [done | apply log_grows | apply Hw' | |].
    + constructor; [|constructor]. destruct r as [b|]; [|done]. eapply body_ok_mono; [apply log_grows | exact Hf].
    + intros id' f'. simpl. intros [_ Hf']%lookup_delete_Some. by left.
  - destruct Hf as [Ha Hk].
    destruct (after_query_ok _ (fl_user f) o now q Ha Hw) as [Hok2 He2].
    specialize (Hk _ o now (extends_refl _) Hw). unfold MeetingApiProps.after_query in Hk, Hok2, He2. simpl in *.
    destruct (attempt _ _ o now q (sv_db s)) as [d r]. simpl in *.
    eapply server_ok_step; [done | exact He2 | exact Hok2 | |].
    + constructor; [|constructor]. simpl. by eapply authorised_mono.
    + simpl. intros id' f'. destruct (decide (id' = id)) as [->|Hne].
      * rewrite lookup_insert_eq. intros [= <-]. right. simpl. by apply Hk.
      * rewrite lookup_insert_ne by done. by left.
  - eapply server_ok_step; [done | apply log_grows | apply Hw' | by repeat constructor |].
    simpl. intros id' f'. destruct (decide (id' = id)) as [->|Hne].
    + rewrite lookup_insert_eq. intros [= <-]. right. simpl. eapply flight_mono; [apply log_grows | exact Hf].
    + rewrite lookup_insert_ne by done. by left.
  - eapply server_ok_step; [done | apply log_grows | apply Hw' | constructor |].
    simpl. intros id' f'. destruct (decide (id' = id)) as [->|Hne].
    + rewrite lookup_insert_eq. intros [= <-]. right. simpl. eapply flight_mono; [apply log_grows | apply Hf].
    + rewrite lookup_insert_ne by done. by left.
Qed.

Lemma api_step_ok s log ev : server_ok s log ->
  let '(s', new) := api_step s ev in server_ok s' (log ++ new).
Proof.
  intros Hok. pose proof (so_world _ _ Hok) as Hw.
  assert (forall new, world_ok (mkWorld (sv_db s) (log ++ new))) as Hw'.
  { intros new. apply (grown_log_ok _ _ Hw). intros e He. apply elem_of_app. by left. }
  assert (forall new, Forall (entry_ok (mkWorld (sv_db s) (log ++ new))) new -> server_ok s (log ++ new)) as Hsame.
  { intros new Hnew. eapply server_ok_step; eauto using log_grows. }
  destruct ev as [id now parts e|id o now|id]; simpl.
  - destruct (from_request_parts now parts st) as [user|err]; [|apply Hsame; by repeat constructor].
    destruct (sv_flights s !! id) as [f|]; [by apply Hsame|].
    eapply server_ok_step; [done | apply log_grows | apply Hw' | constructor |].
    simpl. intros id' f'. destruct (decide (id' = id)) as [->|Hne].
    + rewrite lookup_insert_eq. intros [= <-]. right. apply router_ok.
    + rewrite lookup_insert_ne by done. by left.
  - destruct (sv_flights s !! id) as [f|] eqn:Hid; [by apply flight_step_ok | by apply Hsame].
  - eapply server_ok_step; [done | apply log_grows | apply Hw' | constructor |].
    simpl. intros id' f' [_ Hf']%lookup_delete_Some. by left.
Qed.

Lemma api_run_ok evs s log : server_ok s log -> server_ok (run api_step s evs).1 (log ++ (run api_step s evs).2).
Proof. apply run_log_invariant. apply api_step_ok. Qed.

Definition started : Server := mkServer empty_db ∅.

Lemma started_ok : server_ok started [].
Proof.
  constructor; [constructor; simpl| constructor | apply map_Forall_empty]; try done.
Qed.

Lemma reachable_ok evs : server_ok (run api_step started evs).1 (run api_step started evs).2.
Proof. apply (api_run_ok evs started []), started_ok. Qed.

(** ** Theorems *)

(** C14: the waiting room cannot be bypassed. Over any interleaving of requests, steps,
    lost connections and clients that hang up, a room token that a reply hands out
    names the user who asked and an existing meeting, is a host token only for the
    meeting's creator, and otherwise its holder was let in by the creator before: by
    name, with everybody who waits, or because the creator made the meeting without a
    waiting room or switched it off. *)
Theorem room_tokens_are_earned evs user e r token :
  let '(s, log) := run api_step started evs in
  Replied user e (Ok (BStatus r)) ∈ log -> ps_room_token r = Some token ->
  exists claims id room creator,
    encode_room (as_jwt_secret st) claims = Ok token /\ sub claims = user /\ tc_room claims = room /\
    iss claims = ISSUER /\ room_join claims = true /\ tc_observer claims = false /\
    meeting_of (mkWorld (sv_db s) log) id room creator /\
    (TokenValidator.is_host claims = true -> creator = user) /\
    (creator = user \/ let_in (mkWorld (sv_db s) log) id room creator user).
Proof.
  pose proof (reachable_ok evs) as Hok. destruct (run api_step started evs) as [s log]. simpl in Hok.
  intros Hin Ht. apply (Forall_elem _ _ _ (so_log _ _ Hok)) in Hin.
  apply Hin in Ht as (claims & id & c & Ht). by exists claims, id, (asked_room e), c.
Qed.

(** C15: the tables stay consistent under concurrency. In every state reached by any
    interleaving of requests, a room has at most one meeting that is not deleted, every
    participant belongs to a meeting, only a meeting's creator is marked as its host, and
    nobody is left waiting in a meeting whose waiting room is switched off. *)
Theorem meetings_consistent evs :
  let d := sv_db (run api_step started evs).1 in
  (forall id id' r r', db_meetings d !! id = Some r -> db_meetings d !! id' = Some r' ->
     mr_room_id r = mr_room_id r' -> mr_deleted_at r = None -> mr_deleted_at r' = None -> id = id') /\
  forall id user p, db_participants d !! (id, user) = Some p ->
    exists m, db_meetings d !! id = Some m /\
      (pt_is_host p = true -> mr_creator_id m = Some user) /\
      (mr_waiting_room_enabled m = false -> pt_status p <> Waiting).
Proof.
  pose proof (so_world _ _ (reachable_ok evs)) as Hok. simpl. split; [apply (ok_unique _ Hok)|].
  intros id user p Hp. destruct (ok_participant _ Hok _ _ Hp) as (Ek & m & Em & Hh & Hw & _).
  injection Ek as -> ->. exists m. split_and!; [done..|]. intros Hd Hst. rewrite (Hw Hst) in Hd. done.
Qed.

(** C16: only the host moderates. Over any interleaving, whoever's request makes the
    database admit or reject participants, start a meeting or rename its host is the
    creator of that meeting; a switch of the waiting room or a deletion is restricted to
    the meetings of the one who asks; and joining or leaving writes the own row only. *)
Theorem moderation_needs_the_host evs user o {X} (q : query X) (r : result X SqlError) :
  let '(s, log) := run api_step started evs in
  Executed user o (Call q r) ∈ log ->
  match q with
  | QAdmit id _ | QAdmitAll id | QReject id _ | QActivate id | QSetHostDisplayName id _ =>
      exists m, db_meetings (sv_db s) !! id = Some m /\ mr_creator_id m = Some user
  | QUpdateWaitingRoom _ u _ | QSoftDelete _ u | QCreate _ u _ _ _ => u = user
  | QUpsertHost id u _ => u = user /\ exists m, db_meetings (sv_db s) !! id = Some m /\ mr_creator_id m = Some user
  | QJoinAttendee _ u _ | QLeave _ u => u = user
  | _ => True
  end.
Proof.
  pose proof (reachable_ok evs) as Hok. destruct (run api_step started evs) as [s log]. simpl in Hok.
  intros Hin. apply (Forall_elem _ _ _ (so_log _ _ Hok)) in Hin. simpl in Hin.
  assert (forall id, creator_of (mkWorld (sv_db s) log) id user ->
    exists m, db_meetings (sv_db s) !! id = Some m /\ mr_creator_id m = Some user) as Hc.
  { intros id (room & m & Hm & _ & H). by exists m. }
  destruct q; simpl in Hin; try done; auto; destruct Hin as [-> H]; auto.
Qed.
End Runs.

(** ** Witnesses *)

Definition demo_log : list api_output := (run demo_step started demo_evs).2.

(** The last reply of the run: Bob's status, with a room token. *)
Definition demo_last : option (string * Endpoint * ParticipantStatusResponse) := last (omap status_reply demo_log).

Lemma demo_last_in u e r : demo_last = Some (u, e, r) -> Replied u e (Ok (BStatus r)) ∈ demo_log.
Proof.
  intros H. eapply status_reply_in; [done|]. by apply last_Some_elem_of.
Qed.

(** What the run says about it. *)
Lemma demo_last_bob : exists e r token, demo_last = Some ("bob"%string, e, r) /\ ps_room_token r = Some token.
Proof.
  assert (bool_decide (fst ∘ fst <$> demo_last = Some "bob"%string /\
    is_Some (x ← demo_last; ps_room_token x.2)) = true) as H by (vm_compute; reflexivity).
  apply bool_decide_eq_true in H as [Hu [token Ht]]. destruct demo_last as [[[u e] r]|]; simplify_eq/=. eauto.
Qed.

Lemma room_tokens_witness :
  exists r token claims id room creator, ps_room_token r = Some token /\
    encode_room "k" claims = Ok token /\ sub claims = "bob"%string /\ tc_room claims = room /\
    (creator = "bob"%string \/
     let_in (mkWorld (sv_db (run demo_step started demo_evs).1) demo_log) id room creator "bob").
Proof.
  destruct demo_last_bob as (e & r & token & E & Et).
  pose proof (room_tokens_are_earned map_to_list map_to_list demo_state demo_evs "bob" e r token) as H.
  pose proof (demo_last_in _ _ _ E) as Hin. unfold demo_log, demo_step in *.
  destruct (run _ started demo_evs) as [s log]. 
  destruct (H Hin Et) as (claims & id & room & c & H1 & H2 & H3 & _ & _ & _ & _ & _ & H4).
  exists r, token, claims, id, room, c. exact (conj Et (conj H1 (conj H2 (conj H3 H4)))).
Defined.

(** Alice's request is the one that admits Bob. *)
Lemma moderation_witness :
  exists o r m, Executed "alice" o (Call (QAdmit 1 "bob") r) ∈ demo_log /\
    db_meetings (sv_db (run demo_step started demo_evs).1) !! 1 = Some m /\ mr_creator_id m = Some "alice"%string.
Proof.
  assert (exists i o r, demo_log !! i = Some (Executed "alice" o (Call (QAdmit 1 "bob") r))) as (i & o & r & Hi).
  { exists 13%nat. eexists _, _. vm_compute. reflexivity. }
  apply list_elem_of_lookup_2 in Hi as Hin.
  pose proof (moderation_needs_the_host map_to_list map_to_list demo_state demo_evs "alice" o (QAdmit 1 "bob") r) as H.
  unfold demo_log, demo_step in *. destruct (run _ started demo_evs) as [s log].
  destruct (H Hin) as (m & Hm & Hc). by exists o, r, m.
Defined.
