(* ===== verification/MeetingFlows.v ===== *)
(** * Flows through the meeting API

    What a whole exchange achieves: a token that the API issues is shown to the media
    server ([TokenValidator]); a guest goes through the waiting room; a meeting ends and
    is started again. [solo] is the run of one request that is alone with the database,
    and [solo_is_a_run] says that it is a run of [api_step]. *)
From S2P Require Import Prelude Protocol TokenValidator Media MeetingDb MeetingApi DemoMeeting MeetingApiProps.

(** Handlers compute. *)
#[local] Arguments try_bind A B p k /.
#[local] Arguments ok_or A o e /.
#[local] Arguments lift A r /.

Section Flows.
Context {wire : Wire} {crypto : Crypto}.
Context (scan_participants : gmap (Z * string) ParticipantRow -> list ((Z * string) * ParticipantRow)).
Context (scan_meetings : gmap Z MeetingRow -> list (Z * MeetingRow)).
Context (st : AppState).

Notation exec := (exec scan_participants scan_meetings).
Notation api_step := (api_step scan_participants scan_meetings st).

(** ** Tokens at the media server *)

(** C19: the media server understands the meeting API. Over any interleaving of
    requests, a room token or observer token of a reply is the encoding, under the API's
    secret, of claims for the user who asked and the room that was asked for; a room
    token's claims let the holder join, an observer token's only watch. Shown to the media
    server under the same secret before those claims expire, it decodes to exactly these
    claims when the room's name is made of safe characters, and is refused for the room's
    name otherwise. *)
Theorem issued_tokens_understood
    (jwt_decode : string -> string -> result RoomAccessTokenClaims JwtError) (server_now : Z)
    evs user e r token (observer : bool) :
  (forall secret claims t, encode_room secret claims = Ok t -> iss claims = ISSUER ->
     server_now < exp claims -> jwt_decode secret t = Ok claims) ->
  Replied user e (Ok (BStatus r)) ∈ (run api_step started evs).2 ->
  (if observer then ps_observer_token r else ps_room_token r) = Some token ->
  exists claims,
    encode_room (as_jwt_secret st) claims = Ok token /\ iss claims = ISSUER /\
    sub claims = user /\ tc_room claims = asked_room e /\
    tc_observer claims = observer /\ room_join claims = negb observer /\
    (server_now < exp claims ->
     decode_room_token jwt_decode (as_jwt_secret st) token =
       if valid_id (asked_room e) then Ok claims else Err (UnsafeIdentifier "room" (asked_room e))).
Proof.
  intros Hjwt Hin Ht.
  pose proof (Forall_elem _ _ _ (so_log _ _ _ _ _ (reachable_ok scan_participants scan_meetings st evs)) Hin) as Hr.
  assert (exists claims, encode_room (as_jwt_secret st) claims = Ok token /\ sub claims = user /\
    tc_room claims = asked_room e /\ iss claims = ISSUER /\ room_join claims = negb observer /\
    tc_observer claims = observer) as Hc.
  { destruct Hr as [Hr Ho], observer.
    - destruct (Ho _ Ht) as (claims & ? & ? & ? & ? & ? & ? & _). by exists claims.
    - destruct (Hr _ Ht) as (claims & id & c & ? & ? & ? & ? & ? & ? & _). by exists claims. }
  destruct Hc as (claims & He & Hs & Hroom & Hi & Hj & Ho). exists claims. split_and!; [done..|].
  intros Hexp. unfold decode_room_token. rewrite (Hjwt _ _ _ He Hi Hexp), Hroom.
  destruct (valid_id (asked_room e)); [|done]. rewrite Hj, Ho. by destruct observer.
Qed.

(** ** One request at a time *)

Fixpoint solo {R : Type} (now : Z) (p : prog R) (d : Db) : Db * list (string * bytes) * R :=
  match p with
  | Ret r => (d, [], r)
  | Sql q k => let '(d1, r) := exec now q d in solo now (k r) d1
  | Publish subject payload k =>
      let '(d1, pubs, r) := solo now k d in (d1, (subject, payload) :: pubs, r)
  | Clock k => solo now (k now) d
  end.

Definition publications (log : list api_output) : list (string * bytes) :=
  omap (fun e => match e with Published s b => Some (s, b) | _ => None end) log.

(** A request that is stepped until it ends, without others in between, does what
    [solo] computes and replies. *)
Lemma solo_is_a_run now id user e (p : handler Body) s :
  sv_flights s !! id = Some (mkFlight user e p) ->
  let '(d, pubs, reply) := solo now p (sv_db s) in
  exists n log, run api_step s (replicate n (Step id Served now)) =
      (mkServer d (delete id (sv_flights s)), log ++ [Replied user e reply]) /\
    publications log = pubs.
Proof.
  revert s. induction p as [r|X q k IH|subject payload k IH|k IH]; intros s Hs; simpl.
  - exists 1%nat, []. simpl. rewrite Hs. done.
  - destruct (exec now q (sv_db s)) as [d1 r] eqn:E.
    set (s1 := mkServer d1 (<[id := mkFlight user e (k r)]> (sv_flights s))).
    specialize (IH r s1 (lookup_insert_eq _ _ _)). simpl in IH.
    destruct (solo now (k r) d1) as [[d pubs] reply]. destruct IH as (n & log & Hrun & Hp).
    exists (S n), (Executed user Served (Call q r) :: log). split; [|done]. simpl. rewrite Hs.
    unfold flight_step. simpl. rewrite E. fold s1. rewrite Hrun. by rewrite delete_insert_eq.
  - set (s1 := mkServer (sv_db s) (<[id := mkFlight user e k]> (sv_flights s))).
    specialize (IH s1 (lookup_insert_eq _ _ _)). simpl in IH.
    destruct (solo now k (sv_db s)) as [[d pubs] reply]. destruct IH as (n & log & Hrun & Hp).
    exists (S n), (Published subject payload :: log). split; [|by rewrite <- Hp]. simpl. rewrite Hs.
    unfold flight_step, set_flight. simpl. fold s1. rewrite Hrun. by rewrite delete_insert_eq.
  - set (s1 := mkServer (sv_db s) (<[id := mkFlight user e (k now)]> (sv_flights s))).
    specialize (IH now s1 (lookup_insert_eq _ _ _)). simpl in IH.
    destruct (solo now (k now) (sv_db s)) as [[d pubs] reply]. destruct IH as (n & log & Hrun & Hp).
    exists (S n), log. split; [|done]. simpl. rewrite Hs.
    unfold flight_step, set_flight. simpl. fold s1. rewrite Hrun. by rewrite delete_insert_eq.
Qed.

Definition serve (now : Z) (user : string) (e : Endpoint) (d : Db)
    : Db * list (string * bytes) * result Body AppError := solo now (router st user e) d.

(** ** Through the waiting room *)

Definition waiting_room_updated (room : string) : string * bytes :=
  (room_system_subject room,
   meeting_wrapper (meeting_default <| event_type := WAITING_ROOM_UPDATED |> <| mt_room_id := room |>)).

Definition participant_admitted (room user : string) : string * bytes :=
  (room_system_subject room,
   meeting_wrapper (meeting_default <| event_type := PARTICIPANT_ADMITTED |> <| mt_room_id := room |>
     <| mt_target_user_id := as_bytes user |>)).

(** An upsert succeeds, writes the row of the user and leaves everything else. *)
Lemma upsert_succeeds now id u dn fresh existing d m :
  db_participant_seq d < 2 ^ 31 -> varchar_255 u = true -> varchar_255_opt dn = true ->
  db_meetings d !! id = Some m ->
  (forall k p, db_participants d !! k = Some p -> k = (pt_meeting_id p, pt_user_id p)) ->
  (forall r, pt_meeting_id (fresh r) = pt_meeting_id r /\ pt_user_id (fresh r) = pt_user_id r /\
             pt_meeting_id (existing r) = pt_meeting_id r /\ pt_user_id (existing r) = pt_user_id r) ->
  exists d' row, upsert now id u dn fresh existing d = (d', Ok row) /\ db_meetings d' = db_meetings d /\
    db_participants d' = <[(id, u) := row]> (db_participants d) /\
    (id, u) = (pt_meeting_id row, pt_user_id row) /\
    ((exists r, pt_status row = pt_status (fresh r)) \/ (exists r, pt_status row = pt_status (existing r))).
Proof.
  intros Hseq Hu Hn Hm Hkeys Hf. unfold upsert. destruct (Z.leb_spec (2 ^ 31) (db_participant_seq d)); [lia|].
  rewrite Hu, Hn. simpl. destruct (db_participants d !! (id, u)) as [p|] eqn:Ep.
  - apply Hkeys in Ep. injection Ep as -> ->. destruct (Hf p) as (_ & _ & E1 & E2).
    eexists _, _. split; [done|]. simpl. rewrite E1, E2. split_and!; [done..|]. right. by exists p.
  - rewrite Hm. eexists _, _. split; [done|]. simpl.
    match goal with |- context [fresh ?r] => destruct (Hf r) as (-> & -> & _) end.
    split_and!; [done..|]. left. by eexists.
Qed.

Context (encode_total : forall claims, exists t, encode_room (as_jwt_secret st) claims = Ok t).

Lemma get_by_room_same room d d' : db_meetings d' = db_meetings d -> get_by_room_id room d' = get_by_room_id room d.
Proof. unfold get_by_room_id, live_rows. by intros ->. Qed.

(** What a participant reads in his status. *)
Lemma status_of_row now user room d m p :
  get_by_room_id room d = Some m -> mr_state m <> Ended -> db_participants d !! (mr_id m, user) = Some p ->
  exists r, serve now user (GetMyStatus room) d = (d, [], Ok (BStatus r)) /\
    ps_status r = show_status (pt_status p) /\ ps_observer_token r = None /\
    if bool_decide (pt_status p = IsAdmitted)
    then exists t, ps_room_token r = Some t /\
      encode_room (as_jwt_secret st) (room_claims now (as_token_ttl_secs st) user room (pt_is_host p)
        (default user (pt_display_name p))) = Ok t
    else ps_room_token r = None.
Proof.
  intros Hm Hs Hp. unfold serve. simpl. rewrite Hm. simpl. rewrite bool_decide_false by done. simpl.
  unfold get_status. rewrite Hp. simpl. case_bool_decide as Ha; simpl; [|by eexists].
  destruct (encode_total (room_claims now (as_token_ttl_secs st) user room (pt_is_host p)
    (default user (pt_display_name p)))) as [t Ht].
  unfold lift. rewrite Ht. simpl. eexists. split_and!; [done..|]. by exists t.
Qed.

Lemma keys_ok evs k p :
  db_participants (sv_db (run api_step started evs).1) !! k = Some p -> k = (pt_meeting_id p, pt_user_id p).
Proof.
  intros Hp. by apply (ok_participant _ (so_world _ _ _ _ _ (reachable_ok scan_participants scan_meetings st evs))) in Hp as [].
Qed.

(** The row a lookup by room finds is the row of its id. *)
Lemma found_row evs room m :
  let d := sv_db (run api_step started evs).1 in
  get_by_room_id room d = Some m -> db_meetings d !! mr_id m = Some m.
Proof.
  intros d Hin%found_live.
  eapply live_row_found; [|exact Hin].
  apply (so_world _ _ _ _ _ (reachable_ok scan_participants scan_meetings st evs)).
Qed.

(** A guest who joins a running meeting with a waiting room waits there. *)
Lemma guest_waits evs now room guest name m :
  let d := sv_db (run api_step started evs).1 in
  get_by_room_id room d = Some m -> mr_state m = Active -> mr_waiting_room_enabled m = true ->
  mr_creator_id m <> Some guest -> as_nats st = true ->
  db_participant_seq d < 2 ^ 31 -> varchar_255 guest = true -> varchar_255_opt name = true ->
  exists d1 r t p, serve now guest (JoinMeeting room (Some name)) d =
      (d1, [waiting_room_updated room], Ok (BStatus r)) /\
    ps_status r = "waiting"%string /\ ps_room_token r = None /\ ps_observer_token r = Some t /\
    db_meetings d1 = db_meetings d /\ db_participants d1 = <[(mr_id m, guest) := p]> (db_participants d) /\
    pt_status p = Waiting /\ (mr_id m, guest) = (pt_meeting_id p, pt_user_id p).
Proof.
  intros d Hm Hs Hw Hc Hn Hseq Hg Hname. pose proof (found_row evs room m Hm) as Hrow.
  unfold serve. simpl. rewrite Hm. simpl. unfold is_creator. rewrite bool_decide_false by done. rewrite Hs. simpl.
  unfold join_attendee. fold d in Hrow. rewrite Hrow, Hw.
  edestruct (upsert_succeeds now (mr_id m) guest name (fun r => r <| pt_status := Waiting |>)
    (fun r => r <| pt_status := Waiting |> <| pt_left_at := None |>) d m) as (d1 & p & -> & Em & Ep & Ek & Hst); try done.
  { by apply keys_ok. }
  simpl. destruct (encode_total (observer_claims now guest room (default guest name))) as [t Ht].
  unfold lift. rewrite Ht. simpl. unfold publish_waiting_room_updated, publish. rewrite Hn. simpl.
  assert (pt_status p = Waiting) as Hp by (destruct Hst as [[? ->]|[? ->]]; done).
  eexists d1, _, t, p. split; [done|]. simpl. rewrite Hp. done.
Qed.

(** The host admits whoever waits. *)
Lemma host_admits now room host guest d m hr p :
  get_by_room_id room d = Some m -> db_participants d !! (mr_id m, host) = Some hr ->
  pt_status hr = IsAdmitted -> pt_is_host hr = true ->
  db_participants d !! (mr_id m, guest) = Some p -> pt_status p = Waiting ->
  (mr_id m, guest) = (pt_meeting_id p, pt_user_id p) -> as_nats st = true ->
  exists d1 r p1, serve now host (AdmitParticipant room guest) d =
      (d1, [participant_admitted room guest], Ok (BStatus r)) /\ ps_status r = "admitted"%string /\
    ps_room_token r = None /\ db_meetings d1 = db_meetings d /\
    db_participants d1 = <[(mr_id m, guest) := p1]> (db_participants d) /\
    pt_status p1 = IsAdmitted /\ pt_is_host p1 = pt_is_host p.
Proof.
  intros Hm Hh Hs Hi Hp Hw Hk Hn. unfold serve. simpl. rewrite Hm. simpl. unfold get_status. rewrite Hh. simpl.
  rewrite bool_decide_true, Hi by done. simpl. unfold admit_one, update_where. rewrite Hp.
  rewrite decide_True by (rewrite Hw; by left). simpl.
  unfold publish_participant_admitted, publish. rewrite Hn. simpl.
  eexists _, _, (admit_row now p <| pt_updated_at := now |>). split; [done|]. simpl.
  by rewrite <- Hk.
Qed.

(** C17: the waiting room works. In any state the API can reach, a guest who joins a
    running meeting with a waiting room is told to wait, gets an observer token and no
    room token, and the host is notified; asking for the status does not help; when
    the host, being in the meeting, admits the guest, the guest is notified, and the
    next status request hands out a room token for this room and this guest. *)
Theorem waiting_room_protocol evs t1 t2 t3 t4 room host guest name m hr :
  let d := sv_db (run api_step started evs).1 in
  get_by_room_id room d = Some m -> mr_state m = Active -> mr_waiting_room_enabled m = true ->
  mr_creator_id m = Some host -> guest <> host ->
  db_participants d !! (mr_id m, host) = Some hr -> pt_status hr = IsAdmitted -> pt_is_host hr = true ->
  db_participant_seq d < 2 ^ 31 -> varchar_255 guest = true -> varchar_255_opt name = true ->
  as_nats st = true ->
  exists d1 d2 r1 r2 r3 r4 observer token claims,
    serve t1 guest (JoinMeeting room (Some name)) d = (d1, [waiting_room_updated room], Ok (BStatus r1)) /\
    ps_status r1 = "waiting"%string /\ ps_room_token r1 = None /\ ps_observer_token r1 = Some observer /\
    serve t2 guest (GetMyStatus room) d1 = (d1, [], Ok (BStatus r2)) /\ ps_room_token r2 = None /\
    serve t3 host (AdmitParticipant room guest) d1 = (d2, [participant_admitted room guest], Ok (BStatus r3)) /\
    serve t4 guest (GetMyStatus room) d2 = (d2, [], Ok (BStatus r4)) /\ ps_room_token r4 = Some token /\
    encode_room (as_jwt_secret st) claims = Ok token /\ sub claims = guest /\ tc_room claims = room /\
    room_join claims = true.
Proof.
  intros d Hm Hs Hw Hc Hne Hhr Ha Hh Hseq Hg Hname Hn.
  destruct (guest_waits evs t1 room guest name m) as (d1 & r1 & ot & p & E1 & S1 & T1 & O1 & M1 & P1 & W1 & K1);
    try done; [congruence|]. fold d in E1, M1, P1.
  assert (get_by_room_id room d1 = Some m) as Hm1 by (by rewrite (get_by_room_same room d)).
  assert (db_participants d1 !! (mr_id m, guest) = Some p) as Hp by (rewrite P1; apply lookup_insert_eq).
  destruct (status_of_row t2 guest room d1 m p Hm1) as (r2 & E2 & _ & _ & T2); [congruence | done |].
  rewrite bool_decide_false in T2 by congruence.
  assert (db_participants d1 !! (mr_id m, host) = Some hr) as Hhr1.
  { rewrite P1, lookup_insert_ne; [done|]. congruence. }
  destruct (host_admits t3 room host guest d1 m hr p) as (d2 & r3 & p1 & E3 & _ & _ & M2 & P2 & W2 & _); try done.
  assert (get_by_room_id room d2 = Some m) as Hm2 by (by rewrite (get_by_room_same room d1)).
  destruct (status_of_row t4 guest room d2 m p1 Hm2) as (r4 & E4 & _ & _ & T4);
    [congruence | rewrite P2; apply lookup_insert_eq |].
  rewrite bool_decide_true in T4 by done. destruct T4 as (token & T4 & Et).
  eexists d1, d2, r1, r2, r3, r4, ot, token, _. by split_and!.
Qed.

(** ** Ending and restarting *)

Lemma live_row_wins w room id r :
  world_ok w -> db_meetings (w_db w) !! id = Some r -> mr_room_id r = room -> mr_deleted_at r = None ->
  get_by_room_id room (w_db w) = Some r.
Proof.
  intros Hok Hr Hroom Hd. assert (r ∈ live_rows room (w_db w)) as Hin.
  { apply list_elem_of_filter. split; [by split|]. apply list_elem_of_fmap. exists (id, r).
    split; [done|]. by apply elem_of_map_to_list. }
  unfold get_by_room_id. destruct (live_rows room (w_db w)) as [|r' l] eqn:E; [inversion Hin|]. simpl. f_equal.
  assert (r' ∈ live_rows room (w_db w)) as Hin' by (rewrite E; by left).
  destruct w as [d log]. apply (live_row_found log) in Hin' as (Hr' & Hroom' & Hd'); [|done].
  rewrite (ok_unique _ Hok id (mr_id r') r r' Hr Hr' (eq_trans Hroom (eq_sym Hroom')) Hd Hd') in Hr.
  simpl in Hr, Hr'. congruence.
Qed.

Lemma updated_row_wins log now room f d m :
  world_ok (mkWorld d log) -> get_by_room_id room d = Some m -> keeps_identity f ->
  (forall r, mr_waiting_room_enabled (f r) = mr_waiting_room_enabled r) ->
  (forall r, mr_deleted_at (f r) = mr_deleted_at r) ->
  get_by_room_id room (update_meeting_row now (mr_id m) f d) = Some ((f m) <| mr_updated_at := now |>) /\
  world_ok (mkWorld (update_meeting_row now (mr_id m) f d) log).
Proof.
  intros Hok Hm Hf Hs Hd. destruct (same_setting_ok log now (mr_id m) f d Hf Hs Hok) as [Hok' _].
  split; [|done]. apply found_live in Hm as Hin.
  apply (live_row_found log) in Hin as (Hr & Hroom & Hdel); [|done].
  apply (live_row_wins _ room (mr_id m) _ Hok'); simpl.
  - by rewrite lookup_alter_eq, Hr.
  - destruct (Hf m) as (_ & -> & _). done.
  - by rewrite Hd.
Qed.

(** The host ends a meeting that is not ended. *)
Lemma host_ends now room host d m m1 :
  get_by_room_id room d = Some m -> mr_state m <> Ended -> mr_creator_id m = Some host ->
  get_by_room_id room (end_meeting now (mr_id m) d) = Some m1 -> mr_state m1 = Ended ->
  exists info, serve now host (EndMeeting room) d = (end_meeting now (mr_id m) d, [], Ok (BInfo info)) /\
    mi_state info = "ended"%string.
Proof.
  intros Hm Hs Hc Hm1 Hs1. unfold serve. simpl. rewrite Hm. simpl. unfold is_creator.
  rewrite bool_decide_true by done. simpl. rewrite bool_decide_false by done. simpl. rewrite Hm1. simpl.
  eexists. split; [done|]. simpl. by rewrite Hs1.
Qed.

Lemma solo_bind {A B} now (p : prog A) (k : A -> prog B) d :
  solo now (prog_bind p k) d =
    let '(d1, pubs1, a) := solo now p d in
    let '(d2, pubs2, b) := solo now (k a) d1 in (d2, pubs1 ++ pubs2, b).
Proof.
  revert d. induction p as [r|X q c IH|s b c IH|c IH]; intros d; simpl.
  - by destruct (solo now (k r) d) as [[d2 pubs2] b].
  - destruct (exec now q d). apply IH.
  - rewrite IH. destruct (solo now c d) as [[d1 pubs1] a]. by destruct (solo now (k a) d1) as [[d2 pubs2] b'].
  - apply IH.
Qed.

(** The host enters a meeting that is not running: it starts. *)
Lemma host_enters now room host d m :
  db_meetings d !! mr_id m = Some m -> mr_state m <> Active ->
  varchar_255 host = true -> db_participant_seq d < 2 ^ 31 ->
  (forall k p, db_participants d !! k = Some p -> k = (pt_meeting_id p, pt_user_id p)) ->
  exists d1 pubs r row token, solo now (join_as_host st host room None m) d = (d1, pubs, Ok r) /\
    ps_room_token r = Some token /\
    encode_room (as_jwt_secret st) (room_claims now (as_token_ttl_secs st) host room true host) = Ok token /\
    db_meetings d1 = db_meetings (activate now (mr_id m) d) /\
    db_participants d1 = <[(mr_id m, host) := row]> (db_participants d).
Proof.
  intros Hrow Hs Hv Hseq Hk. unfold join_as_host. simpl. rewrite bool_decide_false by done. simpl.
  unfold publish_meeting_activated, publish.
  edestruct (upsert_succeeds now (mr_id m) host None
    (fun r => r <| pt_status := IsAdmitted |> <| pt_is_host := true |> <| pt_admitted_at := Some now |>)
    (fun r => r <| pt_status := IsAdmitted |> <| pt_is_host := true |> <| pt_admitted_at := Some now |>
                <| pt_left_at := None |>) (activate now (mr_id m) d)) as (d1 & row & E & Em & Ep & _); try done.
  { simpl. by rewrite lookup_alter_eq, Hrow. }
  destruct (encode_total (room_claims now (as_token_ttl_secs st) host room true host)) as [t Ht].
  destruct (as_nats st); simpl; unfold upsert_host; rewrite E; simpl; rewrite Ht; simpl;
    by eexists _, _, _, row, t.
Qed.

Lemma host_starts now room host d m :
  get_by_room_id room d = Some m -> db_meetings d !! mr_id m = Some m -> mr_state m <> Active ->
  mr_creator_id m = Some host -> varchar_255 host = true -> db_participant_seq d < 2 ^ 31 ->
  (forall k p, db_participants d !! k = Some p -> k = (pt_meeting_id p, pt_user_id p)) ->
  exists d1 pubs r row, serve now host (JoinMeeting room None) d = (d1, pubs, Ok (BStatus r)) /\
    db_meetings d1 = db_meetings (activate now (mr_id m) d) /\
    db_participants d1 = <[(mr_id m, host) := row]> (db_participants d).
Proof.
  intros Hm Hrow Hs Hc Hv Hseq Hk.
  destruct (host_enters now room host d m Hrow Hs Hv Hseq Hk) as (d1 & pubs & r & row & t & E & _ & _ & Em & Ep).
  unfold serve. simpl. rewrite Hm. simpl. unfold is_creator. rewrite bool_decide_true by done.
  rewrite solo_bind, E. simpl. rewrite app_nil_r. by eexists _, _, _, row.
Qed.

(** An admission outlives the meeting. When the host ends a meeting and starts it
    again, whoever was admitted before and has not left gets a room token at once,
    without passing the waiting room that the meeting has, although status requests
    are refused in between. *)
Theorem restart_readmits evs t1 t2 t3 t4 room host guest m p :
  let d := sv_db (run api_step started evs).1 in
  get_by_room_id room d = Some m -> mr_state m = Active -> mr_waiting_room_enabled m = true ->
  mr_creator_id m = Some host -> guest <> host -> varchar_255 host = true -> db_participant_seq d < 2 ^ 31 ->
  db_participants d !! (mr_id m, guest) = Some p -> pt_status p = IsAdmitted ->
  exists d1 d2 info host_reply pubs reply m2 token,
    serve t1 host (EndMeeting room) d = (d1, [], Ok (BInfo info)) /\ mi_state info = "ended"%string /\
    (serve t2 guest (GetMyStatus room) d1).2 = Err (meeting_not_active room) /\
    serve t3 host (JoinMeeting room None) d1 = (d2, pubs, Ok (BStatus host_reply)) /\
    get_by_room_id room d2 = Some m2 /\ mr_state m2 = Active /\ mr_waiting_room_enabled m2 = true /\
    serve t4 guest (GetMyStatus room) d2 = (d2, [], Ok (BStatus reply)) /\ ps_room_token reply = Some token.
Proof.
  intros d Hm Hs Hw Hc Hne Hvar Hseq Hp Ha.
  pose proof (so_world _ _ _ _ _ (reachable_ok scan_participants scan_meetings st evs)) as Hok. fold d in Hok.
  set (log := (run api_step started evs).2) in *.
  destruct (updated_row_wins log t1 room (fun r => r <| mr_state := Ended |> <| mr_ended_at := Some t1 |>) d m)
    as [Hm1 Hok1]; try done.
  fold (end_meeting t1 (mr_id m) d) in Hm1, Hok1.
  set (m1 := m <| mr_state := Ended |> <| mr_ended_at := Some t1 |> <| mr_updated_at := t1 |>) in *.
  set (d1 := end_meeting t1 (mr_id m) d) in *.
  destruct (host_ends t1 room host d m m1 Hm) as (info & E1 & I1); [congruence | done | done | done |].
  destruct (updated_row_wins log t3 room (fun r => r <| mr_state := Active |>) d1 m1) as [Hm2 Hok2]; try done.
  destruct (host_starts t3 room host d1 m1) as (d2 & pubs & hr & row & E3 & M2 & P2); try done.
  { eapply live_row_found; [exact Hok1 | by apply found_live]. }
  { intros k q Hq. by apply (ok_participant _ Hok1) in Hq as []. }
  set (m2 := m1 <| mr_state := Active |> <| mr_updated_at := t3 |>) in *.
  assert (get_by_room_id room d2 = Some m2) as Hm2' by (by rewrite (get_by_room_same room _ _ M2)).
  destruct (status_of_row t4 guest room d2 m2 p Hm2') as (reply & E4 & _ & _ & T4); [done | |].
  { rewrite P2, lookup_insert_ne; [done|]. intros [= ?]. congruence. }
  rewrite bool_decide_true in T4 by done. destruct T4 as (token & T4 & _).
  exists d1, d2, info, hr, pubs, reply, m2, token. split_and!; try done.
  unfold serve. simpl. by rewrite Hm1.
Qed.

(** ** Unsafe room names *)

(** Joining creates rooms nobody can enter. [POST /meetings] checks the name of a
    meeting, but joining a room that does not exist creates it under any name: the user
    becomes its host and gets a token, which the media server then refuses as an
    attack. *)
Theorem unsafe_room_locks_out
    (jwt_decode : string -> string -> result RoomAccessTokenClaims JwtError) (server_now : Z)
    evs now room user :
  let d := sv_db (run api_step started evs).1 in
  (forall secret claims t, encode_room secret claims = Ok t -> iss claims = ISSUER ->
     server_now < exp claims -> jwt_decode secret t = Ok claims) ->
  get_by_room_id room d = None -> valid_id room = false -> varchar_255 room = true -> varchar_255 user = true ->
  db_meeting_seq d < 2 ^ 31 -> db_participant_seq d < 2 ^ 31 ->
  server_now < wrap_i 64 (timestamp now + as_token_ttl_secs st) ->
  is_ok (validate_meeting_id room) = false /\
  exists d1 pubs r token error, serve now user (JoinMeeting room None) d = (d1, pubs, Ok (BStatus r)) /\
    ps_room_token r = Some token /\
    decode_room_token jwt_decode (as_jwt_secret st) token = Err error /\ is_suspicious error = true.
Proof.
  intros d Hjwt Hnone Hv Hroom Huser Hms Hps Hexp. split.
  { unfold validate_meeting_id. rewrite Hv. by repeat case_match. }
  pose proof (so_world _ _ _ _ _ (reachable_ok scan_participants scan_meetings st evs)) as Hok. fold d in Hok.
  assert (exists d1 m, create_with_options now room user None [] true d = (d1, Ok m) /\
    mr_creator_id m = Some user /\ mr_state m = Idle /\ db_meetings d1 !! mr_id m = Some m /\
    db_participants d1 = db_participants d /\ db_participant_seq d1 = db_participant_seq d)
    as (d1 & m & Ec & Hc & Hi & Hm & Ep & Eq).
  { unfold create_with_options. destruct (Z.leb_spec (2 ^ 31) (db_meeting_seq d)); [lia|].
    rewrite Hroom, Huser. simpl. rewrite bool_decide_false.
    - eexists _, _. split; [done|]. simpl. rewrite lookup_insert_eq. done.
    - unfold get_by_room_id in Hnone. destruct (live_rows room d); [tauto | done]. }
  destruct (host_enters now room user d1 m Hm) as (d2 & pubs & r & row & t & E & Et & Henc & _ & _);
    [congruence | done | by rewrite Eq | |].
  { intros k p. rewrite Ep. intros Hp. by apply (ok_participant _ Hok) in Hp as []. }
  unfold serve. simpl. rewrite Hnone. simpl. rewrite Ec. simpl. unfold is_creator.
  rewrite bool_decide_true by done. rewrite solo_bind, E. simpl.
  eexists _, _, _, t, (UnsafeIdentifier "room" room). split; [done|]. split; [done|]. split; [|done].
  unfold decode_room_token. rewrite (Hjwt _ _ _ Henc); [|done..]. simpl. by rewrite Hv.
Qed.
End Flows.

(** ** Witnesses *)

(** Alice has opened the room. *)
Definition demo_opened : list api_event := request 1 1000000 "alice" (JoinMeeting "r" (Some (Some "Alice"%string))) 8.

Definition demo_meeting : MeetingRow :=
  mkMeetingRow 1 "r" 1000000 None 1000000 1000000 None (Some "alice"%string) None Active [] (Some "Alice"%string) true.

Definition demo_host : ParticipantRow :=
  mkParticipantRow 1 1 "alice" IsAdmitted true false 1000000 (Some 1000000) None 1000000 1000000 (Some "Alice"%string).

(** Bob after Alice has admitted him. *)
Definition demo_guest : ParticipantRow :=
  mkParticipantRow 2 1 "bob" IsAdmitted false false 2000000 (Some 3000000) None 2000000 3000000 None.

Lemma issued_tokens_witness :
  exists e token claims, encode_room "k" claims = Ok token /\ sub claims = "bob"%string /\ room_join claims = true /\
    (500 < exp claims -> decode_room_token (demo_jwt_decode 500) "k" token =
       if valid_id (asked_room e) then Ok claims else Err (UnsafeIdentifier "room" (asked_room e))).
Proof.
  destruct demo_last_bob as (e & r & token & E & Et).
  pose proof (demo_last_in _ _ _ E) as Hin. unfold demo_log, demo_step in Hin.
  destruct (issued_tokens_understood map_to_list map_to_list demo_state (demo_jwt_decode 500) 500 demo_evs
    "bob" e r token false (demo_jwt_law 500) Hin Et) as (claims & H0 & _ & H1 & _ & _ & H3 & H4).
  exists e, token, claims. exact (conj H0 (conj H1 (conj H3 H4))).
Defined.

Lemma waiting_room_witness :
  exists reply token claims, ps_room_token reply = Some token /\
    encode_room "k" claims = Ok token /\ sub claims = "bob"%string /\ tc_room claims = "r"%string.
Proof.
  destruct (waiting_room_protocol map_to_list map_to_list demo_state (demo_encode_total "k") demo_opened
    2000000 3000000 4000000 5000000 "r" "alice" "bob" None demo_meeting demo_host)
    as (d1 & d2 & r1 & r2 & r3 & r4 & observer & token & claims & H);
    [vm_compute; reflexivity | reflexivity | reflexivity | reflexivity | discriminate |
     vm_compute; reflexivity | reflexivity | reflexivity | vm_compute; reflexivity | reflexivity | reflexivity |
     reflexivity |].
  destruct H as (_ & _ & _ & _ & _ & _ & _ & _ & H1 & H2 & H3 & H4 & _).
  exists r4, token, claims. exact (conj H1 (conj H2 (conj H3 H4))).
Defined.

Lemma restart_readmits_witness :
  exists d reply m token, mr_waiting_room_enabled m = true /\ mr_state m = Active /\
    get_by_room_id "r" d = Some m /\
    serve map_to_list map_to_list demo_state 8000000 "bob" (GetMyStatus "r") d = (d, [], Ok (BStatus reply)) /\
    ps_room_token reply = Some token.
Proof.
  destruct (restart_readmits map_to_list map_to_list demo_state (demo_encode_total "k") demo_evs
    5000000 6000000 7000000 8000000 "r" "alice" "bob" demo_meeting demo_guest)
    as (d1 & d2 & info & hr & pubs & reply & m2 & token & H);
    [vm_compute; reflexivity | reflexivity | reflexivity | reflexivity | discriminate | reflexivity |
     vm_compute; reflexivity | vm_compute; reflexivity | reflexivity |].
  destruct H as (_ & _ & _ & _ & H1 & H2 & H3 & H4 & H5).
  exists d2, reply, m2, token. exact (conj H3 (conj H2 (conj H1 (conj H4 H5)))).
Defined.

Lemma unsafe_room_witness :
  is_ok (validate_meeting_id "a.b") = false /\
  exists token error, decode_room_token (demo_jwt_decode 500) "k" token = Err error /\ is_suspicious error = true.
Proof.
  destruct (unsafe_room_locks_out map_to_list map_to_list demo_state (demo_encode_total "k") (demo_jwt_decode 500) 500
    [] 1000000 "a.b" "alice" (demo_jwt_law 500)) as [H (d1 & pubs & r & token & error & _ & _ & H2 & H3)];
    [vm_compute; reflexivity.. |].
  split; [exact H|]. exists token, error. exact (conj H2 H3).
Defined.
