(* ===== verification/Login.v ===== *)
(** * Login (meeting-api/src/oauth.rs, routes/oauth.rs, db/oauth.rs)

    The OAuth flow: [login] stores a one-time state and sends the browser to the
    identity provider; the provider sends it back to [callback], which consumes the
    state, exchanges the code for an ID token, and sets a session cookie.

    Other requests may run while [callback] waits for the provider, so it is two steps:
    [callback_start] up to the exchange and [callback_finish] after it. The cache of keys
    is the only state they share meanwhile, and what a callback reads of it is what it
    would read with the refresh of another callback wholly before or after its own. What
    the provider answers, how each query ends ([outcome]), the URL parser, the HTTP
    header check and the JWT library are arguments. *)
From Stdlib Require Import Ascii.
From S2P Require Import Prelude Protocol TokenValidator MeetingDb MeetingApi.

(** ** Strings *)

Definition starts_with (prefix s : string) : bool := bool_decide (is_Some (strip_prefix prefix s)).

Definition of_codes (l : list N) : string := String.string_of_list_ascii (ascii_of_N <$> l).

(** The encodings of the characters with the property White_Space. *)
Definition WHITE_SPACE : list string :=
  of_codes <$> ([[9]; [10]; [11]; [12]; [13]; [32]; [194; 133]; [194; 160]; [225; 154; 128];
    [226; 128; 128]; [226; 128; 129]; [226; 128; 130]; [226; 128; 131]; [226; 128; 132]; [226; 128; 133];
    [226; 128; 134]; [226; 128; 135]; [226; 128; 136]; [226; 128; 137]; [226; 128; 138];
    [226; 128; 168]; [226; 128; 169]; [226; 128; 175]; [226; 129; 159]; [227; 128; 128]])%N.

Fixpoint rev_app (s acc : string) : string :=
  match s with EmptyString => acc | String c s' => rev_app s' (String c acc) end.

Definition rev_string (s : string) : string := rev_app s EmptyString.

(** The length of the space the string starts with, if it does. *)
Definition space_length (table : list string) (s : string) : nat :=
  match filter (fun w => starts_with w s = true) table with
  | w :: _ => String.length w
  | [] => 0
  end.

Fixpoint skip_spaces (table : list string) (skip : nat) (s : string) : string :=
  match s with
  | EmptyString => EmptyString
  | String _ s' =>
      match skip with
      | S k => skip_spaces table k s'
      | O => match space_length table s with
             | O => s
             | S k => skip_spaces table k s'
             end
      end
  end.

(** [str::trim]. *)
Definition trim_unicode (s : string) : string :=
  rev_string (skip_spaces (rev_string <$> WHITE_SPACE) 0 (rev_string (skip_spaces WHITE_SPACE 0 s))).

(** [trim_end_matches('/')]. *)
Fixpoint trim_end_slashes (s : string) : string :=
  match s with
  | EmptyString => EmptyString
  | String c s' =>
      match trim_end_slashes s' with
      | EmptyString => if bool_decide (c = "/"%char) then EmptyString else String c EmptyString
      | t => String c t
      end
  end.

(** A signed integer in decimal. *)
Definition show_i64 (n : Z) : string := if n <? 0 then "-" +:+ show_u64 (- n) else show_u64 n.

(** ** Cookies (routes/oauth.rs) *)

Definition cookie_attributes (domain : option string) (secure : bool) (cookie : string) : string :=
  let cookie := if secure then cookie +:+ "; Secure" else cookie in
  match domain with Some d => cookie +:+ "; Domain=" +:+ d | None => cookie end.

Definition build_session_cookie (name jwt : string) (ttl_secs : Z) (domain : option string) (secure : bool)
    : string :=
  cookie_attributes domain secure
    (name +:+ "=" +:+ jwt +:+ "; Path=/; HttpOnly; SameSite=Lax; Max-Age=" +:+ show_i64 ttl_secs).

Definition build_clear_session_cookie (name : string) (domain : option string) (secure : bool) : string :=
  cookie_attributes domain secure (name +:+ "=; Path=/; HttpOnly; SameSite=Lax; Max-Age=0").

(** ** Claims (oauth.rs) *)

(** [aud] is the raw JSON value. *)
Record IdTokenClaims : Type := mkIdTokenClaims {
  ic_email : option string;
  ic_name : string;
  ic_email_verified : option bool;
  ic_given_name : option string;
  ic_family_name : option string;
  ic_nonce : option string;
  ic_iss : option string;
  ic_aud : option string;
  ic_exp : option Z;
}.

#[export] Instance eta_IdTokenClaims : Eta IdTokenClaims := fun c =>
  mkIdTokenClaims (ic_email c) (ic_name c) (ic_email_verified c) (ic_given_name c) (ic_family_name c)
    (ic_nonce c) (ic_iss c) (ic_aud c) (ic_exp c).

Definition is_empty (s : string) : bool := bool_decide (s = EmptyString).

Definition display_name (c : IdTokenClaims) : string :=
  if negb (is_empty (ic_name c)) then ic_name c
  else
    match ic_given_name c, ic_family_name c with
    | Some g, Some f => if negb (is_empty g) then g +:+ " " +:+ f else default EmptyString (ic_email c)
    | Some g, None => if negb (is_empty g) then g else default EmptyString (ic_email c)
    | _, _ => default EmptyString (ic_email c)
    end.

Record OAuthTokenResponse : Type := mkTokenResponse {
  tr_access_token : string;
  tr_id_token : option string;
  tr_refresh_token : option string;
}.

Record UserInfoResponse : Type := mkUserInfo {
  ui_email : option string;
  ui_name : option string;
  ui_given_name : option string;
  ui_family_name : option string;
}.

(** ** The keys of the provider *)

Inductive Algorithm : Type := RS256 | RS384 | RS512 | ES256 | ES384.

Record JwkEntry : Type := mkJwk {
  jk_kid : option string;
  jk_kty : string;
  jk_alg : option string;
  jk_n : option string;
  jk_e : option string;
  jk_crv : option string;
  jk_x : option string;
  jk_y : option string;
}.

Definition default_algorithm (jwk : JwkEntry) : Algorithm :=
  if bool_decide (jk_kty jwk = "EC"%string) then
    if bool_decide (jk_crv jwk = Some "P-384"%string) then ES384 else ES256
  else RS256.

Definition jwk_algorithm (jwk : JwkEntry) : Algorithm :=
  match jk_alg jwk with
  | Some alg =>
      if bool_decide (alg = "RS384"%string) then RS384
      else if bool_decide (alg = "RS512"%string) then RS512
      else if bool_decide (alg = "ES256"%string) then ES256
      else if bool_decide (alg = "ES384"%string) then ES384
      else if bool_decide (alg = "RS256"%string) then RS256
      else if bool_decide (jk_kty jwk = "RSA"%string) then RS256
      else default_algorithm jwk
  | None => default_algorithm jwk
  end.

Definition JWKS_REFRESH_INTERVAL_SECS : Z := 300.

(** What an HTTP exchange gives: no answer, or a status with a body that may fail to
    arrive. *)
Inductive HttpReply : Type :=
| NoAnswer (error : string)
| Answer (status : Z) (body : result string string).

Definition is_success (status : Z) : bool := (200 <=? status) && (status <? 300).

Section Login.
Context {K : Type}.
(** [jsonwebtoken]: building keys, reading the header, checking a token. *)
Context (from_rsa_components from_ec_components : string -> string -> result K string).
Context (header_kid : string -> result (option string) string).
Context (decode_id_token : Algorithm -> K -> string -> option string -> string -> result IdTokenClaims string).
(** [base64], [serde_json], [url] and [http]. *)
Context (b64_decode : string -> result string string).
Context (parse_claims : string -> result IdTokenClaims string).
Context (parse_jwks : string -> result (list JwkEntry) string).
Context (parse_token_response : string -> result OAuthTokenResponse string).
Context (parse_userinfo : string -> result UserInfoResponse string).
Context (url_origin : string -> option string).
Context (header_value_ok : string -> bool).
Context (status_text : Z -> string).

Record JwksCache : Type := mkJwksCache {
  jc_keys : gmap string (Algorithm * K);
  jc_last_refresh : Z;
}.

(** The cache of a new server, started at [now]. *)
Definition jwks_new (now : Z) : JwksCache := mkJwksCache ∅ (now - from_secs (JWKS_REFRESH_INTERVAL_SECS + 1)).

(** The key of one entry; [None] when the entry is skipped. *)
Definition jwk_key (jwk : JwkEntry) : result (option K) AppError :=
  if bool_decide (jk_kty jwk = "RSA"%string) then
    let n := default EmptyString (jk_n jwk) in
    let e := default EmptyString (jk_e jwk) in
    if is_empty n || is_empty e then Ok None
    else match from_rsa_components n e with
         | Ok k => Ok (Some k)
         | Err m => Err (internal ("Invalid RSA JWK: " +:+ m))
         end
  else if bool_decide (jk_kty jwk = "EC"%string) then
    let x := default EmptyString (jk_x jwk) in
    let y := default EmptyString (jk_y jwk) in
    if is_empty x || is_empty y then Ok None
    else match from_ec_components x y with
         | Ok k => Ok (Some k)
         | Err m => Err (internal ("Invalid EC JWK: " +:+ m))
         end
  else Ok None.

Fixpoint collect_keys (entries : list JwkEntry) (keys : gmap string (Algorithm * K))
    : result (gmap string (Algorithm * K)) AppError :=
  match entries with
  | [] => Ok keys
  | jwk :: rest =>
      match jk_kid jwk with
      | None => collect_keys rest keys
      | Some kid =>
          k <-? jwk_key jwk;;
          collect_keys rest (match k with Some k => <[kid := (jwk_algorithm jwk, k)]> keys | None => keys end)
      end
  end.

Definition refresh (now : Z) (reply : HttpReply) (c : JwksCache) : JwksCache * result unit AppError :=
  if duration_since now (jc_last_refresh c) / NS_PER_SEC <? JWKS_REFRESH_INTERVAL_SECS then (c, Ok tt)
  else
    match reply with
    | NoAnswer e => (c, Err (internal ("JWKS fetch failed: " +:+ e)))
    | Answer status body =>
        if negb (is_success status)
        then (c, Err (internal ("JWKS fetch returned HTTP " +:+ status_text status)))
        else
          match (b <-? body;; parse_jwks b) with
          | Err e => (c, Err (internal ("Failed to parse JWKS: " +:+ e)))
          | Ok doc =>
              match collect_keys doc ∅ with
              | Err e => (c, Err e)
              | Ok keys => (mkJwksCache keys now, Ok tt)
              end
          end
    end.

Definition get_key (now : Z) (reply : HttpReply) (kid : string) (c : JwksCache)
    : JwksCache * result (Algorithm * K) AppError :=
  match jc_keys c !! kid with
  | Some k => (c, Ok k)
  | None =>
      let '(c, r) := refresh now reply c in
      (c, _ <-? r;;
          match jc_keys c !! kid with
          | Some k => Ok k
          | None => Err (internal ("JWKS key not found for kid: " +:+ kid))
          end)
  end.

Definition check_nonce (expected : option string) (claims : IdTokenClaims) : result IdTokenClaims AppError :=
  match expected with
  | None => Ok claims
  | Some e =>
      match ic_nonce claims with
      | Some n => if bool_decide (n = e) then Ok claims else Err (internal "JWT nonce mismatch")
      | None => Err (internal "JWT missing expected nonce")
      end
  end.

Definition verify_and_decode_id_token (now : Z) (reply : HttpReply) (id_token client_id : string)
    (issuer expected_nonce : option string) (jwks : JwksCache) : JwksCache * result IdTokenClaims AppError :=
  match header_kid id_token with
  | Err e => (jwks, Err (internal ("Invalid JWT header: " +:+ e)))
  | Ok None => (jwks, Err (internal "JWT header missing kid"))
  | Ok (Some kid) =>
      let '(jwks, found) := get_key now reply kid jwks in
      (jwks, k <-? found;;
             claims <-? map_err (fun e => internal ("JWT validation failed: " +:+ e))
                          (decode_id_token k.1 k.2 client_id issuer id_token);;
             check_nonce expected_nonce claims)
  end.

Definition build_auth_url (auth_url client_id redirect_url scopes code_challenge csrf_state : string)
    (nonce : option string) : string :=
  let url := auth_url +:+ "?client_id=" +:+ client_id +:+ "&redirect_uri=" +:+ redirect_url +:+
    "&response_type=code&scope=" +:+ scopes +:+ "&prompt=select_account&code_challenge=" +:+ code_challenge +:+
    "&code_challenge_method=S256&state=" +:+ csrf_state in
  match nonce with Some n => url +:+ "&nonce=" +:+ n | None => url end.

Definition decode_id_token_claims_unverified (id_token : string) : result IdTokenClaims AppError :=
  match split_dots id_token !! 1%nat with
  | None => Err (internal "Invalid id_token format")
  | Some claims_b64 =>
      claims_bytes <-? map_err (fun e => internal ("Failed to base64-decode id_token: " +:+ e)) (b64_decode claims_b64);;
      map_err (fun e => internal ("Failed to parse id_token claims: " +:+ e)) (parse_claims claims_bytes)
  end.

(** The form posted to the token endpoint. *)
Definition token_form (redirect_url client_id : string) (client_secret : option string)
    (code_verifier authorization_code : string) : list (string * string) :=
  [("grant_type", "authorization_code"); ("redirect_uri", redirect_url); ("client_id", client_id);
   ("code", authorization_code); ("code_verifier", code_verifier)]%string ++
  match client_secret with Some secret => [("client_secret"%string, secret)] | None => [] end.

(** After the post: the answer of the token endpoint, and of the key endpoint should it be asked. *)
Definition exchange_code_for_claims (now : Z) (token_reply jwks_reply : HttpReply) (client_id : string)
    (jwks : option JwksCache) (issuer expected_nonce : option string)
    : option JwksCache * result (OAuthTokenResponse * IdTokenClaims) AppError :=
  match token_reply with
  | NoAnswer e => (jwks, Err (internal ("OAuth token request failed: " +:+ e)))
  | Answer status body =>
      if negb (is_success status) then (jwks, Err (internal "OAuth token exchange failed"))
      else
        match (text <-? map_err (fun e => internal ("Failed to read OAuth response: " +:+ e)) body;;
               map_err (fun e => internal ("Failed to parse OAuth response: " +:+ e)) (parse_token_response text)) with
        | Err e => (jwks, Err e)
        | Ok token_response =>
            match tr_id_token token_response with
            | None => (jwks, Err (internal "OAuth response missing id_token"))
            | Some id_token =>
                match jwks with
                | Some cache =>
                    let '(cache, claims) :=
                      verify_and_decode_id_token now jwks_reply id_token client_id issuer expected_nonce cache in
                    (Some cache, c <-? claims;; Ok (token_response, c))
                | None =>
                    (None, c <-? decode_id_token_claims_unverified id_token;; Ok (token_response, c))
                end
            end
        end
  end.

Definition fetch_userinfo (reply : HttpReply) : result UserInfoResponse AppError :=
  match reply with
  | NoAnswer e => Err (internal ("UserInfo request failed: " +:+ e))
  | Answer status body =>
      if negb (is_success status) then
        Err (internal ("UserInfo endpoint returned HTTP " +:+ status_text status +:+ ": " +:+
          match body with Ok b => b | Err _ => EmptyString end))
      else map_err (fun e => internal ("Failed to parse UserInfo response: " +:+ e)) (b <-? body;; parse_userinfo b)
  end.

(** ** Configuration and state *)

Record OAuthConfig : Type := mkOAuthConfig {
  oc_client_id : string;
  oc_client_secret : option string;
  oc_redirect_url : string;
  oc_issuer : option string;
  oc_auth_url : string;
  oc_token_url : string;
  oc_userinfo_url : option string;
  oc_scopes : string;
  oc_after_login_url : string;
  oc_allowed_redirect_urls : list string;
}.

Record CookieConfig : Type := mkCookieConfig {
  cc_domain : option string;
  cc_secure : bool;
}.

(** A row of [oauth_requests]; the table has no key. *)
Record OAuthRequestRow : Type := mkOAuthRequest {
  or_pkce_challenge : option string;
  or_pkce_verifier : option string;
  or_csrf_state : option string;
  or_return_to : option string;
  or_nonce : option string;
}.

Record UserRow : Type := mkUserRow {
  us_name : string;
  us_access_token : string;
  us_refresh_token : option string;
  us_created_at : Z;
  us_last_login : Z;
}.

Record LoginServer : Type := mkLoginServer {
  lg_requests : list OAuthRequestRow;
  lg_users : gmap string UserRow;
  lg_jwks : option JwksCache;
  lg_pending : gmap Z OAuthRequestRow;
}.

#[export] Instance eta_LoginServer : Eta LoginServer := fun s =>
  mkLoginServer (lg_requests s) (lg_users s) (lg_jwks s) (lg_pending s).

(** ** Queries (db/oauth.rs) *)

Definition store_oauth_request (row : OAuthRequestRow) (s : LoginServer) : LoginServer * result unit SqlError :=
  if varchar_255_opt (or_nonce row)
  then (s <| lg_requests := lg_requests s ++ [row] |>, Ok tt)
  else (s, Err ValueTooLong).

Definition has_state (csrf_state : string) (row : OAuthRequestRow) : Prop := or_csrf_state row = Some csrf_state.

#[export] Instance has_state_dec csrf row : Decision (has_state csrf row).
Proof. unfold has_state. apply _. Defined.

Definition fetch_oauth_request (csrf_state : string) (s : LoginServer)
    : LoginServer * result (option OAuthRequestRow) SqlError :=
  (s <| lg_requests := filter (fun r => ~ has_state csrf_state r) (lg_requests s) |>,
   Ok (head (filter (has_state csrf_state) (lg_requests s)))).

Definition upsert_user (now : Z) (email name access_token : string) (refresh_token : option string)
    (s : LoginServer) : LoginServer * result unit SqlError :=
  if varchar_255 email then
    let created := match lg_users s !! email with Some u => us_created_at u | None => now end in
    (s <| lg_users := <[email := mkUserRow name access_token refresh_token created now]> (lg_users s) |>, Ok tt)
  else (s, Err ValueTooLong).

(** A query that ends as [o] says. *)
Definition query_ends {X : Type} (o : outcome) (q : LoginServer -> LoginServer * result X SqlError) (s : LoginServer)
    : LoginServer * result X SqlError :=
  match o with
  | Served => q s
  | LostBefore => (s, Err ConnectionLost)
  | LostAfter => ((q s).1, Err ConnectionLost)
  end.

(** ** Redirection targets *)

Definition same_origin (candidate url : string) : bool :=
  match url_origin url with Some o => bool_decide (o = candidate) | None => false end.

Definition validate_return_to (raw after_login_url : string) (allowed_redirect_urls : list string) : option string :=
  let trimmed := trim_unicode raw in
  if is_empty trimmed then None
  else if starts_with "/" trimmed then
    if starts_with "//" trimmed then None else Some trimmed
  else if negb (starts_with "http://" trimmed) && negb (starts_with "https://" trimmed) then None
  else
    match url_origin trimmed with
    | None => None
    | Some candidate_origin =>
        if same_origin candidate_origin after_login_url then Some trimmed
        else if existsb (same_origin candidate_origin) allowed_redirect_urls then Some trimmed
        else None
    end.

Definition redirect_target (cfg : OAuthConfig) (return_to : option string) : string :=
  match return_to with
  | Some value =>
      if starts_with "http://" value || starts_with "https://" value then
        default (oc_after_login_url cfg)
          (validate_return_to value (oc_after_login_url cfg) (oc_allowed_redirect_urls cfg))
      else trim_end_slashes (oc_after_login_url cfg) +:+ value
  | None => oc_after_login_url cfg
  end.

(** ** Handlers *)

Inductive HttpResponse : Type :=
| RedirectTo (url : string)
| RedirectWithCookie (url cookie : string)
| OkWithCookie (cookie : string)
| ErrorResponse (e : AppError).

(** The random values of a login, from [oauth2]. *)
Record LoginRandom : Type := mkLoginRandom {
  lr_csrf : string;
  lr_challenge : string;
  lr_verifier : string;
  lr_nonce : string;
}.

Context (st : AppState) (cookies : CookieConfig) (oauth : option OAuthConfig).
Context {crypto : Crypto}.

Definition login (db : outcome) (random : LoginRandom) (return_to : option string) (s : LoginServer)
    : LoginServer * HttpResponse :=
  match oauth with
  | None => (s, ErrorResponse (internal "OAuth not configured"))
  | Some cfg =>
      let return_to := u ← return_to;
        validate_return_to u (oc_after_login_url cfg) (oc_allowed_redirect_urls cfg) in
      let '(s, stored) := query_ends db (store_oauth_request
        (mkOAuthRequest (Some (lr_challenge random)) (Some (lr_verifier random)) (Some (lr_csrf random))
           return_to (Some (lr_nonce random)))) s in
      (s, match stored with
          | Err e => ErrorResponse (from_sqlx e)
          | Ok _ => RedirectTo (build_auth_url (oc_auth_url cfg) (oc_client_id cfg) (oc_redirect_url cfg)
              (oc_scopes cfg) (lr_challenge random) (lr_csrf random) (Some (lr_nonce random)))
          end)
  end.

(** [callback] up to the exchange: the form is posted and the request waits, or it is
    answered with an error. *)
Definition callback_start (db : outcome) (id : Z) (state code : string) (s : LoginServer)
    : LoginServer * result (list (string * string)) HttpResponse :=
  match oauth with
  | None => (s, Err (ErrorResponse (internal "OAuth not configured")))
  | Some cfg =>
      let '(s, found) := query_ends db (fetch_oauth_request state) s in
      match found with
      | Err e => (s, Err (ErrorResponse (from_sqlx e)))
      | Ok None => (s, Err (ErrorResponse (mkAppError 400 (mkAPIError "INTERNAL_ERROR" "Internal server error"
                                                             (Some "invalid OAuth state"%string)))))
      | Ok (Some row) =>
          match or_pkce_verifier row with
          | None => (s, Err (ErrorResponse (internal "missing PKCE verifier")))
          | Some verifier =>
              (s <| lg_pending := <[id := row]> (lg_pending s) |>,
               Ok (token_form (oc_redirect_url cfg) (oc_client_id cfg) (oc_client_secret cfg) verifier code))
          end
      end
  end.

Definition lacks_email (claims : IdTokenClaims) : bool := from_option is_empty true (ic_email claims).

Definition merge_userinfo (user_info : UserInfoResponse) (claims : IdTokenClaims) : IdTokenClaims :=
  let claims := if lacks_email claims then claims <| ic_email := ui_email user_info |> else claims in
  let claims :=
    if is_empty (ic_name claims) then
      match ui_name user_info with Some n => claims <| ic_name := n |> | None => claims end
    else claims in
  let claims :=
    match ic_given_name claims with None => claims <| ic_given_name := ui_given_name user_info |> | Some _ => claims end in
  match ic_family_name claims with
  | None => claims <| ic_family_name := ui_family_name user_info |>
  | Some _ => claims
  end.

Definition complete_claims (cfg : OAuthConfig) (userinfo_reply : HttpReply) (claims : IdTokenClaims)
    : result IdTokenClaims AppError :=
  if lacks_email claims then
    match oc_userinfo_url cfg with
    | Some _ => user_info <-? fetch_userinfo userinfo_reply;; Ok (merge_userinfo user_info claims)
    | None => Ok claims
    end
  else Ok claims.

(** The provider's three answers. *)
Record ProviderReplies : Type := mkReplies {
  rp_token : HttpReply;
  rp_jwks : HttpReply;
  rp_userinfo : HttpReply;
}.

(** After the exchange (the wall clock is [now], in microseconds): the user is recorded and the session cookie set. *)
Definition issue_session (db : outcome) (now : Z) (cfg : OAuthConfig) (row : OAuthRequestRow) (token : OAuthTokenResponse)
    (claims : IdTokenClaims) (s : LoginServer) : LoginServer * HttpResponse :=
  match ic_email claims with
  | Some email =>
      if is_empty email then (s, ErrorResponse (internal "Email not available from ID token or UserInfo"))
      else
        let name := display_name claims in
        let '(s, stored) := query_ends db
          (upsert_user now email name (tr_access_token token) (tr_refresh_token token)) s in
        match (_ <-? map_err from_sqlx stored;;
               generate_session_token now (as_jwt_secret st) email name (as_session_ttl_secs st)) with
        | Err e => (s, ErrorResponse e)
        | Ok jwt =>
            let cookie := build_session_cookie (as_cookie_name st) jwt (as_session_ttl_secs st)
                            (cc_domain cookies) (cc_secure cookies) in
            if header_value_ok cookie
            then (s, RedirectWithCookie (redirect_target cfg (or_return_to row)) cookie)
            else (s, ErrorResponse (internal "failed to build session cookie header"))
        end
  | None => (s, ErrorResponse (internal "Email not available from ID token or UserInfo"))
  end.

(** [instant] is the monotonic clock, in nanoseconds. *)
Definition callback_finish (db : outcome) (instant now : Z) (id : Z) (replies : ProviderReplies) (s : LoginServer)
    : LoginServer * option HttpResponse :=
  match oauth, lg_pending s !! id with
  | Some cfg, Some row =>
      let s := s <| lg_pending := delete id (lg_pending s) |> in
      let '(jwks, exchanged) :=
        exchange_code_for_claims instant (rp_token replies) (rp_jwks replies) (oc_client_id cfg) (lg_jwks s)
          (oc_issuer cfg) (or_nonce row) in
      let s := s <| lg_jwks := jwks |> in
      match exchanged with
      | Err e => (s, Some (ErrorResponse e))
      | Ok (token, claims) =>
          match complete_claims cfg (rp_userinfo replies) claims with
          | Err e => (s, Some (ErrorResponse e))
          | Ok claims => let '(s, r) := issue_session db now cfg row token claims s in (s, Some r)
          end
      end
  | _, _ => (s, None)
  end.

(** The session endpoints answer from the session token alone. *)
Definition check_session (now : Z) (parts : Headers) : result Z AppError :=
  _ <-? from_request_parts now parts st;; Ok 200.

Definition get_profile (now : Z) (parts : Headers) : result (string * string) AppError :=
  user <-? from_request_parts now parts st;; Ok (au_user_id user, au_name user).

Definition logout : HttpResponse :=
  let clear := build_clear_session_cookie (as_cookie_name st) (cc_domain cookies) (cc_secure cookies) in
  if header_value_ok clear then OkWithCookie clear
  else ErrorResponse (internal "failed to build clear cookie header").

(** ** Runs *)

Inductive login_event : Type :=
| EvLogin (db : outcome) (random : LoginRandom) (return_to : option string)
| EvCallback (db : outcome) (id : Z) (state code : string)
| EvExchanged (db : outcome) (instant now : Z) (id : Z) (replies : ProviderReplies)
| EvDropped (id : Z).

(** A response, with the stored login it completes; a post to the token endpoint. *)
Inductive login_output : Type :=
| Responded (from : option OAuthRequestRow) (r : HttpResponse)
| Posted (form : list (string * string)).

Definition login_step (s : LoginServer) (ev : login_event) : LoginServer * list login_output :=
  match ev with
  | EvLogin db random return_to => let '(s, r) := login db random return_to s in (s, [Responded None r])
  | EvCallback db id state code =>
      match lg_pending s !! id with
      | Some _ => (s, [])
      | None =>
          let '(s, r) := callback_start db id state code s in
          (s, [match r with Ok form => Posted form | Err r => Responded None r end])
      end
  | EvExchanged db instant now id replies =>
      let row := lg_pending s !! id in
      let '(s, r) := callback_finish db instant now id replies s in (s, Responded row <$> option_list r)
  | EvDropped id => (s <| lg_pending := delete id (lg_pending s) |>, [])
  end.
End Login.
