(* ===== verification/LoginProps.v ===== *)
(** * Properties of the login flow *)
From Stdlib Require Import Ascii.
From S2P Require Import Prelude Protocol TokenValidator MeetingDb MeetingApi Login DemoMeeting.

(** ** Trimming *)

Lemma str_app_nil (s : string) : s +:+ EmptyString = s.
Proof. induction s as [|c s IH]; [done | exact (f_equal (String c) IH)]. Qed.

Lemma rev_app_eq (s acc : string) : rev_app s acc = rev_string s +:+ acc.
Proof.
  unfold rev_string. revert acc. induction s as [|c s IH]; intros acc; simpl; [done|].
  rewrite IH, (IH (String c EmptyString)), str_app_assoc. done.
Qed.

Lemma rev_string_app (s t : string) : rev_string (s +:+ t) = rev_string t +:+ rev_string s.
Proof.
  induction s as [|c s IH]; [symmetry; apply str_app_nil|].
  change (rev_string (String c s +:+ t)) with (rev_app (s +:+ t) (String c EmptyString)).
  change (rev_string (String c s)) with (rev_app s (String c EmptyString)).
  by rewrite !rev_app_eq, IH, str_app_assoc.
Qed.

Lemma rev_string_involutive (s : string) : rev_string (rev_string s) = s.
Proof.
  induction s as [|c s IH]; [done|]. change (rev_string (String c s)) with (rev_app s (String c EmptyString)).
  by rewrite rev_app_eq, rev_string_app, IH.
Qed.

Lemma skip_spaces_suffix table n s : exists p, s = p +:+ skip_spaces table n s.
Proof.
  revert n. induction s as [|c s IH]; intros n; simpl; [by exists EmptyString|].
  destruct n as [|n].
  - destruct (space_length table (String c s)) as [|n]; [by exists EmptyString|].
    destruct (IH n) as [p Hp]. exists (String c p). exact (f_equal (String c) Hp).
  - destruct (IH n) as [p Hp]. exists (String c p). exact (f_equal (String c) Hp).
Qed.

(** Trimming what starts with a letter only cuts at the end. *)
Lemma trim_prefix c s : space_length WHITE_SPACE (String c s) = 0%nat ->
  exists rest, String c s = trim_unicode (String c s) +:+ rest.
Proof.
  intros Hc. unfold trim_unicode. simpl skip_spaces at 2. rewrite Hc.
  destruct (skip_spaces_suffix (rev_string <$> WHITE_SPACE) 0 (rev_string (String c s))) as [p Hp].
  exists (rev_string p). rewrite <- rev_string_app, <- Hp. by rewrite rev_string_involutive.
Qed.

Lemma starts_with_cons p prefix s : starts_with (String p prefix) s = true ->
  exists s', s = String p s' /\ starts_with prefix s' = true.
Proof.
  unfold starts_with. intros H%bool_decide_eq_true. destruct s as [|c s]; [by destruct H|]. simpl in H.
  case_bool_decide as Hc; [|by destruct H]. subst. exists s. split; [done|]. by apply bool_decide_eq_true.
Qed.

Lemma trim_http v t : (starts_with "http://" v || starts_with "https://" v) = true ->
  trim_unicode v = t -> starts_with "/" t = false.
Proof.
  intros Hv <-. assert (exists s, v = String "h" s) as [s ->].
  { apply orb_true_iff in Hv as [(s & -> & _)%starts_with_cons|(s & -> & _)%starts_with_cons]; by exists s. }
  destruct (trim_prefix "h" s eq_refl) as [rest Hrest].
  destruct (starts_with "/" (trim_unicode (String "h" s))) eqn:E; [|done].
  apply starts_with_cons in E as (s' & E & _). rewrite E in Hrest. discriminate.
Qed.

Section Flow.
Context {K : Type}.
Context (from_rsa_components from_ec_components : string -> string -> result K string).
Context (header_kid : string -> result (option string) string).
Context (decode_id_token : Algorithm -> K -> string -> option string -> string -> result IdTokenClaims string).
Context (b64_decode : string -> result string string).
Context (parse_claims : string -> result IdTokenClaims string).
Context (parse_jwks : string -> result (list JwkEntry) string).
Context (parse_token_response : string -> result OAuthTokenResponse string).
Context (parse_userinfo : string -> result UserInfoResponse string).
Context (url_origin : string -> option string).
Context (header_value_ok : string -> bool).
Context (status_text : Z -> string).
Context (st : AppState) (cookies : CookieConfig) (cfg : OAuthConfig).
Context {crypto : Crypto}.

Notation login_step := (login_step from_rsa_components from_ec_components header_kid decode_id_token
  b64_decode parse_claims parse_jwks parse_token_response parse_userinfo url_origin header_value_ok status_text st cookies (Some cfg)).
Notation callback_finish := (callback_finish from_rsa_components from_ec_components header_kid decode_id_token
  b64_decode parse_claims parse_jwks parse_token_response parse_userinfo url_origin header_value_ok status_text st cookies (Some cfg)).
Notation validate := (validate_return_to url_origin).

(** A server that has just started, with or without key verification. *)
Definition login_new (jwks : option (JwksCache (K := K))) : LoginServer := mkLoginServer [] ∅ jwks ∅.

(** ** Where a login may lead *)

Definition allowed_origin (o : string) : bool :=
  same_origin url_origin o (oc_after_login_url cfg) ||
  existsb (same_origin url_origin o) (oc_allowed_redirect_urls cfg).

(** A path below the front end, or a URL of an allowed origin. *)
Definition safe_path (v : string) : Prop := starts_with "/" v = true /\ starts_with "//" v = false.

Definition safe_target (url : string) : Prop :=
  url = oc_after_login_url cfg \/
  (exists path, safe_path path /\ url = trim_end_slashes (oc_after_login_url cfg) +:+ path) \/
  exists o, url_origin url = Some o /\ allowed_origin o = true.

Lemma validated_trims raw v a b : validate raw a b = Some v -> trim_unicode raw = v.
Proof. unfold validate_return_to. repeat (case_match; try done); intros [= <-]; done. Qed.

Lemma validated raw v :
  validate raw (oc_after_login_url cfg) (oc_allowed_redirect_urls cfg) = Some v ->
  safe_path v \/ ((starts_with "http://" v || starts_with "https://" v) = true /\
    exists o, url_origin v = Some o /\ allowed_origin o = true).
Proof.
  unfold validate_return_to. set (t := trim_unicode raw). destruct (is_empty t); [done|].
  destruct (starts_with "/" t) eqn:E1.
  { destruct (starts_with "//" t) eqn:E2; [done|]. intros [= <-]. by left. }
  destruct (negb (starts_with "http://" t) && negb (starts_with "https://" t)) eqn:E3; [done|].
  destruct (url_origin t) as [o|] eqn:E4; [|done]. intros H. right.
  assert (t = v /\ allowed_origin o = true) as [<- Ho].
  { unfold allowed_origin. destruct (same_origin url_origin o (oc_after_login_url cfg)); [by simplify_eq|].
    destruct (existsb _ _); by simplify_eq. }
  split; [|by exists o]. by destruct (starts_with "http://" t), (starts_with "https://" t).
Qed.

(** The return target of a stored login. *)
Definition row_ok (row : OAuthRequestRow) : Prop :=
  forall v, or_return_to row = Some v ->
    safe_path v \/ (starts_with "http://" v || starts_with "https://" v) = true.

Lemma redirect_target_safe row : row_ok row -> safe_target (redirect_target url_origin cfg (or_return_to row)).
Proof.
  intros Hrow. unfold redirect_target. destruct (or_return_to row) as [v|] eqn:E; [|by left].
  destruct (starts_with "http://" v || starts_with "https://" v) eqn:Eh.
  - destruct (validate v _ _) as [t|] eqn:Ev; simpl; [|by left].
    destruct (validated _ _ Ev) as [[Hs _]|[_ Ho]]; [|by right; right].
    rewrite (trim_http v t Eh) in Hs; [done|]. by eapply validated_trims.
  - right. left. exists v. split; [|done]. destruct (Hrow v E) as [|Hh]; [done | congruence].
Qed.

(** ** What is stored *)

(** Every stored or pending login satisfies [P]. *)
Definition all_rows (P : OAuthRequestRow -> Prop) (s : LoginServer (K := K)) : Prop :=
  Forall P (lg_requests s) /\ map_Forall (fun _ => P) (lg_pending s).

(** The row that a login stores. *)
Definition login_row (random : LoginRandom) (return_to : option string) : OAuthRequestRow :=
  mkOAuthRequest (Some (lr_challenge random)) (Some (lr_verifier random)) (Some (lr_csrf random))
    (u ← return_to; validate u (oc_after_login_url cfg) (oc_allowed_redirect_urls cfg)) (Some (lr_nonce random)).

Lemma issue_session_rows db now row token claims (s : LoginServer (K := K)) :
  let '(s', _) := issue_session url_origin header_value_ok st cookies db now cfg row token claims s in
  lg_requests s' = lg_requests s /\ lg_pending s' = lg_pending s /\ lg_jwks s' = lg_jwks s.
Proof.
  unfold issue_session, query_ends, upsert_user. destruct db; simpl; repeat case_match; simplify_eq/=; done.
Qed.

Lemma callback_finish_rows db instant now id replies (s : LoginServer (K := K)) :
  let '(s', _) := callback_finish db instant now id replies s in
  lg_requests s' = lg_requests s /\
  lg_pending s' = match lg_pending s !! id with Some _ => delete id (lg_pending s) | None => lg_pending s end.
Proof.
  unfold Login.callback_finish. destruct (lg_pending s !! id) as [row|] eqn:E; [|done].
  destruct (exchange_code_for_claims _ _ _ _ _ _ _ _ _ _ _ _ _ _ _ _) as [jwks [[token claims]|e]]; [|done].
  destruct (complete_claims _ _ _ _ _) as [claims'|e]; [|done].
  pose proof (issue_session_rows db now row token claims'
    (s <| lg_pending := delete id (lg_pending s) |> <| lg_jwks := jwks |>)) as H.
  destruct (issue_session _ _ _ _ _ _ _ _ _ _ _) as [s' r]. by destruct H as (-> & -> & _).
Qed.

Lemma head_filter_Some {A} (P : A -> Prop) `{!forall x, Decision (P x)} (l : list A) x :
  head (filter P l) = Some x -> P x /\ x ∈ l.
Proof.
  intros Hd. assert (x ∈ filter P l) as Hx by (destruct (filter P l); [done|]; simplify_eq/=; by left).
  by apply list_elem_of_filter in Hx.
Qed.

Lemma login_rows db random return_to (s : LoginServer (K := K)) :
  let '(s', r) := login url_origin (Some cfg) db random return_to s in
  (lg_requests s' = lg_requests s \/ lg_requests s' = lg_requests s ++ [login_row random return_to]) /\
  lg_pending s' = lg_pending s /\ lg_jwks s' = lg_jwks s /\
  match r with RedirectWithCookie _ _ => False | _ => True end.
Proof.
  unfold login, query_ends, store_oauth_request. destruct db; simpl; try destruct (varchar_255 _); simpl; auto.
Qed.

Lemma callback_start_rows db id state code (s : LoginServer (K := K)) :
  let '(s', r) := callback_start (Some cfg) db id state code s in
  let rest := filter (fun r => ~ has_state state r) (lg_requests s) in
  lg_jwks s' = lg_jwks s /\ (lg_requests s' = lg_requests s \/ lg_requests s' = rest) /\
  match r with
  | Ok form => exists row verifier, row ∈ lg_requests s /\ has_state state row /\ lg_requests s' = rest /\
      lg_pending s' = <[id := row]> (lg_pending s) /\ or_pkce_verifier row = Some verifier /\
      form = token_form (oc_redirect_url cfg) (oc_client_id cfg) (oc_client_secret cfg) verifier code
  | Err r => lg_pending s' = lg_pending s /\ exists e, r = ErrorResponse e
  end.
Proof.
  unfold callback_start, query_ends, fetch_oauth_request. destruct db; simpl; [|naive_solver..].
  destruct (head _) as [row|] eqn:E; [|naive_solver].
  destruct (or_pkce_verifier row) as [verifier|] eqn:Ev; [|naive_solver].
  split_and!; [done | by right|]. apply head_filter_Some in E as [Hs Hin]. by exists row, verifier.
Qed.

Lemma login_step_rows (P : OAuthRequestRow -> Prop) s ev :
  (forall db random return_to, ev = EvLogin db random return_to -> P (login_row random return_to)) ->
  all_rows P s -> all_rows P (login_step s ev).1.
Proof.
  intros Hlogin [Hr Hp]. destruct ev as [db random return_to|db id state code|db instant now id replies|id];
    unfold Login.login_step.
  - pose proof (login_rows db random return_to s) as H. destruct (login _ _ _ _ _ s) as [s' r].
    destruct H as (H & H' & _). split; simpl; [|by rewrite H'].
    destruct H as [->| ->]; [done|]. apply Forall_app. split; [done|]. constructor; [|done]. by eapply Hlogin.
  - destruct (lg_pending s !! id); [done|].
    pose proof (callback_start_rows db id state code s) as H. destruct (callback_start _ _ _ _ _ s) as [s' r].
    destruct H as (_ & H & H'). split; simpl.
    + destruct H as [->| ->]; [done | by apply Forall_filter_sub].
    + destruct r as [form|r]; [|by destruct H' as [-> _]]. destruct H' as (row & _ & Hin & _ & _ & -> & _).
      apply map_Forall_insert_2; [exact (Forall_elem _ _ _ Hr Hin) | done].
  - pose proof (callback_finish_rows db instant now id replies s) as H.
    destruct (callback_finish db instant now id replies s) as [s' r]. destruct H as [E1 E2].
    split; simpl; [by rewrite E1 | rewrite E2]. destruct (lg_pending s !! id); [|done]. by apply map_Forall_delete.
  - split; simpl; [done|]. by apply map_Forall_delete.
Qed.

Lemma login_row_ok random return_to : row_ok (login_row random return_to).
Proof.
  intros v Hv. simpl in Hv. destruct return_to as [raw|]; simpl in Hv; [|done].
  destruct (validated _ _ Hv) as [|[H _]]; auto.
Qed.

(** Who gets a session, and what for. *)
Lemma session_from db instant now id replies (s s' : LoginServer (K := K)) url cookie :
  callback_finish db instant now id replies s = (s', Some (RedirectWithCookie url cookie)) ->
  exists row token claims claims' email jwt,
    lg_pending s !! id = Some row /\ url = redirect_target url_origin cfg (or_return_to row) /\
    (exists jwks, exchange_code_for_claims from_rsa_components from_ec_components header_kid decode_id_token
       b64_decode parse_claims parse_jwks parse_token_response status_text instant (rp_token replies) (rp_jwks replies)
       (oc_client_id cfg) (lg_jwks s) (oc_issuer cfg) (or_nonce row) = (jwks, Ok (token, claims))) /\
    complete_claims parse_userinfo status_text cfg (rp_userinfo replies) claims = Ok claims' /\
    ic_email claims' = Some email /\ email <> EmptyString /\
    generate_session_token now (as_jwt_secret st) email (display_name claims') (as_session_ttl_secs st) = Ok jwt /\
    cookie = build_session_cookie (as_cookie_name st) jwt (as_session_ttl_secs st) (cc_domain cookies) (cc_secure cookies).
Proof.
  unfold Login.callback_finish. destruct (lg_pending s !! id) as [row|] eqn:E; [|done]. cbn [lg_jwks].
  destruct (exchange_code_for_claims _ _ _ _ _ _ _ _ _ _ _ _ _ _ _ _) as [jwks [[token claims]|e]] eqn:Ex; [|done].
  destruct (complete_claims _ _ _ _ _) as [claims'|e] eqn:Ec; [|done].
  unfold issue_session. destruct (ic_email claims') as [email|] eqn:Ee; [|done].
  unfold is_empty. case_bool_decide as Hne; [done|].
  destruct (query_ends _ _ _) as [s1 [[]|e]]; simpl; [|done].
  destruct (generate_session_token _ _ _ _ _) as [jwt|] eqn:Eg; [|done].
  destruct (header_value_ok _); [|done]. intros [= _ <- <-].
  exists row, token, claims, claims', email, jwt. split_and!; try done. by exists jwks.
Qed.

(** Only the end of a callback gives a session, and only its start posts a form. *)
Lemma login_step_session s ev from url cookie :
  Responded from (RedirectWithCookie url cookie) ∈ (login_step s ev).2 ->
  exists db instant now id replies, ev = EvExchanged db instant now id replies /\ from = lg_pending s !! id /\
    (callback_finish db instant now id replies s).2 = Some (RedirectWithCookie url cookie).
Proof.
  destruct ev as [db random return_to|db id state code|db instant now id replies|id]; unfold Login.login_step.
  - pose proof (login_rows db random return_to s) as H. destruct (login _ _ _ _ _ s) as [s' r].
    destruct H as (_ & _ & _ & H). simpl. intros Hin%list_elem_of_singleton. by simplify_eq.
  - destruct (lg_pending s !! id); [by intros ?%not_elem_of_nil|].
    pose proof (callback_start_rows db id state code s) as H. destruct (callback_start _ _ _ _ _ s) as [s' r].
    destruct H as (_ & _ & H). simpl. intros Hin%list_elem_of_singleton.
    destruct r as [form|r]; [done|]. destruct H as (_ & e & ->). done.
  - destruct (callback_finish db instant now id replies s) as [s' [r|]] eqn:E; [|by intros ?%not_elem_of_nil].
    intros Hin. apply (list_elem_of_singleton _ (Responded (lg_pending s !! id) r)) in Hin. simplify_eq. exists db, instant, now, id, replies. by rewrite E.
  - by intros ?%not_elem_of_nil.
Qed.

Lemma login_step_post s ev form :
  Posted form ∈ (login_step s ev).2 ->
  exists db id state code row verifier, ev = EvCallback db id state code /\ row ∈ lg_requests s /\
    has_state state row /\ or_pkce_verifier row = Some verifier /\
    form = token_form (oc_redirect_url cfg) (oc_client_id cfg) (oc_client_secret cfg) verifier code.
Proof.
  destruct ev as [db random return_to|db id state code|db instant now id replies|id]; unfold Login.login_step.
  - destruct (login _ _ _ _ _ s) as [s' r]. simpl. by intros Hin%list_elem_of_singleton.
  - destruct (lg_pending s !! id); [by intros ?%not_elem_of_nil|].
    pose proof (callback_start_rows db id state code s) as H. destruct (callback_start _ _ _ _ _ s) as [s' r].
    destruct H as (_ & _ & H). simpl. intros Hin%list_elem_of_singleton. destruct r as [f|r]; [|done]. simplify_eq.
    destruct H as (row & verifier & Hin & Hs & _ & _ & Hv & ->). by exists db, id, state, code, row, verifier.
  - destruct (callback_finish _ _ _ _ _ s) as [s' [r|]]; simpl; [|by intros ?%not_elem_of_nil].
    by intros Hin%list_elem_of_singleton.
  - by intros ?%not_elem_of_nil.
Qed.

(** C21: a login cannot be turned into a redirection elsewhere. Whatever return addresses
    are asked for, over any interleaving of logins and callbacks, the browser that gets a
    session is sent to the front end, to a path below it, or to a URL whose origin is
    configured. *)
Theorem redirect_is_safe jwks evs from url cookie :
  Responded from (RedirectWithCookie url cookie) ∈ (run login_step (login_new jwks) evs).2 -> safe_target url.
Proof.
  intros Hin. assert (Forall (fun o => forall from url cookie,
      o = Responded from (RedirectWithCookie url cookie) -> safe_target url) (run login_step (login_new jwks) evs).2)
    as Hout; [|exact (Forall_elem _ _ _ Hout Hin _ _ _ eq_refl)].
  apply (run_invariant login_step (all_rows row_ok)); [|by split; [constructor | apply map_Forall_empty]].
  intros s ev Hs. pose proof (login_step_rows row_ok s ev) as Hrows.
  pose proof (login_step_session s ev) as Hout. destruct (login_step s ev) as [s' out].
  split; [apply Hrows; [intros; apply login_row_ok | done]|]. apply Forall_forall. intros o Ho f u c ->.
  destruct (Hout _ _ _ Ho) as (db & instant & now & id & replies & _ & _ & E).
  destruct (callback_finish db instant now id replies s) as [s1 r] eqn:Ef. simpl in E. subst r.
  apply session_from in Ef as (row & ? & ? & ? & ? & ? & Hp & -> & _).
  apply redirect_target_safe. by apply (proj2 Hs id).
Qed.

(** ** One session per login *)

Definition starts_login (σ : string) (ev : login_event) : Prop :=
  match ev with EvLogin _ random _ => lr_csrf random = σ | _ => False end.

Definition gives_session (σ : string) (o : login_output) : Prop :=
  match o with
  | Responded (Some row) (RedirectWithCookie _ _) => has_state σ row
  | _ => False
  end.

#[local] Instance starts_login_dec σ ev : Decision (starts_login σ ev).
Proof. destruct ev; simpl; apply _. Defined.

#[local] Instance gives_session_dec σ o : Decision (gives_session σ o).
Proof. destruct o as [[row|] []|]; simpl; apply _. Defined.

Definition logins (σ : string) (evs : list login_event) : nat := length (filter (starts_login σ) evs).
Definition sessions (σ : string) (out : list login_output) : nat := length (filter (gives_session σ) out).

(** The logins under way with the state [σ]. *)
Definition waiting (σ : string) (m : gmap Z OAuthRequestRow) : nat := size (filter (fun kv => has_state σ kv.2) m).

Definition open_logins (σ : string) (s : LoginServer (K := K)) : nat :=
  (length (filter (has_state σ) (lg_requests s)) + waiting σ (lg_pending s))%nat.

Lemma waiting_delete σ m id row : m !! id = Some row ->
  (waiting σ (delete id m) + (if decide (has_state σ row) then 1 else 0) <= waiting σ m)%nat.
Proof.
  intros Hrow. unfold waiting. rewrite map_filter_delete. destruct (decide (has_state σ row)) as [Hs|Hs].
  - assert (filter (fun kv => has_state σ kv.2) m !! id = Some row) as Hf by (by apply map_lookup_filter_Some_2).
    rewrite map_size_delete, Hf.
    assert (size (filter (fun kv => has_state σ kv.2) m) <> 0%nat); [|lia].
    intros H0%map_size_empty_iff. by rewrite H0, lookup_empty in Hf.
  - rewrite delete_id; [lia|]. apply map_lookup_filter_None. right. intros x Hx Hx'. by simplify_eq.
Qed.

Lemma waiting_insert σ m id row : m !! id = None ->
  waiting σ (<[id := row]> m) = (waiting σ m + (if decide (has_state σ row) then 1 else 0))%nat.
Proof.
  intros Hid. unfold waiting. destruct (decide (has_state σ row)) as [Hs|Hs].
  - rewrite map_filter_insert_True by done. rewrite map_size_insert_None; [lia|].
    apply map_lookup_filter_None. by left.
  - rewrite map_filter_insert_False by done. rewrite delete_id by done. lia.
Qed.

Lemma filter_has_state σ state (l : list OAuthRequestRow) :
  length (filter (has_state σ) (filter (fun r => ~ has_state state r) l)) =
  if decide (σ = state) then 0%nat else length (filter (has_state σ) l).
Proof.
  rewrite list_filter_filter. destruct (decide (σ = state)) as [->|Hne].
  - induction l as [|r l IH]; [done|]. rewrite filter_cons_False; [done | naive_solver].
  - f_equal. apply list_filter_iff. intros r. unfold has_state. naive_solver congruence.
Qed.

Lemma sessions_none σ r : sessions σ [Responded None r] = 0%nat.
Proof. by destruct r. Qed.

Lemma login_step_counts σ s ev :
  (sessions σ (login_step s ev).2 + open_logins σ (login_step s ev).1 <= open_logins σ s + logins σ [ev])%nat.
Proof.
  unfold open_logins. destruct ev as [db random return_to|db id state code|db instant now id replies|id];
    unfold Login.login_step.
  - pose proof (login_rows db random return_to s) as H. destruct (login _ _ _ _ _ s) as [s' r].
    destruct H as (H & Hp & _ & _). cbn [fst snd]. rewrite Hp, sessions_none. unfold logins.
    rewrite filter_cons, filter_nil. destruct H as [->| ->]; [simpl; lia|].
    rewrite filter_app, length_app, filter_cons, filter_nil. unfold has_state. simpl.
    repeat case_decide; simplify_eq/=; lia || congruence.
  - destruct (lg_pending s !! id) as [r0|] eqn:E; [simpl; lia|].
    pose proof (callback_start_rows db id state code s) as H. destruct (callback_start _ _ _ _ _ s) as [s' r].
    destruct H as (_ & H & H'). pose proof (filter_has_state σ state (lg_requests s)) as Hf. cbn [fst snd].
    destruct r as [form|r]; [change (sessions σ [Posted form]) with 0%nat | rewrite sessions_none]; simpl.
    + destruct H' as (row & _ & Hin & Hrow & -> & -> & _). rewrite Hf, waiting_insert by done.
      assert (has_state σ row -> length (filter (has_state σ) (lg_requests s)) <> 0%nat) as Hpos.
      { intros Hs. assert (row ∈ filter (has_state σ) (lg_requests s)) as Hx by (by apply list_elem_of_filter).
        intros H0%nil_length_inv. rewrite H0 in Hx. by apply not_elem_of_nil in Hx. }
      unfold has_state in *. repeat case_decide; simplify_eq/=; try lia. specialize (Hpos Hrow). lia.
    + destruct H' as (-> & _). destruct H as [->| ->]; [lia|]. rewrite Hf. case_decide; lia.
  - pose proof (callback_finish_rows db instant now id replies s) as H.
    destruct (lg_pending s !! id) as [row|] eqn:E; [|unfold Login.callback_finish; rewrite E; simpl; lia].
    destruct (callback_finish db instant now id replies s) as [s' r]. destruct H as [E1 E2]. cbn [fst snd]. rewrite E1, E2.
    pose proof (waiting_delete σ _ _ _ E) as Hw. unfold sessions.
    destruct r as [r|]; simpl; [|lia]. rewrite filter_cons, filter_nil. destruct r; simpl; repeat case_decide; simpl; lia || done.
  - simpl. destruct (lg_pending s !! id) as [row|] eqn:E.
    + pose proof (waiting_delete σ _ _ _ E). lia.
    + rewrite delete_id by done. lia.
Qed.

Lemma run_counts σ evs : forall s,
  (sessions σ (run login_step s evs).2 + open_logins σ (run login_step s evs).1
     <= open_logins σ s + logins σ evs)%nat.
Proof.
  induction evs as [|ev evs IH]; intros s; [simpl; lia|].
  pose proof (login_step_counts σ s ev) as Hstep. simpl. destruct (login_step s ev) as [s1 o1].
  specialize (IH s1). destruct (run login_step s1 evs) as [s2 o2]. simpl in *.
  unfold sessions, logins in *. rewrite filter_app, length_app. rewrite filter_cons in Hstep |- *.
  repeat case_decide; simpl in *; lia.
Qed.

(** ** What a session rests on *)

(** The provider's key endpoint answered with the key [k] under the name [kid]. *)
Definition served_key (replies : ProviderReplies) (kid : string) (alg : Algorithm) (k : K) : Prop :=
  exists status body doc jwk, rp_jwks replies = Answer status (Ok body) /\ is_success status = true /\
    parse_jwks body = Ok doc /\ jwk ∈ doc /\ jk_kid jwk = Some kid /\ jwk_algorithm jwk = alg /\
    jwk_key from_rsa_components from_ec_components jwk = Ok (Some k).

(** Its token endpoint answered with an ID token. *)
Definition answered_token (replies : ProviderReplies) (id_token : string) : Prop :=
  exists status text tr, rp_token replies = Answer status (Ok text) /\ is_success status = true /\
    parse_token_response text = Ok tr /\ tr_id_token tr = Some id_token.

(** A key served in the course of [evs]. *)
Definition known_key (evs : list login_event) (kid : string) (key : Algorithm * K) : Prop :=
  exists db instant now id replies, EvExchanged db instant now id replies ∈ evs /\ served_key replies kid key.1 key.2.

(** The cache of a server that checks keys, or does not. *)
Definition cache_ok (checks : bool) (evs : list login_event) (c : option (JwksCache (K := K))) : Prop :=
  if checks then exists cache, c = Some cache /\ map_Forall (known_key evs) (jc_keys cache) else c = None.

Lemma collect_keys_served (Q : string -> Algorithm * K -> Prop) doc : forall keys keys',
  (forall jwk kid k, jwk ∈ doc -> jk_kid jwk = Some kid ->
     jwk_key from_rsa_components from_ec_components jwk = Ok (Some k) -> Q kid (jwk_algorithm jwk, k)) ->
  map_Forall Q keys -> collect_keys from_rsa_components from_ec_components doc keys = Ok keys' -> map_Forall Q keys'.
Proof.
  induction doc as [|jwk doc IH]; intros keys keys' HQ Hkeys; simpl; [by intros [= <-]|].
  destruct (jk_kid jwk) as [kid|] eqn:Ekid.
  2: { apply IH; [|done]. intros; eapply HQ; [by right | done..]. }
  destruct (jwk_key _ _ jwk) as [[k|]|e] eqn:Ek; simpl; [| |done];
    (apply IH; [intros; eapply HQ; [by right | done..]|]); [|done].
  apply map_Forall_insert_2; [|done]. eapply HQ; [by left | done..].
Qed.

Section Exchange.
Context (evs : list login_event) (db : outcome) (instant now id : Z) (replies : ProviderReplies).
Context (Hev : EvExchanged db instant now id replies ∈ evs).

Lemma refresh_known c :
  map_Forall (known_key evs) (jc_keys c) ->
  map_Forall (known_key evs)
    (jc_keys (refresh from_rsa_components from_ec_components parse_jwks status_text instant (rp_jwks replies) c).1).
Proof.
  intros Hc. unfold refresh. destruct (_ <? _); [done|].
  destruct (rp_jwks replies) as [e|status body] eqn:Ej; [done|].
  destruct (is_success status) eqn:Es; [|done]. simpl. destruct body as [body|e]; simpl; [|done].
  destruct (parse_jwks body) as [doc|e] eqn:Ed; [|done].
  destruct (collect_keys _ _ doc ∅) as [keys|e] eqn:Ek; [|done]. simpl.
  eapply collect_keys_served; [|apply map_Forall_empty | exact Ek].
  intros jwk kid k Hin Hkid Hk. exists db, instant, now, id, replies. split; [done|].
  exists status, body, doc, jwk. by rewrite Ej.
Qed.

Lemma get_key_known kid c :
  map_Forall (known_key evs) (jc_keys c) ->
  let '(c', r) := get_key from_rsa_components from_ec_components parse_jwks status_text instant (rp_jwks replies) kid c in
  map_Forall (known_key evs) (jc_keys c') /\ forall key, r = Ok key -> known_key evs kid key.
Proof.
  intros Hc. unfold get_key. destruct (jc_keys c !! kid) as [key|] eqn:E.
  { split; [done|]. intros ? [= <-]. exact (Hc _ _ E). }
  pose proof (refresh_known c Hc) as Hr. destruct (refresh _ _ _ _ _ _ c) as [c' r]. split; [done|].
  intros key. destruct r as [[]|]; simpl; [|done]. destruct (jc_keys c' !! kid) as [key'|] eqn:E'; [|done].
  intros [= <-]. exact (Hr _ _ E').
Qed.

(** The ID token that an exchange accepts for the login with nonce [n]. *)
Definition accepted (n : string) (claims : IdTokenClaims) : Prop :=
  exists id_token kid key, answered_token replies id_token /\ header_kid id_token = Ok (Some kid) /\
    known_key evs kid key /\ decode_id_token key.1 key.2 (oc_client_id cfg) (oc_issuer cfg) id_token = Ok claims /\
    ic_nonce claims = Some n.

(** What a server takes for the claims of the login: those of a token it accepted, or, when
    it was given no key endpoint, those of whatever token the token endpoint answered with. *)
Definition vouched (checks : bool) (n : string) (claims : IdTokenClaims) : Prop :=
  if checks then accepted n claims
  else exists id_token, answered_token replies id_token /\
    decode_id_token_claims_unverified b64_decode parse_claims id_token = Ok claims.

Lemma exchange_vouched checks n jwks : cache_ok checks evs jwks ->
  let '(jwks', r) := exchange_code_for_claims from_rsa_components from_ec_components header_kid decode_id_token
       b64_decode parse_claims parse_jwks parse_token_response status_text instant (rp_token replies) (rp_jwks replies)
       (oc_client_id cfg) jwks (oc_issuer cfg) (Some n) in
  cache_ok checks evs jwks' /\ forall token claims, r = Ok (token, claims) -> vouched checks n claims.
Proof.
  intros Hsame. unfold exchange_code_for_claims. destruct (rp_token replies) as [e|status body] eqn:Et; [done|].
  destruct (is_success status) eqn:Es; [|done]. simpl. destruct body as [text|e]; simpl; [|done].
  destruct (parse_token_response text) as [tr|e] eqn:Ep; simpl; [|done].
  destruct (tr_id_token tr) as [id_token|] eqn:Ei; [|done].
  assert (answered_token replies id_token) as Hans by (exists status, text, tr; by rewrite Et).
  destruct checks; simpl in Hsame; [destruct Hsame as (cache & -> & Hc) | subst jwks].
  - unfold verify_and_decode_id_token. destruct (header_kid id_token) as [[kid|]|e] eqn:Ek;
      [|split; [by exists cache | done]..].
    pose proof (get_key_known kid cache Hc) as Hk. destruct (get_key _ _ _ _ _ _ kid cache) as [c' found].
    destruct Hk as [Hc' Hfound]. split; [by exists c'|]. intros token claims Hr.
    destruct found as [key|e]; simpl in Hr; [|done].
    destruct (decode_id_token _ _ _ _ _) as [cl|e] eqn:Ed; simpl in Hr; [|done].
    destruct (ic_nonce cl) as [m|] eqn:En; [|done]. case_bool_decide as Hm; [|done]. simplify_eq/=.
    exists id_token, kid, key. split_and!; auto.
  - split; [done|]. intros token claims Hr. destruct (decode_id_token_claims_unverified _ _ _) as [cl|e] eqn:Ed; [|done].
    simplify_eq/=. by exists id_token.
Qed.
End Exchange.

Definition from_login (evs : list login_event) (row : OAuthRequestRow) : Prop :=
  exists db random return_to, EvLogin db random return_to ∈ evs /\ row = login_row random return_to.

(** Whose session it is: the user of the token, or, when the token has no email, the user
    that the configured user info endpoint answered with. *)
Definition session_user (replies : ProviderReplies) (claims : IdTokenClaims) (email : string) : Prop :=
  if lacks_email claims then
    exists url status body info, oc_userinfo_url cfg = Some url /\ rp_userinfo replies = Answer status (Ok body) /\
      is_success status = true /\ parse_userinfo body = Ok info /\ ui_email info = Some email
  else ic_email claims = Some email.

(** A session of one login: the claims that the server took for those of the login, and
    the cookie that names their user. *)
Definition earned_session (checks : bool) (evs : list login_event) (from : option OAuthRequestRow) (cookie : string) : Prop :=
  exists db random return_to db' instant now id replies claims email name jwt,
    EvLogin db random return_to ∈ evs /\ from = Some (login_row random return_to) /\
    EvExchanged db' instant now id replies ∈ evs /\ vouched evs replies checks (lr_nonce random) claims /\
    session_user replies claims email /\ email <> EmptyString /\
    generate_session_token now (as_jwt_secret st) email name (as_session_ttl_secs st) = Ok jwt /\
    cookie = build_session_cookie (as_cookie_name st) jwt (as_session_ttl_secs st) (cc_domain cookies) (cc_secure cookies).

Lemma complete_claims_email replies claims claims' email :
  complete_claims parse_userinfo status_text cfg (rp_userinfo replies) claims = Ok claims' ->
  ic_email claims' = Some email -> email <> EmptyString -> session_user replies claims email.
Proof.
  unfold complete_claims, session_user. intros Hc He Hne. destruct (lacks_email claims) eqn:El; [|by simplify_eq].
  destruct (oc_userinfo_url cfg) as [url|].
  - unfold fetch_userinfo in Hc. destruct (rp_userinfo replies) as [e|status body] eqn:Er; [done|].
    destruct (is_success status) eqn:Es; [|done]. simpl in Hc. destruct body as [body|e]; simpl in Hc; [|done].
    destruct (parse_userinfo body) as [info|e] eqn:Ei; simpl in Hc; [|done]. injection Hc as <-.
    exists url, status, body, info. split_and!; try done. rewrite <- He. unfold merge_userinfo. rewrite El.
    repeat case_match; done.
  - injection Hc as <-. unfold lacks_email in El. rewrite He in El. simpl in El. unfold is_empty in El.
    by apply bool_decide_eq_true in El.
Qed.

Lemma callback_finish_cache checks evs db instant now id replies (s : LoginServer (K := K)) :
  EvExchanged db instant now id replies ∈ evs -> all_rows (from_login evs) s -> cache_ok checks evs (lg_jwks s) ->
  cache_ok checks evs (lg_jwks (callback_finish db instant now id replies s).1).
Proof.
  intros Hev [_ Hp] Hc. unfold Login.callback_finish. destruct (lg_pending s !! id) as [row|] eqn:E; [|done].
  destruct (Hp id row E) as (db' & random & return_to & _ & ->).
  change (lg_jwks (s <| lg_pending := delete id (lg_pending s) |>)) with (lg_jwks s).
  change (or_nonce (login_row random return_to)) with (Some (lr_nonce random)).
  pose proof (exchange_vouched evs db instant now id replies Hev checks (lr_nonce random) _ Hc) as Hx.
  destruct (exchange_code_for_claims _ _ _ _ _ _ _ _ _ _ _ _ _ _ _ _) as [jwks [[token claims]|e]];
    destruct Hx as [Hx _]; [|done].
  destruct (complete_claims _ _ _ _ _) as [claims'|e]; [|done].
  match goal with |- context [issue_session _ _ _ _ ?db ?n _ ?r ?t ?c ?s] =>
    pose proof (issue_session_rows db n r t c s) as Hi end.
  destruct (issue_session _ _ _ _ _ _ _ _ _ _ _) as [s' r]. destruct Hi as (_ & _ & Hi).
  simpl in *. by rewrite Hi.
Qed.

Lemma callback_finish_earned checks evs db instant now id replies (s s' : LoginServer (K := K)) url cookie :
  EvExchanged db instant now id replies ∈ evs -> all_rows (from_login evs) s -> cache_ok checks evs (lg_jwks s) ->
  callback_finish db instant now id replies s = (s', Some (RedirectWithCookie url cookie)) ->
  earned_session checks evs (lg_pending s !! id) cookie.
Proof.
  intros Hev [_ Hp] Hc Hs.
  apply session_from in Hs as (row & token & claims & claims' & email & jwt & E & _ & [jwks Hx] & Hcl & He & Hne & Hg & ->).
  destruct (Hp id row E) as (db' & random & return_to & Hl & ->).
  pose proof (exchange_vouched evs db instant now id replies Hev checks (lr_nonce random) _ Hc) as Ha.
  change (or_nonce (login_row random return_to)) with (Some (lr_nonce random)) in Hx. rewrite Hx in Ha.
  exists db', random, return_to, db, instant, now, id, replies, claims, email, (display_name claims'), jwt.
  split_and!; try done; [by eapply (proj2 Ha) | by eapply complete_claims_email].
Qed.

(** A post to the token endpoint: it proves the login of the callback's state with that
    login's verifier. *)
Definition proper_post (evs : list login_event) (form : list (string * string)) : Prop :=
  exists db random return_to db' id code,
    EvLogin db random return_to ∈ evs /\ EvCallback db' id (lr_csrf random) code ∈ evs /\
    form = token_form (oc_redirect_url cfg) (oc_client_id cfg) (oc_client_secret cfg) (lr_verifier random) code.

Definition proper_output (checks : bool) (evs : list login_event) (o : login_output) : Prop :=
  match o with
  | Responded from (RedirectWithCookie _ cookie) => earned_session checks evs from cookie
  | Responded _ _ => True
  | Posted form => proper_post evs form
  end.

Definition login_inv (checks : bool) (evs : list login_event) (s : LoginServer (K := K)) : Prop :=
  all_rows (from_login evs) s /\ cache_ok checks evs (lg_jwks s).

Lemma login_step_inv checks evs s ev : ev ∈ evs -> login_inv checks evs s -> login_inv checks evs (login_step s ev).1.
Proof.
  intros Hev [Hr Hc]. split.
  - apply login_step_rows; [intros db random rt ->; by exists db, random, rt | done].
  - destruct ev as [db random return_to|db id state code|db instant now id replies|id]; unfold Login.login_step.
    + pose proof (login_rows db random return_to s) as H. destruct (login _ _ _ _ _ s) as [s' r].
      destruct H as (_ & _ & H & _). cbn [fst]. by rewrite H.
    + destruct (lg_pending s !! id); [done|].
      pose proof (callback_start_rows db id state code s) as H. destruct (callback_start _ _ _ _ _ s) as [s' r].
      destruct H as (H & _). cbn [fst]. by rewrite H.
    + pose proof (callback_finish_cache checks evs db instant now id replies s Hev Hr Hc) as Hc'.
      by destruct (callback_finish db instant now id replies s).
    + done.
Qed.

Lemma login_step_proper checks evs s ev o :
  ev ∈ evs -> login_inv checks evs s -> o ∈ (login_step s ev).2 -> proper_output checks evs o.
Proof.
  intros Hev [Hr Hc] Ho. destruct o as [from [|url cookie| |]|form]; try done.
  - apply login_step_session in Ho as (db & instant & now & id & replies & -> & -> & E).
    destruct (callback_finish db instant now id replies s) as [s' r] eqn:Ef. simpl in E. subst r.
    by eapply callback_finish_earned.
  - apply login_step_post in Ho as (db & id & state & code & row & verifier & -> & Hin & Hs & Hv & ->).
    destruct (Forall_elem _ _ _ (proj1 Hr) Hin) as (db' & random & return_to & Hl & ->).
    unfold has_state in Hs. simplify_eq/=. by exists db', random, return_to, db, id, code.
Qed.

(** C20: a session is earned by a login, once. Over any interleaving of logins, callbacks,
    answers of the provider and failures of the database, a server hands out at most as many
    sessions for an OAuth state as logins were started with it, and each code is exchanged
    with the PKCE verifier of the login that the callback's state names. Each session belongs
    to one login; its cookie names the user of the ID token the provider answered with, or,
    when that token has no email, the user the user info endpoint answered with. When the
    server was configured with a key endpoint ([checks]), that token carries the login's nonce
    and was accepted for this client and issuer under a key the provider served; when it was
    not, the token's signature and nonce are not looked at. *)
Theorem session_needs_login (checks : bool) now evs σ :
  let out := (run login_step (login_new (if checks then Some (jwks_new now) else None)) evs).2 in
  (sessions σ out <= logins σ evs)%nat /\ (forall o, o ∈ out -> proper_output checks evs o).
Proof.
  set (jwks := if checks then _ else _). split.
  - pose proof (run_counts σ evs (login_new jwks)) as H.
    unfold open_logins at 2, waiting in H. simpl in H. rewrite map_filter_empty, map_size_empty in H. lia.
  - intros o Hin. refine (Forall_elem _ _ _ (proj2 (run_invariant_on login_step (.∈ evs) (login_inv checks evs)
      (proper_output checks evs) _ evs _ _ _)) Hin).
    + intros s ev Hev Hs. pose proof (login_step_inv checks evs s ev Hev Hs) as Hi.
      pose proof (fun o => login_step_proper checks evs s ev o Hev Hs) as Ho.
      destruct (login_step s ev) as [s' out]. split; [done | by apply Forall_forall].
    + by apply Forall_forall.
    + split; [split; [constructor | apply map_Forall_empty]|].
      unfold jwks. destruct checks; [|done]. exists (jwks_new now). split; [done | apply map_Forall_empty].
Qed.
End Flow.

(** ** The cookie on its way back *)

Fixpoint every_char (P : ascii -> bool) (s : string) : bool :=
  match s with EmptyString => true | String c s' => P c && every_char P s' end.

Definition not_char (d c : ascii) : bool := negb (bool_decide (c = d)).

(** No white space and no [;], as in a JWT. *)
Definition clean (s : string) : bool := every_char (fun c => negb (ascii_whitespace c) && not_char ";" c) s.

(** A cookie name. *)
Definition token (s : string) : bool := clean s && every_char (not_char "=") s.

Fixpoint join_pairs (l : list string) : string :=
  match l with
  | [] => EmptyString
  | [p] => p
  | p :: l' => p +:+ "; " +:+ join_pairs l'
  end.

Definition cookie_text (p : string * string) : string := p.1 +:+ "=" +:+ p.2.

(** What a browser keeps of a [Set-Cookie] header to send back: the part before the
    attributes. *)
Definition cookie_pair (set_cookie : string) : string := default EmptyString (head (split_semicolons set_cookie)).

Lemma every_char_app P s t : every_char P (s +:+ t) = every_char P s && every_char P t.
Proof. induction s as [|c s IH]; simpl; [done|]. by rewrite IH, andb_assoc. Qed.

Lemma every_char_impl (P Q : ascii -> bool) s :
  (forall c, P c = true -> Q c = true) -> every_char P s = true -> every_char Q s = true.
Proof.
  intros HPQ. induction s as [|c s IH]; simpl; [done|]. intros [Hc Hs]%andb_true_iff.
  by rewrite (HPQ c Hc), IH.
Qed.

Lemma clean_semicolon s : clean s = true -> every_char (not_char ";") s = true.
Proof. apply every_char_impl. by intros c [_ H]%andb_true_iff. Qed.

Lemma split_first s t : every_char (not_char ";") s = true ->
  split_semicolons (s +:+ String ";" t) = s :: split_semicolons t.
Proof.
  induction s as [|c s IH]; [done|]. simpl. unfold not_char at 1. intros [Hc Hs]%andb_true_iff.
  change (String c s +:+ String ";" t) with (String c (s +:+ String ";" t)). simpl.
  rewrite (IH Hs). by case_bool_decide.
Qed.

Lemma split_last s : every_char (not_char ";") s = true -> split_semicolons s = [s].
Proof.
  induction s as [|c s IH]; [done|]. simpl. unfold not_char at 1. intros [Hc Hs]%andb_true_iff.
  rewrite (IH Hs). by case_bool_decide.
Qed.

Lemma split_nonempty s : split_semicolons s <> [].
Proof. destruct s as [|c s]; simpl; [done|]. case_bool_decide; [done|]. by destruct (split_semicolons s). Qed.

(** The space after each [;] is trimmed away. *)
Lemma find_in_header prefix l : l <> [] -> Forall (fun p => every_char (not_char ";") p = true) l ->
  find_cookie prefix (split_semicolons (join_pairs l)) = find_cookie prefix l.
Proof.
  intros Hne Hl. induction Hl as [|p l Hp Hl IH]; [done|]. destruct l as [|q l]; [simpl; by rewrite split_last|].
  change (join_pairs (p :: q :: l)) with (p +:+ String ";" (String " " (join_pairs (q :: l)))).
  rewrite split_first by done. specialize (IH (ltac:(done))).
  assert (forall t, find_cookie prefix (split_semicolons (String " " t)) = find_cookie prefix (split_semicolons t)) as Hsp.
  { intros t. destruct (split_semicolons t) as [|u us] eqn:E; [by apply split_nonempty in E|].
    change (split_semicolons (String " " t)) with
      (match split_semicolons t with u :: us => String " " u :: us | [] => [" "%string] end). by rewrite E. }
  assert (forall X Y, find_cookie prefix X = find_cookie prefix Y -> find_cookie prefix (p :: X) = find_cookie prefix (p :: Y))
    as Hcons by (intros X Y HXY; simpl; by rewrite HXY).
  apply Hcons. by rewrite Hsp.
Qed.

Lemma trim_back_app s c t : ascii_whitespace c = false ->
  trim_back (s +:+ String c t) = s +:+ trim_back (String c t) /\ exists u, trim_back (String c t) = String c u.
Proof.
  intros Hc. assert (exists u, trim_back (String c t) = String c u) as [u Hu].
  { simpl. rewrite Hc. destruct (trim_back t); eauto. }
  split; [|eauto]. rewrite Hu. induction s as [|d s IH]; [done|].
  change (String d s +:+ String c t) with (String d (s +:+ String c t)).
  change (trim_back (String d (s +:+ String c t))) with
    (match trim_back (s +:+ String c t) with
     | EmptyString => if ascii_whitespace d then EmptyString else String d EmptyString
     | t => String d t end). rewrite IH. by destruct s.
Qed.

Lemma trim_front_clean n v : clean n = true -> trim_front (n +:+ String "=" v) = n +:+ String "=" v.
Proof.
  destruct n as [|c n]; [done|]. simpl. intros [[Hc _]%andb_true_iff _]%andb_true_iff.
  change (String c n +:+ String "=" v) with (String c (n +:+ String "=" v)). simpl. by destruct (ascii_whitespace c).
Qed.

Lemma trim_back_value v : trim_back (String "=" v) = String "=" (trim_back v).
Proof. simpl. by destruct (trim_back v). Qed.

Lemma trim_pair n v : clean n = true -> trim (cookie_text (n, v)) = n +:+ String "=" (trim_back v).
Proof.
  intros Hn. unfold trim, cookie_text. simpl. change ("=" +:+ v) with (String "=" v).
  rewrite trim_front_clean by done. rewrite (proj1 (trim_back_app n "=" v eq_refl)). by rewrite trim_back_value.
Qed.

Lemma strip_other name n v : every_char (not_char "=") name = true -> every_char (not_char "=") n = true ->
  n <> name -> strip_prefix (name +:+ "=") (n +:+ String "=" v) = None.
Proof.
  revert n. induction name as [|c name IH]; intros [|d n] Hc Hd Hne; [done|..].
  - simpl in *. apply andb_true_iff in Hd as [Hd%negb_true_iff%bool_decide_eq_false _].
    change (EmptyString +:+ "=") with "="%string. change (String d n +:+ String "=" v) with (String d (n +:+ String "=" v)).
    simpl. by rewrite bool_decide_false by congruence.
  - simpl in *. apply andb_true_iff in Hc as [Hc%negb_true_iff%bool_decide_eq_false _].
    change (String c name +:+ "=") with (String c (name +:+ "=")).
    change (EmptyString +:+ String "=" v) with (String "=" v). simpl.
    by rewrite bool_decide_false by congruence.
  - simpl in Hc, Hd. apply andb_true_iff in Hc as [_ Hc], Hd as [_ Hd].
    change (String c name +:+ "=") with (String c (name +:+ "=")).
    change (String d n +:+ String "=" v) with (String d (n +:+ String "=" v)). simpl.
    case_bool_decide as E; [|done]. subst. apply IH; [done..|]. congruence.
Qed.

Lemma strip_same p s : strip_prefix p (p +:+ s) = Some s.
Proof.
  induction p as [|c p IH]; [done|]. change (String c p +:+ s) with (String c (p +:+ s)). simpl.
  by rewrite bool_decide_true.
Qed.

Lemma trim_back_clean s : clean s = true -> trim_back s = s.
Proof.
  induction s as [|c s IH]; [done|]. simpl. intros [[Hc _]%andb_true_iff Hs]%andb_true_iff. rewrite (IH Hs).
  destruct s; [|done]. by destruct (ascii_whitespace c).
Qed.

Lemma trim_clean s : clean s = true -> trim s = s.
Proof.
  intros Hs. unfold trim. rewrite <- (trim_back_clean s Hs) at 2. f_equal. destruct s as [|c s]; [done|].
  simpl in *. apply andb_true_iff in Hs as [[Hc _]%andb_true_iff _]. by destruct (ascii_whitespace c).
Qed.

(** A cookie of another name than [name]. *)
Definition other_cookie (name : string) (p : string * string) : Prop :=
  token p.1 = true /\ p.1 <> name /\ every_char (not_char ";") p.2 = true.

Lemma cookie_text_semicolon name p : other_cookie name p -> every_char (not_char ";") (cookie_text p) = true.
Proof.
  intros ([Hc _]%andb_true_iff & _ & Hv). unfold cookie_text. rewrite every_char_app, clean_semicolon by done. exact Hv.
Qed.

Lemma find_cookie_skip name l rest : token name = true -> Forall (other_cookie name) l ->
  find_cookie (name +:+ "=") ((cookie_text <$> l) ++ rest) = find_cookie (name +:+ "=") rest.
Proof.
  intros [_ Hname]%andb_true_iff Hl. induction Hl as [|[n v] l Hp Hl IH]; [done|].
  destruct Hp as ([Hc Hn]%andb_true_iff & Hne & _). simpl in *.
  rewrite trim_pair, strip_other by done. exact IH.
Qed.

(** The [Cookie] header with [pair] among other cookies. *)
Definition cookie_header (before : list (string * string)) (pair : string) (after : list (string * string)) : string :=
  join_pairs ((cookie_text <$> before) ++ pair :: (cookie_text <$> after)).

Lemma find_in_cookie_header name before v after : token name = true -> clean v = true ->
  Forall (other_cookie name) before -> Forall (other_cookie name) after ->
  find_cookie (name +:+ "=") (split_semicolons (cookie_header before (cookie_text (name, v)) after)) = nonempty v.
Proof.
  intros Hname Hv Hb Ha. unfold cookie_header. pose proof Hname as [Hc Hn]%andb_true_iff.
  assert (forall l, Forall (other_cookie name) l ->
    Forall (fun p => every_char (not_char ";") p = true) (cookie_text <$> l)) as Hsemi.
  { intros l Hl. apply Forall_fmap. eapply Forall_impl; [exact Hl|]. intros p. apply cookie_text_semicolon. }
  rewrite find_in_header.
  - rewrite find_cookie_skip by done. rewrite <- (app_nil_r (cookie_text <$> after)).
    pose proof (find_cookie_skip name after [] Hname Ha) as Hafter.
    simpl find_cookie in Hafter |- *. rewrite trim_pair, trim_back_clean by done.
    change (String "=" v) with ("=" +:+ v). rewrite <- str_app_assoc, strip_same. simpl.
    rewrite trim_clean, Hafter by done. by destruct v.
  - by destruct before.
  - apply Forall_app. split; [by apply Hsemi|]. constructor; [|by apply Hsemi].
    unfold cookie_text. rewrite every_char_app, clean_semicolon by done. exact (clean_semicolon v Hv).
Qed.

Lemma attributes_suffix domain secure c : exists rest, cookie_attributes domain secure c = c +:+ rest.
Proof.
  unfold cookie_attributes. destruct secure, domain; eexists; rewrite ?str_app_assoc; try done.
  symmetry. apply str_app_nil.
Qed.

Lemma cookie_pair_first s t rest : every_char (not_char ";") s = true ->
  cookie_pair ((s +:+ String ";" t) +:+ rest) = s.
Proof.
  intros Hs. rewrite str_app_assoc. change (String ";" t +:+ rest) with (String ";" (t +:+ rest)).
  unfold cookie_pair. by rewrite split_first.
Qed.

Lemma session_cookie_pair name jwt ttl domain secure : clean name = true -> clean jwt = true ->
  cookie_pair (build_session_cookie name jwt ttl domain secure) = cookie_text (name, jwt).
Proof.
  intros Hn Hj. unfold build_session_cookie. destruct (attributes_suffix domain secure
    (name +:+ "=" +:+ jwt +:+ "; Path=/; HttpOnly; SameSite=Lax; Max-Age=" +:+ show_i64 ttl)) as [rest ->].
  change ("; Path=/; HttpOnly; SameSite=Lax; Max-Age=" +:+ show_i64 ttl) with
    (String ";" (" Path=/; HttpOnly; SameSite=Lax; Max-Age=" +:+ show_i64 ttl)).
  rewrite <- (str_app_assoc "=" jwt), <- (str_app_assoc name), cookie_pair_first; [done|].
  rewrite !every_char_app, !clean_semicolon by done. done.
Qed.

Lemma clear_cookie_pair name domain secure : clean name = true ->
  cookie_pair (build_clear_session_cookie name domain secure) = cookie_text (name, EmptyString).
Proof.
  intros Hn. unfold build_clear_session_cookie. destruct (attributes_suffix domain secure
    (name +:+ "=; Path=/; HttpOnly; SameSite=Lax; Max-Age=0")) as [rest ->].
  change "=; Path=/; HttpOnly; SameSite=Lax; Max-Age=0"%string with
    ("=" +:+ String ";" " Path=/; HttpOnly; SameSite=Lax; Max-Age=0").
  rewrite <- (str_app_assoc name), cookie_pair_first; [done|].
  rewrite !every_char_app, !clean_semicolon by done. done.
Qed.

Section Cookie.
Context {crypto : Crypto} (st : AppState) (cookies : CookieConfig).
(** [jsonwebtoken]: a token of the issuer decodes under its secret until it expires, and
    its text is base64 and dots. *)
Context (Hdecode : forall now secret claims t, encode_session secret claims = Ok t -> st_iss claims = ISSUER ->
  timestamp now < st_exp claims -> decode_session now secret t = Ok claims).
Context (Hclean : forall secret claims t, encode_session secret claims = Ok t -> clean t = true /\ t <> EmptyString).

(** The session cookie comes back as the session. A browser that keeps the cookie set
    by the callback and sends it with any other cookies, in any order, is recognised as
    the user who logged in, until the session expires; the cookie set by the logout, sent
    back, is no session. *)
Theorem session_cookie_round_trip now now' email name jwt before after auth :
  generate_session_token now (as_jwt_secret st) email name (as_session_ttl_secs st) = Ok jwt ->
  token (as_cookie_name st) = true ->
  Forall (other_cookie (as_cookie_name st)) before -> Forall (other_cookie (as_cookie_name st)) after ->
  i_in 64 (timestamp now + as_session_ttl_secs st) -> timestamp now' < timestamp now + as_session_ttl_secs st ->
  let set_cookie := build_session_cookie (as_cookie_name st) jwt (as_session_ttl_secs st)
                      (cc_domain cookies) (cc_secure cookies) in
  let clear := build_clear_session_cookie (as_cookie_name st) (cc_domain cookies) (cc_secure cookies) in
  get_profile st now' (mkHeaders (Some (cookie_header before (cookie_pair set_cookie) after)) auth) = Ok (email, name) /\
  get_profile st now' (mkHeaders (Some (cookie_header before (cookie_pair clear) after)) None) = Err unauthorized.
Proof.
  intros Hg Hn Hb Ha Hi Ht. pose proof Hn as [Hnc _]%andb_true_iff.
  unfold generate_session_token in Hg. rewrite wrap_i_small in Hg by done.
  destruct (encode_session _ _) as [t|e] eqn:He; simpl in Hg; [|done]. injection Hg as ->.
  destruct (Hclean _ _ _ He) as [Hjc Hjne].
  intros set_cookie clear. unfold get_profile, from_request_parts, extract_session_token. simpl.
  unfold set_cookie, clear. rewrite session_cookie_pair, clear_cookie_pair by done.
  rewrite !find_in_cookie_header by done. simpl. split; [|done].
  destruct jwt as [|c jwt]; [done|]. simpl. unfold decode_session_token.
  by rewrite (Hdecode _ _ _ _ He).
Qed.
End Cookie.

(** ** A concrete provider *)

(** Keys are strings; an ID token is its nonce, signed by the key of the document. *)
Definition demo_kid (_ : string) : result (option string) string := Ok (Some "k1"%string).

Definition demo_claims (id_token : string) : IdTokenClaims :=
  mkIdTokenClaims (Some "ann@x"%string) "Ann" (Some true) None None (Some id_token) None None None.

Definition demo_decode (_ : Algorithm) (k _ : string) (_ : option string) (t : string) : result IdTokenClaims string :=
  if bool_decide (k = "modulus"%string) then Ok (demo_claims t) else Err "InvalidSignature"%string.

Definition demo_parse_claims (text : string) : result IdTokenClaims string := Ok (demo_claims text).

Definition demo_jwks (body : string) : result (list JwkEntry) string :=
  Ok [mkJwk (Some "k1"%string) "RSA" None (Some body) (Some "AQAB"%string) None None None].

Definition demo_token (text : string) : result OAuthTokenResponse string :=
  Ok (mkTokenResponse "access" (Some text) None).

Definition demo_origin (url : string) : option string :=
  if starts_with "https://app" url then Some "https://app"%string
  else if starts_with "https://evil" url then Some "https://evil"%string else None.

Definition demo_oauth : OAuthConfig :=
  mkOAuthConfig "client" (Some "secret"%string) "https://api/callback" None "https://idp/auth" "https://idp/token" None
    "openid" "https://app/" [].

Definition demo_login_step := login_step (fun n _ => Ok n) (fun x _ => Ok x) demo_kid demo_decode
  Ok demo_parse_claims demo_jwks demo_token (fun _ => Err "none"%string) demo_origin
  (fun _ => true) show_u64 demo_state (mkCookieConfig None true) (Some demo_oauth).

Definition demo_random (n : string) : LoginRandom := mkLoginRandom ("s" +:+ n) "challenge" "verifier" ("n" +:+ n).

Definition demo_replies (nonce : string) : ProviderReplies :=
  mkReplies (Answer 200 (Ok nonce)) (Answer 200 (Ok "modulus"%string)) (NoAnswer "none").

(** Two logins, the second with an address elsewhere; a callback is replayed, and one is
    answered with the other's nonce. *)
Definition demo_logins : list login_event :=
  [EvLogin Served (demo_random "1") (Some " /meeting/7 "%string);
   EvLogin Served (demo_random "2") (Some "https://evil/x"%string);
   EvCallback Served 1 "s1" "c1"; EvCallback Served 2 "s1" "c1"; EvExchanged Served 0 0 1 (demo_replies "n1");
   EvCallback Served 2 "s2" "c2"; EvExchanged Served 0 0 2 (demo_replies "n1");
   EvLogin Served (demo_random "3") (Some "https://evil/x"%string); EvCallback Served 3 "s3" "c3";
   EvExchanged Served 0 0 3 (demo_replies "n3"); EvLogin LostBefore (demo_random "4") None;
   EvCallback Served 4 "s4" "c4"].

Definition redirections (out : list login_output) : list (option OAuthRequestRow * string * string) :=
  omap (fun o => match o with Responded from (RedirectWithCookie u c) => Some (from, u, c) | _ => None end) out.

Lemma redirection_in out from url cookie :
  (from, url, cookie) ∈ redirections out -> Responded from (RedirectWithCookie url cookie) ∈ out.
Proof.
  intros ([f []|] & Hin & Hr)%list_elem_of_omap; simplify_eq/=. done.
Qed.

Definition demo_out : list login_output := (run demo_login_step (login_new (Some (jwks_new 0))) demo_logins).2.

Lemma redirect_witness :
  (fun '(_, url, _) => url) <$> redirections demo_out = ["https://app/meeting/7"; "https://app/"]%string /\
  Forall (fun '(_, url, _) => safe_target demo_origin demo_oauth url) (redirections demo_out).
Proof.
  split; [vm_compute; reflexivity|]. apply Forall_forall. intros [[from url] cookie] Hin.
  exact (redirect_is_safe (fun n _ => Ok n) (fun x _ => Ok x) demo_kid demo_decode
    Ok demo_parse_claims demo_jwks demo_token (fun _ => Err "none"%string) demo_origin
    (fun _ => true) show_u64 demo_state (mkCookieConfig None true) demo_oauth _ _ from url cookie (redirection_in _ _ _ _ Hin)).
Defined.

Lemma session_witness :
  (sessions "s1" demo_out, sessions "s2" demo_out, sessions "s3" demo_out, logins "s1" demo_logins) = (1, 0, 1, 1)%nat /\
  length (redirections demo_out) = 2%nat /\
  (sessions "s1" demo_out <= logins "s1" demo_logins)%nat.
Proof.
  split; [vm_compute; reflexivity|]. split; [vm_compute; reflexivity|].
  exact (proj1 (session_needs_login (fun n _ => Ok n) (fun x _ => Ok x) demo_kid demo_decode
    Ok demo_parse_claims demo_jwks demo_token (fun _ => Err "none"%string) demo_origin
    (fun _ => true) show_u64 demo_state (mkCookieConfig None true) demo_oauth true 0 demo_logins "s1")).
Defined.

Lemma bits_clean p : clean (bits p) = true.
Proof. induction p as [p IH|p IH|]; [exact IH | exact IH | done]. Qed.

Lemma demo_session_law now secret claims t :
  encode_session secret claims = Ok t -> st_iss claims = ISSUER -> timestamp now < st_exp claims ->
  decode_session now secret t = Ok claims.
Proof.
  intros [= <-] _ Ht. simpl. rewrite open_sealed. by destruct (Z.ltb_spec (timestamp now) (st_exp claims)); [|lia].
Qed.

Lemma demo_session_clean secret claims t :
  encode_session secret claims = Ok t -> clean t = true /\ t <> EmptyString.
Proof.
  intros [= <-]. split; [apply bits_clean|]. intros E.
  assert (open_seal secret (seal secret claims) = Some claims) as Ho by apply open_sealed.
  rewrite E in Ho. discriminate Ho.
Qed.

Lemma session_cookie_witness :
  let jwt := seal "k" (mkSessionClaims "ann@x" "Ann" 3600 0 ISSUER) in
  let cookie := build_session_cookie "session" jwt 3600 (Some ".x"%string) true in
  get_profile demo_state 5000000
    (mkHeaders (Some (cookie_header [("lang", "en us")%string] (cookie_pair cookie) [("a", "b=c")%string])) None)
  = Ok ("ann@x", "Ann")%string.
Proof.
  refine (proj1 (session_cookie_round_trip demo_state (mkCookieConfig (Some ".x"%string) true) demo_session_law
    demo_session_clean 0 5000000 "ann@x" "Ann" _ _ _ None _ _ _ _ _ _)).
  - vm_compute. reflexivity.
  - reflexivity.
  - constructor; [|constructor]. repeat split. discriminate.
  - constructor; [|constructor]. repeat split. discriminate.
  - vm_compute. split; congruence.
  - vm_compute. reflexivity.
Defined.
