(* ===== verification/JoinPage.v ===== *)
(** * The way into a meeting

    videocall-meeting-client/src, the client of the meeting API, with its facade
    dioxus-ui/src/meeting_api.rs; dioxus-ui/src/pages/meeting.rs, the page that joins a
    meeting, waits for its start and shows the outcome; and
    dioxus-ui/src/components/waiting_room.rs, which waits for the host's decision by pushes
    and by polls.

    A request to the API is a task that is answered by a later event, so answers come in any
    order and also after the component that asked is gone. The replies of the API are those
    of [MeetingApi]. The observer connections are effects; their pushes are events. Login and
    what is drawn are left out. *)
From Stdlib Require Import Ascii.
From S2P Require Import Prelude Floats Protocol Validation HealthReporter MeetingDb MeetingApi Attendants.

(** ** videocall-meeting-client/src *)

Inductive ApiError : Type :=
| NotAuthenticated
| Forbidden (text : string)
| NotFound (text : string)
| ApiMeetingNotActive
| ServerError (status : Z) (body : string)
| Network (message : string)
| Config (message : string).

Definition show_api_error (e : ApiError) : string :=
  match e with
  | NotAuthenticated => "Not authenticated. Please log in."
  | Forbidden text => "Access denied: " +:+ text
  | NotFound text => "Not found: " +:+ text
  | ApiMeetingNotActive => "Meeting is not active. The host must join first."
  | ServerError status body => "Server error (" +:+ show_u64 status +:+ "): " +:+ body
  | Network message => "Network error: " +:+ message
  | Config message => "Configuration error: " +:+ message
  end.

(** A response: its status, what [json()] makes of its body, and the body as text. *)
Record HttpResponse (T : Type) : Type := mkHttpResponse {
  http_status : Z;
  http_json : result T string;
  http_text : string;
}.
Arguments mkHttpResponse {T} _ _ _.
Arguments http_status {T} _.
Arguments http_json {T} _.
Arguments http_text {T} _.

Definition parse_api_response {T : Type} (response : HttpResponse T) : result T ApiError :=
  let status := http_status response in
  let text := http_text response in
  if (status =? 200) || (status =? 201) then
    match http_json response with Ok t => Ok t | Err message => Err (Network message) end
  else if status =? 401 then Err NotAuthenticated
  else if status =? 403 then Err (Forbidden text)
  else if status =? 404 then Err (NotFound text)
  else if status =? 400 then
    if str_contains "MEETING_NOT_ACTIVE" text then Err ApiMeetingNotActive else Err (ServerError 400 text)
  else Err (ServerError status text).

(** A request, once configured ([client()]) and sent: [join_meeting] and [get_status]. *)
Definition api_request {T : Type} (configured : result unit string) (sent : result (HttpResponse T) string) : result T ApiError :=
  match configured with
  | Err message => Err (Config message)
  | Ok _ => match sent with Err message => Err (Network message) | Ok response => parse_api_response response end
  end.

Definition refresh_room_token (status : result ParticipantStatusResponse ApiError) : result string ApiError :=
  match status with
  | Err e => Err e
  | Ok s => match ps_room_token s with
            | Some token => Ok token
            | None => Err (ServerError 200 "Admitted but no room token in response")
            end
  end.

(** What the meeting page makes of a refreshed token. *)
Definition refreshed (r : result string ApiError) : refresh_result :=
  match r with
  | Ok token => RefreshOk token
  | Err ApiMeetingNotActive => MeetingNotActive
  | Err e => RefreshFailed (show_api_error e)
  end.

(** Leaving a meeting one is not in is no error. *)
Definition leave_result {T : Type} (r : result T ApiError) : result unit ApiError :=
  match r with
  | Ok _ => Ok tt
  | Err (NotFound _) => Ok tt
  | Err e => Err e
  end.

(** ** Names *)

(** A [char] in UTF-8. *)
Definition utf8_char (c : Z) : list Z :=
  if c <? 128 then [c]
  else if c <? 2048 then [192 + c / 64; 128 + c mod 64]
  else if c <? 65536 then [224 + c / 4096; 128 + c / 64 mod 64; 128 + c mod 64]
  else [240 + c / 262144; 128 + c / 4096 mod 64; 128 + c / 64 mod 64; 128 + c mod 64].

Definition utf8 (s : chars) : string := String.string_of_list_ascii (ascii_of_N ∘ Z.to_N <$> mbind utf8_char s).

(** ** The page *)

Inductive MeetingStatus : Type :=
| StNotJoined
| StJoining
| StWaitingForMeeting (observer_token : string)
| StWaiting (observer_token : string)
| StAdmitted (is_host : bool) (host_display_name host_user_id : option string) (room_token : string) (waiting_room_enabled : bool)
| StRejected
| StError (message : string).

(** Who asked to join: the page itself, or a push that the meeting has started. *)
Inductive join_task : Type := FirstJoin (display_name : chars) | Rejoin (display_name : chars).

(** Who asked for the status. *)
Inductive check_task : Type := MountPoll | IntervalPoll | PostConnectPoll | AfterPush.

Record WaitingRoomState : Type := mkWaitingRoom { wr_observer_token : string; wr_observer_connected : bool; wr_error : option string }.

#[export] Instance eta_WaitingRoomState : Eta WaitingRoomState := fun r =>
  mkWaitingRoom (wr_observer_token r) (wr_observer_connected r) (wr_error r).

(** [pg_joins] and [pg_checks] are the requests that are not answered yet; [pg_observer] is the
    token of the page's own observer client, [pg_observing] says that a waiting room has
    connected one. *)
Record Page : Type := mkPage {
  pg_name : option chars;
  pg_input : chars;
  auto_join_attempted : bool;
  meeting_status : MeetingStatus;
  observer_token_signal : option string;
  pg_observer : option string;
  current_user_id : option string;
  pg_host_display_name : option string;
  pg_host_user_id : option string;
  came_from_waiting_room : bool;
  pg_joins : list join_task;
  pg_waiting_room : option WaitingRoomState;
  pg_checks : list check_task;
  pg_observing : bool;
}.

#[export] Instance eta_Page : Eta Page := fun r =>
  mkPage (pg_name r) (pg_input r) (auto_join_attempted r) (meeting_status r) (observer_token_signal r) (pg_observer r)
    (current_user_id r) (pg_host_display_name r) (pg_host_user_id r) (came_from_waiting_room r) (pg_joins r) (pg_waiting_room r) (pg_checks r)
    (pg_observing r).

(** [name] is the name of the session, [stored] the one in the browser's storage. *)
Definition page_new (name : option chars) (stored : option chars) : Page :=
  mkPage name (match name with Some n => n | None => default [] stored end) false StNotJoined None None None None None false [] None [] false.

Inductive page_effect : Type :=
| PgSaveName (name : chars)
| PgAlert (e : NameError)
| PgJoinRequest (display_name : chars)
| PgCheckRequest
| PgConnectObserver (user_id token : string)
| PgDisconnectObserver
| PgLeave.

(** The form for the name. *)
Definition on_submit (p : Page) : Page * list page_effect :=
  match validate_display_name (pg_input p) with
  | Ok valid_name => (p <| pg_name := Some valid_name |>, [PgSaveName valid_name])
  | Err e => (p, [PgAlert e])
  end.

Definition on_join_meeting (p : Page) : Page * list page_effect :=
  (p <| meeting_status := StJoining |> <| pg_joins := pg_joins p ++ [FirstJoin (pg_input p)] |>, [PgJoinRequest (pg_input p)]).

(** The effect that joins when the name is known. *)
Definition auto_join (p : Page) : Page * list page_effect :=
  match pg_name p, meeting_status p with
  | Some _, StNotJoined =>
      if auto_join_attempted p then (p, []) else on_join_meeting (p <| auto_join_attempted := true |>)
  | _, _ => (p, [])
  end.

(** [user_id] of the response, or an id kept in the browser. *)
Definition effective_user_id (local_id : string) (r : ParticipantStatusResponse) : string :=
  if String.eqb (ps_user_id r) EmptyString then local_id else ps_user_id r.

Definition note_reply (local_id : string) (host host_uid : option string) (r : ParticipantStatusResponse) (p : Page) : Page :=
  p <| current_user_id := Some (effective_user_id local_id r) |> <| pg_host_display_name := host |> <| pg_host_user_id := host_uid |>.

(** [Admitted], or an error when there is no token. *)
Definition admitted_status (host host_uid : option string) (r : ParticipantStatusResponse) : MeetingStatus :=
  match ps_room_token r with
  | Some token => StAdmitted (ps_is_host r) host host_uid token (default true (ps_waiting_room_enabled r))
  | None => StError "Admitted but no room token"
  end.

(** The answer to the page's own request. *)
Definition on_join_reply (local_id : string) (display_name : chars) (reply : result ParticipantStatusResponse ApiError) (p : Page) : Page :=
  match reply with
  | Ok r =>
      let host := if ps_is_host r then Some (utf8 display_name) else ps_host_display_name r in
      let host_uid := match ps_host_user_id r with
                      | Some uid => Some uid
                      | None => if ps_is_host r then Some (effective_user_id local_id r) else None
                      end in
      let p := note_reply local_id host host_uid r p in
      let observer_token := default EmptyString (ps_observer_token r) in
      if String.eqb (ps_status r) "admitted" then
        p <| observer_token_signal := None |> <| meeting_status := admitted_status host host_uid r |>
      else if String.eqb (ps_status r) "waiting_for_meeting" then
        p <| observer_token_signal := Some observer_token |> <| meeting_status := StWaitingForMeeting observer_token |>
      else if String.eqb (ps_status r) "waiting" then
        p <| observer_token_signal := Some observer_token |> <| came_from_waiting_room := true |>
          <| meeting_status := StWaiting observer_token |>
      else if String.eqb (ps_status r) "rejected" then
        p <| observer_token_signal := None |> <| meeting_status := StRejected |>
      else p <| observer_token_signal := None |> <| meeting_status := StError ("Unknown status: " +:+ ps_status r) |>
  | Err ApiMeetingNotActive =>
      p <| observer_token_signal := Some EmptyString |> <| meeting_status := StWaitingForMeeting EmptyString |>
  | Err e => p <| observer_token_signal := None |> <| meeting_status := StError (show_api_error e) |>
  end.

(** The answer to a request that a push caused. *)
Definition on_rejoin_reply (local_id : string) (reply : result ParticipantStatusResponse ApiError) (p : Page) : Page :=
  match reply with
  | Ok r =>
      let host := ps_host_display_name r in
      let host_uid := ps_host_user_id r in
      let p := note_reply local_id host host_uid r p in
      let observer_token := default EmptyString (ps_observer_token r) in
      if String.eqb (ps_status r) "admitted" then p <| meeting_status := admitted_status host host_uid r |>
      else if String.eqb (ps_status r) "waiting" then
        p <| came_from_waiting_room := true |> <| observer_token_signal := Some observer_token |>
          <| meeting_status := StWaiting observer_token |>
      else if String.eqb (ps_status r) "rejected" then p <| meeting_status := StRejected |>
      else p <| meeting_status := StError ("Unknown status: " +:+ ps_status r) |>
  | Err e => p <| meeting_status := StError (show_api_error e) |>
  end.

(** A push that the meeting has started. *)
Definition on_meeting_activated (display_name : chars) (p : Page) : Page * list page_effect :=
  (p <| observer_token_signal := None |> <| pg_joins := pg_joins p ++ [Rejoin display_name] |>, [PgJoinRequest display_name]).

(** The effect that keeps the page's observer client. *)
Definition observer_effect (p : Page) : Page * list page_effect :=
  match observer_token_signal p with
  | Some (String _ _ as token) =>
      (p <| pg_observer := Some token |>, [PgConnectObserver (default (utf8 (pg_input p)) (current_user_id p)) token])
  | _ => match pg_observer p with
         | Some _ => (p <| pg_observer := None |>, [PgDisconnectObserver])
         | None => (p, [])
         end
  end.

(** ** The waiting room *)

Definition on_admitted (status : ParticipantStatusResponse) (p : Page) : Page :=
  let host := ps_host_display_name status in
  let host_uid := ps_host_user_id status in
  p <| pg_host_display_name := host |> <| pg_host_user_id := host_uid |> <| observer_token_signal := None |>
    <| meeting_status := StAdmitted false host host_uid (default EmptyString (ps_room_token status)) (default true (ps_waiting_room_enabled status)) |>.

Definition on_rejected (p : Page) : Page := p <| observer_token_signal := None |> <| meeting_status := StRejected |>.

Definition check (t : check_task) (p : Page) : Page * list page_effect := (p <| pg_checks := pg_checks p ++ [t] |>, [PgCheckRequest]).

(** The error that the waiting room shows, while it is there. *)
Definition show_wait_error (message : string) (p : Page) : Page :=
  match pg_waiting_room p with
  | Some w => p <| pg_waiting_room := Some (w <| wr_error := Some message |>) |>
  | None => p
  end.

Definition on_check_reply (t : check_task) (reply : result ParticipantStatusResponse ApiError) (p : Page) : Page :=
  match t, reply with
  | AfterPush, Ok status =>
      if ps_room_token status then on_admitted status p else show_wait_error "Admitted but failed to obtain room token" p
  | AfterPush, Err e => show_wait_error ("Failed to fetch room token: " +:+ show_api_error e) p
  | _, Ok status =>
      if String.eqb (ps_status status) "admitted" then if ps_room_token status then on_admitted status p else p
      else if String.eqb (ps_status status) "rejected" then on_rejected p
      else p
  | _, Err _ => p
  end.

(** Drawing the page puts the waiting room there, which asks for the status at once and
    connects an observer, or takes it away. *)
Definition render (p : Page) : Page * list page_effect :=
  match pg_name p, meeting_status p, pg_waiting_room p with
  | Some _, StWaiting token, None =>
      let '(p, effects) := check MountPoll (p <| pg_waiting_room := Some (mkWaitingRoom token false None) |>) in
      if String.eqb token EmptyString then (p, effects)
      else (p <| pg_observing := true |>, PgConnectObserver (default EmptyString (current_user_id p)) token :: effects)
  | Some _, StWaiting _, Some _ => (p, [])
  | _, _, _ => (p <| pg_waiting_room := None |>, [])
  end.

Inductive page_event : Type :=
| PgInput (raw : chars)
| PgSubmit
| PgAutoJoin
| PgObserverEffect
| PgRender
| PgActivated (display_name : chars)
| PgJoinReply (i : nat) (local_id : string) (reply : result ParticipantStatusResponse ApiError)
| PgPollTick
| PgObserverConnected
| PgObserverLost
| PgObserverFailed (message : string)
| PgAdmittedPush
| PgRejectedPush
| PgCheckReply (i : nat) (reply : result ParticipantStatusResponse ApiError)
| PgCancel.

Definition set_connected (b : bool) (p : Page) : Page :=
  match pg_waiting_room p with
  | Some w => p <| pg_waiting_room := Some (w <| wr_observer_connected := b |>) |>
  | None => p
  end.

(** The interval is cleared when the waiting room goes; its observer client may deliver later.
    What the observer of no waiting room delivers does not happen. *)
Definition page_step (p : Page) (ev : page_event) : Page * list page_effect :=
  match ev with
  | PgInput raw => (p <| pg_input := raw |>, [])
  | PgSubmit => on_submit p
  | PgAutoJoin => auto_join p
  | PgObserverEffect => observer_effect p
  | PgRender => render p
  | PgActivated display_name => on_meeting_activated display_name p
  | PgJoinReply i local_id reply =>
      match pg_joins p !! i with
      | Some t =>
          let p := p <| pg_joins := delete i (pg_joins p) |> in
          (match t with FirstJoin dn => on_join_reply local_id dn reply p | Rejoin _ => on_rejoin_reply local_id reply p end, [])
      | None => (p, [])
      end
  | PgPollTick => match pg_waiting_room p with Some _ => check IntervalPoll p | None => (p, []) end
  | PgObserverConnected => if pg_observing p then check PostConnectPoll (set_connected true p) else (p, [])
  | PgObserverLost => (set_connected false p, [])
  | PgObserverFailed message => (set_connected false (show_wait_error ("Failed to connect for push updates: " +:+ message) p), [])
  | PgAdmittedPush => if pg_observing p then check AfterPush p else (p, [])
  | PgRejectedPush => if pg_observing p then (on_rejected p, []) else (p, [])
  | PgCheckReply i reply =>
      match pg_checks p !! i with
      | Some t => (on_check_reply t reply (p <| pg_checks := delete i (pg_checks p) |>), [])
      | None => (p, [])
      end
  | PgCancel => (p, [PgLeave])
  end.

(** ** What the API's replies are on the wire *)

Section Wire.
(** The JSON of an error. *)
Context (error_text : APIError -> string).

(** [IntoResponse]; a body that is not a status is no status for the client either. *)
Definition status_response (reply : result Body AppError) : HttpResponse ParticipantStatusResponse :=
  match reply with
  | Ok (BStatus r) => mkHttpResponse 200 (Ok r) EmptyString
  | Ok _ => mkHttpResponse 200 (Err "missing field"%string) EmptyString
  | Err e => mkHttpResponse (ap_status e) (Err "missing field"%string) (error_text (ap_body e))
  end.
End Wire.
