(* ===== verification/JoinPageProps.v ===== *)
(** * Properties of the way into a meeting

    The page enters a meeting only with a room token that the API handed out, and as a host
    only when the API said so. A guest that the host has admitted gets in with the next answer
    to a poll, whatever became of the pushes. A refreshed token is what the API says of the
    participant. And what does not work: a guest whose page misses the start of the meeting,
    or whose meeting ends while he waits, waits for ever, and the name that is sent is not the
    name that was checked. *)
From S2P Require Import Prelude Floats Protocol Validation HealthReporter Media MeetingDb MeetingApi DemoMeeting MeetingApiProps MeetingFlows Attendants JoinPage.

Definition page_run : Page -> list page_event -> Page * list page_effect := run page_step.

(** ** What the page enters with *)

(** The answers that have reached the page. *)
Definition answered (evs : list page_event) (r : ParticipantStatusResponse) : Prop :=
  (exists i local_id, PgJoinReply i local_id (Ok r) ∈ evs) \/ (exists i, PgCheckReply i (Ok r) ∈ evs).

Definition entered_by (evs : list page_event) (s : MeetingStatus) : Prop :=
  match s with
  | StAdmitted is_host _ _ token _ => exists r, answered evs r /\ ps_room_token r = Some token /\ (is_host = true -> ps_is_host r = true)
  | _ => True
  end.

Lemma answered_app (evs evs' : list page_event) (r : ParticipantStatusResponse) : answered evs r -> answered (evs ++ evs') r.
Proof. intros [(i & l & H)|(i & H)]; [left; exists i, l | right; exists i]; set_solver. Qed.

Lemma entered_by_app (evs evs' : list page_event) (s : MeetingStatus) : entered_by evs s -> entered_by (evs ++ evs') s.
Proof. destruct s; simpl; try done. intros (r & Hr & H). exists r. split; [by apply answered_app | done]. Qed.

Lemma admitted_status_entered (evs : list page_event) (host host_uid : option string) (r : ParticipantStatusResponse) :
  answered evs r -> entered_by evs (admitted_status host host_uid r).
Proof. intros Hr. unfold admitted_status. destruct (ps_room_token r) eqn:E; [|done]. by exists r. Qed.

Lemma join_reply_entered (evs : list page_event) (local_id : string) (dn : chars) reply (p : Page) :
  (forall r, reply = Ok r -> answered evs r) -> entered_by evs (meeting_status (on_join_reply local_id dn reply p)).
Proof.
  intros Hr. destruct reply as [r|e]; simpl; [|by destruct e].
  destruct (String.eqb (ps_status r) "admitted"); [by apply admitted_status_entered; auto |].
  by do 3 (destruct (String.eqb (ps_status r) _); [done |]).
Qed.

Lemma rejoin_reply_entered (evs : list page_event) (local_id : string) reply (p : Page) :
  (forall r, reply = Ok r -> answered evs r) -> entered_by evs (meeting_status (on_rejoin_reply local_id reply p)).
Proof.
  intros Hr. destruct reply as [r|e]; simpl; [|done].
  destruct (String.eqb (ps_status r) "admitted"); [by apply admitted_status_entered; auto |].
  by do 2 (destruct (String.eqb (ps_status r) _); [done |]).
Qed.

Lemma show_wait_error_status (m : string) (p : Page) : meeting_status (show_wait_error m p) = meeting_status p.
Proof. unfold show_wait_error. by destruct (pg_waiting_room p). Qed.

Lemma set_connected_status (b : bool) (p : Page) : meeting_status (set_connected b p) = meeting_status p.
Proof. unfold set_connected. by destruct (pg_waiting_room p). Qed.

Lemma check_reply_entered (evs : list page_event) (t : check_task) reply (p : Page) :
  (forall r, reply = Ok r -> answered evs r) -> entered_by evs (meeting_status p) ->
  entered_by evs (meeting_status (on_check_reply t reply p)).
Proof.
  intros Hr Hp.
  assert (forall r token, reply = Ok r -> ps_room_token r = Some token -> entered_by evs (meeting_status (on_admitted r p))) as Ha.
  { intros r token E Ht. simpl. rewrite Ht. exists r. split_and!; [auto | done | done]. }
  unfold on_check_reply. destruct t, reply as [r|e]; rewrite ?show_wait_error_status; try done;
    repeat (first [ destruct (ps_room_token r) eqn:?; [by eapply Ha |] | destruct (String.eqb (ps_status r) _) ];
      rewrite ?show_wait_error_status; try done).
Qed.

Lemma page_step_entered (evs : list page_event) (p : Page) (ev : page_event) :
  entered_by evs (meeting_status p) -> entered_by (evs ++ [ev]) (meeting_status (page_step p ev).1).
Proof.
  intros Hp. pose proof (entered_by_app evs [ev] _ Hp) as Hk. destruct ev; simpl; try done.
  - unfold on_submit. by destruct (validate_display_name _).
  - unfold auto_join. destruct (pg_name p), (meeting_status p) eqn:E; simpl; rewrite ?E; try done.
    destruct (auto_join_attempted p); simpl; [by rewrite E | done].
  - unfold observer_effect. destruct (observer_token_signal p) as [[|]|], (pg_observer p); done.
  - unfold render. destruct (pg_name p), (meeting_status p) eqn:E, (pg_waiting_room p); simpl; rewrite ?E; try done.
    by destruct (String.eqb _ _).
  - destruct (pg_joins p !! i) as [[dn|dn]|]; simpl; [| |done].
    + apply join_reply_entered. intros r ->. left. exists i, local_id. set_solver.
    + apply rejoin_reply_entered. intros r ->. left. exists i, local_id. set_solver.
  - by destruct (pg_waiting_room p).
  - destruct (pg_observing p); [|done]. simpl. by rewrite set_connected_status.
  - by rewrite set_connected_status.
  - by rewrite set_connected_status, show_wait_error_status.
  - by destruct (pg_observing p).
  - by destruct (pg_observing p).
  - destruct (pg_checks p !! i) as [t|]; [|done]. apply check_reply_entered; [|done]. intros r ->. right. exists i. set_solver.
Qed.

(** Over any sequence of events, the page is in a meeting only with a room token that an
    answer of the API carried, and it takes itself for the host only if that answer did. *)
Theorem page_enters_with_issued_token (name stored : option chars) (evs : list page_event) is_host host host_uid token wr :
  meeting_status (page_run (page_new name stored) evs).1 = StAdmitted is_host host host_uid token wr ->
  exists r, answered evs r /\ ps_room_token r = Some token /\ (is_host = true -> ps_is_host r = true).
Proof.
  intros Hs. enough (entered_by evs (meeting_status (page_run (page_new name stored) evs).1)) as H by (by rewrite Hs in H).
  clear Hs. induction evs as [|ev evs IH] using rev_ind; [done |].
  unfold page_run in *. rewrite run_app. destruct (run page_step (page_new name stored) evs) as [p o]. simpl in *.
  pose proof (page_step_entered evs p ev IH) as H. by destruct (page_step p ev).
Qed.

(** ** How often the page asks to join *)

Definition join_requests (effects : list page_effect) : nat :=
  length (List.filter (fun f => match f with PgJoinRequest _ => true | _ => false end) effects).

Definition activations (evs : list page_event) : nat :=
  length (List.filter (fun ev => match ev with PgActivated _ => true | _ => false end) evs).

Lemma check_reply_attempted (t : check_task) reply (p : Page) : auto_join_attempted (on_check_reply t reply p) = auto_join_attempted p.
Proof. unfold on_check_reply, show_wait_error. repeat case_match; done. Qed.

Lemma join_reply_attempted (local_id : string) (dn : chars) reply (p : Page) :
  auto_join_attempted (on_join_reply local_id dn reply p) = auto_join_attempted p.
Proof. unfold on_join_reply, note_reply. repeat case_match; done. Qed.

Lemma rejoin_reply_attempted (local_id : string) reply (p : Page) : auto_join_attempted (on_rejoin_reply local_id reply p) = auto_join_attempted p.
Proof. unfold on_rejoin_reply, note_reply. repeat case_match; done. Qed.

Lemma page_step_requests (p : Page) (ev : page_event) :
  let '(p', o) := page_step p ev in
  (join_requests o + (if auto_join_attempted p then 1 else 0) <= (if auto_join_attempted p' then 1 else 0) + activations [ev])%nat.
Proof.
  destruct ev; simpl; try (unfold activations; simpl; lia).
  - unfold on_submit. destruct (validate_display_name _); unfold activations; simpl; lia.
  - unfold auto_join. destruct (pg_name p), (meeting_status p); unfold activations; simpl; try lia.
    destruct (auto_join_attempted p) eqn:E; simpl; rewrite ?E; lia.
  - unfold observer_effect. destruct (observer_token_signal p) as [[|]|], (pg_observer p); unfold activations; simpl; lia.
  - unfold render. destruct (pg_name p), (meeting_status p), (pg_waiting_room p); unfold activations; simpl; try lia.
    destruct (String.eqb _ _); simpl; lia.
  - destruct (pg_joins p !! i) as [[dn|dn]|]; unfold activations; simpl; rewrite ?join_reply_attempted, ?rejoin_reply_attempted; simpl; lia.
  - destruct (pg_waiting_room p); unfold activations; simpl; lia.
  - unfold set_connected. destruct (pg_observing p), (pg_waiting_room p) eqn:E; unfold activations; simpl; rewrite ?E; simpl; lia.
  - unfold set_connected. destruct (pg_waiting_room p) eqn:E; unfold activations; simpl; rewrite ?E; simpl; lia.
  - unfold set_connected, show_wait_error. destruct (pg_waiting_room p) eqn:E; unfold activations; simpl; rewrite ?E; simpl; lia.
  - destruct (pg_observing p); unfold activations; simpl; lia.
  - destruct (pg_observing p); unfold activations; simpl; lia.
  - destruct (pg_checks p !! i) as [t|]; unfold activations; simpl; [rewrite check_reply_attempted; simpl |]; lia.
Qed.

(** The page asks once by itself, and once for each push that the meeting has started. *)
Theorem page_asks_once (name stored : option chars) (evs : list page_event) :
  (join_requests (page_run (page_new name stored) evs).2 <= 1 + activations evs)%nat.
Proof.
  enough (forall p, let '(p', o) := page_run p evs in
    (join_requests o + (if auto_join_attempted p then 1 else 0) <= (if auto_join_attempted p' then 1 else 0) + activations evs)%nat) as H.
  { specialize (H (page_new name stored)). destruct (page_run _ evs) as [p' o]. simpl in *. destruct (auto_join_attempted p'); lia. }
  induction evs as [|ev evs IH]; intros p; unfold page_run in *; simpl; [unfold activations; simpl; lia |].
  pose proof (page_step_requests p ev) as Hs. destruct (page_step p ev) as [p1 o1]. specialize (IH p1). destruct (run page_step p1 evs) as [p2 o2].
  unfold join_requests, activations in *. change (ev :: evs) with ([ev] ++ evs). rewrite !List.filter_app, !length_app. lia.
Qed.

(** ** The page and the API *)

Section Api.
Context {wire : Wire} {crypto : Crypto}.
Context (scan_participants : gmap (Z * string) ParticipantRow -> list ((Z * string) * ParticipantRow)).
Context (scan_meetings : gmap Z MeetingRow -> list (Z * MeetingRow)).
Context (st : AppState) (encode_total : forall claims, exists t, encode_room (as_jwt_secret st) claims = Ok t).
(** The JSON of an error holds its code. *)
Context (error_text : APIError -> string) (text_has_code : forall e, str_contains (ae_code e) (error_text e) = true).

Notation serve := (serve scan_participants scan_meetings st).

(** What the client makes of the API's answer about its own status. *)
Definition my_status (now : Z) (user room : string) (d : Db) : result ParticipantStatusResponse ApiError :=
  api_request (Ok tt) (Ok (status_response error_text (serve now user (GetMyStatus room) d).2)).

Lemma my_status_ended now user room d m :
  get_by_room_id room d = Some m -> mr_state m = Ended -> my_status now user room d = Err ApiMeetingNotActive.
Proof.
  intros Hm He. unfold my_status, MeetingFlows.serve. simpl. rewrite Hm. simpl. rewrite bool_decide_true by done. simpl.
  unfold parse_api_response. simpl. by rewrite (text_has_code (mkAPIError "MEETING_NOT_ACTIVE" _ _)).
Qed.

(** C18: a guest whom the host has admitted gets in. Whichever poll or push made the page ask, and
    whatever the page shows by then, the answer brings it into the meeting as a guest, with a
    token that the API made for this participant and this room. *)
Theorem admitted_guest_gets_in now room user d m row page i t :
  get_by_room_id room d = Some m -> mr_state m <> Ended ->
  db_participants d !! (mr_id m, user) = Some row -> pt_status row = IsAdmitted ->
  pg_checks page !! i = Some t ->
  exists token host host_uid wr,
    meeting_status (page_step page (PgCheckReply i (my_status now user room d))).1 = StAdmitted false host host_uid token wr /\
    encode_room (as_jwt_secret st) (room_claims now (as_token_ttl_secs st) user room (pt_is_host row) (default user (pt_display_name row))) = Ok token.
Proof.
  intros Hm Hs Hp Ha Ht.
  destruct (status_of_row scan_participants scan_meetings st encode_total now user room d m row Hm Hs Hp) as (r & Er & Es & _ & Htok).
  rewrite bool_decide_true in Htok by done. destruct Htok as (token & Et & Henc). rewrite Ha in Es.
  unfold my_status. rewrite Er. simpl. rewrite Ht. cbn [fst snd]. unfold parse_api_response. simpl.
  exists token, (ps_host_display_name r), (ps_host_user_id r), (default true (ps_waiting_room_enabled r)). split; [|done].
  unfold on_check_reply. rewrite Es, Et. simpl. destruct t; simpl; by rewrite Et.
Qed.

(** A meeting that has ended is not noticed by whoever waits: every answer about his status is
    taken for a failed poll. *)
Theorem end_is_not_noticed now room user d m page i :
  get_by_room_id room d = Some m -> mr_state m = Ended ->
  meeting_status (page_step page (PgCheckReply i (my_status now user room d))).1 = meeting_status page.
Proof.
  intros Hm He. rewrite (my_status_ended now user room d m Hm He). simpl. destruct (pg_checks page !! i) as [t|]; [|done].
  destruct t; simpl; by rewrite ?show_wait_error_status.
Qed.

(** A page that reconnects gets what the API says of the participant: a token for the room
    while he is admitted, the end of the meeting, or a failure to try again. *)
Theorem refresh_follows_the_api now room user d m row :
  get_by_room_id room d = Some m -> db_participants d !! (mr_id m, user) = Some row ->
  match refreshed (refresh_room_token (my_status now user room d)) with
  | RefreshOk token => mr_state m <> Ended /\ pt_status row = IsAdmitted /\
      encode_room (as_jwt_secret st) (room_claims now (as_token_ttl_secs st) user room (pt_is_host row) (default user (pt_display_name row))) = Ok token
  | MeetingNotActive => mr_state m = Ended
  | RefreshFailed _ => mr_state m <> Ended /\ pt_status row <> IsAdmitted
  end.
Proof.
  intros Hm Hp. destruct (decide (mr_state m = Ended)) as [He|He]; [by rewrite (my_status_ended now user room d m Hm He) |].
  destruct (status_of_row scan_participants scan_meetings st encode_total now user room d m row Hm He Hp) as (r & Er & _ & _ & Htok).
  unfold my_status. rewrite Er. simpl. unfold parse_api_response. simpl. case_bool_decide as Ha.
  - destruct Htok as (token & -> & Henc). simpl. done.
  - rewrite Htok. simpl. done.
Qed.
End Api.

(** ** What the page misses *)

(** The page waits for the start of the meeting and has nothing under way. *)
Definition waits_for_start (token : string) (p : Page) : Prop :=
  meeting_status p = StWaitingForMeeting token /\ pg_joins p = [] /\ pg_checks p = [] /\ pg_waiting_room p = None /\ pg_observing p = false.

(** While the page waits for the start it does not ask: if the push is missed (the host starts
    before the observer is connected, or its connection is lost), nothing else that happens to
    the page gets it into the meeting. *)
Theorem missed_start_waits_for_ever (token : string) (p : Page) (evs : list page_event) :
  waits_for_start token p -> Forall (fun ev => forall dn, ev <> PgActivated dn) evs ->
  waits_for_start token (page_run p evs).1.
Proof.
  intros Hp Hevs. apply (run_invariant_on page_step (fun ev => forall dn, ev <> PgActivated dn) (waits_for_start token) (fun _ => True)); [|done | done].
  clear. intros p ev Hev (Hs & Hj & Hc & Hw & Ho).
  enough (waits_for_start token (page_step p ev).1) as H by (destruct (page_step p ev); split; [done | by apply Forall_true]).
  destruct ev; simpl; rewrite ?Hj, ?Hc, ?Ho, ?Hw; try done.
  - unfold on_submit. by destruct (validate_display_name _).
  - unfold auto_join. rewrite Hs. by destruct (pg_name p).
  - unfold observer_effect. destruct (observer_token_signal p) as [[|]|], (pg_observer p); done.
  - unfold render. rewrite Hs. by destruct (pg_name p).
  - by destruct (Hev display_name).
  - unfold set_connected. by rewrite Hw.
  - unfold show_wait_error. rewrite Hw. unfold set_connected. by rewrite Hw.
Qed.

(** When the meeting is over again by the time the page asks, the answer that it should wait
    is an unknown status. *)
Theorem restarted_wait_is_an_error (local_id : string) (r : ParticipantStatusResponse) (p : Page) :
  ps_status r = "waiting_for_meeting"%string ->
  meeting_status (on_rejoin_reply local_id (Ok r) p) = StError "Unknown status: waiting_for_meeting" /\
  meeting_status (on_join_reply local_id (pg_input p) (Ok r) p) = StWaitingForMeeting (default EmptyString (ps_observer_token r)).
Proof. intros Hs. simpl. by rewrite Hs. Qed.

(** The form accepts a name by its normal form, and shows that; what the page sends is the
    input as it was typed. *)
Theorem typed_name_is_sent :
  let typed := [32; 66; 111; 98; 32; 32; 66] in
  let '(p, effects) := page_run (page_new None None) [PgInput typed; PgSubmit; PgAutoJoin] in
  pg_name p = Some [66; 111; 98; 32; 66] /\ effects = [PgSaveName [66; 111; 98; 32; 66]; PgJoinRequest typed].
Proof. by vm_compute. Qed.

(** ** Witnesses *)

(** Bob joins, waits, and the poll of the waiting room is answered. *)
Definition reply_with (status : string) (room_token observer_token : option string) : ParticipantStatusResponse :=
  mkStatusResponse "bob" None status false 0 None room_token observer_token (Some true) (Some "Alice"%string) (Some "alice"%string).

Definition bobs_way : list page_event :=
  [PgAutoJoin; PgJoinReply 0 "local" (Ok (reply_with "waiting" None (Some "observer"%string))); PgRender; PgPollTick; PgObserverConnected;
   PgCheckReply 1 (Ok (reply_with "admitted" (Some "token"%string) None))].

Lemma page_enters_with_issued_token_witness :
  exists r, answered bobs_way r /\ ps_room_token r = Some "token"%string.
Proof.
  destruct (page_enters_with_issued_token (Some [66; 111; 98]) None bobs_way false (Some "Alice"%string) (Some "alice"%string) "token" true)
    as (r & H1 & H2 & _); [vm_compute; reflexivity |].
  exists r. exact (conj H1 H2).
Defined.

Lemma missed_start_waits_for_ever_witness :
  let p := (page_run (page_new (Some [66; 111; 98]) None)
    [PgAutoJoin; PgJoinReply 0 "local" (Ok (reply_with "waiting_for_meeting" None (Some "observer"%string)))]).1 in
  waits_for_start "observer" (page_run p [PgObserverEffect; PgRender; PgPollTick]).1.
Proof.
  intros p. apply missed_start_waits_for_ever; [vm_compute; split_and!; reflexivity |].
  repeat (constructor; [discriminate |]). constructor.
Defined.

(** The tables after Alice has admitted Bob. *)
Definition demo_admitted_db : Db := sv_db (run demo_step started demo_evs).1.

Lemma admitted_guest_gets_in_witness :
  exists token host host_uid wr,
    meeting_status (page_step (page_run (page_new (Some [66; 111; 98]) None) (take 4 bobs_way)).1
      (PgCheckReply 1 (my_status map_to_list map_to_list demo_state ae_code 5000000 "bob" "r" demo_admitted_db))).1 =
    StAdmitted false host host_uid token wr.
Proof.
  destruct (admitted_guest_gets_in map_to_list map_to_list demo_state (demo_encode_total "k") ae_code 5000000 "r" "bob" demo_admitted_db
    demo_meeting demo_guest (page_run (page_new (Some [66; 111; 98]) None) (take 4 bobs_way)).1 1 IntervalPoll)
    as (token & host & host_uid & wr & H & _);
    [vm_compute; reflexivity | discriminate | vm_compute; reflexivity | reflexivity | vm_compute; reflexivity |].
  exists token, host, host_uid, wr. exact H.
Defined.
